(* ===== verification/_CoqProject ===== *)
-Q . S2P
Prelude.v
GoString.v
Utf8.v
Runes.v
Unicode.v
GoFloat.v
Contracts.v
Policy.v
Decision.v
PolicyPack.v
Builtin.v
BoundaryResolve.v
GoHeap.v
GoPath.v
Discovery.v
Engine.v
GoFmt.v
GoInt.v
GoHost.v
KeyStore.v
Backup.v
GoFlag.v
Config.v
Cli.v
Textutil.v
Compiler.v
Compiled.v
Checkpoint.v
Regex.v
Lint.v
Pipeline.v
Report.v
ReportRender.v
CliRun.v
Commands.v
Display.v
AuditRequest.v
Service.v
ServiceState.v
ServiceAudit.v
Metrics.v
Baseline.v
Outlier.v
Diagnosis.v
Tokens.v
Lineage.v
Ordering.v
Runtime.v
AuditEngine.v
AuditReport.v
AuditBudget.v
Evidence.v
Attribution.v
Workload.v
Status.v
Snapshots.v
Setup.v
Installed.v
Adapters.v
Collector.v
Replay.v
Transactions.v
Tables.v
Retention.v
Archive.v
Keys.v
Versions.v
SessionAudit.v
Leases.v
LineageRows.v
CommitStore.v
Linked.v
Committed.v
PostgresBackend.v
AuditQueries.v
AuditFacts.v
AuditSnapshot.v
AuditPersist.v
Audited.v
AuditPrivacy.v
