(* ===== verification/Prelude.v ===== *)
(** * Prompt Better: a Rocq model

    Prompt Better is a local MCP server that compiles prompts, lints them, keeps checkpoints
    and audits normalised evidence of past work, which a collector reads from local logs into
    a PostgreSQL store.  This development models what a request is answered with, what a
    session remembers, which decisions a policy takes, which numbers and findings an audit
    reports, how a report is rendered within its budget, what evidence is let in, how it is
    collected, and what the transactions of the store do.  File names are those of the
    repository.

    ** The parts and their files

    - The Go language and its standard library.  [Prelude]: results of fallible functions,
      [sort.Slice] as a stable insertion sort with the lemmas that make the choice of
      algorithm irrelevant, string order, tactics.  [GoString], [Utf8], [Runes], [Unicode]:
      strings as byte sequences, decoding and encoding of runes with U+FFFD for invalid
      bytes, the functions of package strings that the code calls.  [GoFloat]: float64 as
      IEEE 754 binary64 through [SpecFloat].  [GoInt]: 64-bit integers with wrap-around.
      Big-endian numbers are there too.  [GoHost]: authenticated encryption behind its interface,
      with its laws as a class, and a disk whose operations can fail.  [GoFlag]: package flag,
      the numbers it reads and [time.ParseDuration].
      [GoFmt]: [%g], [time.Time] and JSON encodings.  [GoHeap]: container/heap.  [GoPath]:
      path/filepath.  [Regex]: the regular expressions of package regexp that the code uses,
      parsed from the literals of the source and matched by derivatives.
    - pkg/contracts: [Contracts], the records and constants that cross a boundary.
    - internal/policy: [Policy]; internal/boundary: [Decision], [BoundaryResolve],
      [Discovery] and [Engine]; internal/policypack and policies/builtin: [PolicyPack] and
      [Builtin].  A repository is discovered into candidates, candidates are ordered and
      their conflict cycles found, packs are evaluated on the facts of every candidate, and
      the most severe decisions are kept in a bounded heap.
    - internal/textutil: [Textutil]; internal/compiler: [Compiler] (definitions) and
      [Compiled] (theorems); internal/checkpoint: [Checkpoint]; internal/lint: [Lint];
      [Pipeline] is the compiler followed by the linter.
    - internal/metrics: [Metrics]; internal/baseline: [Baseline]; internal/outlier:
      [Outlier]; internal/diagnosis and internal/recommendation: [Diagnosis];
      internal/audit: [AuditRequest] (the checks of a request), [AuditEngine] (the audit of a
      snapshot and the byte budget), [AuditReport] and [AuditBudget] (theorems).
    - internal/report: [Report] (the model of a report), [ReportRender] (its three
      renderings, the truncation and the budget) and [Display] (what display text can do).
    - internal/tools: [Service] (every handler over the state of the sessions),
      [ServiceState] (runs of calls, invariants, isolation) and [ServiceAudit].
    - internal/evidence: [Evidence];
      internal/attribution: [Attribution]; internal/workload: [Workload]; internal/status and
      internal/confounder: [Status]; internal/replay and internal/eval: [Replay].
    - internal/adapters: [Adapters]; internal/collector: [Collector] (the runs, over an
      interface of stores with laws), [Snapshots] (records become typed rows) and
      [PostgresBackend] (the interface implemented by the repository).
    - internal/store/postgres/repository.go: [Transactions] (serializable calls),
      [Tables] (the rows and the statements), [Versions] (projects and sources with their
      histories, and internal/dimensions), [Leases] (cursors and leases), [LineageRows] and
      [CommitStore] (the commit of a batch, statement by statement), [Linked] and [Committed]
      (its theorems).
    - The other files of internal/store/postgres: [Retention]
      (retention.go: policies, plans, their application after an archive, and what a DELETE
      takes with it);
      [Keys] (identity.go: keys and keyed aliases); [SessionAudit] (audit.go: the audit of a
      session, and the tool over it); and for governance.go [AuditQueries] (scopes and the
      statement of the metrics), [AuditFacts] (the other statements), [AuditSnapshot] (the
      snapshot of a scope with its windows), [AuditPersist] (the transaction of an audit) and
      its theorems in [Audited] and [AuditPrivacy].
    - internal/identity: [KeyStore] (aliases and the encrypted store of keys);
      internal/recovery: [Backup]; internal/retention: [Archive].
    - internal/config and internal/cli: [Config] (the layers of settings), [Cli] (flags, input,
      repository boundaries), [CliRun] (the commands) and [Commands] (theorems).
    - internal/setup: [Setup] (init, its removal and doctor, as operations on files and on Codex) and
      [Installed] (theorems).
    - internal/tokens: [Tokens]; internal/lineage: [Lineage]; internal/normalize:
      [Ordering]; internal/runtime: [Runtime].

    ** How the code is read

    A function with results [(T, error)] is a [result E T]; a validator that returns an
    error is an [option E], [None] being nil; a function that can panic returns an [option]
    around that, and a theorem shows that it never does.  A nil slice and an empty one are the
    same list, but for the arguments of a registration, whose digest tells them apart.  An
    instant is a [Z] of nanoseconds, a time zone being a matter of display.
    Maps are [gmap]; where the code ranges over a map the model takes the elements in any
    order that the theorems allow, and sorts where the code sorts.  State is passed
    explicitly: a handler of the service takes the map of sessions and returns the next one,
    which is what the mutex of the code makes of it.  A call that leaves the repository (the
    database, JSON decoding, HMAC, the clock, the file system, the MCP library) is an
    argument of the definitions that make it.

    ** The store

    A call of the database is a function of a connection, [Transactions.Conn]: the rows and
    the number of statements sent.  What the program cannot know is an [Outside]: which
    statement fails and with which code, the clock and the size of the database at a
    statement, the answer to a COMMIT - done, refused, or none, the transaction being applied
    or not - and what other connections commit in between.  Theorems hold for every one.  The
    statements are read from the SQL of the code: the keys, the foreign keys and the
    conditions of ON CONFLICT are those of migrations/; the other constraints of the schema
    only make statements fail, which any may.  A transaction is serializable: it runs on what
    others left, and gives that back when it is rolled back.  A timestamptz has microseconds:
    [Versions] cuts instants off where ranges depend on it; the other instants are kept as they
    are given, and are taken to be whole microseconds.

    ** What the theorems show

    - Permission: the execution policy is a truth table, decisions fail closed and are
      monotone in hazard, extension packs only add decisions, no audit runs without consent.
    - Sessions: the invariants and bounds of every reachable state, isolation of sessions,
      a checkpoint read back is the last one saved, an audit can be reported from its copy.
    - Collection: whatever fails and however often a growing source is visited, the store has
      the evidence of its first items, one row each, and no other; a commit applies a batch
      as a whole or not at all; leases exclude each other and fence commits, and what
      [AdvanceSequenceCursor], which takes no fence, does to them; once the store works again a
      source is caught up with; values that look like secrets never get in.
    - History: a dimension is a refinement of a timeline, a version is found as of a time.
    - Evaluation: exact functional specifications of the engine, the packs, the linter, the
      metrics, the baseline verdicts, the outliers and the correlation of invocations, with
      independence of the order of the input where the code sorts or uses maps.
    - Audits over the store: an audit becomes one revision of its window, numbered without
      gaps, with its metrics, findings, recommendations and links, and writes nothing else;
      the audit of a session lists only what the request and the configuration allow, and says
      exactly when a version of its dimensions was not found; the audit of a small cohort is
      silent.
    - Retention deletes what was planned, archived and is still due, and no audit that rests
      on other evidence; aliases stay unambiguous.
    - Files: the key store is a map whatever fails, a backup restores what was dumped, what is
      accepted as a backup and how one can be cut unnoticed, the receipt of an archive proves
      that it holds the plan.
    - Setup: an installation overwrites nothing and is all or nothing, its removal takes what the
      manifest owns and nothing else, and undoes it.
    - The command line: precedence of settings, the reply of every command line as a function of
      it, what of it is printed where with which exit code, and that it prints what the compiler
      makes of the text.
    - Composition: every result of an audit is accepted by the report, every recommendation
      is supported by a finding, and a compiled prompt passes the linter.
    - Bounds and termination: the search for cycles, the rendering within 50000 bytes, the
      byte budget of an audit, wrapped lines and cells.
    - Round trips: rendered checkpoints parse back, wrapped counters are recovered, improving
      a compiled prompt changes nothing.
    - Where the code does not do what it means to do, a theorem states what it does.

    ** Bounds and fuel

    Every fuel is computed from the input and a theorem shows that it is enough: the depth of
    a conflict graph for [BoundaryResolve.firstCycle], the number of rows for
    [ReportRender.RenderBounded], the number of items that can be dropped for
    [AuditEngine.boundResult], the length of the list for [Service.evict], the bytes that are
    left for [Backup.decrypt_chunks].

    ** Not modelled

    maintenance.go, migrate.go and roles.go of internal/store/postgres (VACUUM, migrations and
    roles), internal/runner and cmd: they administer a server and wire the parts together.  Cryptography (AES-GCM, SHA-256, HMAC) is behind its documented laws, and the
    PostgreSQL client programs are arguments.  JSON decoding
    (policypack.Parse, tools.decodeStrict, eval/corpus.go) is the standard library's
    reflection.  internal/mcpserver is framing for a third-party library.
    internal/reviewpatterns and scripts/ check the repository itself. *)
From stdpp Require Export base option list sorting gmap sets strings.
From Stdlib Require Export ZArith Lia Bool.

(** ** Results of fallible Go functions

    A Go function with results [(T, error)] that returns the zero value of [T]
    together with a non-nil error is modelled by [result E T].  A validator that
    returns only an [error] is modelled by [option E], [None] being [nil]. *)
Inductive result (E A : Type) : Type :=
  | Ok (value : A)
  | Err (error : E).
Arguments Ok {E A} value.
Arguments Err {E A} error.

Declare Scope go_scope.
Delimit Scope go_scope with go.
Open Scope go_scope.

(** [let! x := c in k] is Go's [x, err := c; if err != nil { return err }]. *)
Notation "'let!' x := c 'in' k" :=
  (match c with Ok x => k | Err e => Err e end)
  (at level 10, x pattern, c at level 200, k at level 200) : go_scope.

(** [check! c in k] is Go's [if err := c; err != nil { return err }]. *)
Notation "'check!' c 'in' k" :=
  (match c with Some e => Err e | None => k end)
  (at level 10, c at level 200, k at level 200) : go_scope.

(** Inside a validator: the first error found wins. *)
Notation "'first!' c 'else' k" :=
  (match c with Some e => Some e | None => k end)
  (at level 10, c at level 200, k at level 200) : go_scope.

Definition is_ok {E A} (r : result E A) : bool :=
  match r with Ok _ => true | Err _ => false end.

(** ** Tactics of the development *)

(** Case analysis on the scrutinee of a [match] or [if] of the goal. *)
Ltac case_goal :=
  match goal with
  | |- context [match ?x with _ => _ end] =>
      lazymatch x with
      | context [match _ with _ => _ end] => fail
      | _ => let E := fresh "E" in destruct x eqn:E
      end
  end.

(** The same in a hypothesis. *)
Ltac case_hyp H :=
  match type of H with
  | context [match ?x with _ => _ end] =>
      lazymatch x with
      | context [match _ with _ => _ end] => fail
      | _ => let E := fresh "E" in destruct x eqn:E
      end
  end.

(** Turn boolean hypotheses into propositions. *)
Ltac bool_facts :=
  repeat match goal with
  | H : andb _ _ = true |- _ => apply andb_true_iff in H; destruct H
  | H : orb _ _ = false |- _ => apply orb_false_iff in H; destruct H
  | H : negb _ = true |- _ => apply negb_true_iff in H
  | H : negb _ = false |- _ => apply negb_false_iff in H
  | H : bool_decide _ = true |- _ => apply bool_decide_eq_true_1 in H
  | H : bool_decide _ = false |- _ => apply bool_decide_eq_false_1 in H
  | H : (_ <? _)%Z = true |- _ => apply Z.ltb_lt in H
  | H : (_ <? _)%Z = false |- _ => apply Z.ltb_ge in H
  | H : (_ <=? _)%Z = true |- _ => apply Z.leb_le in H
  | H : (_ <=? _)%Z = false |- _ => apply Z.leb_gt in H
  | H : (_ =? _)%Z = true |- _ => apply Z.eqb_eq in H
  | H : (_ =? _)%Z = false |- _ => apply Z.eqb_neq in H
  | H : (_ <? _)%nat = true |- _ => apply Nat.ltb_lt in H
  | H : (_ <? _)%nat = false |- _ => apply Nat.ltb_ge in H
  | H : (_ <=? _)%nat = true |- _ => apply Nat.leb_le in H
  | H : (_ <=? _)%nat = false |- _ => apply Nat.leb_gt in H
  | H : (_ =? _)%nat = true |- _ => apply Nat.eqb_eq in H
  | H : (_ =? _)%nat = false |- _ => apply Nat.eqb_neq in H
  end.

(** Split the disjunctions of booleans known to be true. *)
Ltac bool_cases :=
  repeat (bool_facts; match goal with
  | H : orb _ _ = true |- _ => apply orb_true_iff in H; destruct H
  | H : andb _ _ = false |- _ => apply andb_false_iff in H; destruct H
  end); bool_facts.

(** ** Go's [sort] package

    [less] is the comparison closure the code passes.  [sort.Slice] promises a
    sorted permutation when [less] is a strict weak order; [sort.SliceStable]
    also keeps the order of incomparable elements.  [go_sort] is the stable
    insertion sort, which meets both contracts; [go_sort_unique] says when every
    algorithm that meets the contract of [sort.Slice] gives the same list. *)
Class StrictWeak {A} (less : A -> A -> bool) : Prop := {
  sw_asym : forall a b, less a b = true -> less b a = false;
  sw_trans : forall a b c,
    less b a = false -> less c b = false -> less c a = false
}.

Section Sort.
Context {A : Type} (less : A -> A -> bool).

Fixpoint sort_insert (x : A) (l : list A) : list A :=
  match l with
  | [] => [x]
  | y :: l' => if less y x then y :: sort_insert x l' else x :: y :: l'
  end.

Fixpoint go_sort (l : list A) : list A :=
  match l with
  | [] => []
  | x :: l' => sort_insert x (go_sort l')
  end.

Definition not_after (a b : A) : Prop := less b a = false.

Lemma sort_insert_perm x l : sort_insert x l ≡ₚ x :: l.
Proof.
  induction l as [|y l IH]; simpl; [done|].
  destruct (less y x); [|done]. rewrite IH. apply perm_swap.
Qed.

Lemma go_sort_perm l : go_sort l ≡ₚ l.
Proof.
  induction l as [|x l IH]; simpl; [done|].
  by rewrite sort_insert_perm, IH.
Qed.

Lemma length_go_sort l : length (go_sort l) = length l.
Proof. apply Permutation_length, go_sort_perm. Qed.

Lemma elem_of_go_sort x l : x ∈ go_sort l <-> x ∈ l.
Proof. by rewrite go_sort_perm. Qed.

Lemma elem_of_sort_insert x y l : y ∈ sort_insert x l <-> y = x \/ y ∈ l.
Proof. rewrite sort_insert_perm. apply elem_of_cons. Qed.

Context `{SW : !StrictWeak less}.

Lemma sw_irrefl a : less a a = false.
Proof.
  destruct (less a a) eqn:E; [|done]. pose proof (sw_asym _ _ E). congruence.
Qed.

Lemma sort_insert_sorted x l :
  StronglySorted not_after l -> StronglySorted not_after (sort_insert x l).
Proof.
  induction 1 as [|y l HS IH HF]; simpl; [by repeat constructor|].
  destruct (less y x) eqn:E.
  - constructor; [done|]. rewrite sort_insert_perm. constructor; [|done].
    by apply sw_asym.
  - constructor; [by constructor|]. constructor; [done|].
    eapply Forall_impl; [exact HF|]. intros z Hz. unfold not_after in *.
    by eapply sw_trans.
Qed.

Lemma go_sort_sorted l : StronglySorted not_after (go_sort l).
Proof. induction l; simpl; [constructor | by apply sort_insert_sorted]. Qed.

(** Two sorted permutations agree when ties are equal elements. *)
Lemma sorted_perm_unique l1 l2 :
  (forall a b, a ∈ l1 -> b ∈ l1 -> not_after a b -> not_after b a -> a = b) ->
  StronglySorted not_after l1 -> StronglySorted not_after l2 ->
  l1 ≡ₚ l2 -> l1 = l2.
Proof.
  revert l2. induction l1 as [|x l1 IH]; intros l2 Hanti H1 H2 HP.
  { symmetry. by apply Permutation_nil. }
  destruct l2 as [|y l2]; [by symmetry in HP; apply Permutation_nil in HP|].
  apply StronglySorted_inv in H1 as [H1 F1].
  apply StronglySorted_inv in H2 as [H2 F2].
  rewrite Forall_forall in F1, F2.
  assert (x = y) as ->.
  { assert (x ∈ y :: l2) as Hx by (rewrite <- HP; left).
    assert (y ∈ x :: l1) as Hy by (rewrite HP; left).
    apply elem_of_cons in Hx as [->|Hx]; [done|].
    apply elem_of_cons in Hy as [->|Hy]; [done|].
    apply Hanti; [left|by right|by apply F1|by apply F2]. }
  f_equal. apply IH; [|done..|].
  - intros a b Ha Hb. apply Hanti; by right.
  - by eapply Permutation_cons_inv.
Qed.

Lemma go_sort_unique l s :
  (forall a b, a ∈ l -> b ∈ l -> not_after a b -> not_after b a -> a = b) ->
  StronglySorted not_after s -> s ≡ₚ l -> s = go_sort l.
Proof.
  intros Hanti HS HP. symmetry. apply sorted_perm_unique.
  - intros a b. rewrite !elem_of_go_sort. apply Hanti.
  - apply go_sort_sorted.
  - done.
  - by rewrite go_sort_perm.
Qed.

Lemma go_sort_perm_eq l1 l2 :
  (forall a b, a ∈ l1 -> b ∈ l1 -> not_after a b -> not_after b a -> a = b) ->
  l1 ≡ₚ l2 -> go_sort l1 = go_sort l2.
Proof.
  intros Hanti HP. symmetry. apply go_sort_unique; [done|apply go_sort_sorted|].
  by rewrite go_sort_perm.
Qed.

Lemma go_sort_id l : StronglySorted not_after l -> go_sort l = l.
Proof.
  induction 1 as [|x l HS IH HF]; simpl; [done|]. rewrite IH.
  destruct l as [|y l]; simpl; [done|].
  apply Forall_cons_1 in HF as [Hxy _]. by rewrite Hxy.
Qed.
End Sort.

(** Sorting only looks at the comparisons of elements of the list. *)
Lemma go_sort_ext {A} (less less' : A -> A -> bool) l :
  (forall a b, a ∈ l -> b ∈ l -> less a b = less' a b) ->
  go_sort less l = go_sort less' l.
Proof.
  assert (forall x k, (forall a, a ∈ k -> less a x = less' a x) ->
    sort_insert less x k = sort_insert less' x k) as Hins.
  { intros x k. induction k as [|y k IH]; intros H; simpl; [done|].
    rewrite <- (H y) by left. rewrite IH; [done|]. intros a Ha. apply H. by right. }
  induction l as [|x l IH]; intros H; simpl; [done|].
  rewrite <- IH by (intros; apply H; by right). apply Hins.
  intros a Ha%elem_of_go_sort. apply H; [by right|by left].
Qed.

(** Sorting by a key and taking the keys, or taking the keys and sorting them. *)
Lemma go_sort_fmap {A B} (key : A -> B) (less : B -> B -> bool) l :
  key <$> go_sort (fun a b => less (key a) (key b)) l = go_sort less (key <$> l).
Proof.
  assert (forall x k, key <$> sort_insert (fun a b => less (key a) (key b)) x k =
    sort_insert less (key x) (key <$> k)) as Hins.
  { intros x k. induction k as [|y k IH]; csimpl; [done|].
    destruct (less (key y) (key x)); csimpl; [by rewrite IH|done]. }
  induction l as [|x l IH]; csimpl; [done|]. by rewrite Hins, IH.
Qed.

Lemma StronglySorted_weaken {A} (R R' : A -> A -> Prop) l :
  (forall a b, R a b -> R' a b) -> StronglySorted R l -> StronglySorted R' l.
Proof.
  intros HR. induction 1; constructor; [done|]. eapply Forall_impl; eauto.
Qed.

Lemma StronglySorted_on {A} (R R' : A -> A -> Prop) l :
  StronglySorted R l -> (forall a b, a ∈ l -> b ∈ l -> R a b -> R' a b) -> StronglySorted R' l.
Proof.
  induction 1 as [|x l HS IH HF]; intros HR; constructor.
  - apply IH. intros a b Ha Hb. apply HR; by right.
  - rewrite Forall_forall in HF |- *. intros b Hb. apply HR; [by left|by right|by apply HF].
Qed.

(** The first elements of a sorted list come before the others. *)
Lemma StronglySorted_cut {A} (R : A -> A -> Prop) n l :
  StronglySorted R l ->
  StronglySorted R (take n l) /\ forall a b, a ∈ take n l -> b ∈ drop n l -> R a b.
Proof.
  intros H. rewrite <- (take_drop n l) in H. split; [by eapply StronglySorted_app_1_l|].
  intros a b Ha Hb. by eapply StronglySorted_app_1_elem_of.
Qed.

(** ** Building comparison closures *)
Lemma strict_weak_on {A B} (f : A -> B) (less : B -> B -> bool) :
  StrictWeak less -> StrictWeak (fun a b => less (f a) (f b)).
Proof. intros [Ha Ht]. split; intros *; [apply Ha | apply Ht]. Qed.

Lemma strict_weak_flip {A} (less : A -> A -> bool) :
  StrictWeak less -> StrictWeak (fun a b => less b a).
Proof. intros [Ha Ht]. split; intros *; [apply Ha | intros ??; by eapply Ht]. Qed.

(** [if l.f != r.f { return l.f < r.f }; return rest]. *)
Lemma strict_weak_lex {A} (same less1 less2 : A -> A -> bool) :
  (forall a b, same a b = true <-> less1 a b = false /\ less1 b a = false) ->
  StrictWeak less1 -> StrictWeak less2 ->
  StrictWeak (fun a b => if same a b then less2 a b else less1 a b).
Proof.
  intros Hs [A1 T1] [A2 T2].
  assert (Hsym : forall a b, same a b = same b a).
  { intros a b. apply eq_true_iff_eq. rewrite !Hs. tauto. }
  assert (Hne : forall a b, same a b = false -> less1 a b = true \/ less1 b a = true).
  { intros a b E. destruct (less1 a b) eqn:?, (less1 b a) eqn:?; auto.
    assert (same a b = true) by (by apply Hs). congruence. }
  split.
  - intros a b. rewrite (Hsym b a). destruct (same a b); [apply A2|apply A1].
  - intros a b c. rewrite (Hsym b a), (Hsym c b), (Hsym c a).
    destruct (same a b) eqn:Eab, (same b c) eqn:Ebc, (same a c) eqn:Eac;
      intros Hab Hbc;
      repeat match goal with
      | H : same _ _ = true |- _ => apply Hs in H as [??]
      end; try (by eapply T2); try (by eapply T1);
      exfalso; first
        [ apply Hne in Eab as [?|?] | apply Hne in Ebc as [?|?] | apply Hne in Eac as [?|?] ];
      repeat match goal with
      | H : less1 ?x ?y = true |- _ =>
          first [ assert (less1 x y = false) by (by eauto 3 using T1); congruence
                | clear H ]
      end.
Qed.

Lemma strict_weak_lex_ne {A} (same less1 less2 : A -> A -> bool) :
  (forall a b, same a b = true <-> less1 a b = false /\ less1 b a = false) ->
  StrictWeak less1 -> StrictWeak less2 ->
  StrictWeak (fun a b => if negb (same a b) then less1 a b else less2 a b).
Proof.
  intros Hs H1 H2. destruct (strict_weak_lex same less1 less2 Hs H1 H2) as [Ha Ht].
  split; intros *; rewrite !if_negb; [apply Ha|apply Ht].
Qed.

(** ** Go's order on strings: bytewise lexicographic *)
Definition str_lt (a b : string) : bool := negb (bool_decide (String.le b a)).

#[export] Instance str_lt_strict_weak : StrictWeak str_lt.
Proof.
  unfold str_lt. split.
  - intros a b H. bool_facts. apply negb_false_iff, bool_decide_eq_true.
    destruct (total String.le a b); naive_solver.
  - intros a b c H1 H2. bool_facts. apply negb_false_iff, bool_decide_eq_true.
    by etrans.
Qed.

Lemma str_lt_antisym a b : str_lt a b = false -> str_lt b a = false -> a = b.
Proof.
  unfold str_lt. intros H1 H2. bool_facts. by apply (anti_symm String.le).
Qed.

Lemma str_lt_irrefl a : str_lt a a = false.
Proof. apply sw_irrefl, _. Qed.

#[export] Instance Z_ltb_strict_weak : StrictWeak Z.ltb.
Proof. split; intros *; rewrite ?Z.ltb_lt, ?Z.ltb_ge; lia. Qed.

Lemma Z_eqb_same {A} (f : A -> Z) a b :
  (f a =? f b)%Z = true <-> (f a <? f b)%Z = false /\ (f b <? f a)%Z = false.
Proof. rewrite Z.eqb_eq, !Z.ltb_ge. lia. Qed.

Lemma Z_eqb_same_flip {A} (f : A -> Z) a b :
  (f a =? f b)%Z = true <-> (f b <? f a)%Z = false /\ (f a <? f b)%Z = false.
Proof. rewrite Z.eqb_eq, !Z.ltb_ge. lia. Qed.

Lemma Z_gtb_on_strict_weak {A} (f : A -> Z) : StrictWeak (fun a b => f b <? f a)%Z.
Proof. apply (strict_weak_on f (fun a b => b <? a)%Z), strict_weak_flip, _. Qed.

Lemma Z_ltb_on_strict_weak {A} (f : A -> Z) : StrictWeak (fun a b => f a <? f b)%Z.
Proof. apply strict_weak_on, _. Qed.

Lemma str_lt_on_strict_weak {A} (f : A -> string) : StrictWeak (fun a b => str_lt (f a) (f b)).
Proof. apply strict_weak_on, _. Qed.

(** [sort.Strings]. *)
Definition sort_strings : list string -> list string := go_sort str_lt.

Lemma sort_strings_perm_eq l1 l2 :
  l1 ≡ₚ l2 -> sort_strings l1 = sort_strings l2.
Proof.
  intros HP. apply go_sort_perm_eq; [apply _| |done].
  intros a b _ _ H1 H2. by apply str_lt_antisym.
Qed.

Lemma sort_strings_perm l : sort_strings l ≡ₚ l.
Proof. apply go_sort_perm. Qed.

Lemma sort_strings_sorted l : StronglySorted (not_after str_lt) (sort_strings l).
Proof. apply go_sort_sorted, _. Qed.

(** Elements of a list whose keys are pairwise distinct are identified by the key. *)
Lemma NoDup_fmap_inj_elem {A B} (f : A -> B) (l : list A) a b :
  NoDup (f <$> l) -> a ∈ l -> b ∈ l -> f a = f b -> a = b.
Proof.
  induction l as [|x l IH]; intros HN Ha Hb Hk; [by apply not_elem_of_nil in Ha|].
  rewrite fmap_cons, NoDup_cons in HN. destruct HN as [Hx HN].
  assert (forall y, y ∈ l -> f x <> f y) as Hne.
  { intros y Hy E. apply Hx. rewrite E. by apply list_elem_of_fmap_2. }
  apply elem_of_cons in Ha as [->|Ha], Hb as [->|Hb]; naive_solver.
Qed.

(** Sorting by a string key that has no duplicates is independent of the
    order of the input, so [sort.Slice] is determined by its contract. *)
Lemma go_sort_by_key_perm_eq {A} (key : A -> string) l1 l2 :
  NoDup (key <$> l1) -> l1 ≡ₚ l2 ->
  go_sort (fun a b => str_lt (key a) (key b)) l1 =
  go_sort (fun a b => str_lt (key a) (key b)) l2.
Proof.
  intros HN HP. apply go_sort_perm_eq; [apply strict_weak_on, _| |done].
  intros a b Ha Hb H1 H2.
  eapply NoDup_fmap_inj_elem; [done..|]. by apply str_lt_antisym.
Qed.

(** ** Association of a boolean test with a list *)
(** The loop [for _, v := range l { if p(v) { return v, true } }]. *)
Fixpoint find_first {A} (p : A -> bool) (l : list A) : option A :=
  match l with
  | [] => None
  | x :: l' => if p x then Some x else find_first p l'
  end.

Lemma elem_of_filter_bool {A} (p : A -> bool) l x : x ∈ List.filter p l <-> p x = true /\ x ∈ l.
Proof. rewrite !list_elem_of_In, List.filter_In. tauto. Qed.

Lemma find_first_Some {A} (p : A -> bool) l x :
  find_first p l = Some x -> x ∈ l /\ p x = true.
Proof.
  induction l as [|y l IH]; simpl; [done|].
  destruct (p y) eqn:E; intros H; simplify_eq; [split; [left|done]|].
  destruct (IH H). split; [by right|done].
Qed.

Lemma find_first_None {A} (p : A -> bool) l x : find_first p l = None -> x ∈ l -> p x = false.
Proof.
  induction l as [|y l IH]; simpl; [by intros _ ?%not_elem_of_nil|].
  destruct (p y) eqn:E; [done|]. intros H [->|Hx]%elem_of_cons; auto.
Qed.

(** [contains(values, wanted)], the linear membership test used all over. *)
Fixpoint contains (values : list string) (wanted : string) : bool :=
  match values with
  | [] => false
  | value :: rest => if bool_decide (value = wanted) then true else contains rest wanted
  end.

Lemma contains_spec values wanted : contains values wanted = true <-> wanted ∈ values.
Proof.
  induction values as [|v l IH]; simpl.
  - split; [done|]. by intros ?%not_elem_of_nil.
  - rewrite elem_of_cons. case_bool_decide; naive_solver.
Qed.

Lemma filter_none {A} (P : A -> Prop) `{forall x, Decision (P x)} l :
  Forall (fun x => ~ P x) l -> filter P l = [].
Proof. induction 1 as [|x l Hx _ IH]; [done|]. by rewrite filter_cons_False. Qed.

Lemma forallb_spec {A} (p : A -> bool) l : forallb p l = true <-> Forall (fun x => p x = true) l.
Proof.
  induction l; simpl; [by split|]. rewrite andb_true_iff, Forall_cons. tauto.
Qed.

Lemma existsb_spec {A} (p : A -> bool) l : existsb p l = true <-> Exists (fun x => p x = true) l.
Proof.
  induction l; simpl.
  - split; [done|]. by intros ?%Exists_nil.
  - rewrite orb_true_iff, Exists_cons. tauto.
Qed.
