(* ===== verification/GoString.v ===== *)
(** * Go strings

    A Go string is a sequence of bytes: [string] of the Standard Library, whose
    characters are the 256 bytes.  This file models what the program uses of
    the packages [strings] and [unicode/utf8]: the byte-level searches, the
    UTF-8 decoder with Go's treatment of invalid bytes, trimming by rune and
    the case mapping. *)
From S2P Require Export Prelude.
From Stdlib Require Import Ascii.

Definition byte (c : ascii) : Z := Z.of_N (N_of_ascii c).

Definition byte_char (z : Z) : ascii := ascii_of_N (Z.to_N z).

(** Go's [len]. *)
Definition str_len (s : string) : Z := Z.of_nat (String.length s).

Fixpoint str_drop (n : nat) (s : string) : string :=
  match n, s with
  | O, _ => s
  | S _, "" => ""
  | S n', String _ s' => str_drop n' s'
  end.

Fixpoint str_take (n : nat) (s : string) : string :=
  match n, s with
  | O, _ => ""
  | S _, "" => ""
  | S n', String c s' => String c (str_take n' s')
  end.

(** ** Byte-level searches *)
Fixpoint has_prefix (p s : string) : bool :=
  match p, s with
  | "", _ => true
  | String a p', String b s' => if Ascii.eqb a b then has_prefix p' s' else false
  | String _ _, "" => false
  end.

Definition has_suffix (suf s : string) : bool :=
  (String.length suf <=? String.length s)%nat &&
  bool_decide (str_drop (String.length s - String.length suf) s = suf).

Definition trim_prefix (p s : string) : string :=
  if has_prefix p s then str_drop (String.length p) s else s.

Definition trim_suffix (suf s : string) : string :=
  if has_suffix suf s then str_take (String.length s - String.length suf) s else s.

(** [strings.Index]: [None] is Go's [-1]. *)
Fixpoint str_index (sub s : string) : option nat :=
  if has_prefix sub s then Some 0%nat
  else match s with
       | "" => None
       | String _ s' => S <$> str_index sub s'
       end.

Definition str_contains (sub s : string) : bool :=
  match str_index sub s with Some _ => true | None => false end.

(** [strings.LastIndex]. *)
Fixpoint str_last_index (sub s : string) : option nat :=
  match s with
  | "" => if has_prefix sub "" then Some 0%nat else None
  | String _ s' =>
      match str_last_index sub s' with
      | Some n => Some (S n)
      | None => if has_prefix sub s then Some 0%nat else None
      end
  end.

(** [strings.Split] for a separator of one byte. *)
Fixpoint split_on (c : ascii) (s : string) : list string :=
  match s with
  | "" => [""]
  | String a s' =>
      if Ascii.eqb a c then "" :: split_on c s'
      else match split_on c s' with
           | [] => [String a ""]
           | l :: ls => String a l :: ls
           end
  end.

(** [strings.Join]. *)
Fixpoint str_join (sep : string) (l : list string) : string :=
  match l with
  | [] => ""
  | [x] => x
  | x :: l' => x +:+ sep +:+ str_join sep l'
  end.

Fixpoint str_concat (l : list string) : string :=
  match l with [] => "" | x :: l' => x +:+ str_concat l' end.

(** [strings.ReplaceAll] for a non-empty [old]; [skip] bytes of the current
    match are still to be passed over. *)
Fixpoint replace_go (old new : string) (skip : nat) (s : string) : string :=
  match s with
  | "" => ""
  | String c s' =>
      match skip with
      | S k => replace_go old new k s'
      | O => if has_prefix old s
             then new +:+ replace_go old new (String.length old - 1) s'
             else String c (replace_go old new 0 s')
      end
  end.

Definition replace_all (old new s : string) : string := replace_go old new 0 s.

(** [strings.Replace(s, old, new, 1)]. *)
Fixpoint replace_first (old new s : string) : string :=
  if has_prefix old s then new +:+ str_drop (String.length old) s
  else match s with
       | "" => ""
       | String c s' => String c (replace_first old new s')
       end.

(** ** UTF-8 *)
Definition rune_error : Z := 65533.

Definition in_range (lo hi z : Z) : bool := (lo <=? z)%Z && (z <=? hi)%Z.

Definition is_cont (c : ascii) : bool := in_range 128 191 (byte c).

(** The accept range of the second byte, by the first one. *)
Definition second_ok (a b : ascii) : bool :=
  let a := byte a in let b := byte b in
  if (a =? 224)%Z then in_range 160 191 b
  else if (a =? 237)%Z then in_range 128 159 b
  else if (a =? 240)%Z then in_range 144 191 b
  else if (a =? 244)%Z then in_range 128 143 b
  else in_range 128 191 b.

Definition payload (c : ascii) : Z := Z.land (byte c) 63.

(** One decoded rune and the bytes it was decoded from. *)
Definition chunk : Type := Z * string.

(** [for _, r := range s]: the runes of [s], an invalid byte giving
    [utf8.RuneError] with width one. *)
Fixpoint chunks (s : string) : list chunk :=
  match s with
  | "" => []
  | String a s1 =>
      let bad := fun _ : unit => (rune_error, String a "") :: chunks s1 in
      if (byte a <? 128)%Z then (byte a, String a "") :: chunks s1
      else match s1 with
      | "" => bad tt
      | String b s2 =>
          if negb (second_ok a b) then bad tt
          else if in_range 194 223 (byte a) then
            (Z.lor (Z.shiftl (Z.land (byte a) 31) 6) (payload b),
             String a (String b "")) :: chunks s2
          else match s2 with
          | "" => bad tt
          | String c s3 =>
              if negb (is_cont c) then bad tt
              else if in_range 224 239 (byte a) then
                (Z.lor (Z.shiftl (Z.land (byte a) 15) 12)
                   (Z.lor (Z.shiftl (payload b) 6) (payload c)),
                 String a (String b (String c ""))) :: chunks s3
              else match s3 with
              | "" => bad tt
              | String d s4 =>
                  if negb (is_cont d) then bad tt
                  else if in_range 240 244 (byte a) then
                    (Z.lor (Z.shiftl (Z.land (byte a) 7) 18)
                       (Z.lor (Z.shiftl (payload b) 12)
                          (Z.lor (Z.shiftl (payload c) 6) (payload d))),
                     String a (String b (String c (String d "")))) :: chunks s4
                  else bad tt
              end
          end
      end
  end.

Definition runes (s : string) : list Z := fst <$> chunks s.

Definition chunk_valid (ch : chunk) : bool :=
  negb ((ch.1 =? rune_error)%Z && (String.length ch.2 =? 1)%nat).

(** [utf8.ValidString]. *)
Definition valid_utf8 (s : string) : bool := forallb chunk_valid (chunks s).

(** [utf8.AppendRune]. *)
Definition encode_rune (r : Z) : string :=
  if in_range 0 127 r then String (byte_char r) ""
  else if in_range 128 2047 r then
    String (byte_char (Z.lor 192 (Z.shiftr r 6)))
      (String (byte_char (Z.lor 128 (Z.land r 63))) "")
  else if negb (in_range 2048 1114111 r) || in_range 55296 57343 r then
    String (byte_char 239) (String (byte_char 191) (String (byte_char 189) ""))
  else if in_range 2048 65535 r then
    String (byte_char (Z.lor 224 (Z.shiftr r 12)))
      (String (byte_char (Z.lor 128 (Z.land (Z.shiftr r 6) 63)))
        (String (byte_char (Z.lor 128 (Z.land r 63))) ""))
  else
    String (byte_char (Z.lor 240 (Z.shiftr r 18)))
      (String (byte_char (Z.lor 128 (Z.land (Z.shiftr r 12) 63)))
        (String (byte_char (Z.lor 128 (Z.land (Z.shiftr r 6) 63)))
          (String (byte_char (Z.lor 128 (Z.land r 63))) ""))).

Definition chunk_bytes (l : list chunk) : string := str_concat (snd <$> l).

(** ** Trimming *)
Fixpoint drop_while {A} (p : A -> bool) (l : list A) : list A :=
  match l with
  | [] => []
  | x :: l' => if p x then drop_while p l' else l
  end.

Definition drop_while_end {A} (p : A -> bool) (l : list A) : list A :=
  rev (drop_while p (rev l)).

Definition on_rune (p : Z -> bool) (ch : chunk) : bool := p ch.1.

(** [strings.TrimLeftFunc], [strings.TrimRightFunc], [strings.TrimFunc]. *)
Definition trim_left_func (p : Z -> bool) (s : string) : string :=
  chunk_bytes (drop_while (on_rune p) (chunks s)).

Definition trim_right_func (p : Z -> bool) (s : string) : string :=
  chunk_bytes (drop_while_end (on_rune p) (chunks s)).

Definition trim_func (p : Z -> bool) (s : string) : string :=
  chunk_bytes (drop_while_end (on_rune p) (drop_while (on_rune p) (chunks s))).

Definition in_cutset (cutset : string) (r : Z) : bool :=
  existsb (Z.eqb r) (runes cutset).

(** [strings.TrimLeft], [strings.TrimRight], [strings.Trim]. *)
Definition trim_left (cutset s : string) : string := trim_left_func (in_cutset cutset) s.
Definition trim_right (cutset s : string) : string := trim_right_func (in_cutset cutset) s.
Definition trim (cutset s : string) : string := trim_func (in_cutset cutset) s.

(** [unicode.IsSpace]: the code points of the White_Space property. *)
Definition is_space (r : Z) : bool :=
  in_range 9 13 r || (r =? 32)%Z || (r =? 133)%Z || (r =? 160)%Z || (r =? 5760)%Z
  || in_range 8192 8202 r || (r =? 8232)%Z || (r =? 8233)%Z || (r =? 8239)%Z
  || (r =? 8287)%Z || (r =? 12288)%Z.

(** [unicode.IsControl]: category Cc. *)
Definition is_control (r : Z) : bool := in_range 0 31 r || in_range 127 159 r.

(** [strings.TrimSpace]. *)
Definition trim_space (s : string) : string := trim_func is_space s.

(** ** Decimal rendering of an [int] (fmt's [%d], strconv's [Itoa]) *)
Definition digit_char (d : Z) : ascii := byte_char (48 + d).

Fixpoint digits_go (fuel : nat) (n : Z) (acc : string) : string :=
  match fuel with
  | O => acc
  | S f =>
      let acc' := String (digit_char (n mod 10)) acc in
      if (n <? 10)%Z then acc' else digits_go f (n / 10) acc'
  end.

(** An [int] has at most 19 digits; 20 steps always suffice. *)
Definition fmt_d (n : Z) : string :=
  if (n <? 0)%Z then String "-" (digits_go 20 (- n) "") else digits_go 20 n "".

(** fmt's [%04d]. *)
Definition pad4 (s : string) : string :=
  str_concat (replicate (4 - String.length s) "0") +:+ s.

(** fmt's [%t]. *)
Definition fmt_t (b : bool) : string := if b then "true" else "false".

(** ** Append *)
Lemma str_app_nil_l s : "" +:+ s = s.
Proof. reflexivity. Qed.

Lemma str_app_cons c s t : String c s +:+ t = String c (s +:+ t).
Proof. reflexivity. Qed.

Lemma str_app_nil_r s : s +:+ "" = s.
Proof. induction s; [done|]. rewrite str_app_cons. by f_equal. Qed.

Lemma str_app_assoc s t u : (s +:+ t) +:+ u = s +:+ (t +:+ u).
Proof. induction s; [done|]. rewrite !str_app_cons. by f_equal. Qed.

Lemma length_str_app s t :
  String.length (s +:+ t) = (String.length s + String.length t)%nat.
Proof. induction s; [done|]. rewrite str_app_cons. cbn. by f_equal. Qed.

Lemma str_len_app s t : str_len (s +:+ t) = (str_len s + str_len t)%Z.
Proof. unfold str_len. rewrite length_str_app. lia. Qed.

Lemma str_len_nonneg s : (0 <= str_len s)%Z.
Proof. unfold str_len. lia. Qed.

Lemma str_len_cons c s : str_len (String c s) = (1 + str_len s)%Z.
Proof. unfold str_len. cbn. lia. Qed.

Lemma str_app_inj_length s1 s2 t1 t2 :
  s1 +:+ t1 = s2 +:+ t2 -> String.length s1 = String.length s2 -> s1 = s2 /\ t1 = t2.
Proof.
  revert s2. induction s1 as [|c s1 IH]; intros [|c2 s2] H HL; try done.
  injection H as -> H. injection HL as HL. destruct (IH s2 H HL) as [-> ->]. done.
Qed.

Lemma str_app_inj_r s1 s2 t : s1 +:+ t = s2 +:+ t -> s1 = s2.
Proof.
  intros H. assert (String.length s1 = String.length s2) as Hl.
  { apply (f_equal String.length) in H. rewrite !length_str_app in H. lia. }
  revert s2 H Hl. induction s1 as [|c s1 IH]; intros [|d s2] H Hl; try done.
  rewrite !str_app_cons in H. simplify_eq/=. f_equal. apply IH; [done|lia].
Qed.

Create Rewrite HintDb str.
#[export] Hint Rewrite str_app_nil_l str_app_nil_r str_app_cons str_app_assoc : str.

(** Normalise appends to the right and expose their characters. *)
Ltac str_norm := autorewrite with str.

(** ** Characters, splitting and joining *)

(** The character does not occur. *)
Definition no_char (c : ascii) (s : string) : Prop :=
  Forall (fun x => x <> c) (String.list_ascii_of_string s).

Lemma no_char_app c s t : no_char c (s +:+ t) <-> no_char c s /\ no_char c t.
Proof.
  unfold no_char. induction s as [|a s IH].
  - rewrite str_app_nil_l. split; [|by intros [_ ?]]. by split; [constructor|].
  - rewrite str_app_cons. cbn. rewrite !Forall_cons, IH. tauto.
Qed.

Lemma split_on_no_char c d s : no_char c s -> Forall (no_char c) (split_on d s).
Proof.
  induction s as [|a s IH]; intros H; cbn [split_on]; [repeat constructor|].
  apply Forall_cons in H as [Ha Hs]. specialize (IH Hs).
  destruct (Ascii.eqb_spec a d); [by constructor; [constructor|]|].
  destruct (split_on d s) as [|x l]; [by repeat constructor|].
  apply Forall_cons in IH as [Hx Hl]. constructor; [|done]. by constructor.
Qed.

Lemma split_on_no_sep c s : Forall (no_char c) (split_on c s).
Proof.
  induction s as [|a s IH]; cbn [split_on]; [repeat constructor|].
  destruct (Ascii.eqb_spec a c); [by constructor; [constructor|]|].
  destruct (split_on c s) as [|x l]; [by repeat constructor|].
  apply Forall_cons in IH as [Hx Hl]. constructor; [|done]. by constructor.
Qed.

Lemma split_on_single c s : no_char c s -> split_on c s = [s].
Proof.
  induction s as [|a s IH]; [done|]. intros [Ha Hs]%Forall_cons. cbn [split_on].
  destruct (Ascii.eqb_spec a c); [done|]. by rewrite IH.
Qed.

Lemma split_on_app c s t :
  no_char c s -> split_on c (s +:+ String c t) = s :: split_on c t.
Proof.
  induction s as [|a s IH]; intros H.
  - rewrite str_app_nil_l. cbn [split_on]. by rewrite Ascii.eqb_refl.
  - apply Forall_cons in H as [Ha Hs]. rewrite str_app_cons. cbn [split_on].
    destruct (Ascii.eqb_spec a c); [done|]. by rewrite IH.
Qed.

Lemma split_on_cons c s : exists x l, split_on c s = x :: l.
Proof.
  induction s as [|a s (x & l & IH)]; cbn; [eauto|]. rewrite IH.
  destruct (Ascii.eqb a c); eauto.
Qed.

Lemma split_join c l :
  l <> [] -> Forall (no_char c) l -> split_on c (str_join (String c "") l) = l.
Proof.
  intros Hne H. induction H as [|x l Hx Hl IH]; [done|].
  destruct l as [|y l]; [by apply split_on_single|].
  cbn [str_join] in *. rewrite str_app_cons, str_app_nil_l.
  rewrite split_on_app by done. by rewrite IH.
Qed.

Lemma join_split c s : str_join (String c "") (split_on c s) = s.
Proof.
  induction s as [|a s IH]; [done|]. cbn [split_on].
  destruct (split_on_cons c s) as (x & l & E). rewrite E in *.
  destruct (Ascii.eqb_spec a c) as [->|].
  - cbn [str_join] in *. by rewrite str_app_nil_l, str_app_cons, str_app_nil_l, IH.
  - assert (str_join (String c "") (String a x :: l) = String a (str_join (String c "") (x :: l)))
      as -> by (destruct l; cbn [str_join]; by rewrite ?str_app_cons).
    by rewrite IH.
Qed.

(** Replacing leaves a text without the first character of [old] alone. *)
Lemma replace_go_no_char c old new s t :
  no_char c s -> replace_go (String c old) new 0 (s +:+ t) = s +:+ replace_go (String c old) new 0 t.
Proof.
  induction s as [|a s IH]; intros H; [done|]. apply Forall_cons in H as [Ha Hs].
  rewrite !str_app_cons. cbn [replace_go has_prefix].
  destruct (Ascii.eqb_spec c a); [congruence|]. by rewrite IH.
Qed.

Lemma replace_all_id c old new s : no_char c s -> replace_all (String c old) new s = s.
Proof.
  intros H. unfold replace_all. rewrite <- (str_app_nil_r s), replace_go_no_char by done. done.
Qed.

Lemma replace_char_no_char c new s : no_char c new -> no_char c (replace_all (String c "") new s).
Proof.
  intros Hn. unfold replace_all. induction s as [|a s IH]; [constructor|].
  cbn [replace_go has_prefix String.length Nat.sub].
  destruct (Ascii.eqb_spec c a); [by apply no_char_app|]. by constructor.
Qed.

(** ** Decimal rendering is injective *)
Fixpoint parse_digits (acc : Z) (s : string) : Z :=
  match s with
  | "" => acc
  | String c s' => parse_digits (10 * acc + (byte c - 48)) s'
  end.

Lemma byte_digit_char d : (0 <= d < 10)%Z -> byte (digit_char d) = (48 + d)%Z.
Proof.
  intros Hd. unfold byte, digit_char, byte_char.
  rewrite N_ascii_embedding by lia. lia.
Qed.

Lemma parse_digits_go fuel n acc :
  (0 <= n < 10 ^ Z.of_nat fuel)%Z -> (0 < fuel)%nat ->
  parse_digits 0 (digits_go fuel n acc) = parse_digits n acc.
Proof.
  revert n acc. induction fuel as [|f IH]; intros n acc Hn Hf; [lia|]. cbn [digits_go].
  pose proof (Z.mod_pos_bound n 10 ltac:(lia)). pose proof (Z.div_mod n 10 ltac:(lia)).
  case_goal; bool_facts.
  - cbn [parse_digits]. rewrite byte_digit_char by lia. f_equal.
    rewrite Z.mod_small by lia. lia.
  - rewrite Nat2Z.inj_succ, Z.pow_succ_r in Hn by lia.
    assert (0 < f)%nat by (destruct f; [cbn in Hn; lia|lia]).
    rewrite IH; [|split; [apply Z.div_pos; lia|apply Z.div_lt_upper_bound; lia]|done].
    cbn [parse_digits]. rewrite byte_digit_char by lia. f_equal. lia.
Qed.

Lemma parse_pad4 s : parse_digits 0 (pad4 s) = parse_digits 0 s.
Proof.
  unfold pad4. induction (4 - String.length s)%nat as [|k IH]; [done|].
  cbn [replicate str_concat]. rewrite str_app_assoc, str_app_cons, str_app_nil_l. done.
Qed.

Lemma pad4_fmt_d_inj n m :
  (0 <= n < 10 ^ 20)%Z -> (0 <= m < 10 ^ 20)%Z -> pad4 (fmt_d n) = pad4 (fmt_d m) -> n = m.
Proof.
  intros Hn Hm H%(f_equal (parse_digits 0)). rewrite !parse_pad4 in H. unfold fmt_d in H.
  rewrite !(proj2 (Z.ltb_ge _ _)) in H by lia.
  rewrite !parse_digits_go in H by (try lia; exact Hn || exact Hm). done.
Qed.

(** Splitting at the first character of a kind is unambiguous. *)
Lemma str_app_sep_inj c s1 s2 t1 t2 :
  c ∉ String.list_ascii_of_string s1 -> c ∉ String.list_ascii_of_string s2 ->
  s1 +:+ String c t1 = s2 +:+ String c t2 -> s1 = s2 /\ t1 = t2.
Proof.
  revert s2. induction s1 as [|a s1 IH]; intros [|b s2] H1 H2;
    rewrite ?str_app_cons, ?str_app_nil_l; intros H; simplify_eq; try done.
  - cbn in H2. rewrite elem_of_cons in H2. tauto.
  - cbn in H1. rewrite elem_of_cons in H1. tauto.
  - cbn in H1, H2. rewrite elem_of_cons in H1, H2.
    destruct (IH s2) as [-> ->]; [tauto..|done|done].
Qed.

(** ** Searching in an append *)

Lemma has_prefix_app p s : has_prefix p (p +:+ s) = true.
Proof.
  induction p as [|a p IH]; [done|]. rewrite str_app_cons. cbn. by rewrite Ascii.eqb_refl.
Qed.

(** A word that starts with [c] is first found after any text without [c]. *)
Lemma str_index_app c p s t :
  no_char c s -> str_index (String c p) (s +:+ t) =
    (fun k => String.length s + k)%nat <$> str_index (String c p) t.
Proof.
  induction s as [|a s IH]; intros H.
  - rewrite str_app_nil_l. by destruct (str_index _ t).
  - apply Forall_cons in H as [Ha Hs]. rewrite str_app_cons. cbn [str_index has_prefix].
    destruct (Ascii.eqb_spec c a); [congruence|]. rewrite IH by done.
    by destruct (str_index _ t).
Qed.

Lemma str_index_no_char c p s : no_char c s -> str_index (String c p) s = None.
Proof. intros H. rewrite <- (str_app_nil_r s), str_index_app by done. done. Qed.

Lemma str_drop_app n s t : str_drop (String.length s + n) (s +:+ t) = str_drop n t.
Proof. induction s as [|a s IH]; [done|]. rewrite str_app_cons. exact IH. Qed.

Lemma length_str_drop n s : String.length (str_drop n s) = (String.length s - n)%nat.
Proof. revert s. induction n as [|n IH]; intros [|a s]; cbn; auto. Qed.

Lemma length_str_take n s : String.length (str_take n s) = Nat.min n (String.length s).
Proof. revert s. induction n as [|n IH]; intros [|a s]; cbn; auto. Qed.

Lemma has_prefix_inv p s : has_prefix p s = true -> exists t, s = p +:+ t.
Proof.
  revert s. induction p as [|a p IH]; intros s; [by exists s|].
  destruct s as [|b s]; cbn; [done|]. destruct (Ascii.eqb_spec a b) as [->|]; [|done].
  intros [t ->]%IH. by exists t.
Qed.

Lemma str_take_take n m s : str_take n (str_take m s) = str_take (Nat.min n m) s.
Proof.
  revert m s. induction n as [|n IH]; intros [|m] [|a s]; cbn; auto. by rewrite IH.
Qed.

Lemma str_take_all s : str_take (String.length s) s = s.
Proof. induction s as [|a s IH]; cbn; [done|]. by rewrite IH. Qed.
