(* ===== verification/Utf8.v ===== *)
(** * The UTF-8 decoder on concatenations

    Lemmas on [chunks]: decoding loses nothing, and a text splits at an ASCII byte
    into the decodings of its two sides, valid or not. *)
From S2P Require Export GoString.
From Stdlib Require Import Ascii.

(** The first chunk of a non-empty string and what follows it. *)
Definition next_chunk (s : string) : option (chunk * string) :=
  match s with
  | "" => None
  | String a s1 =>
      let bad := Some ((rune_error, String a ""), s1) in
      if (byte a <? 128)%Z then Some ((byte a, String a ""), s1)
      else match s1 with
      | "" => bad
      | String b s2 =>
          if negb (second_ok a b) then bad
          else if in_range 194 223 (byte a) then
            Some ((Z.lor (Z.shiftl (Z.land (byte a) 31) 6) (payload b),
                   String a (String b "")), s2)
          else match s2 with
          | "" => bad
          | String c s3 =>
              if negb (is_cont c) then bad
              else if in_range 224 239 (byte a) then
                Some ((Z.lor (Z.shiftl (Z.land (byte a) 15) 12)
                         (Z.lor (Z.shiftl (payload b) 6) (payload c)),
                       String a (String b (String c ""))), s3)
              else match s3 with
              | "" => bad
              | String d s4 =>
                  if negb (is_cont d) then bad
                  else if in_range 240 244 (byte a) then
                    Some ((Z.lor (Z.shiftl (Z.land (byte a) 7) 18)
                             (Z.lor (Z.shiftl (payload b) 12)
                                (Z.lor (Z.shiftl (payload c) 6) (payload d))),
                           String a (String b (String c (String d "")))), s4)
                  else bad
              end
          end
      end
  end.

Lemma chunks_next s :
  chunks s = match next_chunk s with Some (ch, rest) => ch :: chunks rest | None => [] end.
Proof.
  destruct s as [|a s1]; [done|]. cbn [chunks next_chunk]. case_goal; [done|].
  destruct s1 as [|b s2]; [done|]. case_goal; [done|]. case_goal; [done|].
  destruct s2 as [|c s3]; [done|]. case_goal; [done|]. case_goal; [done|].
  destruct s3 as [|d s4]; [done|]. case_goal; [done|]. by case_goal.
Qed.

Lemma next_chunk_app s ch rest :
  next_chunk s = Some (ch, rest) -> s = ch.2 +:+ rest /\ ch.2 <> "".
Proof.
  unfold next_chunk. intros H.
  repeat (case_hyp H; try done); simplify_eq; by split.
Qed.

Lemma next_chunk_cons a s : exists ch rest, next_chunk (String a s) = Some (ch, rest).
Proof. unfold next_chunk. repeat case_goal; eauto. Qed.

(** Induction along the chunks of a string. *)
Lemma chunk_ind (P : string -> Prop) :
  P "" ->
  (forall s ch rest, next_chunk s = Some (ch, rest) -> s = ch.2 +:+ rest ->
     chunks s = ch :: chunks rest -> P rest -> P s) ->
  forall s, P s.
Proof.
  intros H0 Hstep s. remember (String.length s) as n eqn:Hn. revert s Hn.
  induction n as [n IH] using lt_wf_ind. intros [|a s] ->; [done|].
  destruct (next_chunk_cons a s) as (ch & rest & E).
  destruct (next_chunk_app _ _ _ E) as [Hs Hne].
  eapply Hstep; [done..|by rewrite chunks_next, E|].
  eapply IH; [|reflexivity]. rewrite Hs, length_str_app. destruct ch.2; [done|]. cbn. lia.
Qed.

Lemma chunk_bytes_cons ch l : chunk_bytes (ch :: l) = ch.2 +:+ chunk_bytes l.
Proof. reflexivity. Qed.

Lemma chunk_bytes_app l1 l2 : chunk_bytes (l1 ++ l2) = chunk_bytes l1 +:+ chunk_bytes l2.
Proof.
  induction l1 as [|ch l1 IH]; [by rewrite str_app_nil_l|].
  cbn [app]. by rewrite !chunk_bytes_cons, IH, str_app_assoc.
Qed.

(** Decoding loses nothing. *)
Lemma chunk_bytes_chunks s : chunk_bytes (chunks s) = s.
Proof.
  induction s as [|s ch rest _ Hs Hc IH] using chunk_ind; [done|].
  by rewrite Hc, chunk_bytes_cons, IH.
Qed.

(** Empty, or starting with an ASCII byte. *)
Definition ascii_start (t : string) : Prop :=
  match t with "" => True | String c _ => (byte c < 128)%Z end.

Lemma second_ok_ascii a b : (byte b < 128)%Z -> second_ok a b = false.
Proof.
  intros Hb. unfold second_ok, in_range. repeat case_goal; apply andb_false_iff; left;
    apply Z.leb_gt; lia.
Qed.

Lemma is_cont_ascii c : (byte c < 128)%Z -> is_cont c = false.
Proof. intros H. unfold is_cont, in_range. apply andb_false_iff. left. apply Z.leb_gt. lia. Qed.

Lemma next_chunk_ascii_end s t ch rest :
  ascii_start t -> next_chunk s = Some (ch, rest) ->
  next_chunk (s +:+ t) = Some (ch, rest +:+ t).
Proof.
  intros Ht. destruct s as [|a s1]; [done|]. rewrite str_app_cons. unfold next_chunk.
  case_goal; [by intros [= <- <-]|].
  destruct s1 as [|b s2]; rewrite ?str_app_nil_l, ?str_app_cons.
  { intros [= <- <-]. rewrite str_app_nil_l. destruct t as [|x t]; [done|].
    by rewrite second_ok_ascii. }
  case_goal; [by intros [= <- <-]|]. case_goal; [by intros [= <- <-]|].
  destruct s2 as [|c s3]; rewrite ?str_app_nil_l, ?str_app_cons.
  { intros [= <- <-]. rewrite str_app_cons, str_app_nil_l. destruct t as [|x t]; [done|].
    by rewrite is_cont_ascii. }
  case_goal; [by intros [= <- <-]|]. case_goal; [by intros [= <- <-]|].
  destruct s3 as [|d s4]; rewrite ?str_app_nil_l, ?str_app_cons.
  { intros [= <- <-]. rewrite !str_app_cons, str_app_nil_l. destruct t as [|x t]; [done|].
    by rewrite is_cont_ascii. }
  case_goal; [by intros [= <- <-]|]. case_goal; by intros [= <- <-].
Qed.

(** Decoding distributes over an append whose second part starts with ASCII. *)
Lemma chunks_app s t : ascii_start t -> chunks (s +:+ t) = chunks s ++ chunks t.
Proof.
  intros Ht. induction s as [|s ch rest E Hs Hc IH] using chunk_ind; [done|].
  rewrite Hc, chunks_next, (next_chunk_ascii_end _ _ _ _ Ht E). cbn. by rewrite IH.
Qed.

Lemma chunks_ascii c s : (byte c < 128)%Z -> chunks (String c s) = (byte c, String c "") :: chunks s.
Proof. intros H. cbn [chunks]. by rewrite (proj2 (Z.ltb_lt _ _)). Qed.

Lemma valid_utf8_app s t :
  ascii_start t -> valid_utf8 (s +:+ t) = valid_utf8 s && valid_utf8 t.
Proof. intros Ht. unfold valid_utf8. by rewrite chunks_app, forallb_app. Qed.

(** ** Sublists of chunks decode to themselves *)

(** The first chunk does not depend on what follows the string. *)
Lemma next_chunk_prefix s ch r t :
  next_chunk s = Some (ch, r +:+ t) -> next_chunk (ch.2 +:+ r) = Some (ch, r).
Proof.
  destruct s as [|a s1]; [done|]. intros H.
  assert (forall P : Prop, (ch = (rune_error, String a "") -> s1 = r +:+ t -> P) ->
    Some (rune_error, String a "", s1) = Some (ch, r +:+ t) -> P) as Hbad by naive_solver.
  unfold next_chunk in H. case_hyp H.
  { injection H as <- ->. cbn [snd]. rewrite str_app_cons, str_app_nil_l. cbn [next_chunk]. by rewrite E. }
  destruct s1 as [|b s2].
  { revert H. apply Hbad. intros -> Hr. destruct r; [|done]. cbn [snd].
    rewrite str_app_cons, str_app_nil_l. cbn [next_chunk]. by rewrite E. }
  case_hyp H.
  { revert H. apply Hbad. intros -> Hr. cbn [snd]. rewrite str_app_cons, str_app_nil_l.
    destruct r as [|x r]; cbn [next_chunk]; rewrite E; [done|].
    rewrite str_app_cons in Hr. injection Hr as <- _. by rewrite E0. }
  case_hyp H.
  { injection H as <- ->. cbn [snd]. rewrite !str_app_cons, str_app_nil_l. cbn [next_chunk].
    by rewrite E, E0, E1. }
  destruct s2 as [|c s3].
  { revert H. apply Hbad. intros -> Hr. cbn [snd]. rewrite str_app_cons, str_app_nil_l.
    destruct r as [|x [|y r]]; rewrite ?str_app_cons in Hr; cbn [next_chunk]; rewrite E;
      [done|injection Hr as <- _; by rewrite E0, E1|done]. }
  case_hyp H.
  { revert H. apply Hbad. intros -> Hr. cbn [snd]. rewrite str_app_cons, str_app_nil_l.
    destruct r as [|x [|y r]]; rewrite ?str_app_cons in Hr; cbn [next_chunk]; rewrite E;
      [done|injection Hr as <- _; by rewrite E0, E1|injection Hr as <- <- _; by rewrite E0, E1, E2]. }
  case_hyp H.
  { injection H as <- ->. cbn [snd]. rewrite !str_app_cons, str_app_nil_l. cbn [next_chunk].
    by rewrite E, E0, E1, E2, E3. }
  destruct s3 as [|d s4].
  { revert H. apply Hbad. intros -> Hr. cbn [snd]. rewrite str_app_cons, str_app_nil_l.
    destruct r as [|x [|y [|z r]]]; rewrite ?str_app_cons in Hr; cbn [next_chunk]; rewrite E;
      [done|injection Hr as <- _; by rewrite E0, E1|injection Hr as <- <- _; by rewrite E0, E1, E2, E3
      |done]. }
  case_hyp H; [|case_hyp H].
  2: { injection H as <- ->. cbn [snd]. rewrite !str_app_cons, str_app_nil_l. cbn [next_chunk].
    by rewrite E, E0, E1, E2, E3, E4, E5. }
  all: revert H; apply Hbad; intros -> Hr; cbn [snd]; rewrite str_app_cons, str_app_nil_l;
    destruct r as [|x [|y [|z r]]]; rewrite ?str_app_cons in Hr; cbn [next_chunk]; rewrite E;
    [done|injection Hr as <- _; by rewrite E0, E1|injection Hr as <- <- _; by rewrite E0, E1, E2, E3
    |injection Hr as <- <- <- _; rewrite E0, E1, E2, E3, E4; by try rewrite E5].
Qed.

(** A contiguous part of the chunks of a text decodes to itself. *)
Lemma chunks_part s l1 l2 l3 :
  chunks s = l1 ++ l2 ++ l3 -> chunks (chunk_bytes l2) = l2.
Proof.
  revert l1 l2 l3. induction s as [|s ch rest E Hs Hc IH] using chunk_ind; intros l1 l2 l3 H.
  { cbn in H. symmetry in H. apply app_eq_nil in H as [_ H].
    apply app_eq_nil in H as [-> _]. done. }
  rewrite Hc in H. destruct l1 as [|c1 l1].
  - destruct l2 as [|c2 l2]; [done|]. cbn in H. injection H as <- H.
    pose proof (IH [] l2 l3 H) as Hl2. rewrite chunk_bytes_cons, chunks_next.
    rewrite (next_chunk_prefix s ch (chunk_bytes l2) (chunk_bytes l3)); [by rewrite Hl2|].
    rewrite E. do 2 f_equal. by rewrite <- chunk_bytes_app, <- H, chunk_bytes_chunks.
  - cbn in H. injection H as _ H. by eapply IH.
Qed.

(** ** Trimming *)

Section Drop.
Context {A : Type} (p : A -> bool).

Lemma drop_while_split l :
  exists pre, l = pre ++ drop_while p l /\ Forall (fun x => p x = true) pre.
Proof.
  induction l as [|x l (pre & Hl & Hp)]; [by exists []|]. cbn. destruct (p x) eqn:E.
  - exists (x :: pre). cbn. split; [by rewrite <- Hl|by constructor].
  - by exists [].
Qed.

Lemma drop_while_head l x l' : drop_while p l = x :: l' -> p x = false.
Proof.
  induction l as [|y l IH]; [done|]. cbn. destruct (p y) eqn:E; [done|]. by intros [= <- _].
Qed.

Lemma drop_while_id l : (forall x, head l = Some x -> p x = false) -> drop_while p l = l.
Proof. destruct l as [|x l]; [done|]. intros H. cbn. by rewrite H. Qed.

Lemma drop_while_nil l : drop_while p l = [] <-> Forall (fun x => p x = true) l.
Proof.
  induction l as [|x l IH]; [by split|]. cbn. rewrite Forall_cons. destruct (p x) eqn:E.
  - rewrite IH. tauto.
  - split; [done|]. intros [? _]. congruence.
Qed.

(** Dropping stops within a prefix that has something to keep. *)
Lemma drop_while_app l1 l2 :
  drop_while p l1 <> [] -> drop_while p (l1 ++ l2) = drop_while p l1 ++ l2.
Proof. induction l1 as [|x l IH]; [done|]. cbn. destruct (p x); [done|]. done. Qed.

Lemma drop_while_all l1 l2 :
  Forall (fun x => p x = true) l1 -> drop_while p (l1 ++ l2) = drop_while p l2.
Proof. induction 1 as [|x l Hx _ IH]; [done|]. cbn. by rewrite Hx. Qed.

Lemma drop_while_end_split l :
  exists post, l = drop_while_end p l ++ post /\ Forall (fun x => p x = true) post.
Proof.
  unfold drop_while_end. destruct (drop_while_split (rev l)) as (pre & Hl & Hp).
  exists (rev pre). split; [|by apply Forall_rev].
  by rewrite <- rev_app_distr, <- Hl, rev_involutive.
Qed.

Lemma drop_while_end_last l x : last (drop_while_end p l) = Some x -> p x = false.
Proof.
  unfold drop_while_end. destruct (drop_while p (rev l)) as [|y r] eqn:E; [done|].
  apply drop_while_head in E. cbn. rewrite last_snoc. by intros [= <-].
Qed.

Lemma drop_while_end_id l : (forall x, last l = Some x -> p x = false) -> drop_while_end p l = l.
Proof.
  intros H. unfold drop_while_end. rewrite drop_while_id; [apply rev_involutive|].
  intros x Hx. apply H. destruct l as [|y l _] using rev_ind; [done|].
  rewrite rev_app_distr in Hx. cbn in Hx. by rewrite last_snoc.
Qed.

Lemma drop_while_end_nil l : drop_while_end p l = [] <-> Forall (fun x => p x = true) l.
Proof.
  unfold drop_while_end. split.
  - intros H. apply (f_equal (@rev A)) in H. rewrite rev_involutive in H.
    apply drop_while_nil, Forall_rev in H. by rewrite rev_involutive in H.
  - intros H. by rewrite (proj2 (drop_while_nil (rev l))) by (by apply Forall_rev).
Qed.

Lemma drop_while_end_app l1 l2 :
  drop_while_end p l2 <> [] -> drop_while_end p (l1 ++ l2) = l1 ++ drop_while_end p l2.
Proof.
  intros H. unfold drop_while_end in *. rewrite rev_app_distr, drop_while_app.
  - by rewrite rev_app_distr, rev_involutive.
  - intros E. apply H. by rewrite E.
Qed.
End Drop.

Lemma chunks_trim_left p s : chunks (trim_left_func p s) = drop_while (on_rune p) (chunks s).
Proof.
  unfold trim_left_func. destruct (drop_while_split (on_rune p) (chunks s)) as (pre & H & _).
  apply (chunks_part s pre _ []). by rewrite app_nil_r.
Qed.

Lemma chunks_trim_right p s : chunks (trim_right_func p s) = drop_while_end (on_rune p) (chunks s).
Proof.
  unfold trim_right_func. destruct (drop_while_end_split (on_rune p) (chunks s)) as (post & H & _).
  by apply (chunks_part s [] _ post).
Qed.

Lemma trim_func_split p s : trim_func p s = trim_right_func p (trim_left_func p s).
Proof. unfold trim_func, trim_right_func. by rewrite chunks_trim_left. Qed.

Lemma chunks_trim p s :
  chunks (trim_func p s) = drop_while_end (on_rune p) (drop_while (on_rune p) (chunks s)).
Proof. by rewrite trim_func_split, chunks_trim_right, chunks_trim_left. Qed.

(** A text is determined by its chunks. *)
Lemma chunks_inj s t : chunks s = chunks t -> s = t.
Proof. intros H. by rewrite <- (chunk_bytes_chunks s), H, chunk_bytes_chunks. Qed.

(** The first, and the last, rune of [s], if any, is not in [p]. *)
Definition starts_outside (p : Z -> bool) (s : string) : Prop :=
  forall ch, head (chunks s) = Some ch -> p ch.1 = false.
Definition ends_outside (p : Z -> bool) (s : string) : Prop :=
  forall ch, last (chunks s) = Some ch -> p ch.1 = false.

Lemma trim_left_id p s : starts_outside p s -> trim_left_func p s = s.
Proof. intros H. apply chunks_inj. rewrite chunks_trim_left. by apply drop_while_id. Qed.

Lemma trim_right_id p s : ends_outside p s -> trim_right_func p s = s.
Proof. intros H. apply chunks_inj. rewrite chunks_trim_right. by apply drop_while_end_id. Qed.

Lemma trim_right_ends p s : ends_outside p (trim_right_func p s).
Proof. intros ch H. rewrite chunks_trim_right in H. exact (drop_while_end_last (on_rune p) _ _ H). Qed.

Lemma trim_id p s : starts_outside p s -> ends_outside p s -> trim_func p s = s.
Proof. intros H1 H2. rewrite trim_func_split, trim_left_id by done. by apply trim_right_id. Qed.

Lemma chunks_nil s : chunks s = [] <-> s = "".
Proof.
  split; [|by intros ->]. destruct s as [|a s]; [done|]. rewrite chunks_next.
  destruct (next_chunk_cons a s) as (ch & rest & ->). done.
Qed.

(** All runes are in [p]. *)
Definition all_in (p : Z -> bool) (s : string) : Prop :=
  Forall (fun ch => p ch.1 = true) (chunks s).

Lemma trim_empty p s : trim_func p s = "" <-> all_in p s.
Proof.
  rewrite <- chunks_nil, chunks_trim, drop_while_end_nil. unfold all_in.
  split.
  2: { intros H. assert (drop_while (on_rune p) (chunks s) = []) as ->; [|constructor].
    apply drop_while_nil. exact H. }
  destruct (drop_while_split (on_rune p) (chunks s)) as (pre & Hs & Hp).
  intros H. rewrite Hs. by apply Forall_app.
Qed.

Lemma trim_left_empty p s : trim_left_func p s = "" <-> all_in p s.
Proof. by rewrite <- chunks_nil, chunks_trim_left, drop_while_nil. Qed.

Lemma trim_right_empty p s : trim_right_func p s = "" <-> all_in p s.
Proof. by rewrite <- chunks_nil, chunks_trim_right, drop_while_end_nil. Qed.

(** ** Validity *)

(** A complete encoding decodes alike whatever follows. *)
Lemma next_chunk_valid s ch r x :
  next_chunk s = Some (ch, r) -> chunk_valid ch = true ->
  next_chunk (ch.2 +:+ x) = Some (ch, x).
Proof.
  unfold next_chunk at 1. intros H Hv.
  repeat (case_hyp H; try done); simplify_eq; try done; cbn [snd];
    rewrite ?str_app_cons, ?str_app_nil_l; cbn [next_chunk];
    repeat match goal with E : _ = true |- _ => rewrite E | E : _ = false |- _ => rewrite E end;
    done.
Qed.

(** The bytes of a complete encoding of more than one byte are not ASCII. *)
Lemma chunk_bytes_high s ch r :
  next_chunk s = Some (ch, r) -> chunk_valid ch = true ->
  (exists c, (byte c < 128)%Z /\ ch = (byte c, String c "")) \/
  forall c, (byte c < 128)%Z -> no_char c ch.2.
Proof.
  unfold next_chunk. intros H Hv.
  assert (forall a b, second_ok a b = true -> (128 <= byte b)%Z) as Hsec.
  { intros a b Hs. destruct (Z.le_gt_cases 128 (byte b)); [done|].
    by rewrite second_ok_ascii in Hs. }
  assert (forall c, is_cont c = true -> (128 <= byte c)%Z) as Hcont.
  { intros c Hs. destruct (Z.le_gt_cases 128 (byte c)); [done|].
    by rewrite is_cont_ascii in Hs. }
  repeat (case_hyp H; try done); simplify_eq; try done; bool_facts;
    try (left; eexists; split; [|done]; lia); right; intros x Hx; cbn [snd];
    repeat match goal with
    | E : second_ok _ _ = true |- _ => apply Hsec in E
    | E : is_cont _ = true |- _ => apply Hcont in E
    end;
    repeat constructor; intros ->; lia.
Qed.

Lemma valid_utf8_next s ch r :
  next_chunk s = Some (ch, r) -> valid_utf8 s = chunk_valid ch && valid_utf8 r.
Proof. intros H. unfold valid_utf8. by rewrite chunks_next, H. Qed.

(** The first [k] bytes, as far as there are any, are ASCII. *)
Fixpoint ascii_run (k : nat) (s : string) : Prop :=
  match k, s with
  | S k', String c s' => (byte c < 128)%Z /\ ascii_run k' s'
  | _, _ => True
  end.

Definition all_ascii (s : string) : Prop := ascii_run (String.length s) s.

Lemma prefix_ascii_run p s : all_ascii p -> has_prefix p s = true -> ascii_run (String.length p) s.
Proof.
  unfold all_ascii. revert s. induction p as [|a p IH]; intros s; [done|].
  destruct s as [|b s]; [done|]. cbn. intros [Ha Hp].
  destruct (Ascii.eqb_spec a b); [|done]. subst. split; [done|]. by apply IH.
Qed.

Lemma next_chunk_ascii c s : (byte c < 128)%Z -> next_chunk (String c s) = Some ((byte c, String c ""), s).
Proof. intros H. cbn [next_chunk]. by rewrite (proj2 (Z.ltb_lt _ _)). Qed.

(** A valid text decodes alike whatever follows. *)
Lemma chunks_app_valid s t : valid_utf8 s = true -> chunks (s +:+ t) = chunks s ++ chunks t.
Proof.
  induction s as [|s ch rest E Hs Hc IH] using chunk_ind; intros Hv; [done|].
  rewrite (valid_utf8_next _ _ _ E) in Hv. bool_facts. rewrite Hc, chunks_next.
  replace (s +:+ t) with (ch.2 +:+ (rest +:+ t)) by (by rewrite Hs, str_app_assoc).
  rewrite (next_chunk_valid _ _ _ _ E) by done. cbn. by rewrite IH.
Qed.

Lemma valid_utf8_concat s t :
  valid_utf8 s = true -> valid_utf8 t = true -> valid_utf8 (s +:+ t) = true.
Proof.
  intros Hs Ht. unfold valid_utf8 in *. rewrite chunks_app_valid by done.
  by rewrite forallb_app, Hs, Ht.
Qed.

Lemma valid_chunk_bytes s ch r :
  next_chunk s = Some (ch, r) -> chunk_valid ch = true -> valid_utf8 ch.2 = true.
Proof.
  intros E Hv. pose proof (next_chunk_valid _ _ _ "" E Hv) as H. rewrite str_app_nil_r in H.
  by rewrite (valid_utf8_next _ _ _ H), Hv.
Qed.

(** The parts of a valid text are valid. *)
Lemma valid_part s l1 l2 l3 :
  valid_utf8 s = true -> chunks s = l1 ++ l2 ++ l3 -> valid_utf8 (chunk_bytes l2) = true.
Proof.
  unfold valid_utf8. intros Hv Hs. rewrite (chunks_part s l1 l2 l3) by done.
  rewrite Hs, !forallb_app in Hv. by bool_facts.
Qed.

Lemma valid_trim_left p s : valid_utf8 s = true -> valid_utf8 (trim_left_func p s) = true.
Proof.
  intros Hv. destruct (drop_while_split (on_rune p) (chunks s)) as (pre & Hs & _).
  apply (valid_part s pre _ []); [done|]. by rewrite app_nil_r.
Qed.

Lemma valid_trim_right p s : valid_utf8 s = true -> valid_utf8 (trim_right_func p s) = true.
Proof.
  intros Hv. destruct (drop_while_end_split (on_rune p) (chunks s)) as (post & Hs & _).
  by apply (valid_part s [] _ post).
Qed.

Lemma valid_trim p s : valid_utf8 s = true -> valid_utf8 (trim_func p s) = true.
Proof. intros Hv. rewrite trim_func_split. by apply valid_trim_right, valid_trim_left. Qed.

Lemma ascii_chunk_valid c : (byte c < 128)%Z -> chunk_valid (byte c, String c "") = true.
Proof.
  intros Hc. unfold chunk_valid. cbn [fst snd]. rewrite (proj2 (Z.eqb_neq _ _)); [done|].
  unfold rune_error. lia.
Qed.

(** Splitting at, and joining with, an ASCII byte. *)
Lemma valid_join c l :
  (byte c < 128)%Z -> valid_utf8 (str_join (String c "") l) = forallb valid_utf8 l.
Proof.
  intros Hc. induction l as [|x l IH]; [done|]. destruct l as [|y l].
  { cbn [str_join forallb]. by rewrite andb_true_r. }
  cbn [str_join forallb] in *. rewrite str_app_cons, str_app_nil_l.
  rewrite valid_utf8_app by done. f_equal.
  by rewrite (valid_utf8_next _ _ _ (next_chunk_ascii c _ Hc)), ascii_chunk_valid, <- IH.
Qed.

Lemma valid_split c s : (byte c < 128)%Z -> valid_utf8 s = forallb valid_utf8 (split_on c s).
Proof. intros Hc. rewrite <- (valid_join c) by done. by rewrite join_split. Qed.

Lemma last_drop_while {A} (p : A -> bool) l : drop_while p l <> [] -> last (drop_while p l) = last l.
Proof.
  intros H. destruct (drop_while_split p l) as (pre & Hl & _). rewrite Hl at 2.
  rewrite last_app. by destruct (drop_while p l) as [|x r] using rev_ind;
    [|rewrite last_snoc].
Qed.

Lemma head_drop_while_end {A} (p : A -> bool) l x :
  head (drop_while_end p l) = Some x -> head l = Some x.
Proof.
  destruct (drop_while_end_split p l) as (post & Hl & _). rewrite Hl at 2.
  by destruct (drop_while_end p l).
Qed.

Lemma trim_starts p s : starts_outside p (trim_func p s).
Proof.
  intros ch. rewrite chunks_trim. intros H%head_drop_while_end.
  destruct (drop_while (on_rune p) (chunks s)) as [|x r] eqn:E; [done|].
  apply drop_while_head in E. cbn in H. by injection H as <-.
Qed.

Lemma trim_ends p s : ends_outside p (trim_func p s).
Proof. rewrite trim_func_split. apply trim_right_ends. Qed.

Lemma trim_idem p s : trim_func p (trim_func p s) = trim_func p s.
Proof. apply trim_id; [apply trim_starts|apply trim_ends]. Qed.

(** Trimming the left of a text whose beginning is not all in [p], and dually. *)
Lemma trim_left_app p s t :
  ascii_start t -> ~ all_in p s -> trim_left_func p (s +:+ t) = trim_left_func p s +:+ t.
Proof.
  intros Ht Hs. unfold trim_left_func. rewrite chunks_app by done.
  rewrite drop_while_app, chunk_bytes_app, chunk_bytes_chunks; [done|].
  intros H. apply Hs. by apply drop_while_nil in H.
Qed.

Lemma trim_right_app p s t :
  valid_utf8 s = true -> ~ all_in p t -> trim_right_func p (s +:+ t) = s +:+ trim_right_func p t.
Proof.
  intros Hs Ht. unfold trim_right_func. rewrite chunks_app_valid by done.
  rewrite drop_while_end_app, chunk_bytes_app, chunk_bytes_chunks; [done|].
  intros H. apply Ht. by apply drop_while_end_nil in H.
Qed.

Lemma trim_left_not_all p s : ~ all_in p s -> ~ all_in p (trim_left_func p s).
Proof.
  intros Hs H. unfold all_in in H. rewrite chunks_trim_left in H.
  destruct (drop_while (on_rune p) (chunks s)) as [|x r] eqn:E.
  - apply Hs. by apply drop_while_nil in E.
  - apply drop_while_head in E. apply Forall_cons in H as [H _]. unfold on_rune in E. congruence.
Qed.

Lemma trim_right_not_all p s : ~ all_in p s -> ~ all_in p (trim_right_func p s).
Proof.
  intros Hs H. apply (trim_right_empty p) in H. rewrite trim_right_id in H by apply trim_right_ends.
  by apply Hs, trim_right_empty.
Qed.

Lemma trim_left_ends p q s : ~ all_in p s -> ends_outside q s -> ends_outside q (trim_left_func p s).
Proof.
  intros Hs Hq ch. rewrite chunks_trim_left, last_drop_while; [apply Hq|].
  intros H. apply Hs. by apply drop_while_nil in H.
Qed.

(** Trimming takes a text apart. *)
Lemma trim_left_suffix p s : exists pre, s = pre +:+ trim_left_func p s.
Proof.
  destruct (drop_while_split (on_rune p) (chunks s)) as (pre & Hs & _). exists (chunk_bytes pre).
  rewrite <- (chunk_bytes_chunks s), Hs at 1. by rewrite chunk_bytes_app.
Qed.

Lemma trim_right_prefix p s : exists post, s = trim_right_func p s +:+ post.
Proof.
  destruct (drop_while_end_split (on_rune p) (chunks s)) as (post & Hs & _).
  exists (chunk_bytes post). rewrite <- (chunk_bytes_chunks s), Hs at 1. by rewrite chunk_bytes_app.
Qed.

(** A byte below 128 of a valid text is one of its runes. *)
Lemma valid_no_char c s :
  (byte c < 128)%Z -> valid_utf8 s = true -> Forall (fun r => r <> byte c) (runes s) -> no_char c s.
Proof.
  intros Hc. induction s as [|s ch r Hs _ _ IH] using chunk_ind; [constructor|].
  rewrite (valid_utf8_next _ _ _ Hs). intros [Hch Hr]%andb_true_iff Hall.
  unfold runes in Hall. rewrite chunks_next, Hs in Hall. cbn in Hall.
  apply Forall_cons in Hall as [H1 H2].
  destruct (next_chunk_app _ _ _ Hs) as [-> _]. apply no_char_app. split; [|by apply IH].
  destruct (chunk_bytes_high _ _ _ Hs Hch) as [(d & Hd & ->)|H]; [|by apply H].
  constructor; [|constructor]. intros ->. by apply H1.
Qed.

Lemma runes_part p s : valid_utf8 s = true -> Forall p (runes s) -> forall q, Forall p (runes (trim_func q s)).
Proof.
  intros Hs Hp q. unfold runes in *. rewrite chunks_trim.
  destruct (drop_while_split (on_rune q) (chunks s)) as (pre & H1 & _).
  destruct (drop_while_end_split (on_rune q) (drop_while (on_rune q) (chunks s))) as (post & H2 & _).
  rewrite H1, H2, !fmap_app in Hp. apply Forall_app in Hp as [_ Hp]. by apply Forall_app in Hp as [Hp _].
Qed.

Lemma trim_right_drop p s t :
  ascii_start t -> all_in p t -> trim_right_func p (s +:+ t) = trim_right_func p s.
Proof.
  intros Ht Hall. apply chunks_inj. rewrite !chunks_trim_right, chunks_app by done.
  unfold drop_while_end. by rewrite rev_app_distr, drop_while_all by (by apply Forall_rev).
Qed.

Lemma ends_outside_app p s t :
  valid_utf8 s = true -> t <> "" -> ends_outside p t -> ends_outside p (s +:+ t).
Proof.
  intros Hs Ht Hp ch. rewrite chunks_app_valid, last_app by done.
  destruct (last (chunks t)) as [x|] eqn:E; [intros [= ->]; by apply Hp|].
  apply last_None in E. by apply chunks_nil in E.
Qed.
