(* ===== verification/Runes.v ===== *)
(** * Encoding runes

    [encode_rune] and the decoder are inverse on Unicode scalar values, and the texts
    whose runes all satisfy a predicate are closed under the operations on strings. *)
From S2P Require Import Prelude GoString Utf8.
From Stdlib Require Import Ascii.

(** ** Bits *)

(** Linear arithmetic with divisions by constants. *)
Ltac div_lia := Z.to_euclidean_division_equations; lia.

Lemma lor_shiftl x y n :
  (0 <= n)%Z -> (0 <= y < 2 ^ n)%Z -> Z.lor (Z.shiftl x n) y = (x * 2 ^ n + y)%Z.
Proof.
  intros Hn Hy. rewrite <- Z.shiftl_mul_pow2 by done. symmetry. apply Z.add_nocarry_lor.
  apply Z.bits_inj'. intros m Hm. rewrite Z.land_spec, Z.bits_0.
  destruct (Z.lt_ge_cases m n).
  - by rewrite Z.shiftl_spec_low.
  - rewrite <- (Z.mod_small y (2 ^ n)), Z.mod_pow2_bits_high by lia. apply andb_false_r.
Qed.

Lemma land_low x n : (0 <= n)%Z -> Z.land x (2 ^ n - 1) = (x mod 2 ^ n)%Z.
Proof. intros Hn. rewrite <- Z.land_ones by done. by rewrite Z.ones_equiv. Qed.

Lemma byte_byte_char v : (0 <= v < 256)%Z -> byte (byte_char v) = v.
Proof.
  intros Hv. unfold byte, byte_char. rewrite N_ascii_embedding by lia. lia.
Qed.

Lemma byte_range c : (0 <= byte c < 256)%Z.
Proof. unfold byte. pose proof (N_ascii_bounded c). lia. Qed.

(** ** Encoding, then decoding *)

(** The Unicode scalar values. *)
Definition scalar (r : Z) : Prop := (0 <= r <= 1114111 /\ ~ 55296 <= r <= 57343)%Z.

Lemma lead_bits h n x : (0 <= n)%Z -> (0 <= x < 2 ^ n)%Z -> Z.lor (h * 2 ^ n) x = (h * 2 ^ n + x)%Z.
Proof. intros Hn Hx. rewrite <- Z.shiftl_mul_pow2 by done. by rewrite lor_shiftl, Z.shiftl_mul_pow2. Qed.

Lemma byte_cont x : (0 <= x < 64)%Z -> byte (byte_char (Z.lor 128 x)) = (128 + x)%Z.
Proof.
  intros Hx.
  pose proof (lead_bits 2 6 x ltac:(lia) Hx) as E. change (2 * 2 ^ 6)%Z with 128%Z in E. rewrite E.
  by rewrite byte_byte_char by lia.
Qed.

Lemma payload_cont x : (0 <= x < 64)%Z -> payload (byte_char (Z.lor 128 x)) = x.
Proof.
  intros Hx. unfold payload. rewrite byte_cont by done.
  change 63%Z with (2 ^ 6 - 1)%Z. rewrite land_low by lia. change (2 ^ 6)%Z with 64%Z. div_lia.
Qed.

Lemma byte_lead2 x : (0 <= x < 32)%Z -> byte (byte_char (Z.lor 192 x)) = (192 + x)%Z.
Proof.
  intros Hx.
  pose proof (lead_bits 6 5 x ltac:(lia) Hx) as E. change (6 * 2 ^ 5)%Z with 192%Z in E. rewrite E.
  by rewrite byte_byte_char by lia.
Qed.

Lemma byte_lead3 x : (0 <= x < 16)%Z -> byte (byte_char (Z.lor 224 x)) = (224 + x)%Z.
Proof.
  intros Hx.
  pose proof (lead_bits 14 4 x ltac:(lia) Hx) as E. change (14 * 2 ^ 4)%Z with 224%Z in E. rewrite E.
  by rewrite byte_byte_char by lia.
Qed.

Lemma byte_lead4 x : (0 <= x < 8)%Z -> byte (byte_char (Z.lor 240 x)) = (240 + x)%Z.
Proof.
  intros Hx.
  pose proof (lead_bits 30 3 x ltac:(lia) Hx) as E. change (30 * 2 ^ 3)%Z with 240%Z in E. rewrite E.
  by rewrite byte_byte_char by lia.
Qed.

Lemma in_range_spec lo hi z : in_range lo hi z = true <-> (lo <= z <= hi)%Z.
Proof. unfold in_range. rewrite andb_true_iff, !Z.leb_le. lia. Qed.

Lemma in_range_false lo hi z : in_range lo hi z = false <-> (z < lo \/ hi < z)%Z.
Proof. rewrite <- not_true_iff_false, in_range_spec. lia. Qed.

(** Decide the tests of a goal by linear arithmetic. *)
Ltac decide_tests :=
  repeat match goal with
  | |- context [(?a <? ?b)%Z] => destruct (Z.ltb_spec a b); try lia
  | |- context [(?a =? ?b)%Z] => destruct (Z.eqb_spec a b); try lia
  | |- context [in_range ?a ?b ?c] =>
      let E := fresh "R" in destruct (in_range a b c) eqn:E;
      [apply in_range_spec in E|apply in_range_false in E]; try lia
  end; cbn [negb].

Lemma next2 x y s :
  (2 <= x < 32)%Z -> (0 <= y < 64)%Z ->
  let b := String (byte_char (Z.lor 192 x)) (String (byte_char (Z.lor 128 y)) "") in
  next_chunk (b +:+ s) = Some ((x * 64 + y)%Z, b, s).
Proof.
  intros Hx Hy b. subst b. rewrite !str_app_cons, str_app_nil_l. cbn [next_chunk].
  unfold second_ok. rewrite payload_cont, !byte_lead2, !byte_cont by lia. decide_tests.
  do 3 f_equal. change 31%Z with (2 ^ 5 - 1)%Z. rewrite land_low, lor_shiftl by lia.
  change (2 ^ 5)%Z with 32%Z. change (2 ^ 6)%Z with 64%Z. div_lia.
Qed.

Lemma next3 x y z s :
  (0 <= x < 16)%Z -> (0 <= y < 64)%Z -> (0 <= z < 64)%Z -> (x = 0 -> 32 <= y)%Z -> (x = 13 -> y < 32)%Z ->
  let b := String (byte_char (Z.lor 224 x))
             (String (byte_char (Z.lor 128 y)) (String (byte_char (Z.lor 128 z)) "")) in
  next_chunk (b +:+ s) = Some ((x * 4096 + y * 64 + z)%Z, b, s).
Proof.
  intros Hx Hy Hz H0 H13 b. subst b. rewrite !str_app_cons, str_app_nil_l. cbn [next_chunk].
  unfold second_ok, is_cont. rewrite !payload_cont, !byte_lead3, !byte_cont by lia.
  assert (Z.lor (Z.shiftl (Z.land (224 + x) 15) 12) (Z.lor (Z.shiftl y 6) z) =
    (x * 4096 + y * 64 + z)%Z) as ->.
  { change 15%Z with (2 ^ 4 - 1)%Z. rewrite land_low, (lor_shiftl y z) by lia.
    rewrite lor_shiftl by lia. change (2 ^ 4)%Z with 16%Z. change (2 ^ 6)%Z with 64%Z.
    change (2 ^ 12)%Z with 4096%Z. div_lia. }
  decide_tests; reflexivity.
Qed.

Lemma next4 x y z w s :
  (0 <= x < 5)%Z -> (0 <= y < 64)%Z -> (0 <= z < 64)%Z -> (0 <= w < 64)%Z ->
  (x = 0 -> 16 <= y)%Z -> (x = 4 -> y < 16)%Z ->
  let b := String (byte_char (Z.lor 240 x)) (String (byte_char (Z.lor 128 y))
             (String (byte_char (Z.lor 128 z)) (String (byte_char (Z.lor 128 w)) ""))) in
  next_chunk (b +:+ s) = Some ((x * 262144 + y * 4096 + z * 64 + w)%Z, b, s).
Proof.
  intros Hx Hy Hz Hw H0 H4 b. subst b. rewrite !str_app_cons, str_app_nil_l. cbn [next_chunk].
  unfold second_ok, is_cont. rewrite !payload_cont, !byte_lead4, !byte_cont by lia.
  assert (Z.lor (Z.shiftl (Z.land (240 + x) 7) 18) (Z.lor (Z.shiftl y 12) (Z.lor (Z.shiftl z 6) w)) =
    (x * 262144 + y * 4096 + z * 64 + w)%Z) as ->.
  { change 7%Z with (2 ^ 3 - 1)%Z. rewrite land_low, (lor_shiftl z w) by lia.
    rewrite (lor_shiftl y) by lia. rewrite lor_shiftl by lia. change (2 ^ 3)%Z with 8%Z.
    change (2 ^ 6)%Z with 64%Z. change (2 ^ 12)%Z with 4096%Z. change (2 ^ 18)%Z with 262144%Z.
    div_lia. }
  decide_tests; reflexivity.
Qed.

Lemma next_chunk_encode r s :
  scalar r -> next_chunk (encode_rune r +:+ s) = Some (r, encode_rune r, s).
Proof.
  intros [Hr Hs]. unfold encode_rune.
  rewrite !(Z.shiftr_div_pow2 r) by lia. change 63%Z with (2 ^ 6 - 1)%Z. rewrite !land_low by lia.
  change (2 ^ 6)%Z with 64%Z. change (2 ^ 12)%Z with 4096%Z. change (2 ^ 18)%Z with 262144%Z.
  destruct (in_range 0 127 r) eqn:E1; [apply in_range_spec in E1|apply in_range_false in E1].
  { rewrite str_app_cons, str_app_nil_l, next_chunk_ascii by (rewrite byte_byte_char; lia).
    by rewrite byte_byte_char by lia. }
  destruct (in_range 128 2047 r) eqn:E2; [apply in_range_spec in E2|apply in_range_false in E2].
  { rewrite next2 by div_lia. do 3 f_equal. div_lia. }
  destruct (in_range 2048 1114111 r) eqn:E3; [|apply in_range_false in E3; lia].
  destruct (in_range 55296 57343 r) eqn:E4; [apply in_range_spec in E4; lia|]. cbn [negb orb].
  destruct (in_range 2048 65535 r) eqn:E5; [apply in_range_spec in E5|apply in_range_false in E5].
  { rewrite next3 by div_lia. do 3 f_equal. div_lia. }
  rewrite next4 by div_lia. do 3 f_equal. div_lia.
Qed.

(** ** Decoding gives scalar values *)

Lemma payload_range c : (0 <= payload c < 64)%Z.
Proof. unfold payload. change 63%Z with (2 ^ 6 - 1)%Z. rewrite land_low by lia. change (2 ^ 6)%Z with 64%Z. div_lia. Qed.

Lemma payload_high c : (128 <= byte c < 192)%Z -> payload c = (byte c - 128)%Z.
Proof.
  intros Hc. unfold payload. change 63%Z with (2 ^ 6 - 1)%Z. rewrite land_low by lia.
  change (2 ^ 6)%Z with 64%Z. div_lia.
Qed.

Lemma second_ok_spec a b :
  second_ok a b = true ->
  (128 <= byte b < 192)%Z /\ (byte a = 224 -> 160 <= byte b)%Z /\ (byte a = 237 -> byte b < 160)%Z /\
  (byte a = 240 -> 144 <= byte b)%Z /\ (byte a = 244 -> byte b < 144)%Z.
Proof.
  unfold second_ok. decide_tests; intros H; try done; try (apply in_range_spec in H); lia.
Qed.

(** A decoded rune is one ASCII byte, or a scalar value from 128 on. *)
Lemma decoded_rune s ch r :
  next_chunk s = Some (ch, r) ->
  (exists c, (byte c < 128)%Z /\ ch = (byte c, String c "")) \/ (scalar ch.1 /\ (128 <= ch.1)%Z).
Proof.
  unfold next_chunk. intros H. assert (scalar rune_error /\ (128 <= rune_error)%Z) as He.
  { unfold scalar, rune_error. lia. }
  destruct s as [|a s1]; [done|]. destruct (byte a <? 128)%Z eqn:Ha; bool_facts.
  { injection H as <- <-. left. eauto. }
  right. destruct s1 as [|b s2]; [by injection H as <- <-|].
  destruct (second_ok a b) eqn:Hb; cbn [negb] in H; [|by injection H as <- <-].
  apply second_ok_spec in Hb as (Hb & H224 & H237 & H240 & H244).
  pose proof (payload_high b Hb) as Pb.
  destruct (in_range 194 223 (byte a)) eqn:R2.
  { injection H as <- <-. apply in_range_spec in R2. cbn [fst]. unfold scalar.
    change 31%Z with (2 ^ 5 - 1)%Z. rewrite land_low, lor_shiftl, Pb by lia.
    change (2 ^ 5)%Z with 32%Z. change (2 ^ 6)%Z with 64%Z. div_lia. }
  destruct s2 as [|c s3]; [by injection H as <- <-|].
  destruct (is_cont c) eqn:Hc; cbn [negb] in H; [|by injection H as <- <-].
  apply in_range_spec in Hc. pose proof (payload_high c ltac:(lia)) as Pc.
  destruct (in_range 224 239 (byte a)) eqn:R3.
  { injection H as <- <-. apply in_range_spec in R3. cbn [fst]. unfold scalar.
    change 15%Z with (2 ^ 4 - 1)%Z. rewrite land_low, (lor_shiftl (payload b)), Pb, Pc by lia.
    rewrite lor_shiftl by lia. change (2 ^ 4)%Z with 16%Z. change (2 ^ 6)%Z with 64%Z.
    change (2 ^ 12)%Z with 4096%Z. div_lia. }
  destruct s3 as [|d s4]; [by injection H as <- <-|].
  destruct (is_cont d) eqn:Hd; cbn [negb] in H; [|by injection H as <- <-].
  apply in_range_spec in Hd. pose proof (payload_high d ltac:(lia)) as Pd.
  destruct (in_range 240 244 (byte a)) eqn:R4; [|by injection H as <- <-].
  injection H as <- <-. apply in_range_spec in R4. cbn [fst]. unfold scalar.
  change 7%Z with (2 ^ 3 - 1)%Z.
  rewrite land_low, (lor_shiftl (payload c)), Pb, Pc, Pd by lia.
  rewrite (lor_shiftl (byte b - 128)) by lia. rewrite lor_shiftl by lia.
  change (2 ^ 3)%Z with 8%Z. change (2 ^ 6)%Z with 64%Z. change (2 ^ 12)%Z with 4096%Z.
  change (2 ^ 18)%Z with 262144%Z. div_lia.
Qed.

Lemma runes_next s ch r : next_chunk s = Some (ch, r) -> runes s = ch.1 :: runes r.
Proof. intros H. unfold runes. by rewrite chunks_next, H. Qed.

Lemma runes_scalar s : Forall scalar (runes s).
Proof.
  induction s as [|s ch r H _ _ IH] using chunk_ind; [constructor|]. rewrite (runes_next _ _ _ H).
  constructor; [|done]. destruct (decoded_rune _ _ _ H) as [(c & Hc & ->)|[? _]]; [|done].
  pose proof (byte_range c). unfold scalar. cbn. lia.
Qed.

(** ** Texts of good runes *)

Definition made_of (P : Z -> Prop) (s : string) : Prop :=
  valid_utf8 s = true /\ Forall P (runes s).

Section MadeOf.
Context (P : Z -> Prop).

Lemma made_of_nil : made_of P "".
Proof. by split. Qed.

Lemma runes_app s t : valid_utf8 s = true -> runes (s +:+ t) = runes s ++ runes t.
Proof. intros Hs. unfold runes. by rewrite chunks_app_valid, fmap_app. Qed.

Lemma made_of_app s t : made_of P s -> made_of P t -> made_of P (s +:+ t).
Proof.
  intros [Hs Ps] [Ht Pt]. split; [by apply valid_utf8_concat|].
  rewrite runes_app by done. by apply Forall_app.
Qed.

Lemma runes_encode r : scalar r -> runes (encode_rune r) = [r].
Proof.
  intros Hr. rewrite <- (str_app_nil_r (encode_rune r)).
  by rewrite (runes_next _ _ _ (next_chunk_encode r "" Hr)).
Qed.

Lemma valid_encode r : scalar r -> valid_utf8 (encode_rune r) = true.
Proof.
  intros Hr. rewrite <- (str_app_nil_r (encode_rune r)).
  rewrite (valid_utf8_next _ _ _ (next_chunk_encode r "" Hr)).
  unfold chunk_valid. cbn [fst snd]. destruct (Z.eqb_spec r rune_error) as [->|]; done.
Qed.

Lemma made_of_encode r : scalar r -> P r -> made_of P (encode_rune r).
Proof.
  intros Hr HP. split; [by apply valid_encode|]. rewrite runes_encode by done. by constructor.
Qed.

Lemma made_of_next s ch r :
  next_chunk s = Some (ch, r) -> made_of P s -> chunk_valid ch = true /\ P ch.1 /\ made_of P r.
Proof.
  intros H [Hv HP]. rewrite (valid_utf8_next _ _ _ H) in Hv. rewrite (runes_next _ _ _ H) in HP.
  bool_facts. apply Forall_cons in HP as [HP1 HP2]. by split_and!.
Qed.

Lemma made_of_chunk s ch r :
  next_chunk s = Some (ch, r) -> chunk_valid ch = true -> P ch.1 -> made_of P ch.2.
Proof.
  intros H Hv HP. pose proof (next_chunk_valid _ _ _ "" H Hv) as Hn. rewrite str_app_nil_r in Hn.
  split; [by rewrite (valid_utf8_next _ _ _ Hn), Hv|]. rewrite (runes_next _ _ _ Hn). by constructor.
Qed.

Lemma made_of_trim q s : made_of P s -> made_of P (trim_func q s).
Proof. intros [Hv HP]. split; [by apply valid_trim|by apply runes_part]. Qed.

(** A text built from scalar values. *)
Lemma made_of_concat l : Forall (made_of P) l -> made_of P (str_concat l).
Proof. induction 1 as [|s l Hs _ IH]; [apply made_of_nil|]. by apply made_of_app. Qed.
End MadeOf.

Lemma made_of_impl (P Q : Z -> Prop) s : (forall r, P r -> Q r) -> made_of P s -> made_of Q s.
Proof. intros H [Hv HP]. split; [done|]. eapply Forall_impl; eauto. Qed.

Lemma made_of_replace (P : Z -> Prop) c old new s :
  all_ascii (String c old) -> made_of P new -> made_of P s ->
  made_of P (replace_all (String c old) new s).
Proof.
  intros Ho Hn. pose proof (proj1 Ho) as Hc. unfold replace_all.
  assert (forall skip, ascii_run skip s -> made_of P s ->
    made_of P (replace_go (String c old) new skip s)) as H; [|by apply (H 0%nat)].
  induction s as [|s ch rest E Hs _ IH] using chunk_ind; intros skip Hrun Hm; [apply made_of_nil|].
  destruct (made_of_next _ _ _ _ E Hm) as (Hv & HP & Hrest).
  pose proof (made_of_chunk _ _ _ _ E Hv HP) as Hch.
  destruct (chunk_bytes_high _ _ _ E Hv) as [(x & Hx & ->)|Hhigh].
  - cbn [snd] in Hs, Hch. rewrite str_app_cons, str_app_nil_l in Hs. subst s.
    destruct skip as [|k]; cbn [replace_go]; [|by apply IH; [apply Hrun|]].
    case_goal.
    + apply made_of_app; [done|]. apply IH; [|done].
      apply prefix_ascii_run in E0; [|done]. cbn [String.length] in *.
      rewrite Nat.sub_succ, Nat.sub_0_r. apply E0.
    + rewrite <- (str_app_nil_l (replace_go _ _ 0 rest)), <- str_app_cons.
      apply made_of_app; [done|]. by apply IH.
  - destruct skip as [|k].
    + rewrite Hs, replace_go_no_char by (by apply Hhigh). apply made_of_app; [done|]. by apply IH.
    + exfalso. destruct (next_chunk_app _ _ _ E) as [_ Hne]. destruct ch as [v [|b bs]]; [done|].
      cbn [snd] in *. rewrite Hs, str_app_cons in Hrun. destruct Hrun as [Hb _].
      specialize (Hhigh b Hb). apply Forall_cons in Hhigh as [? _]. done.
Qed.

Lemma valid_replace c old new s :
  all_ascii (String c old) -> valid_utf8 new = true ->
  valid_utf8 s = true -> valid_utf8 (replace_all (String c old) new s) = true.
Proof.
  intros Ho Hn Hs. apply (made_of_replace (fun _ => True) c old new s Ho); split; auto; by apply Forall_true.
Qed.

(** Replacing ASCII bytes one by one. *)
Lemma made_of_replace_bytes (P Q : Z -> Prop) f s :
  (forall c, (byte c < 128)%Z -> P (byte c) -> made_of Q (f c)) ->
  (forall c, (128 <= byte c)%Z -> f c = String c "") ->
  (forall r, (128 <= r)%Z -> P r -> Q r) ->
  made_of P s -> made_of Q (str_concat (f <$> String.list_ascii_of_string s)).
Proof.
  intros Hlow Hhigh HPQ.
  assert (forall t, (forall c, (byte c < 128)%Z -> no_char c t) ->
    str_concat (f <$> String.list_ascii_of_string t) = t) as Hid.
  { intros t Ht. assert (Forall (fun c => (128 <= byte c)%Z) (String.list_ascii_of_string t)) as H.
    { apply Forall_forall. intros c Hc. destruct (Z.lt_ge_cases (byte c) 128) as [Hlt|]; [|done].
      specialize (Ht c Hlt). unfold no_char in Ht. rewrite Forall_forall in Ht. by destruct (Ht c Hc). }
    clear Ht. induction t as [|a t IH]; [done|]. cbn in H. apply Forall_cons in H as [Ha Ht].
    cbn. rewrite Hhigh by done. change (String a "" +:+ str_concat (f <$> String.list_ascii_of_string t) = String a t).
    rewrite IH by done. done. }
  assert (forall s t, str_concat (f <$> String.list_ascii_of_string (s +:+ t)) =
    str_concat (f <$> String.list_ascii_of_string s) +:+ str_concat (f <$> String.list_ascii_of_string t)) as Happ.
  { intros x t. induction x as [|a x IH]; [done|]. rewrite str_app_cons. cbn.
    rewrite str_app_assoc. f_equal. exact IH. }
  induction s as [|s ch rest E Hs _ IH] using chunk_ind; intros Hm; [apply made_of_nil|].
  destruct (made_of_next _ _ _ _ E Hm) as (Hv & HP & Hrest). rewrite Hs, Happ.
  apply made_of_app; [|by apply IH].
  destruct (decoded_rune _ _ _ E) as [(c & Hc & ->)|[_ Hc]].
  - cbn. rewrite str_app_nil_r. by apply Hlow.
  - destruct (chunk_bytes_high _ _ _ E Hv) as [(x & Hx & ->)|Hh]; [cbn in Hc; lia|].
    rewrite Hid by done. eapply made_of_chunk; [exact E|done|]. by apply HPQ.
Qed.

(** ** Decoding, then encoding *)

Lemma byte_char_byte c : byte_char (byte c) = c.
Proof. unfold byte, byte_char. rewrite N2Z.id. apply ascii_N_embedding. Qed.

Lemma byte_char_lead h n x c :
  (0 <= n)%Z -> (0 <= x < 2 ^ n)%Z -> byte c = (h * 2 ^ n + x)%Z -> byte_char (Z.lor (h * 2 ^ n) x) = c.
Proof. intros Hn Hx Hc. rewrite lead_bits by done. rewrite <- Hc. apply byte_char_byte. Qed.

Lemma cont_byte c x : (128 <= byte c < 192)%Z -> x = (byte c - 128)%Z -> byte_char (Z.lor 128 x) = c.
Proof. intros Hc ->. apply (byte_char_lead 2 6); lia. Qed.

Lemma lead2_byte c x : (0 <= x < 32)%Z -> byte c = (192 + x)%Z -> byte_char (Z.lor 192 x) = c.
Proof. intros Hx Hc. apply (byte_char_lead 6 5); lia. Qed.

Lemma lead3_byte c x : (0 <= x < 16)%Z -> byte c = (224 + x)%Z -> byte_char (Z.lor 224 x) = c.
Proof. intros Hx Hc. apply (byte_char_lead 14 4); lia. Qed.

Lemma lead4_byte c x : (0 <= x < 8)%Z -> byte c = (240 + x)%Z -> byte_char (Z.lor 240 x) = c.
Proof. intros Hx Hc. apply (byte_char_lead 30 3); lia. Qed.

Lemma encode_decoded s ch r :
  next_chunk s = Some (ch, r) -> chunk_valid ch = true -> encode_rune ch.1 = ch.2.
Proof.
  unfold next_chunk. intros H Hv.
  destruct s as [|a s1]; [done|]. pose proof (byte_range a) as Ra.
  destruct (byte a <? 128)%Z eqn:Ha; bool_facts.
  { injection H as <- <-. cbn [fst snd]. unfold encode_rune.
    rewrite (proj2 (in_range_spec _ _ _)) by lia. by rewrite byte_char_byte. }
  destruct s1 as [|b s2]; [by injection H as <- <-|].
  destruct (second_ok a b) eqn:Hb; cbn [negb] in H; [|by injection H as <- <-].
  apply second_ok_spec in Hb as (Hb & H224 & H237 & H240 & H244).
  pose proof (payload_high b Hb) as Pb.
  destruct (in_range 194 223 (byte a)) eqn:R2.
  { injection H as <- <-. apply in_range_spec in R2. cbn [fst snd].
    change 31%Z with (2 ^ 5 - 1)%Z. rewrite land_low, lor_shiftl, Pb by lia.
    change (2 ^ 5)%Z with 32%Z. change (2 ^ 6)%Z with 64%Z.
    set (v := (_ + _)%Z). assert (v = (byte a - 192) * 64 + (byte b - 128))%Z as Ev by (unfold v; div_lia).
    clearbody v. unfold encode_rune. rewrite (proj2 (in_range_false _ _ _)) by lia.
    rewrite (proj2 (in_range_spec _ _ _)) by lia.
    rewrite !Z.shiftr_div_pow2 by lia. change 63%Z with (2 ^ 6 - 1)%Z. rewrite !land_low by lia.
    change (2 ^ 6)%Z with 64%Z.
    rewrite (cont_byte b) by div_lia. by rewrite (lead2_byte a) by div_lia. }
  destruct s2 as [|c s3]; [by injection H as <- <-|].
  destruct (is_cont c) eqn:Hc; cbn [negb] in H; [|by injection H as <- <-].
  apply in_range_spec in Hc. pose proof (payload_high c ltac:(lia)) as Pc.
  destruct (in_range 224 239 (byte a)) eqn:R3.
  { injection H as <- <-. apply in_range_spec in R3. cbn [fst snd].
    change 15%Z with (2 ^ 4 - 1)%Z. rewrite land_low, (lor_shiftl (payload b)), Pb, Pc by lia.
    rewrite lor_shiftl by lia. change (2 ^ 4)%Z with 16%Z. change (2 ^ 6)%Z with 64%Z.
    change (2 ^ 12)%Z with 4096%Z.
    set (v := (_ + _)%Z).
    assert (v = (byte a - 224) * 4096 + (byte b - 128) * 64 + (byte c - 128))%Z as Ev by (unfold v; div_lia).
    clearbody v. unfold encode_rune. decide_tests. cbn [orb].
    rewrite !Z.shiftr_div_pow2 by lia. change 63%Z with (2 ^ 6 - 1)%Z. rewrite !land_low by lia.
    change (2 ^ 6)%Z with 64%Z. change (2 ^ 12)%Z with 4096%Z.
    rewrite (cont_byte b (v / 64 mod 64)), (cont_byte c (v mod 64)) by div_lia.
    by rewrite (lead3_byte a) by div_lia. }
  destruct s3 as [|d s4]; [by injection H as <- <-|].
  destruct (is_cont d) eqn:Hd; cbn [negb] in H; [|by injection H as <- <-].
  apply in_range_spec in Hd. pose proof (payload_high d ltac:(lia)) as Pd.
  destruct (in_range 240 244 (byte a)) eqn:R4; [|by injection H as <- <-].
  injection H as <- <-. apply in_range_spec in R4. cbn [fst snd].
  change 7%Z with (2 ^ 3 - 1)%Z.
  rewrite land_low, (lor_shiftl (payload c)), Pb, Pc, Pd by lia.
  rewrite (lor_shiftl (byte b - 128)) by lia. rewrite lor_shiftl by lia.
  change (2 ^ 3)%Z with 8%Z. change (2 ^ 6)%Z with 64%Z. change (2 ^ 12)%Z with 4096%Z.
  change (2 ^ 18)%Z with 262144%Z.
  set (v := (_ + _)%Z).
  assert (v = (byte a - 240) * 262144 + (byte b - 128) * 4096 + (byte c - 128) * 64 + (byte d - 128))%Z
    as Ev by (unfold v; div_lia).
  clearbody v. unfold encode_rune. decide_tests. cbn [orb].
  rewrite !Z.shiftr_div_pow2 by lia. change 63%Z with (2 ^ 6 - 1)%Z. rewrite !land_low by lia.
  change (2 ^ 6)%Z with 64%Z. change (2 ^ 12)%Z with 4096%Z. change (2 ^ 18)%Z with 262144%Z.
  rewrite (cont_byte b (v / 4096 mod 64)), (cont_byte c (v / 64 mod 64)), (cont_byte d (v mod 64))
    by div_lia.
  by rewrite (lead4_byte a) by div_lia.
Qed.

(** [string(runes)]. *)
Definition of_runes (w : list Z) : string := str_concat (encode_rune <$> w).

Lemma of_runes_runes s : valid_utf8 s = true -> of_runes (runes s) = s.
Proof.
  induction s as [|s ch r H Hs _ IH] using chunk_ind; [done|]. intros Hv.
  rewrite (valid_utf8_next _ _ _ H) in Hv. bool_facts. rewrite (runes_next _ _ _ H).
  unfold of_runes. rewrite fmap_cons. cbn [str_concat].
  rewrite (encode_decoded _ _ _ H) by done. unfold of_runes in IH. by rewrite IH, <- Hs.
Qed.

Lemma made_of_of_runes (P : Z -> Prop) w : Forall scalar w -> Forall P w -> made_of P (of_runes w).
Proof.
  intros Hs Hp. apply made_of_concat, Forall_fmap. rewrite Forall_forall in Hs, Hp.
  apply Forall_forall. intros r Hr. apply made_of_encode; auto.
Qed.

Lemma runes_of_runes w : Forall scalar w -> runes (of_runes w) = w.
Proof.
  induction 1 as [|r w Hr _ IH]; [done|]. unfold of_runes. rewrite fmap_cons. cbn [str_concat].
  rewrite runes_app by (by apply valid_encode). rewrite runes_encode by done. cbn. by f_equal.
Qed.

Lemma of_runes_app w1 w2 : of_runes (w1 ++ w2) = of_runes w1 +:+ of_runes w2.
Proof.
  unfold of_runes. rewrite fmap_app. induction w1 as [|r w1 IH]; [done|].
  cbn. by rewrite IH, str_app_assoc.
Qed.

Lemma made_of_prefix (P : Z -> Prop) s t :
  match t with "" => True | String c _ => (byte c < 128)%Z end -> made_of P (s +:+ t) -> made_of P s.
Proof.
  intros Ht [Hv Hp]. unfold runes, valid_utf8 in *. rewrite chunks_app in Hv, Hp by done.
  rewrite forallb_app in Hv. bool_facts. rewrite fmap_app in Hp. by apply Forall_app in Hp as [? _].
Qed.

(** A byte below 128 is a rune of a text exactly when it is a byte of it. *)
Lemma no_char_runes c s : (byte c < 128)%Z -> no_char c s -> Forall (fun r => r <> byte c) (runes s).
Proof.
  intros Hc. induction s as [|s ch r H Hs _ IH] using chunk_ind; [constructor|].
  rewrite (runes_next _ _ _ H). rewrite Hs at 1. intros [H1 H2]%no_char_app. constructor; [|by apply IH].
  destruct (decoded_rune _ _ _ H) as [(d & Hd & ->)|[_ ?]]; [|lia].
  cbn in *. apply Forall_cons in H1 as [Hne _]. intros E. apply Hne.
  by rewrite <- (byte_char_byte d), E, byte_char_byte.
Qed.
