(* ===== verification/GoFloat.v ===== *)
(** * Go's float64

    IEEE 754 binary64, through the executable specification of the Rocq core
    library: [spec_float] with 53 bits of precision and exponent bound 1024.
    Every operation rounds to nearest even, as Go's does. *)
From S2P Require Export Prelude.
From Corelib Require Export Floats.SpecFloat.

Abbreviation float64 := spec_float.

Definition fadd : float64 -> float64 -> float64 := SFadd 53 1024.
Definition fsub : float64 -> float64 -> float64 := SFsub 53 1024.
Definition fmul : float64 -> float64 -> float64 := SFmul 53 1024.
Definition fdiv : float64 -> float64 -> float64 := SFdiv 53 1024.
Definition flt : float64 -> float64 -> bool := SFltb.
Definition fle : float64 -> float64 -> bool := SFleb.
Definition feq : float64 -> float64 -> bool := SFeqb.

(** [float64(n)] of an [int]. *)
Definition float_of_Z (n : Z) : float64 := binary_normalize 53 1024 n 0 false.

(** The constant [m / d] for exactly representable [m] and [d]: division rounds
    once, so this is the nearest float64 to the decimal literal. *)
Definition float_lit (m d : Z) : float64 := fdiv (float_of_Z m) (float_of_Z d).

Definition fzero : float64 := S754_zero false.

(** [math.Abs], [math.Signbit], [math.Copysign(math.Inf(1), x)]. *)
Definition fabs : float64 -> float64 := SFabs.

Definition signbit (f : float64) : bool :=
  match f with
  | S754_zero s | S754_infinity s | S754_finite s _ _ => s
  | S754_nan => false
  end.

Definition inf_with_sign_of (f : float64) : float64 := S754_infinity (signbit f).

Definition is_nan (f : float64) : bool :=
  match f with S754_nan => true | _ => false end.

Definition is_inf (f : float64) : bool :=
  match f with S754_infinity _ => true | _ => false end.

(** [!math.IsNaN(f) && !math.IsInf(f, 0)]. *)
Definition finite (f : float64) : bool := negb (is_nan f) && negb (is_inf f).

(** The value of a finite float as a pair of a scaled integer and an exponent. *)
Definition signed_mantissa (s : bool) (m : positive) : Z := if s then Zneg m else Zpos m.

Lemma feq_refl f : is_nan f = false -> feq f f = true.
Proof.
  destruct f as [[]|[]| |[] m e]; simpl; try done; intros _;
    unfold feq, SFeqb, SFcompare; by rewrite Z.compare_refl, Pos.compare_cont_refl.
Qed.

Lemma finite_not_nan f : finite f = true -> is_nan f = false.
Proof. unfold finite. by destruct f. Qed.

(** ** Order *)

(** [SFcompare] on floats that are not NaN is a total preorder whose ties are
    only the two zeros; stated on the sign and the magnitude key. *)
Definition fkey (f : float64) : Z * (Z * Z) :=
  match f with
  | S754_zero _ => (0, (0, 0))
  | S754_infinity s => (if s then -2 else 2, (0, 0))
  | S754_nan => (0, (0, 0))
  | S754_finite s m e =>
      if s then (-1, (- e, Zneg m)) else (1, (e, Zpos m))
  end%Z.

Definition key_compare (a b : Z * (Z * Z)) : comparison :=
  match Z.compare a.1 b.1 with
  | Eq => match Z.compare a.2.1 b.2.1 with
          | Eq => Z.compare a.2.2 b.2.2
          | c => c
          end
  | c => c
  end.

Lemma SFcompare_key f g :
  is_nan f = false -> is_nan g = false ->
  SFcompare f g = Some (key_compare (fkey f) (fkey g)).
Proof.
  intros Hf Hg.
  destruct f as [sf|sf| |sf mf ef], g as [sg|sg| |sg mg eg]; try done;
    destruct sf; try destruct sg; try done; unfold SFcompare, key_compare; cbn;
    f_equal.
  - rewrite Z.compare_opp, (Z.compare_antisym ef eg).
    by destruct (Z.compare ef eg).
Qed.

Lemma key_compare_spec a b :
  match key_compare a b with
  | Eq => a = b
  | Lt => (a.1 < b.1 \/ (a.1 = b.1 /\ (a.2.1 < b.2.1 \/ (a.2.1 = b.2.1 /\ a.2.2 < b.2.2))))%Z
  | Gt => (b.1 < a.1 \/ (a.1 = b.1 /\ (b.2.1 < a.2.1 \/ (a.2.1 = b.2.1 /\ b.2.2 < a.2.2))))%Z
  end.
Proof.
  destruct a as [a1 [a2 a3]], b as [b1 [b2 b3]]. unfold key_compare. cbn.
  destruct (Z.compare_spec a1 b1); [subst|lia|lia].
  destruct (Z.compare_spec a2 b2); [subst|lia|lia].
  destruct (Z.compare_spec a3 b3); [subst|lia|lia]. done.
Qed.

(** A float treated by [sort.Float64s]: NaN sorts before every other value. *)
Definition float_less (a b : float64) : bool := flt a b || (is_nan a && negb (is_nan b)).

Lemma float_less_key a b :
  is_nan a = false -> is_nan b = false ->
  float_less a b = match key_compare (fkey a) (fkey b) with Lt => true | _ => false end.
Proof.
  intros Ha Hb. unfold float_less, flt, SFltb. rewrite SFcompare_key by done.
  rewrite Ha. apply orb_false_r.
Qed.

Lemma float_less_nan_r a b : is_nan b = true -> float_less a b = false.
Proof.
  destruct b; try done. intros _. unfold float_less, flt, SFltb.
  by destruct a.
Qed.

Lemma float_less_nan_l a b :
  is_nan a = true -> float_less a b = negb (is_nan b).
Proof. by destruct a. Qed.

#[export] Instance float_less_strict_weak : StrictWeak float_less.
Proof.
  split.
  - intros a b. destruct (is_nan a) eqn:Ha, (is_nan b) eqn:Hb.
    + by rewrite (float_less_nan_r _ _ Hb).
    + by rewrite (float_less_nan_r _ _ Ha).
    + by rewrite (float_less_nan_r _ _ Hb).
    + rewrite !float_less_key by done. intros H.
      pose proof (key_compare_spec (fkey a) (fkey b)).
      pose proof (key_compare_spec (fkey b) (fkey a)).
      destruct (key_compare (fkey a) (fkey b)), (key_compare (fkey b) (fkey a));
        try done; lia.
  - intros a b c. destruct (is_nan a) eqn:Ha.
    { by rewrite !(float_less_nan_r _ _ Ha). }
    destruct (is_nan b) eqn:Hb.
    { rewrite (float_less_nan_l _ _ Hb), Ha. done. }
    destruct (is_nan c) eqn:Hc.
    { rewrite !(float_less_nan_l _ _ Hc), Hb. done. }
    rewrite !float_less_key by done. intros H1 H2.
    pose proof (key_compare_spec (fkey b) (fkey a)).
    pose proof (key_compare_spec (fkey c) (fkey b)).
    pose proof (key_compare_spec (fkey c) (fkey a)).
    destruct (key_compare (fkey b) (fkey a)), (key_compare (fkey c) (fkey b)),
      (key_compare (fkey c) (fkey a)); try done;
      repeat match goal with H : fkey _ = fkey _ |- _ => rewrite H in * end; lia.
Qed.

Lemma key_compare_antisym a b : key_compare b a = CompOpp (key_compare a b).
Proof.
  unfold key_compare. rewrite (Z.compare_antisym a.1 b.1), (Z.compare_antisym a.2.1 b.2.1),
    (Z.compare_antisym a.2.2 b.2.2).
  by destruct (a.1 ?= b.1)%Z, (a.2.1 ?= b.2.1)%Z.
Qed.

(** On numbers [==] and [<] are the equality and the order of [float_less]. *)
Lemma feq_float_less a b :
  is_nan a = false -> is_nan b = false ->
  feq a b = negb (float_less a b) && negb (float_less b a).
Proof.
  intros Ha Hb. rewrite !float_less_key by done. unfold feq, SFeqb.
  rewrite SFcompare_key, (key_compare_antisym (fkey a)) by done.
  by destruct (key_compare (fkey a) (fkey b)).
Qed.

Lemma flt_float_less a b : is_nan a = false -> flt a b = float_less a b.
Proof. unfold float_less. intros ->. by rewrite orb_false_r. Qed.

(** ** Where no NaN comes from *)

Lemma shr_1_nonneg mrs : (0 <= shr_m mrs)%Z -> (0 <= shr_m (shr_1 mrs))%Z.
Proof. destruct mrs as [[|[p|p|]|p] r s]; cbn; lia. Qed.

Lemma shr_nonneg mrs e n : (0 <= shr_m mrs)%Z -> (0 <= shr_m (shr mrs e n).1)%Z.
Proof.
  destruct n as [|p|p]; cbn [shr fst]; [done| |done].
  revert mrs. induction p as [p IH|p IH|]; intros mrs H; cbn [iter_pos]; auto using shr_1_nonneg.
Qed.

Lemma shr_fexp_nonneg prec emax m e l : (0 <= m)%Z -> (0 <= shr_m (shr_fexp prec emax m e l).1)%Z.
Proof. intros H. apply shr_nonneg. by destruct l as [|[]]. Qed.

Lemma round_not_nan prec emax s m e l :
  (0 <= m)%Z -> is_nan (binary_round_aux prec emax s m e l) = false.
Proof.
  intros H. unfold binary_round_aux.
  pose proof (shr_fexp_nonneg prec emax m e l H) as H1.
  destruct (shr_fexp prec emax m e l) as [mrs1 e1]. cbn [fst] in H1.
  assert (0 <= round_nearest_even (shr_m mrs1) (loc_of_shr_record mrs1))%Z as H2.
  { unfold round_nearest_even. destruct (loc_of_shr_record mrs1) as [|[]]; try lia.
    destruct (Z.even _); lia. }
  pose proof (shr_fexp_nonneg prec emax _ e1 loc_Exact H2) as H3.
  destruct (shr_fexp prec emax (round_nearest_even _ _) e1 loc_Exact) as [mrs2 e2]. cbn [fst] in H3.
  destruct (shr_m mrs2); [done|by destruct (_ <=? _)%Z|lia].
Qed.

Lemma normalize_not_nan prec emax m e s : is_nan (binary_normalize prec emax m e s) = false.
Proof.
  destruct m as [|p|p]; cbn [binary_normalize]; [done|..]; unfold binary_round;
    destruct (shl_align _ _ _); by apply round_not_nan.
Qed.

Lemma fsub_not_nan a b : finite a = true -> finite b = true -> is_nan (fsub a b) = false.
Proof.
  intros Ha Hb. destruct a as [[]|sa| |sa ma ea], b as [[]|sb| |sb mb eb]; try done.
  apply normalize_not_nan.
Qed.

Lemma fabs_not_nan a : is_nan (fabs a) = is_nan a.
Proof. by destruct a. Qed.

(** A quotient by a positive number. *)
Lemma fdiv_not_nan a b : is_nan a = false -> finite b = true -> flt fzero b = true -> is_nan (fdiv a b) = false.
Proof.
  intros Ha Hb Hp. destruct a as [sa|sa| |sa ma ea], b as [sb|sb| |sb mb eb]; try done.
  unfold fdiv, SFdiv. destruct (SFdiv_core_binary _ _ _ _ _ _) as [[m e] l] eqn:E.
  apply round_not_nan. unfold SFdiv_core_binary in E.
  match type of E with context [Z.div_eucl ?x ?y] =>
    pose proof (Z_div_mod_full x y ltac:(lia)) as Hd; destruct (Z.div_eucl x y) as [q r] end.
  injection E as <- <- <-. destruct Hd as [Hd Hr]. unfold Remainder in Hr.
  match type of Hd with ?m = _ => assert (0 <= m)%Z as Hm end.
  { destruct (_ - _)%Z; [lia|apply Z.shiftl_nonneg; lia|lia]. }
  nia.
Qed.
