(* ===== verification/Contracts.v ===== *)
(** * Frozen v1 contracts (pkg/contracts/contracts.go)

    The data that crosses component boundaries.  Go's named string types stay
    strings: a value outside the declared constants is representable in Go and
    the validators of the components have to reject it.  [int] is [Z], an
    optional pointer is [option], [time.Time] is the number of nanoseconds since
    the Unix epoch. *)
From S2P Require Export GoString GoFloat.

Definition SchemaVersion : string := "1.0.0".

(** ** Named string types and their constants *)
Abbreviation ExecutionPolicy := string (only parsing).
Definition ExecutionPolicyImproveOnly : ExecutionPolicy := "improve_only".
Definition ExecutionPolicyAskBeforeExecute : ExecutionPolicy := "ask_before_execute".
Definition ExecutionPolicyFollowUserIntent : ExecutionPolicy := "follow_user_intent".

Abbreviation PolicyOutcome := string (only parsing).
Definition PolicyOutcomeReturnOnly : PolicyOutcome := "return_only".
Definition PolicyOutcomeApprovalRequired : PolicyOutcome := "approval_required".
Definition PolicyOutcomeExecutionRecommended : PolicyOutcome := "execution_recommended".
Definition PolicyOutcomeDenied : PolicyOutcome := "denied".

Abbreviation AuditConsent := string (only parsing).
Definition AuditConsentGranted : AuditConsent := "granted".
Definition AuditConsentDenied : AuditConsent := "denied".
Definition AuditConsentUnknown : AuditConsent := "unknown".

Abbreviation CoverageState := string (only parsing).
Definition CoverageStateComplete : CoverageState := "complete".
Definition CoverageStatePartial : CoverageState := "partial".
Definition CoverageStateMissing : CoverageState := "missing".
Definition CoverageStateUnknown : CoverageState := "unknown".

Abbreviation AuditScope := string (only parsing).
Definition AuditScopePortfolio : AuditScope := "portfolio".
Definition AuditScopeProject : AuditScope := "project".
Definition AuditScopeTask : AuditScope := "task".
Definition AuditScopeTrajectory : AuditScope := "trajectory".

Abbreviation MetricStatus := string (only parsing).
Definition MetricStatusImproved : MetricStatus := "improved".
Definition MetricStatusWorsened : MetricStatus := "worsened".
Definition MetricStatusFlat : MetricStatus := "flat".
Definition MetricStatusMixed : MetricStatus := "mixed".
Definition MetricStatusInsufficient : MetricStatus := "insufficient".

Abbreviation ReportFormat := string (only parsing).
Definition ReportFormatChat : ReportFormat := "chat".
Definition ReportFormatMarkdown : ReportFormat := "markdown".
Definition ReportFormatTable : ReportFormat := "table".

Abbreviation ProvenanceLabel := string (only parsing).
Definition ProvenanceOfficialCurrent : ProvenanceLabel := "official_current".
Definition ProvenanceStaffClarification : ProvenanceLabel := "staff_clarification".
Definition ProvenancePractitionerHypothesis : ProvenanceLabel := "practitioner_hypothesis".
Definition ProvenanceRuntimeObserved : ProvenanceLabel := "runtime_observed".
Definition ProvenanceDerived : ProvenanceLabel := "derived".
Definition ProvenanceUnknown : ProvenanceLabel := "unknown".

Abbreviation ErrorCode := string (only parsing).
Definition ErrorCodeInvalidSchema : ErrorCode := "invalid_schema".
Definition ErrorCodeSemanticInvalid : ErrorCode := "semantic_invalid".
Definition ErrorCodePermissionDenied : ErrorCode := "permission_denied".
Definition ErrorCodeApprovalRequired : ErrorCode := "approval_required".
Definition ErrorCodeUnsupportedCapability : ErrorCode := "unsupported_capability".
Definition ErrorCodeUnknownCapability : ErrorCode := "unknown_capability".
Definition ErrorCodeCoverageIncomplete : ErrorCode := "coverage_incomplete".
Definition ErrorCodeSourceConflict : ErrorCode := "source_conflict".
Definition ErrorCodeBudgetExhausted : ErrorCode := "budget_exhausted".
Definition ErrorCodeSensitivePayload : ErrorCode := "sensitive_payload".
Definition ErrorCodeNotFound : ErrorCode := "not_found".
Definition ErrorCodeInternal : ErrorCode := "internal_error".

(** The zero [time.Time]: January 1, year 1, UTC. *)
Definition zero_time : Z := (-62135596800 * 1000000000)%Z.
Definition is_zero_time (t : Z) : bool := (t =? zero_time)%Z.

(** ** Records *)
Record PromptPlan := mkPromptPlan {
  pp_SchemaVersion : string;
  pp_Role : string;
  pp_Personality : string;
  pp_CollaborationStyle : string;
  pp_Goal : string;
  pp_SuccessCriteria : list string;
  pp_Invariants : list string;
  pp_DecisionRules : list string;
  pp_EvidenceRequirements : list string;
  pp_Tools : list string;
  pp_OutputContract : string;
  pp_OutputLanguage : string;
  pp_ApprovalBoundary : string;
  pp_PhaseScope : string;
  pp_StopRules : list string;
  pp_FallbackRules : list string;
  pp_AbstainRules : list string;
  pp_ValidationBar : list string;
  pp_ArtifactPriorities : list string;
  pp_StablePrefix : option string;
  pp_DynamicTail : option string;
  pp_Scope : list string;
  pp_NonGoals : list string;
  pp_Gates : list string
}.

Record BoundaryDecision := mkBoundaryDecision {
  bd_Category : string;
  bd_Outcome : string;
  bd_Risk : Z;
  bd_RiskLevel : string;
  bd_Confidence : float64;
  bd_SourceRef : string;
  bd_PackID : string;
  bd_RuleID : string;
  bd_Version : string;
  bd_Explanation : string;
  bd_ConflictRefs : list string
}.

Record ExecutionBudget := mkExecutionBudget {
  eb_SchemaVersion : string;
  eb_Enforcement : string;
  eb_MaxUsefulToolLoops : option Z;
  eb_MaxRetries : option Z;
  eb_MaxRetrievalExpansions : option Z;
  eb_ActivePhases : list string;
  eb_DelegationPolicy : string;
  eb_MaxAgentDepth : option Z;
  eb_MaxConcurrency : option Z;
  eb_ContextMode : string;
  eb_ExhaustionOutcome : string
}.

Record ImprovePromptRequest := mkImprovePromptRequest {
  ipq_SchemaVersion : string;
  ipq_Kind : string;
  ipq_Intent : string;
  ipq_ExecutionPolicy : ExecutionPolicy;
  ipq_PromptPlan : option PromptPlan;
  ipq_Budget : option ExecutionBudget
}.

Record ImprovePromptResult := mkImprovePromptResult {
  ipr_SchemaVersion : string;
  ipr_Kind : string;
  ipr_ImprovedPrompt : string;
  ipr_PolicyOutcome : PolicyOutcome;
  ipr_Diagnostics : list string;
  ipr_BoundaryDecisions : list BoundaryDecision
}.

Record CreateGoalPromptRequest := mkCreateGoalPromptRequest {
  cgq_SchemaVersion : string;
  cgq_Kind : string;
  cgq_Objective : string;
  cgq_PromptPlan : PromptPlan
}.

Record CreateGoalPromptResult := mkCreateGoalPromptResult {
  cgr_SchemaVersion : string;
  cgr_Kind : string;
  cgr_GoalPrompt : string;
  cgr_CheckpointRequired : bool
}.

Record CreateReviewFixPromptRequest := mkCreateReviewFixPromptRequest {
  crq_SchemaVersion : string;
  crq_Kind : string;
  crq_Findings : list string;
  crq_ReviewHead : string
}.

Record CreateReviewFixPromptResult := mkCreateReviewFixPromptResult {
  crr_SchemaVersion : string;
  crr_Kind : string;
  crr_FixPrompt : string;
  crr_FailureClasses : list string;
  crr_SamePatternScanRequired : bool
}.

Record LintPromptRequest := mkLintPromptRequest {
  lpq_SchemaVersion : string;
  lpq_Kind : string;
  lpq_Candidate : string
}.

Record Diagnostic := mkDiagnostic {
  dg_Code : string;
  dg_Severity : string;
  dg_Message : string;
  dg_Location : string;
  dg_Rationale : string;
  dg_Remediation : string
}.

Record LintPromptResult := mkLintPromptResult {
  lpr_SchemaVersion : string;
  lpr_Kind : string;
  lpr_Valid : bool;
  lpr_Diagnostics : list Diagnostic;
  lpr_BoundaryDecisions : list BoundaryDecision
}.

Record GetCheckpointRequest := mkGetCheckpointRequest {
  gcq_SchemaVersion : string;
  gcq_Kind : string;
  gcq_Reference : string
}.

Record GetCheckpointResult := mkGetCheckpointResult {
  gcr_SchemaVersion : string;
  gcr_Kind : string;
  gcr_Objective : string;
  gcr_AcceptedDecisions : list string;
  gcr_Constraints : list string;
  gcr_EvidenceRefs : list string;
  gcr_Completed : list string;
  gcr_Validation : list string;
  gcr_Blockers : list string;
  gcr_NextAction : string;
  gcr_RemainingGates : list string
}.

Record AuditSessionRequest := mkAuditSessionRequest {
  asq_SchemaVersion : string;
  asq_Kind : string;
  asq_Reference : string;
  asq_Consent : AuditConsent;
  asq_ConfiguredSources : list string
}.

Record AuditSessionResult := mkAuditSessionResult {
  asr_SchemaVersion : string;
  asr_Kind : string;
  asr_Coverage : CoverageState;
  asr_EvidenceRefs : list string;
  asr_Findings : list string;
  asr_RedactionApplied : bool
}.

Record AuditProjectRequest := mkAuditProjectRequest {
  apq_SchemaVersion : string;
  apq_Kind : string;
  apq_Scope : AuditScope;
  apq_Reference : string;
  apq_ConfiguredSources : list string;
  apq_StartsAt : Z;
  apq_EndsAt : Z;
  apq_AsOf : Z;
  apq_Consent : AuditConsent
}.

Record MetricResult := mkMetricResult {
  mr_Name : string;
  mr_Version : string;
  mr_NativeValue : option float64;
  mr_NativeUnit : string;
  mr_Numerator : option float64;
  mr_Denominator : option float64;
  mr_SampleCount : Z;
  mr_PreviousValue : option float64;
  mr_RollingMedian : option float64;
  mr_RollingMAD : option float64;
  mr_BaselineSampleCount : Z;
  mr_AbsoluteChangePrevious : option float64;
  mr_PercentageChangePrevious : option float64;
  mr_AbsoluteChangeRolling : option float64;
  mr_PercentageChangeRolling : option float64;
  mr_WorkloadAdjustedResidual : option float64;
  mr_PracticalThreshold : float64;
  mr_Coverage : CoverageState;
  mr_Status : MetricStatus;
  mr_StatusReason : string;
  mr_Confidence : string;
  mr_Uncertainty : string;
  mr_Exclusions : list string;
  mr_EvidenceRefs : list string
}.

Record AuditFinding := mkAuditFinding {
  af_Code : string;
  af_Detector : string;
  af_DetectorVersion : string;
  af_Cause : string;
  af_ExceptionCheck : string;
  af_Classification : string;
  af_Confidence : string;
  af_EvidenceRefs : list string;
  af_Counterevidence : list string
}.

Record AuditRecommendation := mkAuditRecommendation {
  ar_Code : string;
  ar_PolicyVersion : string;
  ar_LifecycleState : string;
  ar_TargetSurface : string;
  ar_Action : string;
  ar_ExpectedMovement : string;
  ar_ProtectedGuardrails : list string;
  ar_ApprovalRequired : bool;
  ar_Verification : string;
  ar_Risks : list string;
  ar_EvidenceRefs : list string
}.

Record AuditWindowProvenance := mkAuditWindowProvenance {
  aw_StartsAt : Z;
  aw_EndsAt : Z;
  aw_AsOf : Z;
  aw_Timezone : string;
  aw_BaselineVersion : string;
  aw_CountingMode : string;
  aw_WorkloadVersion : string;
  aw_SourceVersions : list string;
  aw_Revision : Z;
  aw_LateEvidence : bool
}.

Record ScopeContribution := mkScopeContribution {
  sc_Scope : AuditScope;
  sc_Reference : string;
  sc_WorkloadClass : string;
  sc_Numerator : float64;
  sc_Denominator : float64;
  sc_Contribution : option float64;
  sc_Coverage : CoverageState;
  sc_AttributionState : string
}.

Record WorkloadDecomposition := mkWorkloadDecomposition {
  wd_Metric : string;
  wd_VolumeEffect : option float64;
  wd_MixEffect : option float64;
  wd_WithinClassEffect : option float64;
  wd_Residual : option float64;
  wd_Status : string;
  wd_Classes : list string
}.

Record InvocationCounts := mkInvocationCounts {
  ic_HostCalls : Z;
  ic_LeafCalls : Z;
  ic_HostResults : Z;
  ic_LeafResults : Z;
  ic_UnknownCalls : Z
}.

Record NativeOutlier := mkNativeOutlier {
  no_Metric : string;
  no_NativeValue : option float64;
  no_NativeUnit : string;
  no_Direction : string;
  no_Magnitude : option float64
}.

Record ConfounderStratum := mkConfounderStratum {
  cs_Kind : string;
  cs_State : string;
  cs_Matched : bool;
  cs_Confidence : string;
  cs_Provenance : string
}.

Record GuardrailResult := mkGuardrailResult {
  gr_Name : string;
  gr_State : string;
  gr_Coverage : CoverageState;
  gr_EvidenceRefs : list string
}.

Record ReportWindowReference := mkReportWindowReference {
  rw_StartsAt : Z;
  rw_EndsAt : Z;
  rw_AsOf : Z;
  rw_Coverage : CoverageState;
  rw_BaselineVersion : string;
  rw_SourceVersions : list string
}.

Record ReportScopeCounts := mkReportScopeCounts {
  rsc_IncludedTrajectories : Z;
  rsc_ExcludedTrajectories : option Z;
  rsc_IncludedTurns : Z;
  rsc_ExcludedTurns : option Z;
  rsc_IncludedToolCalls : Z;
  rsc_ExcludedToolCalls : option Z;
  rsc_IncludedEvidence : Z;
  rsc_ExcludedEvidence : option Z
}.

Record ReportSourceFacts := mkReportSourceFacts {
  rs_SourceKind : string;
  rs_Version : string;
  rs_Freshness : string;
  rs_Coverage : CoverageState;
  rs_RedactionState : string;
  rs_KnowledgeState : string
}.

Record ReportMetricFacts := mkReportMetricFacts {
  rm_Name : string;
  rm_DisplayLabel : string;
  rm_Polarity : string
}.

Record ReportOutlierFacts := mkReportOutlierFacts {
  ro_Metric : string;
  ro_Scope : AuditScope;
  ro_Impact : string;
  ro_Coverage : CoverageState;
  ro_EvidenceWindow : ReportWindowReference;
  ro_RecommendationCode : string
}.

Record ReportRecommendationFacts := mkReportRecommendationFacts {
  rr_Code : string;
  rr_ViolatedContract : string;
  rr_Scope : AuditScope;
  rr_EvidenceConfidence : string;
  rr_ExpectedQualityImpact : string;
  rr_BroaderChangeRationale : string
}.

Record ReportProvenanceFact := mkReportProvenanceFact {
  rp_Field : string;
  rp_KnowledgeState : string;
  rp_Provenance : string
}.

Record GovernanceReportFacts := mkGovernanceReportFacts {
  rf_Version : string;
  rf_DisplayIdentity : string;
  rf_PrivacySuppressed : bool;
  rf_PreviousWindow : option ReportWindowReference;
  rf_RollingWindows : list ReportWindowReference;
  rf_ScopeCounts : ReportScopeCounts;
  rf_Sources : list ReportSourceFacts;
  rf_Metrics : list ReportMetricFacts;
  rf_QualityGateState : string;
  rf_Outliers : list ReportOutlierFacts;
  rf_Recommendations : list ReportRecommendationFacts;
  rf_Provenance : list ReportProvenanceFact
}.

Record AuditProjectResult := mkAuditProjectResult {
  apr_SchemaVersion : string;
  apr_Kind : string;
  apr_AuditReference : string;
  apr_Scope : AuditScope;
  apr_AsOf : Z;
  apr_RevisionHash : string;
  apr_Coverage : CoverageState;
  apr_Metrics : list MetricResult;
  apr_Findings : list AuditFinding;
  apr_Recommendations : list AuditRecommendation;
  apr_GovernanceOverhead : list MetricResult;
  apr_Window : AuditWindowProvenance;
  apr_Contributions : list ScopeContribution;
  apr_WorkloadEffects : list WorkloadDecomposition;
  apr_InvocationCounts : InvocationCounts;
  apr_Outliers : list NativeOutlier;
  apr_Confounders : list ConfounderStratum;
  apr_Guardrails : list GuardrailResult;
  apr_DerivationMethod : string;
  apr_OmittedCount : Z;
  apr_ReportFacts : option GovernanceReportFacts
}.

Record RenderGovernanceReportRequest := mkRenderGovernanceReportRequest {
  rgq_SchemaVersion : string;
  rgq_Kind : string;
  rgq_AuditReference : string;
  rgq_RevisionHash : string;
  rgq_Format : ReportFormat
}.

Record ReportSectionOmission := mkReportSectionOmission {
  rso_Section : string;
  rso_Count : Z
}.

Record RenderGovernanceReportResult := mkRenderGovernanceReportResult {
  rgr_SchemaVersion : string;
  rgr_Kind : string;
  rgr_Format : ReportFormat;
  rgr_Rendered : string;
  rgr_Coverage : CoverageState;
  rgr_ProvenanceLabels : list ProvenanceLabel;
  rgr_RevisionHash : string;
  rgr_FallbackReason : string;
  rgr_OmittedCount : Z;
  rgr_SectionOmissions : list ReportSectionOmission
}.

Record StableError := mkStableError {
  se_SchemaVersion : string;
  se_Code : ErrorCode;
  se_Message : string;
  se_FieldPath : option string;
  se_Retryable : bool;
  se_EvidenceRefs : list string
}.

(** [NewError]. *)
Definition NewError (code : ErrorCode) (message field : string) (retryable : bool)
    : StableError :=
  {| se_SchemaVersion := SchemaVersion; se_Code := code; se_Message := message;
     se_FieldPath := if bool_decide (field = "") then None else Some field;
     se_Retryable := retryable; se_EvidenceRefs := [] |}.

(** The [invalid] helper each validating package declares for itself. *)
Definition invalid (message field : string) : StableError :=
  NewError ErrorCodeInvalidSchema message field false.

#[export] Instance StableError_eq_dec : EqDecision StableError.
Proof. solve_decision. Defined.
#[export] Instance Diagnostic_eq_dec : EqDecision Diagnostic.
Proof. solve_decision. Defined.
#[export] Instance float64_eq_dec : EqDecision float64.
Proof. solve_decision. Defined.
#[export] Instance BoundaryDecision_eq_dec : EqDecision BoundaryDecision.
Proof. solve_decision. Defined.

(** ** The comparison of string constants in handlers *)
Definition str_eqb (a b : string) : bool := bool_decide (a = b).

Lemma str_eqb_eq a b : str_eqb a b = true <-> a = b.
Proof. apply bool_decide_eq_true. Qed.

Lemma str_eqb_neq a b : str_eqb a b = false <-> a <> b.
Proof. apply bool_decide_eq_false. Qed.

Lemma str_eqb_refl a : str_eqb a a = true.
Proof. by apply str_eqb_eq. Qed.

Lemma str_eqb_sym a b : str_eqb a b = str_eqb b a.
Proof. apply eq_true_iff_eq. rewrite !str_eqb_eq. naive_solver. Qed.

Lemma str_eqb_same {A} (f : A -> string) a b :
  str_eqb (f a) (f b) = true <-> str_lt (f a) (f b) = false /\ str_lt (f b) (f a) = false.
Proof.
  rewrite str_eqb_eq. split; [intros ->; by rewrite str_lt_irrefl|].
  intros [H1 H2]. by apply str_lt_antisym.
Qed.

(** [value == c1 || value == c2 || ...], also written as a [switch] in Go. *)
Definition one_of (value : string) (allowed : list string) : bool := contains allowed value.

Infix "=s" := str_eqb (at level 70) : go_scope.

(** Turn string comparisons into equalities and propagate them. *)
Ltac str_facts :=
  repeat (bool_facts; match goal with
  | H : str_eqb _ _ = true |- _ => apply str_eqb_eq in H
  | H : str_eqb _ _ = false |- _ => apply str_eqb_neq in H
  end).

(** Refute equations and disequations between constants. *)
Ltac str_absurd :=
  match goal with
  | H : ?a <> ?b |- _ => exfalso; apply H; reflexivity
  | H : ?a = ?b :> string |- _ => discriminate H
  | _ => reflexivity
  end.

(** Decide a goal made of equations and disequations between constants. *)
Ltac const_goal :=
  first [ reflexivity | discriminate | split; const_goal
        | left; const_goal | right; const_goal ].

(** One level of a lexicographic comparison that is false in both directions:
    the keys agree, and the next level is false in both directions. *)
Ltac lex_tie H1 H2 :=
  match type of H1 with
  | (if negb (?x =? ?y)%Z then _ else _) = false =>
      rewrite (Z.eqb_sym y x) in H2;
      let E := fresh "Htie" in
      destruct (x =? y)%Z eqn:E; cbn [negb] in H1, H2; bool_facts; [|exfalso; lia]
  | (if negb (str_eqb ?x ?y) then _ else _) = false =>
      rewrite (str_eqb_sym y x) in H2;
      let E := fresh "Htie" in
      destruct (str_eqb x y) eqn:E; cbn [negb] in H1, H2; str_facts;
      [|exfalso; apply E; by apply str_lt_antisym]
  end.
