(* ===== verification/Policy.v ===== *)
(** * Execution policy (internal/policy/policy.go) *)
From S2P Require Import Contracts.

Abbreviation HostPermission := string (only parsing).
Definition HostPermitted : HostPermission := "permitted".
Definition HostDenied : HostPermission := "denied".
Definition HostUnknown : HostPermission := "unknown".

Definition phases : list string :=
  ["research"; "design"; "implementation"; "review"; "external_coordination"].

Definition validPhase (value : string) : bool := one_of value phases.

Definition ValidExecutionPolicy (value : ExecutionPolicy) : bool :=
  one_of value [ExecutionPolicyImproveOnly; ExecutionPolicyAskBeforeExecute;
                ExecutionPolicyFollowUserIntent].

Definition ValidHostPermission (value : HostPermission) : bool :=
  one_of value [HostPermitted; HostDenied; HostUnknown].

Definition Resolve (executionPolicy : ExecutionPolicy) (phase : string)
    (host : HostPermission) : result StableError PolicyOutcome :=
  if negb (ValidExecutionPolicy executionPolicy) then
    Err (invalid "unknown execution policy" "execution_policy")
  else if negb (ValidHostPermission host) then
    Err (invalid "unknown host permission" "host_permission")
  else if negb (validPhase phase) then
    Err (invalid "unknown phase" "phase")
  else
    let execute := (phase =s "implementation") || (phase =s "external_coordination") in
    if negb execute || (executionPolicy =s ExecutionPolicyImproveOnly) then
      Ok PolicyOutcomeReturnOnly
    else if host =s HostDenied then Ok PolicyOutcomeDenied
    else if phase =s "external_coordination" then Ok PolicyOutcomeApprovalRequired
    else if (host =s HostUnknown) || (executionPolicy =s ExecutionPolicyAskBeforeExecute)
    then Ok PolicyOutcomeApprovalRequired
    else if (executionPolicy =s ExecutionPolicyFollowUserIntent) && (host =s HostPermitted)
    then Ok PolicyOutcomeExecutionRecommended
    else Err (NewError ErrorCodeInternal "policy resolution failed" "execution_policy" false).

(** ** Case analysis on validated values *)

Lemma valid_policy_cases p :
  ValidExecutionPolicy p = true <->
  p = ExecutionPolicyImproveOnly \/ p = ExecutionPolicyAskBeforeExecute \/
  p = ExecutionPolicyFollowUserIntent.
Proof.
  unfold ValidExecutionPolicy, one_of. rewrite contains_spec.
  rewrite !elem_of_cons, elem_of_nil. tauto.
Qed.

Lemma valid_host_cases h :
  ValidHostPermission h = true <-> h = HostPermitted \/ h = HostDenied \/ h = HostUnknown.
Proof.
  unfold ValidHostPermission, one_of. rewrite contains_spec.
  rewrite !elem_of_cons, elem_of_nil. tauto.
Qed.

Lemma valid_phase_cases p :
  validPhase p = true <->
  p = "research" \/ p = "design" \/ p = "implementation" \/ p = "review" \/
  p = "external_coordination".
Proof.
  unfold validPhase, one_of, phases. rewrite contains_spec.
  rewrite !elem_of_cons, elem_of_nil. tauto.
Qed.

(** A valid request is one of the 45 combinations of constants. *)
Ltac policy_cases :=
  repeat match goal with
  | H : ValidExecutionPolicy _ = true |- _ =>
      apply valid_policy_cases in H as [->|[->| ->]]
  | H : ValidHostPermission _ = true |- _ => apply valid_host_cases in H as [->|[->| ->]]
  | H : validPhase _ = true |- _ =>
      apply valid_phase_cases in H as [->|[->|[->|[->| ->]]]]
  end.

(** The truth table of docs/contracts/architecture-v1.md as a specification. *)
Inductive policy_spec (p : ExecutionPolicy) (phase : string) (h : HostPermission)
    : PolicyOutcome -> Prop :=
  | spec_not_executing :
      phase <> "implementation" -> phase <> "external_coordination" ->
      policy_spec p phase h PolicyOutcomeReturnOnly
  | spec_improve_only :
      p = ExecutionPolicyImproveOnly -> policy_spec p phase h PolicyOutcomeReturnOnly
  | spec_host_denied :
      (phase = "implementation" \/ phase = "external_coordination") ->
      p <> ExecutionPolicyImproveOnly -> h = HostDenied ->
      policy_spec p phase h PolicyOutcomeDenied
  | spec_external :
      phase = "external_coordination" -> p <> ExecutionPolicyImproveOnly ->
      h <> HostDenied -> policy_spec p phase h PolicyOutcomeApprovalRequired
  | spec_ask :
      phase = "implementation" -> p <> ExecutionPolicyImproveOnly -> h <> HostDenied ->
      (h = HostUnknown \/ p = ExecutionPolicyAskBeforeExecute) ->
      policy_spec p phase h PolicyOutcomeApprovalRequired
  | spec_execute :
      phase = "implementation" -> p = ExecutionPolicyFollowUserIntent ->
      h = HostPermitted -> policy_spec p phase h PolicyOutcomeExecutionRecommended.

(** C20: [Resolve] implements the permission and execution truth table: it
    returns an outcome exactly when the policy, the host state and the phase are
    declared constants, that outcome is the one the table prescribes, and every
    rejection is an [invalid_schema] error (the final [internal_error] branch is
    unreachable). *)
Theorem Resolve_refines_truth_table (p : ExecutionPolicy) (phase : string) (h : HostPermission) :
  match Resolve p phase h with
  | Ok o =>
      ValidExecutionPolicy p = true /\ ValidHostPermission h = true /\
      validPhase phase = true /\ policy_spec p phase h o /\
      (forall o', policy_spec p phase h o' -> o' = o)
  | Err e =>
      (ValidExecutionPolicy p && ValidHostPermission h && validPhase phase) = false /\
      se_Code e = ErrorCodeInvalidSchema
  end.
Proof.
  destruct (ValidExecutionPolicy p) eqn:Ep; [|unfold Resolve; by rewrite Ep].
  destruct (ValidHostPermission h) eqn:Eh; [|unfold Resolve; by rewrite Ep, Eh].
  destruct (validPhase phase) eqn:Ef; [|unfold Resolve; by rewrite Ep, Eh, Ef].
  policy_cases;
    (split; [done|split; [done|split; [done|split]]]);
    try (solve [intros o' []; destruct_or?; str_absurd]);
    first [ apply spec_execute; solve [const_goal] | apply spec_not_executing; solve [const_goal]
          | apply spec_improve_only; solve [const_goal] | apply spec_host_denied; solve [const_goal]
          | apply spec_external; solve [const_goal] | apply spec_ask; solve [const_goal] ].
Qed.

(** Execution is recommended in exactly one situation: the user follows
    intent, the phase is implementation and the host has permitted it.  In
    particular no policy overrides a denied or unknown host permission. *)
Theorem Resolve_recommends_iff (p : ExecutionPolicy) (phase : string) (h : HostPermission) :
  Resolve p phase h = Ok PolicyOutcomeExecutionRecommended <->
  p = ExecutionPolicyFollowUserIntent /\ phase = "implementation" /\ h = HostPermitted.
Proof.
  split; [|by intros (-> & -> & ->)].
  unfold Resolve. intros H.
  repeat case_hyp H; try discriminate H. bool_cases; str_facts; try done.
Qed.
