(* ===== verification/Decision.v ===== *)
(** * Risk-weighted boundary decisions (internal/boundary/decision.go) *)
From S2P Require Import Contracts Policy.

Abbreviation ActionClass := string (only parsing).
Definition ActionReadOnly : ActionClass := "read_only".
Definition ActionLocalReversible : ActionClass := "local_reversible".
Definition ActionLocalMutation : ActionClass := "local_mutation".
Definition ActionExternalWrite : ActionClass := "external_write".
Definition ActionCostly : ActionClass := "costly".
Definition ActionPermissionSensitive : ActionClass := "permission_sensitive".
Definition ActionScopeExpanding : ActionClass := "scope_expanding".
Definition ActionDestructive : ActionClass := "destructive".

Abbreviation Outcome := string (only parsing).
Definition OutcomeContinue : Outcome := "continue".
Definition OutcomeWarn : Outcome := "warn".
Definition OutcomeClarify : Outcome := "clarify".
Definition OutcomeBlock : Outcome := "block".

Abbreviation RiskLevel := string (only parsing).
Definition RiskLow : RiskLevel := "low".
Definition RiskMedium : RiskLevel := "medium".
Definition RiskHigh : RiskLevel := "high".
Definition RiskCritical : RiskLevel := "critical".

Record DecisionInput := mkDecisionInput {
  di_Action : ActionClass;
  di_ExecutionPolicy : ExecutionPolicy;
  di_DelegationPolicy : string;
  di_HostPermission : HostPermission;
  di_CapabilityKnown : bool;
  di_ExplicitIntent : bool;
  di_InScope : bool;
  di_Ambiguous : bool;
  di_Conflicted : bool;
  di_UnsafeLink : bool;
  di_Sensitive : bool;
  di_Unbounded : bool
}.

Record Decision := mkDecision {
  de_Outcome : Outcome;
  de_Risk : Z;
  de_RiskLevel : RiskLevel;
  de_PolicyOutcome : PolicyOutcome
}.

Definition actionRisk (action : ActionClass) : option Z :=
  if action =s ActionReadOnly then Some 10%Z
  else if action =s ActionLocalReversible then Some 25%Z
  else if action =s ActionLocalMutation then Some 40%Z
  else if action =s ActionExternalWrite then Some 60%Z
  else if action =s ActionCostly then Some 70%Z
  else if action =s ActionPermissionSensitive then Some 75%Z
  else if action =s ActionScopeExpanding then Some 80%Z
  else if action =s ActionDestructive then Some 90%Z
  else None.

Definition riskLevel (risk : Z) : RiskLevel :=
  if (risk <? 25)%Z then RiskLow
  else if (risk <? 50)%Z then RiskMedium
  else if (risk <? 75)%Z then RiskHigh
  else RiskCritical.

Definition requiresApproval (action : ActionClass) : bool :=
  (action =s ActionExternalWrite) || (action =s ActionCostly)
  || (action =s ActionDestructive) || (action =s ActionScopeExpanding).

Definition validDelegation (value : string) : bool :=
  (value =s "none") || (value =s "user_requested_only") || (value =s "bounded").

Definition mapOutcome (outcome : Outcome) (input : DecisionInput) : PolicyOutcome :=
  if outcome =s OutcomeBlock then PolicyOutcomeDenied
  else if outcome =s OutcomeClarify then PolicyOutcomeApprovalRequired
  else if (di_ExecutionPolicy input =s ExecutionPolicyFollowUserIntent)
          && di_ExplicitIntent input && di_InScope input
          && (di_HostPermission input =s HostPermitted)
  then PolicyOutcomeExecutionRecommended
  else PolicyOutcomeReturnOnly.

(** The risk accumulated before the [switch] of [Decide]. *)
Definition decisionRisk (base : Z) (input : DecisionInput) : Z :=
  let risk := base in
  let risk := if di_Ambiguous input then (risk + 10)%Z else risk in
  let risk := if di_Conflicted input then (risk + 20)%Z else risk in
  if (100 <? risk)%Z then 100%Z else risk.

(** The [switch] of [Decide], in the order of its cases. *)
Definition decisionOutcome (risk : Z) (input : DecisionInput) : Outcome :=
  if (di_HostPermission input =s HostDenied) || di_UnsafeLink input
     || di_Sensitive input || di_Unbounded input then OutcomeBlock
  else if di_Conflicted input && (50 <=? risk)%Z then OutcomeBlock
  else if negb (di_InScope input) then OutcomeBlock
  else if requiresApproval (di_Action input) then OutcomeClarify
  else if negb (di_CapabilityKnown input) && negb (di_Action input =s ActionReadOnly)
  then OutcomeClarify
  else if di_Ambiguous input && (25 <=? risk)%Z then OutcomeClarify
  else if di_Ambiguous input then OutcomeWarn
  else if (di_ExecutionPolicy input =s ExecutionPolicyAskBeforeExecute)
          && negb (di_Action input =s ActionReadOnly) then OutcomeClarify
  else if (di_ExecutionPolicy input =s ExecutionPolicyFollowUserIntent)
          && (negb (di_ExplicitIntent input) || negb (di_HostPermission input =s HostPermitted))
  then OutcomeClarify
  else OutcomeContinue.

Definition Decide (input : DecisionInput) : result StableError Decision :=
  match actionRisk (di_Action input) with
  | Some base =>
      if negb (ValidExecutionPolicy (di_ExecutionPolicy input))
         || negb (ValidHostPermission (di_HostPermission input))
         || negb (validDelegation (di_DelegationPolicy input))
      then Err (invalid "invalid boundary decision input" "boundary")
      else
        let risk := decisionRisk base input in
        let outcome := decisionOutcome risk input in
        Ok {| de_Outcome := outcome; de_Risk := risk; de_RiskLevel := riskLevel risk;
              de_PolicyOutcome := mapOutcome outcome input |}
  | None => Err (invalid "invalid boundary decision input" "boundary")
  end.

(** ** Lemmas *)

Lemma actionRisk_bounds a base :
  actionRisk a = Some base -> (10 <= base <= 90)%Z.
Proof. unfold actionRisk. intros H. repeat case_hyp H; naive_solver lia. Qed.

Lemma actionRisk_base a base :
  actionRisk a = Some base ->
  (a = ActionReadOnly -> base = 10%Z) /\ (a <> ActionReadOnly -> (25 <= base)%Z).
Proof.
  unfold actionRisk. intros H.
  repeat case_hyp H; simplify_eq; str_facts; subst; split; naive_solver lia.
Qed.

Lemma Decide_Ok input d :
  Decide input = Ok d ->
  exists base, actionRisk (di_Action input) = Some base /\
    ValidExecutionPolicy (di_ExecutionPolicy input) = true /\
    ValidHostPermission (di_HostPermission input) = true /\
    d = {| de_Outcome := decisionOutcome (decisionRisk base input) input;
           de_Risk := decisionRisk base input;
           de_RiskLevel := riskLevel (decisionRisk base input);
           de_PolicyOutcome :=
             mapOutcome (decisionOutcome (decisionRisk base input) input) input |}.
Proof.
  unfold Decide. intros H. repeat case_hyp H; try done.
  bool_facts. simplify_eq. eauto 6.
Qed.

(** The order of restrictiveness used by the engine. *)
Definition severity (outcome : Outcome) : Z :=
  if outcome =s OutcomeBlock then 4%Z else if outcome =s OutcomeClarify then 3%Z
  else if outcome =s OutcomeWarn then 2%Z else 1%Z.

Ltac unfold_outcome :=
  unfold decisionOutcome; repeat case_goal;
  bool_cases; str_facts; try done.

(** Input [j] carries at least the hazards of [i] and at most its assurances. *)
Record more_hazardous (i j : DecisionInput) : Prop := {
  mh_action : di_Action j = di_Action i;
  mh_policy : di_ExecutionPolicy j = di_ExecutionPolicy i;
  mh_host : di_HostPermission j = di_HostPermission i \/ di_HostPermission j = HostDenied;
  mh_capability : di_CapabilityKnown j = true -> di_CapabilityKnown i = true;
  mh_intent : di_ExplicitIntent j = true -> di_ExplicitIntent i = true;
  mh_scope : di_InScope j = true -> di_InScope i = true;
  mh_ambiguous : di_Ambiguous j = di_Ambiguous i;
  mh_conflicted : di_Conflicted i = true -> di_Conflicted j = true;
  mh_unsafe : di_UnsafeLink i = true -> di_UnsafeLink j = true;
  mh_sensitive : di_Sensitive i = true -> di_Sensitive j = true;
  mh_unbounded : di_Unbounded i = true -> di_Unbounded j = true
}.

Lemma decisionRisk_mono base i j :
  (0 <= base)%Z -> more_hazardous i j -> (decisionRisk base i <= decisionRisk base j)%Z.
Proof.
  intros Hb []. unfold decisionRisk. rewrite mh_ambiguous0.
  destruct (di_Conflicted i); [rewrite mh_conflicted0 by done|];
    destruct (di_Ambiguous i), (di_Conflicted j); repeat case_goal; bool_facts; lia.
Qed.

(** The three groups of cases of the [switch]. *)
Definition blocks (risk : Z) (i : DecisionInput) : bool :=
  (di_HostPermission i =s HostDenied) || di_UnsafeLink i || di_Sensitive i || di_Unbounded i
  || (di_Conflicted i && (50 <=? risk)%Z) || negb (di_InScope i).

Definition clarifies (risk : Z) (i : DecisionInput) : bool :=
  requiresApproval (di_Action i)
  || (negb (di_CapabilityKnown i) && negb (di_Action i =s ActionReadOnly))
  || (if di_Ambiguous i then (25 <=? risk)%Z
      else ((di_ExecutionPolicy i =s ExecutionPolicyAskBeforeExecute)
            && negb (di_Action i =s ActionReadOnly))
           || ((di_ExecutionPolicy i =s ExecutionPolicyFollowUserIntent)
               && (negb (di_ExplicitIntent i) || negb (di_HostPermission i =s HostPermitted)))).

Lemma decisionOutcome_groups risk i :
  decisionOutcome risk i =
    if blocks risk i then OutcomeBlock
    else if clarifies risk i then OutcomeClarify
    else if di_Ambiguous i then OutcomeWarn else OutcomeContinue.
Proof.
  unfold decisionOutcome, blocks, clarifies.
  destruct (di_HostPermission i =s HostDenied), (di_UnsafeLink i), (di_Sensitive i),
    (di_Unbounded i); cbn; try done.
  destruct (di_Conflicted i && (50 <=? risk)%Z), (di_InScope i); cbn; try done.
  destruct (requiresApproval (di_Action i)); cbn; [done|].
  destruct (negb (di_CapabilityKnown i) && negb (di_Action i =s ActionReadOnly)); cbn; [done|].
  destruct (di_Ambiguous i); cbn; [done|].
  by destruct (_ && negb (di_Action i =s ActionReadOnly)).
Qed.

Lemma blocks_mono r s i j :
  more_hazardous i j -> (r <= s)%Z -> blocks r i = true -> blocks s j = true.
Proof.
  intros [] Hrs. unfold blocks. intros H.
  destruct mh_host0 as [Hh|Hh]; [|by rewrite Hh].
  rewrite Hh. destruct (di_HostPermission i =s HostDenied); [done|].
  bool_cases;
    repeat match goal with
    | HH : ?x = true -> ?y = true, H : ?x = true |- _ => rewrite (HH H); clear HH
    end; rewrite ?orb_true_r; try done.
  - replace (50 <=? s)%Z with true by (symmetry; apply Z.leb_le; lia).
    by rewrite orb_true_r.
  - destruct (di_InScope j); [|by rewrite orb_true_r].
    rewrite mh_scope0 in * by done. done.
Qed.

Lemma clarifies_mono r s i j :
  more_hazardous i j -> (r <= s)%Z -> clarifies r i = true ->
  clarifies s j = true \/ di_HostPermission j = HostDenied.
Proof.
  intros [] Hrs. unfold clarifies. intros H.
  destruct mh_host0 as [Hh|Hh]; [left|by right].
  rewrite mh_action0, mh_policy0, mh_ambiguous0, Hh.
  destruct (requiresApproval (di_Action i)); [done|].
  destruct (di_CapabilityKnown j).
  - rewrite mh_capability0 in H by done. cbn in *.
    destruct (di_Ambiguous i); [bool_facts; apply Z.leb_le; lia|].
    destruct (_ && negb (di_Action i =s ActionReadOnly)); [done|]. cbn in *.
    destruct (di_ExecutionPolicy i =s ExecutionPolicyFollowUserIntent); [|done]. cbn in *.
    destruct (di_ExplicitIntent j); [|done]. by rewrite mh_intent0 in H by done.
  - destruct (di_Action i =s ActionReadOnly); [|done]. cbn in *.
    rewrite andb_false_r in H. cbn in H.
    destruct (di_Ambiguous i); [bool_facts; apply Z.leb_le; lia|].
    rewrite !andb_false_r in *. cbn in *.
    destruct (di_ExecutionPolicy i =s ExecutionPolicyFollowUserIntent); [|done]. cbn in *.
    destruct (di_ExplicitIntent j); [|done]. by rewrite mh_intent0 in H by done.
Qed.

(** C21: decisions fail closed.  Whenever [Decide] accepts its input, a denied
    host, an unsafe link, sensitive content, unbounded work, an action out of
    scope, or a conflict at risk 50 or more gives outcome [block] and policy
    outcome [denied]; and nothing else does. *)
Theorem Decide_denied_iff (input : DecisionInput) (d : Decision) :
  Decide input = Ok d ->
  (de_PolicyOutcome d = PolicyOutcomeDenied <->
   di_HostPermission input = HostDenied \/ di_UnsafeLink input = true \/
   di_Sensitive input = true \/ di_Unbounded input = true \/ di_InScope input = false \/
   (di_Conflicted input = true /\ (50 <= de_Risk d)%Z)) /\
  (de_PolicyOutcome d = PolicyOutcomeDenied <-> de_Outcome d = OutcomeBlock).
Proof.
  intros (base & _ & _ & _ & ->)%Decide_Ok. cbn.
  set (r := decisionRisk base input). rewrite decisionOutcome_groups.
  assert (blocks r input = true <->
    (di_HostPermission input = HostDenied \/ di_UnsafeLink input = true \/
     di_Sensitive input = true \/ di_Unbounded input = true \/ di_InScope input = false \/
     (di_Conflicted input = true /\ (50 <= r)%Z))) as <-.
  { unfold blocks. rewrite !orb_true_iff, andb_true_iff, negb_true_iff, str_eqb_eq, Z.leb_le.
    tauto. }
  destruct (blocks r input) eqn:E; [done|].
  destruct (clarifies r input); [done|]. unfold mapOutcome.
  destruct (di_Ambiguous input), (_ && (_ =s HostPermitted)); cbn;
    split; split; intros; discriminate.
Qed.

(** Severity of the outcome groups. *)
Lemma severity_outcome r i :
  severity (decisionOutcome r i) =
    if blocks r i then 4%Z else if clarifies r i then 3%Z
    else if di_Ambiguous i then 2%Z else 1%Z.
Proof. rewrite decisionOutcome_groups. by repeat case_goal. Qed.

(** More hazard never means a weaker answer.  If [j] differs from [i] only by
    additional hazards (conflict, unsafe link, sensitive, unbounded, host denial)
    or missing assurances (capability, explicit intent, scope), the risk does not
    drop and the outcome is at least as restrictive. *)
Theorem Decide_monotone (i j : DecisionInput) (di dj : Decision) :
  more_hazardous i j -> Decide i = Ok di -> Decide j = Ok dj ->
  (de_Risk di <= de_Risk dj)%Z /\ (severity (de_Outcome di) <= severity (de_Outcome dj))%Z.
Proof.
  intros Hm (bi & Hbi & _ & _ & ->)%Decide_Ok (bj & Hbj & _ & _ & ->)%Decide_Ok. cbn.
  rewrite (mh_action _ _ Hm) in Hbj. simplify_eq.
  assert (decisionRisk bi i <= decisionRisk bi j)%Z as Hr.
  { apply decisionRisk_mono; [|done]. apply actionRisk_bounds in Hbi. lia. }
  split; [done|]. rewrite !severity_outcome, (mh_ambiguous _ _ Hm).
  destruct (blocks (decisionRisk bi i) i) eqn:B.
  { by rewrite (blocks_mono _ _ _ _ Hm Hr B). }
  destruct (clarifies (decisionRisk bi i) i) eqn:C; [|repeat case_goal; lia].
  destruct (clarifies_mono _ _ _ _ Hm Hr C) as [->|H].
  - repeat case_goal; lia.
  - unfold blocks. rewrite H, str_eqb_refl. cbn. lia.
Qed.

(** What it takes for a boundary decision to recommend execution: the caller
    follows an explicit, in-scope user intent, the host has permitted it, no
    hazard is present, the action class is not one that always needs approval,
    the capability is known (or the action only reads), and any ambiguity stays
    below risk 25.  The conditions are also sufficient. *)
Theorem Decide_recommends_iff (input : DecisionInput) (d : Decision) :
  Decide input = Ok d ->
  (de_PolicyOutcome d = PolicyOutcomeExecutionRecommended <->
   di_ExecutionPolicy input = ExecutionPolicyFollowUserIntent /\
   di_ExplicitIntent input = true /\ di_InScope input = true /\
   di_HostPermission input = HostPermitted /\
   di_UnsafeLink input = false /\ di_Sensitive input = false /\
   di_Unbounded input = false /\
   (di_Conflicted input = true -> (de_Risk d < 50)%Z) /\
   requiresApproval (di_Action input) = false /\
   (di_CapabilityKnown input = true \/ di_Action input = ActionReadOnly) /\
   (di_Ambiguous input = true -> (de_Risk d < 25)%Z)).
Proof.
  intros (base & _ & _ & _ & ->)%Decide_Ok. cbn.
  set (r := decisionRisk base input). rewrite decisionOutcome_groups. split.
  - intros H. destruct (blocks r input) eqn:B; [done|].
    destruct (clarifies r input) eqn:C; [done|].
    unfold mapOutcome in H. destruct (di_Ambiguous input) eqn:A; cbn in H;
      repeat case_hyp H; try discriminate H; unfold blocks, clarifies in *; rewrite A in *;
      bool_cases; str_facts; split_and!; try done; try (intros; lia); auto; intros; congruence.
  - intros (Hp & Hi & Hs & Hh & Hu & Hse & Hub & Hc & Ha & Hk & Ham).
    assert (blocks r input = false) as ->.
    { unfold blocks. rewrite Hh, Hu, Hse, Hub, Hs. cbn. rewrite orb_false_r.
      destruct (di_Conflicted input); [|done]. apply Z.leb_gt, Hc. done. }
    assert (clarifies r input = false) as ->.
    { unfold clarifies. rewrite Ha, Hp, Hi, Hh. cbn.
      destruct Hk as [->| ->]; cbn; rewrite ?andb_false_r; cbn;
        (destruct (di_Ambiguous input); [apply Z.leb_gt, Ham; done|done]). }
    unfold mapOutcome. rewrite Hp, Hi, Hs, Hh. by destruct (di_Ambiguous input).
Qed.

(** ** Witnesses *)

Definition sample_input : DecisionInput :=
  {| di_Action := ActionLocalMutation;
     di_ExecutionPolicy := ExecutionPolicyFollowUserIntent;
     di_DelegationPolicy := "none"; di_HostPermission := HostPermitted;
     di_CapabilityKnown := true; di_ExplicitIntent := true; di_InScope := true;
     di_Ambiguous := false; di_Conflicted := false; di_UnsafeLink := false;
     di_Sensitive := false; di_Unbounded := false |}.

Definition conflicted_input : DecisionInput :=
  {| di_Action := ActionLocalMutation;
     di_ExecutionPolicy := ExecutionPolicyFollowUserIntent;
     di_DelegationPolicy := "none"; di_HostPermission := HostPermitted;
     di_CapabilityKnown := true; di_ExplicitIntent := true; di_InScope := true;
     di_Ambiguous := false; di_Conflicted := true; di_UnsafeLink := false;
     di_Sensitive := false; di_Unbounded := false |}.

Definition sample_decision : Decision :=
  {| de_Outcome := OutcomeContinue; de_Risk := 40; de_RiskLevel := RiskMedium;
     de_PolicyOutcome := PolicyOutcomeExecutionRecommended |}.

Definition conflicted_decision : Decision :=
  {| de_Outcome := OutcomeBlock; de_Risk := 60; de_RiskLevel := RiskHigh;
     de_PolicyOutcome := PolicyOutcomeDenied |}.

Lemma Decide_denied_iff_witness :
  Decide conflicted_input = Ok conflicted_decision /\
  de_Outcome conflicted_decision = OutcomeBlock.
Proof.
  split; [reflexivity|].
  apply (Decide_denied_iff conflicted_input conflicted_decision); reflexivity.
Defined.

Lemma sample_more_hazardous : more_hazardous sample_input conflicted_input.
Proof. split; cbn; auto. Qed.

Lemma Decide_monotone_witness :
  (de_Risk sample_decision <= de_Risk conflicted_decision)%Z /\
  (severity (de_Outcome sample_decision) <= severity (de_Outcome conflicted_decision))%Z.
Proof.
  apply (Decide_monotone sample_input conflicted_input);
    [exact sample_more_hazardous | reflexivity | reflexivity].
Defined.

Lemma Decide_recommends_iff_witness :
  di_HostPermission sample_input = HostPermitted.
Proof.
  apply (Decide_recommends_iff sample_input sample_decision); reflexivity.
Defined.
