(* ===== verification/PolicyPack.v ===== *)
(** * Policy packs (internal/policypack/policypack.go)

    The typed representation of a pack, its validation and the evaluation of its
    rules against a map of facts.  [Parse] is not modelled beyond its size guard:
    it is encoding/json. *)
From S2P Require Import Contracts.

Definition MaxPackBytes : Z := (64 * 1024)%Z.
Definition MaxPacks : Z := 16%Z.
Definition MaxRules : Z := 256%Z.
Definition MaxConditions : Z := 16%Z.

Record Condition := mkCondition {
  co_Field : string;
  co_Operator : string;
  co_Value : string
}.

Record Rule := mkRule {
  ru_ID : string;
  ru_Category : string;
  ru_Outcome : string;
  ru_RiskScore : Z;
  ru_Explanation : string;
  ru_Conditions : list Condition
}.

Record Pack := mkPack {
  pk_SchemaVersion : string;
  pk_ID : string;
  pk_Version : string;
  pk_Rules : list Rule
}.

Record Match := mkMatch {
  ma_PackID : string;
  ma_PackVersion : string;
  ma_Rule : Rule
}.

#[export] Instance Condition_eq_dec : EqDecision Condition.
Proof. solve_decision. Defined.
#[export] Instance Rule_eq_dec : EqDecision Rule.
Proof. solve_decision. Defined.
#[export] Instance Pack_eq_dec : EqDecision Pack.
Proof. solve_decision. Defined.
#[export] Instance Match_eq_dec : EqDecision Match.
Proof. solve_decision. Defined.

Definition categories : list string :=
  ["repository"; "worktree"; "instruction"; "scope"; "non_goal"; "generated"; "vendor";
   "validation"; "release"; "privacy"; "security"; "tool_routing"; "retrieval"; "ptc";
   "autonomy"; "fallback"; "stopping"; "delegation"].
Definition outcomes : list string := ["continue"; "warn"; "clarify"; "block"].
Definition fields : list string :=
  ["category"; "action_class"; "phase"; "source_kind"; "capability_state";
   "delegation_policy"; "ambiguous"; "conflicted"].
Definition operators : list string := ["equals"; "not_equals"; "prefix"; "present"].

(** [conditionValues[field]]; a missing key gives the nil slice. *)
Definition conditionValues (field : string) : list string :=
  if field =s "category" then categories
  else if field =s "action_class" then
    ["read_only"; "local_reversible"; "local_mutation"; "external_write"; "costly";
     "permission_sensitive"; "scope_expanding"; "destructive"]
  else if field =s "phase" then
    ["research"; "design"; "implementation"; "review"; "external_coordination"]
  else if field =s "source_kind" then
    ["host_permission"; "configuration"; "instruction"; "user_request";
     "repository_metadata"; "derived_default"]
  else if field =s "capability_state" then ["supported"; "unsupported"; "unknown"]
  else if field =s "delegation_policy" then ["none"; "user_requested_only"; "bounded"]
  else if field =s "ambiguous" then ["true"; "false"]
  else if field =s "conflicted" then ["true"; "false"]
  else [].

Definition identifier_rune (r : Z) : bool :=
  in_range 97 122 r || in_range 48 57 r || (r =? 95)%Z || (r =? 46)%Z || (r =? 45)%Z.

Definition validIdentifier (value : string) (limit : Z) : bool :=
  match value with
  | "" => false
  | String first rest =>
      if (limit <? str_len value)%Z || (byte first <? 97)%Z || (122 <? byte first)%Z then false
      else forallb identifier_rune (runes rest)
  end.

Definition validConditionValue (condition : Condition) : bool :=
  let values := conditionValues (co_Field condition) in
  if co_Operator condition =s "present" then co_Value condition =s ""
  else contains values (co_Value condition).

Fixpoint validateConditions (conditions : list Condition) (field : string)
    : option StableError :=
  match conditions with
  | [] => None
  | condition :: rest =>
      if negb (contains fields (co_Field condition))
         || negb (contains operators (co_Operator condition))
         || (128 <? str_len (co_Value condition))%Z
         || negb (validConditionValue condition)
      then Some (invalid "invalid policy condition" (field +:+ ".conditions"))
      else validateConditions rest field
  end.

Definition validateRule (rule : Rule) (field : string) : option StableError :=
  if negb (validIdentifier (ru_ID rule) 80) || negb (contains categories (ru_Category rule))
     || negb (contains outcomes (ru_Outcome rule)) then
    Some (invalid "invalid policy rule identity, category, or outcome" field)
  else if (ru_RiskScore rule <? 0)%Z || (100 <? ru_RiskScore rule)%Z
          || (str_len (ru_Explanation rule) =? 0)%Z
          || (300 <? str_len (ru_Explanation rule))%Z then
    Some (invalid "invalid policy rule risk or explanation" field)
  else if (Z.of_nat (length (ru_Conditions rule)) =? 0)%Z
          || (MaxConditions <? Z.of_nat (length (ru_Conditions rule)))%Z then
    Some (invalid "policy rule must contain 1 to 16 conditions" (field +:+ ".conditions"))
  else validateConditions (ru_Conditions rule) field.

Fixpoint validateRules (rules : list Rule) (index : Z) (seen : gset string)
    : option StableError :=
  match rules with
  | [] => None
  | rule :: rest =>
      let field := "policy_pack.rules." +:+ fmt_d index in
      first! validateRule rule field else
      if bool_decide (ru_ID rule ∈ seen) then
        Some (invalid "duplicate policy rule id" (field +:+ ".id"))
      else validateRules rest (index + 1) ({[ru_ID rule]} ∪ seen)
  end.

Definition Validate (pack : Pack) : option StableError :=
  if negb (pk_SchemaVersion pack =s SchemaVersion) || negb (pk_Version pack =s SchemaVersion)
  then Some (invalid "unsupported policy pack version" "policy_pack.version")
  else if negb (validIdentifier (pk_ID pack) 80) then
    Some (invalid "invalid policy pack id" "policy_pack.id")
  else if (Z.of_nat (length (pk_Rules pack)) =? 0)%Z
          || (MaxRules <? Z.of_nat (length (pk_Rules pack)))%Z then
    Some (invalid "policy pack must contain 1 to 256 rules" "policy_pack.rules")
  else validateRules (pk_Rules pack) 0 ∅.

Definition pack_key (pack : Pack) : string := pk_ID pack +:+ "@" +:+ pk_Version pack.

Fixpoint validatePacks (packs : list Pack) (seen : gset string) : option StableError :=
  match packs with
  | [] => None
  | pack :: rest =>
      first! Validate pack else
      if bool_decide (pack_key pack ∈ seen) then
        Some (invalid "duplicate policy pack" "policy_packs")
      else validatePacks rest ({[pack_key pack]} ∪ seen)
  end.

Definition ValidateSet (packs : list Pack) : option StableError :=
  if (MaxPacks <? Z.of_nat (length packs))%Z then
    Some (invalid "at most 16 policy packs are supported" "policy_packs")
  else validatePacks packs ∅.

(** External packs can only narrow behaviour. *)
Definition ValidateExtensions (packs : list Pack) : option StableError :=
  first! ValidateSet packs else
  if existsb (fun pack => existsb (fun rule => ru_Outcome rule =s "continue") (pk_Rules pack))
       packs
  then Some (invalid "extension policy rules cannot broaden behavior" "policy_packs")
  else None.

Definition matchesOne (condition : Condition) (facts : gmap string string) : bool :=
  match facts !! co_Field condition with
  | None => negb (one_of (co_Operator condition) ["equals"; "not_equals"; "prefix"; "present"])
  | Some value =>
      if co_Operator condition =s "equals" then value =s co_Value condition
      else if co_Operator condition =s "not_equals" then negb (value =s co_Value condition)
      else if co_Operator condition =s "prefix" then has_prefix (co_Value condition) value
      else true
  end.

Definition matchesAll (conditions : list Condition) (facts : gmap string string) : bool :=
  forallb (fun condition => matchesOne condition facts) conditions.

Definition match_less (a b : Match) : bool :=
  if ma_PackID a =s ma_PackID b then str_lt (ru_ID (ma_Rule a)) (ru_ID (ma_Rule b))
  else str_lt (ma_PackID a) (ma_PackID b).

Definition pack_matches (facts : gmap string string) (pack : Pack) : list Match :=
  (fun rule => mkMatch (pk_ID pack) (pk_Version pack) rule) <$>
    filter (fun rule => matchesAll (ru_Conditions rule) facts = true) (pk_Rules pack).

Definition Evaluate (packs : list Pack) (facts : gmap string string)
    : result StableError (list Match) :=
  check! ValidateSet packs in
  Ok (go_sort match_less (packs ≫= pack_matches facts)).

(** ** Well-formed packs *)

Record condition_wf (c : Condition) : Prop := {
  cw_field : co_Field c ∈ fields;
  cw_operator : co_Operator c ∈ operators;
  cw_length : (str_len (co_Value c) <= 128)%Z;
  cw_value : if co_Operator c =s "present" then co_Value c = ""
             else co_Value c ∈ conditionValues (co_Field c)
}.

Record rule_wf (r : Rule) : Prop := {
  rw_id : validIdentifier (ru_ID r) 80 = true;
  rw_category : ru_Category r ∈ categories;
  rw_outcome : ru_Outcome r ∈ outcomes;
  rw_risk : (0 <= ru_RiskScore r <= 100)%Z;
  rw_explanation : (1 <= str_len (ru_Explanation r) <= 300)%Z;
  rw_conditions : (1 <= Z.of_nat (length (ru_Conditions r)) <= MaxConditions)%Z;
  rw_each : Forall condition_wf (ru_Conditions r)
}.

Record pack_wf (p : Pack) : Prop := {
  pw_schema : pk_SchemaVersion p = SchemaVersion;
  pw_version : pk_Version p = SchemaVersion;
  pw_id : validIdentifier (pk_ID p) 80 = true;
  pw_rules : (1 <= Z.of_nat (length (pk_Rules p)) <= MaxRules)%Z;
  pw_each : Forall rule_wf (pk_Rules p);
  pw_unique : NoDup (ru_ID <$> pk_Rules p)
}.

Lemma validateConditions_None cs field :
  validateConditions cs field = None <-> Forall condition_wf cs.
Proof.
  induction cs as [|c cs IH]; cbn [validateConditions]; [by split|].
  rewrite Forall_cons, <- IH. case_goal; bool_cases.
  1-4: split; [done|]; intros [[Hf Ho Hl Hv] _]; exfalso.
  - apply contains_spec in Hf. congruence.
  - apply contains_spec in Ho. congruence.
  - lia.
  - unfold validConditionValue in *. destruct (co_Operator c =s "present").
    + rewrite Hv in *. done.
    + apply contains_spec in Hv. congruence.
  - rewrite !contains_spec in *. split; [|naive_solver].
    intros HN. split; [|done]. split; [done..|].
    unfold validConditionValue in *. destruct (co_Operator c =s "present"); str_facts; [done|].
    by apply contains_spec.
Qed.

Lemma validateRule_None r field : validateRule r field = None <-> rule_wf r.
Proof.
  unfold validateRule. split.
  - intros H. repeat case_hyp H; try done. bool_cases.
    rewrite validateConditions_None in H. rewrite !contains_spec in *.
    split; try done; try lia; unfold str_len in *; lia.
  - intros [Hi Hc Ho Hr He Hn Hcs]. rewrite Hi.
    apply contains_spec in Hc, Ho. rewrite Hc, Ho. cbn.
    rewrite (proj2 (validateConditions_None _ _) Hcs).
    repeat case_goal; bool_cases; try done; lia.
Qed.

Lemma validateRules_None rules i seen :
  validateRules rules i seen = None <->
  Forall rule_wf rules /\ NoDup (ru_ID <$> rules) /\
  (forall r, r ∈ rules -> ru_ID r ∉ seen).
Proof.
  revert i seen. induction rules as [|r rules IH]; intros i seen; cbn [validateRules].
  { split; [|done]. intros _. split_and!; [constructor|constructor|].
    by intros ? ?%not_elem_of_nil. }
  rewrite Forall_cons, fmap_cons, NoDup_cons.
  destruct (validateRule r _) eqn:E.
  - split; [done|]. intros ([Hr _] & _).
    eapply validateRule_None in Hr. rewrite Hr in E. done.
  - apply validateRule_None in E. case_bool_decide.
    + split; [done|]. intros (_ & _ & Hs). exfalso. by apply (Hs r); [left|].
    + rewrite IH. split.
      * intros (Hw & HN & Hs). split_and!; try done.
        -- intros (r' & Hid & Hin)%list_elem_of_fmap. apply Hs in Hin.
           rewrite elem_of_union, elem_of_singleton in Hin. intuition congruence.
        -- intros r' [->|Hin]%elem_of_cons; [done|]. apply Hs in Hin.
           rewrite elem_of_union in Hin. tauto.
      * intros ([_ Hw] & [Hni HN] & Hs). split_and!; try done.
        intros r' Hin. rewrite elem_of_union, elem_of_singleton. intros [Hid|Hid].
        -- apply Hni. rewrite <- Hid. by apply list_elem_of_fmap_2.
        -- by apply (Hs r'); [right|].
Qed.

(** [Validate] accepts exactly the well-formed packs. *)
Lemma Validate_None (p : Pack) : Validate p = None <-> pack_wf p.
Proof.
  unfold Validate. split.
  - intros H. repeat case_hyp H; try done. bool_cases. str_facts.
    apply validateRules_None in H as (Hw & HN & _). split; try done; lia.
  - intros [Hs Hv Hi Hn Hw HN]. rewrite Hs, Hv, Hi, str_eqb_refl. cbn.
    rewrite (proj2 (validateRules_None (pk_Rules p) 0 ∅)).
    + case_goal; [|done]. bool_cases; lia.
    + split_and!; [done|done|]. intros r _. apply not_elem_of_empty.
Qed.

Lemma pack_key_inj p q :
  pk_Version p = pk_Version q -> pack_key p = pack_key q -> pk_ID p = pk_ID q.
Proof.
  unfold pack_key. intros -> H. rewrite <- !str_app_assoc in H.
  by do 2 apply str_app_inj_r in H.
Qed.

(** ** Evaluation *)

Lemma validatePacks_None packs seen :
  validatePacks packs seen = None <->
  Forall pack_wf packs /\ NoDup (pack_key <$> packs) /\
  (forall p, p ∈ packs -> pack_key p ∉ seen).
Proof.
  revert seen. induction packs as [|p packs IH]; intros seen; cbn [validatePacks].
  { split; [|done]. intros _. split_and!; [constructor|constructor|].
    by intros ? ?%not_elem_of_nil. }
  rewrite Forall_cons, fmap_cons, NoDup_cons. destruct (Validate p) eqn:E.
  { split; [done|]. intros ([Hp _] & _). apply Validate_None in Hp. congruence. }
  apply Validate_None in E. case_bool_decide.
  { split; [done|]. intros (_ & _ & Hs). exfalso. by apply (Hs p); [left|]. }
  rewrite IH. split.
  - intros (Hw & HN & Hs). split_and!; try done.
    + intros (q & Hid & Hin)%list_elem_of_fmap. apply Hs in Hin.
      rewrite elem_of_union, elem_of_singleton in Hin. intuition congruence.
    + intros q [->|Hin]%elem_of_cons; [done|]. apply Hs in Hin.
      rewrite elem_of_union in Hin. tauto.
  - intros ([_ Hw] & [Hni HN] & Hs). split_and!; try done.
    intros q Hin. rewrite elem_of_union, elem_of_singleton. intros [Hid|Hid].
    + apply Hni. rewrite <- Hid. by apply list_elem_of_fmap_2.
    + by apply (Hs q); [right|].
Qed.

(** Well-formed packs all have the frozen version, so their keys are distinct
    exactly when their identifiers are. *)
Lemma pack_keys_NoDup packs :
  Forall pack_wf packs -> NoDup (pack_key <$> packs) <-> NoDup (pk_ID <$> packs).
Proof.
  induction 1 as [|p packs Hp Hw IH]; [by split; constructor|].
  rewrite !fmap_cons, !NoDup_cons, IH. f_equiv. rewrite !list_elem_of_fmap.
  apply not_iff_compat. rewrite Forall_forall in Hw. split; intros (q & Hid & Hin);
    exists q; (split; [|done]); apply Hw in Hin.
  - eapply pack_key_inj; [|done]. by rewrite (pw_version _ Hp), (pw_version _ Hin).
  - unfold pack_key. by rewrite Hid, (pw_version _ Hp), (pw_version _ Hin).
Qed.

Lemma ValidateSet_None packs :
  ValidateSet packs = None <->
  (Z.of_nat (length packs) <= MaxPacks)%Z /\ Forall pack_wf packs /\ NoDup (pk_ID <$> packs).
Proof.
  unfold ValidateSet. case_goal; bool_facts.
  { split; [done|]. intros [? _]. exfalso. unfold MaxPacks in *. lia. }
  rewrite validatePacks_None. split.
  - intros (Hw & HN & _). split_and!; try done. by apply pack_keys_NoDup.
  - intros (_ & Hw & HN). split_and!; [done|by apply pack_keys_NoDup|].
    intros p _. apply not_elem_of_empty.
Qed.

Lemma ValidateSet_wf packs :
  ValidateSet packs = None -> Forall pack_wf packs /\ NoDup (pk_ID <$> packs).
Proof. intros H. apply ValidateSet_None, H. Qed.

(** [ValidateSet] accepts a set of packs exactly when it has at most 16 packs of
    distinct identifiers, each well formed: the frozen schema version, a legal
    identifier, 1 to 256 rules with distinct identifiers, and every rule and
    condition within the declared vocabulary and bounds. *)
Theorem ValidateSet_iff_wf (packs : list Pack) :
  ValidateSet packs = None <->
  (Z.of_nat (length packs) <= 16)%Z /\ Forall pack_wf packs /\ NoDup (pk_ID <$> packs).
Proof. apply ValidateSet_None. Qed.

Lemma elem_of_pack_matches m facts p :
  m ∈ pack_matches facts p <->
  exists rule, rule ∈ pk_Rules p /\ matchesAll (ru_Conditions rule) facts = true /\
    m = mkMatch (pk_ID p) (pk_Version p) rule.
Proof.
  unfold pack_matches. rewrite list_elem_of_fmap. setoid_rewrite list_elem_of_filter.
  naive_solver.
Qed.

#[export] Instance match_less_strict_weak : StrictWeak match_less.
Proof.
  apply strict_weak_lex.
  - intros a b. rewrite str_eqb_eq. split; [intros ->; by rewrite str_lt_irrefl|].
    intros [H1 H2]. by apply str_lt_antisym.
  - apply strict_weak_on, _.
  - apply (strict_weak_on (fun m => ru_ID (ma_Rule m))), _.
Qed.

Lemma match_tie a b :
  not_after match_less a b -> not_after match_less b a ->
  ma_PackID a = ma_PackID b /\ ru_ID (ma_Rule a) = ru_ID (ma_Rule b).
Proof.
  unfold not_after, match_less. destruct (ma_PackID a =s ma_PackID b) eqn:E.
  - str_facts. rewrite E, str_eqb_refl. intros H1 H2. split; [done|].
    by apply str_lt_antisym.
  - str_facts. rewrite (proj2 (str_eqb_neq _ _)) by congruence.
    intros H1 H2. exfalso. apply E. by apply str_lt_antisym.
Qed.

(** Within a validated set the key (pack, rule) identifies a match. *)
Lemma matches_keyed packs facts a b :
  Forall pack_wf packs -> NoDup (pk_ID <$> packs) ->
  a ∈ packs ≫= pack_matches facts -> b ∈ packs ≫= pack_matches facts ->
  ma_PackID a = ma_PackID b -> ru_ID (ma_Rule a) = ru_ID (ma_Rule b) -> a = b.
Proof.
  intros Hw HN (p & Ha & Hp)%list_elem_of_bind (q & Hb & Hq)%list_elem_of_bind Hid Hr.
  apply elem_of_pack_matches in Ha as (ra & Hra & _ & ->).
  apply elem_of_pack_matches in Hb as (rb & Hrb & _ & ->). cbn in *.
  assert (p = q) as -> by (by eapply NoDup_fmap_inj_elem).
  f_equal. rewrite Forall_forall in Hw. apply Hw in Hq.
  by eapply NoDup_fmap_inj_elem; [apply Hq|..].
Qed.

(** [Evaluate] returns exactly the rules whose conditions all hold, each with
    its pack's identity, ordered by pack and rule identifier; and the result does
    not depend on the order in which the packs are passed. *)
Theorem Evaluate_exact (packs : list Pack) (facts : gmap string string) (ms : list Match) :
  Evaluate packs facts = Ok ms ->
  (forall m, m ∈ ms <->
     exists p rule, p ∈ packs /\ rule ∈ pk_Rules p /\
       matchesAll (ru_Conditions rule) facts = true /\
       m = mkMatch (pk_ID p) (pk_Version p) rule) /\
  StronglySorted (not_after match_less) ms /\
  (forall packs' ms', packs' ≡ₚ packs -> Evaluate packs' facts = Ok ms' -> ms' = ms).
Proof.
  unfold Evaluate. intros H. case_hyp H; [done|]. simplify_eq.
  apply ValidateSet_wf in E as [Hw HN]. split_and!.
  - intros m. rewrite elem_of_go_sort, list_elem_of_bind.
    setoid_rewrite elem_of_pack_matches. naive_solver.
  - apply go_sort_sorted, _.
  - intros packs' ms' HP H'. case_hyp H'; [done|]. simplify_eq.
    apply go_sort_perm_eq; [apply _| |by rewrite HP].
    intros a b Ha Hb H1 H2. destruct (match_tie _ _ H1 H2) as [Hid Hr].
    apply ValidateSet_wf in E as [Hw' HN']. by eapply matches_keyed.
Qed.

(** A set of extension packs accepted by [ValidateExtensions] can always be
    evaluated, and no rule it contributes, whatever the facts, has the outcome
    "continue": extensions only warn, clarify or block. *)
Theorem extensions_only_narrow (packs : list Pack) (facts : gmap string string) :
  ValidateExtensions packs = None ->
  exists ms, Evaluate packs facts = Ok ms /\
    Forall (fun m => ru_Outcome (ma_Rule m) ∈ ["warn"; "clarify"; "block"]) ms.
Proof.
  unfold ValidateExtensions, Evaluate. intros H. case_hyp H; [done|].
  case_hyp H; [done|]. eexists. split; [done|]. apply Forall_forall. intros m.
  rewrite elem_of_go_sort, list_elem_of_bind.
  intros (p & (rule & Hr & _ & ->)%elem_of_pack_matches & Hp). cbn.
  apply ValidateSet_wf in E as [Hw _]. rewrite Forall_forall in Hw.
  pose proof (proj1 (Forall_forall _ _) (pw_each _ (Hw _ Hp)) _ Hr) as [_ _ Ho _ _ _ _].
  apply elem_of_cons in Ho as [Ho|Ho]; [exfalso|done].
  apply not_true_iff_false in E0. apply E0, existsb_spec, Exists_exists.
  exists p. split; [done|]. apply existsb_spec, Exists_exists. exists rule.
  split; [done|]. by apply str_eqb_eq.
Qed.

(** ** Witnesses *)

Definition sample_pack : Pack :=
  mkPack SchemaVersion "ext.release" SchemaVersion
    [mkRule "release.block" "release" "block" 90 "Releases are blocked."
       [mkCondition "category" "equals" "release"];
     mkRule "generated.warn" "generated" "warn" 20 "Generated files."
       [mkCondition "category" "equals" "generated"];
     mkRule "any.clarify" "scope" "clarify" 40 "Ambiguous scope."
       [mkCondition "ambiguous" "equals" "true"; mkCondition "category" "prefix" "release"]].
Definition sample_facts : gmap string string :=
  <["category" := "release"]> (<["ambiguous" := "true"]> ∅).

Definition sample_matches : list Match :=
  [mkMatch "ext.release" SchemaVersion
     (mkRule "any.clarify" "scope" "clarify" 40 "Ambiguous scope."
       [mkCondition "ambiguous" "equals" "true"; mkCondition "category" "prefix" "release"]);
   mkMatch "ext.release" SchemaVersion
     (mkRule "release.block" "release" "block" 90 "Releases are blocked."
       [mkCondition "category" "equals" "release"])].

Lemma Evaluate_exact_witness :
  Evaluate [sample_pack] sample_facts = Ok sample_matches /\
  StronglySorted (not_after match_less) sample_matches.
Proof.
  assert (Evaluate [sample_pack] sample_facts = Ok sample_matches) as H
    by (vm_compute; reflexivity).
  split; [exact H|]. exact (proj1 (proj2 (Evaluate_exact _ _ _ H))).
Defined.

Lemma extensions_only_narrow_witness :
  ValidateExtensions [sample_pack] = None /\
  exists ms, Evaluate [sample_pack] sample_facts = Ok ms /\
    Forall (fun m => ru_Outcome (ma_Rule m) ∈ ["warn"; "clarify"; "block"]) ms.
Proof.
  assert (ValidateExtensions [sample_pack] = None) as H by (vm_compute; reflexivity).
  split; [exact H|]. apply (extensions_only_narrow _ _ H).
Defined.
