(* ===== verification/Builtin.v ===== *)
(** * The embedded policy packs (policies/builtin)

    [Load] reads the seven embedded JSON files in a fixed order, decodes them and
    validates the set.  Decoding is encoding/json; the decoded packs are
    transcribed here file by file. *)
From S2P Require Import Contracts PolicyPack.

(** 01-repository-worktree.json *)
Definition pack_repository_worktree : Pack :=
  mkPack "1.0.0" "builtin.repository-worktree" "1.0.0"
    [mkRule "repository.detected" "repository" "continue" 10
       "Use sanitized repository metadata only."
       [mkCondition "category" "equals" "repository"];
     mkRule "worktree.detected" "worktree" "warn" 20
       "Keep worktree identity and targets private."
       [mkCondition "category" "equals" "worktree"]].

(** 02-instructions-scope-non-goals.json *)
Definition pack_instructions_scope_non_goals : Pack :=
  mkPack "1.0.0" "builtin.instructions-scope-non-goals" "1.0.0"
    [mkRule "instruction.applicable" "instruction" "continue" 10
       "Apply recognized instructions at their sanitized scope."
       [mkCondition "category" "equals" "instruction"];
     mkRule "scope.expansion" "scope" "clarify" 80
       "Scope expansion requires explicit approval."
       [mkCondition "action_class" "equals" "scope_expanding"];
     mkRule "non-goal.discovered" "non_goal" "warn" 20
       "Preserve the discovered non-goal without exposing its raw instruction text."
       [mkCondition "category" "equals" "non_goal"];
     mkRule "non-goal.enforced" "non_goal" "block" 80
       "A conflicting non-goal cannot be broadened by lower-authority evidence."
       [mkCondition "category" "equals" "non_goal"; mkCondition "conflicted" "equals" "true"]].

(** 03-generated-vendor.json *)
Definition pack_generated_vendor : Pack :=
  mkPack "1.0.0" "builtin.generated-vendor" "1.0.0"
    [mkRule "generated.protected" "generated" "clarify" 50
       "Generated areas require explicit inclusion."
       [mkCondition "category" "equals" "generated"];
     mkRule "vendor.protected" "vendor" "clarify" 50
       "Vendored areas require explicit inclusion."
       [mkCondition "category" "equals" "vendor"]].

(** 04-validation-release.json *)
Definition pack_validation_release : Pack :=
  mkPack "1.0.0" "builtin.validation-release" "1.0.0"
    [mkRule "validation.required" "validation" "continue" 25
       "Preserve applicable validation gates."
       [mkCondition "category" "equals" "validation"];
     mkRule "release.external" "release" "clarify" 70
       "Publishing a release requires explicit approval and closeout evidence."
       [mkCondition "category" "equals" "release"]].

(** 05-privacy-security.json *)
Definition pack_privacy_security : Pack :=
  mkPack "1.0.0" "builtin.privacy-security" "1.0.0"
    [mkRule "privacy.sensitive" "privacy" "block" 100
       "Sensitive content must not escape the discovery boundary."
       [mkCondition "category" "equals" "privacy"];
     mkRule "security.unsafe-link" "security" "block" 100
       "Unsafe links are not followed or trusted."
       [mkCondition "category" "equals" "security"];
     mkRule "security.permission" "security" "clarify" 75
       "Permission-sensitive behavior requires known host authority."
       [mkCondition "action_class" "equals" "permission_sensitive"]].

(** 06-tool-retrieval-ptc.json *)
Definition pack_tool_retrieval_ptc : Pack :=
  mkPack "1.0.0" "builtin.tool-retrieval-ptc" "1.0.0"
    [mkRule "tool.direct" "tool_routing" "continue" 10
       "Use a direct bounded tool when it fully covers the request."
       [mkCondition "category" "equals" "tool_routing"; mkCondition "capability_state" "equals" "supported"];
     mkRule "tool.unknown" "tool_routing" "clarify" 50
       "Unknown tool capability cannot be treated as supported."
       [mkCondition "category" "equals" "tool_routing"; mkCondition "capability_state" "equals" "unknown"];
     mkRule "tool.relevant-only" "tool_routing" "continue" 10
       "Expose only task-relevant tools with purpose, use conditions, typed returns, and errors stated."
       [mkCondition "category" "equals" "tool_routing"];
     mkRule "tool.order" "tool_routing" "continue" 10
       "Resolve prerequisite discovery, retrieval, and validation first; parallelize independent reads and sequence dependent actions."
       [mkCondition "category" "equals" "tool_routing"];
     mkRule "tool.synthesize" "tool_routing" "continue" 10
       "Synthesize bounded read results once before acting; do not repeat completed work or silently change routes."
       [mkCondition "category" "equals" "tool_routing"];
     mkRule "retrieval.bounded" "retrieval" "continue" 10
       "Retrieve only evidence needed for the current decision and cite its sanitized source."
       [mkCondition "category" "equals" "retrieval"];
     mkRule "retrieval.first-search" "retrieval" "continue" 10
       "For ordinary questions, begin with one broad search using short discriminative terms."
       [mkCondition "category" "equals" "retrieval"];
     mkRule "retrieval.expand-only" "retrieval" "continue" 10
       "Retrieve again only for a missing required fact, owner, date, identifier, source, unread artifact, exhaustive request, or unsupported material claim."
       [mkCondition "category" "equals" "retrieval"];
     mkRule "retrieval.citations" "retrieval" "continue" 10
       "Cite only retrieved evidence at supported claims; label inference, conflicts, missing evidence, and creative wording."
       [mkCondition "category" "equals" "retrieval"];
     mkRule "ptc.capability" "ptc" "clarify" 50
       "PTC routing requires an observed supported host capability."
       [mkCondition "category" "equals" "ptc"; mkCondition "capability_state" "not_equals" "supported"];
     mkRule "ptc.eligible" "ptc" "continue" 10
       "Use PTC only for bounded deterministic read-only transforms with exact schemas, evidence, concurrency, retry, stop, and one handoff limits."
       [mkCondition "category" "equals" "ptc"; mkCondition "capability_state" "equals" "supported"];
     mkRule "ptc.direct-exclusions" "ptc" "warn" 25
       "Keep one-call, small-output, judgment-changing, approval, citation, native-artifact, side-effecting, and final-validation work direct."
       [mkCondition "category" "equals" "ptc"]].

(** 07-autonomy-fallback-stopping-delegation.json *)
Definition pack_autonomy_fallback_stopping_delegation : Pack :=
  mkPack "1.0.0" "builtin.autonomy-fallback-stopping-delegation" "1.0.0"
    [mkRule "autonomy.in-scope" "autonomy" "continue" 25
       "Continue only while useful work remains within explicit authority."
       [mkCondition "category" "equals" "autonomy"];
     mkRule "autonomy.classify" "autonomy" "continue" 25
       "Resolve user intent and active phase, then classify the requested action before selecting the smallest authorized next step."
       [mkCondition "category" "equals" "autonomy"];
     mkRule "autonomy.approval" "autonomy" "clarify" 60
       "External, destructive, costly, purchase, permission-sensitive, or scope-expanding actions require applicable confirmation."
       [mkCondition "category" "equals" "autonomy"];
     mkRule "autonomy.layers" "autonomy" "continue" 25
       "Preserve research, design, implementation, review, and external-coordination boundaries; one phase never authorizes later phases."
       [mkCondition "category" "equals" "autonomy"];
     mkRule "fallback.bounded" "fallback" "warn" 25
       "Use a bounded fallback without repeating failed work."
       [mkCondition "category" "equals" "fallback"];
     mkRule "fallback.attempts" "fallback" "warn" 25
       "Try at most two meaningful fallbacks for empty, partial, or suspicious results unless a stricter bound applies."
       [mkCondition "category" "equals" "fallback"];
     mkRule "stopping.exhausted" "stopping" "block" 75
       "Stop when bounds, useful work, or authority are exhausted."
       [mkCondition "category" "equals" "stopping"];
     mkRule "stopping.supported" "stopping" "continue" 10
       "Stop when the core request is supported; correctness, evidence, calculations, citations, safety, and validation outrank fewer calls."
       [mkCondition "category" "equals" "stopping"];
     mkRule "stopping.checkpoint" "stopping" "warn" 25
       "Recommend a compact continuation only from observed repeated loops, large carried results, or a host-exposed approaching limit."
       [mkCondition "category" "equals" "stopping"];
     mkRule "stopping.context-efficiency" "stopping" "continue" 10
       "Use relevant tools, deduplicated retrieval, smallest sufficient results, and one synthesis without weakening required evidence or validation."
       [mkCondition "category" "equals" "stopping"];
     mkRule "delegation.none" "delegation" "continue" 10
       "Do not delegate."
       [mkCondition "delegation_policy" "equals" "none"];
     mkRule "delegation.user-requested" "delegation" "clarify" 50
       "Delegate only after an explicit user request and capability check."
       [mkCondition "delegation_policy" "equals" "user_requested_only"];
     mkRule "delegation.bounded" "delegation" "clarify" 50
       "Bounded delegation requires independent work, known capability, agent/depth/concurrency limits, aggregation, completion criteria, and stop limits."
       [mkCondition "delegation_policy" "equals" "bounded"];
     mkRule "delegation.no-recursion" "delegation" "block" 80
       "Recursive fanout is denied unless explicitly authorized; pass only minimal task-specific context."
       [mkCondition "delegation_policy" "equals" "bounded"]].

(** The decoded contents of [orderedFiles]. *)
Definition orderedFiles : list Pack :=
  [pack_repository_worktree;
   pack_instructions_scope_non_goals;
   pack_generated_vendor;
   pack_validation_release;
   pack_privacy_security;
   pack_tool_retrieval_ptc;
   pack_autonomy_fallback_stopping_delegation].

Definition Load : result StableError (list Pack) :=
  check! ValidateSet orderedFiles in Ok orderedFiles.

(** The built-in packs pass their own validation, so [Load] never fails. *)
Lemma ValidateSet_orderedFiles : ValidateSet orderedFiles = None.
Proof. vm_compute. reflexivity. Qed.

Lemma Load_ok : Load = Ok orderedFiles.
Proof. unfold Load. by rewrite ValidateSet_orderedFiles. Qed.

Lemma Evaluate_builtin facts :
  Evaluate orderedFiles facts =
    Ok (go_sort match_less (orderedFiles ≫= pack_matches facts)).
Proof. unfold Evaluate. by rewrite ValidateSet_orderedFiles. Qed.

(** Clients reason with the lemmas above; computation still unfolds the packs. *)
#[global] Opaque orderedFiles Load.
