(* ===== verification/BoundaryResolve.v ===== *)
(** * Ordering candidates and detecting conflict cycles (internal/boundary/resolve.go)

    [Resolve] orders the discovered candidates by authority, specificity and
    confidence, records which of them take part in a conflict, and looks for a
    cycle in the graph of conflict references. *)
From S2P Require Import Contracts.

(** discovery.go: type Candidate. *)
Record Candidate := mkCandidate {
  ca_ID : string;
  ca_Category : string;
  ca_SourceKind : string;
  ca_SourceRef : string;
  ca_Confidence : float64;
  ca_Specificity : Z;
  ca_Facts : gmap string string;
  ca_Conflicts : list string
}.

(** discovery.go: type Context. *)
Record Context := mkContext {
  cx_Candidates : list Candidate;
  cx_MetadataEntries : Z;
  cx_TargetedReads : Z
}.

Record Resolution := mkResolution {
  re_Candidates : list Candidate;
  re_Conflicted : gmap string bool;
  re_Cycle : list string
}.

Definition authority (source : string) : Z :=
  if source =s "host_permission" then 6%Z
  else if source =s "configuration" then 5%Z
  else if source =s "instruction" then 4%Z
  else if source =s "user_request" then 3%Z
  else if source =s "repository_metadata" then 2%Z
  else 1%Z.

(** The [less] closure of [Resolve]. *)
Definition precedes (left right : Candidate) : bool :=
  if negb (authority (ca_SourceKind left) =? authority (ca_SourceKind right))%Z then
    (authority (ca_SourceKind right) <? authority (ca_SourceKind left))%Z
  else if negb (ca_Specificity left =? ca_Specificity right)%Z then
    (ca_Specificity right <? ca_Specificity left)%Z
  else if negb (feq (ca_Confidence left) (ca_Confidence right)) then
    flt (ca_Confidence right) (ca_Confidence left)
  else str_lt (ca_ID left) (ca_ID right).

(** ** Depth-first search for a cycle *)

(** The variables [state], [position] and [stack] that the closure [visit] shares. *)
Record Search := mkSearch {
  se_state : gmap string Z;
  se_position : gmap string nat;
  se_stack : list string
}.

Abbreviation Graph := (gmap string (list string)) (only parsing).

(** [graph[node]]; a missing key gives the nil slice. *)
Definition successors (graph : Graph) (node : string) : list string :=
  default [] (graph !! node).

(** [for _, next := range nodes { if cycle := visit(next); len(cycle) > 0 { return cycle } }];
    [None] means that the fuel ran out. *)
Fixpoint visit_each (visit : string -> Search -> option (list string * Search))
    (nodes : list string) (s : Search) : option (list string * Search) :=
  match nodes with
  | [] => Some ([], s)
  | next :: rest =>
      match visit next s with
      | None => None
      | Some ([], s') => visit_each visit rest s'
      | Some (cycle, s') => Some (cycle, s')
      end
  end.

Definition pop_node (node : string) (s : Search) : Search :=
  {| se_state := <[node := 2%Z]> (se_state s);
     se_position := delete node (se_position s);
     se_stack := take (length (se_stack s) - 1) (se_stack s) |}.

Definition push_node (node : string) (s : Search) : Search :=
  {| se_state := <[node := 1%Z]> (se_state s);
     se_position := <[node := length (se_stack s)]> (se_position s);
     se_stack := se_stack s ++ [node] |}.

Definition in_graph (graph : Graph) (node : string) : bool := bool_decide (is_Some (graph !! node)).

Fixpoint visit (graph : Graph) (fuel : nat) (node : string) (s : Search)
    : option (list string * Search) :=
  match fuel with
  | O => None
  | S fuel' =>
      let state := default 0%Z (se_state s !! node) in
      if (state =? 1)%Z then
        let start := default 0%nat (se_position s !! node) in
        Some (drop start (se_stack s) ++ [node], s)
      else if (state =? 2)%Z then Some ([], s)
      else
        match visit_each (visit graph fuel')
                (List.filter (in_graph graph) (successors graph node)) (push_node node s) with
        | None => None
        | Some ([], s') => Some ([], pop_node node s')
        | Some (cycle, s') => Some (cycle, s')
        end
  end.

Definition start_search : Search := mkSearch ∅ ∅ [].

Definition graph_keys (graph : Graph) : list string :=
  sort_strings (elements (dom graph)).

(** Every nested call marks one more node of the graph, so the recursion is no
    deeper than the graph is large. *)
Definition firstCycle_fuel (graph : Graph) (fuel : nat) : option (list string) :=
  fst <$> visit_each (visit graph fuel) (graph_keys graph) start_search.

Definition firstCycle (graph : Graph) : list string :=
  default [] (firstCycle_fuel graph (S (size graph))).

(** ** Resolve *)

(** The loop that fills [graph]: a later candidate with the same identifier
    overwrites the references of an earlier one. *)
Definition conflict_graph (ordered : list Candidate) : Graph :=
  foldl (fun graph c => <[ca_ID c := sort_strings (ca_Conflicts c)]> graph) ∅ ordered.

Definition mark_conflicts (conflicted : gmap string bool) (c : Candidate) : gmap string bool :=
  let conflicted := match ca_Conflicts c with [] => conflicted | _ => <[ca_ID c := true]> conflicted end in
  foldl (fun m ref => <[ref := true]> m) conflicted (sort_strings (ca_Conflicts c)).

Definition Resolve (candidates : list Candidate) : Resolution :=
  let ordered := go_sort precedes candidates in
  {| re_Candidates := ordered;
     re_Conflicted := foldl mark_conflicts ∅ ordered;
     re_Cycle := firstCycle (conflict_graph ordered) |}.

(** ** Walks in the conflict graph *)

(** [b] is a reference of [a] and both are nodes. *)
Definition edge (graph : Graph) (a b : string) : Prop :=
  b ∈ successors graph a /\ is_Some (graph !! b).

Fixpoint walk (graph : Graph) (nodes : list string) : Prop :=
  match nodes with
  | a :: ((b :: _) as rest) => edge graph a b /\ walk graph rest
  | _ => True
  end.

(** A simple cycle, closed by repeating its first node. *)
Definition closed_walk (graph : Graph) (cycle : list string) : Prop :=
  exists n l, cycle = n :: l ++ [n] /\ walk graph cycle /\ NoDup (n :: l).

Lemma walk_cons graph a l : walk graph (a :: l) -> walk graph l.
Proof. destruct l; cbn; tauto. Qed.

Lemma walk_drop graph i l : walk graph l -> walk graph (drop i l).
Proof.
  revert l. induction i as [|i IH]; intros [|a l] H; try done.
  apply IH. by eapply walk_cons.
Qed.

Lemma walk_snoc graph l a b :
  walk graph (l ++ [a]) -> edge graph a b -> walk graph ((l ++ [a]) ++ [b]).
Proof.
  induction l as [|x l IH]; [cbn; tauto|]. intros Hw He.
  pose proof (walk_cons _ _ _ Hw) as Hl. specialize (IH Hl He).
  destruct l; cbn in *; tauto.
Qed.

Lemma walk_init graph l a : walk graph (l ++ [a]) -> walk graph l.
Proof.
  induction l as [|x l IH]; [done|]. intros Hw.
  pose proof (IH (walk_cons _ _ _ Hw)). destruct l; cbn in *; tauto.
Qed.

Lemma walk_tc graph n l m : walk graph (n :: l ++ [m]) -> tc (edge graph) n m.
Proof.
  revert n. induction l as [|x l IH]; intros n.
  - intros [H _]. by apply tc_once.
  - intros [H1 H2]. eapply tc_l; [done|]. by apply IH.
Qed.

Lemma closed_walk_tc graph c : closed_walk graph c -> exists n, tc (edge graph) n n.
Proof. intros (n & l & -> & H & _). exists n. by eapply walk_tc. Qed.

Lemma Acc_no_loop {A} (R : A -> A -> Prop) n : Acc (flip R) n -> ~ tc R n n.
Proof.
  induction 1 as [n _ IH]. intros Ht. pose proof Ht as Hloop.
  inversion Ht as [? ? Hn | ? y ? Hn Hy]; subst; eapply IH; eauto.
  by eapply tc_r.
Qed.

(** ** The invariant of the search *)

Definition mark (s : Search) (node : string) : Z := default 0%Z (se_state s !! node).

(** Nodes of the graph that have not been entered. *)
Definition white (graph : Graph) (s : Search) : gset string :=
  dom graph ∖ dom (se_state s).

Record search_inv (graph : Graph) (s : Search) : Prop := {
  si_walk : walk graph (se_stack s);
  si_nodup : NoDup (se_stack s);
  si_grey : forall n, mark s n = 1%Z <-> n ∈ se_stack s;
  si_marks : forall n z, se_state s !! n = Some z -> z = 1%Z \/ z = 2%Z;
  si_position : forall i n, se_stack s !! i = Some n -> se_position s !! n = Some i;
  si_black : forall n, mark s n = 2%Z -> Acc (flip (edge graph)) n
}.

(** What a completed call leaves behind. *)
Record search_grows (graph : Graph) (s s' : Search) : Prop := {
  sg_stack : se_stack s' = se_stack s;
  sg_black : forall n, mark s n = 2%Z -> mark s' n = 2%Z;
  sg_white : white graph s' ⊆ white graph s
}.

(** The node may be entered next: it extends the walk on the stack. *)
Definition enterable (graph : Graph) (s : Search) (node : string) : Prop :=
  is_Some (graph !! node) /\ walk graph (se_stack s ++ [node]).

Definition search_post (graph : Graph) (s : Search) (nodes : list string)
    (r : option (list string * Search)) : Prop :=
  match r with
  | None => False
  | Some ([], s') =>
      search_inv graph s' /\ search_grows graph s s' /\ forall n, n ∈ nodes -> mark s' n = 2%Z
  | Some (c, _) => closed_walk graph c
  end.

Lemma search_grows_refl graph s : search_grows graph s s.
Proof. by split. Qed.

Lemma search_grows_trans graph s1 s2 s3 :
  search_grows graph s1 s2 -> search_grows graph s2 s3 -> search_grows graph s1 s3.
Proof. intros [] []. split; [congruence|naive_solver|set_solver]. Qed.

Lemma mark_insert s n m z :
  mark {| se_state := <[n := z]> (se_state s); se_position := se_position s;
          se_stack := se_stack s |} m = if decide (n = m) then z else mark s m.
Proof. unfold mark. cbn. case_decide; subst; by rewrite ?lookup_insert_eq, ?lookup_insert_ne. Qed.

Lemma mark_push node s m : mark (push_node node s) m = if decide (node = m) then 1%Z else mark s m.
Proof. apply (mark_insert s). Qed.

Lemma mark_pop node s m : mark (pop_node node s) m = if decide (node = m) then 2%Z else mark s m.
Proof. apply (mark_insert s). Qed.

Lemma white_of_mark graph s n :
  search_inv graph s -> is_Some (graph !! n) -> mark s n <> 1%Z -> mark s n <> 2%Z ->
  n ∈ white graph s.
Proof.
  intros Hi Hg H1 H2. unfold white. rewrite elem_of_difference. split; [by apply elem_of_dom|].
  intros [z Hz]%elem_of_dom. destruct (si_marks _ _ Hi _ _ Hz); subst;
    unfold mark in *; rewrite Hz in *; done.
Qed.

Lemma white_push graph s n :
  n ∈ white graph s -> (size (white graph (push_node n s)) < size (white graph s))%nat.
Proof.
  intros Hn. apply subset_size. unfold white in *. cbn. rewrite dom_insert_L. set_solver.
Qed.

Lemma push_inv graph s n :
  search_inv graph s -> enterable graph s n -> mark s n <> 1%Z -> mark s n <> 2%Z ->
  search_inv graph (push_node n s).
Proof.
  intros Hi [Hg Hw] H1 H2. assert (n ∉ se_stack s) as Hn by (by rewrite <- si_grey).
  split; cbn.
  - done.
  - apply NoDup_app. split_and!; [apply Hi| |apply NoDup_singleton].
    intros x Hx. rewrite list_elem_of_singleton. by intros ->.
  - intros m. rewrite mark_push, elem_of_app, list_elem_of_singleton, <- (si_grey _ _ Hi).
    case_decide; subst; naive_solver.
  - intros m z. rewrite lookup_insert_Some. intros [[_ <-]|[_ Hz]]; [by left|].
    by eapply si_marks.
  - intros i m [Hm|[Hl Hm]]%lookup_app_Some.
    + assert (m ∈ se_stack s) by (by eapply list_elem_of_lookup_2).
      rewrite lookup_insert_ne by naive_solver. by eapply si_position.
    + destruct (i - length (se_stack s))%nat eqn:E; [|done]. simplify_eq/=.
      rewrite lookup_insert_eq. f_equal. lia.
  - intros m. rewrite mark_push. case_decide; [done|]. by apply Hi.
Qed.

Lemma pop_inv graph s n l :
  search_inv graph s -> se_stack s = l ++ [n] ->
  (forall m, edge graph n m -> mark s m = 2%Z) ->
  search_inv graph (pop_node n s) /\ se_stack (pop_node n s) = l.
Proof.
  intros Hi Hs Hsucc. pose proof (si_nodup _ _ Hi) as HN. rewrite Hs in HN.
  apply NoDup_app in HN as (HN & Hnl & _).
  assert (n ∉ l) as Hn by (intros ?; eapply Hnl; [done|by left]).
  assert (se_stack (pop_node n s) = l) as Hl.
  { cbn. rewrite Hs, length_app. cbn.
    replace (length l + 1 - 1)%nat with (length l) by lia. apply take_app_length. }
  split; [|done]. split; rewrite ?Hl.
  - pose proof (si_walk _ _ Hi) as Hw. rewrite Hs in Hw. by eapply walk_init.
  - done.
  - intros m. rewrite mark_pop. case_decide; [subst; naive_solver|].
    rewrite (si_grey _ _ Hi), Hs, elem_of_app, list_elem_of_singleton. naive_solver.
  - intros m z. cbn. rewrite lookup_insert_Some. intros [[_ <-]|[_ Hz]]; [by right|].
    by eapply si_marks.
  - intros i m Hm. cbn. assert (m ∈ l) by (by eapply list_elem_of_lookup_2).
    rewrite lookup_delete_ne by naive_solver. eapply si_position; [done|].
    rewrite Hs, lookup_app_l; [done|]. by eapply lookup_lt_Some.
  - intros m. rewrite mark_pop. case_decide; [subst|apply Hi].
    intros _. constructor. intros m2 Hm. eapply si_black; [done|]. by apply Hsucc.
Qed.

(** The back edge to a grey node closes a walk. *)
Lemma grey_cycle graph s n :
  search_inv graph s -> walk graph (se_stack s ++ [n]) -> mark s n = 1%Z ->
  closed_walk graph (drop (default 0%nat (se_position s !! n)) (se_stack s) ++ [n]).
Proof.
  intros Hi Hw Hm. apply (si_grey _ _ Hi) in Hm.
  apply list_elem_of_lookup in Hm as [i Hm].
  rewrite (si_position _ _ Hi _ _ Hm). cbn.
  pose proof (lookup_lt_Some _ _ _ Hm).
  exists n, (drop (S i) (se_stack s)).
  assert (drop i (se_stack s) = n :: drop (S i) (se_stack s)) as Hd by (by apply drop_S).
  split_and!.
  - by rewrite Hd.
  - apply (walk_drop _ i) in Hw. by rewrite drop_app_le in Hw by lia.
  - rewrite <- Hd. pose proof (si_nodup _ _ Hi) as HN.
    rewrite <- (take_drop i (se_stack s)) in HN. by apply NoDup_app in HN as (_ & _ & ?).
Qed.

Lemma visit_each_post graph (vis : string -> Search -> option (list string * Search)) bound nodes s :
  (forall n s', search_inv graph s' -> enterable graph s' n ->
     (size (white graph s') < bound)%nat -> search_post graph s' [n] (vis n s')) ->
  search_inv graph s -> (forall n, n ∈ nodes -> enterable graph s n) ->
  (size (white graph s) < bound)%nat ->
  search_post graph s nodes (visit_each vis nodes s).
Proof.
  intros Hvis. revert s. induction nodes as [|n nodes IH]; intros s Hi He Hb; cbn [visit_each].
  { split_and!; [done|apply search_grows_refl|]. by intros ? ?%not_elem_of_nil. }
  pose proof (Hvis n s Hi (He n ltac:(left)) Hb) as Hpost.
  destruct (vis n s) as [[[|x c] s']|]; [|exact Hpost..].
  destruct Hpost as (Hi' & Hg & Hm).
  pose proof (sg_white _ _ _ Hg) as Hw%subseteq_size.
  assert (forall m, m ∈ nodes -> enterable graph s' m) as He'.
  { intros m Hin. unfold enterable. rewrite (sg_stack _ _ _ Hg). apply He. by right. }
  specialize (IH s' Hi' He' ltac:(lia)).
  destruct (visit_each vis nodes s') as [[[|y c] s'']|]; [|exact IH..].
  destruct IH as (Hi'' & Hg' & Hm'). split_and!; [done|by eapply search_grows_trans|].
  intros m [->|Hin]%elem_of_cons; [|by apply Hm'].
  apply (sg_black _ _ _ Hg'), Hm. by left.
Qed.

Lemma visit_post graph fuel n s :
  search_inv graph s -> enterable graph s n -> (size (white graph s) < fuel)%nat ->
  search_post graph s [n] (visit graph fuel n s).
Proof.
  revert n s. induction fuel as [|fuel IH]; intros n s Hi He Hf; [lia|].
  cbn [visit]. fold (mark s n). case_goal; bool_facts.
  { cbn. pose proof (grey_cycle _ _ _ Hi (proj2 He) E) as Hc.
    destruct (drop _ _); [destruct Hc as (? & [|] & ? & _); naive_solver|done]. }
  case_goal; bool_facts.
  { split_and!; [done|apply search_grows_refl|]. by intros ? ->%list_elem_of_singleton. }
  pose proof (push_inv _ _ _ Hi He E E0) as Hi1.
  pose proof (white_of_mark _ _ _ Hi (proj1 He) E E0) as Hwn.
  pose proof (white_push _ _ _ Hwn) as Hlt.
  set (succs := List.filter _ _).
  assert (forall m, m ∈ succs <-> edge graph n m) as Hsucc.
  { intros m. unfold succs, edge. rewrite list_elem_of_In, List.filter_In, <- list_elem_of_In.
    unfold in_graph. by rewrite bool_decide_eq_true. }
  assert (forall m, m ∈ succs -> enterable graph (push_node n s) m) as He1.
  { intros m Hm%Hsucc. split; [apply Hm|]. cbn. apply walk_snoc; [apply He|done]. }
  pose proof (visit_each_post _ _ fuel succs _ IH Hi1 He1 ltac:(lia)) as Hpost.
  destruct (visit_each _ succs _) as [[[|x c] s']|]; [|exact Hpost..].
  destruct Hpost as (Hi' & Hg & Hm).
  destruct (pop_inv graph s' n (se_stack s)) as [Hi2 Hs2]; [done|apply Hg| |].
  { intros m He'. by apply Hm, Hsucc. }
  assert (search_grows graph s (pop_node n s')).
  { split; [done| |].
    - intros m Hm2. rewrite mark_pop. case_decide; [done|].
      apply (sg_black _ _ _ Hg). rewrite mark_push. by case_decide.
    - pose proof (sg_white _ _ _ Hg) as Hw. unfold white in *. cbn in *.
      rewrite dom_insert_L in *. set_solver. }
  split_and!; [done|done|]. intros ? ->%list_elem_of_singleton.
  rewrite mark_pop. by case_decide.
Qed.

Lemma elem_of_graph_keys graph n : n ∈ graph_keys graph <-> is_Some (graph !! n).
Proof.
  unfold graph_keys. rewrite sort_strings_perm, elem_of_elements. apply elem_of_dom.
Qed.

Lemma firstCycle_spec (graph : Graph) :
  firstCycle_fuel graph (S (size graph)) = Some (firstCycle graph) /\
  match firstCycle graph with
  | [] => forall n, ~ tc (edge graph) n n
  | cycle => closed_walk graph cycle
  end.
Proof.
  assert (search_inv graph start_search) as Hi.
  { split; cbn; try done; [constructor|]. intros n. by rewrite elem_of_nil. }
  assert (search_post graph start_search (graph_keys graph)
    (visit_each (visit graph (S (size graph))) (graph_keys graph) start_search)) as Hpost.
  { apply (visit_each_post _ _ (S (size graph))); [|done| |].
    - intros. by apply visit_post.
    - intros n Hn. split; [|done]. by apply elem_of_graph_keys.
    - unfold white. cbn. rewrite dom_empty_L, difference_empty_L.
      rewrite (size_dom graph). apply Nat.lt_succ_diag_r. }
  unfold firstCycle, firstCycle_fuel.
  destruct (visit_each _ _ _) as [[[|x c] s']|]; cbn in *; [| |done]; split; try done.
  destruct Hpost as (Hi' & _ & Hm). intros n Hloop. revert Hloop.
  apply Acc_no_loop. constructor. intros m [_ Hg]. apply (si_black _ _ Hi'), Hm.
  by apply elem_of_graph_keys.
Qed.

(** The search for a conflict cycle terminates within its fuel and is exact: an
    empty result means that no node reaches itself, any other result is a simple
    closed walk of the graph, written with its first node repeated at the end. *)
Theorem firstCycle_correct (graph : Graph) :
  firstCycle_fuel graph (S (size graph)) = Some (firstCycle graph) /\
  (firstCycle graph = [] <-> forall n, ~ tc (edge graph) n n) /\
  (firstCycle graph <> [] -> closed_walk graph (firstCycle graph)).
Proof.
  destruct (firstCycle_spec graph) as [Hf Hc]. split; [done|].
  destruct (firstCycle graph) as [|x c]; [by split|].
  split; [|done]. split; [done|]. intros Hn.
  apply closed_walk_tc in Hc as [n Hc]. by destruct (Hn n).
Qed.

(** ** The order of precedence *)

(** [precedes], with the comparison of confidences made total on NaN. *)
Definition confidence_less (left right : Candidate) : bool :=
  float_less (ca_Confidence right) (ca_Confidence left).

Definition precedes_total (left right : Candidate) : bool :=
  if (authority (ca_SourceKind left) =? authority (ca_SourceKind right))%Z then
    if (ca_Specificity left =? ca_Specificity right)%Z then
      if negb (confidence_less left right) && negb (confidence_less right left)
      then str_lt (ca_ID left) (ca_ID right)
      else confidence_less left right
    else (ca_Specificity right <? ca_Specificity left)%Z
  else (authority (ca_SourceKind right) <? authority (ca_SourceKind left))%Z.

#[export] Instance precedes_total_strict_weak : StrictWeak precedes_total.
Proof.
  apply strict_weak_lex.
  - intros a b. rewrite Z.eqb_eq, !Z.ltb_ge. lia.
  - apply (strict_weak_on (fun c => authority (ca_SourceKind c)) (fun a b => b <? a)%Z).
    apply strict_weak_flip, _.
  - apply strict_weak_lex.
    + intros a b. rewrite Z.eqb_eq, !Z.ltb_ge. lia.
    + apply (strict_weak_on ca_Specificity (fun a b => b <? a)%Z), strict_weak_flip, _.
    + apply strict_weak_lex.
      * intros a b. by rewrite andb_true_iff, !negb_true_iff.
      * apply (strict_weak_on ca_Confidence (fun a b => float_less b a)), strict_weak_flip, _.
      * apply (strict_weak_on ca_ID), _.
Qed.

Definition confident (c : Candidate) : Prop := is_nan (ca_Confidence c) = false.

Lemma precedes_agree a b : confident a -> confident b -> precedes a b = precedes_total a b.
Proof.
  intros Ha Hb. unfold precedes, precedes_total, confidence_less.
  rewrite !if_negb. do 2 (case_goal; [|done]).
  rewrite feq_float_less, flt_float_less by done. by rewrite andb_comm.
Qed.

Lemma Resolve_sorted_total candidates :
  Forall confident candidates ->
  go_sort precedes candidates = go_sort precedes_total candidates.
Proof.
  rewrite Forall_forall. intros Hc. apply go_sort_ext. intros.
  apply precedes_agree; by apply Hc.
Qed.

Lemma precedes_total_tie a b :
  not_after precedes_total a b -> not_after precedes_total b a -> ca_ID a = ca_ID b.
Proof.
  unfold not_after, precedes_total. intros H1 H2.
  rewrite (Z.eqb_sym (authority _)), (Z.eqb_sym (ca_Specificity _)) in H1.
  case_hyp H2; bool_facts; [|exfalso; lia].
  case_hyp H2; bool_facts; [|exfalso; lia].
  case_hyp H2; bool_facts.
  - rewrite H, H0 in H1. by apply str_lt_antisym.
  - rewrite H2 in *. cbn in *. rewrite andb_true_r in *.
    by destruct (confidence_less b a).
Qed.

(** ** Properties of [Resolve] *)

(** [c] takes part in a conflict under the identifier [id]. *)
Definition conflicts_as (c : Candidate) (id : string) : Prop :=
  (ca_ID c = id /\ ca_Conflicts c <> []) \/ id ∈ ca_Conflicts c.

(** The conflict references of the input, before any ordering. *)
Definition refers (candidates : list Candidate) (a b : string) : Prop :=
  (exists c, c ∈ candidates /\ ca_ID c = a /\ b ∈ ca_Conflicts c) /\
  b ∈ (ca_ID <$> candidates).

Lemma foldl_mark refs (m : gmap string bool) id :
  foldl (fun m ref => <[ref := true]> m) m refs !! id = Some true <->
  m !! id = Some true \/ id ∈ refs.
Proof.
  revert m. induction refs as [|r refs IH]; intros m; cbn.
  - rewrite elem_of_nil. tauto.
  - rewrite IH, elem_of_cons. destruct (decide (r = id)) as [->|Hne].
    + rewrite lookup_insert_eq. tauto.
    + rewrite lookup_insert_ne by done. naive_solver.
Qed.

Lemma mark_conflicts_spec m c id :
  mark_conflicts m c !! id = Some true <-> m !! id = Some true \/ conflicts_as c id.
Proof.
  unfold mark_conflicts, conflicts_as. rewrite foldl_mark, sort_strings_perm.
  destruct (ca_Conflicts c) as [|r refs]; [rewrite elem_of_nil; naive_solver|].
  rewrite lookup_insert_Some. destruct (decide (ca_ID c = id)); naive_solver.
Qed.

Lemma foldl_conflicts_spec l m id :
  foldl mark_conflicts m l !! id = Some true <->
  m !! id = Some true \/ exists c, c ∈ l /\ conflicts_as c id.
Proof.
  revert m. induction l as [|c l IH]; intros m; cbn.
  - setoid_rewrite elem_of_nil. naive_solver.
  - rewrite IH, mark_conflicts_spec. setoid_rewrite elem_of_cons. naive_solver.
Qed.

Lemma lookup_conflict_graph l id refs :
  NoDup (ca_ID <$> l) ->
  conflict_graph l !! id = Some refs <->
  exists c, c ∈ l /\ ca_ID c = id /\ refs = sort_strings (ca_Conflicts c).
Proof.
  unfold conflict_graph. induction l as [|c l IH] using rev_ind; intros HN.
  { cbn. rewrite lookup_empty. setoid_rewrite elem_of_nil. naive_solver. }
  rewrite fmap_app, NoDup_app in HN. destruct HN as (HN & Hd & _).
  rewrite foldl_app. cbn. setoid_rewrite elem_of_app. setoid_rewrite list_elem_of_singleton.
  rewrite lookup_insert_Some, IH by done. split; [naive_solver|].
  intros (c' & [Hc | ->] & <- & ->); [right|naive_solver]. split; [|eauto].
  intros E. apply (Hd (ca_ID c')); [by apply list_elem_of_fmap_2|]. rewrite <- E. by left.
Qed.

Lemma conflict_graph_edge l a b :
  NoDup (ca_ID <$> l) -> edge (conflict_graph l) a b <-> refers l a b.
Proof.
  intros HN. unfold edge, refers, successors. f_equiv.
  - split.
    + destruct (conflict_graph l !! a) eqn:E; cbn; [|by intros ?%elem_of_nil].
      apply lookup_conflict_graph in E as (c & Hc & Hid & ->); [|done].
      rewrite sort_strings_perm. eauto.
    + intros (c & Hc & Hid & Hb).
      assert (conflict_graph l !! a = Some (sort_strings (ca_Conflicts c))) as ->
        by (apply lookup_conflict_graph; eauto).
      cbn. by rewrite sort_strings_perm.
  - rewrite list_elem_of_fmap. split.
    + intros [refs (c & ? & ? & _)%lookup_conflict_graph]; eauto.
    + intros (c & -> & Hc). eexists. apply lookup_conflict_graph; eauto.
Qed.

Lemma refers_perm l1 l2 a b : l1 ≡ₚ l2 -> refers l1 a b -> refers l2 a b.
Proof. unfold refers. intros HP. by setoid_rewrite HP. Qed.

(** For distinct identifiers a cycle is reported exactly when some candidate
    reaches itself through conflict references. *)
Lemma Resolve_cycle candidates :
  NoDup (ca_ID <$> candidates) ->
  re_Cycle (Resolve candidates) <> [] <-> exists n, tc (refers candidates) n n.
Proof.
  intros HN. cbn [Resolve re_Cycle]. pose proof (go_sort_perm precedes candidates) as HP.
  assert (forall a b, edge (conflict_graph (go_sort precedes candidates)) a b <->
    refers candidates a b) as He.
  { intros a b. rewrite conflict_graph_edge by (by rewrite HP).
    split; apply refers_perm; [done|by symmetry]. }
  assert (forall a b, tc (edge (conflict_graph (go_sort precedes candidates))) a b <->
    tc (refers candidates) a b) as Htc.
  { intros a b. split; induction 1; [apply tc_once|eapply tc_l|apply tc_once|eapply tc_l];
      eauto; by apply He. }
  destruct (firstCycle_spec (conflict_graph (go_sort precedes candidates))) as [_ Hcyc].
  destruct (firstCycle _) as [|x c] eqn:E.
  + split; [done|]. intros [n Hn]. exfalso. by apply (Hcyc n), Htc.
  + split; [|done]. intros _. apply closed_walk_tc in Hcyc as [n Hn].
    exists n. by apply Htc.
Qed.

(** [Resolve] keeps every candidate, puts those of higher authority first, and
    marks as conflicted exactly the identifiers that declare or are named in a
    conflict; for distinct identifiers it reports a cycle exactly when some
    candidate reaches itself through conflict references. *)
Theorem Resolve_exact (candidates : list Candidate) :
  Forall confident candidates -> NoDup (ca_ID <$> candidates) ->
  re_Candidates (Resolve candidates) ≡ₚ candidates /\
  StronglySorted (fun a b => authority (ca_SourceKind b) <= authority (ca_SourceKind a))%Z
    (re_Candidates (Resolve candidates)) /\
  (forall id, re_Conflicted (Resolve candidates) !! id = Some true <->
     exists c, c ∈ candidates /\ conflicts_as c id) /\
  (re_Cycle (Resolve candidates) <> [] <-> exists n, tc (refers candidates) n n).
Proof.
  intros Hc HN. cbn [Resolve re_Candidates re_Conflicted re_Cycle].
  pose proof (go_sort_perm precedes candidates) as HP.
  split_and!; [done| | |].
  - rewrite Resolve_sorted_total by done.
    pose proof (go_sort_sorted precedes_total candidates) as HS.
    eapply StronglySorted_weaken; [|exact HS]. intros a b Hab.
    unfold not_after, precedes_total in Hab. case_hyp Hab; bool_facts; lia.
  - intros id. rewrite foldl_conflicts_spec, lookup_empty. setoid_rewrite HP. naive_solver.
  - by apply Resolve_cycle.
Qed.

(** The resolution does not depend on the order in which candidates with
    distinct identifiers were discovered. *)
Lemma Resolve_perm (candidates candidates' : list Candidate) :
  Forall confident candidates -> NoDup (ca_ID <$> candidates) ->
  candidates' ≡ₚ candidates -> Resolve candidates' = Resolve candidates.
Proof.
  intros Hc HN HP. unfold Resolve.
  assert (go_sort precedes candidates' = go_sort precedes candidates) as ->; [|done].
  rewrite !Resolve_sorted_total by (by rewrite ?HP).
  apply go_sort_perm_eq; [apply _| |done]. intros a b Ha Hb H1 H2.
  eapply (NoDup_fmap_inj_elem ca_ID candidates); [exact HN|by rewrite <- HP..|].
  by apply precedes_total_tie.
Qed.

(** ** Witnesses *)

Definition sample_candidates : list Candidate :=
  [mkCandidate "scope.0001" "scope" "user_request" "scope.0001" (float_of_Z 1) 1 ∅ ["non_goal.0001"];
   mkCandidate "non_goal.0001" "non_goal" "instruction" "non_goal.0001" (float_lit 9 10) 1 ∅
     ["scope.0001"];
   mkCandidate "repository.0001" "repository" "repository_metadata" "repository.0001"
     (float_of_Z 1) 0 ∅ []].

Lemma sample_candidates_ok :
  Forall confident sample_candidates /\ NoDup (ca_ID <$> sample_candidates).
Proof.
  split; [repeat constructor|]. apply (bool_decide_unpack _). vm_compute. exact I.
Qed.

(** The references of [sample_candidates] alone form a cycle. *)
Lemma firstCycle_correct_witness :
  let graph := conflict_graph sample_candidates in
  firstCycle graph <> [] /\ closed_walk graph (firstCycle graph).
Proof.
  cbv zeta. assert (firstCycle (conflict_graph sample_candidates) <> []) as H
    by (vm_compute; discriminate).
  split; [exact H|]. exact (proj2 (proj2 (firstCycle_correct _)) H).
Defined.

Lemma Resolve_exact_witness :
  re_Cycle (Resolve sample_candidates) = ["non_goal.0001"; "scope.0001"; "non_goal.0001"] /\
  exists n, tc (refers sample_candidates) n n.
Proof.
  split; [vm_compute; reflexivity|].
  apply (proj2 (proj2 (proj2
    (Resolve_exact sample_candidates (proj1 sample_candidates_ok) (proj2 sample_candidates_ok))))).
  vm_compute. discriminate.
Defined.
