(* ===== verification/GoHeap.v ===== *)
(** * Go's container/heap on a slice

    The operations [Push] and [Fix(h, 0)] the program uses, on the slice as a
    list, with the index arithmetic of the library; and the use the program makes
    of them: keeping the [n] best entries of a stream in a heap whose root is the
    worst entry kept. *)
From S2P Require Export Prelude.

Section Heap.
Context {A : Type} `{Inhabited A} (less : A -> A -> bool).

(** [h.Less(i, j)] and [h.Swap(i, j)]. *)
Definition less_at (l : list A) (i j : nat) : bool := less (l !!! i) (l !!! j).

Definition swap (l : list A) (i j : nat) : list A := <[i := l !!! j]> (<[j := l !!! i]> l).

(** [(j - 1) / 2], Go's division truncating towards zero. *)
Definition parent (j : nat) : nat := ((j - 1) / 2)%nat.

Fixpoint up (fuel : nat) (l : list A) (j : nat) : list A :=
  match fuel with
  | O => l
  | S f =>
      let i := parent j in
      if (i =? j)%nat || negb (less_at l j i) then l
      else up f (swap l i j) i
  end.

(** The child of [i] that [down] compares with it. *)
Definition least_child (l : list A) (i : nat) : nat :=
  let j1 := (2 * i + 1)%nat in
  let j2 := (j1 + 1)%nat in
  if (j2 <? length l)%nat && less_at l j2 j1 then j2 else j1.

Fixpoint down (fuel : nat) (l : list A) (i : nat) : list A :=
  match fuel with
  | O => l
  | S f =>
      if (length l <=? 2 * i + 1)%nat then l
      else
        let j := least_child l i in
        if negb (less_at l j i) then l
        else down f (swap l i j) j
  end.

(** [heap.Push(h, x)]. *)
Definition heap_push (l : list A) (x : A) : list A :=
  let l' := l ++ [x] in up (length l') l' (length l' - 1).

(** Storing [x] at the root, then [heap.Fix(h, 0)]: [down] cannot fail to restore the order at
    the root, and [up] from the root does nothing. *)
Definition heap_replace_root (l : list A) (x : A) : list A :=
  let l' := <[0%nat := x]> l in down (length l') l' 0.

(** ** The heap order *)

(** Entry [i] is not less than its parent. *)
Definition ordered_at (l : list A) (i : nat) : Prop := less_at l i (parent i) = false.

Definition heap_ordered (l : list A) : Prop :=
  forall i, (0 < i < length l)%nat -> ordered_at l i.

(** The order holds except between [j] and its parent. *)
Definition ordered_above (l : list A) (j : nat) : Prop :=
  (forall i, (0 < i < length l)%nat -> i <> j -> ordered_at l i) /\
  (forall i, (0 < i < length l)%nat -> parent i = j -> (0 < j)%nat ->
     less_at l i (parent j) = false).

(** The order holds except between [j] and its children. *)
Definition ordered_below (l : list A) (j : nat) : Prop :=
  (forall i, (0 < i < length l)%nat -> parent i <> j -> ordered_at l i) /\
  (forall i, (0 < i < length l)%nat -> parent i = j -> (0 < j)%nat ->
     less_at l i (parent j) = false).

Lemma parent_lt i : (0 < i)%nat -> (parent i < i)%nat.
Proof. unfold parent. intros. apply Nat.Div0.div_lt_upper_bound; lia. Qed.

Lemma parent_le i : (parent i <= i)%nat.
Proof. destruct i; [done|]. pose proof (parent_lt (S i)). lia. Qed.

Lemma parent_child i k : (0 < k)%nat -> parent k = i <-> k = (2 * i + 1)%nat \/ k = (2 * i + 2)%nat.
Proof.
  unfold parent. intros Hk. pose proof (Nat.div_mod_eq (k - 1) 2).
  pose proof (Nat.mod_upper_bound (k - 1) 2 ltac:(done)). lia.
Qed.

Lemma length_swap l i j : length (swap l i j) = length l.
Proof. unfold swap. by rewrite !length_insert. Qed.

Lemma lookup_swap l i j k :
  (i < length l)%nat -> (j < length l)%nat ->
  swap l i j !!! k = if decide (k = i) then l !!! j else if decide (k = j) then l !!! i else l !!! k.
Proof.
  intros Hi Hj. unfold swap. case_decide; subst.
  - apply list_lookup_total_insert_eq. by rewrite length_insert.
  - rewrite list_lookup_total_insert_ne by done. case_decide; subst.
    + by apply list_lookup_total_insert_eq.
    + by apply list_lookup_total_insert_ne.
Qed.

Lemma swap_perm l i j : (i < length l)%nat -> (j < length l)%nat -> swap l i j ≡ₚ l.
Proof.
  intros Hi Hj. unfold swap. apply Permutation_insert_swap; by apply list_lookup_lookup_total_lt.
Qed.

Lemma up_perm fuel l j : (j < length l)%nat -> up fuel l j ≡ₚ l.
Proof.
  revert l j. induction fuel as [|f IH]; intros l j Hj; cbn [up]; [done|].
  case_goal; [done|]. bool_facts.
  pose proof (parent_le j).
  rewrite IH by (rewrite length_swap; lia). apply swap_perm; lia.
Qed.

Lemma least_child_spec l i :
  (2 * i + 1 < length l)%nat ->
  let j := least_child l i in
  (i < j < length l)%nat /\ parent j = i.
Proof.
  intros Hi j. assert (j = 2 * i + 1 \/ j = 2 * i + 2 /\ 2 * i + 2 < length l)%nat as Hj.
  { subst j. unfold least_child. case_goal; bool_facts; [right|by left]. lia. }
  split; [lia|]. apply parent_child; lia.
Qed.

Lemma down_perm fuel l i : down fuel l i ≡ₚ l.
Proof.
  revert l i. induction fuel as [|f IH]; intros l i; cbn [down]; [done|].
  case_goal; [done|]. bool_facts. destruct (least_child_spec l i E) as [Hj _].
  case_goal; [done|]. rewrite IH. apply swap_perm; lia.
Qed.

Lemma heap_push_perm l x : heap_push l x ≡ₚ x :: l.
Proof.
  unfold heap_push. rewrite up_perm.
  - by rewrite Permutation_app_comm.
  - rewrite length_app. cbn. lia.
Qed.

Lemma heap_replace_root_perm r l x : heap_replace_root (r :: l) x ≡ₚ x :: l.
Proof. unfold heap_replace_root. by rewrite down_perm. Qed.

Context `{SW : !StrictWeak less}.

(** Comparisons in a swapped slice, with the equalities of indices decided. *)
Ltac swap_lookups :=
  unfold ordered_at, less_at in *;
  rewrite ?lookup_swap by lia; repeat case_decide; try lia; try congruence.

Lemma swap_up l j :
  (j < length l)%nat -> parent j <> j -> less_at l j (parent j) = true ->
  ordered_above l j -> ordered_above (swap l (parent j) j) (parent j).
Proof.
  intros Hj Hne Hless [H1 H2]. assert (0 < j)%nat by (destruct j; [done|lia]).
  pose proof (parent_lt j ltac:(lia)) as Hp.
  assert (forall i, (0 < i < length l)%nat -> parent i = parent j -> i <> j ->
    less_at l i j = false) as Hsib.
  { intros i Hi Hpi Hij. specialize (H1 i Hi Hij). unfold ordered_at, less_at in *.
    rewrite Hpi in H1. eapply sw_trans; [|exact H1]. by apply sw_asym. }
  split; intros i Hi; rewrite length_swap in Hi; pose proof (parent_lt i ltac:(lia)).
  - intros Hip. destruct (decide (i = j)) as [->|Hij].
    { swap_lookups. by apply sw_asym. }
    destruct (decide (parent i = parent j)) as [Hpi|Hpi].
    { pose proof (Hsib i Hi Hpi Hij). swap_lookups. }
    destruct (decide (parent i = j)) as [Hpj|Hpj].
    + pose proof (H2 i Hi Hpj ltac:(lia)). swap_lookups.
    + pose proof (H1 i Hi Hij). swap_lookups.
  - intros Hpi Hp0. pose proof (parent_lt (parent j) Hp0).
    pose proof (H1 (parent j) ltac:(lia) ltac:(lia)) as Hop.
    destruct (decide (i = j)) as [->|Hij]; [swap_lookups|].
    pose proof (H1 i Hi Hij) as Hoi. swap_lookups.
    eapply sw_trans; [exact Hop|]. by rewrite Hpi in Hoi.
Qed.

Lemma up_ordered fuel l j :
  (j < length l)%nat -> (j < fuel)%nat -> ordered_above l j -> heap_ordered (up fuel l j).
Proof.
  revert l j. induction fuel as [|f IH]; intros l j Hj Hf Ho; [lia|]. cbn [up].
  case_goal; bool_cases.
  - intros i Hi. apply Ho; [done|]. intros ->. pose proof (parent_lt j). lia.
  - intros i Hi. destruct (decide (i = j)) as [->|]; [done|]. by apply Ho.
  - assert (parent j < j)%nat by (pose proof (parent_le j); lia).
    apply IH; rewrite ?length_swap; try lia. by apply swap_up.
Qed.
Lemma least_child_min l i k :
  (0 < k < length l)%nat -> parent k = i -> less_at l k (least_child l i) = false.
Proof.
  intros Hk Hp%parent_child; [|lia]. unfold least_child.
  replace (2 * i + 1 + 1)%nat with (2 * i + 2)%nat by lia.
  case_goal; bool_cases; destruct Hp as [->| ->]; unfold less_at in *; try lia; try done.
  - by apply sw_asym.
  - by apply sw_irrefl.
  - by apply sw_irrefl.
  - by apply sw_irrefl.
Qed.

Lemma swap_down l i :
  (2 * i + 1 < length l)%nat ->
  let j := least_child l i in
  less_at l j i = true -> ordered_below l i -> ordered_below (swap l i j) j.
Proof.
  intros Hlen j Hless [H1 H2]. destruct (least_child_spec l i Hlen) as [Hj Hp].
  fold j in Hj, Hp.
  assert (forall k, (0 < k < length l)%nat -> parent k = i -> less_at l k j = false) as Hmin.
  { intros. by apply least_child_min. }
  split; intros k Hk; rewrite length_swap in Hk; pose proof (parent_lt k ltac:(lia)).
  - intros Hkj. destruct (decide (k = j)) as [->|Hk1].
    { swap_lookups. by apply sw_asym. }
    destruct (decide (parent k = i)) as [Hpi|Hpi].
    { pose proof (Hmin k Hk Hpi). swap_lookups. }
    destruct (decide (k = i)) as [->|Hki].
    + pose proof (H2 j ltac:(lia) Hp ltac:(lia)). swap_lookups.
    + pose proof (H1 k Hk Hpi). swap_lookups.
  - intros Hpk _. pose proof (H1 k Hk) as Hok. rewrite Hp.
    specialize (Hok ltac:(rewrite Hpk; lia)). unfold ordered_at in Hok. rewrite Hpk in Hok.
    swap_lookups.
Qed.

Lemma down_ordered fuel l i :
  (length l <= i + fuel)%nat -> ordered_below l i -> heap_ordered (down fuel l i).
Proof.
  revert l i. induction fuel as [|f IH]; intros l i Hf Ho; cbn [down].
  { intros k Hk. apply Ho; [done|]. intros Hp. pose proof (parent_lt k). lia. }
  case_goal; bool_facts.
  { intros k Hk. apply Ho; [done|]. intros Hp%parent_child; lia. }
  destruct (least_child_spec l i E) as [Hj Hp].
  case_goal; bool_facts.
  - intros k Hk. destruct (decide (parent k = i)) as [Hpk|Hpk]; [|by apply Ho].
    unfold ordered_at. rewrite Hpk. pose proof (least_child_min l i k Hk Hpk) as Hmin.
    unfold less_at in *. by eapply sw_trans.
  - apply IH; rewrite ?length_swap; [lia|]. by apply swap_down.
Qed.

(** ** The operations keep the heap order *)
Lemma heap_push_ordered l x : heap_ordered l -> heap_ordered (heap_push l x).
Proof.
  intros Ho. unfold heap_push. rewrite length_app. cbn [length].
  replace (length l + 1 - 1)%nat with (length l) by lia.
  apply up_ordered; rewrite ?length_app; cbn [length]; try lia.
  split; intros i; rewrite length_app; cbn [length]; intros Hi; pose proof (parent_lt i).
  - intros Hil. specialize (Ho i ltac:(lia)). unfold ordered_at, less_at in *.
    by rewrite !lookup_total_app_l by lia.
  - intros Hp. lia.
Qed.

Lemma heap_replace_root_ordered l x : heap_ordered l -> heap_ordered (heap_replace_root l x).
Proof.
  intros Ho. unfold heap_replace_root. apply down_ordered; [lia|].
  split; intros i; rewrite length_insert; intros Hi; pose proof (parent_lt i); [|lia].
  intros Hp. specialize (Ho i Hi). unfold ordered_at, less_at in *.
  by rewrite !list_lookup_total_insert_ne by lia.
Qed.

(** Nothing in the heap is less than its root. *)
Lemma heap_root_least r l y : heap_ordered (r :: l) -> y ∈ r :: l -> less y r = false.
Proof.
  intros Ho [i Hi]%list_elem_of_lookup_total. destruct Hi as [Hi <-].
  induction i as [i IH] using lt_wf_ind. destruct (decide (i = 0%nat)) as [->|Hne].
  { by apply sw_irrefl. }
  pose proof (parent_lt i ltac:(lia)) as Hp.
  eapply sw_trans; [apply (IH (parent i)); lia|]. by apply (Ho i); lia.
Qed.
End Heap.

(** ** Keeping the best entries of a stream *)
Section KeepBest.
Context {A : Type} `{Inhabited A} (better : A -> A -> bool) `{SW : !StrictWeak better}.
Context (n : nat) (n_pos : (0 < n)%nat).

(** The [Less] method of a heap whose root is the worst entry. *)
Definition worse (a b : A) : bool := better b a.

#[local] Instance worse_strict_weak : StrictWeak worse.
Proof. apply strict_weak_flip, _. Qed.

Definition keep_best (kept : list A) (x : A) : list A :=
  if (length kept <? n)%nat then heap_push worse kept x
  else if better x (kept !!! 0%nat) then heap_replace_root worse kept x
  else kept.

(** The heap holds [n] best entries of those seen, or all of them. *)
Definition best_kept (seen kept : list A) : Prop :=
  heap_ordered worse kept /\ (length kept <= n)%nat /\
  exists dropped, seen ≡ₚ kept ++ dropped /\ (dropped <> [] -> length kept = n) /\
    forall x y, x ∈ kept -> y ∈ dropped -> better y x = false.

Lemma keep_best_step seen kept x :
  best_kept seen kept -> best_kept (seen ++ [x]) (keep_best kept x).
Proof.
  intros (Ho & Hl & dropped & HP & Hfull & Hbest).
  assert (seen ++ [x] ≡ₚ x :: kept ++ dropped) as HP'
    by (by rewrite HP, (Permutation_app_comm _ [x])).
  unfold keep_best. case_goal; bool_facts.
  { assert (dropped = []) as -> by (destruct dropped; [done|]; specialize (Hfull ltac:(done)); lia).
    pose proof (heap_push_perm worse kept x) as Hpp.
    split_and!; [apply heap_push_ordered; [apply _|done]|by rewrite Hpp; cbn; lia|].
    exists []. split_and!; [|done|by intros ? ? _ ?%not_elem_of_nil].
    rewrite app_nil_r in *. by rewrite Hpp. }
  destruct kept as [|r kept]; [cbn in *; lia|].
  assert (forall y, y ∈ r :: kept -> better r y = false) as Hroot.
  { intros y Hy. by apply (heap_root_least worse r kept y Ho). }
  cbn [lookup_total list_lookup_total]. case_goal.
  - pose proof (heap_replace_root_perm worse r kept x) as Hpp.
    split_and!; [apply heap_replace_root_ordered; [apply _|done]|by rewrite Hpp|].
    exists (r :: dropped). split_and!.
    + rewrite HP', Hpp. cbn. f_equiv. apply Permutation_middle.
    + intros _. rewrite Hpp. cbn in *. lia.
    + intros y z. rewrite Hpp. intros [->|Hy]%elem_of_cons [->|Hz]%elem_of_cons.
      * by apply sw_asym.
      * eapply sw_trans; [by apply sw_asym|]. apply Hbest; [by left|done].
      * apply Hroot. by right.
      * apply Hbest; [by right|done].
  - split_and!; [done..|]. exists (x :: dropped). split_and!.
    + rewrite HP'. apply Permutation_middle.
    + intros _. lia.
    + intros y z Hy [->|Hz]%elem_of_cons; [|by apply Hbest].
      eapply sw_trans; [by apply Hroot|done].
Qed.

Lemma keep_best_all l : best_kept l (foldl keep_best [] l).
Proof.
  induction l as [|x l IH] using rev_ind.
  - split_and!; [intros i; cbn; lia|cbn; lia|]. exists [].
    split_and!; [done..|]. by intros ? ? ?%not_elem_of_nil.
  - rewrite foldl_app. cbn. by apply keep_best_step.
Qed.

(** The kept entries are the first [n] of all entries in order of preference. *)
Lemma keep_best_take l :
  (forall a b, a ∈ l -> b ∈ l -> not_after better a b -> not_after better b a -> a = b) ->
  foldl keep_best [] l ≡ₚ take n (go_sort better l).
Proof.
  intros Hties. destruct (keep_best_all l) as (_ & Hl & dropped & HP & Hfull & Hbest).
  set (kept := foldl keep_best [] l) in *.
  assert (go_sort better kept ++ go_sort better dropped = go_sort better l) as <-.
  { apply go_sort_unique; [apply _|done| |by rewrite !go_sort_perm, HP].
    apply StronglySorted_app_2; [|apply go_sort_sorted, _..].
    intros x y. rewrite !elem_of_go_sort. intros. by apply Hbest. }
  destruct dropped as [|d dropped].
  - rewrite app_nil_r. rewrite take_ge by (by rewrite length_go_sort).
    by rewrite go_sort_perm.
  - rewrite take_app_length' by (rewrite length_go_sort; by rewrite Hfull).
    by rewrite go_sort_perm.
Qed.
End KeepBest.
