(* ===== verification/GoPath.v ===== *)
(** * Go's package path

    [path.Clean], [Join], [Base], [Dir] and [IsAbs] on slash-separated paths, and
    what the program relies on: a cleaned relative path that does not start with
    ".." stays inside its root. *)
From S2P Require Export GoString.
From Stdlib Require Import Ascii.

Definition slash : ascii := "/"%char.

Definition is_abs (p : string) : bool := has_prefix "/" p.

(** One element of the path appended to the elements kept so far (in reverse):
    empty elements and "." are dropped, ".." removes the element before it, and at
    the start it is kept for a relative path and dropped for a rooted one. *)
Definition clean_step (rooted : bool) (kept : list string) (element : string) : list string :=
  if bool_decide (element = "") || bool_decide (element = ".") then kept
  else if bool_decide (element = "..") then
    match kept with
    | [] => if rooted then [] else [".."]
    | last :: before => if bool_decide (last = "..") then ".." :: kept else before
    end
  else element :: kept.

Definition clean_elements (rooted : bool) (p : string) : list string :=
  rev (foldl (clean_step rooted) [] (split_on slash p)).

(** [path.Clean]. *)
Definition path_clean (p : string) : string :=
  let joined := str_join "/" (clean_elements (is_abs p) p) in
  if is_abs p then "/" +:+ joined
  else if bool_decide (joined = "") then "." else joined.

(** [path.Join] of two elements. *)
Definition path_join (a b : string) : string :=
  if bool_decide (a = "") then (if bool_decide (b = "") then "" else path_clean b)
  else path_clean (a +:+ "/" +:+ b).

(** The last element of [split_on slash p] and the elements before it. *)
Definition split_last (p : string) : string * list string :=
  match rev (split_on slash p) with
  | [] => ("", [])
  | last :: before => (last, rev before)
  end.

(** [path.Base]. *)
Definition path_base (p : string) : string :=
  if bool_decide (p = "") then "."
  else
    let stripped := trim_right "/" p in
    if bool_decide (stripped = "") then "/" else fst (split_last stripped).

(** [path.Dir]: everything up to the last slash, cleaned. *)
Definition path_dir (p : string) : string :=
  let '(_, before) := split_last p in
  path_clean (match before with [] => "" | _ => str_join "/" before +:+ "/" end).

(** ** Splitting and joining *)

Abbreviation no_slash := (no_char slash) (only parsing).

(** ** Cleaned paths *)

(** Kept elements: proper names, on top of leading ".."s for a relative path. *)
Definition plain (element : string) : Prop :=
  element <> "" /\ element <> "." /\ element <> ".." /\ no_slash element.

Definition kept_ok (rooted : bool) (kept : list string) : Prop :=
  exists names ups, kept = names ++ replicate ups ".." /\ Forall plain names /\
    (rooted = true -> ups = 0%nat).

Lemma clean_step_ok rooted kept element :
  no_slash element -> kept_ok rooted kept -> kept_ok rooted (clean_step rooted kept element).
Proof.
  intros He (names & ups & -> & Hn & Hr). unfold clean_step.
  case_bool_decide; [by exists names, ups|]. case_bool_decide; [by exists names, ups|].
  cbn [orb]. case_bool_decide; subst.
  - destruct names as [|n names]; cbn [app].
    + destruct ups as [|ups]; cbn [replicate].
      * destruct rooted; [by exists [], 0%nat|by exists [], 1%nat].
      * case_bool_decide; [|done]. destruct rooted; [specialize (Hr eq_refl); lia|].
        by exists [], (S (S ups)).
    + apply Forall_cons in Hn as [(_ & _ & Hd & _) Hn]. case_bool_decide; [done|].
      by exists names, ups.
  - exists (element :: names), ups. split_and!; [done| |done]. by constructor.
Qed.

Lemma rev_replicate {A} n (x : A) : rev (replicate n x) = replicate n x.
Proof.
  induction n as [|n IH]; [done|]. cbn [replicate rev]. rewrite IH.
  by rewrite <- replicate_S_end.
Qed.

Lemma clean_elements_ok rooted p :
  exists names ups, clean_elements rooted p = replicate ups ".." ++ names /\
    Forall plain names /\ (rooted = true -> ups = 0%nat).
Proof.
  assert (forall l kept, Forall no_slash l -> kept_ok rooted kept ->
    kept_ok rooted (foldl (clean_step rooted) kept l)) as H.
  { induction l as [|e l IH]; intros kept Hl Hk; [done|]. apply Forall_cons in Hl as [He Hl].
    apply IH; [done|]. by apply clean_step_ok. }
  destruct (H (split_on slash p) [] (split_on_no_sep slash p)) as (names & ups & Hk & Hn & Hr).
  { by exists [], 0%nat. }
  exists (rev names), ups. unfold clean_elements. rewrite Hk, rev_app_distr, rev_replicate.
  split_and!; [done|by apply Forall_rev|done].
Qed.

Lemma plain_no_slash names : Forall plain names -> Forall no_slash names.
Proof. intros H. eapply Forall_impl; [exact H|]. by intros x (_ & _ & _ & ?). Qed.

(** A path below its root, "" standing for the root itself. *)
Definition confined (p : string) : Prop :=
  exists names, p = str_join "/" names /\ Forall plain names.

Lemma split_confined names :
  Forall plain names -> str_join "/" names <> "" ->
  split_on slash (str_join "/" names) = names.
Proof.
  intros Hn Hne. apply split_join; [by intros ->|]. by apply plain_no_slash.
Qed.

Lemma join_empty names : Forall plain names -> str_join "/" names = "" -> names = [].
Proof.
  intros Hn Hj. destruct Hn as [|x l (Hx & _) Hl]; [done|]. exfalso.
  destruct x as [|c x]; [done|]. by destruct l.
Qed.

Lemma is_abs_join names : Forall plain names -> is_abs (str_join "/" names) = false.
Proof.
  intros Hn. destruct Hn as [|x l (Hx & _ & _ & Hs) Hl]; [done|].
  destruct x as [|c x]; [done|]. apply Forall_cons in Hs as [Hc _].
  unfold is_abs. destruct l; cbn [str_join]; rewrite ?str_app_cons; cbn [has_prefix];
    by destruct (Ascii.eqb_spec "/" c); subst.
Qed.

Lemma plain_step rooted kept names :
  Forall plain names -> foldl (clean_step rooted) kept names = rev names ++ kept.
Proof.
  intros Hn. revert kept. induction Hn as [|x l (H1 & H2 & H3 & _) Hl IH]; intros kept; [done|].
  cbn [foldl rev]. rewrite IH, <- app_assoc. unfold clean_step.
  by rewrite !bool_decide_eq_false_2.
Qed.

(** Cleaning does nothing to a confined path. *)
Lemma clean_confined p : confined p -> path_clean p = if bool_decide (p = "") then "." else p.
Proof.
  intros (names & -> & Hn). unfold path_clean. rewrite is_abs_join by done.
  destruct (decide (str_join "/" names = "")) as [E|E].
  - by rewrite E.
  - unfold clean_elements. rewrite split_confined, plain_step by done.
    rewrite app_nil_r, rev_involutive. by rewrite !bool_decide_eq_false_2.
Qed.

(** A cleaned path that is neither absolute nor starts with ".." is confined. *)
Lemma clean_is_confined p :
  is_abs (path_clean p) = false -> path_clean p <> ".." ->
  has_prefix "../" (path_clean p) = false ->
  confined (if bool_decide (path_clean p = ".") then "" else path_clean p).
Proof.
  unfold path_clean. destruct (is_abs p); [done|].
  destruct (clean_elements_ok false p) as (names & ups & -> & Hn & _).
  destruct ups as [|ups]; cbn [replicate app].
  - intros _ _ _. exists names. split; [|done].
    destruct (decide (str_join "/" names = "")) as [E|E]; [by rewrite E|].
    rewrite (bool_decide_eq_false_2 (_ = "")) by done. case_bool_decide as E'; [|done].
    pose proof (split_confined names Hn E) as Hs. rewrite E' in Hs. cbn in Hs. subst names.
    apply Forall_cons in Hn as [(_ & Hx & _) _]. done.
  - set (rest := replicate ups ".." ++ names). intros _.
    destruct rest as [|y l]; cbn [str_join]; [done|]. rewrite !str_app_cons. done.
Qed.
