(* ===== verification/Discovery.v ===== *)
(** * Discovering boundary candidates (internal/boundary/discovery.go)

    [Discover] walks the metadata of a repository, adds a candidate for each
    relevant entry, reads the instruction files that apply to the requested scopes
    and links their non-goals to the scopes.  The walk itself is io/fs.WalkDir over
    a tree of entries; the reader (an interface) is a record of functions. *)
From S2P Require Import Contracts Unicode GoPath BoundaryResolve.
From Stdlib Require Import Ascii.

Definition MaxMetadataEntries : Z := 10000%Z.
Definition MaxScopeDepth : Z := 64%Z.
Definition MaxInstructionBytes : Z := (64 * 1024)%Z.

Definition sanitized (message field : string) : StableError :=
  NewError ErrorCodeSemanticInvalid message field false.

(** ** Scopes *)

Definition pathDepth (value : string) : Z :=
  if value =s "" then 0%Z else Z.of_nat (length (split_on slash value)).

Definition backslashes_to_slashes (value : string) : string := replace_all "\" "/" value.

(** The body of the loop of [normalizeScopes], for one scope. *)
Definition normalizeScope (value : string) : result StableError string :=
  let clean := path_clean (backslashes_to_slashes value) in
  let clean := if clean =s "." then "" else clean in
  if is_abs clean || (clean =s "..") || has_prefix "../" clean
     || (MaxScopeDepth <? pathDepth clean)%Z
  then Err (sanitized "scope must remain within context root" "scope")
  else Ok clean.

Fixpoint normalizeScopes_go (scopes : list string) (seen : gset string) (acc : list string)
    : result StableError (list string) :=
  match scopes with
  | [] => Ok (sort_strings acc)
  | value :: rest =>
      let! clean := normalizeScope value in
      if bool_decide (clean ∈ seen) then normalizeScopes_go rest seen acc
      else normalizeScopes_go rest ({[clean]} ∪ seen) (acc ++ [clean])
  end.

Definition normalizeScopes (scopes : list string) : result StableError (list string) :=
  normalizeScopes_go scopes ∅ [].

(** ** Which files matter *)

Definition instructionFile (base : string) : bool :=
  (base =s "agents.md") || (base =s "claude.md").

Definition privacyMetadataFile (base : string) : bool :=
  if (base =s ".env") || (base =s "credentials.json") || (base =s "secrets.json") then true
  else if negb (has_prefix ".env." base) then false
  else negb (one_of (trim_prefix ".env." base) ["example"; "sample"; "template"; "dist"]).

Definition workflowFile (name base : string) : bool :=
  let inWorkflowDirectory :=
    has_prefix ".github/workflows/" name || str_contains "/.github/workflows/" name in
  inWorkflowDirectory && (has_suffix ".yml" base || has_suffix ".yaml" base).

Definition targetedFile (name base : string) : bool :=
  workflowFile name base || instructionFile base || (base =s "security.md")
  || privacyMetadataFile base || (base =s "release-please-config.json")
  || (base =s ".goreleaser.yml") || (base =s ".goreleaser.yaml") || (base =s "makefile").

Definition fileCategory (name base : string) : string :=
  if instructionFile base then "instruction"
  else if privacyMetadataFile base then "privacy"
  else if workflowFile name base || (base =s "makefile") || (base =s "security.md") then
    if str_contains "release" base || str_contains "publish" base then "release" else "validation"
  else "release".

Definition appliesToScope (name : string) (scopes : list string) : bool :=
  let dir := path_dir name in
  let dir := if dir =s "." then "" else dir in
  match scopes with
  | [] => dir =s ""
  | _ => existsb (fun scope =>
           (dir =s "") || (scope =s dir) || has_prefix (dir +:+ "/") scope) scopes
  end.

Definition scopeTokenByte (value : Z) : bool :=
  in_range 97 122 value || in_range 48 57 value || (value =? 95)%Z || (value =? 45)%Z.

(** The byte at an index, where there is one. *)
Definition byte_at (s : string) (i : nat) : option Z := byte <$> String.get i s.

(** The loop of [mentionsScope] for one scope: from [offset], find the next
    occurrence and look at the bytes around it. *)
Fixpoint mentions_from (fuel : nat) (content scope : string) (offset : nat) : bool :=
  match fuel with
  | O => false
  | S fuel' =>
      if (String.length content <? offset + String.length scope)%nat then false
      else match str_index scope (str_drop offset content) with
      | None => false
      | Some index =>
          let start := (offset + index)%nat in
          let stop := (start + String.length scope)%nat in
          let beforeOK := match start with
                          | O => true
                          | S before =>
                              match byte_at content before with
                              | Some b => negb (scopeTokenByte b)
                              | None => true
                              end
                          end in
          let afterOK := match byte_at content stop with
                         | None => true
                         | Some b => negb (scopeTokenByte b) || (b =? 47)%Z
                         end in
          if beforeOK && afterOK then true
          else mentions_from fuel' content scope (S start)
      end
  end.

(** [offset] grows at every turn, so [len(content) + 1] turns are enough. *)
Definition mentionsScope (content : string) (scopes : list string) : bool :=
  let content := backslashes_to_slashes (to_lower content) in
  existsb (fun scope =>
    let scope := to_lower scope in
    negb (scope =s "") && mentions_from (S (String.length content)) content scope 0) scopes.

(** ** io/fs.WalkDir *)

Inductive EntryKind := KindFile | KindDir | KindSymlink.

#[export] Instance EntryKind_eq_dec : EqDecision EntryKind.
Proof. solve_decision. Defined.

(** An entry with its name, and for a directory its entries in lexical order and
    whether reading them fails. *)
Inductive Node := mkNode {
  no_name : string;
  no_kind : EntryKind;
  no_unreadable : bool;
  no_children : list Node
}.

(** What the callback returns: [nil], [fs.SkipDir] or another error. *)
Inductive step (S E : Type) :=
  | Continue (s : S)
  | SkipDir (s : S)
  | Stop (e : E).
Arguments Continue {S E} s.
Arguments SkipDir {S E} s.
Arguments Stop {S E} e.

Section WalkDir.
Context {S E : Type} (fn : string -> EntryKind -> bool -> S -> step S E).

(** [fn name kind failed s]: [failed] when the callback gets an error. *)
Fixpoint walk_dir (name : string) (n : Node) (s : S) : step S E :=
  match fn name (no_kind n) false s with
  | Stop e => Stop e
  | SkipDir s' => if bool_decide (no_kind n = KindDir) then Continue s' else SkipDir s'
  | Continue s' =>
      if negb (bool_decide (no_kind n = KindDir)) then Continue s'
      else
        let children :=
          (fix children (l : list Node) (s : S) : step S E :=
             match l with
             | [] => Continue s
             | c :: l' =>
                 match walk_dir (path_join name (no_name c)) c s with
                 | Stop e => Stop e
                 | SkipDir s' => Continue s'
                 | Continue s' => children l' s'
                 end
             end) in
        if no_unreadable n then
          match fn name KindDir true s' with
          | Stop e => Stop e
          | SkipDir s'' => Continue s''
          | Continue s'' => children (no_children n) s''
          end
        else children (no_children n) s'
  end.
End WalkDir.

(** The [Reader] interface: whether the root exists or cannot be read, the tree it
    walks, the contents of files, and the optional method [IsIgnored]. *)
Inductive RootStat := RootOk | RootMissing | RootFailed.

Record Reader := mkReader {
  rd_Root : RootStat;
  rd_Tree : Node;
  rd_ReadFile : string -> option string;
  rd_IsIgnored : string -> bool
}.

(** ** Discover *)

(** The variables the closures of [Discover] share. *)
Record Discovery := mkDiscovery {
  dy_seen : gset string;
  dy_categoryCounts : gmap string Z;
  dy_candidates : list Candidate;
  dy_entries : Z;
  dy_reads : Z
}.

Definition start_discovery : Discovery := mkDiscovery ∅ ∅ [] 0 0.

Definition NUL : string := String Ascii.zero "".

Definition candidate_id (category : string) (n : Z) : string :=
  category +:+ "." +:+ pad4 (fmt_d n).

(** The closure [add]. *)
Definition add (category sourceKind key : string) (confidence : float64) (specificity : Z)
    (facts : gmap string string) (s : Discovery) : Discovery :=
  let identity := category +:+ NUL +:+ key in
  if bool_decide (identity ∈ dy_seen s) then s
  else
    let count := (default 0 (dy_categoryCounts s !! category) + 1)%Z in
    let id := candidate_id category count in
    {| dy_seen := {[identity]} ∪ dy_seen s;
       dy_categoryCounts := <[category := count]> (dy_categoryCounts s);
       dy_candidates := dy_candidates s ++
         [{| ca_ID := id; ca_Category := category; ca_SourceKind := sourceKind;
             ca_SourceRef := id; ca_Confidence := confidence; ca_Specificity := specificity;
             ca_Facts := <["source_kind" := sourceKind]> (<["category" := category]> facts);
             ca_Conflicts := [] |}];
       dy_entries := dy_entries s;
       dy_reads := dy_reads s |}.

Definition certain : float64 := float_of_Z 1.
Definition likely : float64 := float_lit 9 10.

Definition count_entry (s : Discovery) : Discovery :=
  mkDiscovery (dy_seen s) (dy_categoryCounts s) (dy_candidates s) (dy_entries s + 1) (dy_reads s).
Definition count_read (s : Discovery) : Discovery :=
  mkDiscovery (dy_seen s) (dy_categoryCounts s) (dy_candidates s) (dy_entries s) (dy_reads s + 1).

(** Errors of the walk: a sanitized one, or the error of the Go context. *)
Inductive DiscoverError := Sanitized (e : StableError) | Cancelled.

(** The candidates added for an instruction file that applies to a scope. *)
Definition visit_instruction (reader : Reader) (scopes : list string) (clean : string)
    (s : Discovery) : step Discovery DiscoverError :=
  let s := count_read s in
  match rd_ReadFile reader clean with
  | None => Stop (Sanitized (sanitized "instruction file unavailable" "context_root"))
  | Some content =>
      if (MaxInstructionBytes <? str_len content)%Z then
        Stop (Sanitized (sanitized "instruction file exceeds 65536 bytes" "context_root"))
      else
        let s := add "instruction" "instruction" clean certain (pathDepth clean) ∅ s in
        let lower := to_lower content in
        if str_contains "non-goal" lower || str_contains "out of scope" lower then
          let facts : gmap string string :=
            if mentionsScope lower scopes then {["conflicted" := "true"]} else ∅ in
          Continue (add "non_goal" "instruction" (clean +:+ ":non-goal") likely
                      (pathDepth clean) facts s)
        else Continue s
  end.

(** The part of the callback after the test for [.git]. *)
Definition visit_named (reader : Reader) (scopes : list string) (clean base : string)
    (kind : EntryKind) (s : Discovery) : step Discovery DiscoverError :=
  let depth := pathDepth clean in
  if bool_decide (kind = KindDir) then
    if one_of base ["vendor"; "node_modules"; "third_party"] then
      SkipDir (add "vendor" "repository_metadata" clean certain depth ∅ s)
    else if one_of base ["generated"; "dist"; "build"] then
      SkipDir (add "generated" "repository_metadata" clean likely depth ∅ s)
    else Continue s
  else if negb (targetedFile clean base) then Continue s
  else
    let s := add (fileCategory clean base) "repository_metadata" clean certain depth ∅ s in
    if instructionFile base && appliesToScope clean scopes then
      visit_instruction reader scopes clean s
    else Continue s.

(** The callback passed to [reader.Walk]; [ctxErr n] is [ctx.Err() != nil] at the
    [n]-th call. *)
Definition visit_entry (ctxErr : Z -> bool) (reader : Reader) (scopes : list string)
    (name : string) (kind : EntryKind) (failed : bool) (s : Discovery)
    : step Discovery DiscoverError :=
  if failed then Stop (Sanitized (sanitized "repository metadata unavailable" "context_root"))
  else if ctxErr (dy_entries s) then Stop Cancelled
  else
    let s := count_entry s in
    if (MaxMetadataEntries <? dy_entries s)%Z then
      Stop (Sanitized (sanitized "repository metadata exceeds 10000 entries" "context_root"))
    else
      let clean := trim_prefix "./" (path_clean (backslashes_to_slashes name)) in
      let clean := if clean =s "." then "" else clean in
      let isDir := bool_decide (kind = KindDir) in
      if rd_IsIgnored reader clean then (if isDir then SkipDir s else Continue s)
      else if bool_decide (kind = KindSymlink) then
        Continue (add "security" "repository_metadata" (clean +:+ ":symlink") certain
                    (pathDepth clean) {["ambiguous" := "true"]} s)
      else
        let base := to_lower (path_base clean) in
        if base =s ".git" then
          let s := add "repository" "repository_metadata" (clean +:+ ":repository") certain
                     (pathDepth clean) ∅ s in
          if isDir then SkipDir s
          else visit_named reader scopes clean base kind
                 (add "worktree" "repository_metadata" (clean +:+ ":worktree") certain
                    (pathDepth clean) ∅ s)
        else visit_named reader scopes clean base kind s.

Definition candidateIndexes (candidates : list Candidate) (category : string) : list nat :=
  List.filter (fun i => match candidates !! i with
                        | Some c => ca_Category c =s category
                        | None => false
                        end) (seq 0 (length candidates)).

Definition add_conflict (id : string) (c : Candidate) : Candidate :=
  {| ca_ID := ca_ID c; ca_Category := ca_Category c; ca_SourceKind := ca_SourceKind c;
     ca_SourceRef := ca_SourceRef c; ca_Confidence := ca_Confidence c;
     ca_Specificity := ca_Specificity c; ca_Facts := ca_Facts c;
     ca_Conflicts := ca_Conflicts c ++ [id] |}.

(** The body of the inner loop: both candidates get a reference to the other. *)
Definition link_pair (candidates : list Candidate) (scope nonGoal : nat) : list Candidate :=
  match candidates !! scope, candidates !! nonGoal with
  | Some s, Some g =>
      if negb (bool_decide (ca_Facts g !! "conflicted" = Some "true")) then candidates
      else alter (add_conflict (ca_ID s)) nonGoal (alter (add_conflict (ca_ID g)) scope candidates)
  | _, _ => candidates
  end.

Definition linkApplicableNonGoals (candidates : list Candidate) : list Candidate :=
  let scopes := candidateIndexes candidates "scope" in
  let nonGoals := candidateIndexes candidates "non_goal" in
  foldl (fun cs scope => foldl (fun cs nonGoal => link_pair cs scope nonGoal) cs nonGoals)
    candidates scopes.

Definition id_less (a b : Candidate) : bool := str_lt (ca_ID a) (ca_ID b).

Definition add_scopes (scopes : list string) (s : Discovery) : Discovery :=
  foldl (fun s scope => add "scope" "user_request" scope certain (pathDepth scope) ∅ s) s scopes.

Definition cancelled_error : StableError :=
  NewError ErrorCodeBudgetExhausted "boundary discovery cancelled or timed out" "context_root" true.

Definition Discover (ctxErr : Z -> bool) (reader : Reader) (scopes : list string)
    : result StableError Context :=
  let! normalizedScopes := normalizeScopes scopes in
  match rd_Root reader with
  | RootMissing => Ok (mkContext [] 0 0)
  | RootFailed => Err (sanitized "context root unavailable" "context_root")
  | RootOk =>
      match walk_dir (visit_entry ctxErr reader normalizedScopes) "." (rd_Tree reader)
              (add_scopes normalizedScopes start_discovery) with
      | Stop Cancelled => Err cancelled_error
      | Stop (Sanitized e) => Err e
      | Continue s | SkipDir s =>
          Ok {| cx_Candidates := go_sort id_less (linkApplicableNonGoals (dy_candidates s));
                cx_MetadataEntries := dy_entries s;
                cx_TargetedReads := dy_reads s |}
      end
  end.

(** ** Scopes stay inside the root *)

Lemma pathDepth_confined p names :
  p = str_join "/" names -> Forall plain names -> pathDepth p = Z.of_nat (length names).
Proof.
  intros -> Hn. unfold pathDepth. destruct (str_join "/" names =s "") eqn:E; str_facts.
  - by rewrite (join_empty names).
  - by rewrite split_confined.
Qed.

Lemma normalizeScope_Ok value clean :
  normalizeScope value = Ok clean -> confined clean /\ (pathDepth clean <= MaxScopeDepth)%Z.
Proof.
  unfold normalizeScope. set (c := path_clean _).
  destruct (c =s ".") eqn:Ec; intros H; str_facts.
  { vm_compute in H. simplify_eq. split; [exists []; split; [done|constructor]|by vm_compute]. }
  case_hyp H; [done|]. injection H as <-. bool_facts. str_facts. split; [|done].
  pose proof (clean_is_confined (backslashes_to_slashes value)) as Hc. fold c in Hc.
  rewrite bool_decide_eq_false_2 in Hc by done. by apply Hc.
Qed.

Lemma normalizeScopes_go_Ok scopes seen acc l :
  normalizeScopes_go scopes seen acc = Ok l ->
  list_to_set acc = seen -> NoDup acc ->
  exists cleaned, Forall2 (fun value clean => normalizeScope value = Ok clean) scopes cleaned /\
    NoDup l /\ StronglySorted (not_after str_lt) l /\
    (forall x, x ∈ l <-> x ∈ acc \/ x ∈ cleaned).
Proof.
  revert seen acc. induction scopes as [|v scopes IH]; intros seen acc; cbn [normalizeScopes_go].
  - intros [= <-] _ HN. exists []. split_and!; [constructor| |apply sort_strings_sorted|].
    + by rewrite sort_strings_perm.
    + intros x. rewrite sort_strings_perm, elem_of_nil. tauto.
  - intros H Hs HN. destruct (normalizeScope v) as [clean|] eqn:Ev; [|done].
    case_bool_decide as Hin.
    + destruct (IH _ _ H Hs HN) as (cl & HF & HN' & HS & Hx).
      exists (clean :: cl). split_and!; [by constructor|done..|].
      intros x. rewrite Hx, elem_of_cons. rewrite <- Hs, elem_of_list_to_set in Hin. naive_solver.
    + destruct (IH _ _ H) as (cl & HF & HN' & HS & Hx).
      * rewrite list_to_set_app_L, Hs. set_solver.
      * apply NoDup_app. split_and!; [done| |apply NoDup_singleton].
        intros x Hx Hx'. apply list_elem_of_singleton in Hx' as ->.
        apply Hin. by rewrite <- Hs, elem_of_list_to_set.
      * exists (clean :: cl). split_and!; [by constructor|done..|].
        intros x. rewrite Hx, elem_of_app, !elem_of_cons, elem_of_nil. tauto.
Qed.

Lemma normalizeScopes_go_Err scopes seen acc e :
  normalizeScopes_go scopes seen acc = Err e ->
  exists value, value ∈ scopes /\ normalizeScope value = Err e.
Proof.
  revert seen acc. induction scopes as [|v scopes IH]; intros seen acc; cbn [normalizeScopes_go].
  { done. }
  destruct (normalizeScope v) as [clean|e'] eqn:Ev.
  - intros H. assert (exists value, value ∈ scopes /\ normalizeScope value = Err e)
      as (x & Hx & He) by (case_bool_decide; eauto). exists x. split; [by right|done].
  - intros [= ->]. exists v. split; [left|done].
Qed.

(** The scopes [Discover] works with stay inside the context root: every one is
    a join of at most 64 proper names, without "..", "." or empty elements; they are
    sorted and distinct, every input scope is among them in its cleaned form, and
    the only error is the rejection of some input that leaves the root. *)
Theorem normalizeScopes_confined (scopes : list string) :
  match normalizeScopes scopes with
  | Ok l =>
      Forall (fun s => confined s /\ (pathDepth s <= 64)%Z) l /\
      NoDup l /\ StronglySorted (not_after str_lt) l /\
      (forall value, value ∈ scopes -> exists s, normalizeScope value = Ok s /\ s ∈ l)
  | Err e =>
      e = sanitized "scope must remain within context root" "scope" /\
      exists value, value ∈ scopes /\ normalizeScope value = Err e
  end.
Proof.
  unfold normalizeScopes. destruct (normalizeScopes_go scopes ∅ []) as [l|e] eqn:E.
  - destruct (normalizeScopes_go_Ok _ _ _ _ E) as (cl & HF & HN & HS & Hx);
      [done|constructor|].
    split_and!; try done.
    + apply Forall_forall. intros s Hs. apply Hx in Hs as [Hs|Hs]; [by apply elem_of_nil in Hs|].
      apply list_elem_of_lookup in Hs as [i Hi].
      destruct (Forall2_lookup_r _ _ _ _ _ HF Hi) as (v & _ & Hv). by eapply normalizeScope_Ok.
    + intros v [i Hi]%list_elem_of_lookup.
      destruct (Forall2_lookup_l _ _ _ _ _ HF Hi) as (s & Hs & Hv). exists s.
      split; [done|]. apply Hx. right. by eapply list_elem_of_lookup_2.
  - apply normalizeScopes_go_Err in E as (v & Hv & He). split; [|eauto].
    unfold normalizeScope in He. repeat case_hyp He; by simplify_eq.
Qed.

(** ** What the walk maintains *)

Definition known_categories : list string :=
  ["scope"; "security"; "repository"; "worktree"; "vendor"; "generated"; "instruction";
   "privacy"; "release"; "validation"; "non_goal"].

Lemma known_no_dot category :
  category ∈ known_categories -> "."%char ∉ String.list_ascii_of_string category.
Proof.
  intros H. apply (proj1 (Forall_forall (fun c => "."%char ∉ String.list_ascii_of_string c)
    known_categories)); [|done].
  apply (bool_decide_unpack _). vm_compute. exact I.
Qed.

Lemma candidate_id_inj c1 c2 n1 n2 :
  c1 ∈ known_categories -> c2 ∈ known_categories ->
  (0 <= n1 < 10 ^ 20)%Z -> (0 <= n2 < 10 ^ 20)%Z ->
  candidate_id c1 n1 = candidate_id c2 n2 -> c1 = c2 /\ n1 = n2.
Proof.
  unfold candidate_id. intros H1 H2 Hn1 Hn2 H.
  apply known_no_dot in H1, H2. destruct (str_app_sep_inj _ _ _ _ _ H1 H2 H) as [-> Hp].
  split; [done|]. rewrite ?str_app_nil_l in Hp. by apply pad4_fmt_d_inj.
Qed.

Definition count_of (s : Discovery) (category : string) : Z :=
  default 0%Z (dy_categoryCounts s !! category).

(** Every candidate was numbered within its category by [add]. *)
Definition numbered (c : Candidate) (k : string * Z) : Prop :=
  k.1 = ca_Category c /\ ca_ID c = candidate_id k.1 k.2 /\ ca_SourceRef c = ca_ID c /\
  confident c /\ ca_Conflicts c = [].

Record discovery_inv (s : Discovery) : Prop := {
  di_keys : exists keys, Forall2 numbered (dy_candidates s) keys /\ NoDup keys /\
    Forall (fun k => k.1 ∈ known_categories /\ (1 <= k.2 <= count_of s k.1)%Z) keys;
  di_counts : forall category,
    (0 <= count_of s category <= Z.of_nat (length (dy_candidates s)))%Z
}.

(** [s'] comes from [s] by adding at most [k] candidates and reading at most [r] files. *)
Record grows (k r : Z) (s s' : Discovery) : Prop := {
  gr_inv : discovery_inv s -> discovery_inv s';
  gr_length : (Z.of_nat (length (dy_candidates s')) <=
               Z.of_nat (length (dy_candidates s)) + k)%Z;
  gr_entries : dy_entries s' = dy_entries s;
  gr_reads : (dy_reads s <= dy_reads s' <= dy_reads s + r)%Z
}.

Lemma grows_refl k r s : (0 <= k)%Z -> (0 <= r)%Z -> grows k r s s.
Proof. split; [done|lia|done|lia]. Qed.

Lemma grows_trans k1 k2 r1 r2 s1 s2 s3 :
  grows k1 r1 s1 s2 -> grows k2 r2 s2 s3 -> grows (k1 + k2) (r1 + r2) s1 s3.
Proof. intros [] []. split; [auto|lia|congruence|lia]. Qed.

Lemma grows_le k r k' r' s s' : grows k r s s' -> (k <= k')%Z -> (r <= r')%Z -> grows k' r' s s'.
Proof. intros [] ??. split; [done|lia|done|lia]. Qed.

Lemma grows_count_read s : grows 0 1 s (count_read s).
Proof.
  split; cbn; [|lia|done|lia]. intros [Hk Hc]. by split.
Qed.

Lemma count_of_insert category n s s' c :
  dy_categoryCounts s' = <[category := n]> (dy_categoryCounts s) ->
  count_of s' c = if decide (category = c) then n else count_of s c.
Proof.
  unfold count_of. intros ->.
  case_decide; subst; [by rewrite lookup_insert_eq|by rewrite lookup_insert_ne].
Qed.

Lemma add_grows category sourceKind key confidence specificity facts s :
  category ∈ known_categories -> is_nan confidence = false ->
  grows 1 0 s (add category sourceKind key confidence specificity facts s).
Proof.
  intros Hcat Hconf. unfold add. case_bool_decide; [by apply grows_refl|].
  split; cbn [dy_candidates dy_entries dy_reads]; rewrite ?length_app; cbn [length];
    [|lia|done|lia].
  intros [(keys & HF & HN & Hb) Hc]. fold (count_of s category).
  pose proof (Hc category) as Hcc. set (s' := mkDiscovery _ _ _ _ _).
  assert (forall c, count_of s' c =
    if decide (category = c) then (count_of s category + 1)%Z else count_of s c) as Hs'
    by (intros c; by apply count_of_insert).
  split.
  - exists (keys ++ [(category, (count_of s category + 1)%Z)]). split_and!.
    + apply Forall2_app; [done|]. repeat constructor; done.
    + apply NoDup_app. split_and!; [done| |apply NoDup_singleton].
      intros k Hk Hk'. apply list_elem_of_singleton in Hk' as ->.
      rewrite Forall_forall in Hb. apply Hb in Hk. cbn in Hk. lia.
    + apply Forall_app. split; [eapply Forall_impl; [exact Hb|]|constructor; [|constructor]].
      * intros [c n] [Hk Hn]. split; [done|]. cbn [fst snd] in *. rewrite Hs'.
        case_decide; subst; lia.
      * cbn [fst snd]. split; [done|]. rewrite Hs', decide_True by done. lia.
  - intros c. rewrite Hs'. cbn [dy_candidates s']. rewrite length_app. cbn [length].
    specialize (Hc c). case_decide; lia.
Qed.

(** A property of the state a callback goes on with. *)
Definition step_sat {S E} (P : S -> Prop) (st : step S E) : Prop :=
  match st with Continue s | SkipDir s => P s | Stop _ => True end.

Lemma step_sat_mono {S E} (P Q : S -> Prop) (st : step S E) :
  (forall s, P s -> Q s) -> step_sat P st -> step_sat Q st.
Proof. destruct st; cbn; auto. Qed.

(** One more candidate at the end of a chain of growth. *)
Lemma grows_add k r category sourceKind key confidence specificity facts s0 s :
  category ∈ known_categories -> is_nan confidence = false -> grows k r s0 s ->
  grows (k + 1) r s0 (add category sourceKind key confidence specificity facts s).
Proof.
  intros Hc Hn Hg. rewrite <- (Z.add_0_r r). eapply grows_trans; [done|]. by apply add_grows.
Qed.

Ltac known := apply (bool_decide_unpack _); vm_compute; exact I.

Lemma fileCategory_known name base : fileCategory name base ∈ known_categories.
Proof. unfold fileCategory. repeat case_goal; known. Qed.

Lemma visit_instruction_grows reader scopes clean s :
  step_sat (grows 2 1 s) (visit_instruction reader scopes clean s).
Proof.
  unfold visit_instruction. case_goal; [|done]. case_goal; [done|].
  pose proof (grows_add _ _ "instruction" "instruction" clean certain (pathDepth clean) ∅ _ _
    ltac:(known) eq_refl (grows_count_read s)) as H1.
  case_goal; cbn [step_sat]; [|eapply grows_le; [exact H1|lia..]].
  eapply grows_le; [apply grows_add; [known|done|exact H1]|lia..].
Qed.

Lemma visit_named_grows reader scopes clean base kind s :
  step_sat (grows 3 1 s) (visit_named reader scopes clean base kind s).
Proof.
  unfold visit_named. case_goal.
  - case_goal; [|case_goal]; cbn [step_sat]; [| |by apply grows_refl];
      (eapply grows_le; [apply add_grows; [known|done]|lia..]).
  - case_goal; [by apply grows_refl|].
    set (s1 := add _ _ _ _ _ _ _).
    assert (grows 1 0 s s1) as H1 by (apply add_grows; [apply fileCategory_known|done]).
    case_goal; [|cbn [step_sat]; eapply grows_le; [exact H1|lia..]].
    eapply step_sat_mono; [|apply visit_instruction_grows].
    intros s' H2. by apply (grows_trans 1 2 0 1 _ s1).
Qed.

(** What holds between two entries of the walk, [n] scopes having been added. *)
Record walk_inv (n : Z) (s : Discovery) : Prop := {
  wi_inv : discovery_inv s;
  wi_length : (Z.of_nat (length (dy_candidates s)) <= n + 5 * dy_entries s)%Z;
  wi_entries : (0 <= dy_entries s <= MaxMetadataEntries)%Z;
  wi_reads : (0 <= dy_reads s <= dy_entries s)%Z
}.

Lemma walk_inv_grows n s s' :
  walk_inv n s -> (dy_entries s < MaxMetadataEntries)%Z -> grows 5 1 (count_entry s) s' ->
  walk_inv n s'.
Proof.
  intros [Hi Hl He Hr] Hlt [Gi Gl Ge Gr]. cbn in *.
  assert (discovery_inv (count_entry s)) by (destruct Hi; by split).
  split; [auto|lia..].
Qed.

Lemma visit_entry_inv n ctxErr reader scopes name kind failed s :
  walk_inv n s -> step_sat (walk_inv n) (visit_entry ctxErr reader scopes name kind failed s).
Proof.
  intros Hw. unfold visit_entry. case_goal; [done|]. case_goal; [done|].
  case_goal; [done|]. bool_facts. cbn [count_entry dy_entries] in *.
  assert (dy_entries s < MaxMetadataEntries)%Z as Hlt by lia.
  cbv zeta. set (clean := if _ =s "." then "" else _). set (s1 := count_entry s).
  lazymatch goal with |- step_sat _ ?st => enough (step_sat (grows 5 1 s1) st) as H end.
  { eapply step_sat_mono; [|exact H]. intros s' Hg. by eapply walk_inv_grows. }
  assert (forall st : step Discovery DiscoverError, step_sat (grows 3 1 s1) st ->
    step_sat (grows 5 1 s1) st) as H31.
  { intros st. apply step_sat_mono. intros s' Hg. eapply grows_le; [exact Hg|lia..]. }
  case_goal; [case_goal; apply grows_refl; lia|].
  case_goal; [eapply grows_le; [apply add_grows; [known|done]|lia..]|].
  case_goal; [|apply H31, visit_named_grows].
  pose proof (add_grows "repository" "repository_metadata" (clean +:+ ":repository") certain
    (pathDepth clean) ∅ s1 ltac:(known) eq_refl) as H1.
  case_goal; [eapply grows_le; [exact H1|lia..]|].
  eapply step_sat_mono; [|apply visit_named_grows]. intros s' H3.
  pose proof (grows_add _ _ "worktree" "repository_metadata" (clean +:+ ":worktree") certain
    (pathDepth clean) ∅ _ _ ltac:(known) eq_refl H1) as H2.
  apply (grows_le _ _ _ _ _ _ (grows_trans _ _ _ _ _ _ _ H2 H3)); lia.
Qed.

(** Rule induction on the walk: what the callback keeps, the walk keeps. *)
Lemma walk_dir_inv {S E} (fn : string -> EntryKind -> bool -> S -> step S E) (P : S -> Prop) :
  (forall name kind failed s, P s -> step_sat P (fn name kind failed s)) ->
  forall n name s, P s -> step_sat P (walk_dir fn name n s).
Proof.
  intros Hfn. fix IH 1. intros [base kind unreadable children] name s Hs.
  cbn [walk_dir no_kind no_unreadable no_children].
  pose proof (Hfn name kind false s Hs) as H1.
  destruct (fn name kind false s) as [s1|s1|e]; [|by case_goal|done].
  case_goal; [done|]. cbn [step_sat] in H1.
  set (go := fix children (l : list Node) (s : S) : step S E := _).
  assert (forall s, P s -> step_sat P (go children s)) as Hgo.
  { clear -IH. induction children as [|c l IHl]; intros s Hs; [done|]. cbn.
    pose proof (IH c (path_join name (no_name c)) s Hs) as Hc.
    destruct (walk_dir _ _ c s) as [s'|s'|e]; [by apply IHl|done|done]. }
  destruct unreadable; [|by apply Hgo].
  pose proof (Hfn name KindDir true s1 H1) as H2.
  destruct (fn name KindDir true s1) as [s2|s2|e]; [by apply Hgo|done|done].
Qed.

(** ** Linking scopes and non-goals *)

Lemma fmap_alter_id {A B} (f : A -> B) (g : A -> A) (i : nat) (l : list A) :
  (forall x, f (g x) = f x) -> f <$> alter g i l = f <$> l.
Proof.
  intros Hfg. revert i. induction l as [|x l IH]; intros [|i]; cbn; try done.
  - by rewrite Hfg.
  - f_equal. apply IH.
Qed.

Lemma link_pair_fields {B} (f : Candidate -> B) cs i j :
  (forall id c, f (add_conflict id c) = f c) -> f <$> link_pair cs i j = f <$> cs.
Proof.
  intros Hf. unfold link_pair. repeat case_goal; try done.
  by rewrite !fmap_alter_id by done.
Qed.

(** Every relation between candidate lists that linking one pair respects is
    respected by the whole loop. *)
Lemma link_all_inv (P : list Candidate -> Prop) cs :
  (forall cs i j, P cs -> P (link_pair cs i j)) -> P cs -> P (linkApplicableNonGoals cs).
Proof.
  intros Hstep Hcs. unfold linkApplicableNonGoals.
  generalize (candidateIndexes cs "scope") as scopes.
  generalize (candidateIndexes cs "non_goal") as nonGoals. intros nonGoals scopes.
  revert cs Hcs. induction scopes as [|i scopes IH]; intros cs Hcs; [done|]. cbn. apply IH.
  clear IH. revert cs Hcs. induction nonGoals as [|j nonGoals IH]; intros cs Hcs; [done|].
  cbn. by apply IH, Hstep.
Qed.

Lemma link_all_fields {B} (f : Candidate -> B) cs :
  (forall id c, f (add_conflict id c) = f c) -> f <$> linkApplicableNonGoals cs = f <$> cs.
Proof.
  intros Hf. apply (link_all_inv (fun cs' => f <$> cs' = f <$> cs)); [|done].
  intros cs' i j <-. by apply link_pair_fields.
Qed.

Lemma link_all_Forall {B} (f : Candidate -> B) (P : B -> Prop) cs :
  (forall id c, f (add_conflict id c) = f c) ->
  Forall (fun c => P (f c)) cs -> Forall (fun c => P (f c)) (linkApplicableNonGoals cs).
Proof.
  intros Hf H. apply Forall_fmap. rewrite link_all_fields by done. by apply Forall_fmap.
Qed.

(** A conflict is recorded at both of its ends. *)
Definition symmetric_conflicts (cs : list Candidate) : Prop :=
  forall a id, a ∈ cs -> id ∈ ca_Conflicts a ->
  exists b, b ∈ cs /\ ca_ID b = id /\ ca_ID a ∈ ca_Conflicts b.

Lemma elem_of_alter_conflict id (i : nat) (cs : list Candidate) x :
  x ∈ alter (add_conflict id) i cs <->
  exists k c, cs !! k = Some c /\ x = (if decide (k = i) then add_conflict id c else c).
Proof.
  rewrite list_elem_of_lookup. split.
  - intros [k Hk]. destruct (decide (k = i)) as [->|Hne].
    + rewrite list_lookup_alter_eq in Hk. destruct (cs !! i) as [c|] eqn:E; [|done].
      cbn in Hk. injection Hk as <-. exists i, c. split; [done|]. by rewrite decide_True.
    + rewrite list_lookup_alter_ne in Hk by done. exists k, x. split; [done|].
      by rewrite decide_False.
  - intros (k & c & Hc & ->). exists k. case_decide; subst.
    + by rewrite list_lookup_alter_eq, Hc.
    + by rewrite list_lookup_alter_ne.
Qed.

Lemma link_pair_symmetric cs i j : symmetric_conflicts cs -> symmetric_conflicts (link_pair cs i j).
Proof.
  intros Hs. unfold link_pair.
  destruct (cs !! i) as [s|] eqn:Hi; [|done]. destruct (cs !! j) as [g|] eqn:Hj; [|done].
  case_goal; [done|]. clear E.
  set (upd := fun k (c : Candidate) =>
    let c1 := if decide (k = i) then add_conflict (ca_ID g) c else c in
    if decide (k = j) then add_conflict (ca_ID s) c1 else c1).
  assert (forall x, x ∈ alter (add_conflict (ca_ID s)) j (alter (add_conflict (ca_ID g)) i cs) <->
    exists k c, cs !! k = Some c /\ x = upd k c) as Hel.
  { intros x. rewrite elem_of_alter_conflict. split.
    - intros (k & c1 & Hk & ->). destruct (decide (k = i)) as [->|Hne].
      + rewrite list_lookup_alter_eq, Hi in Hk. injection Hk as <-. exists i, s.
        split; [done|]. unfold upd. by rewrite (decide_True (P := i = i)).
      + rewrite list_lookup_alter_ne in Hk by done. exists k, c1. split; [done|].
        unfold upd. by rewrite (decide_False (P := k = i)).
    - intros (k & c & Hk & ->). exists k. unfold upd. destruct (decide (k = i)) as [->|Hki].
      + eexists. rewrite list_lookup_alter_eq, Hk. by split.
      + exists c. by rewrite list_lookup_alter_ne. }
  assert (forall k c, ca_ID (upd k c) = ca_ID c) as Hid
    by (intros; unfold upd; by repeat case_decide).
  assert (forall k c id, id ∈ ca_Conflicts (upd k c) <->
    id ∈ ca_Conflicts c \/ (k = i /\ id = ca_ID g) \/ (k = j /\ id = ca_ID s)) as Hc.
  { intros k c id. unfold upd. repeat case_decide; cbn [add_conflict ca_Conflicts];
      rewrite ?elem_of_app, ?list_elem_of_singleton; naive_solver. }
  intros a id (k & c & Hk & ->)%Hel. rewrite Hc, Hid.
  intros [Hin|[[-> ->]|[-> ->]]]; simplify_eq.
  - destruct (Hs c id) as (b & Hb & <- & Hab); [by eapply list_elem_of_lookup_2|done|].
    apply list_elem_of_lookup in Hb as [m Hm]. exists (upd m b).
    rewrite Hel, Hid, Hc. naive_solver.
  - exists (upd j g). rewrite Hel, Hid, Hc. naive_solver.
  - exists (upd i s). rewrite Hel, Hid, Hc. naive_solver.
Qed.

(** ** The discovered context *)

#[export] Instance id_less_strict_weak : StrictWeak id_less.
Proof. apply str_lt_on_strict_weak. Qed.

Lemma add_scopes_grows scopes s :
  grows (Z.of_nat (length scopes)) 0 s (add_scopes scopes s).
Proof.
  revert s. induction scopes as [|x scopes IH]; intros s; [by apply grows_refl|].
  pose proof (add_grows "scope" "user_request" x certain (pathDepth x) ∅ s
    ltac:(known) eq_refl) as H1.
  apply (grows_le _ _ _ _ _ _ (grows_trans _ _ _ _ _ _ _ H1 (IH _))); cbn; lia.
Qed.

Lemma normalizeScopes_go_length scopes seen acc l :
  normalizeScopes_go scopes seen acc = Ok l -> (length l <= length acc + length scopes)%nat.
Proof.
  revert seen acc. induction scopes as [|v scopes IH]; intros seen acc; cbn [normalizeScopes_go].
  - intros [= <-]. unfold sort_strings. rewrite length_go_sort. lia.
  - intros H. case_hyp H; [|done]. case_hyp H; apply IH in H; rewrite ?length_app in H; cbn in *; lia.
Qed.

Lemma start_walk_inv scopes :
  walk_inv (Z.of_nat (length scopes)) (add_scopes scopes start_discovery).
Proof.
  destruct (add_scopes_grows scopes start_discovery) as [Gi Gl Ge Gr]. cbn in *.
  assert (discovery_inv start_discovery) as Hi.
  { split; [exists []; split_and!; constructor|]. intros c. cbn. unfold count_of. cbn.
    rewrite lookup_empty. cbn. lia. }
  split; rewrite ?Ge; unfold MaxMetadataEntries in *; [auto|cbn; lia..].
Qed.

(** A candidate is its own source reference. *)
Definition self_sourced (c : Candidate) : Prop := ca_SourceRef c = ca_ID c.

Lemma numbered_ids cs keys :
  Forall2 numbered cs keys ->
  ca_ID <$> cs = (fun k => candidate_id k.1 k.2) <$> keys /\
  Forall confident cs /\ Forall self_sourced cs /\ symmetric_conflicts cs.
Proof.
  intros HF. assert (Forall (fun c => ca_Conflicts c = []) cs) as Hc.
  { induction HF as [|c k cs keys (_ & _ & _ & _ & ?)]; by constructor. }
  split_and!.
  - induction HF as [|c k cs keys (_ & Hid & _)]; [done|]. apply Forall_cons in Hc as [_ Hc].
    cbn. rewrite Hid. f_equal. auto.
  - clear Hc. induction HF as [|c k cs keys (_ & _ & _ & ? & _)]; by constructor.
  - clear Hc. induction HF as [|c k cs keys (_ & _ & Hs & _)]; by constructor.
  - intros a id Ha. rewrite Forall_forall in Hc. rewrite (Hc a Ha). by intros ?%elem_of_nil.
Qed.

(** What [Discover] promises of the context it returns. *)
Record context_wf (ctx : Context) : Prop := {
  cw_reads : (0 <= cx_TargetedReads ctx <= cx_MetadataEntries ctx)%Z;
  cw_entries : (cx_MetadataEntries ctx <= 10000)%Z;
  cw_distinct : NoDup (ca_ID <$> cx_Candidates ctx);
  cw_sources : Forall self_sourced (cx_Candidates ctx);
  cw_confident : Forall confident (cx_Candidates ctx);
  cw_sorted : StronglySorted (not_after id_less) (cx_Candidates ctx);
  cw_symmetric : symmetric_conflicts (cx_Candidates ctx)
}.

Lemma Discover_context_wf ctxErr reader scopes ctx :
  (Z.of_nat (length scopes) < 2 ^ 62)%Z ->
  Discover ctxErr reader scopes = Ok ctx -> context_wf ctx.
Proof.
  intros Hlen. unfold Discover. destruct (normalizeScopes scopes) as [ns|] eqn:Ens; [|done].
  apply normalizeScopes_go_length in Ens. cbn in Ens.
  destruct (rd_Root reader); [|intros [= <-]|done].
  2: { split; cbn; try lia; try constructor. intros a id Ha. by apply elem_of_nil in Ha. }
  pose proof (walk_dir_inv _ (walk_inv (Z.of_nat (length ns)))
    (visit_entry_inv _ ctxErr reader ns) (rd_Tree reader) "." _ (start_walk_inv ns)) as Hw.
  intros H. assert (exists s, walk_inv (Z.of_nat (length ns)) s /\
    ctx = {| cx_Candidates := go_sort id_less (linkApplicableNonGoals (dy_candidates s));
             cx_MetadataEntries := dy_entries s; cx_TargetedReads := dy_reads s |})
    as (s & [[(keys & HF & HN & Hk) Hc] Hl He Hr] & ->).
  { destruct (walk_dir _ _ _ _) as [s|s|[e|]]; simplify_eq; by exists s. }
  clear H Hw. destruct (numbered_ids _ _ HF) as (Hids & Hconf & Hsrc & Hsym).
  cbn [cx_Candidates cx_MetadataEntries cx_TargetedReads].
  pose proof (go_sort_perm id_less (linkApplicableNonGoals (dy_candidates s))) as HP.
  unfold MaxMetadataEntries in *.
  split; cbn [cx_Candidates cx_MetadataEntries cx_TargetedReads]; try lia.
  - rewrite HP, link_all_fields, Hids by done. apply NoDup_fmap_2_strong; [|done].
    rewrite Forall_forall in Hk. intros [c1 n1] [c2 n2] H1 H2. cbn. apply Hk in H1, H2.
    cbn in *. pose proof (Hc c1). pose proof (Hc c2). intros Heq.
    apply candidate_id_inj in Heq as [-> ->]; [done|tauto..|lia|lia].
  - rewrite HP. by apply (link_all_Forall (fun c => (ca_SourceRef c, ca_ID c))
      (fun x => x.1 = x.2)).
  - rewrite HP. by apply (link_all_Forall ca_Confidence (fun f => is_nan f = false)).
  - apply go_sort_sorted, _.
  - intros a id. setoid_rewrite HP. revert a id. apply (link_all_inv symmetric_conflicts); [apply link_pair_symmetric|done].
Qed.

(** A conflict recorded at both ends is a cycle of the conflict graph. *)
Lemma mutual_conflict_cycle cs c :
  NoDup (ca_ID <$> cs) -> symmetric_conflicts cs -> c ∈ cs -> ca_Conflicts c <> [] ->
  re_Cycle (Resolve cs) <> [].
Proof.
  intros HN Hsym Hc Hne. apply Resolve_cycle; [done|]. exists (ca_ID c).
  destruct (ca_Conflicts c) as [|id ids] eqn:E; [done|].
  assert (id ∈ ca_Conflicts c) as Hid by (rewrite E; left).
  destruct (Hsym c id Hc Hid) as (b & Hb & <- & Hcb).
  apply (tc_l _ _ (ca_ID b)); [|apply tc_once]; (split; [|by apply list_elem_of_fmap_2]).
  - by exists c.
  - by exists b.
Qed.

(** A discovered context is within its budgets and well formed: at most 10000
    metadata entries and no more reads than entries; candidates sorted by pairwise
    distinct identifiers, which are their sources; numeric confidences; and every
    conflict recorded by both of its ends. *)
Theorem Discover_wf (ctxErr : Z -> bool) (reader : Reader) (scopes : list string) (ctx : Context) :
  (Z.of_nat (length scopes) < 2 ^ 62)%Z ->
  Discover ctxErr reader scopes = Ok ctx ->
  (0 <= cx_TargetedReads ctx <= cx_MetadataEntries ctx)%Z /\
  (cx_MetadataEntries ctx <= 10000)%Z /\
  NoDup (ca_ID <$> cx_Candidates ctx) /\
  Forall self_sourced (cx_Candidates ctx) /\
  Forall confident (cx_Candidates ctx) /\
  StronglySorted (not_after id_less) (cx_Candidates ctx) /\
  symmetric_conflicts (cx_Candidates ctx).
Proof. intros Hlen H. destruct (Discover_context_wf _ _ _ _ Hlen H). split_and!; solve [lia|done]. Qed.

(** ** Witnesses *)

(** A small repository: an instruction file that excludes the requested scope, a
    symbolic link, an ignored and a vendored directory. *)
Definition sample_reader : Reader :=
  {| rd_Root := RootOk;
     rd_Tree := mkNode "." KindDir false
       [mkNode ".git" KindDir false [mkNode "HEAD" KindFile false []];
        mkNode ".github" KindDir false
          [mkNode "workflows" KindDir false [mkNode "release.yml" KindFile false []]];
        mkNode "AGENTS.md" KindFile false [];
        mkNode "link" KindSymlink false [];
        mkNode "vendor" KindDir false [mkNode "Makefile" KindFile false []]];
     rd_ReadFile := fun name =>
       if name =s "AGENTS.md" then Some "Non-goal: internal/store is out of scope." else None;
     rd_IsIgnored := fun _ => false |}.

Definition sample_discovered : Context :=
  match Discover (fun _ => false) sample_reader ["internal\store"; "./internal/x/../store"] with
  | Ok ctx => ctx
  | Err _ => mkContext [] 0 0
  end.

Example sample_discovered_candidates :
  (fun c => (ca_ID c, ca_Conflicts c)) <$> cx_Candidates sample_discovered =
  [("instruction.0001", []); ("non_goal.0001", ["scope.0001"]); ("release.0001", []);
   ("repository.0001", []); ("scope.0001", ["non_goal.0001"]); ("security.0001", []);
   ("vendor.0001", [])].
Proof. vm_compute. reflexivity. Qed.

Lemma Discover_wf_witness :
  exists ctx, Discover (fun _ => false) sample_reader ["internal\store"] = Ok ctx /\
    cx_MetadataEntries ctx = 8%Z /\ NoDup (ca_ID <$> cx_Candidates ctx).
Proof.
  destruct (Discover (fun _ => false) sample_reader ["internal\store"]) as [ctx|e] eqn:E;
    [|vm_compute in E; discriminate].
  exists ctx. split; [reflexivity|]. split.
  { vm_compute in E. injection E as <-. reflexivity. }
  assert (Z.of_nat (length ["internal\store"]) < 2 ^ 62)%Z as H by (vm_compute; reflexivity).
  exact (proj1 (proj2 (proj2 (Discover_wf _ _ _ _ H E)))).
Defined.
