(* ===== verification/Engine.v ===== *)
(** * Evaluating the policy packs on a context (internal/boundary/engine.go)

    Every candidate of the resolved context is matched against the built-in and the
    extension packs; of all matches the 256 of highest precedence are kept in a
    heap and returned in the order of pack, rule and source. *)
From S2P Require Import Contracts Decision PolicyPack Builtin BoundaryResolve GoHeap Discovery.

Definition MaxDecisions : nat := 256.

Record rankedDecision := mkRanked {
  rd_decision : BoundaryDecision;
  rd_authority : Z;
  rd_candidateOrder : Z
}.

#[export] Instance rankedDecision_inhabited : Inhabited rankedDecision :=
  populate (mkRanked (mkBoundaryDecision "" "" 0 "" fzero "" "" "" "" "" []) 0 0).

Definition outcomePriority (outcome : string) : Z :=
  if outcome =s OutcomeBlock then 4%Z
  else if outcome =s OutcomeClarify then 3%Z
  else if outcome =s OutcomeWarn then 2%Z
  else 1%Z.

Definition betterDecision (left right : rankedDecision) : bool :=
  let l := rd_decision left in
  let r := rd_decision right in
  if negb (rd_authority left =? rd_authority right)%Z then
    (rd_authority right <? rd_authority left)%Z
  else if negb (outcomePriority (bd_Outcome l) =? outcomePriority (bd_Outcome r))%Z then
    (outcomePriority (bd_Outcome r) <? outcomePriority (bd_Outcome l))%Z
  else if negb (bd_Risk l =? bd_Risk r)%Z then (bd_Risk r <? bd_Risk l)%Z
  else if negb (rd_candidateOrder left =? rd_candidateOrder right)%Z then
    (rd_candidateOrder left <? rd_candidateOrder right)%Z
  else if negb (bd_PackID l =s bd_PackID r) then str_lt (bd_PackID l) (bd_PackID r)
  else if negb (bd_RuleID l =s bd_RuleID r) then str_lt (bd_RuleID l) (bd_RuleID r)
  else str_lt (bd_SourceRef l) (bd_SourceRef r).

(** [decisionHeap.Less(i, j)] is [betterDecision(items[j], items[i])]. *)
Definition heapLess (a b : rankedDecision) : bool := betterDecision b a.

Definition selectDecision (selected : list rankedDecision) (entry : rankedDecision)
    : list rankedDecision :=
  if (length selected <? MaxDecisions)%nat then heap_push heapLess selected entry
  else if betterDecision entry (selected !!! 0%nat) then
    heap_replace_root heapLess selected entry
  else selected.

(** A nil [Facts] map is copied to an empty one. *)
Definition normalizedCandidateFacts (candidate : Candidate) (conflicted : bool)
    : gmap string string :=
  let facts := <["source_kind" := ca_SourceKind candidate]>
                 (<["category" := ca_Category candidate]> (ca_Facts candidate)) in
  if conflicted then <["conflicted" := "true"]> facts else facts.

(** The body of the inner loop, up to the selection. *)
Definition rankMatch (cycle : bool) (candidate : Candidate) (candidateOrder : Z) (m : Match)
    : rankedDecision :=
  let rule := ma_Rule m in
  let risk := ru_RiskScore rule in
  let outcome := if cycle && (50 <=? risk)%Z then OutcomeBlock else ru_Outcome rule in
  mkRanked
    {| bd_Category := ru_Category rule; bd_Outcome := outcome; bd_Risk := risk;
       bd_RiskLevel := riskLevel risk; bd_Confidence := ca_Confidence candidate;
       bd_SourceRef := ca_SourceRef candidate; bd_PackID := ma_PackID m;
       bd_RuleID := ru_ID rule; bd_Version := ma_PackVersion m;
       bd_Explanation := ru_Explanation rule;
       bd_ConflictRefs := sort_strings (ca_Conflicts candidate) |}
    (authority (ca_SourceKind candidate)) candidateOrder.

Definition has_cycle (resolution : Resolution) : bool :=
  match re_Cycle resolution with [] => false | _ => true end.

Definition is_conflicted (resolution : Resolution) (candidate : Candidate) : bool :=
  default false (re_Conflicted resolution !! ca_ID candidate).

(** The loop over the candidates. *)
Fixpoint evaluateCandidates (packs extensions : list Pack) (resolution : Resolution)
    (candidates : list Candidate) (candidateOrder : Z) (selected : list rankedDecision)
    : result StableError (list rankedDecision) :=
  match candidates with
  | [] => Ok selected
  | candidate :: rest =>
      let facts := normalizedCandidateFacts candidate (is_conflicted resolution candidate) in
      let! matches := Evaluate packs facts in
      let! extensionMatches := Evaluate extensions facts in
      evaluateCandidates packs extensions resolution rest (candidateOrder + 1)
        (foldl (fun selected m =>
                  selectDecision selected
                    (rankMatch (has_cycle resolution) candidate candidateOrder m))
           selected (matches ++ extensionMatches))
  end.

Definition decision_less (left right : BoundaryDecision) : bool :=
  if negb (bd_PackID left =s bd_PackID right) then str_lt (bd_PackID left) (bd_PackID right)
  else if negb (bd_RuleID left =s bd_RuleID right) then str_lt (bd_RuleID left) (bd_RuleID right)
  else str_lt (bd_SourceRef left) (bd_SourceRef right).

Definition duplicates_builtin (packs extensions : list Pack) : bool :=
  let builtinIDs : gset string := list_to_set (pack_key <$> packs) in
  existsb (fun pack => bool_decide (pack_key pack ∈ builtinIDs)) extensions.

Definition EvaluateContext (discovered : Context) (extensions : list Pack)
    : result StableError (list BoundaryDecision) :=
  let! packs := Load in
  check! ValidateExtensions extensions in
  if duplicates_builtin packs extensions then
    Err (invalid "extension pack duplicates built-in identity" "policy_pack")
  else
    let resolution := BoundaryResolve.Resolve (cx_Candidates discovered) in
    let! selected := evaluateCandidates packs extensions resolution
                       (re_Candidates resolution) 0 [] in
    Ok (go_sort decision_less (rd_decision <$> selected)).

(** ** The two orders *)

#[export] Instance betterDecision_strict_weak : StrictWeak betterDecision.
Proof.
  unfold betterDecision. cbv zeta.
  apply strict_weak_lex_ne; [apply Z_eqb_same_flip|apply Z_gtb_on_strict_weak|].
  apply (strict_weak_lex_ne
    (fun a b => outcomePriority (bd_Outcome (rd_decision a)) =?
                outcomePriority (bd_Outcome (rd_decision b)))%Z).
  { intros a b. apply (Z_eqb_same_flip (fun x => outcomePriority (bd_Outcome (rd_decision x)))). }
  { apply (Z_gtb_on_strict_weak (fun x => outcomePriority (bd_Outcome (rd_decision x)))). }
  apply (strict_weak_lex_ne
    (fun a b => bd_Risk (rd_decision a) =? bd_Risk (rd_decision b))%Z).
  { intros a b. apply (Z_eqb_same_flip (fun x => bd_Risk (rd_decision x))). }
  { apply (Z_gtb_on_strict_weak (fun x => bd_Risk (rd_decision x))). }
  apply strict_weak_lex_ne; [apply Z_eqb_same|apply Z_ltb_on_strict_weak|].
  apply (strict_weak_lex_ne
    (fun a b => bd_PackID (rd_decision a) =s bd_PackID (rd_decision b))).
  { intros a b. apply (str_eqb_same (fun x => bd_PackID (rd_decision x))). }
  { apply (str_lt_on_strict_weak (fun x => bd_PackID (rd_decision x))). }
  apply (strict_weak_lex_ne
    (fun a b => bd_RuleID (rd_decision a) =s bd_RuleID (rd_decision b))).
  { intros a b. apply (str_eqb_same (fun x => bd_RuleID (rd_decision x))). }
  { apply (str_lt_on_strict_weak (fun x => bd_RuleID (rd_decision x))). }
  apply (str_lt_on_strict_weak (fun x => bd_SourceRef (rd_decision x))).
Qed.

#[export] Instance decision_less_strict_weak : StrictWeak decision_less.
Proof.
  apply strict_weak_lex_ne; [apply str_eqb_same|apply str_lt_on_strict_weak|].
  apply strict_weak_lex_ne; [apply str_eqb_same|apply str_lt_on_strict_weak|].
  apply str_lt_on_strict_weak.
Qed.

Lemma betterDecision_tie a b :
  not_after betterDecision a b -> not_after betterDecision b a ->
  rd_candidateOrder a = rd_candidateOrder b /\
  bd_PackID (rd_decision a) = bd_PackID (rd_decision b) /\
  bd_RuleID (rd_decision a) = bd_RuleID (rd_decision b).
Proof.
  unfold not_after, betterDecision. cbv zeta. intros H1 H2.
  do 6 lex_tie H1 H2. done.
Qed.

(** ** The specification: every match, ranked *)

Definition candidate_facts (resolution : Resolution) (c : Candidate) : gmap string string :=
  normalizedCandidateFacts c (is_conflicted resolution c).

(** The matches of one candidate, built-in packs first. *)
Definition context_matches (extensions : list Pack) (facts : gmap string string) : list Match :=
  go_sort match_less (orderedFiles ≫= pack_matches facts) ++
  go_sort match_less (extensions ≫= pack_matches facts).

Fixpoint ranked_from (extensions : list Pack) (resolution : Resolution)
    (candidates : list Candidate) (order : Z) : list rankedDecision :=
  match candidates with
  | [] => []
  | c :: rest =>
      (rankMatch (has_cycle resolution) c order <$>
         context_matches extensions (candidate_facts resolution c)) ++
      ranked_from extensions resolution rest (order + 1)
  end.

(** All the ranked matches of a context. *)
Definition all_ranked (discovered : Context) (extensions : list Pack) : list rankedDecision :=
  let resolution := BoundaryResolve.Resolve (cx_Candidates discovered) in
  ranked_from extensions resolution (re_Candidates resolution) 0.

Lemma selectDecision_keep_best : selectDecision = keep_best betterDecision MaxDecisions.
Proof. reflexivity. Qed.

Lemma evaluateCandidates_ranked extensions resolution candidates order selected :
  ValidateSet extensions = None ->
  evaluateCandidates orderedFiles extensions resolution candidates order selected =
  Ok (foldl selectDecision selected (ranked_from extensions resolution candidates order)).
Proof.
  intros Hext. revert order selected.
  induction candidates as [|c rest IH]; intros order selected; cbn [evaluateCandidates ranked_from].
  { done. }
  rewrite Evaluate_builtin. unfold Evaluate. rewrite Hext, IH, (foldl_app selectDecision).
  by rewrite (foldl_fmap selectDecision).
Qed.

Lemma elem_of_context_matches extensions facts m :
  m ∈ context_matches extensions facts <->
  m ∈ (orderedFiles ++ extensions) ≫= pack_matches facts.
Proof.
  unfold context_matches. by rewrite elem_of_app, !elem_of_go_sort, bind_app, elem_of_app.
Qed.

Lemma elem_of_ranked_from extensions resolution candidates order r :
  r ∈ ranked_from extensions resolution candidates order <->
  exists i c m, candidates !! i = Some c /\
    m ∈ (orderedFiles ++ extensions) ≫= pack_matches (candidate_facts resolution c) /\
    r = rankMatch (has_cycle resolution) c (order + Z.of_nat i) m.
Proof.
  revert order. induction candidates as [|c rest IH]; intros order; cbn [ranked_from].
  { split; [by intros ?%not_elem_of_nil|]. by intros (i & c & m & Hc & _). }
  rewrite elem_of_app, IH, list_elem_of_fmap. setoid_rewrite elem_of_context_matches. split.
  - intros [(m & -> & Hm)|(i & c' & m & Hc & Hm & ->)].
    + exists 0%nat, c, m. rewrite Z.add_0_r. done.
    + exists (S i), c', m. split_and!; [done..|]. f_equal. lia.
  - intros ([|i] & c' & m & Hc & Hm & ->); cbn in Hc; simplify_eq.
    + left. exists m. by rewrite Z.add_0_r.
    + right. exists i, c', m. split_and!; [done..|]. f_equal. lia.
Qed.

(** ** Theorems *)

Lemma duplicates_builtin_false extensions :
  duplicates_builtin orderedFiles extensions = false -> ValidateSet extensions = None ->
  Forall pack_wf (orderedFiles ++ extensions) /\ NoDup (pk_ID <$> orderedFiles ++ extensions).
Proof.
  intros Hd [Hw HN]%ValidateSet_wf.
  destruct (ValidateSet_wf _ ValidateSet_orderedFiles) as [Hw0 HN0].
  assert (Forall pack_wf (orderedFiles ++ extensions)) as Hall by (by apply Forall_app).
  split; [done|]. rewrite fmap_app. apply NoDup_app. split_and!; [done| |done].
  intros id (p & -> & Hp)%list_elem_of_fmap (q & Hid & Hq)%list_elem_of_fmap.
  apply not_true_iff_false in Hd. apply Hd, existsb_spec, Exists_exists.
  exists q. split; [done|]. apply bool_decide_eq_true, elem_of_list_to_set, list_elem_of_fmap.
  exists p. split; [|done]. unfold pack_key. rewrite Forall_forall in Hall.
  rewrite Hid, (pw_version p), (pw_version q); [done|apply Hall, elem_of_app; auto..].
Qed.

(** Two ranked matches of equal rank are the same match. *)
Lemma ranked_ties extensions resolution candidates order a b :
  duplicates_builtin orderedFiles extensions = false -> ValidateSet extensions = None ->
  a ∈ ranked_from extensions resolution candidates order ->
  b ∈ ranked_from extensions resolution candidates order ->
  not_after betterDecision a b -> not_after betterDecision b a -> a = b.
Proof.
  intros Hd Hv (i & c & m & Hc & Hm & ->)%elem_of_ranked_from
    (j & c' & m' & Hc' & Hm' & ->)%elem_of_ranked_from H1 H2.
  destruct (betterDecision_tie _ _ H1 H2) as (Ho & Hp & Hr).
  cbn [rankMatch rd_candidateOrder rd_decision bd_PackID bd_RuleID] in Ho, Hp, Hr.
  assert (i = j) as -> by lia. simplify_eq. f_equal.
  destruct (duplicates_builtin_false _ Hd Hv). by eapply matches_keyed.
Qed.

(** When [EvaluateContext] succeeds, and with which decisions. *)
Lemma EvaluateContext_Ok discovered extensions ds :
  EvaluateContext discovered extensions = Ok ds <->
  ValidateExtensions extensions = None /\
  duplicates_builtin orderedFiles extensions = false /\
  ds = go_sort decision_less (rd_decision <$>
         foldl selectDecision [] (all_ranked discovered extensions)).
Proof.
  unfold EvaluateContext. rewrite Load_ok.
  destruct (ValidateExtensions extensions) eqn:Hv; [naive_solver|].
  destruct (duplicates_builtin _ _) eqn:Hd; [naive_solver|].
  rewrite evaluateCandidates_ranked.
  - unfold all_ranked. naive_solver.
  - unfold ValidateExtensions in Hv. by repeat case_hyp Hv.
Qed.

Lemma ValidateExtensions_set extensions :
  ValidateExtensions extensions = None -> ValidateSet extensions = None.
Proof. unfold ValidateExtensions. intros H. by repeat case_hyp H. Qed.

(** C32: [EvaluateContext] returns, ordered by pack, rule and source, exactly the
    decisions of the 256 best ranked matches of all packs on all candidates: the
    heap never loses a better decision to a worse one. *)
Theorem EvaluateContext_exact (discovered : Context) (extensions : list Pack)
    (ds : list BoundaryDecision) :
  EvaluateContext discovered extensions = Ok ds ->
  ds ≡ₚ rd_decision <$> take MaxDecisions (go_sort betterDecision (all_ranked discovered extensions)) /\
  StronglySorted (not_after decision_less) ds /\
  (length ds = Nat.min MaxDecisions (length (all_ranked discovered extensions)))%nat.
Proof.
  intros (Hv & Hd & ->)%EvaluateContext_Ok. apply ValidateExtensions_set in Hv.
  assert (rd_decision <$> foldl selectDecision [] (all_ranked discovered extensions) ≡ₚ
    rd_decision <$> take MaxDecisions (go_sort betterDecision (all_ranked discovered extensions)))
    as HP.
  { apply fmap_Permutation. rewrite selectDecision_keep_best. apply keep_best_take.
    - apply _.
    - unfold MaxDecisions. lia.
    - intros a b Ha Hb. unfold all_ranked in *. by eapply ranked_ties. }
  split_and!.
  - by rewrite go_sort_perm.
  - apply go_sort_sorted, _.
  - by rewrite go_sort_perm, HP, length_fmap, length_take, length_go_sort.
Qed.

Lemma decision_justified (discovered : Context) (extensions : list Pack)
    (ds : list BoundaryDecision) (d : BoundaryDecision) :
  EvaluateContext discovered extensions = Ok ds -> d ∈ ds ->
  exists c p rule,
    c ∈ cx_Candidates discovered /\ p ∈ orderedFiles ++ extensions /\ rule ∈ pk_Rules p /\
    matchesAll (ru_Conditions rule)
      (candidate_facts (BoundaryResolve.Resolve (cx_Candidates discovered)) c) = true /\
    bd_PackID d = pk_ID p /\ bd_RuleID d = ru_ID rule /\ bd_SourceRef d = ca_SourceRef c /\
    bd_Risk d = ru_RiskScore rule /\
    bd_Outcome d =
      (if bool_decide (re_Cycle (BoundaryResolve.Resolve (cx_Candidates discovered)) <> []) &&
          (50 <=? ru_RiskScore rule)%Z
       then OutcomeBlock else ru_Outcome rule).
Proof.
  intros (Hv & Hd & ->)%EvaluateContext_Ok. rewrite elem_of_go_sort.
  intros (r & -> & Hr)%list_elem_of_fmap.
  assert (r ∈ all_ranked discovered extensions) as Hall.
  { destruct (keep_best_all betterDecision MaxDecisions ltac:(unfold MaxDecisions; lia)
      (all_ranked discovered extensions)) as (_ & _ & dropped & HP & _).
    rewrite HP. apply elem_of_app. by left. }
  apply elem_of_ranked_from in Hall as (i & c & m & Hc & Hm & ->).
  apply list_elem_of_bind in Hm as (p & Hm & Hp).
  apply elem_of_pack_matches in Hm as (rule & Hrule & Hmatch & ->).
  exists c, p, rule. apply list_elem_of_lookup_2, elem_of_go_sort in Hc.
  split_and!; try done. cbn [rankMatch rd_decision bd_Outcome ma_Rule].
  unfold has_cycle. by destruct (re_Cycle _).
Qed.

(** Every decision returned is justified: it names a rule of a built-in or
    extension pack whose conditions hold of a candidate of the context, carries that
    rule's risk and that candidate's source, and keeps the rule's outcome unless the
    conflict references contain a cycle and the risk is high, when it is "block". *)
Theorem EvaluateContext_justified (discovered : Context) (extensions : list Pack)
    (ds : list BoundaryDecision) (d : BoundaryDecision) :
  EvaluateContext discovered extensions = Ok ds -> d ∈ ds ->
  exists c p rule,
    c ∈ cx_Candidates discovered /\ p ∈ orderedFiles ++ extensions /\ rule ∈ pk_Rules p /\
    matchesAll (ru_Conditions rule)
      (candidate_facts (BoundaryResolve.Resolve (cx_Candidates discovered)) c) = true /\
    bd_PackID d = pk_ID p /\ bd_RuleID d = ru_ID rule /\ bd_SourceRef d = ca_SourceRef c /\
    bd_Risk d = ru_RiskScore rule /\
    bd_Outcome d =
      (if bool_decide (re_Cycle (BoundaryResolve.Resolve (cx_Candidates discovered)) <> []) &&
          (50 <=? ru_RiskScore rule)%Z
       then OutcomeBlock else ru_Outcome rule).
Proof. apply decision_justified. Qed.

(** [EvaluateContext] never fails on the context: it succeeds exactly when the
    extension packs are valid extensions and none reuses a built-in identity. *)
Theorem EvaluateContext_total (discovered : Context) (extensions : list Pack) :
  is_ok (EvaluateContext discovered extensions) = true <->
  ValidateExtensions extensions = None /\
  forall p q, p ∈ extensions -> q ∈ orderedFiles -> pk_ID p <> pk_ID q.
Proof.
  assert (ValidateExtensions extensions = None ->
    duplicates_builtin orderedFiles extensions = false <->
    forall p q, p ∈ extensions -> q ∈ orderedFiles -> pk_ID p <> pk_ID q) as Hdup.
  { intros Hv%ValidateExtensions_set. split.
    - intros Hd p q Hp Hq Hid. destruct (duplicates_builtin_false _ Hd Hv) as [_ HN].
      rewrite fmap_app in HN. apply NoDup_app in HN as (_ & HN & _).
      apply (HN (pk_ID q)); [by apply list_elem_of_fmap_2|].
      rewrite <- Hid. by apply list_elem_of_fmap_2.
    - intros Hne. apply not_true_iff_false. unfold duplicates_builtin.
      rewrite existsb_spec, Exists_exists. intros (p & Hp & Hk%bool_decide_eq_true).
      apply elem_of_list_to_set, list_elem_of_fmap in Hk as (q & Hk & Hq).
      apply (Hne p q Hp Hq), pack_key_inj; [|done].
      destruct (ValidateSet_wf _ Hv) as [Hw _].
      destruct (ValidateSet_wf _ ValidateSet_orderedFiles) as [Hw0 _].
      rewrite Forall_forall in Hw, Hw0. by rewrite (pw_version p), (pw_version q) by auto. }
  split.
  - destruct (EvaluateContext discovered extensions) as [ds|] eqn:E; [|done]. intros _.
    apply EvaluateContext_Ok in E as (Hv & Hd & _). split; [done|]. by apply Hdup.
  - intros [Hv Hne]. apply Hdup in Hne; [|done].
    destruct (EvaluateContext discovered extensions) as [ds|e] eqn:E; [done|].
    exfalso. assert (EvaluateContext discovered extensions = Ok _) as H
      by (apply EvaluateContext_Ok; split_and!; [done..|reflexivity]).
    congruence.
Qed.

(** For candidates with distinct identifiers the decisions do not depend on
    the order in which the candidates were discovered. *)
Theorem EvaluateContext_order_independent (discovered discovered' : Context)
    (extensions : list Pack) :
  Forall confident (cx_Candidates discovered) ->
  NoDup (ca_ID <$> cx_Candidates discovered) ->
  cx_Candidates discovered' ≡ₚ cx_Candidates discovered ->
  EvaluateContext discovered' extensions = EvaluateContext discovered extensions.
Proof.
  intros Hc HN HP. unfold EvaluateContext.
  by rewrite (Resolve_perm _ (cx_Candidates discovered')) by done.
Qed.

(** End to end, discovery makes conflicts mutual, so as soon as one candidate
    of a discovered context has a conflict, every decision of high or critical risk
    is "block", whatever the rule says. *)
Theorem discovered_conflict_blocks (ctxErr : Z -> bool) (reader : Reader) (scopes : list string)
    (ctx : Context) (extensions : list Pack) (ds : list BoundaryDecision) (c : Candidate) :
  (Z.of_nat (length scopes) < 2 ^ 62)%Z ->
  Discover ctxErr reader scopes = Ok ctx -> EvaluateContext ctx extensions = Ok ds ->
  c ∈ cx_Candidates ctx -> ca_Conflicts c <> [] ->
  Forall (fun d => (50 <= bd_Risk d)%Z -> bd_Outcome d = OutcomeBlock) ds.
Proof.
  intros Hlen Hd He Hc Hne. destruct (Discover_context_wf _ _ _ _ Hlen Hd) as [_ _ HN _ _ _ Hsym].
  pose proof (mutual_conflict_cycle _ _ HN Hsym Hc Hne) as Hcycle.
  apply Forall_forall. intros d Hin Hrisk.
  destruct (decision_justified _ _ _ d He Hin) as (c' & p & rule & _ & _ & _ & _ & _ & _ & _ & Hr & ->).
  rewrite (bool_decide_eq_true_2 _ Hcycle). cbn [andb]. rewrite Hr in Hrisk.
  by rewrite (proj2 (Z.leb_le _ _) Hrisk).
Qed.

(** ** Witnesses *)

Definition sample_context : Context := mkContext sample_candidates 12 1.

Definition sample_decisions : list BoundaryDecision :=
  match EvaluateContext sample_context [sample_pack] with Ok ds => ds | Err _ => [] end.

(** The mutual reference of scope and non-goal blocks every high-risk match. *)
Lemma sample_decisions_eq :
  EvaluateContext sample_context [sample_pack] = Ok sample_decisions.
Proof. vm_compute. reflexivity. Qed.

Lemma EvaluateContext_exact_witness :
  EvaluateContext sample_context [sample_pack] = Ok sample_decisions /\
  (fun d => (bd_RuleID d, bd_Outcome d)) <$> sample_decisions =
    [("non-goal.discovered", "warn"); ("non-goal.enforced", "block");
     ("repository.detected", "continue")] /\
  StronglySorted (not_after decision_less) sample_decisions.
Proof.
  split; [exact sample_decisions_eq|]. split; [vm_compute; reflexivity|].
  exact (proj1 (proj2 (EvaluateContext_exact _ _ _ sample_decisions_eq))).
Defined.

Lemma EvaluateContext_justified_witness :
  exists d, d ∈ sample_decisions /\ exists c : Candidate,
    c ∈ cx_Candidates sample_context /\ bd_SourceRef d = ca_SourceRef c.
Proof.
  destruct sample_decisions as [|d ds] eqn:E; [vm_compute in E; discriminate|].
  exists d. assert (d ∈ sample_decisions) as Hd by (rewrite E; left).
  split; [left|].
  destruct (EvaluateContext_justified _ _ _ d sample_decisions_eq Hd)
    as (c & p & rule & Hc & _ & _ & _ & _ & _ & Hs & _).
  exists c. split; [exact Hc|exact Hs].
Defined.

Lemma EvaluateContext_order_independent_witness :
  EvaluateContext (mkContext (rev sample_candidates) 12 1) [sample_pack] =
  EvaluateContext sample_context [sample_pack].
Proof.
  apply (EvaluateContext_order_independent sample_context (mkContext (rev sample_candidates) 12 1)
    [sample_pack] (proj1 sample_candidates_ok) (proj2 sample_candidates_ok)).
  symmetry. apply Permutation_rev.
Defined.

Lemma discovered_conflict_blocks_witness :
  exists ds, EvaluateContext sample_discovered [sample_pack] = Ok ds /\ ds <> [] /\
    Forall (fun d => (50 <= bd_Risk d)%Z -> bd_Outcome d = OutcomeBlock) ds.
Proof.
  destruct (EvaluateContext sample_discovered [sample_pack]) as [ds|e] eqn:E;
    [|vm_compute in E; discriminate].
  exists ds. split; [reflexivity|]. split.
  { intros ->. vm_compute in E. discriminate. }
  destruct (cx_Candidates sample_discovered !! 1%nat) as [c|] eqn:Ec;
    [|vm_compute in Ec; discriminate].
  refine (discovered_conflict_blocks (fun _ => false) sample_reader
    ["internal\store"; "./internal/x/../store"] sample_discovered [sample_pack] ds c _ _ E _ _).
  - vm_compute. reflexivity.
  - vm_compute. reflexivity.
  - by eapply list_elem_of_lookup_2.
  - intros Hn. vm_compute in Ec. injection Ec as <-. vm_compute in Hn. discriminate.
Defined.
