(* ===== verification/GoFmt.v ===== *)
(** * Formatting of the Go standard library

    [%.6g] of a float64, the layout [2006-01-02T15:04:05Z] of a UTC time, the string
    encoding of encoding/json, [strings.ToValidUTF8] and replacers of single bytes. *)
From S2P Require Import Prelude GoString GoFloat Utf8.
From Stdlib Require Import Ascii.

(** ** Concatenation of the parts of a format *)
Definition cat (parts : list string) : string := str_concat parts.

(** ** [%.6g]

    A finite float is [num / den]; [dec_point] is the number [dp] of digits before the
    decimal point ([10^(dp-1) <= num/den < 10^dp]), and the digits are the 6 leading
    ones, rounded to nearest even and stripped of their trailing zeros, as
    strconv renders them. *)
Fixpoint count_digits (fuel : nat) (n : Z) : Z :=
  match fuel with
  | O => 0
  | S f => if (n <? 10)%Z then 1 else (1 + count_digits f (n / 10))%Z
  end.

Fixpoint leading_zeros (fuel : nat) (num den : Z) : Z :=
  match fuel with
  | O => 0
  | S f => if (den <=? num * 10)%Z then 0 else (1 + leading_zeros f (num * 10) den)%Z
  end.

(** 400 steps cover the exponents of float64, from 10^-324 to 10^308. *)
Definition dec_point (num den : Z) : Z :=
  if (den <=? num)%Z then count_digits 400 (num / den) else (- leading_zeros 400 num den)%Z.

Definition round_half_even (num den : Z) : Z :=
  let q := (num / den)%Z in
  let r := (num mod den)%Z in
  if (2 * r <? den)%Z then q
  else if (den <? 2 * r)%Z then (q + 1)%Z
  else if Z.even q then q else (q + 1)%Z.

(** The six digits as an integer, and the decimal point. *)
Definition six_digits (num den : Z) : Z * Z :=
  let dp := dec_point num den in
  let scale := (6 - dp)%Z in
  let q := if (0 <=? scale)%Z then round_half_even (num * 10 ^ scale) den
           else round_half_even num (den * 10 ^ (- scale)) in
  if (q =? 1000000)%Z then (100000%Z, (dp + 1)%Z) else (q, dp).

Definition fmt_exponent (exp : Z) : string :=
  let a := Z.abs exp in
  "e" +:+ (if (exp <? 0)%Z then "-" else "+") +:+ (if (a <? 10)%Z then "0" else "") +:+ fmt_d a.

Definition fmt_digits (digits : string) (dp : Z) : string :=
  let nd := str_len digits in
  let exp := (dp - 1)%Z in
  let eprec := if (nd <? 6)%Z && (dp <=? nd)%Z then nd else 6%Z in
  if (exp <? -4)%Z || (eprec <=? exp)%Z then
    str_take 1 digits +:+ (if (1 <? nd)%Z then "." +:+ str_drop 1 digits else "")
      +:+ fmt_exponent exp
  else if (0 <? dp)%Z then
    if (nd <=? dp)%Z then digits +:+ str_concat (replicate (Z.to_nat (dp - nd)) "0")
    else str_take (Z.to_nat dp) digits +:+ "." +:+ str_drop (Z.to_nat dp) digits
  else "0." +:+ str_concat (replicate (Z.to_nat (- dp)) "0") +:+ digits.

Definition fmt_positive (num den : Z) : string :=
  let '(q, dp) := six_digits num den in
  fmt_digits (trim_right "0" (fmt_d q)) dp.

Definition fmt_g6 (f : float64) : string :=
  match f with
  | S754_nan => "NaN"
  | S754_infinity s => if s then "-Inf" else "+Inf"
  | S754_zero s => if s then "-0" else "0"
  | S754_finite s m e =>
      (if s then "-" else "")
        +:+ (if (0 <=? e)%Z then fmt_positive (Zpos m * 2 ^ e) 1 else fmt_positive (Zpos m) (2 ^ (- e)))
  end.

Example fmt_g6_examples :
  fmt_g6 <$> [float_lit 1 2; float_of_Z 100000; float_of_Z 1000000; float_lit (-1) 3; float_lit 2 3;
              float_of_Z 123456789; float_lit 1 100000; float_lit 5 10000; float_lit 9999995 10;
              float_of_Z 12] =
  ["0.5"; "100000"; "1e+06"; "-0.333333"; "0.666667"; "1.23457e+08"; "1e-05"; "0.0005"; "1e+06"; "12"].
Proof. vm_compute. reflexivity. Qed.

(** ** The layout of times *)

(** Days since January 1, 1970 to year, month and day of the Gregorian calendar. *)
Definition civil (days : Z) : Z * Z * Z :=
  let z := (days + 719468)%Z in
  let era := (z / 146097)%Z in
  let doe := (z - era * 146097)%Z in
  let yoe := ((doe - doe / 1460 + doe / 36524 - doe / 146096) / 365)%Z in
  let doy := (doe - (365 * yoe + yoe / 4 - yoe / 100))%Z in
  let mp := ((5 * doy + 2) / 153)%Z in
  let d := (doy - (153 * mp + 2) / 5 + 1)%Z in
  let m := (if (mp <? 10)%Z then mp + 3 else mp - 9)%Z in
  let y := (yoe + era * 400 + (if (m <=? 2)%Z then 1 else 0))%Z in
  (y, m, d).

Definition pad2 (n : Z) : string := (if (n <? 10)%Z then "0" else "") +:+ fmt_d n.

Definition fmt_year (y : Z) : string :=
  if (y <? 0)%Z then "-" +:+ pad4 (fmt_d (- y)) else pad4 (fmt_d y).

Definition fmt_time (ns : Z) : string :=
  let seconds := (ns / 1000000000)%Z in
  let days := (seconds / 86400)%Z in
  let s := (seconds mod 86400)%Z in
  let '(y, m, d) := civil days in
  cat [fmt_year y; "-"; pad2 m; "-"; pad2 d; "T"; pad2 (s / 3600); ":"; pad2 (s / 60 mod 60); ":";
       pad2 (s mod 60); "Z"].

Example fmt_time_examples :
  fmt_time <$> [0; 951782400 * 1000000000; 1767225599 * 1000000000; (-62135596800) * 1000000000;
                1709164800 * 1000000000 + 5]%Z =
  ["1970-01-01T00:00:00Z"; "2000-02-29T00:00:00Z"; "2025-12-31T23:59:59Z"; "0001-01-01T00:00:00Z";
   "2024-02-29T00:00:00Z"].
Proof. vm_compute. reflexivity. Qed.

(** ** encoding/json *)

Definition hex_digit (n : Z) : string :=
  String (byte_char (if (n <? 10)%Z then 48 + n else 87 + n)) "".

Definition json_byte (r : Z) : string :=
  "\u00" +:+ hex_digit (r / 16) +:+ hex_digit (r mod 16).

(** One rune of a string, with the HTML escapes [json.Marshal] makes. *)
Definition json_chunk (ch : chunk) : string :=
  if negb (chunk_valid ch) then "\ufffd"
  else
    let r := ch.1 in
    if (r =? 34)%Z then "\" +:+ ch.2 else if (r =? 92)%Z then "\\"
    else if (r =? 8)%Z then "\b" else if (r =? 12)%Z then "\f" else if (r =? 10)%Z then "\n"
    else if (r =? 13)%Z then "\r" else if (r =? 9)%Z then "\t"
    else if (r <? 32)%Z || (r =? 60)%Z || (r =? 62)%Z || (r =? 38)%Z then json_byte r
    else if (r =? 8232)%Z then "\u2028" else if (r =? 8233)%Z then "\u2029"
    else ch.2.

Definition quote : string := String "034" "".

Definition json_string (s : string) : string :=
  quote +:+ str_concat (json_chunk <$> chunks s) +:+ quote.

Definition json_field (name value : string) : string := json_string name +:+ ":" +:+ value.
Definition json_array (values : list string) : string := "[" +:+ str_join "," values +:+ "]".
Definition json_object (fields : list string) : string := "{" +:+ str_join "," fields +:+ "}".

(** ** Texts *)

(** [strings.ToValidUTF8(s, U+FFFD)]: a run of invalid bytes is replaced once. *)
Fixpoint to_valid_go (l : list chunk) (invalid : bool) : string :=
  match l with
  | [] => ""
  | ch :: l =>
      if chunk_valid ch then ch.2 +:+ to_valid_go l false
      else (if invalid then "" else encode_rune rune_error) +:+ to_valid_go l true
  end.

Definition to_valid (s : string) : string := to_valid_go (chunks s) false.

(** [strings.NewReplacer] for old strings of one byte. *)
Definition replace_bytes (f : ascii -> string) (s : string) : string :=
  str_concat (f <$> String.list_ascii_of_string s).
