(* ===== verification/GoInt.v ===== *)
(** * Machine integers

    An unsigned 64-bit integer is a [Z] between 0 and [2^64 - 1], a signed one a
    [Z] between [-2^63] and [2^63 - 1]; the operations wrap around, as Go's do.  Big-endian
    numbers with their round trip (encoding/binary), and slices at a given length. *)
From Stdlib Require Import Ascii.
From S2P Require Export Prelude.
From S2P Require Import GoString Runes.

Definition u64_range (z : Z) : Prop := (0 <= z < 2 ^ 64)%Z.
Definition i64_range (z : Z) : Prop := (- 2 ^ 63 <= z < 2 ^ 63)%Z.

Definition u64 (z : Z) : Z := (z mod 2 ^ 64)%Z.
Definition i64 (z : Z) : Z := ((z + 2 ^ 63) mod 2 ^ 64 - 2 ^ 63)%Z.

Definition u64_add (a b : Z) : Z := u64 (a + b).
Definition u64_sub (a b : Z) : Z := u64 (a - b).
Definition i64_add (a b : Z) : Z := i64 (a + b).

Definition max_u64 : Z := (2 ^ 64 - 1)%Z.
Definition max_i64 : Z := (2 ^ 63 - 1)%Z.
Definition min_i64 : Z := (- 2 ^ 63)%Z.

Lemma u64_id z : u64_range z -> u64 z = z.
Proof. unfold u64, u64_range. intros. by apply Z.mod_small. Qed.

Lemma u64_in_range z : u64_range (u64 z).
Proof. unfold u64, u64_range. by apply Z.mod_pos_bound. Qed.

Lemma u64_u64_l a b : u64 (u64 a + b) = u64 (a + b).
Proof. unfold u64. apply Zplus_mod_idemp_l. Qed.

Lemma i64_id z : i64_range z -> i64 z = z.
Proof. unfold i64, i64_range. intros. rewrite Z.mod_small; lia. Qed.

(** ** encoding/binary *)

(** The bytes of [binary.BigEndian.PutUint64] and its like, and the number of some bytes: the most
    significant first. *)
Fixpoint big_endian (n : nat) (z : Z) : string :=
  match n with
  | O => ""
  | S n' => String (byte_char (Z.land (Z.shiftr z (8 * Z.of_nat n')) 255)) (big_endian n' z)
  end.

Definition big_endian_value (s : string) : Z :=
  foldl (fun acc c => 256 * acc + byte c)%Z 0%Z (String.list_ascii_of_string s).

Lemma big_endian_length n z : String.length (big_endian n z) = n.
Proof. induction n as [|n IH]; cbn; congruence. Qed.

Lemma land_255 y : Z.land y 255 = (y mod 256)%Z.
Proof. change 255%Z with (Z.ones 8). by rewrite Z.land_ones. Qed.

Lemma big_endian_fold n z acc :
  (0 <= z)%Z ->
  foldl (fun acc c => 256 * acc + byte c)%Z acc (String.list_ascii_of_string (big_endian n z))
  = (acc * 2 ^ (8 * Z.of_nat n) + z mod 2 ^ (8 * Z.of_nat n))%Z.
Proof.
  intros Hz. revert acc. induction n as [|n IH]; intros acc; cbn [big_endian String.list_ascii_of_string foldl].
  { cbn. rewrite Z.mod_1_r. lia. }
  rewrite IH, land_255, byte_byte_char by (apply Z.mod_pos_bound; lia). clear IH.
  replace (8 * Z.of_nat (S n))%Z with (8 * Z.of_nat n + 8)%Z by lia. set (k := (8 * Z.of_nat n)%Z).
  assert (0 <= k)%Z as Hk by lia. rewrite Z.shiftr_div_pow2 by done. rewrite Z.pow_add_r by lia. change (2 ^ 8)%Z with 256%Z.
  rewrite Z.rem_mul_r by lia. lia.
Qed.

Lemma big_endian_roundtrip n z : (0 <= z < 2 ^ (8 * Z.of_nat n))%Z -> big_endian_value (big_endian n z) = z.
Proof. intros H. unfold big_endian_value. rewrite big_endian_fold by lia. rewrite Z.mod_small; lia. Qed.

Lemma big_endian_inj n z z' :
  (0 <= z < 2 ^ (8 * Z.of_nat n))%Z -> (0 <= z' < 2 ^ (8 * Z.of_nat n))%Z ->
  big_endian n z = big_endian n z' -> z = z'.
Proof.
  intros Hz Hz' H. rewrite <- (big_endian_roundtrip n z Hz), <- (big_endian_roundtrip n z' Hz'). by rewrite H.
Qed.

Lemma big_endian_value_nonneg s : (0 <= big_endian_value s)%Z.
Proof.
  assert (forall l acc, (0 <= acc)%Z -> (0 <= foldl (fun acc c => 256 * acc + byte c)%Z acc l)%Z) as H.
  { induction l as [|c l IH]; intros acc Hacc; cbn [foldl]; [done|]. apply IH. pose proof (byte_range c). lia. }
  apply H. lia.
Qed.

(** Bytes are the number they stand for. *)
Lemma big_endian_of_value s : big_endian (String.length s) (big_endian_value s) = s.
Proof.
  assert (forall t acc, (0 <= acc)%Z ->
    let v := foldl (fun acc c => 256 * acc + byte c)%Z acc (String.list_ascii_of_string t) in
    (0 <= v)%Z /\ Z.shiftr v (8 * Z.of_nat (String.length t)) = acc /\ big_endian (String.length t) v = t) as H.
  { induction t as [|c t IH]; intros acc Hacc; cbn [String.list_ascii_of_string foldl String.length big_endian].
    { change (8 * Z.of_nat 0)%Z with 0%Z. by rewrite Z.shiftr_0_r. }
    pose proof (byte_range c) as Hc.
    destruct (IH (256 * acc + byte c)%Z ltac:(lia)) as (Hv & Hs & Hb). cbv zeta in Hv, Hs, Hb. split; [done|]. split.
    - replace (8 * Z.of_nat (S (String.length t)))%Z with (8 * Z.of_nat (String.length t) + 8)%Z by lia.
      rewrite <- Z.shiftr_shiftr, Hs, Z.shiftr_div_pow2 by lia. change (2 ^ 8)%Z with 256%Z.
      rewrite Z.mul_comm, Z.div_add_l by lia. rewrite Z.div_small by lia. lia.
    - rewrite Hs, Hb, land_255. f_equal. rewrite Z.add_comm, (Z.mul_comm 256), Z.mod_add, Z.mod_small by lia.
      unfold byte_char, byte. by rewrite N2Z.id, ascii_N_embedding. }
  apply (H s 0%Z). lia.
Qed.

(** ** Slices at a given length *)

Lemma str_take_app_length s t : str_take (String.length s) (s +:+ t) = s.
Proof. induction s as [|c s IH]; [by destruct t|]. rewrite str_app_cons. cbn. by rewrite IH. Qed.

Lemma str_drop_app_length s t : str_drop (String.length s) (s +:+ t) = t.
Proof. rewrite <- (Nat.add_0_r (String.length s)), str_drop_app. by destruct t. Qed.

Lemma str_take_exact n s t : String.length s = n -> str_take n (s +:+ t) = s.
Proof. intros <-. apply str_take_app_length. Qed.

Lemma str_drop_exact n s t : String.length s = n -> str_drop n (s +:+ t) = t.
Proof. intros <-. apply str_drop_app_length. Qed.

Lemma str_take_drop n s : str_take n s +:+ str_drop n s = s.
Proof. revert s. induction n as [|n IH]; intros [|c s]; cbn; try done. rewrite str_app_cons. by rewrite IH. Qed.
