(* ===== verification/GoHost.v ===== *)
(** * Authenticated encryption and files (crypto/cipher, os)

    An AEAD such as AES-GCM behind its interface, with what its documentation promises, and a disk
    whose operations can fail. *)
From Stdlib Require Import Ascii.
From S2P Require Import Contracts GoString GoInt.

(** ** crypto/cipher *)

(** An AEAD: the sizes of a nonce and of what [Seal] adds, and its operations on a nonce, a text and
    the data that is authenticated with it. *)
Record AEAD := mkAEAD {
  ad_NonceSize : nat;
  ad_Overhead : nat;
  ad_Seal : string -> string -> string -> string;
  ad_Open : string -> string -> string -> option string
}.

(** What AES-GCM promises: [Open] undoes [Seal] and accepts nothing else. *)
Class LawfulAEAD (a : AEAD) : Prop := {
  aead_open : forall nonce data additional, ad_Open a nonce (ad_Seal a nonce data additional) additional = Some data;
  aead_seal : forall nonce sealed additional data,
    ad_Open a nonce sealed additional = Some data -> sealed = ad_Seal a nonce data additional;
  aead_length : forall nonce data additional,
    String.length (ad_Seal a nonce data additional) = (String.length data + ad_Overhead a)%nat;
  aead_overhead : (0 < ad_Overhead a <= 64)%nat
}.

(** A toy AEAD for examples: the text in clear, and a sum of all that is authenticated. *)
Definition toy_tag (nonce data additional : string) : string :=
  big_endian 4 ((big_endian_value (nonce +:+ data +:+ additional)) mod 4294967291).

Definition toy_aead : AEAD :=
  {| ad_NonceSize := 12; ad_Overhead := 4;
     ad_Seal := fun nonce data additional => data +:+ toy_tag nonce data additional;
     ad_Open := fun nonce sealed additional =>
       let n := (String.length sealed - 4)%nat in
       let data := str_take n sealed in
       if str_drop n sealed =s toy_tag nonce data additional then Some data else None |}.

#[export] Instance toy_lawful : LawfulAEAD toy_aead.
Proof.
  assert (forall a b c, String.length (toy_tag a b c) = 4%nat) as Ht by (intros; apply big_endian_length).
  split.
  - intros nonce data additional. cbn [ad_Open ad_Seal toy_aead]. rewrite length_str_app, Ht.
    replace (String.length data + 4 - 4)%nat with (String.length data) by lia.
    by rewrite str_take_app_length, str_drop_app_length, str_eqb_refl.
  - intros nonce sealed additional data. cbn [ad_Open ad_Seal toy_aead]. destruct (_ =s _) eqn:E; [|done].
    intros [= <-]. apply str_eqb_eq in E. rewrite <- E. symmetry. apply str_take_drop.
  - intros. cbn [ad_Seal ad_Overhead toy_aead]. by rewrite length_str_app, Ht.
  - cbn. lia.
Qed.

(** ** Files *)

(** The files of a disk, and how many operations were done. *)
Record Disk := mkDisk { dk_files : gmap string string; dk_done : nat }.

(** What the program cannot know: which operation fails, what a write that fails leaves of the file
    (nothing new, or some bytes), what [rand.Reader] gives and what the clock says. *)
Record Host := mkHost {
  ho_fails : nat -> bool;
  ho_torn : nat -> option string;
  ho_random : nat -> nat -> option string;
  ho_now : nat -> Z
}.

(** The host hands out as many bytes as it was asked for. *)
Definition random_sized (h : Host) : Prop := forall n k s, ho_random h n k = Some s -> String.length s = k.

Definition File (A : Type) : Type := Disk -> A * Disk.

Definition ticked (d : Disk) : Disk := mkDisk (dk_files d) (S (dk_done d)).

Section Files.
Context (host : Host).

Inductive ReadResult := NotExist | ReadFailed | Contents (data : string).

Definition ReadFile (path : string) : File ReadResult :=
  fun d => (if ho_fails host (dk_done d) then ReadFailed
            else match dk_files d !! path with None => NotExist | Some data => Contents data end, ticked d).

(** Whether the call succeeded: directories are not modelled. *)
Definition MkdirAll : File bool := fun d => (negb (ho_fails host (dk_done d)), ticked d).

Definition WriteFile (path data : string) : File bool :=
  fun d =>
    if ho_fails host (dk_done d)
    then (false, mkDisk (match ho_torn host (dk_done d) with
                         | Some torn => <[path := torn]> (dk_files d)
                         | None => dk_files d
                         end) (S (dk_done d)))
    else (true, mkDisk (<[path := data]> (dk_files d)) (S (dk_done d))).

(** [Write] at the end of a file that is open: a write that fails may leave some bytes. *)
Definition Append (path data : string) : File bool :=
  fun d =>
    let old := default "" (dk_files d !! path) in
    if ho_fails host (dk_done d)
    then (false, mkDisk (match ho_torn host (dk_done d) with
                         | Some torn => <[path := old +:+ torn]> (dk_files d)
                         | None => dk_files d
                         end) (S (dk_done d)))
    else (true, mkDisk (<[path := old +:+ data]> (dk_files d)) (S (dk_done d))).

(** [os.OpenFile] of a new file, with [O_CREATE] and [O_EXCL]. *)
Definition CreateNew (path : string) : File bool :=
  fun d =>
    match dk_files d !! path with
    | Some _ => (false, ticked d)
    | None => if ho_fails host (dk_done d) then (false, ticked d)
              else (true, mkDisk (<[path := ""]> (dk_files d)) (S (dk_done d)))
    end.

(** A call that changes no bytes: [Sync] and [Close]. *)
Definition Quietly : File bool := fun d => (negb (ho_fails host (dk_done d)), ticked d).

Definition Rename (from to : string) : File bool :=
  fun d =>
    match dk_files d !! from with
    | Some data =>
        if ho_fails host (dk_done d) then (false, ticked d)
        else (true, mkDisk (<[to := data]> (delete from (dk_files d))) (S (dk_done d)))
    | None => (false, ticked d)
    end.

Definition Remove (path : string) : File bool :=
  fun d => if ho_fails host (dk_done d) then (false, ticked d)
           else (bool_decide (is_Some (dk_files d !! path)), mkDisk (delete path (dk_files d)) (S (dk_done d))).

Definition Random (n : nat) : File (option string) :=
  fun d => (if ho_fails host (dk_done d) then None else ho_random host (dk_done d) n, ticked d).
End Files.

(** A host on which nothing fails. *)
Definition steady : Host := mkHost (fun _ => false) (fun _ => None) (fun _ n => Some (big_endian n 7)) (fun _ => 1%Z).

Lemma steady_sized : random_sized steady.
Proof. intros n k s [= <-]. apply big_endian_length. Qed.
