(* ===== verification/KeyStore.v ===== *)
(** * Identity keys (internal/identity)

    Aliases are HMAC-SHA256 under a key of 32 bytes; the keys are kept in one file, encrypted
    under a master key.  The file is replaced as a whole, by a rename.  A call takes the mutex
    before it reads and lets go of it after it wrote, so calls run one after the other.

    Arguments: [hmac] (HMAC-SHA256), [aes.NewCipher] and [cipher.NewGCM] ([None] when they fail),
    the AEAD they make and the host with its disk ([GoHost]). *)
From Stdlib Require Import Ascii.
From S2P Require Import Contracts GoString GoInt GoHost.

Definition keySize : nat := 32.

(** ** Aliases (identity.go) *)

Section Alias.
Context (hmac : string -> string -> string).

Definition Alias (key identifier : string) : result string string :=
  if negb (String.length key =? keySize)%nat then Err "identity key must be 32 bytes"
  else if (String.length identifier =? 0)%nat then Err "private identifier is required"
  else Ok (hmac key identifier).

(** [hmac.Equal] compares lengths and bytes. *)
Definition Verify (key identifier digest : string) : bool :=
  match Alias key identifier with
  | Ok expected => expected =s digest
  | Err _ => false
  end.
End Alias.

(** ** Records (keystore.go) *)

Definition storeVersion : ascii := "001".

Inductive KeyError :=
  | ErrCancelled
  | ErrKeyNotFound
  | ErrKeyExists
  | ErrKeys (message : string).

Definition encode_record (reference key : string) : string :=
  big_endian 2 (str_len reference mod 2 ^ 16) +:+ reference +:+ key.

Definition encodeRecords (records : gmap string string) : string :=
  let keys := sort_strings (map_to_list records).*1 in
  big_endian 4 (Z.of_nat (length keys) mod 2 ^ 32)
  +:+ str_concat ((fun reference => encode_record reference (default "" (records !! reference))) <$> keys).

(** The loop: how many records are left, the data and the records so far. *)
Fixpoint decode_records (count : nat) (data : string) (records : gmap string string)
    : result KeyError (gmap string string) :=
  match count with
  | O => if (String.length data =? 0)%nat then Ok records else Err (ErrKeys "invalid encrypted key store trailing data")
  | S count =>
      if (String.length data <? 2)%nat then Err (ErrKeys "invalid encrypted key record")
      else
        let size := Z.to_nat (big_endian_value (str_take 2 data)) in
        let data := str_drop 2 data in
        if (size <? 1)%nat || (200 <? size)%nat || (String.length data <? size + keySize)%nat
        then Err (ErrKeys "invalid encrypted key record")
        else
          let reference := str_take size data in
          let data := str_drop size data in
          match records !! reference with
          | Some _ => Err (ErrKeys "duplicate encrypted key reference")
          | None => decode_records count (str_drop keySize data) (<[reference := str_take keySize data]> records)
          end
  end.

Definition decodeRecords (data : string) : result KeyError (gmap string string) :=
  if (String.length data <? 4)%nat then Err (ErrKeys "invalid encrypted key records")
  else
    let count := big_endian_value (str_take 4 data) in
    if (1000 <? count)%Z then Err (ErrKeys "encrypted key store exceeds record limit")
    else decode_records (Z.to_nat count) (str_drop 4 data) ∅.

(** ** The store *)

Record FileStore := mkFileStore { ks_path : string; ks_aead : AEAD }.

Definition NewFileStore {Block : Type} (new_cipher : string -> option Block) (new_gcm : Block -> option AEAD)
    (path masterKey : string) : result KeyError FileStore :=
  if path =s "" then Err (ErrKeys "key store path is required")
  else if negb (String.length masterKey =? keySize)%nat then Err (ErrKeys "master key must be 32 bytes")
  else match new_cipher masterKey with
       | None => Err (ErrKeys "initialize key encryption")
       | Some block => match new_gcm block with
                       | None => Err (ErrKeys "initialize authenticated encryption")
                       | Some aead => Ok (mkFileStore path aead)
                       end
       end.

(** A call: it may be cancelled before it starts, and holds the mutex until it returns. *)
Definition Kept (A : Type) : Type := Disk -> result KeyError A * Disk.

Definition version_bytes : string := String storeVersion "".

Section Store.
Context (host : Host) (s : FileStore).

Definition open_store (data : string) : result KeyError (gmap string string) :=
  let n := ad_NonceSize (ks_aead s) in
  match data with
  | EmptyString => Err (ErrKeys "invalid encrypted key store")
  | String version rest =>
      if (String.length rest <? n)%nat || negb (Ascii.eqb version storeVersion) then Err (ErrKeys "invalid encrypted key store")
      else match ad_Open (ks_aead s) (str_take n rest) (str_drop n rest) version_bytes with
           | None => Err (ErrKeys "decrypt key store")
           | Some plaintext => decodeRecords plaintext
           end
  end.

Definition read : Kept (gmap string string) :=
  fun d =>
    match ReadFile host (ks_path s) d with
    | (NotExist, d) => (Ok ∅, d)
    | (ReadFailed, d) => (Err (ErrKeys "read encrypted key store"), d)
    | (Contents data, d) => (open_store data, d)
    end.

Definition seal_store (records : gmap string string) (nonce : string) : string :=
  version_bytes +:+ nonce +:+ ad_Seal (ks_aead s) nonce (encodeRecords records) version_bytes.

Definition temporary : string := ks_path s +:+ ".tmp".

Definition write (records : gmap string string) : Kept unit :=
  fun d =>
    match Random host (ad_NonceSize (ks_aead s)) d with
    | (None, d) => (Err (ErrKeys "create key store nonce"), d)
    | (Some nonce, d) =>
        let '(ok, d) := MkdirAll host d in
        if negb ok then (Err (ErrKeys "create key store directory"), d)
        else
          let '(ok, d) := WriteFile host temporary (seal_store records nonce) d in
          if negb ok then (Err (ErrKeys "write encrypted key store"), d)
          else
            let '(ok, d) := Rename host temporary (ks_path s) d in
            if negb ok then let '(_, d) := Remove host temporary d in (Err (ErrKeys "replace encrypted key store"), d)
            else (Ok tt, d)
    end.

Definition Put (cancelled : bool) (reference key : string) : Kept unit :=
  fun d =>
    if cancelled then (Err ErrCancelled, d)
    else if (reference =s "") || (200 <? String.length reference)%nat || negb (String.length key =? keySize)%nat
    then (Err (ErrKeys "invalid identity key record"), d)
    else match read d with
         | (Err e, d) => (Err e, d)
         | (Ok records, d) =>
             match records !! reference with
             | Some _ => (Err ErrKeyExists, d)
             | None => write (<[reference := key]> records) d
             end
         end.

Definition Get (cancelled : bool) (reference : string) : Kept string :=
  fun d =>
    if cancelled then (Err ErrCancelled, d)
    else match read d with
         | (Err e, d) => (Err e, d)
         | (Ok records, d) => match records !! reference with
                              | Some key => (Ok key, d)
                              | None => (Err ErrKeyNotFound, d)
                              end
         end.

Definition Delete (cancelled : bool) (reference : string) : Kept unit :=
  fun d =>
    if cancelled then (Err ErrCancelled, d)
    else match read d with
         | (Err e, d) => (Err e, d)
         | (Ok records, d) => match records !! reference with
                              | Some _ => write (delete reference records) d
                              | None => (Err ErrKeyNotFound, d)
                              end
         end.
End Store.

(** ** Records round trip *)

(** What [Put] lets in. *)
Definition record_wf (reference key : string) : Prop :=
  (1 <= String.length reference <= 200)%nat /\ String.length key = keySize.

Definition records_wf (records : gmap string string) : Prop := map_Forall record_wf records.

Lemma decode_record count reference key rest records :
  record_wf reference key -> records !! reference = None ->
  decode_records (S count) (encode_record reference key +:+ rest) records = decode_records count rest (<[reference := key]> records).
Proof.
  intros [[H1 H2] H3] Hn. cbn [decode_records]. unfold encode_record, str_len.
  rewrite Z.mod_small by lia. rewrite !str_app_assoc.
  rewrite length_str_app, big_endian_length. rewrite (proj2 (Nat.ltb_ge _ _)) by lia.
  rewrite str_take_exact, str_drop_exact by apply big_endian_length.
  rewrite big_endian_roundtrip, Nat2Z.id by (cbn; lia). rewrite str_take_app_length, str_drop_app_length, Hn, !length_str_app, H3.
  rewrite !(proj2 (Nat.ltb_ge _ _)) by lia. cbn [orb]. by rewrite str_take_exact, str_drop_exact.
Qed.

(** The records of some keys, added one by one. *)
Definition add_keys (source : gmap string string) (keys : list string) (records : gmap string string) : gmap string string :=
  foldl (fun m k => <[k := default "" (source !! k)]> m) records keys.

Lemma decode_encoded source keys records :
  NoDup keys -> (forall k, k ∈ keys -> records !! k = None /\ exists key, source !! k = Some key /\ record_wf k key) ->
  decode_records (length keys) (str_concat ((fun k => encode_record k (default "" (source !! k))) <$> keys)) records
  = Ok (add_keys source keys records).
Proof.
  intros HN. revert records. induction HN as [|k keys Hk _ IH]; intros records H; [done|].
  destruct (H k) as (Hn & key & Hs & Hw); [by left|]. cbn [length fmap list_fmap str_concat]. rewrite Hs. cbn [default].
  rewrite decode_record by done. unfold add_keys. cbn [foldl]. rewrite Hs. apply IH. intros k' Hk'.
  destruct (H k') as (Hn' & Hs'); [by right|]. split; [|done]. rewrite lookup_insert_ne; [done|]. by intros ->.
Qed.

Lemma add_keys_all source : add_keys source (sort_strings (map_to_list source).*1) ∅ = source.
Proof.
  assert (forall keys records k, add_keys source keys records !! k
            = if decide (k ∈ keys) then Some (default "" (source !! k)) else records !! k) as H.
  { induction keys as [|k' keys IH]; intros records k; [done|].
    change (add_keys source (k' :: keys) records) with (add_keys source keys (<[k' := default "" (source !! k')]> records)).
    rewrite IH.
    destruct (decide (k ∈ keys)) as [Hin|Hin]; [rewrite decide_True by (by right); done|].
    destruct (decide (k = k')) as [->|Hne]; [rewrite decide_True by left; by rewrite lookup_insert_eq|].
    rewrite lookup_insert_ne by done. rewrite decide_False; [done|]. by intros [->|?]%elem_of_cons. }
  apply map_eq. intros k. rewrite H, lookup_empty. destruct (decide (k ∈ _)) as [Hk|Hk]; rewrite sort_strings_perm in Hk.
  - apply list_elem_of_fmap in Hk as ([k' key] & -> & Hin). apply elem_of_map_to_list in Hin. cbn [fst]. by rewrite Hin.
  - destruct (source !! k) as [key|] eqn:E; [|done]. destruct Hk. apply list_elem_of_fmap. exists (k, key). split; [done|].
    by apply elem_of_map_to_list.
Qed.

Lemma records_roundtrip records :
  records_wf records -> (Z.of_nat (size records) < 2 ^ 32)%Z ->
  decodeRecords (encodeRecords records)
  = if (size records <=? 1000)%nat then Ok records else Err (ErrKeys "encrypted key store exceeds record limit").
Proof.
  intros Hw Hs. unfold encodeRecords. set (keys := sort_strings (map_to_list records).*1).
  assert (length keys = size records) as Hlen by (unfold keys; rewrite sort_strings_perm, length_fmap; apply length_map_to_list).
  rewrite Hlen, Z.mod_small by lia.
  unfold decodeRecords. rewrite length_str_app, big_endian_length, (proj2 (Nat.ltb_ge _ _)) by lia.
  rewrite str_take_exact, str_drop_exact by apply big_endian_length. rewrite big_endian_roundtrip by (cbn; lia).
  destruct (size records <=? 1000)%nat eqn:E; [apply Nat.leb_le in E|apply Nat.leb_gt in E].
  2:{ by rewrite (proj2 (Z.ltb_lt _ _)) by lia. }
  rewrite (proj2 (Z.ltb_ge _ _)), Nat2Z.id, <- Hlen by lia. unfold keys. rewrite decode_encoded; [by rewrite add_keys_all| |].
  - rewrite sort_strings_perm. apply NoDup_fst_map_to_list.
  - intros k. rewrite sort_strings_perm. intros ([k' key] & -> & Hin)%list_elem_of_fmap. apply elem_of_map_to_list in Hin.
    split; [done|]. exists key. split; [done|]. by apply Hw.
Qed.

(** ** The store is a map *)

Section Holds.
Context (host : Host) (s : FileStore) `{!LawfulAEAD (ks_aead s)} (Hrandom : random_sized host).

(** The file has these records, or is not there. *)
Definition holds (d : Disk) (records : gmap string string) : Prop :=
  records_wf records /\ (Z.of_nat (size records) < 2 ^ 32)%Z
  /\ match dk_files d !! ks_path s with
     | None => records = ∅
     | Some data => exists nonce, String.length nonce = ad_NonceSize (ks_aead s) /\ data = seal_store s records nonce
     end.

(** An operation between two states of the disk failed. *)
Definition trouble (d d' : Disk) : Prop :=
  exists n, (dk_done d <= n < dk_done d')%nat /\ (ho_fails host n = true \/ exists k, ho_random host n k = None).

Lemma trouble_wider d1 d2 d1' d2' :
  (dk_done d1' <= dk_done d1)%nat -> (dk_done d2 <= dk_done d2')%nat -> trouble d1 d2 -> trouble d1' d2'.
Proof. intros H1 H2 (n & Hn & H). exists n. split; [lia|done]. Qed.

Definition too_many : KeyError := ErrKeys "encrypted key store exceeds record limit".

Lemma open_seal_store records nonce :
  String.length nonce = ad_NonceSize (ks_aead s) -> open_store s (seal_store s records nonce) = decodeRecords (encodeRecords records).
Proof.
  intros Hn.
  change (seal_store s records nonce)
    with (String storeVersion (nonce +:+ ad_Seal (ks_aead s) nonce (encodeRecords records) version_bytes)).
  cbn [open_store]. change (Ascii.eqb storeVersion storeVersion) with true.
  assert (String.length (nonce +:+ ad_Seal (ks_aead s) nonce (encodeRecords records) version_bytes) <? ad_NonceSize (ks_aead s)
          = false)%nat as -> by (apply Nat.ltb_ge; rewrite length_str_app; lia).
  cbn [orb negb]. rewrite <- Hn, str_take_app_length, str_drop_app_length. by rewrite aead_open.
Qed.

Lemma read_holds d records r d' :
  holds d records -> read host s d = (r, d') ->
  dk_files d' = dk_files d /\ dk_done d' = S (dk_done d)
  /\ (r = (if (size records <=? 1000)%nat then Ok records else Err too_many)
      \/ trouble d d' /\ r = Err (ErrKeys "read encrypted key store")).
Proof.
  intros (Hw & Hs & Hf). unfold read, ReadFile. destruct (ho_fails host (dk_done d)) eqn:E.
  { intros [= <- <-]. split; [done|]. split; [done|]. right. split; [|done]. exists (dk_done d). cbn. split; [lia|by left]. }
  destruct (dk_files d !! ks_path s) as [data|]; intros [= <- <-]; (split; [done|split; [done|left]]).
  - destruct Hf as (nonce & Hn & ->). rewrite open_seal_store by done. by apply records_roundtrip.
  - by subst.
Qed.

Lemma temporary_other : ks_path s <> temporary s.
Proof. unfold temporary. intros H. apply (f_equal String.length) in H. rewrite length_str_app in H. cbn in H. lia. Qed.

Lemma write_holds records d r d' :
  records_wf records -> (Z.of_nat (size records) < 2 ^ 32)%Z -> write host s records d = (r, d') ->
  (dk_done d <= dk_done d')%nat
  /\ (r = Ok tt /\ holds d' records
      \/ trouble d d' /\ dk_files d' !! ks_path s = dk_files d !! ks_path s /\ exists message, r = Err (ErrKeys message)).
Proof.
  intros Hw Hs. pose proof temporary_other as Hne. unfold write, Random, MkdirAll, WriteFile, Rename, Remove, ticked.
  assert (forall k (d1 : Disk) n, (dk_done d <= n < dk_done d1)%nat -> ho_fails host n = true \/ ho_random host n k = None -> trouble d d1) as HT.
  { intros k d1 n Hn H. exists n. split; [done|]. destruct H; eauto. }
  cbn [dk_done dk_files]. destruct (ho_fails host (dk_done d)) eqn:E1.
  { intros [= <- <-]. cbn. split; [lia|right]. split; [|by eauto]. apply (HT 0%nat _ (dk_done d)); [cbn; lia|by left]. }
  destruct (ho_random host (dk_done d) _) as [nonce|] eqn:Er.
  2:{ intros [= <- <-]. cbn. split; [lia|right]. split; [|by eauto]. apply (HT (ad_NonceSize (ks_aead s)) _ (dk_done d)); [cbn; lia|by right]. }
  destruct (ho_fails host (S (dk_done d))) eqn:E2; cbn [negb].
  { intros [= <- <-]. cbn. split; [lia|right]. split; [|by eauto]. apply (HT 0%nat _ (S (dk_done d))); [cbn; lia|by left]. }
  destruct (ho_fails host (S (S (dk_done d)))) eqn:E3; cbn [dk_done dk_files negb].
  { intros [= <- <-]. cbn. split; [lia|right]. split; [apply (HT 0%nat _ (S (S (dk_done d)))); [cbn; lia|by left]|]. split; [|by eauto].
    destruct (ho_torn _ _); [|done]. by rewrite lookup_insert_ne. }
  rewrite lookup_insert_eq. destruct (ho_fails host (S (S (S (dk_done d))))) eqn:E4; cbn [dk_done dk_files negb].
  - destruct (ho_fails host (S (S (S (S (dk_done d)))))) eqn:E5; intros [= <- <-]; cbn; (split; [lia|right]);
      (split; [apply (HT 0%nat _ (S (S (S (dk_done d))))); [cbn; lia|by left]|]); (split; [|by eauto]).
    + by rewrite lookup_insert_ne.
    + by rewrite lookup_delete_ne, lookup_insert_ne.
  - intros [= <- <-]. cbn. split; [lia|left]. split; [done|]. split; [done|]. split; [done|]. cbn [dk_files]. rewrite lookup_insert_eq.
    exists nonce. split; [by apply (Hrandom _ _ _ Er)|done].
Qed.

(** ** Calls *)

Inductive KeyCall := CallPut (reference key : string) | CallGet (reference : string) | CallDelete (reference : string).

(** A call of the store, with the key of [Get]. *)
Definition store_call (call : KeyCall) : Kept (option string) :=
  let quiet (m : Kept unit) d := let '(r, d) := m d in (match r with Ok _ => Ok None | Err e => Err e end, d) in
  match call with
  | CallPut reference key => quiet (Put host s false reference key)
  | CallGet reference => fun d => let '(r, d) := Get host s false reference d in (match r with Ok k => Ok (Some k) | Err e => Err e end, d)
  | CallDelete reference => quiet (Delete host s false reference)
  end.

(** The same call of a map. *)
Definition map_call (call : KeyCall) (m : gmap string string) : result KeyError (option string) * gmap string string :=
  match call with
  | CallPut reference key =>
      if (reference =s "") || (200 <? String.length reference)%nat || negb (String.length key =? keySize)%nat
      then (Err (ErrKeys "invalid identity key record"), m)
      else match m !! reference with
           | Some _ => (Err ErrKeyExists, m)
           | None => (Ok None, <[reference := key]> m)
           end
  | CallGet reference => (match m !! reference with Some key => Ok (Some key) | None => Err ErrKeyNotFound end, m)
  | CallDelete reference =>
      match m !! reference with Some _ => (Ok None, delete reference m) | None => (Err ErrKeyNotFound, m) end
  end.

Lemma valid_record reference key :
  (reference =s "") || (200 <? String.length reference)%nat || negb (String.length key =? keySize)%nat = false ->
  record_wf reference key.
Proof.
  intros [[H1 H2%Nat.ltb_ge]%orb_false_iff H3%negb_false_iff%Nat.eqb_eq]%orb_false_iff. split; [|done]. split; [|done].
  destruct reference; [done|cbn; lia].
Qed.

Lemma holds_same_file d d' records : dk_files d' !! ks_path s = dk_files d !! ks_path s -> holds d records -> holds d' records.
Proof. intros H (Hw & Hs & Hf). split; [done|]. split; [done|]. by rewrite H. Qed.

(** A call on records that were read either goes on from them or fails. *)
Lemma read_then {A} d records (k : gmap string string -> Kept A) r d' :
  holds d records -> (size records <= 1000)%nat ->
  (match read host s d with (Err e, d) => (Err e, d) | (Ok m, d) => k m d end) = (r, d') ->
  (exists d1, holds d1 records /\ (dk_done d <= dk_done d1)%nat /\ dk_files d1 = dk_files d /\ k records d1 = (r, d'))
  \/ (holds d' records /\ trouble d d' /\ exists message, r = Err (ErrKeys message)).
Proof.
  intros Hh Hs. destruct (read host s d) as [m d1] eqn:E. destruct (read_holds _ _ _ _ Hh E) as (H1 & H2 & H3).
  assert (holds d1 records) as Hh1 by (apply (holds_same_file d); [by rewrite H1|done]).
  rewrite (proj2 (Nat.leb_le _ _)) in H3 by done. destruct H3 as [-> |[Ht ->]].
  - intros Ek. left. exists d1. split_and!; [done|lia|done|done].
  - intros [= <- <-]. right. by eauto.
Qed.

(** Writing records that replace those that are held. *)
Lemma replace_holds d d0 records records' r d' :
  holds d records -> (dk_done d0 <= dk_done d)%nat -> records_wf records' -> (Z.of_nat (size records') < 2 ^ 32)%Z ->
  write host s records' d = (r, d') ->
  (r = Ok tt /\ holds d' records') \/ (holds d' records /\ trouble d0 d' /\ exists message, r = Err (ErrKeys message)).
Proof.
  intros Hh Hd Hw Hs E. destruct (write_holds _ _ _ _ Hw Hs E) as (Hle & [[-> H]|(Ht & Hf & message & ->)]); [by left|right].
  split; [by apply (holds_same_file d)|]. split; [|by eauto]. by apply (trouble_wider d d').
Qed.

End Holds.

(** What [Put] does to records that can be decoded. *)
Lemma put_effect host s {HL : LawfulAEAD (ks_aead s)} (Hrandom : random_sized host) reference key d records r d' :
  holds s d records -> (size records <= 1000)%nat -> Put host s false reference key d = (r, d') ->
  (r = Ok tt /\ holds s d' (<[reference := key]> records) /\ records !! reference = None
   /\ map_call (CallPut reference key) records = (Ok None, <[reference := key]> records))
  \/ (exists e, r = Err e /\ map_call (CallPut reference key) records = (Err e, records) /\ holds s d' records)
  \/ (trouble host d d' /\ (exists message, r = Err (ErrKeys message)) /\ holds s d' records).
Proof.
  intros Hh Hs. pose proof Hh as (Hw & _ & _). unfold Put. cbn [map_call].
  destruct (_ || _ || _) eqn:Hv; [intros [= <- <-]; right; left; by eexists|]. intros E.
  apply (read_then host s d records) in E; [|done..].
  destruct E as [(d1 & H1 & Hd & _ & E)|(H1 & H2 & message & ->)]; [|right; right; by eauto].
  destruct (records !! reference) eqn:Ho; [injection E as <- <-; right; left; by eexists|].
  apply (replace_holds host s Hrandom d1 d records) in E; [|done|done|apply map_Forall_insert_2; [by apply valid_record|done]|].
  2:{ rewrite map_size_insert_None by done. lia. }
  destruct E as [[-> H2]|(H2 & H3 & message & ->)]; [by left|right; right; by eauto].
Qed.

(** Name the result of the call the goal goes on from. *)
Ltac called r d E := match goal with |- (let '(_, _) := ?m in _) = _ -> _ => destruct m as [r d] eqn:E end.

(** C9: the encrypted store of keys is a map.  As long as it has at most a thousand keys, every call
    either returns what a map returns and leaves the file with the records of that map, whose keys
    are never overwritten, or it reports that an operation on the disk failed, which one did, and
    the file has the records it had: no failure, and no write that is torn, loses a key. *)
Theorem store_refines_map host s (HL : LawfulAEAD (ks_aead s)) (Hrandom : random_sized host) call d records r d' :
  holds s d records -> (size records <= 1000)%nat -> store_call host s call d = (r, d') ->
  exists records', holds s d' records'
    /\ ((r, records') = map_call call records
        \/ records' = records /\ trouble host d d' /\ exists message, r = Err (ErrKeys message)).
Proof.
  intros Hh Hs. pose proof Hh as (Hw & _ & _). destruct call as [reference key|reference|reference]; cbn [store_call].
  - called r0 d0 E.
    destruct (put_effect host s Hrandom _ _ _ _ _ _ Hh Hs E) as [(-> & H & _ & ->)|[(e & -> & -> & H)|(Ht & (message & ->) & H)]];
      intros [= <- <-]; [exists (<[reference := key]> records)|exists records..]; (split; [done|]); [by left|by left|right; eauto].
  - cbn [map_call]. unfold Get. called r0 d0 E.
    apply (read_then host s (A := string) d records (fun m d => match m !! reference with Some key => (Ok key, d) | None => (Err ErrKeyNotFound, d) end)) in E;
      [|done..].
    destruct E as [(d1 & H1 & Hd & _ & E)|(H1 & H2 & message & ->)]; [|intros [= <- <-]; exists records; split; [done|right; eauto]].
    destruct (records !! reference); injection E as <- <-; intros [= <- <-]; exists records; (split; [done|by left]).
  - cbn [map_call]. unfold Delete. called r0 d0 E. apply (read_then host s d records) in E; [|done..].
    destruct E as [(d1 & H1 & Hd & _ & E)|(H1 & H2 & message & ->)]; [|intros [= <- <-]; exists records; split; [done|right; eauto]].
    destruct (records !! reference) as [old|] eqn:Ho; [|injection E as <- <-; intros [= <- <-]; exists records; split; [done|by left]].
    apply (replace_holds host s Hrandom d1 d records) in E; [|done|done|by apply map_Forall_delete|].
    2:{ rewrite map_size_delete, Ho. lia. }
    destruct E as [[-> H2]|(H2 & H3 & message & ->)]; intros [= <- <-]; [exists (delete reference records)|exists records];
      (split; [done|]); [by left|right; eauto].
Qed.

(** ** A thousand keys *)

(** Calls one after the other, with what each returned. *)
Fixpoint store_calls (host : Host) (s : FileStore) (calls : list KeyCall) (d : Disk)
    : list (result KeyError (option string)) * Disk :=
  match calls with
  | [] => ([], d)
  | call :: calls =>
      let '(r, d) := store_call host s call d in
      let '(rs, d) := store_calls host s calls d in
      (r :: rs, d)
  end.

Definition is_refusal {A} (r : result KeyError A) : Prop := exists message, r = Err (ErrKeys message).

(** A store whose records cannot be decoded refuses every call and does not touch the file. *)
Lemma locked_call host s {HL : LawfulAEAD (ks_aead s)} call d records r d' :
  holds s d records -> (1000 < size records)%nat -> store_call host s call d = (r, d') ->
  is_refusal r /\ dk_files d' = dk_files d.
Proof.
  intros Hh Hs. destruct (read host s d) as [m d1] eqn:E. destruct (read_holds host s _ _ _ _ Hh E) as (H1 & _ & H3).
  rewrite (proj2 (Nat.leb_gt _ _)) in H3 by done.
  assert (exists message, m = Err (ErrKeys message)) as [message ->] by (destruct H3 as [->|[_ ->]]; eauto). clear H3.
  destruct call as [reference key|reference|reference]; cbn [store_call]; unfold Put, Get, Delete; rewrite ?E.
  - destruct (_ || _ || _); intros [= <- <-]; (split; [by eexists|done]).
  - intros [= <- <-]; (split; [by eexists|done]).
  - intros [= <- <-]; (split; [by eexists|done]).
Qed.

Lemma holds_files s d d' records : dk_files d' = dk_files d -> holds s d records -> holds s d' records.
Proof. intros H. apply holds_same_file. by rewrite H. Qed.

(** C39: [Put] counts no records, but [decodeRecords] accepts a thousand.  A thousand and first key is
    stored without an error, and from then on every call, to read or to delete any key as well, is
    refused whatever the disk does, so no sequence of calls brings back a key. *)
Theorem full_store_locks host s (HL : LawfulAEAD (ks_aead s)) (Hrandom : random_sized host) reference key d records d' calls rs d'' :
  holds s d records -> size records = 1000%nat ->
  Put host s false reference key d = (Ok tt, d') -> store_calls host s calls d' = (rs, d'') ->
  Forall is_refusal rs /\ length rs = length calls /\ dk_files d'' = dk_files d'.
Proof.
  intros Hh Hs HP.
  destruct (put_effect host s Hrandom _ _ _ _ _ _ Hh ltac:(lia) HP) as [(_ & Hh' & Hn & _)|[(e & [=] & _)|(_ & (message & [=]) & _)]].
  assert (1000 < size (<[reference := key]> records))%nat as Hlt by (rewrite map_size_insert_None, Hs by done; lia).
  clear Hs HP Hh Hn. revert rs d' d'' Hh'. induction calls as [|call calls IH]; intros rs d1 d2 Hh; cbn [store_calls].
  { intros [= <- <-]. done. }
  destruct (store_call host s call d1) as [r d3] eqn:E. destruct (locked_call host s call _ _ _ _ Hh Hlt E) as [Hr Hf].
  destruct (store_calls host s calls d3) as [rs' d4] eqn:E'. intros [= <- <-].
  destruct (IH _ _ _ (holds_files _ _ _ _ Hf Hh) E') as (H1 & H2 & H3).
  split; [by constructor|]. split; [cbn; congruence|congruence].
Qed.

(** ** Examples *)

Definition example_store : FileStore := mkFileStore "keys" toy_aead.
Definition example_key : string := big_endian 32 0.

Example store_refines_map_witness :
  let '(r, d') := store_call steady example_store (CallPut "a" example_key) (mkDisk ∅ 0) in
  exists records', holds example_store d' records'
    /\ ((r, records') = map_call (CallPut "a" example_key) ∅
        \/ records' = ∅ /\ trouble steady (mkDisk ∅ 0) d' /\ exists message, r = Err (ErrKeys message)).
Proof.
  destruct (store_call steady example_store (CallPut "a" example_key) (mkDisk ∅ 0)) as [r d'] eqn:E.
  apply (store_refines_map steady example_store toy_lawful steady_sized _ _ ∅ _ _); [|rewrite map_size_empty; lia|exact E].
  split; [apply map_Forall_empty|]. split; [done|]. done.
Defined.

Example put_then_get :
  (store_calls steady example_store [CallPut "a" example_key; CallGet "a"; CallPut "a" example_key; CallDelete "a"; CallGet "a"] (mkDisk ∅ 0)).1
  = [Ok None; Ok (Some example_key); Err ErrKeyExists; Ok None; Err ErrKeyNotFound].
Proof. vm_compute. reflexivity. Qed.

(** A store with a thousand keys. *)
Definition thousand : gmap string string := list_to_map ((fun n => (big_endian 2 n, example_key)) <$> seqZ 0 1000).
Definition full_disk : Disk := mkDisk {[ "keys" := seal_store example_store thousand (big_endian 12 1) ]} 0.

Lemma thousand_size : size thousand = 1000%nat.
Proof. vm_compute. reflexivity. Qed.

Lemma full_disk_holds : holds example_store full_disk thousand.
Proof.
  split; [|split].
  - apply (bool_decide_unpack _). vm_compute. exact I.
  - rewrite thousand_size. lia.
  - unfold full_disk. cbn [dk_files ks_path example_store]. rewrite lookup_singleton_eq. exists (big_endian 12 1). done.
Qed.

Lemma steady_quiet d d' : ~ trouble steady d d'.
Proof. intros (n & _ & [[=]|[k [=]]]). Qed.

Lemma full_disk_put : exists d', Put steady example_store false "one more" example_key full_disk = (Ok tt, d').
Proof.
  destruct (Put steady example_store false "one more" example_key full_disk) as [r d'] eqn:E. exists d'. f_equal.
  destruct (put_effect steady example_store steady_sized _ _ _ _ _ _ full_disk_holds ltac:(by rewrite thousand_size) E)
    as [(-> & _)|[(e & _ & He & _)|(Ht & _)]]; [done| |by destruct (steady_quiet _ _ Ht)].
  apply (f_equal fst) in He. cbn [map_call] in He. assert (thousand !! "one more" = None) as Hn by (vm_compute; reflexivity). rewrite Hn in He.
  assert (("one more" =s "") || (200 <? String.length "one more")%nat || negb (String.length example_key =? keySize)%nat = false)
    as Hv by (vm_compute; reflexivity).
  rewrite Hv in He. cbn [fst] in He. discriminate He.
Qed.

Example full_store_locks_witness :
  exists d', Put steady example_store false "one more" example_key full_disk = (Ok tt, d')
    /\ Forall is_refusal (store_calls steady example_store [CallGet "one more"; CallDelete "one more"] d').1.
Proof.
  destruct full_disk_put as [d' E]. exists d'. split; [exact E|].
  destruct (store_calls steady example_store [CallGet "one more"; CallDelete "one more"] d') as [rs d''] eqn:Er.
  exact (proj1 (full_store_locks steady example_store toy_lawful steady_sized _ _ _ thousand _ _ rs d''
    full_disk_holds thousand_size E Er)).
Defined.
