(* ===== verification/Backup.v ===== *)
(** * Encrypted backups (internal/recovery)

    A backup is a header, the chunks that the dump was read in, each sealed under its number, and
    an empty size.  [encrypt] and [decrypt] are the two loops, [BackupFile] and [RestoreFile] run
    them between a PostgreSQL process and a file.

    Arguments: [sha256], [aes.NewCipher] and [cipher.NewGCM] ([None] when they fail), the host with
    its disk ([GoHost]), the environment of the process, and what the processes do. *)
From Stdlib Require Import Ascii.
From S2P Require Import Contracts GoString GoInt GoHost.

Definition chunkSize : Z := Z.shiftl 1 20.
Definition magic : string := "PBDB1".
Definition max_u32 : Z := (2 ^ 32 - 1)%Z.
Definition u32 (z : Z) : Z := (z mod 2 ^ 32)%Z.

Record Toolchain := mkToolchain {
  DumpPath : string;
  DumpPrefix : list string;
  RestorePath : string;
  RestorePrefix : list string
}.

Definition DefaultToolchain : Toolchain := mkToolchain "pg_dump" [] "pg_restore" [].

Record BackupMetadata := mkBackupMetadata {
  PlaintextDigest : string;
  EncryptedDigest : string;
  PlaintextBytes : Z
}.

Definition makeNonce (prefix : string) (counter : Z) : string := str_take 8 prefix +:+ big_endian 4 counter.

Definition newAEAD {Block : Type} (new_cipher : string -> option Block) (new_gcm : Block -> option AEAD) (key : string)
    : result string AEAD :=
  if negb (String.length key =? 32)%nat then Err "backup key must be 32 bytes"
  else match new_cipher key with
       | None => Err "initialize backup encryption"
       | Some block => match new_gcm block with
                       | None => Err "initialize backup authentication"
                       | Some aead => Ok aead
                       end
       end.

(** ** Encryption *)

(** What a reader gives: some reads, then one that ends them, with the end of the file or an error. *)
Record Source := mkSource { so_reads : list string; so_last : string; so_eof : bool }.

Definition so_content (s : Source) : string := str_concat (so_reads s ++ [so_last s]).

(** A read fills at most the buffer. *)
Definition source_sized (s : Source) : Prop := Forall (fun r => str_len r <= chunkSize)%Z (so_reads s ++ [so_last s]).

(** The variables of the loop and what was hashed so far. *)
Record Encrypting := mkEncrypting {
  en_counter : Z;
  en_total : Z;
  en_plain : string;
  en_encrypted : string
}.

Section Encrypt.
Context (host : Host) (destination : string).

(** [writer.Write] of the [io.MultiWriter]: the file first, and the hash when that succeeded. *)
Definition writer_write (data : string) (st : Encrypting) : File (option Encrypting) :=
  fun d =>
    let '(ok, d) := Append host destination data d in
    (if ok then Some (mkEncrypting (en_counter st) (en_total st) (en_plain st) (en_encrypted st +:+ data)) else None, d).

(** One turn of the loop with the bytes that were read. *)
Definition encrypt_chunk (aead : AEAD) (prefix chunk : string) (st : Encrypting) : File (result string Encrypting) :=
  fun d =>
    if (0 <? str_len chunk)%Z then
      if (en_counter st =? max_u32)%Z then (Err "backup exceeds chunk limit", d)
      else
        let counter := u32 (en_counter st + 1) in
        let ciphertext := ad_Seal aead (makeNonce prefix counter) chunk (big_endian 4 counter) in
        match writer_write (big_endian 4 (u32 (str_len ciphertext))) (mkEncrypting counter (en_total st) (en_plain st) (en_encrypted st)) d with
        | (None, d) => (Err "write backup chunk size", d)
        | (Some st, d) =>
            match writer_write ciphertext st d with
            | (None, d) => (Err "write backup chunk", d)
            | (Some st, d) =>
                (Ok (mkEncrypting (en_counter st) (i64_add (en_total st) (str_len chunk)) (en_plain st +:+ chunk) (en_encrypted st)), d)
            end
        end
    else (Ok st, d).

Fixpoint encrypt_chunks (aead : AEAD) (prefix : string) (reads : list string) (st : Encrypting) : File (result string Encrypting) :=
  fun d =>
    match reads with
    | [] => (Ok st, d)
    | chunk :: reads =>
        match encrypt_chunk aead prefix chunk st d with
        | (Err e, d) => (Err e, d)
        | (Ok st, d) => encrypt_chunks aead prefix reads st d
        end
    end.

Definition encrypt (sha256 : string -> string) {Block : Type} (new_cipher : string -> option Block) (new_gcm : Block -> option AEAD)
    (source : Source) (key : string) : File (result string BackupMetadata) :=
  fun d =>
    match newAEAD new_cipher new_gcm key with
    | Err e => (Err e, d)
    | Ok aead =>
        match Random host 8 d with
        | (None, d) => (Err "create backup nonce", d)
        | (Some prefix, d) =>
            match writer_write (magic +:+ prefix) (mkEncrypting 0 0 "" "") d with
            | (None, d) => (Err "write backup header", d)
            | (Some st, d) =>
                match encrypt_chunks aead prefix (so_reads source ++ [so_last source]) st d with
                | (Err e, d) => (Err e, d)
                | (Ok st, d) =>
                    if negb (so_eof source) then (Err "read database dump", d)
                    else match writer_write (big_endian 4 0) st d with
                         | (None, d) => (Err "finish encrypted backup", d)
                         | (Some st, d) => (Ok (mkBackupMetadata (sha256 (en_plain st)) (sha256 (en_encrypted st)) (en_total st)), d)
                         end
                end
            end
        end
    end.
End Encrypt.

(** ** Decryption *)

(** What was written to a pipe, and how many writes there were. *)
Record Pipe := mkPipe { pi_received : string; pi_writes : nat }.

(** The process at the other end: a write may fail, after some bytes. *)
Record Reader := mkReader { re_fails : nat -> bool; re_torn : nat -> string }.

Definition pipe_write (reader : Reader) (data : string) (p : Pipe) : bool * Pipe :=
  if re_fails reader (pi_writes p)
  then (false, mkPipe (pi_received p +:+ re_torn reader (pi_writes p)) (S (pi_writes p)))
  else (true, mkPipe (pi_received p +:+ data) (S (pi_writes p))).

Section Decrypt.
Context (aead : AEAD) (reader : Reader).

(** The loop on what is left of the file, which ends there, or with an error of the disk when it is
    [broken].  The fuel is one more than the bytes that are left: every turn reads four. *)
Fixpoint decrypt_chunks (fuel : nat) (prefix : string) (counter : Z) (data : string) (broken : bool) (p : Pipe)
    : result string unit * Pipe :=
  match fuel with
  | O => (Err "out of fuel", p)
  | S fuel =>
      if (str_len data <? 4)%Z then (Err "read encrypted backup chunk size", p)
      else
        let length := big_endian_value (str_take 4 data) in
        let data := str_drop 4 data in
        if (length =? 0)%Z then
          if negb (str_len data =? 0)%Z || broken then (Err "encrypted backup has trailing data", p) else (Ok tt, p)
        else if (u32 (chunkSize + u32 (Z.of_nat (ad_Overhead aead))) <? length)%Z then (Err "encrypted backup chunk exceeds limit", p)
        else if (str_len data <? length)%Z then (Err "read encrypted backup chunk", p)
        else
          let ciphertext := str_take (Z.to_nat length) data in
          let data := str_drop (Z.to_nat length) data in
          let counter := u32 (counter + 1) in
          match ad_Open aead (makeNonce prefix counter) ciphertext (big_endian 4 counter) with
          | None => (Err "authenticate encrypted backup", p)
          | Some plaintext =>
              let '(ok, p) := pipe_write reader plaintext p in
              if negb ok then (Err "write database restore stream", p)
              else decrypt_chunks fuel prefix counter data broken p
          end
  end.

Definition decrypt_file (data : string) (broken : bool) (p : Pipe) : result string unit * Pipe :=
  let header := str_take 13 data in
  if (str_len data <? 13)%Z || negb (str_take 5 header =s magic) then (Err "invalid encrypted backup header", p)
  else
    let data := str_drop 13 data in
    decrypt_chunks (S (String.length data)) (str_drop 5 header) 0 data broken p.
End Decrypt.

Definition decrypt {Block : Type} (new_cipher : string -> option Block) (new_gcm : Block -> option AEAD) (reader : Reader)
    (data : string) (broken : bool) (key : string) (p : Pipe) : result string unit * Pipe :=
  match newAEAD new_cipher new_gcm key with
  | Err e => (Err e, p)
  | Ok aead => decrypt_file aead reader data broken p
  end.

(** ** Files and processes *)

Record Command := mkCommand { co_path : string; co_args : list string; co_env : list string }.

(** What running [pg_dump] does: whether the pipe opens and the process starts, what it prints and
    whether it exits with success. *)
Record DumpRun := mkDumpRun { du_pipe : bool; du_start : bool; du_stdout : Source; du_wait : bool }.

(** What running [pg_restore] does: the same, how it reads, and, with all that it was given,
    whether the pipe closes and the process exits with success. *)
Record RestoreRun := mkRestoreRun {
  rs_pipe : bool;
  rs_start : bool;
  rs_reader : Reader;
  rs_close : bool;
  rs_wait : string -> bool
}.

Section Files.
Context (sha256 : string -> string) {Block : Type} (new_cipher : string -> option Block) (new_gcm : Block -> option AEAD).
Context (host : Host) (environ : list string).

Definition dump_command (t : Toolchain) (database : string) (environment : list string) : Command :=
  mkCommand (DumpPath t) (DumpPrefix t ++ ["--format=custom"; "--no-owner"; "--no-privileges"; "--dbname=" +:+ database])
    (environ ++ environment).

Definition restore_command (t : Toolchain) (database : string) (environment : list string) : Command :=
  mkCommand (RestorePath t)
    (RestorePrefix t ++ ["--exit-on-error"; "--single-transaction"; "--no-owner"; "--no-privileges"; "--dbname=" +:+ database])
    (environ ++ environment).

(** From the pipe on, until the file is published. *)
Definition dump_into (run : DumpRun) (temporary output key : string) : File (result string BackupMetadata) :=
  fun d =>
    if negb (du_pipe run) then (Err "open database dump stream", d)
    else if negb (du_start run) then (Err "start database dump", d)
    else
      let '(r, d) := encrypt host temporary sha256 new_cipher new_gcm (du_stdout run) key d in
      match r with
      | Err e => (Err e, d)
      | Ok metadata =>
          if negb (du_wait run) then (Err "database dump failed", d)
          else
            let '(ok, d) := Quietly host d in
            if negb ok then (Err "sync encrypted backup", d)
            else
              let '(ok, d) := Quietly host d in
              if negb ok then (Err "close encrypted backup", d)
              else
                let '(ok, d) := Rename host temporary output d in
                if negb ok then (Err "publish encrypted backup", d) else (Ok metadata, d)
      end.

Definition BackupFile (dump : Command -> DumpRun) (t : Toolchain) (database output key : string) (environment : list string)
    : File (result string BackupMetadata) :=
  fun d =>
    if (database =s "") || (output =s "") || (DumpPath t =s "") then (Err "invalid backup request", d)
    else
      let '(ok, d) := MkdirAll host d in
      if negb ok then (Err "create backup directory", d)
      else
        let temporary := output +:+ ".tmp" in
        let '(ok, d) := CreateNew host temporary d in
        if negb ok then (Err "create encrypted backup", d)
        else
          let '(r, d) := dump_into (dump (dump_command t database environment)) temporary output key d in
          let '(_, d) := Quietly host d in
          match r with
          | Ok metadata => (Ok metadata, d)
          | Err e => let '(_, d) := Remove host temporary d in (Err e, d)
          end.

(** The file is opened, and read as the loop goes: [broken_at] says after how many bytes the disk
    fails, if it does. *)
Definition RestoreFile (restore : Command -> RestoreRun) (broken_at : option nat) (t : Toolchain) (database input key : string)
    (environment : list string) (d : Disk) : result string unit * Pipe :=
  let idle := mkPipe "" 0 in
  if (database =s "") || (input =s "") || (RestorePath t =s "") then (Err "invalid restore request", idle)
  else
    match ReadFile host input d with
    | (NotExist, _) | (ReadFailed, _) => (Err "open encrypted backup", idle)
    | (Contents data, _) =>
        let run := restore (restore_command t database environment) in
        if negb (rs_pipe run) then (Err "open database restore stream", idle)
        else if negb (rs_start run) then (Err "start database restore", idle)
        else
          let data := match broken_at with Some n => str_take n data | None => data end in
          let '(r, p) := decrypt new_cipher new_gcm (rs_reader run) data (bool_decide (is_Some broken_at)) key idle in
          match r with
          | Err e => (Err e, p)
          | Ok _ =>
              if negb (rs_close run) || negb (rs_wait run (pi_received p)) then (Err "database restore failed", p)
              else (Ok tt, p)
          end
    end.
End Files.

(** ** The format *)

(** Numbered chunks, the first after [counter]. *)
Fixpoint sealed_chunks (aead : AEAD) (prefix : string) (counter : Z) (chunks : list string) : string :=
  match chunks with
  | [] => ""
  | chunk :: chunks =>
      let counter := u32 (counter + 1) in
      let ciphertext := ad_Seal aead (makeNonce prefix counter) chunk (big_endian 4 counter) in
      big_endian 4 (u32 (str_len ciphertext)) +:+ ciphertext +:+ sealed_chunks aead prefix counter chunks
  end.

Definition archive (aead : AEAD) (prefix : string) (chunks : list string) : string :=
  magic +:+ prefix +:+ sealed_chunks aead prefix 0 chunks +:+ big_endian 4 0.

Definition chunks_sized (chunks : list string) : Prop := Forall (fun c => str_len c <= chunkSize)%Z chunks.

Lemma u32_id z : (0 <= z < 2 ^ 32)%Z -> u32 z = z.
Proof. intros H. unfold u32. by rewrite Z.mod_small. Qed.

Lemma chunkSize_val : chunkSize = 1048576%Z.
Proof. reflexivity. Qed.

Lemma str_take_len n s : (n <= String.length s)%nat -> String.length (str_take n s) = n.
Proof. intros H. rewrite length_str_take. lia. Qed.

Lemma seal_len aead `{!LawfulAEAD aead} nonce data additional :
  str_len (ad_Seal aead nonce data additional) = (str_len data + Z.of_nat (ad_Overhead aead))%Z.
Proof. unfold str_len. rewrite aead_length. lia. Qed.

Lemma limit_val aead `{!LawfulAEAD aead} :
  u32 (chunkSize + u32 (Z.of_nat (ad_Overhead aead))) = (chunkSize + Z.of_nat (ad_Overhead aead))%Z.
Proof. pose proof (aead_overhead (a := aead)) as H. rewrite chunkSize_val, (u32_id (Z.of_nat _)), u32_id; lia. Qed.

Section Loop.
Context (aead : AEAD) (HL : LawfulAEAD aead) (reader : Reader).

(** What the loop accepts, and what it gives to the process. *)
Lemma decrypt_chunks_sound fuel prefix counter data broken p p' :
  decrypt_chunks aead reader fuel prefix counter data broken p = (Ok tt, p') ->
  broken = false /\ exists chunks, chunks_sized chunks
    /\ data = sealed_chunks aead prefix counter chunks +:+ big_endian 4 0
    /\ pi_received p' = pi_received p +:+ str_concat chunks.
Proof.
  revert counter data p. induction fuel as [|fuel IH]; intros counter data p; cbn [decrypt_chunks]; [done|].
  destruct (str_len data <? 4)%Z eqn:E4; [done|apply Z.ltb_ge in E4].
  assert (data = big_endian 4 (big_endian_value (str_take 4 data)) +:+ str_drop 4 data) as Hd.
  { pose proof (big_endian_of_value (str_take 4 data)) as H. rewrite str_take_len in H by (unfold str_len in E4; lia).
    rewrite H. symmetry. apply str_take_drop. }
  set (len := big_endian_value (str_take 4 data)) in *. set (rest := str_drop 4 data) in *.
  destruct (len =? 0)%Z eqn:E0.
  { apply Z.eqb_eq in E0. destruct (negb (str_len rest =? 0)%Z || broken) eqn:Eb; [done|]. intros [= <-].
    apply orb_false_iff in Eb as [Hr%negb_false_iff%Z.eqb_eq ->]. split; [done|]. exists []. split; [constructor|].
    cbn [sealed_chunks str_concat foldr]. rewrite str_app_nil_r. split; [|done].
    rewrite Hd, E0. destruct rest; [by rewrite str_app_nil_r|]. unfold str_len in Hr. cbn in Hr. lia. }
  apply Z.eqb_neq in E0. destruct (_ <? len)%Z eqn:El; [done|apply Z.ltb_ge in El]. rewrite limit_val in El by done.
  destruct (str_len rest <? len)%Z eqn:Er; [done|apply Z.ltb_ge in Er].
  destruct (ad_Open _ _ _ _) as [plaintext|] eqn:Eo; [|done]. apply aead_seal in Eo.
  unfold pipe_write. destruct (re_fails reader (pi_writes p)); cbn [negb]; [done|]. intros E.
  destruct (IH _ _ _ E) as (-> & chunks & Hs & Hrest & Hp). split; [done|]. exists (plaintext :: chunks).
  cbn [pi_received] in Hp. assert (0 <= len)%Z as Hlen by (unfold len; apply big_endian_value_nonneg).
  assert (str_len (str_take (Z.to_nat len) rest) = len) as Hct by (unfold str_len in *; rewrite str_take_len; lia).
  split; [|split].
  - constructor; [|done]. rewrite Eo, seal_len in Hct by done. lia.
  - cbn [sealed_chunks]. rewrite <- Eo, Hct, u32_id by (pose proof (aead_overhead (a := aead)); rewrite chunkSize_val in El; lia).
    rewrite Hd at 1. rewrite !str_app_assoc, <- Hrest. by rewrite str_take_drop.
  - rewrite Hp. cbn [str_concat foldr]. by rewrite str_app_assoc.
Qed.

(** A process that reads all it is given is given all chunks. *)
Lemma decrypt_chunks_complete fuel prefix counter chunks p :
  (forall n, re_fails reader n = false) -> chunks_sized chunks ->
  (String.length (sealed_chunks aead prefix counter chunks +:+ big_endian 4 0) < fuel)%nat ->
  exists p', decrypt_chunks aead reader fuel prefix counter (sealed_chunks aead prefix counter chunks +:+ big_endian 4 0) false p
    = (Ok tt, p') /\ pi_received p' = pi_received p +:+ str_concat chunks.
Proof.
  intros Hf. revert fuel counter p. induction chunks as [|c chunks IH]; intros [|fuel] counter p Hs Hl; [lia| |lia|].
  { exists p. split; [reflexivity|]. by rewrite str_app_nil_r. }
  apply Forall_cons_1 in Hs as [Hc Hs]. cbn [sealed_chunks] in *. set (counter' := u32 (counter + 1)) in *.
  set (ct := ad_Seal aead (makeNonce prefix counter') c (big_endian 4 counter')) in *.
  assert (str_len ct = str_len c + Z.of_nat (ad_Overhead aead))%Z as Hct by apply seal_len, HL.
  pose proof (aead_overhead (a := aead)) as Ho. pose proof (str_len_nonneg c) as Hc0.
  assert (0 < str_len ct < 2 ^ 32)%Z as Hct' by (rewrite chunkSize_val in Hc; lia).
  rewrite u32_id in * by lia. rewrite !str_app_assoc in *. set (rest := sealed_chunks _ _ _ _ +:+ _) in *.
  rewrite !length_str_app, big_endian_length in Hl. cbn [decrypt_chunks].
  rewrite !str_len_app. assert (str_len (big_endian 4 (str_len ct)) = 4%Z) as -> by (unfold str_len; by rewrite big_endian_length).
  pose proof (str_len_nonneg rest). rewrite (proj2 (Z.ltb_ge _ 4)) by lia.
  rewrite str_take_exact, str_drop_exact, big_endian_roundtrip by (apply big_endian_length || (cbn; lia)).
  rewrite (proj2 (Z.eqb_neq _ 0)), limit_val by (done || lia). rewrite str_len_app, !(proj2 (Z.ltb_ge _ _)) by lia.
  rewrite str_take_exact, str_drop_exact by (unfold str_len; lia). fold counter'. unfold ct at 1. rewrite aead_open.
  unfold pipe_write. rewrite Hf. cbn [negb].
  destruct (IH fuel counter' (mkPipe (pi_received p +:+ c) (S (pi_writes p))) Hs ltac:(fold rest; lia)) as (p' & E & Hp).
  exists p'. split; [exact E|]. rewrite Hp. cbn [pi_received str_concat foldr]. by rewrite str_app_assoc.
Qed.
End Loop.

Lemma str_concat_app l k : str_concat (l ++ k) = str_concat l +:+ str_concat k.
Proof. induction l as [|s l IH]; [done|]. cbn [app str_concat foldr]. fold (str_concat (l ++ k)). rewrite IH. by rewrite str_app_assoc. Qed.

Lemma archive_eq aead prefix chunks :
  String.length prefix = 8%nat ->
  str_take 5 (archive aead prefix chunks) = magic
  /\ str_take 13 (archive aead prefix chunks) = magic +:+ prefix
  /\ str_drop 13 (archive aead prefix chunks) = sealed_chunks aead prefix 0 chunks +:+ big_endian 4 0.
Proof.
  intros Hp. unfold archive. split; [by rewrite str_take_exact|].
  rewrite <- (str_app_assoc magic prefix). rewrite str_take_exact, str_drop_exact by (rewrite length_str_app, Hp; done). done.
Qed.

(** What [decrypt] accepts of a file, with what it gives to a process that reads it all. *)
Lemma decrypt_file_sound aead {HL : LawfulAEAD aead} reader data broken p p' :
  decrypt_file aead reader data broken p = (Ok tt, p') ->
  broken = false /\ exists prefix chunks, String.length prefix = 8%nat /\ chunks_sized chunks
    /\ data = archive aead prefix chunks /\ pi_received p' = pi_received p +:+ str_concat chunks.
Proof.
  unfold decrypt_file. destruct (str_len data <? 13)%Z eqn:El; [done|apply Z.ltb_ge in El]. cbn [orb].
  destruct (str_take 5 _ =s magic) eqn:Em; cbn [negb]; [apply str_eqb_eq in Em|done]. intros E.
  destruct (decrypt_chunks_sound aead HL reader _ _ _ _ _ _ _ E) as (-> & chunks & Hs & Hd & Hp). split; [done|].
  assert (String.length (str_take 13 data) = 13%nat) as H13 by (apply str_take_len; unfold str_len in El; lia).
  exists (str_drop 5 (str_take 13 data)), chunks. split; [by rewrite length_str_drop, H13|]. split; [done|]. split; [|done].
  unfold archive. rewrite <- Hd, <- Em, <- str_app_assoc, !str_take_drop. done.
Qed.

Lemma decrypt_file_complete aead {HL : LawfulAEAD aead} reader prefix chunks p :
  (forall n, re_fails reader n = false) -> String.length prefix = 8%nat -> chunks_sized chunks ->
  exists p', decrypt_file aead reader (archive aead prefix chunks) false p = (Ok tt, p')
    /\ pi_received p' = pi_received p +:+ str_concat chunks.
Proof.
  intros Hf Hp Hs. destruct (archive_eq aead prefix chunks Hp) as (_ & H13 & Hd). unfold decrypt_file. rewrite H13, Hd.
  assert (str_len (archive aead prefix chunks) <? 13 = false)%Z as ->.
  { apply Z.ltb_ge. unfold archive, str_len. rewrite !length_str_app, Hp. cbn. lia. }
  rewrite str_take_exact, str_drop_exact by done. change (magic =s magic) with true. cbn [orb negb].
  apply decrypt_chunks_complete; [done..|lia].
Qed.

Lemma decrypt_file_iff aead {HL : LawfulAEAD aead} reader data broken content :
  (forall n, re_fails reader n = false) ->
  (exists p, decrypt_file aead reader data broken (mkPipe "" 0) = (Ok tt, p) /\ pi_received p = content)
  <-> broken = false /\ exists prefix chunks,
        String.length prefix = 8%nat /\ chunks_sized chunks /\ data = archive aead prefix chunks /\ content = str_concat chunks.
Proof.
  intros Hf. split.
  - intros (p & E & Hp). destruct (decrypt_file_sound aead reader _ _ _ _ E) as (-> & prefix & chunks & H1 & H2 & H3 & H4).
    split; [done|]. exists prefix, chunks. by rewrite <- Hp, H4.
  - intros (-> & prefix & chunks & H1 & H2 & -> & ->).
    exact (decrypt_file_complete aead reader prefix chunks (mkPipe "" 0) Hf H1 H2).
Qed.

(** ** What a file asks to be opened *)

(** A prefix, a number and a ciphertext: what [ad_Open] is given for a chunk. *)
Definition Piece : Type := string * Z * string.

(** The pieces of a file, read as [decrypt_chunks] and [decrypt_file] read it. *)
Fixpoint pieces (fuel : nat) (prefix : string) (counter : Z) (data : string) : list Piece :=
  match fuel with
  | O => []
  | S fuel =>
      if (str_len data <? 4)%Z then []
      else
        let length := big_endian_value (str_take 4 data) in
        let data := str_drop 4 data in
        if (length =? 0)%Z || (str_len data <? length)%Z then []
        else
          let counter := u32 (counter + 1) in
          (prefix, counter, str_take (Z.to_nat length) data)
            :: pieces fuel prefix counter (str_drop (Z.to_nat length) data)
  end.

Definition file_pieces (data : string) : list Piece :=
  let rest := str_drop 13 data in
  pieces (S (String.length rest)) (str_drop 5 (str_take 13 data)) 0 rest.

Definition piece (aead : AEAD) (prefix : string) (counter : Z) (chunk : string) : Piece :=
  (prefix, counter, ad_Seal aead (makeNonce prefix counter) chunk (big_endian 4 counter)).

Fixpoint sealed_pieces (aead : AEAD) (prefix : string) (counter : Z) (chunks : list string) : list Piece :=
  match chunks with
  | [] => []
  | chunk :: chunks =>
      let counter := u32 (counter + 1) in piece aead prefix counter chunk :: sealed_pieces aead prefix counter chunks
  end.

Section Pieces.
Context (aead : AEAD) (HL : LawfulAEAD aead).

Lemma pieces_sealed fuel prefix counter chunks :
  chunks_sized chunks -> (String.length (sealed_chunks aead prefix counter chunks +:+ big_endian 4 0) < fuel)%nat ->
  pieces fuel prefix counter (sealed_chunks aead prefix counter chunks +:+ big_endian 4 0)
  = sealed_pieces aead prefix counter chunks.
Proof.
  revert fuel counter. induction chunks as [|c chunks IH]; intros [|fuel] counter Hs Hl; [lia|reflexivity|lia|].
  apply Forall_cons_1 in Hs as [Hc Hs]. cbn [sealed_chunks sealed_pieces] in *. set (counter' := u32 (counter + 1)) in *.
  unfold piece. set (ct := ad_Seal aead (makeNonce prefix counter') c (big_endian 4 counter')) in *.
  assert (str_len ct = str_len c + Z.of_nat (ad_Overhead aead))%Z as Hct by apply seal_len, HL.
  pose proof (aead_overhead (a := aead)) as Ho. pose proof (str_len_nonneg c) as Hc0.
  assert (0 < str_len ct < 2 ^ 32)%Z as Hct' by (rewrite chunkSize_val in Hc; lia).
  rewrite u32_id in * by lia. rewrite !str_app_assoc in *. set (rest := sealed_chunks _ _ _ _ +:+ _) in *.
  rewrite !length_str_app, big_endian_length in Hl. cbn [pieces].
  rewrite !str_len_app. assert (str_len (big_endian 4 (str_len ct)) = 4%Z) as -> by (unfold str_len; by rewrite big_endian_length).
  pose proof (str_len_nonneg rest). rewrite (proj2 (Z.ltb_ge _ 4)) by lia.
  rewrite str_take_exact, str_drop_exact, big_endian_roundtrip by (apply big_endian_length || (cbn; lia)).
  rewrite (proj2 (Z.eqb_neq _ 0)) by lia. rewrite str_len_app, (proj2 (Z.ltb_ge _ _)) by lia. cbn [orb].
  rewrite str_take_exact, str_drop_exact by (unfold str_len; lia). fold counter'. f_equal. by apply IH; [|fold rest; lia].
Qed.

Lemma file_pieces_archive prefix chunks :
  String.length prefix = 8%nat -> chunks_sized chunks ->
  file_pieces (archive aead prefix chunks) = sealed_pieces aead prefix 0 chunks.
Proof.
  intros Hp Hs. destruct (archive_eq aead prefix chunks Hp) as (_ & H13 & Hd). unfold file_pieces.
  rewrite Hd, H13, str_drop_exact by done. apply pieces_sealed; [done|lia].
Qed.

(** The pieces of no more chunks than there are numbers. *)
Lemma elem_of_sealed_pieces prefix counter chunks x :
  (0 <= counter)%Z -> (counter + Z.of_nat (length chunks) <= max_u32)%Z ->
  x ∈ sealed_pieces aead prefix counter chunks
  <-> exists j c, chunks !! j = Some c /\ x = piece aead prefix (counter + 1 + Z.of_nat j) c.
Proof.
  revert counter. induction chunks as [|c chunks IH]; intros counter H0 Hn; cbn [sealed_pieces].
  { rewrite elem_of_nil. split; [done|]. by intros (j & c & ? & _). }
  cbn [length] in Hn. rewrite u32_id by (unfold max_u32 in *; lia). rewrite elem_of_cons, IH by lia. split.
  - intros [->|(j & d & Hj & ->)]; [exists 0%nat, c|exists (S j), d; split; [done|]; f_equal; lia].
    by rewrite Z.add_0_r.
  - intros ([|j] & d & Hj & ->); [left|right; exists j, d; split; [done|]; f_equal; lia].
    injection Hj as ->. by rewrite Z.add_0_r.
Qed.

Lemma sealed_pieces_take prefix k chunks x :
  (Z.of_nat (length chunks) <= max_u32)%Z ->
  x ∈ sealed_pieces aead prefix 0 (take k chunks) -> x ∈ sealed_pieces aead prefix 0 chunks.
Proof.
  intros Hn. assert (length (take k chunks) <= length chunks)%nat as Hk by (rewrite length_take; lia). rewrite !elem_of_sealed_pieces by lia.
  intros (j & c & Hj & ->). exists j, c. split; [|done]. by apply lookup_take_Some in Hj as [? _].
Qed.

(** Chunks whose pieces are all among those of [chunks] are the next of [chunks]: the number of a
    piece says which it is. *)
Lemma recombined prefix prefix' chunks n chunks' :
  (Z.of_nat (length chunks) <= max_u32)%Z -> (n <= length chunks)%nat ->
  Forall (fun x => x ∈ sealed_pieces aead prefix 0 chunks) (sealed_pieces aead prefix' (Z.of_nat n) chunks') ->
  (prefix' = prefix \/ chunks' = []) /\ chunks' = take (length chunks') (drop n chunks).
Proof.
  intros Hl. revert n. induction chunks' as [|c' chunks' IH]; intros n Hn H; [split; [by right|done]|].
  cbn [sealed_pieces] in H. apply Forall_cons in H as [Hin H].
  apply elem_of_sealed_pieces in Hin as (j & c & Hj & [= -> Hu Hct]); [|lia..].
  pose proof (lookup_lt_Some _ _ _ Hj) as Hjl. unfold max_u32 in Hl.
  assert (j = n /\ u32 (Z.of_nat n + 1) = Z.of_nat (S n)) as [-> Hn'].
  { destruct (decide (Z.of_nat n + 1 < 2 ^ 32)%Z) as [Hb|Hb]; [rewrite u32_id in Hu by lia; rewrite u32_id by lia; lia|].
    assert (Z.of_nat n + 1 = 2 ^ 32)%Z as E by lia. rewrite E in Hu. change (u32 (2 ^ 32)) with 0%Z in Hu. lia. }
  rewrite Hn' in *. rewrite <- Hu in Hct. apply (f_equal (fun s => ad_Open aead (makeNonce prefix (Z.of_nat (S n))) s (big_endian 4 (Z.of_nat (S n))))) in Hct.
  rewrite !aead_open in Hct. injection Hct as <-. destruct (IH (S n) ltac:(lia) H) as [_ E]. split; [by left|].
  rewrite (drop_S _ _ _ Hj). cbn [length take]. by f_equal.
Qed.

(** The files that are accepted and ask for nothing but pieces of an archive. *)
Lemma cuts_of prefix chunks :
  String.length prefix = 8%nat -> chunks_sized chunks -> (Z.of_nat (length chunks) <= max_u32)%Z ->
  forall data content,
    (false = false /\ exists prefix' chunks', String.length prefix' = 8%nat /\ chunks_sized chunks'
       /\ data = archive aead prefix' chunks' /\ content = str_concat chunks')
    /\ Forall (fun x => x ∈ sealed_pieces aead prefix 0 chunks) (file_pieces data)
    <-> exists k prefix', String.length prefix' = 8%nat /\ (prefix' = prefix \/ take k chunks = [])
          /\ data = archive aead prefix' (take k chunks) /\ content = str_concat (take k chunks).
Proof.
  intros Hp Hs Hn data content. split.
  - intros [(_ & prefix' & chunks' & Hp' & Hs' & -> & ->) Hall]. rewrite file_pieces_archive in Hall by done.
    destruct (recombined prefix prefix' chunks 0 chunks' Hn ltac:(lia) Hall) as [Hor E]. rewrite drop_0 in E.
    exists (length chunks'), prefix'. by rewrite <- E.
  - intros (k & prefix' & Hp' & Hor & -> & ->). assert (chunks_sized (take k chunks)) as Hk by by apply Forall_take.
    split; [split; [done|]; by exists prefix', (take k chunks)|]. rewrite file_pieces_archive by done.
    destruct Hor as [->| ->]; [|constructor]. rewrite Forall_forall. intros x. by apply sealed_pieces_take.
Qed.
End Pieces.

(** ** Encryption writes the format *)

(** The chunks that are not empty: an empty read writes nothing. *)
Definition present_chunks (reads : list string) : list string := filter (fun r => 0 < str_len r)%Z reads.

Lemma present_concat reads : str_concat (present_chunks reads) = str_concat reads.
Proof.
  induction reads as [|r reads IH]; [done|]. unfold present_chunks. rewrite filter_cons. fold (present_chunks reads).
  destruct (decide (0 < str_len r)%Z) as [|H]; cbn [str_concat foldr]; fold (str_concat (present_chunks reads)) (str_concat reads);
    rewrite IH; [done|]. destruct r; [done|]. unfold str_len in H. cbn in H. lia.
Qed.

Lemma present_sized reads : chunks_sized reads -> chunks_sized (present_chunks reads).
Proof. unfold chunks_sized, present_chunks. rewrite !Forall_forall. intros H c [_ Hc]%list_elem_of_filter. by apply H. Qed.

Lemma present_nonempty reads : Forall (fun c => c <> "") (present_chunks reads).
Proof. unfold present_chunks. rewrite Forall_forall. by intros c [Hc _]%list_elem_of_filter ->. Qed.

(** What holds between two turns of the loop, with the file that is written. *)
Record encrypting_ok (destination : string) (st : Encrypting) (d : Disk) : Prop := {
  eo_file : dk_files d !! destination = Some (en_encrypted st);
  eo_counter : (0 <= en_counter st <= max_u32)%Z;
  eo_total : en_total st = str_len (en_plain st);
  eo_bound : (str_len (en_plain st) <= en_counter st * chunkSize)%Z
}.

(** The other files are left alone. *)
Definition only_wrote (destination : string) (d d' : Disk) : Prop :=
  forall path, path <> destination -> dk_files d' !! path = dk_files d !! path.

Lemma only_wrote_trans destination d1 d2 d3 :
  only_wrote destination d1 d2 -> only_wrote destination d2 d3 -> only_wrote destination d1 d3.
Proof. intros H1 H2 path Hp. by rewrite H2, H1. Qed.

Section Encrypted.
Context (host : Host) (destination : string).

Lemma writer_write_spec data st d r d' :
  dk_files d !! destination = Some (en_encrypted st) -> writer_write host destination data st d = (r, d') ->
  only_wrote destination d d'
  /\ (r = None
      \/ r = Some (mkEncrypting (en_counter st) (en_total st) (en_plain st) (en_encrypted st +:+ data))
         /\ dk_files d' !! destination = Some (en_encrypted st +:+ data)).
Proof.
  intros Hf. unfold writer_write, Append. rewrite Hf. cbn [default]. destruct (ho_fails host (dk_done d)); intros [= <- <-].
  - split; [|by left]. intros path Hp. cbn [dk_files]. destruct (ho_torn host (dk_done d)); [by rewrite lookup_insert_ne|done].
  - split; [|right; split; [done|cbn [dk_files]; by rewrite lookup_insert_eq]]. intros path Hp. by apply lookup_insert_ne.
Qed.

Context (aead : AEAD) (prefix : string).

(** A turn of the loop, on a chunk that fits the buffer. *)
Lemma encrypt_chunk_spec chunk st d r d' :
  encrypting_ok destination st d -> (str_len chunk <= chunkSize)%Z ->
  encrypt_chunk host destination aead prefix chunk st d = (r, d') ->
  only_wrote destination d d'
  /\ forall st', r = Ok st' -> encrypting_ok destination st' d' /\ en_plain st' = en_plain st +:+ chunk
       /\ en_encrypted st' = en_encrypted st +:+ sealed_chunks aead prefix (en_counter st) (present_chunks [chunk])
       /\ en_counter st' = (en_counter st + Z.of_nat (length (present_chunks [chunk])))%Z.
Proof.
  intros [Hf Hc Ht Hb] Hs. unfold encrypt_chunk. destruct (0 <? str_len chunk)%Z eqn:E0.
  2:{ apply Z.ltb_ge in E0. pose proof (str_len_nonneg chunk).
      assert (chunk = "") as -> by (destruct chunk; [done|rewrite str_len_cons in E0; pose proof (str_len_nonneg chunk); lia]).
      intros [= <- <-]. split; [by intros ?|]. intros st' [= <-].
      change (present_chunks [""]) with (@nil string). cbn [sealed_chunks length]. rewrite !str_app_nil_r, Z.add_0_r. done. }
  apply Z.ltb_lt in E0. assert (present_chunks [chunk] = [chunk]) as -> by (unfold present_chunks; by rewrite filter_cons_True).
  destruct (en_counter st =? max_u32)%Z eqn:Em; [by intros [= <- <-]|apply Z.eqb_neq in Em].
  assert (u32 (en_counter st + 1) = en_counter st + 1)%Z as Hu by (apply u32_id; unfold max_u32 in *; lia).
  cbn [sealed_chunks length]. rewrite Hu. set (ct := ad_Seal _ _ _ _).
  destruct (writer_write _ _ _ _ d) as [o1 d1] eqn:E1. apply writer_write_spec in E1 as (H1 & [->|[-> F1]]); [by intros [= <- <-]| |done].
  destruct (writer_write _ _ _ _ d1) as [o2 d2] eqn:E2. apply writer_write_spec in E2 as (H2 & [->|[-> F2]]); [| |done].
  { intros [= <- <-]. split; [by apply (only_wrote_trans _ _ d1)|done]. }
  intros [= <- <-]. split; [by apply (only_wrote_trans _ _ d1)|]. intros st' [= <-].
  cbn [en_plain en_encrypted en_counter en_total] in *. rewrite str_app_nil_r, !str_app_assoc in *. rewrite chunkSize_val in *.
  split; [|done]. split; cbn [en_plain en_encrypted en_counter en_total]; [by rewrite F2|unfold max_u32 in *; lia| |rewrite chunkSize_val, str_len_app; lia].
  pose proof (str_len_nonneg (en_plain st)). rewrite Ht, str_len_app. apply i64_id. unfold i64_range, max_u32 in *. lia.
Qed.

Lemma sealed_chunks_app counter l k :
  (0 <= counter)%Z -> (counter + Z.of_nat (length l) <= max_u32)%Z ->
  sealed_chunks aead prefix counter (l ++ k)
  = sealed_chunks aead prefix counter l +:+ sealed_chunks aead prefix (counter + Z.of_nat (length l)) k.
Proof.
  revert counter. induction l as [|c l IH]; intros counter H1 H2; cbn [app sealed_chunks length]; [by rewrite Z.add_0_r|].
  cbn [length] in H2. assert (counter + 1 + Z.of_nat (length l) <= max_u32)%Z as H3 by lia.
  rewrite (u32_id (counter + 1)) by (unfold max_u32 in *; lia). rewrite IH by lia. rewrite !str_app_assoc.
  by replace (counter + 1 + Z.of_nat (length l))%Z with (counter + Z.of_nat (S (length l)))%Z by lia.
Qed.

Lemma present_app l k : present_chunks (l ++ k) = present_chunks l ++ present_chunks k.
Proof. apply filter_app. Qed.

(** The loop. *)
Lemma encrypt_chunks_spec reads st d r d' :
  encrypting_ok destination st d -> chunks_sized reads -> encrypt_chunks host destination aead prefix reads st d = (r, d') ->
  only_wrote destination d d'
  /\ forall st', r = Ok st' -> encrypting_ok destination st' d' /\ en_plain st' = en_plain st +:+ str_concat reads
       /\ en_encrypted st' = en_encrypted st +:+ sealed_chunks aead prefix (en_counter st) (present_chunks reads)
       /\ en_counter st' = (en_counter st + Z.of_nat (length (present_chunks reads)))%Z.
Proof.
  revert st d. induction reads as [|chunk reads IH]; intros st d Hok Hs; cbn [encrypt_chunks].
  { intros [= <- <-]. split; [by intros ?|]. intros st' [= <-]. cbn. by rewrite Z.add_0_r, !str_app_nil_r. }
  apply Forall_cons_1 in Hs as [Hc Hs]. destruct (encrypt_chunk _ _ _ _ _ _ _) as [r1 d1] eqn:E1.
  destruct (encrypt_chunk_spec _ _ _ _ _ Hok Hc E1) as [H1 H1']. destruct r1 as [st1|e]; [|by intros [= <- <-]].
  destruct (H1' _ eq_refl) as (Hok1 & Hp1 & He1 & Hn1). intros E. destruct (IH _ _ Hok1 Hs E) as [H2 H2'].
  split; [by apply (only_wrote_trans _ _ d1)|]. intros st' Hr. destruct (H2' _ Hr) as (Hok2 & Hp2 & He2 & Hn2). split; [done|].
  change (chunk :: reads) with ([chunk] ++ reads). rewrite present_app, sealed_chunks_app, length_app, str_concat_app.
  - rewrite Hp2, Hp1, He2, He1, Hn2, Hn1, !str_app_assoc. cbn [str_concat foldr]. rewrite str_app_nil_r. split; [done|]. split; [done|lia].
  - apply Hok.
  - rewrite <- Hn1. apply Hok1.
Qed.
End Encrypted.

Section Whole.
Context (sha256 : string -> string) {Block : Type} (new_cipher : string -> option Block) (new_gcm : Block -> option AEAD).
Context (host : Host) (Hrandom : random_sized host).

(** The file of a backup and what is said of it. *)
Definition backup_of (source : Source) (key data : string) (metadata : BackupMetadata) : Prop :=
  exists aead prefix, newAEAD new_cipher new_gcm key = Ok aead /\ String.length prefix = 8%nat
    /\ (Z.of_nat (length (present_chunks (so_reads source ++ [so_last source]))) <= max_u32)%Z
    /\ data = archive aead prefix (present_chunks (so_reads source ++ [so_last source]))
    /\ metadata = mkBackupMetadata (sha256 (so_content source)) (sha256 data) (str_len (so_content source)).

Lemma encrypt_spec destination source key d r d' :
  source_sized source -> dk_files d !! destination = Some "" ->
  encrypt host destination sha256 new_cipher new_gcm source key d = (r, d') ->
  only_wrote destination d d'
  /\ forall metadata, r = Ok metadata -> so_eof source = true
       /\ exists data, dk_files d' !! destination = Some data /\ backup_of source key data metadata.
Proof.
  intros Hs Hf. unfold encrypt, backup_of. destruct (newAEAD new_cipher new_gcm key) as [aead|e]; [|by intros [= <- <-]].
  unfold Random. destruct (if ho_fails host (dk_done d) then _ else _) as [prefix|] eqn:Er; [|by intros [= <- <-]].
  assert (String.length prefix = 8%nat) as Hp.
  { destruct (ho_fails host (dk_done d)); [done|]. by apply Hrandom in Er. }
  destruct (writer_write _ _ _ _ _) as [o1 d1] eqn:E1. apply writer_write_spec in E1 as (H1 & [->|[-> F1]]); [by intros [= <- <-]| |done].
  cbn [en_counter en_total en_plain en_encrypted] in F1 |- *. rewrite str_app_nil_l in F1 |- *.
  destruct (encrypt_chunks _ _ _ _ _ _ _) as [r2 d2] eqn:E2. apply encrypt_chunks_spec in E2 as [H2 H2']; [| |done].
  2:{ split; [done|done|done|]. cbn. done. }
  assert (only_wrote destination d d2) as H12 by (by apply (only_wrote_trans _ _ d1)).
  destruct r2 as [st|e]; [|by intros [= <- <-]]. destruct (H2' _ eq_refl) as (Hok & Hpl & He & Hn).
  destruct (so_eof source); cbn [negb]; [|by intros [= <- <-]].
  destruct (writer_write _ _ _ _ d2) as [o3 d3] eqn:E3. apply writer_write_spec in E3 as (H3 & E3); [|apply Hok].
  assert (only_wrote destination d d3) as H13 by (by apply (only_wrote_trans _ _ d2)).
  destruct E3 as [->|[-> F3]]; intros [= <- <-]; (split; [done|]); [done|]. intros metadata [= <-]. split; [done|].
  eexists. split; [exact F3|]. exists aead, prefix. split; [done|]. split; [done|].
  split; [pose proof (eo_counter _ _ _ Hok); rewrite Hn in *; cbn [en_counter] in *; lia|].
  cbn [en_plain en_encrypted en_total] in *. rewrite (eo_total _ _ _ Hok). rewrite str_app_nil_l in Hpl.
  unfold so_content. rewrite <- Hpl. split; [|done]. rewrite He. unfold archive. by rewrite !str_app_assoc.
Qed.

Context (environ : list string).

Lemma dump_into_spec run temporary output key d r d' :
  source_sized (du_stdout run) -> dk_files d !! temporary = Some "" -> temporary <> output ->
  dump_into sha256 new_cipher new_gcm host run temporary output key d = (r, d') ->
  match r with
  | Err _ => only_wrote temporary d d'
  | Ok metadata =>
      du_wait run = true /\ so_eof (du_stdout run) = true
      /\ exists data, dk_files d' = <[output := data]> (delete temporary (dk_files d)) /\ backup_of (du_stdout run) key data metadata
  end.
Proof.
  intros Hs Hf Hne. unfold dump_into. destruct (du_pipe run); cbn [negb]; [|by intros [= <- <-]].
  destruct (du_start run); cbn [negb]; [|by intros [= <- <-]].
  destruct (encrypt _ _ _ _ _ _ _ _) as [r1 d1] eqn:E1. destruct (encrypt_spec _ _ _ _ _ _ Hs Hf E1) as [H1 H1'].
  destruct r1 as [metadata|e]; [|by intros [= <- <-]]. destruct (H1' _ eq_refl) as (He & data & Hd & Hb).
  destruct (du_wait run); cbn [negb]; [|by intros [= <- <-]]. unfold Quietly. cbn [dk_done ticked].
  destruct (ho_fails host (dk_done d1)); cbn [negb]; [by intros [= <- <-]|].
  destruct (ho_fails host (S (dk_done d1))); cbn [negb]; [by intros [= <- <-]|]. unfold Rename, ticked. cbn [dk_files dk_done].
  rewrite Hd. destruct (ho_fails host (S (S (dk_done d1)))); cbn [negb]; intros [= <- <-]; [done|].
  split; [done|]. split; [done|]. exists data. split; [|done]. cbn [dk_files]. f_equal. apply map_eq. intros path.
  destruct (decide (path = temporary)) as [->|Hp]; [by rewrite !lookup_delete_eq|]. rewrite !lookup_delete_ne by done. by apply H1.
Qed.

(** The whole request: [backup_of] what the process printed, which exited with success, or the
    files that were there. *)
Lemma BackupFile_spec dump t database output key environment d r d' :
  source_sized (du_stdout (dump (dump_command environ t database environment))) ->
  BackupFile sha256 new_cipher new_gcm host environ dump t database output key environment d = (r, d') ->
  match r with
  | Err _ => only_wrote (output +:+ ".tmp") d d'
  | Ok metadata =>
      let run := dump (dump_command environ t database environment) in
      output <> "" /\ du_wait run = true /\ so_eof (du_stdout run) = true
      /\ exists data, dk_files d' = <[output := data]> (dk_files d) /\ backup_of (du_stdout run) key data metadata
  end.
Proof.
  intros Hs. unfold BackupFile. destruct (_ || _ || _) eqn:Ho; [by intros [= <- <-]|]. unfold MkdirAll.
  apply orb_false_iff in Ho as [[_ Ho]%orb_false_iff _]. apply str_eqb_neq in Ho.
  destruct (ho_fails host (dk_done d)); cbn [negb]; [by intros [= <- <-]|]. unfold CreateNew, ticked. cbn [dk_files dk_done].
  set (temporary := output +:+ ".tmp"). destruct (dk_files d !! temporary) eqn:Ht; cbn [negb]; [by intros [= <- <-]|].
  destruct (ho_fails host (S (dk_done d))); cbn [negb]; [by intros [= <- <-]|].
  destruct (dump_into _ _ _ _ _ _ _ _ _) as [r1 d1] eqn:E1. apply dump_into_spec in E1; [|done|cbn [dk_files]; by rewrite lookup_insert_eq|].
  2:{ unfold temporary. intros H. apply (f_equal String.length) in H. rewrite length_str_app in H. cbn in H. lia. }
  unfold Quietly, ticked. cbn [dk_files dk_done] in *. destruct r1 as [metadata|e].
  - intros [= <- <-]. destruct E1 as (H1 & H2 & data & Hd & Hb). split; [done|]. split; [done|]. split; [done|]. exists data. split; [|done].
    cbn [dk_files]. by rewrite Hd, delete_insert_id.
  - unfold Remove, ticked. cbn [dk_files dk_done]. assert (forall path, path <> temporary -> dk_files d1 !! path = dk_files d !! path) as H.
    { intros path Hp. rewrite (E1 path Hp). cbn [dk_files]. by rewrite lookup_insert_ne. }
    destruct (ho_fails host _); intros [= <- <-] path Hp; cbn [dk_files]; [by apply H|]. rewrite lookup_delete_ne; [by apply H|done].
Qed.
End Whole.

Lemma newAEAD_lawful {Block} (new_cipher : string -> option Block) new_gcm key aead :
  (forall block aead, new_gcm block = Some aead -> LawfulAEAD aead) -> newAEAD new_cipher new_gcm key = Ok aead -> LawfulAEAD aead.
Proof.
  intros H. unfold newAEAD. destruct (negb _); [done|]. destruct (new_cipher key) as [block|]; [|done].
  destruct (new_gcm block) eqn:E; [|done]. intros [= <-]. by apply (H block).
Qed.

(** ** Properties *)

(** C8: [decrypt] accepts a file if and only if it has the format, and what [encrypt] wrote can only
    be cut at the end of a chunk.
    - Whatever the bytes of a file, it is accepted, with some content given to a process that reads
      all of it, if and only if it is a header, chunks of that content in order, each sealed under
      its own number (modulo 2^32), an empty size and nothing after it.
    - When [encrypt] succeeds, the file it wrote is such a file, of chunks that are not empty, no
      more than there are numbers, and whose content is the dump; it is accepted with that content.
      A file that is made without the key, so that all it asks to be opened are pieces of this one
      (same prefix, number and ciphertext), is accepted exactly when it is the header, the first k
      chunks and an empty size, for some k, and its content is that of the first k chunks: no chunk
      can be left out in between, repeated, moved or exchanged.  But the empty size is sealed by
      nothing, so the last chunks can be cut off, and when all are, the prefix can be any: a backup
      that was cut in this way is accepted as if it were complete. *)
Theorem decrypt_accepts sha256 {Block} (new_cipher : string -> option Block) new_gcm key aead reader :
  LawfulAEAD aead -> newAEAD new_cipher new_gcm key = Ok aead -> (forall n, re_fails reader n = false) ->
  let accepted data broken content :=
    exists p, decrypt new_cipher new_gcm reader data broken key (mkPipe "" 0) = (Ok tt, p) /\ pi_received p = content in
  (forall data broken content,
     accepted data broken content
     <-> broken = false /\ exists prefix chunks,
           String.length prefix = 8%nat /\ chunks_sized chunks /\ data = archive aead prefix chunks
           /\ content = str_concat chunks)
  /\ forall host destination source d metadata d',
       random_sized host -> source_sized source -> dk_files d !! destination = Some "" ->
       encrypt host destination sha256 new_cipher new_gcm source key d = (Ok metadata, d') ->
       exists backup prefix chunks,
         dk_files d' !! destination = Some backup /\ backup = archive aead prefix chunks
         /\ String.length prefix = 8%nat /\ chunks_sized chunks /\ Forall (fun c => c <> "") chunks
         /\ (Z.of_nat (length chunks) <= max_u32)%Z /\ str_concat chunks = so_content source
         /\ accepted backup false (so_content source)
         /\ forall data content,
              accepted data false content /\ Forall (fun x => x ∈ file_pieces backup) (file_pieces data)
              <-> exists k prefix',
                    String.length prefix' = 8%nat /\ (prefix' = prefix \/ take k chunks = [])
                    /\ data = archive aead prefix' (take k chunks) /\ content = str_concat (take k chunks).
Proof.
  intros HL Hk Hf accepted.
  assert (forall data broken content, accepted data broken content <-> broken = false /\ exists prefix chunks,
      String.length prefix = 8%nat /\ chunks_sized chunks /\ data = archive aead prefix chunks
      /\ content = str_concat chunks) as Hformat.
  { intros data broken content. unfold accepted, decrypt. rewrite Hk. apply (decrypt_file_iff aead reader _ _ _ Hf). }
  split; [exact Hformat|]. intros host destination source d metadata d' Hr Hs Hd E.
  destruct (encrypt_spec sha256 new_cipher new_gcm host Hr _ _ _ _ _ _ Hs Hd E) as [_ H].
  destruct (H _ eq_refl) as (_ & backup & Hb & aead' & prefix & Hk' & Hp & Hn & -> & _). rewrite Hk in Hk'. injection Hk' as <-.
  pose proof (present_sized _ Hs) as Hsized. pose proof (present_concat (so_reads source ++ [so_last source])) as Hc.
  fold (so_content source) in Hc. pose proof (present_nonempty (so_reads source ++ [so_last source])) as Hne.
  set (chunks := present_chunks _) in *. exists (archive aead prefix chunks), prefix, chunks.
  split_and!; [done..| |].
  { apply Hformat. split; [done|]. by exists prefix, chunks. }
  intros data content. rewrite Hformat, file_pieces_archive by done.
  exact (cuts_of aead HL prefix chunks Hp Hsized Hn data content).
Qed.

(** A restore on which nothing goes wrong. *)
Definition healthy_restore (host : Host) (restore : Command -> RestoreRun) (broken_at : option nat) (environ : list string)
    (t : Toolchain) (database : string) (environment : list string) (content : string) (d : Disk) : Prop :=
  let run := restore (restore_command environ t database environment) in
  database <> "" /\ RestorePath t <> "" /\ ho_fails host (dk_done d) = false /\ broken_at = None
  /\ rs_pipe run = true /\ rs_start run = true /\ (forall n, re_fails (rs_reader run) n = false)
  /\ rs_close run = true /\ rs_wait run content = true.

(** A process that reads all it is given. *)
Definition attentive : Reader := mkReader (fun _ => false) (fun _ => "").

Lemma decrypt_file_attentive aead reader data broken p p' :
  decrypt_file aead reader data broken p = (Ok tt, p') -> decrypt_file aead attentive data broken p = (Ok tt, p').
Proof.
  unfold decrypt_file. destruct (_ || _); [done|]. generalize (S (String.length (str_drop 13 data))) as fuel, 0%Z as counter.
  generalize (str_drop 13 data) as rest. generalize (str_drop 5 (str_take 13 data)) as prefix. intros prefix rest fuel. revert rest p.
  induction fuel as [|fuel IH]; intros rest p counter; cbn [decrypt_chunks]; [done|].
  destruct (str_len rest <? 4)%Z; [done|]. destruct (_ =? 0)%Z; [done|]. destruct (_ <? _)%Z; [done|]. destruct (_ <? _)%Z; [done|].
  destruct (ad_Open _ _ _ _) as [plaintext|]; [|done]. unfold pipe_write. cbn [attentive re_fails].
  destruct (re_fails reader (pi_writes p)); cbn [negb]; [done|]. apply IH.
Qed.

Section Restore.
Context (sha256 : string -> string) {Block : Type} (new_cipher : string -> option Block) (new_gcm : Block -> option AEAD).
Context (HA : forall block aead, new_gcm block = Some aead -> LawfulAEAD aead).
Context (host : Host) (environ : list string) (restore : Command -> RestoreRun) (broken_at : option nat) (t : Toolchain).
Context (database input key : string) (environment : list string) (source : Source) (data : string) (metadata : BackupMetadata).
Context (Hs : source_sized source) (Hb : backup_of sha256 new_cipher new_gcm source key data metadata).

(** What a restore that succeeds gave to the process, of a file that is a backup. *)
Lemma RestoreFile_content d p :
  dk_files d !! input = Some data ->
  RestoreFile new_cipher new_gcm host environ restore broken_at t database input key environment d = (Ok tt, p) ->
  pi_received p = so_content source.
Proof.
  destruct Hb as (aead & prefix & Hk & Hp & _ & -> & _). pose proof (newAEAD_lawful _ _ _ _ HA Hk) as HL. intros Hd.
  unfold RestoreFile, ReadFile, decrypt. rewrite Hk, Hd. destruct (_ || _ || _); [done|].
  destruct (ho_fails host (dk_done d)); [done|]. set (run := restore _).
  destruct (rs_pipe run); cbn [negb]; [|done]. destruct (rs_start run); cbn [negb]; [|done].
  destruct broken_at as [n|]; (destruct (decrypt_file _ _ _ _ _) as [[[]|e] p1] eqn:E; [|done]).
  { by apply (decrypt_file_sound aead) in E as [[=] _]. }
  apply decrypt_file_attentive in E.
  destruct (decrypt_file_complete aead attentive prefix _ (mkPipe "" 0) (fun _ => eq_refl) Hp (present_sized _ Hs)) as (p2 & E2 & H2).
  change (bool_decide (is_Some (@None nat))) with false in E. rewrite E2 in E. injection E as ->. destruct (negb (rs_close run) || _); [done|]. intros [= <-]. rewrite H2. apply present_concat.
Qed.

(** When nothing goes wrong, it succeeds. *)
Lemma RestoreFile_healthy d :
  dk_files d !! input = Some data -> input <> "" ->
  healthy_restore host restore broken_at environ t database environment (so_content source) d ->
  exists p, RestoreFile new_cipher new_gcm host environ restore broken_at t database input key environment d = (Ok tt, p).
Proof.
  destruct Hb as (aead & prefix & Hk & Hp & _ & -> & _). pose proof (newAEAD_lawful _ _ _ _ HA Hk) as HL. intros Hd Hi.
  intros (H1 & H2 & H3 & -> & H5 & H6 & H7 & H8 & H9). unfold RestoreFile, ReadFile, decrypt.
  rewrite Hk, Hd, H3. rewrite (proj2 (str_eqb_neq _ _) H1), (proj2 (str_eqb_neq _ _) H2), (proj2 (str_eqb_neq _ _) Hi).
  set (run := restore _) in *. cbv beta zeta iota. cbn [orb]. rewrite H5, H6. cbn [negb]. change (bool_decide _) with false.
  destruct (decrypt_file_complete aead (rs_reader run) prefix _ (mkPipe "" 0) H7 Hp (present_sized _ Hs)) as (p & E & Hr).
  rewrite E, Hr, H8, present_concat. cbn [pi_received]. rewrite str_app_nil_l. fold (so_content source). rewrite H9. by exists p.
Qed.
End Restore.

(** C7: a backup restores what was dumped.  When [BackupFile] reports success, [pg_dump] printed all
    it had to and exited with success, the digests and the size it reports are those of the dump and
    of the file, and a restore of that file with the same key that reports success gave exactly the
    dump to [pg_restore], as it does when nothing goes wrong; when [BackupFile] reports an error the
    file that was there before is as it was. *)
Theorem backup_restores sha256 {Block} (new_cipher : string -> option Block) new_gcm host environ dump t database output key
    environment d r d' :
  (forall block aead, new_gcm block = Some aead -> LawfulAEAD aead) -> random_sized host ->
  source_sized (du_stdout (dump (dump_command environ t database environment))) ->
  BackupFile sha256 new_cipher new_gcm host environ dump t database output key environment d = (r, d') ->
  match r with
  | Err _ => dk_files d' !! output = dk_files d !! output
  | Ok metadata =>
      let run := dump (dump_command environ t database environment) in
      let content := so_content (du_stdout run) in
      du_wait run = true /\ so_eof (du_stdout run) = true
      /\ (exists data, dk_files d' !! output = Some data
           /\ metadata = mkBackupMetadata (sha256 content) (sha256 data) (str_len content))
      /\ forall host' environ' restore broken_at t' database' environment' d2,
           dk_files d2 !! output = dk_files d' !! output ->
           let restored := RestoreFile new_cipher new_gcm host' environ' restore broken_at t' database' output key environment' d2 in
           (restored.1 = Ok tt -> pi_received restored.2 = content)
           /\ (healthy_restore host' restore broken_at environ' t' database' environment' content d2 -> restored.1 = Ok tt)
  end.
Proof.
  intros HA Hr Hs E. pose proof (BackupFile_spec _ _ _ _ Hr _ _ _ _ _ _ _ _ _ _ Hs E) as H. destruct r as [metadata|e].
  2:{ apply H. intros Ho. apply (f_equal String.length) in Ho. rewrite length_str_app in Ho. cbn in Ho. lia. }
  destruct H as (Ho & H1 & H2 & data & Hd & Hb). cbv zeta. split; [done|]. split; [done|].
  assert (dk_files d' !! output = Some data) as Hf by (rewrite Hd; apply lookup_insert_eq).
  split; [exists data; split; [done|]; by destruct Hb as (? & ? & _ & _ & _ & _ & Hm)|].
  intros host' environ' restore broken_at t' database' environment' d2 H. rewrite Hf in H. split.
  - destruct (RestoreFile _ _ _ _ _ _ _ _ _ _ _ _) as [r2 p] eqn:E2. cbn [fst snd]. intros ->.
    exact (RestoreFile_content sha256 _ _ HA _ _ _ _ _ _ _ _ _ _ _ _ Hs Hb _ _ H E2).
  - intros Hh. destruct (RestoreFile_healthy sha256 _ _ HA _ _ _ _ _ _ _ _ _ _ _ _ Hs Hb _ H Ho Hh) as [p ->]. done.
Qed.

(** ** Examples *)

Definition toy_cipher (key : string) : option unit := Some tt.
Definition toy_gcm (block : unit) : option AEAD := Some toy_aead.
Definition sample_key : string := big_endian 32 5.
Definition sample_source : Source := mkSource ["hello "; ""; "wor"] "ld" true.
Definition sample_dump (command : Command) : DumpRun := mkDumpRun true true sample_source true.
Definition sample_restore (command : Command) : RestoreRun :=
  mkRestoreRun true true attentive true (fun received => received =s "hello world").

Lemma toy_gcm_lawful block aead : toy_gcm block = Some aead -> LawfulAEAD aead.
Proof. intros [= <-]. exact toy_lawful. Qed.

#[local] Abbreviation sample_encrypted :=
  (encrypt steady "backup" id toy_cipher toy_gcm sample_source sample_key (mkDisk {[ "backup" := "" ]} 0)).

(** A backup that [encrypt] wrote, cut after its first chunk. *)
Example decrypt_accepts_witness :
  exists backup prefix chunks p,
    dk_files sample_encrypted.2 !! "backup" = Some backup /\ str_concat chunks = "hello world"
    /\ decrypt toy_cipher toy_gcm attentive (archive toy_aead prefix (take 1 chunks)) false sample_key (mkPipe "" 0) = (Ok tt, p)
    /\ pi_received p = str_concat (take 1 chunks).
Proof.
  destruct sample_encrypted as [r d'] eqn:E.
  assert (match r with Ok _ => True | Err _ => False end) as Hok.
  { apply (f_equal fst) in E. cbn [fst] in E. rewrite <- E. vm_compute. exact I. }
  destruct r as [metadata|e]; [|destruct Hok]. clear Hok.
  assert (source_sized sample_source) as Hs by (repeat constructor; vm_compute; discriminate).
  pose proof (decrypt_accepts id toy_cipher toy_gcm sample_key toy_aead attentive toy_lawful eq_refl (fun _ => eq_refl)) as [_ H].
  destruct (H steady "backup" sample_source _ metadata d' steady_sized Hs (lookup_singleton_eq _ _) E)
    as (backup & prefix & chunks & Hb & _ & Hp & _ & _ & _ & Hc & _ & Hcut).
  destruct (proj2 (Hcut _ _) (ex_intro _ 1%nat (ex_intro _ prefix (conj Hp (conj (or_introl eq_refl) (conj eq_refl eq_refl))))))
    as [(p & Hd & Hr) _].
  exists backup, prefix, chunks, p. split; [exact Hb|]. split; [exact Hc|]. split; [exact Hd|exact Hr].
Defined.

(** What is exchanged or added is noticed, and so is an end that is missing; not so what is missing
    before the end. *)
Example recombined_files :
  let sealed := archive toy_aead "12345678" ["hello "; "world"] in
  let swapped := str_take 13 sealed +:+ str_drop 27 sealed in
  (decrypt toy_cipher toy_gcm attentive swapped false sample_key (mkPipe "" 0)).1 = Err "authenticate encrypted backup"
  /\ (decrypt toy_cipher toy_gcm attentive (str_take 27 sealed) false sample_key (mkPipe "" 0)).1 = Err "read encrypted backup chunk size"
  /\ (decrypt toy_cipher toy_gcm attentive (sealed +:+ "!") false sample_key (mkPipe "" 0)).1 = Err "encrypted backup has trailing data"
  /\ decrypt toy_cipher toy_gcm attentive (str_take 27 sealed +:+ big_endian 4 0) false sample_key (mkPipe "" 0) = (Ok tt, mkPipe "hello " 1).
Proof. vm_compute. done. Qed.

#[local] Abbreviation sample_backup :=
  (BackupFile id toy_cipher toy_gcm steady ["HOME=/"] sample_dump DefaultToolchain "main" "backup" sample_key [] (mkDisk ∅ 0)).

Example backup_restores_witness :
  (RestoreFile toy_cipher toy_gcm steady [] sample_restore None DefaultToolchain "copy" "backup" sample_key [] sample_backup.2).1 = Ok tt.
Proof.
  destruct sample_backup as [r d'] eqn:E.
  assert (source_sized (du_stdout (sample_dump (dump_command ["HOME=/"] DefaultToolchain "main" [])))) as Hs
    by (repeat constructor; vm_compute; discriminate).
  assert (match r with Ok _ => True | Err _ => False end) as Hok.
  { apply (f_equal fst) in E. cbn [fst] in E. rewrite <- E. vm_compute. exact I. }
  pose proof (backup_restores id toy_cipher toy_gcm steady ["HOME=/"] sample_dump DefaultToolchain "main" "backup" sample_key [] (mkDisk ∅ 0) r d'
    toy_gcm_lawful steady_sized Hs E) as H.
  destruct r as [metadata|e]; [|destruct Hok]. destruct H as (_ & _ & _ & H). apply (H steady [] sample_restore None DefaultToolchain "copy" [] d' eq_refl).
  repeat split; discriminate.
Defined.
