(* ===== verification/GoFlag.v ===== *)
(** * Command lines and durations (flag, strconv, time)

    [FlagSet.Parse] over a table of flags, the integers and booleans that flags are set with, and
    [time.ParseDuration]. *)
From Stdlib Require Import Ascii.
From S2P Require Import Prelude GoString GoInt GoFloat Contracts.

(** ** strconv *)

Definition ParseBool (s : string) : option bool :=
  if one_of s ["1"; "t"; "T"; "TRUE"; "true"; "True"] then Some true
  else if one_of s ["0"; "f"; "F"; "FALSE"; "false"; "False"] then Some false
  else None.

(** [lower]: the bit that tells cases apart is set. *)
Definition lower_byte (c : ascii) : Z := Z.lor (byte c) 32.

(** The value of a digit: decimal, or a letter. *)
Definition digit_value (c : ascii) : option Z :=
  if in_range 48 57 (byte c) then Some (byte c - 48)%Z
  else if in_range 97 122 (lower_byte c) then Some (lower_byte c - 97 + 10)%Z
  else None.

Definition underscore : ascii := "_".

(** What precedes the current byte in [underscoreOK]. *)
Inductive UnderscoreState := AtStart | AfterDigit | AfterUnderscore | AfterOther.

Fixpoint underscore_go (hex : bool) (s : string) (i : UnderscoreState) : bool :=
  match s with
  | EmptyString => match i with AfterUnderscore => false | _ => true end
  | String c s =>
      if in_range 48 57 (byte c) || (hex && in_range 97 102 (lower_byte c)) then underscore_go hex s AfterDigit
      else if Ascii.eqb c underscore then match i with AfterDigit => underscore_go hex s AfterUnderscore | _ => false end
      else match i with AfterUnderscore => false | _ => underscore_go hex s AfterOther end
  end.

(** The prefix of a base, with the base and what follows. *)
Definition base_prefix (s : string) : option (Z * string) :=
  match s with
  | String "0" (String c rest) =>
      if (lower_byte c =? 98)%Z then Some (2, rest)%Z
      else if (lower_byte c =? 111)%Z then Some (8, rest)%Z
      else if (lower_byte c =? 120)%Z then Some (16, rest)%Z
      else None
  | _ => None
  end.

Definition underscoreOK (s : string) : bool :=
  match base_prefix s with
  | Some (base, rest) => underscore_go (base =? 16)%Z rest AfterDigit
  | None => underscore_go false s AtStart
  end.

(** The digits in a base, with the underscores left out, and whether there were any. *)
Fixpoint uint_go (base : Z) (s : string) (n : Z) (underscores : bool) : option (Z * bool) :=
  match s with
  | EmptyString => Some (n, underscores)
  | String c s =>
      if Ascii.eqb c underscore then uint_go base s n true
      else match digit_value c with
           | Some d => if (d <? base)%Z then uint_go base s (n * base + d)%Z underscores else None
           | None => None
           end
  end.

(** [ParseUint] with base 0, before the check of the range: numbers in Go are as wide as they need
    to be here, so the check is [ParseInt]'s. *)
Definition parse_uint (s : string) : option Z :=
  let parsed :=
    match base_prefix s with
    | Some (base, rest) => if (3 <=? String.length s)%nat then uint_go base rest 0 false else uint_go 8 (str_drop 1 s) 0 false
    | None => match s with
              | EmptyString => None
              | String "0" rest => uint_go 8 rest 0 false
              | _ => uint_go 10 s 0 false
              end
    end in
  match parsed with
  | Some (n, underscores) => if underscores && negb (underscoreOK s) then None else Some n
  | None => None
  end.

(** [ParseInt(s, 0, 64)]. *)
Definition ParseInt (s : string) : option Z :=
  let '(neg, digits) := match s with
                        | String "+" rest => (false, rest)
                        | String "-" rest => (true, rest)
                        | _ => (false, s)
                        end in
  match parse_uint digits with
  | None => None
  | Some n => if neg then (if (2 ^ 63 <? n)%Z then None else Some (- n)%Z)
              else if (2 ^ 63 <=? n)%Z then None else Some n
  end.

(** ** flag *)

Inductive FlagKind := BoolFlag | StringFlag | IntFlag.

Inductive FlagValue := BoolValue (b : bool) | StringValue (s : string) | IntValue (z : Z).

Definition flag_set (kind : FlagKind) (value : string) : option FlagValue :=
  match kind with
  | BoolFlag => BoolValue <$> ParseBool value
  | StringFlag => Some (StringValue value)
  | IntFlag => IntValue <$> ParseInt value
  end.

(** The name and, after [=], the value; [None] when the name is empty or starts with [-] or [=]. *)
Definition flag_split (name : string) : option (string * option string) :=
  match name with
  | EmptyString => None
  | String c _ =>
      if Ascii.eqb c "-" || Ascii.eqb c "=" then None
      else match str_index "=" name with
           | Some i => Some (str_take i name, Some (str_drop (S i) name))
           | None => Some (name, None)
           end
  end.

(** What was set in order, whether parsing succeeded, and the arguments that are left. *)
Record Parsed := mkParsed { pd_set : list (string * FlagValue); pd_ok : bool; pd_args : list string }.

Definition also_set (name : string) (value : FlagValue) (p : Parsed) : Parsed :=
  mkParsed ((name, value) :: pd_set p) (pd_ok p) (pd_args p).

(** [FlagSet.Parse]: a flag takes the argument after it unless it has a value of its own. *)
Fixpoint flag_parse (formal : string -> option FlagKind) (args : list string) : Parsed :=
  match args with
  | [] => mkParsed [] true []
  | s :: rest =>
      if (String.length s <? 2)%nat || negb (has_prefix "-" s) then mkParsed [] true args
      else if s =s "--" then mkParsed [] true rest
      else
        match flag_split (if has_prefix "--" s then str_drop 2 s else str_drop 1 s) with
        | None => mkParsed [] false args
        | Some (name, value) =>
            match formal name with
            | None => mkParsed [] false rest
            | Some BoolFlag =>
                match flag_set BoolFlag (default "true" value) with
                | Some v => also_set name v (flag_parse formal rest)
                | None => mkParsed [] false rest
                end
            | Some kind =>
                match value with
                | Some value =>
                    match flag_set kind value with
                    | Some v => also_set name v (flag_parse formal rest)
                    | None => mkParsed [] false rest
                    end
                | None =>
                    match rest with
                    | [] => mkParsed [] false []
                    | value :: rest =>
                        match flag_set kind value with
                        | Some v => also_set name v (flag_parse formal rest)
                        | None => mkParsed [] false rest
                        end
                    end
                end
            end
        end
  end.

(** The last value of a flag, and all values of one that is repeated. *)
Definition flag_last (name : string) (p : Parsed) : option FlagValue :=
  foldl (fun found nv => if nv.1 =s name then Some nv.2 else found) None (pd_set p).

Definition flag_string (name fallback : string) (p : Parsed) : string :=
  match flag_last name p with Some (StringValue s) => s | _ => fallback end.
Definition flag_int (name : string) (p : Parsed) : Z :=
  match flag_last name p with Some (IntValue z) => z | _ => 0%Z end.
Definition flag_bool (name : string) (p : Parsed) : bool :=
  match flag_last name p with Some (BoolValue b) => b | _ => false end.
Definition flag_list (name : string) (p : Parsed) : list string :=
  omap (fun nv : string * FlagValue => match nv.2 with StringValue s => if nv.1 =s name then Some s else None | _ => None end) (pd_set p).

(** [Visit] reaches the flags that were set. *)
Definition flag_visited (name : string) (p : Parsed) : bool := existsb (fun nv => nv.1 =s name) (pd_set p).

(** ** time.ParseDuration *)

Definition nanosecond : Z := 1.
Definition unit_of (u : string) : option Z :=
  if u =s "ns" then Some nanosecond
  else if one_of u ["us"; "µs"; "μs"] then Some 1000%Z
  else if u =s "ms" then Some 1000000%Z
  else if u =s "s" then Some 1000000000%Z
  else if u =s "m" then Some 60000000000%Z
  else if u =s "h" then Some 3600000000000%Z
  else None.

Definition decimal (c : ascii) : bool := in_range 48 57 (byte c).

(** [leadingInt]: [None] when the number is above 2^63. *)
Fixpoint leadingInt (x : Z) (s : string) : option (Z * string) :=
  match s with
  | String c rest =>
      if decimal c then
        if (2 ^ 63 / 10 <? x)%Z then None
        else
          let x := (x * 10 + (byte c - 48))%Z in
          if (2 ^ 63 <? x)%Z then None else leadingInt x rest
      else Some (x, s)
  | EmptyString => Some (x, s)
  end.

(** [leadingFraction]: digits that do not fit are dropped. *)
Fixpoint leadingFraction (x : Z) (scale : float64) (overflow : bool) (s : string) : Z * float64 * string :=
  match s with
  | String c rest =>
      if decimal c then
        if overflow then leadingFraction x scale true rest
        else if (max_i64 / 10 <? x)%Z then leadingFraction x scale true rest
        else
          let y := (x * 10 + (byte c - 48))%Z in
          if (2 ^ 63 <? y)%Z then leadingFraction x scale true rest
          else leadingFraction y (fmul scale (float_of_Z 10)) false rest
      else (x, scale, s)
  | EmptyString => (x, scale, s)
  end.

(** The bytes of a unit: up to a dot or a digit. *)
Fixpoint unit_length (s : string) : nat :=
  match s with
  | String c rest => if Ascii.eqb c "." || decimal c then O else S (unit_length rest)
  | EmptyString => O
  end.

(** [uint64(f)] of a float that is not negative. *)
Definition float_trunc (f : float64) : Z :=
  match f with S754_finite false m e => Z.shiftl (Zpos m) e | _ => 0 end.

(** One number with its unit, and what follows. *)
Definition duration_term (s : string) : option (Z * string) :=
  match s with
  | EmptyString => None
  | String c _ =>
      if negb (Ascii.eqb c "." || decimal c) then None
      else match leadingInt 0 s with
           | None => None
           | Some (v, s1) =>
               let pre := negb (String.length s =? String.length s1)%nat in
               let '(f, scale, s2, post) :=
                 match s1 with
                 | String "." s1 => let '(f, scale, s2) := leadingFraction 0 (float_of_Z 1) false s1 in
                                    (f, scale, s2, negb (String.length s1 =? String.length s2)%nat)
                 | _ => (0%Z, float_of_Z 1, s1, false)
                 end in
               if negb pre && negb post then None
               else
                 let i := unit_length s2 in
                 if (i =? 0)%nat then None
                 else match unit_of (str_take i s2) with
                      | None => None
                      | Some unit =>
                          if (2 ^ 63 / unit <? v)%Z then None
                          else
                            let v := (v * unit)%Z in
                            let v := if (0 <? f)%Z
                                     then (v + float_trunc (fmul (float_of_Z f) (fdiv (float_of_Z unit) scale)))%Z else v in
                            if (2 ^ 63 <? v)%Z then None else Some (v, str_drop i s2)
                      end
           end
  end.

(** The loop: every turn takes a byte, so the length of the text is enough fuel. *)
Fixpoint duration_terms (fuel : nat) (d : Z) (s : string) : option Z :=
  match s with
  | EmptyString => Some d
  | String _ _ =>
      match fuel with
      | O => None
      | S fuel =>
          match duration_term s with
          | None => None
          | Some (v, s) => if (2 ^ 63 <? u64_add d v)%Z then None else duration_terms fuel (u64_add d v) s
          end
      end
  end.

Definition ParseDuration (s : string) : option Z :=
  let '(neg, s) := match s with
                   | String "-" rest => (true, rest)
                   | String "+" rest => (false, rest)
                   | _ => (false, s)
                   end in
  if s =s "0" then Some 0%Z
  else if s =s "" then None
  else match duration_terms (String.length s) 0 s with
       | None => None
       | Some d => if neg then Some (- d)%Z else if (max_i64 <? d)%Z then None else Some d
       end.

(** ** Examples *)

Example durations :
  ParseDuration <$> ["2s"; "1m"; "1.5s"; "1h30m"; "-.5s"; "0"; "100us"; ""; "5"; ".s"; "1 s"; "9223372036854775807ns"; "9223372036854775808ns"]
  = [Some 2000000000; Some 60000000000; Some 1500000000; Some 5400000000000; Some (-500000000); Some 0; Some 100000; None; None; None;
     None; Some 9223372036854775807; None]%Z.
Proof. vm_compute. reflexivity. Qed.

Example integers :
  ParseInt <$> ["16384"; "0x10"; "1_000"; "0b11"; "-5"; "08"; "0x"; "_1"; "1__0"; "0x_1f"; "9223372036854775808"; "-9223372036854775808"; ""; "+0"]
  = [Some 16384; Some 16; Some 1000; Some 3; Some (-5); None; None; None; None; Some 31; None; Some (-9223372036854775808); None; Some 0]%Z.
Proof. vm_compute. reflexivity. Qed.

Example flags :
  flag_parse (fun name => if name =s "format" then Some StringFlag else if name =s "json" then Some BoolFlag else None)
    ["--format=text"; "-json"; "--format"; "json"; "rest"; "-json"]
  = mkParsed [("format", StringValue "text"); ("json", BoolValue true); ("format", StringValue "json")] true ["rest"; "-json"].
Proof. vm_compute. reflexivity. Qed.
