(* ===== verification/Config.v ===== *)
(** * Settings (internal/config, and loadConfig of internal/cli)

    Every setting has a default, that a file may replace, that a flag may replace; the provenance
    of a setting says which of them it is from.

    Arguments: the configuration file as the operating system and [json.Decoder] give it. *)
From Stdlib Require Import Ascii.
From S2P Require Import Prelude GoString GoInt GoFloat GoFmt Contracts Policy GoFlag.

Definition MaxAllowedInputBytes : Z := Z.shiftl 1 20.
Definition maxConfigBytes : Z := 64 * 1024.
Definition Second : Z := 1000000000.
Definition Minute : Z := 60 * Second.

Record Config := mkConfig {
  cf_ExecutionPolicy : ExecutionPolicy;
  cf_HostPermission : HostPermission;
  cf_MaxInputBytes : Z;
  cf_Timeout : Z;
  cf_TimeoutText : string;
  cf_Format : string;
  cf_Provenance : gmap string string
}.

Definition fields : list string := ["execution_policy"; "host_permission"; "max_input_bytes"; "timeout"; "format"].

Definition Default : Config :=
  {| cf_ExecutionPolicy := ExecutionPolicyImproveOnly; cf_HostPermission := HostUnknown;
     cf_MaxInputBytes := 16 * 1024; cf_Timeout := 2 * Second; cf_TimeoutText := "2s"; cf_Format := "text";
     cf_Provenance := list_to_map ((fun field => (field, "default")) <$> fields) |}.

Definition configError (code : ErrorCode) (message : string) (retryable : bool) : StableError :=
  NewError code message "config" retryable.

(** [Validate]: the settings with the timeout parsed. *)
Definition Validate (c : Config) : result StableError Config :=
  if negb (ValidExecutionPolicy (cf_ExecutionPolicy c)) then Err (invalid "invalid execution policy" "execution_policy")
  else if negb (ValidHostPermission (cf_HostPermission c)) then Err (invalid "invalid host permission" "host_permission")
  else if (cf_MaxInputBytes c <? 1)%Z || (MaxAllowedInputBytes <? cf_MaxInputBytes c)%Z
  then Err (invalid ("max_input_bytes must be between 1 and " +:+ fmt_d MaxAllowedInputBytes) "max_input_bytes")
  else match ParseDuration (cf_TimeoutText c) with
       | Some duration =>
           if (duration <=? 0)%Z || (Minute <? duration)%Z then Err (invalid "timeout must be positive and at most 1m" "timeout")
           else if negb (cf_Format c =s "text") && negb (cf_Format c =s "json") then Err (invalid "format must be text or json" "format")
           else Ok (mkConfig (cf_ExecutionPolicy c) (cf_HostPermission c) (cf_MaxInputBytes c) duration (cf_TimeoutText c)
                      (cf_Format c) (cf_Provenance c))
       | None => Err (invalid "timeout must be positive and at most 1m" "timeout")
       end.

(** ** Layers *)

(** The settings that a file or the flags give. *)
Record Layer := mkLayer {
  la_ExecutionPolicy : option string;
  la_HostPermission : option string;
  la_MaxInputBytes : option Z;
  la_Timeout : option string;
  la_Format : option string
}.

Definition set_policy (origin value : string) (c : Config) : Config :=
  mkConfig value (cf_HostPermission c) (cf_MaxInputBytes c) (cf_Timeout c) (cf_TimeoutText c) (cf_Format c)
    (<["execution_policy" := origin]> (cf_Provenance c)).
Definition set_host (origin value : string) (c : Config) : Config :=
  mkConfig (cf_ExecutionPolicy c) value (cf_MaxInputBytes c) (cf_Timeout c) (cf_TimeoutText c) (cf_Format c)
    (<["host_permission" := origin]> (cf_Provenance c)).
Definition set_max_input (origin : string) (value : Z) (c : Config) : Config :=
  mkConfig (cf_ExecutionPolicy c) (cf_HostPermission c) value (cf_Timeout c) (cf_TimeoutText c) (cf_Format c)
    (<["max_input_bytes" := origin]> (cf_Provenance c)).
Definition set_timeout (origin value : string) (c : Config) : Config :=
  mkConfig (cf_ExecutionPolicy c) (cf_HostPermission c) (cf_MaxInputBytes c) (cf_Timeout c) value (cf_Format c)
    (<["timeout" := origin]> (cf_Provenance c)).
Definition set_format (origin value : string) (c : Config) : Config :=
  mkConfig (cf_ExecutionPolicy c) (cf_HostPermission c) (cf_MaxInputBytes c) (cf_Timeout c) (cf_TimeoutText c) value
    (<["format" := origin]> (cf_Provenance c)).

Definition given {A} (set : A -> Config -> Config) (value : option A) (c : Config) : Config :=
  match value with Some v => set v c | None => c end.

(** The assignments of [LoadFile]. *)
Definition apply_file (l : Layer) (c : Config) : Config :=
  given (set_format "file") (la_Format l)
    (given (set_timeout "file") (la_Timeout l)
       (given (set_max_input "file") (la_MaxInputBytes l)
          (given (set_host "file") (la_HostPermission l) (given (set_policy "file") (la_ExecutionPolicy l) c)))).

(** The assignments of [loadConfig], in their order. *)
Definition apply_flags (l : Layer) (c : Config) : Config :=
  given (set_timeout "cli") (la_Timeout l)
    (given (set_max_input "cli") (la_MaxInputBytes l)
       (given (set_host "cli") (la_HostPermission l)
          (given (set_policy "cli") (la_ExecutionPolicy l) (given (set_format "cli") (la_Format l) c)))).

(** ** The file *)

(** What a second [Decode] finds: the end of the text, a value, or an error. *)
Inductive Trailing := TrailingEnd | TrailingValue | TrailingInvalid.

(** What the operating system does with a path: whether it is a regular file, the bytes that can be
    read, whether reading and closing succeed, and whether the context ended before and after. *)
Record ConfigFile := mkConfigFile {
  fi_cancelled_before : bool;
  fi_regular : option bool;
  fi_data : option string;
  fi_read : bool;
  fi_close : bool;
  fi_cancelled_after : bool
}.

Definition LoadFile (decode : string -> option (Layer * Trailing)) (f : ConfigFile) : result StableError Config :=
  let cancelled := configError ErrorCodeBudgetExhausted "configuration read cancelled or timed out" true in
  let unavailable := configError ErrorCodeNotFound "configuration file unavailable" false in
  if fi_cancelled_before f then Err cancelled
  else match fi_regular f with
       | None => Err unavailable
       | Some false => Err (configError ErrorCodeInvalidSchema "configuration must be a regular file" false)
       | Some true =>
           match fi_data f with
           | None => Err unavailable
           | Some source =>
               let data := str_take (Z.to_nat (maxConfigBytes + 1)) source in
               if negb (fi_read f) then Err (configError ErrorCodeInternal "configuration read failed" true)
               else if negb (fi_close f) then Err (configError ErrorCodeInternal "configuration close failed" true)
               else if fi_cancelled_after f then Err cancelled
               else if (maxConfigBytes <? str_len data)%Z then Err (configError ErrorCodeInvalidSchema "configuration exceeds 65536 bytes" false)
               else match decode data with
                    | None => Err (configError ErrorCodeInvalidSchema "invalid configuration" false)
                    | Some (_, TrailingValue) => Err (configError ErrorCodeInvalidSchema "configuration contains multiple values" false)
                    | Some (_, TrailingInvalid) => Err (configError ErrorCodeInvalidSchema "invalid trailing configuration data" false)
                    | Some (layer, TrailingEnd) => Validate (apply_file layer Default)
                    end
           end
       end.

(** [loadConfig]: the file, when there is one, is validated before the flags are applied. *)
Definition loadConfig (decode : string -> option (Layer * Trailing)) (open : string -> ConfigFile) (path : string) (flags : Layer)
    : result StableError Config :=
  let! cfg := if path =s "" then Ok Default else LoadFile decode (open path) in
  Validate (apply_flags flags cfg).

(** ** Properties *)

(** The value of a setting in a layer. *)
Definition or_else {A} (first second : option A) (fallback : A) : A :=
  match first with Some v => v | None => default fallback second end.

(** The layer a setting is from. *)
Definition origin {A} (first second : option A) : string :=
  match first, second with Some _, _ => "cli" | None, Some _ => "file" | None, None => "default" end.

Definition no_layer : Layer := mkLayer None None None None None.

Definition provenance (policy host input timeout format : string) : gmap string string :=
  list_to_map [("execution_policy", policy); ("host_permission", host); ("max_input_bytes", input); ("timeout", timeout); ("format", format)].

(** What the settings mean, before they are checked. *)
Definition resolved (flags file : Layer) (timeout : Z) : Config :=
  {| cf_ExecutionPolicy := or_else (la_ExecutionPolicy flags) (la_ExecutionPolicy file) ExecutionPolicyImproveOnly;
     cf_HostPermission := or_else (la_HostPermission flags) (la_HostPermission file) HostUnknown;
     cf_MaxInputBytes := or_else (la_MaxInputBytes flags) (la_MaxInputBytes file) 16384%Z;
     cf_Timeout := timeout;
     cf_TimeoutText := or_else (la_Timeout flags) (la_Timeout file) "2s";
     cf_Format := or_else (la_Format flags) (la_Format file) "text";
     cf_Provenance := provenance (origin (la_ExecutionPolicy flags) (la_ExecutionPolicy file))
       (origin (la_HostPermission flags) (la_HostPermission file)) (origin (la_MaxInputBytes flags) (la_MaxInputBytes file))
       (origin (la_Timeout flags) (la_Timeout file)) (origin (la_Format flags) (la_Format file)) |}.

(** What [Validate] lets through. *)
Definition config_wf (c : Config) : Prop :=
  ValidExecutionPolicy (cf_ExecutionPolicy c) = true /\ ValidHostPermission (cf_HostPermission c) = true
  /\ (1 <= cf_MaxInputBytes c <= 1048576)%Z /\ (0 < cf_Timeout c <= Minute)%Z
  /\ ParseDuration (cf_TimeoutText c) = Some (cf_Timeout c)
  /\ (cf_Format c = "text" \/ cf_Format c = "json").

Definition with_timeout (t : Z) (c : Config) : Config :=
  mkConfig (cf_ExecutionPolicy c) (cf_HostPermission c) (cf_MaxInputBytes c) t (cf_TimeoutText c) (cf_Format c) (cf_Provenance c).

Lemma Validate_iff c c' : Validate c = Ok c' <-> config_wf c' /\ c' = with_timeout (cf_Timeout c') c.
Proof.
  unfold Validate, config_wf, with_timeout. split.
  - destruct (ValidExecutionPolicy _) eqn:E1; cbn [negb]; [|done]. destruct (ValidHostPermission _) eqn:E2; cbn [negb]; [|done].
    destruct (_ || _) eqn:E3; [done|]. apply orb_false_iff in E3 as [H1%Z.ltb_ge H2%Z.ltb_ge].
    destruct (ParseDuration _) as [t|] eqn:E4; [|done]. destruct (_ || _) eqn:E5; [done|].
    apply orb_false_iff in E5 as [H3%Z.leb_gt H4%Z.ltb_ge]. destruct (_ && _) eqn:E6; [done|]. intros [= <-].
    cbn [cf_ExecutionPolicy cf_HostPermission cf_MaxInputBytes cf_Timeout cf_TimeoutText cf_Format]. split; [|done].
    change MaxAllowedInputBytes with 1048576%Z in H2. split_and!; try done; try lia.
    apply andb_false_iff in E6 as [E6|E6]; apply negb_false_iff, str_eqb_eq in E6; [by left|by right].
  - intros [(H1 & H2 & H3 & H4 & H5 & H6) Hc].
    pose proof (f_equal cf_ExecutionPolicy Hc) as P1. pose proof (f_equal cf_HostPermission Hc) as P2.
    pose proof (f_equal cf_MaxInputBytes Hc) as P3. pose proof (f_equal cf_TimeoutText Hc) as P5. pose proof (f_equal cf_Format Hc) as P6.
    cbn [cf_ExecutionPolicy cf_HostPermission cf_MaxInputBytes cf_TimeoutText cf_Format] in P1, P2, P3, P5, P6.
    rewrite P1 in H1. rewrite P2 in H2. rewrite P3 in H3. rewrite P5 in H5. rewrite P6 in H6. rewrite H1, H2, H5. cbn [negb].
    change MaxAllowedInputBytes with 1048576%Z. rewrite !(proj2 (Z.ltb_ge _ _)), (proj2 (Z.leb_gt _ _)) by lia. cbn [orb].
    rewrite Hc at 2. destruct H6 as [-> | ->]; done.
Qed.

Lemma str_take_long n s : (String.length s <= n)%nat -> str_take n s = s.
Proof.
  intros H. rewrite <- (str_take_all s) at 2. rewrite <- (str_take_all s) at 1. rewrite str_take_take. f_equal. lia.
Qed.

(** The file that is opened has these settings and nothing else. *)
Definition reads_as (decode : string -> option (Layer * Trailing)) (f : ConfigFile) (layer : Layer) : Prop :=
  fi_cancelled_before f = false /\ fi_regular f = Some true /\ fi_read f = true /\ fi_close f = true
  /\ fi_cancelled_after f = false
  /\ exists data, fi_data f = Some data /\ (str_len data <= 65536)%Z /\ decode data = Some (layer, TrailingEnd).

Lemma LoadFile_iff decode f c :
  LoadFile decode f = Ok c <-> exists layer, reads_as decode f layer /\ Validate (apply_file layer Default) = Ok c.
Proof.
  unfold LoadFile, reads_as. change maxConfigBytes with 65536%Z. split.
  - destruct (fi_cancelled_before f); [done|]. destruct (fi_regular f) as [[]|]; [|done|done].
    destruct (fi_data f) as [source|]; [|done]. destruct (fi_read f); cbn [negb]; [|done]. destruct (fi_close f); cbn [negb]; [|done].
    destruct (fi_cancelled_after f); [done|]. destruct (65536 <? _)%Z eqn:El; [done|apply Z.ltb_ge in El].
    unfold str_len in El. rewrite length_str_take in El. rewrite str_take_long by lia.
    destruct (decode source) as [[layer []]|] eqn:Ed; [|done|done|done]. intros H. exists layer. split; [|done].
    split_and!; [done..|]. exists source. split; [done|]. split; [unfold str_len; lia|done].
  - intros (layer & (-> & -> & -> & -> & -> & data & -> & Hl & Hd) & H). cbn [negb]. unfold str_len in *.
    rewrite str_take_long by lia. rewrite (proj2 (Z.ltb_ge _ _)) by lia. by rewrite Hd.
Qed.

(** One setting at a time. *)
Lemma given_policy o v p h m t tt f p1 p2 p3 p4 p5 :
  given (set_policy o) v (mkConfig p h m t tt f (provenance p1 p2 p3 p4 p5))
  = mkConfig (default p v) h m t tt f (provenance (match v with Some _ => o | None => p1 end) p2 p3 p4 p5).
Proof. by destruct v. Qed.
Lemma given_host o v p h m t tt f p1 p2 p3 p4 p5 :
  given (set_host o) v (mkConfig p h m t tt f (provenance p1 p2 p3 p4 p5))
  = mkConfig p (default h v) m t tt f (provenance p1 (match v with Some _ => o | None => p2 end) p3 p4 p5).
Proof. by destruct v. Qed.
Lemma given_max_input o v p h m t tt f p1 p2 p3 p4 p5 :
  given (set_max_input o) v (mkConfig p h m t tt f (provenance p1 p2 p3 p4 p5))
  = mkConfig p h (default m v) t tt f (provenance p1 p2 (match v with Some _ => o | None => p3 end) p4 p5).
Proof. by destruct v. Qed.
Lemma given_timeout o v p h m t tt f p1 p2 p3 p4 p5 :
  given (set_timeout o) v (mkConfig p h m t tt f (provenance p1 p2 p3 p4 p5))
  = mkConfig p h m t (default tt v) f (provenance p1 p2 p3 (match v with Some _ => o | None => p4 end) p5).
Proof. by destruct v. Qed.
Lemma given_format o v p h m t tt f p1 p2 p3 p4 p5 :
  given (set_format o) v (mkConfig p h m t tt f (provenance p1 p2 p3 p4 p5))
  = mkConfig p h m t tt (default f v) (provenance p1 p2 p3 p4 (match v with Some _ => o | None => p5 end)).
Proof. by destruct v. Qed.

Lemma or_else_default {A} (first second : option A) fallback : default (default fallback second) first = or_else first second fallback.
Proof. by destruct first. Qed.

Lemma origin_match {A} (first second : option A) :
  match first with Some _ => "cli" | None => match second with Some _ => "file" | None => "default" end end = origin first second.
Proof. by destruct first, second. Qed.

Lemma apply_flags_resolved flags file t : apply_flags flags (with_timeout t (apply_file file Default)) = resolved flags file t.
Proof.
  unfold apply_flags, apply_file, resolved, with_timeout. change Default with
    (mkConfig ExecutionPolicyImproveOnly HostUnknown 16384 (2 * Second) "2s" "text" (provenance "default" "default" "default" "default" "default")).
  rewrite given_policy, given_host, given_max_input, given_timeout, given_format.
  cbn [cf_ExecutionPolicy cf_HostPermission cf_MaxInputBytes cf_TimeoutText cf_Format cf_Provenance].
  rewrite given_format, given_policy, given_host, given_max_input, given_timeout. by rewrite !or_else_default, !origin_match.
Qed.

Lemma with_timeout_twice t t' c : with_timeout t (with_timeout t' c) = with_timeout t c.
Proof. done. Qed.

Lemma apply_flags_with_timeout flags t c : with_timeout t (apply_flags flags c) = apply_flags flags (with_timeout t c).
Proof. destruct flags as [[] [] [] [] []]; reflexivity. Qed.

(** C19: a flag goes before the file and the file before the default, and the provenance says so.
    Settings are accepted exactly when the file, if one is named, can be read, is small enough, has
    one value and is acceptable as it is, and when each of the settings that result - which are
    those of the flags, or else of the file, or else the defaults - is acceptable: the two
    vocabularies, 1 to 1048576 bytes, a duration above zero and at most a minute, text or JSON. *)
Theorem loadConfig_exact decode open path flags c :
  loadConfig decode open path flags = Ok c
  <-> exists file,
        (path = "" /\ file = no_layer
         \/ path <> "" /\ reads_as decode (open path) file /\ exists t, config_wf (resolved no_layer file t))
        /\ config_wf c /\ c = resolved flags file (cf_Timeout c).
Proof.
  assert (forall file t, with_timeout t (apply_file file Default) = resolved no_layer file t) as Hfile by
    (intros file t; by rewrite <- apply_flags_resolved).
  assert (forall file t t', with_timeout t (apply_flags flags (with_timeout t' (apply_file file Default))) = resolved flags file t) as Hflags by
    (intros file t t'; by rewrite apply_flags_with_timeout, with_timeout_twice, apply_flags_resolved).
  unfold loadConfig. destruct (path =s "") eqn:Ep; [apply str_eqb_eq in Ep as ->|apply str_eqb_neq in Ep]; cbv beta iota.
  - rewrite Validate_iff. change Default with (with_timeout (2 * Second) (apply_file no_layer Default)). rewrite Hflags. split.
    + intros [H1 H2]. exists no_layer. split; [by left|done].
    + intros (file & [[_ ->]|[[] _]] & H1 & H2); done.
  - split.
    + destruct (LoadFile decode (open path)) as [cfg|e] eqn:E; cbv beta iota; [|done].
      apply LoadFile_iff in E as (file & Hr & [Hw He]%Validate_iff). rewrite Validate_iff, He, Hflags. intros [H1 H2].
      exists file. split; [right|done]. split; [done|]. split; [done|]. exists (cf_Timeout cfg). by rewrite <- Hfile, <- He.
    + intros (file & [[-> _]|(_ & Hr & t & Hw)] & H1 & H2); [done|].
      assert (LoadFile decode (open path) = Ok (resolved no_layer file t)) as ->.
      { apply LoadFile_iff. exists file. split; [done|]. apply Validate_iff. split; [done|]. by rewrite <- Hfile. }
      cbv beta iota. rewrite Validate_iff, <- Hfile, Hflags. done.
Qed.
