(* ===== verification/Cli.v ===== *)
(** * The command line (internal/cli): flags, input and repository boundaries

    What a command is given: its flags, its settings, its input, and the decisions of the repository
    it runs in.  [CliRun] has the commands.

    Arguments: [json.Decoder], the operating system (files, git, what is read from the input and
    when a context ends) and [policypack.Parse]. *)
From Stdlib Require Import Ascii.
From S2P Require Import Contracts GoString GoInt Utf8 GoPath Policy PolicyPack Engine Discovery GoFlag Config.

(** ** Flags *)

Record options := mkOptions {
  op_configPath : string;
  op_inputPath : string;
  op_format : string;
  op_executionPolicy : string;
  op_hostPermission : string;
  op_timeout : string;
  op_phase : string;
  op_reviewHead : string;
  op_maxInputBytes : Z;
  op_positional : list string;
  op_isRequestJSON : bool;
  op_isShowProvenance : bool;
  op_isFormatSet : bool;
  op_isPolicySet : bool;
  op_isHostSet : bool;
  op_isTimeoutSet : bool;
  op_isMaxInputSet : bool;
  op_isPhaseSet : bool;
  op_contextRoot : string;
  op_scopes : list string;
  op_policyPacks : list string
}.

Definition command_flags (name : string) : option FlagKind :=
  if one_of name ["config"; "input"; "format"; "execution-policy"; "host-permission"; "timeout"; "phase"; "review-head";
                  "context-root"; "scope"; "policy-pack"] then Some StringFlag
  else if name =s "max-input-bytes" then Some IntFlag
  else if one_of name ["request-json"; "show-provenance"] then Some BoolFlag
  else None.

(** The variables of the flags, with the ones that were visited. *)
Definition options_of (p : Parsed) (positional : list string) : options :=
  {| op_configPath := flag_string "config" "" p; op_inputPath := flag_string "input" "" p;
     op_format := flag_string "format" "" p; op_executionPolicy := flag_string "execution-policy" "" p;
     op_hostPermission := flag_string "host-permission" "" p; op_timeout := flag_string "timeout" "" p;
     op_phase := flag_string "phase" "design" p; op_reviewHead := flag_string "review-head" "" p;
     op_maxInputBytes := flag_int "max-input-bytes" p; op_positional := positional;
     op_isRequestJSON := flag_bool "request-json" p; op_isShowProvenance := flag_bool "show-provenance" p;
     op_isFormatSet := flag_visited "format" p; op_isPolicySet := flag_visited "execution-policy" p;
     op_isHostSet := flag_visited "host-permission" p; op_isTimeoutSet := flag_visited "timeout" p;
     op_isMaxInputSet := flag_visited "max-input-bytes" p; op_isPhaseSet := flag_visited "phase" p;
     op_contextRoot := flag_string "context-root" "" p; op_scopes := flag_list "scope" p;
     op_policyPacks := flag_list "policy-pack" p |}.

Definition parseOptions (command : string) (args : list string) : options * option StableError :=
  let p := flag_parse command_flags args in
  if negb (pd_ok p) then (options_of p [], Some (invalid "invalid command flags" "flags"))
  else
    let opt := options_of p (pd_args p) in
    let discovery := negb (op_contextRoot opt =s "") || negb (length (op_scopes opt) =? 0)%nat
                     || negb (length (op_policyPacks opt) =? 0)%nat in
    if discovery && negb (command =s "improve_prompt") && negb (command =s "lint_prompt")
    then (opt, Some (invalid "boundary flags unsupported for command" "flags"))
    else if discovery && (op_contextRoot opt =s "")
    then (opt, Some (invalid "context root required for boundary discovery" "context_root"))
    else (opt, None).

Definition requestedErrorFormat (opt : options) : string :=
  if op_isFormatSet opt && (op_format opt =s "json") then "json" else "text".

Definition set_when {A} (b : bool) (v : A) : option A := if b then Some v else None.

(** The settings among the flags. *)
Definition flags_layer (opt : options) : Layer :=
  {| la_ExecutionPolicy := set_when (op_isPolicySet opt) (op_executionPolicy opt);
     la_HostPermission := set_when (op_isHostSet opt) (op_hostPermission opt);
     la_MaxInputBytes := set_when (op_isMaxInputSet opt) (op_maxInputBytes opt);
     la_Timeout := set_when (op_isTimeoutSet opt) (op_timeout opt);
     la_Format := set_when (op_isFormatSet opt) (op_format opt) |}.

Definition formatProvenance (values : gmap string string) : string :=
  "config provenance: " +:+ str_join ", " ((fun field => field +:+ "=" +:+ default "" (values !! field)) <$> fields).

(** ** Input *)

Definition inputError (code : ErrorCode) (message : string) (retryable : bool) : StableError :=
  NewError code message "input" retryable.

Definition input_cancelled : StableError := inputError ErrorCodeBudgetExhausted "input read cancelled or timed out" true.
Definition input_close_failed : StableError := inputError ErrorCodeInternal "input close failed" true.

(** A reader that the program owns: what it has, whether reading and closing succeed, whether its
    context ended before, while it was read (and was noticed first), or after. *)
Record Owned := mkOwned {
  ow_data : string;
  ow_read : bool;
  ow_close : bool;
  ow_cancelled_before : bool;
  ow_cancelled_first : bool;
  ow_cancelled_after : bool
}.

(** The input stream and the files there are: whether they are regular, and their readers. *)
Record Input := mkInput {
  in_stdin : Owned;
  in_stat : string -> option bool;
  in_open : string -> option Owned
}.

Definition validateInput (data : string) (limit : Z) : result StableError string :=
  if (limit <? str_len data)%Z then Err (inputError ErrorCodeInvalidSchema "input exceeds configured byte limit" false)
  else if negb (valid_utf8 data) then Err (inputError ErrorCodeInvalidSchema "input must be valid utf-8" false)
  else if (str_len (trim_space data) =? 0)%Z then Err (inputError ErrorCodeInvalidSchema "input must not be empty" false)
  else Ok data.

(** The reader goes on for one byte more than the limit. *)
Definition readOwned (reader : Owned) (limit : Z) : result StableError string :=
  if ow_cancelled_before reader || ow_cancelled_first reader then
    if ow_close reader then Err input_cancelled else Err input_close_failed
  else if negb (ow_read reader) then Err (inputError ErrorCodeInternal "input read failed" true)
  else if negb (ow_close reader) then Err input_close_failed
  else if ow_cancelled_after reader then Err input_cancelled
  else Ok (str_take (Z.to_nat (limit + 1)) (ow_data reader)).

Definition readInput (input : Input) (path : string) (args : list string) (limit : Z) : result StableError string :=
  if negb (path =s "") && negb (length args =? 0)%nat
  then Err (inputError ErrorCodeInvalidSchema "use either positional input or --input" false)
  else if negb (length args =? 0)%nat then
    if negb (ow_close (in_stdin input)) then Err input_close_failed else validateInput (str_join " " args) limit
  else
    let! reader :=
      if path =s "" then Ok (in_stdin input)
      else if negb (ow_close (in_stdin input)) then Err input_close_failed
      else match in_stat input path with
           | None => Err (inputError ErrorCodeNotFound "input file unavailable" false)
           | Some false => Err (inputError ErrorCodeInvalidSchema "input must be a regular file" false)
           | Some true => match in_open input path with
                          | None => Err (inputError ErrorCodeNotFound "input file unavailable" false)
                          | Some file => Ok file
                          end
           end in
    let! data := readOwned reader limit in
    validateInput data limit.

(** ** Boundaries *)

Record FileInfo := mkFileInfo { fs_dir : bool; fs_regular : bool; fs_symlink : bool; fs_size : Z }.

(** What running git does: what it writes, piece by piece, whether it exits with success and
    whether the context ended. *)
Record GitRun := mkGitRun { gr_stdout : list string; gr_ok : bool; gr_cancelled : bool }.

Record Repository := mkRepository {
  ry_lstat : string -> option FileInfo;
  ry_read : string -> option string;
  ry_git : string -> GitRun;
  ry_reader : string -> gset string -> Reader;
  ry_parse : string -> result StableError Pack;
  ry_cancelled : Z -> bool
}.

Definition maxIgnoredMetadataBytes : Z := Z.shiftl 1 20.

(** [boundedOutput]: a write that does not fit fails and is not kept. *)
Fixpoint bounded_output (writes : list string) (kept : string) : string * bool :=
  match writes with
  | [] => (kept, false)
  | data :: writes =>
      if (maxIgnoredMetadataBytes - str_len kept <? str_len data)%Z then (kept, true)
      else bounded_output writes (kept +:+ data)
  end.

Definition rootError (message : string) : StableError := NewError ErrorCodeSemanticInvalid message "context_root" false.

Definition NUL_byte : ascii := "000".

(** The loop over the names that are left. *)
Fixpoint parse_ignored (names : list string) (ignored : gset string) : result StableError (gset string) :=
  match names with
  | [] => Ok ignored
  | raw :: names =>
      if raw =s "" then parse_ignored names ignored
      else
        let clean := path_clean (trim_suffix "/" raw) in
        if (clean =s ".") || is_abs clean || (clean =s "..") || has_prefix "../" clean then Err (rootError "invalid ignored metadata")
        else
          let ignored := {[clean]} ∪ ignored in
          if (MaxMetadataEntries <? Z.of_nat (size ignored))%Z then Err (rootError "ignored metadata exceeds entry limit")
          else parse_ignored names ignored
  end.

Definition parseIgnoredPaths (data : string) : result StableError (gset string) := parse_ignored (split_on NUL_byte data) ∅.

(** The loop of [hasGitMarker]: [depth] directories are left. *)
Fixpoint git_marker (lstat : string -> option FileInfo) (depth : nat) (current : string) : bool :=
  match depth with
  | O => false
  | S depth =>
      match lstat (path_join current ".git") with
      | Some _ => true
      | None =>
          let parent := path_dir current in
          if parent =s current then false else git_marker lstat depth parent
      end
  end.

Definition hasGitMarker (lstat : string -> option FileInfo) (root : string) : bool :=
  git_marker lstat (Z.to_nat MaxScopeDepth) (path_clean root).

Section Repository.
Context (repository : Repository).

Definition ignoredRepositoryPaths (root : string) : result StableError (gset string) :=
  if negb (hasGitMarker (ry_lstat repository) root) then Ok ∅
  else
    let run := ry_git repository root in
    let '(output, overflow) := bounded_output (gr_stdout run) "" in
    if negb (gr_ok run) || overflow then
      if gr_cancelled run then Err (NewError ErrorCodeBudgetExhausted "ignore discovery cancelled or timed out" "context_root" true)
      else if overflow then Err (rootError "ignored metadata exceeds bounded limit")
      else Err (rootError "repository ignore metadata unavailable")
    else parseIgnoredPaths output.

(** The packs, read one after the other. *)
Fixpoint read_packs (names : list string) : result StableError (list Pack) :=
  match names with
  | [] => Ok []
  | name :: names =>
      let unbounded := Err (invalid "policy pack must be a bounded regular file" "policy_pack") in
      match ry_lstat repository name with
      | None => unbounded
      | Some info =>
          if negb (fs_regular info) || fs_symlink info || (MaxPackBytes <? fs_size info)%Z then unbounded
          else match ry_read repository name with
               | None => Err (NewError ErrorCodeNotFound "policy pack unavailable" "policy_pack" false)
               | Some data =>
                   let! pack := ry_parse repository data in
                   let! packs := read_packs names in
                   Ok (pack :: packs)
               end
      end
  end.

Definition boundaryDecisions (opt : options) : result StableError (list BoundaryDecision) :=
  if op_contextRoot opt =s "" then Ok []
  else
    let root := path_clean (op_contextRoot opt) in
    let unreal := rootError "context root must be a real directory" in
    match ry_lstat repository root with
    | None => Err unreal
    | Some info =>
        if negb (fs_dir info) || fs_symlink info then Err unreal
        else if (MaxPacks <? Z.of_nat (length (op_policyPacks opt)))%Z
        then Err (invalid "too many extension policy packs" "policy_pack")
        else
          let! extensions := read_packs (op_policyPacks opt) in
          let! ignored := ignoredRepositoryPaths root in
          let! discovered := Discover (ry_cancelled repository) (ry_reader repository root ignored) (op_scopes opt) in
          EvaluateContext discovered extensions
    end.
End Repository.

(** ** Properties *)

(** The whole text of a reader that was read without trouble. *)
Lemma readOwned_ok reader limit data :
  readOwned reader limit = Ok data -> data = str_take (Z.to_nat (limit + 1)) (ow_data reader).
Proof.
  unfold readOwned. destruct (_ || _); [by destruct (ow_close reader)|]. destruct (ow_read reader); cbn [negb]; [|done].
  destruct (ow_close reader); cbn [negb]; [|done]. destruct (ow_cancelled_after reader); [done|]. by intros [= <-].
Qed.

Lemma validateInput_ok data limit data' :
  validateInput data limit = Ok data' ->
  data' = data /\ (str_len data <= limit)%Z /\ valid_utf8 data = true /\ trim_space data <> "".
Proof.
  unfold validateInput. destruct (_ <? _)%Z eqn:El; [done|apply Z.ltb_ge in El]. destruct (valid_utf8 data); cbn [negb]; [|done].
  destruct (_ =? 0)%Z eqn:E; [done|]. intros [= <-]. apply Z.eqb_neq in E. split_and!; try done. intros H. rewrite H in E. by apply E.
Qed.

(** What the user gave: the words of the command line, the file or the standard input. *)
Definition given_input (input : Input) (path : string) (args : list string) : option string :=
  match args with
  | [] => if path =s "" then Some (ow_data (in_stdin input)) else ow_data <$> in_open input path
  | _ => Some (str_join " " args)
  end.

(** The input is taken as a whole or not at all.  What a command works on is exactly the words
    of the command line, the file or the standard input, never a part of it: it is at most as long
    as the limit, valid UTF-8 and not blank. *)
Theorem readInput_whole input path args limit data :
  (0 <= limit)%Z -> readInput input path args limit = Ok data ->
  given_input input path args = Some data /\ (str_len data <= limit)%Z /\ valid_utf8 data = true /\ trim_space data <> "".
Proof.
  assert (forall reader, (0 <= limit)%Z -> (match readOwned reader limit with Ok data => validateInput data limit | Err e => Err e end) = Ok data ->
    ow_data reader = data /\ (str_len data <= limit)%Z /\ valid_utf8 data = true /\ trim_space data <> "") as H.
  { intros reader Hl. destruct (readOwned reader limit) as [read|e] eqn:E; [|done]. intros Hv.
    destruct (validateInput_ok _ _ _ Hv) as (-> & H1 & H2 & H3). split; [|done]. apply readOwned_ok in E.
    unfold str_len in H1. rewrite E, length_str_take in H1. rewrite E. symmetry. apply str_take_long. lia. }
  intros Hl. unfold readInput, given_input. destruct args as [|arg args]; cbn [length Nat.eqb negb].
  - rewrite andb_false_r. destruct (path =s ""); [intros E; destruct (H _ Hl E) as (-> & ?); done|].
    destruct (ow_close _); cbn [negb]; [|done]. destruct (in_stat input path) as [[]|]; [|done|done].
    destruct (in_open input path) as [file|]; [|done]. intros E. destruct (H _ Hl E) as (<- & ?). done.
  - rewrite andb_true_r. destruct (negb _); [done|]. destruct (ow_close _); cbn [negb]; [|done]. intros E.
    destruct (validateInput_ok _ _ _ E) as (-> & ?). done.
Qed.

(** The names git reports are inside of the root, and bounded. *)
Lemma parse_ignored_ok names ignored result :
  parse_ignored names ignored = Ok result ->
  (forall p, p ∈ ignored -> p <> "." /\ confined p) -> (Z.of_nat (size ignored) <= MaxMetadataEntries)%Z ->
  (forall p, p ∈ result -> p <> "." /\ confined p) /\ (Z.of_nat (size result) <= MaxMetadataEntries)%Z.
Proof.
  revert ignored. induction names as [|raw names IH]; intros ignored; cbn [parse_ignored]; [by intros [= <-]|].
  destruct (raw =s ""); [apply IH|]. set (clean := path_clean _). destruct (_ || _ || _ || _) eqn:Ec; [done|].
  apply orb_false_iff in Ec as [[[E1 E2]%orb_false_iff E3]%orb_false_iff E4].
  destruct (_ <? _)%Z eqn:Es; [done|apply Z.ltb_ge in Es]. intros E Hi Hb. apply (IH _ E); [|done].
  intros p [->%elem_of_singleton|Hp]%elem_of_union; [|by apply Hi]. split; [by apply str_eqb_neq|].
  apply str_eqb_neq in E1, E3. pose proof (clean_is_confined _ E2 E3 E4) as H. by rewrite bool_decide_eq_false_2 in H.
Qed.

Lemma parseIgnoredPaths_ok data result :
  parseIgnoredPaths data = Ok result ->
  (forall p, p ∈ result -> p <> "." /\ confined p) /\ (Z.of_nat (size result) <= MaxMetadataEntries)%Z.
Proof. intros E. apply (parse_ignored_ok _ _ _ E); [set_solver|]. rewrite size_empty. unfold MaxMetadataEntries. lia. Qed.

(** ** Examples *)

Definition sample_input : Input :=
  mkInput (mkOwned "from the pipe" true true false false false) (fun path => if path =s "notes" then Some true else None)
    (fun path => if path =s "notes" then Some (mkOwned "from the file" true true false false false) else None).

Example readInput_whole_witness :
  readInput sample_input "notes" [] 13 = Ok "from the file" /\ given_input sample_input "notes" [] = Some "from the file".
Proof.
  assert (readInput sample_input "notes" [] 13 = Ok "from the file") as E by (vm_compute; reflexivity). split; [exact E|].
  exact (proj1 (readInput_whole sample_input "notes" [] 13 "from the file" ltac:(discriminate) E)).
Defined.

Example inputs :
  (readInput sample_input "notes" [] 12, readInput sample_input "" [] 20, readInput sample_input "" ["two"; "words"] 20,
   readInput sample_input "notes" ["and"; "words"] 20)
  = (Err (inputError ErrorCodeInvalidSchema "input exceeds configured byte limit" false), Ok "from the pipe", Ok "two words",
     Err (inputError ErrorCodeInvalidSchema "use either positional input or --input" false)).
Proof. vm_compute. reflexivity. Qed.

(** Markers of git are looked for in the directories that a path names: those above a relative path
    are not. *)
Example relative_roots :
  let lstat path := if path =s "/work/repo/.git" then Some (mkFileInfo true false false 0) else None in
  (hasGitMarker lstat "/work/repo/sub", hasGitMarker lstat ".") = (true, false).
Proof. vm_compute. reflexivity. Qed.
