(* ===== verification/Textutil.v ===== *)
(** * Normalising input text (internal/textutil/normalize.go) *)
From S2P Require Import Contracts Utf8 Runes.
From Stdlib Require Import Ascii.

Definition CR : string := String "013"%char "".
Definition LF : string := String "010"%char "".
Definition newline : ascii := "010"%char.

(** The variables [out] (reversed) and [blank] of the loop. *)
Definition push_line (s : list string * bool) (line : string) : list string * bool :=
  let '(out, blank) := s in
  let line := trim_right (" " +:+ String "009"%char "") line in
  if trim_space line =s "" then
    if blank || bool_decide (out = []) then (out, blank) else ("" :: out, true)
  else (line :: out, false).

Definition is_empty (line : string) : bool := line =s "".

(** The loop that drops the empty lines at the end. *)
Definition normalized_lines (input : string) : list string :=
  let input := replace_all CR LF (replace_all (CR +:+ LF) LF input) in
  rev (drop_while is_empty (foldl push_line ([], false) (split_on newline input)).1).

Definition Normalize (input : string) : result StableError string :=
  if negb (valid_utf8 input) then Err (invalid "input must be valid UTF-8" "input")
  else
    let value := trim_space (str_join LF (normalized_lines input)) in
    if value =s "" then Err (invalid "input must not be empty" "input") else Ok value.

(** ** Normal form *)

Definition blank_cut : Z -> bool := in_cutset (" " +:+ String "009"%char "").

(** A line of a normalised text: no separators, no blanks at the end, and empty
    when there is nothing but space on it. *)
Record line_ok (line : string) : Prop := {
  lo_newline : no_char newline line;
  lo_return : no_char "013"%char line;
  lo_right : ends_outside blank_cut line;
  lo_blank : all_in is_space line -> line = "";
  lo_valid : valid_utf8 line = true
}.

(** No empty line at the start ([blank]) or after another one. *)
Fixpoint spaced (blank : bool) (lines : list string) : Prop :=
  match lines with
  | [] => True
  | line :: rest => (line = "" -> blank = false) /\ spaced (is_empty line) rest
  end.

Definition ends_blank (blank : bool) (lines : list string) : bool :=
  match last lines with None => blank | Some line => is_empty line end.

Record normal_lines (lines : list string) : Prop := {
  nl_lines : Forall line_ok lines;
  nl_spaced : spaced true lines;
  nl_end : last lines <> Some ""
}.

Lemma is_empty_spec line : is_empty line = true <-> line = "".
Proof. apply str_eqb_eq. Qed.

Lemma ends_blank_snoc blank lines line : ends_blank blank (lines ++ [line]) = is_empty line.
Proof. unfold ends_blank. by rewrite last_snoc. Qed.

Lemma spaced_snoc blank lines line :
  spaced blank (lines ++ [line]) <->
  spaced blank lines /\ (line = "" -> ends_blank blank lines = false).
Proof.
  revert blank. induction lines as [|l lines IH]; intros blank; cbn [spaced app].
  { cbn. tauto. }
  rewrite IH. assert (ends_blank blank (l :: lines) = ends_blank (is_empty l) lines) as ->.
  { unfold ends_blank. rewrite last_cons. by destruct (last lines). }
  tauto.
Qed.

Lemma spaced_prefix blank l1 l2 : spaced blank (l1 ++ l2) -> spaced blank l1.
Proof.
  revert blank. induction l1 as [|l l1 IH]; intros blank; cbn; [done|].
  intros [H1 H2]. split; [done|]. by apply IH.
Qed.

Lemma cut_is_space r : blank_cut r = true -> is_space r = true.
Proof.
  unfold blank_cut, in_cutset. intros H.
  change (runes _) with [32%Z; 9%Z] in H. cbn in H. bool_cases; subst; done.
Qed.

Lemma trimmed_line_ok line :
  no_char newline line -> no_char "013"%char line -> valid_utf8 line = true ->
  let trimmed := trim_right_func blank_cut line in
  no_char newline trimmed /\ no_char "013"%char trimmed /\ ends_outside blank_cut trimmed /\
  valid_utf8 trimmed = true.
Proof.
  intros H1 H2 Hv trimmed.
  destruct (drop_while_end_split (on_rune blank_cut) (chunks line)) as (post & Hs & _).
  assert (line = trimmed +:+ chunk_bytes post) as Hl.
  { rewrite <- (chunk_bytes_chunks line), Hs at 1. by rewrite chunk_bytes_app. }
  rewrite Hl in H1, H2. apply no_char_app in H1 as [H1 _], H2 as [H2 _].
  split_and!; [done|done|apply trim_right_ends|by apply valid_trim_right].
Qed.

(** The loop invariant: the lines pushed so far are in normal form. *)
Definition pushed_ok (s : list string * bool) : Prop :=
  Forall line_ok (rev s.1) /\ spaced true (rev s.1) /\
  s.2 || bool_decide (s.1 = []) = ends_blank true (rev s.1).

Lemma push_line_ok s line :
  no_char newline line -> no_char "013"%char line -> valid_utf8 line = true ->
  pushed_ok s -> pushed_ok (push_line s line).
Proof.
  destruct s as [out blank]. intros H1 H2 Hv (Hl & Hs & Hb). unfold push_line.
  fold (trim_right_func blank_cut line).
  destruct (trimmed_line_ok line H1 H2 Hv) as (T1 & T2 & T3 & T4).
  unfold trim_right. fold blank_cut. set (t := trim_right_func blank_cut line) in *.
  cbn [fst snd] in *. case_goal; str_facts.
  - destruct (blank || bool_decide (out = [])) eqn:Eb.
    { unfold pushed_ok. cbn [fst snd]. rewrite Eb. by split_and!. }
    unfold pushed_ok. cbn [fst snd rev]. split_and!.
    + apply Forall_app. split; [done|]. constructor; [|constructor].
      split; try constructor; done.
    + apply spaced_snoc. split; [done|]. by rewrite <- Hb.
    + by rewrite ends_blank_snoc.
  - unfold pushed_ok. cbn [fst snd rev]. assert (t <> "") as Hne by (by intros ->).
    split_and!.
    + apply Forall_app. split; [done|]. constructor; [|constructor]. split; try done.
      intros Hall. exfalso. apply E. by apply trim_empty.
    + apply spaced_snoc. by split.
    + rewrite ends_blank_snoc. by apply str_eqb_neq in Hne.
Qed.

Lemma normalized_lines_normal input :
  valid_utf8 input = true -> normal_lines (normalized_lines input).
Proof.
  intros Hv. unfold normalized_lines.
  set (text := replace_all CR LF _). set (s := foldl push_line _ _).
  assert (valid_utf8 text = true) as Hvt by (apply valid_replace; [done..|by apply valid_replace]).
  assert (no_char "013"%char text) as Hcr by (apply replace_char_no_char; by constructor).
  assert (pushed_ok s) as (Hl & Hs & _).
  { assert (Forall (fun l => no_char newline l /\ no_char "013"%char l /\ valid_utf8 l = true)
      (split_on newline text)) as Hlines.
    { rewrite !Forall_and. split_and!.
      - apply split_on_no_sep.
      - by apply split_on_no_char.
      - apply forallb_spec. by rewrite <- valid_split. }
    assert (pushed_ok ([], false)) as H0 by (split_and!; [constructor|done|done]).
    subst s. revert H0. generalize (@nil string, false) as s0.
    induction Hlines as [|l lines (H1 & H2 & H3) _ IH]; intros s0 H0; [done|].
    by apply IH, push_line_ok. }
  destruct (drop_while_split is_empty s.1) as (pre & Hpre & _).
  rewrite Hpre, rev_app_distr in Hl, Hs. apply Forall_app in Hl as [Hl _].
  apply spaced_prefix in Hs. split; [done..|].
  destruct (drop_while is_empty s.1) as [|x r] eqn:E; [done|]. cbn [rev]. rewrite last_snoc.
  intros [= ->]. by apply drop_while_head in E.
Qed.

(** Pushing lines in normal form changes none of them. *)
Lemma push_normal lines out blank :
  Forall line_ok lines -> spaced (blank || bool_decide (out = [])) lines ->
  (foldl push_line (out, blank) lines).1 = rev lines ++ out.
Proof.
  intros Hl. revert out blank. induction Hl as [|l lines [_ _ Hr Hb _] Hl IH];
    intros out blank Hs; [done|].
  cbn [foldl rev]. destruct Hs as [Hs1 Hs2]. unfold push_line.
  unfold trim_right. fold blank_cut. rewrite trim_right_id by done.
  rewrite <- app_assoc. case_goal; str_facts.
  - apply trim_empty, Hb in E. subst l. rewrite Hs1 by done. rewrite IH; [done|].
    by rewrite orb_true_l.
  - rewrite IH; [done|]. cbn [orb]. rewrite bool_decide_eq_false_2 by done.
    assert (is_empty l = false) as Hne; [|by rewrite Hne in Hs2].
    apply str_eqb_neq. intros ->. done.
Qed.

Lemma normal_join_id lines :
  normal_lines lines -> lines <> [] -> normalized_lines (str_join LF lines) = lines.
Proof.
  intros [Hl Hs He] Hne. unfold normalized_lines.
  assert (no_char "013"%char (str_join LF lines)) as Hcr.
  { clear -Hl. induction Hl as [|l lines H Hl IH]; [constructor|].
    destruct lines as [|l2 lines]; [apply H|]. cbn [str_join].
    apply no_char_app. split; [apply H|]. apply no_char_app. split; [|done]. by repeat constructor. }
  assert (replace_all (CR +:+ LF) LF (str_join LF lines) = str_join LF lines) as ->
    by exact (replace_all_id _ _ _ _ Hcr).
  assert (replace_all CR LF (str_join LF lines) = str_join LF lines) as ->
    by exact (replace_all_id _ _ _ _ Hcr).
  unfold LF at 1. rewrite split_join; [|done|].
  2: { eapply Forall_impl; [exact Hl|]. by intros l []. }
  rewrite push_normal by done. rewrite app_nil_r, drop_while_id, rev_involutive; [done|].
  intros x Hx. destruct lines as [|l lines _] using rev_ind; [done|].
  rewrite rev_app_distr in Hx. cbn in Hx. injection Hx as <-. rewrite last_snoc in He.
  apply str_eqb_neq. congruence.
Qed.

(** ** Trimming the joined lines *)

Lemma not_blank line : line_ok line -> line <> "" -> ~ all_in is_space line.
Proof. intros H Hne Hall. by apply Hne, (lo_blank _ H). Qed.

Lemma ends_outside_cut line : ends_outside is_space line -> ends_outside blank_cut line.
Proof.
  intros H ch Hch. specialize (H ch Hch). apply not_true_iff_false. intros Hc.
  apply cut_is_space in Hc. congruence.
Qed.

Lemma line_ok_trim_left line :
  line_ok line -> line <> "" -> line_ok (trim_left_func is_space line).
Proof.
  intros Hl Hne. pose proof (not_blank _ Hl Hne) as Hall. destruct Hl as [H1 H2 H3 H4 H5].
  destruct (trim_left_suffix is_space line) as (pre & Hs). rewrite Hs in H1, H2.
  split.
  - apply no_char_app in H1. tauto.
  - apply no_char_app in H2. tauto.
  - by apply trim_left_ends.
  - intros H. by apply trim_left_not_all in H.
  - by apply valid_trim_left.
Qed.

Lemma line_ok_trim_right line :
  line_ok line -> line <> "" -> line_ok (trim_right_func is_space line).
Proof.
  intros Hl Hne. pose proof (not_blank _ Hl Hne) as Hall. destruct Hl as [H1 H2 H3 H4 H5].
  destruct (trim_right_prefix is_space line) as (post & Hs). rewrite Hs in H1, H2.
  split.
  - apply no_char_app in H1. tauto.
  - apply no_char_app in H2. tauto.
  - apply ends_outside_cut, trim_right_ends.
  - intros H. by apply trim_right_not_all in H.
  - by apply valid_trim_right.
Qed.

(** The lines after the first one, as they follow it. *)
Definition join_tail (lines : list string) : string :=
  match lines with [] => "" | _ => LF +:+ str_join LF lines end.

Lemma join_cons line lines : str_join LF (line :: lines) = line +:+ join_tail lines.
Proof. destruct lines; cbn [str_join join_tail]; by rewrite ?str_app_nil_r. Qed.

Lemma join_snoc lines line :
  str_join LF (lines ++ [line]) =
  match lines with [] => line | _ => str_join LF lines +:+ LF +:+ line end.
Proof.
  induction lines as [|l lines IH]; [done|]. cbn [app]. rewrite join_cons.
  destruct lines as [|l2 lines]; [done|]. cbn [app join_tail] in *.
  rewrite IH, (join_cons l (l2 :: lines)). cbn [join_tail]. by rewrite !str_app_assoc.
Qed.

(** Lines that each end in a newline. *)
Definition unlines (lines : list string) : string := str_concat ((fun l => l +:+ LF) <$> lines).

Lemma unlines_app l1 l2 : unlines (l1 ++ l2) = unlines l1 +:+ unlines l2.
Proof.
  unfold unlines. rewrite fmap_app. induction (_ <$> l1) as [|s l IH]; [done|].
  cbn. by rewrite IH, str_app_assoc.
Qed.

Lemma unlines_join line lines : unlines (line :: lines) = str_join LF (line :: lines) +:+ LF.
Proof.
  revert line. induction lines as [|l lines IH]; intros line.
  - cbn. by rewrite !str_app_nil_r.
  - rewrite join_cons. cbn [join_tail]. rewrite str_app_assoc, str_app_assoc, <- IH. cbn.
    by rewrite str_app_assoc.
Qed.

Lemma normal_trim_left lines :
  normal_lines lines -> lines <> [] ->
  exists lines', trim_left_func is_space (str_join LF lines) = str_join LF lines' /\
    normal_lines lines' /\ lines' <> [].
Proof.
  intros [Hl Hs He] Hne. destruct lines as [|l lines]; [done|].
  destruct Hs as [Hs1 Hs2]. assert (l <> "") as Hl0 by (intros ->; by specialize (Hs1 eq_refl)).
  apply Forall_cons in Hl as [Hl1 Hl2]. pose proof (not_blank _ Hl1 Hl0) as Hall.
  exists (trim_left_func is_space l :: lines). rewrite !join_cons. split.
  { apply trim_left_app; [|done]. destruct lines; [done|]. cbn [join_tail]. unfold LF.
    by rewrite str_app_cons. }
  assert (trim_left_func is_space l <> "") as Hne'.
  { intros H. by apply trim_left_empty in H. }
  split; [|done]. split.
  - constructor; [by apply line_ok_trim_left|done].
  - split; [done|]. assert (is_empty (trim_left_func is_space l) = is_empty l) as ->; [|done].
    transitivity false; [|symmetry]; by apply str_eqb_neq.
  - destruct lines as [|l2 lines]; [|done]. cbn. congruence.
Qed.

Lemma normal_trim_right lines :
  normal_lines lines -> lines <> [] ->
  exists lines', trim_right_func is_space (str_join LF lines) = str_join LF lines' /\
    normal_lines lines' /\ lines' <> [].
Proof.
  intros [Hl Hs He] Hne. destruct lines as [|l lines _] using rev_ind; [done|].
  rewrite last_snoc in He. assert (l <> "") as Hl0 by congruence.
  apply Forall_app in Hl as [Hl2 [Hl1 _]%Forall_cons]. apply spaced_snoc in Hs as [Hs1 Hs2].
  pose proof (not_blank _ Hl1 Hl0) as Hall.
  exists (lines ++ [trim_right_func is_space l]). rewrite !join_snoc. split.
  { destruct lines as [|l2 lines]; [done|]. rewrite <- !str_app_assoc.
    apply trim_right_app; [|done]. apply valid_utf8_concat; [|done].
    change LF with (String newline ""). rewrite valid_join by done.
    apply forallb_spec. eapply Forall_impl; [exact Hl2|]. by intros x []. }
  assert (trim_right_func is_space l <> "") as Hne'.
  { intros H. by apply trim_right_empty in H. }
  split; [|by destruct lines]. split.
  - apply Forall_app. split; [done|]. constructor; [by apply line_ok_trim_right|constructor].
  - apply spaced_snoc. by split.
  - rewrite last_snoc. congruence.
Qed.

(** [line_ok] as a test, for lines that are known. *)
Definition line_okb (line : string) : bool :=
  forallb (fun c => negb (Ascii.eqb c newline) && negb (Ascii.eqb c "013"%char))
    (String.list_ascii_of_string line)
  && valid_utf8 line && (trim_right_func blank_cut line =s line)
  && ((line =s "") || negb (trim_space line =s "")).

Lemma line_okb_spec line : line_okb line = true -> line_ok line.
Proof.
  unfold line_okb. intros H. bool_facts. str_facts.
  rewrite forallb_forall in H. setoid_rewrite andb_true_iff in H.
  split; try done.
  - apply Forall_forall. intros x Hx. apply list_elem_of_In, H in Hx as [Hx _].
    intros ->. done.
  - apply Forall_forall. intros x Hx. apply list_elem_of_In, H in Hx as [_ Hx].
    intros ->. done.
  - rewrite <- H1. apply trim_right_ends.
  - intros Ha. apply trim_empty in Ha. unfold trim_space in H0. rewrite Ha in H0.
    by apply orb_true_iff in H0 as [?%str_eqb_eq|?].
Qed.

Lemma line_okb_all lines : forallb line_okb lines = true -> Forall line_ok lines.
Proof. rewrite forallb_spec. intros H. by eapply Forall_impl, line_okb_spec. Qed.

(** What [Normalize] returns is a join of lines in normal form, trimmed. *)
Lemma Normalize_Ok input value :
  Normalize input = Ok value ->
  exists lines, value = str_join LF lines /\ normal_lines lines /\ lines <> [] /\
    starts_outside is_space value /\ ends_outside is_space value /\ value <> "" /\
    valid_utf8 value = true.
Proof.
  unfold Normalize. intros H. case_hyp H; [done|]. case_hyp H; [done|]. injection H as <-.
  bool_facts. str_facts.
  pose proof (normalized_lines_normal _ E) as Hn.
  assert (normalized_lines input <> []) as Hne.
  { intros Hnil. rewrite Hnil in E0. by apply E0. }
  destruct (normal_trim_left _ Hn Hne) as (l1 & H1 & Hn1 & Hne1).
  destruct (normal_trim_right _ Hn1 Hne1) as (l2 & H2 & Hn2 & Hne2).
  exists l2. split_and!; try done.
  - unfold trim_space. by rewrite trim_func_split, H1.
  - apply trim_starts.
  - apply trim_ends.
  - apply valid_trim. change LF with (String newline ""). rewrite valid_join by done.
    apply forallb_spec. eapply Forall_impl; [apply Hn|]. by intros x [].
Qed.

Lemma Normalize_join lines value :
  normal_lines lines -> lines <> [] -> value = str_join LF lines ->
  starts_outside is_space value -> ends_outside is_space value -> value <> "" ->
  Normalize value = Ok value.
Proof.
  intros Hn Hne Hv Hs He Hv0. unfold Normalize.
  assert (valid_utf8 value = true) as Hvalid.
  { rewrite Hv. change LF with (String newline ""). rewrite valid_join by done.
    apply forallb_spec. eapply Forall_impl; [apply Hn|]. by intros x []. }
  rewrite Hvalid. cbn [negb]. rewrite Hv, normal_join_id, <- Hv by done.
  unfold trim_space. rewrite trim_id by done.
  by rewrite (proj2 (str_eqb_neq _ _)).
Qed.

(** [Normalize] is a normal form: what it returns is valid UTF-8, has no carriage
    return, no space at either end, no blanks at the end of a line and no two empty
    lines in a row, and normalising it again changes nothing. *)
Theorem Normalize_idempotent (input value : string) :
  Normalize input = Ok value ->
  Normalize value = Ok value /\ valid_utf8 value = true /\ value <> "" /\
  trim_space value = value /\
  exists lines, value = str_join LF lines /\ spaced true lines /\
    Forall (fun line => no_char newline line /\ no_char "013"%char line /\
      ends_outside blank_cut line) lines.
Proof.
  intros (lines & Hv & Hn & Hne & Hs & He & Hv0 & Hvalid)%Normalize_Ok.
  split_and!; try done.
  - by eapply Normalize_join.
  - by apply trim_id.
  - exists lines. split_and!; [done|apply Hn|]. eapply Forall_impl; [apply Hn|]. by intros x [].
Qed.

Lemma Normalize_idempotent_witness :
  let input := "  Fix the bug." +:+ CR +:+ LF +:+ " " +:+ LF +:+ LF +:+ "- keep tests  " +:+ LF in
  let value := "Fix the bug." +:+ LF +:+ LF +:+ "- keep tests" in
  Normalize input = Ok value /\ Normalize value = Ok value.
Proof.
  intros input value. assert (Normalize input = Ok value) as H by (vm_compute; reflexivity).
  split; [exact H|]. exact (proj1 (Normalize_idempotent _ _ H)).
Defined.
