(* ===== verification/Compiler.v ===== *)
(** * Compiling prompts (internal/compiler/compiler.go)

    Requests are validated field by field and rendered into sections; nothing is
    executed.  The Go context is a function [done] that says whether the n-th check
    of [checkContext] finds it cancelled. *)
From S2P Require Import Contracts Unicode Utf8 Policy Textutil.
From Stdlib Require Import Ascii.

Definition semanticInvalid (message field : string) : StableError :=
  NewError ErrorCodeSemanticInvalid message field false.

Definition checkContext (done : bool) : option StableError :=
  if done then Some (NewError ErrorCodeBudgetExhausted "operation cancelled or timed out"
                       "context" true)
  else None.

Definition validText (value : string) (limit : Z) (required : bool) : bool :=
  if negb (valid_utf8 value) || (limit <? str_len value)%Z then false
  else negb required || negb (trim_space value =s "").

Definition validPhase (value : string) : bool :=
  one_of value ["research"; "design"; "implementation"; "review"; "external_coordination"].

Definition validateList (values : list string) (required : bool) : option StableError :=
  let n := Z.of_nat (length values) in
  if (required && (n =? 0)%Z) || (50 <? n)%Z then Some (invalid "invalid list size" "prompt_plan")
  else if forallb (fun value => validText value 1000 true) values then None
  else Some (invalid "invalid list item" "prompt_plan").

(** The loop over the required lists. *)
Fixpoint validateRequired (fields : list (string * list string)) : option StableError :=
  match fields with
  | [] => None
  | (name, values) :: rest =>
      match validateList values true with
      | Some _ => Some (invalid (name +:+ " is required") ("prompt_plan." +:+ name))
      | None => validateRequired rest
      end
  end.

(** An optional list is validated when it is not empty. *)
Fixpoint validateOptional (fields : list (string * string * list string)) : option StableError :=
  match fields with
  | [] => None
  | (name, message, values) :: rest =>
      match values, validateList values false with
      | _ :: _, Some _ => Some (invalid message ("prompt_plan." +:+ name))
      | _, _ => validateOptional rest
      end
  end.

Fixpoint validateOptionalText (fields : list (string * string)) : option StableError :=
  match fields with
  | [] => None
  | (name, value) :: rest =>
      if validText value 500 false then validateOptionalText rest
      else Some (invalid (name +:+ " exceeds 500 bytes") ("prompt_plan." +:+ name))
  end.

Definition validPointer (value : option string) (limit : Z) : bool :=
  match value with None => true | Some v => validText v limit false end.

Definition validatePlan (plan : PromptPlan) : option StableError :=
  if negb (pp_SchemaVersion plan =s SchemaVersion) then
    Some (invalid "prompt plan must use schema 1.0.0" "prompt_plan.schema_version")
  else if negb (validText (pp_Goal plan) 2000 true) then
    Some (invalid "prompt plan goal is required" "prompt_plan.goal")
  else
    first! validateRequired
      [("success_criteria", pp_SuccessCriteria plan); ("invariants", pp_Invariants plan);
       ("decision_rules", pp_DecisionRules plan);
       ("evidence_requirements", pp_EvidenceRequirements plan); ("tools", pp_Tools plan);
       ("stop_rules", pp_StopRules plan); ("fallback_rules", pp_FallbackRules plan);
       ("abstain_rules", pp_AbstainRules plan); ("validation_bar", pp_ValidationBar plan)] else
    first! validateOptional
      [("artifact_priorities", "invalid artifact priorities", pp_ArtifactPriorities plan);
       ("scope", "invalid scope", pp_Scope plan);
       ("non_goals", "invalid non_goals", pp_NonGoals plan);
       ("gates", "invalid gates", pp_Gates plan)] else
    if negb (validText (pp_OutputContract plan) 2000 true)
       || negb (validText (pp_ApprovalBoundary plan) 1000 true) then
      Some (invalid "output, approval, and phase contracts are required" "prompt_plan")
    else if negb (validPhase (pp_PhaseScope plan)) then
      Some (invalid "invalid phase scope" "prompt_plan.phase_scope")
    else
      first! validateOptionalText
        [("role", pp_Role plan); ("personality", pp_Personality plan);
         ("collaboration_style", pp_CollaborationStyle plan)] else
      if negb (validText (pp_OutputLanguage plan) 80 false) then
        Some (invalid "output language exceeds 80 bytes" "prompt_plan.output_language")
      else if negb (validPointer (pp_StablePrefix plan) 4000) then
        Some (invalid "stable prefix exceeds 4000 bytes" "prompt_plan.stable_prefix")
      else if negb (validPointer (pp_DynamicTail plan) 4000) then
        Some (invalid "dynamic tail exceeds 4000 bytes" "prompt_plan.dynamic_tail")
      else None.

Definition within (value : option Z) (min max : Z) : bool :=
  match value with None => true | Some v => (min <=? v)%Z && (v <=? max)%Z end.

Fixpoint validActivePhases (phases : list string) (seen : gset string) : bool :=
  match phases with
  | [] => true
  | phase :: rest =>
      if negb (validPhase phase) || bool_decide (phase ∈ seen) then false
      else validActivePhases rest ({[phase]} ∪ seen)
  end.

Definition is_none {A} (o : option A) : bool := match o with None => true | Some _ => false end.

Definition validateBudget (b : ExecutionBudget) : option StableError :=
  if negb (eb_SchemaVersion b =s SchemaVersion) then
    Some (invalid "execution budget must use schema 1.0.0" "budget.schema_version")
  else if negb (one_of (eb_Enforcement b) ["host_enforced"; "advisory"; "unknown"]) then
    Some (invalid "invalid budget enforcement" "budget.enforcement")
  else if bool_decide (eb_ActivePhases b = []) then
    Some (invalid "active phases are required" "budget.active_phases")
  else if negb (validActivePhases (eb_ActivePhases b) ∅) then
    Some (invalid "invalid or duplicate active phase" "budget.active_phases")
  else if negb (one_of (eb_DelegationPolicy b) ["none"; "user_requested_only"; "bounded"]) then
    Some (invalid "invalid delegation policy" "budget.delegation_policy")
  else if negb (one_of (eb_ExhaustionOutcome b) ["stop"; "fallback"; "abstain"; "approval_required"])
  then Some (invalid "invalid exhaustion outcome" "budget.exhaustion_outcome")
  else if negb (eb_ContextMode b =s "")
          && negb (one_of (eb_ContextMode b) ["none"; "minimal"; "selected"; "full"; "unknown"])
  then Some (invalid "invalid context mode" "budget.context_mode")
  else if negb (within (eb_MaxUsefulToolLoops b) 0 1000 && within (eb_MaxRetries b) 0 100
                && within (eb_MaxRetrievalExpansions b) 0 100 && within (eb_MaxAgentDepth b) 0 16
                && within (eb_MaxConcurrency b) 1 64)
  then Some (invalid "budget value out of range" "budget")
  else if (eb_DelegationPolicy b =s "bounded")
          && (is_none (eb_MaxAgentDepth b) || is_none (eb_MaxConcurrency b))
  then Some (invalid "bounded delegation requires depth and concurrency" "budget.delegation_policy")
  else if negb (eb_DelegationPolicy b =s "bounded")
          && (negb (is_none (eb_MaxAgentDepth b)) || negb (is_none (eb_MaxConcurrency b)))
  then Some (invalid "unbounded fields forbidden for this delegation policy"
               "budget.delegation_policy")
  else None.

(** ** Rendering *)

(** The closures [addText] and [addList]: a section, or nothing. *)
Definition addText (title value : string) : list string :=
  if trim_space value =s "" then [] else [title +:+ ":" +:+ LF +:+ trim_space value].

Definition list_lines (values : list string) : string :=
  str_concat ((fun value => "- " +:+ trim_space value +:+ LF) <$> values).

Definition addList (title : string) (values : list string) : list string :=
  match values with
  | [] => []
  | _ => [trim_right LF (title +:+ ":" +:+ LF +:+ list_lines values)]
  end.

Definition addPointer (title : string) (value : option string) : list string :=
  match value with None => [] | Some v => addText title v end.

Definition plan_sections (plan : PromptPlan) (includeGoal : bool) : list string :=
  addText "Role" (pp_Role plan) ++
  addText "Personality" (pp_Personality plan) ++
  addText "Collaboration" (pp_CollaborationStyle plan) ++
  addPointer "Stable prefix" (pp_StablePrefix plan) ++
  (if includeGoal then addText "Goal" (pp_Goal plan) else []) ++
  addList "Success criteria" (pp_SuccessCriteria plan) ++
  addList "Constraints" (pp_Invariants plan) ++
  addList "Scope" (pp_Scope plan) ++
  addList "Non-goals" (pp_NonGoals plan) ++
  addList "Decision rules" (pp_DecisionRules plan) ++
  addList "Evidence" (pp_EvidenceRequirements plan) ++
  addList "Tools" (pp_Tools plan) ++
  addText "Approval boundary" (pp_ApprovalBoundary plan) ++
  addText "Phase" (pp_PhaseScope plan) ++
  addPointer "Dynamic context" (pp_DynamicTail plan) ++
  addList "Validation" (pp_ValidationBar plan) ++
  addList "Gates" (pp_Gates plan) ++
  addText "Output" (pp_OutputContract plan) ++
  addText "Output language" (pp_OutputLanguage plan) ++
  addList "Artifact priorities" (pp_ArtifactPriorities plan) ++
  addList "Stop" (pp_StopRules plan) ++
  addList "Fallback" (pp_FallbackRules plan) ++
  addList "Abstain" (pp_AbstainRules plan).

Definition blank_line : string := LF +:+ LF.

Definition RenderPlan (plan : PromptPlan) (includeGoal : bool) : string :=
  str_join blank_line (plan_sections plan includeGoal).

Definition defaultPlan (intent : string) : PromptPlan :=
  {| pp_SchemaVersion := SchemaVersion; pp_Role := ""; pp_Personality := "";
     pp_CollaborationStyle := ""; pp_Goal := intent;
     pp_SuccessCriteria := ["Complete the requested outcome without dropping stated requirements."];
     pp_Invariants := ["Preserve explicit facts, decisions, caveats, language, safety, privacy, and authorization boundaries."];
     pp_DecisionRules := ["Ask only when material ambiguity prevents a safe result."];
     pp_EvidenceRequirements := ["Use the evidence required by the request; do not invent support."];
     pp_Tools := ["Use only task-relevant tools within granted permissions."];
     pp_OutputContract := "Return the requested artifact and material next action.";
     pp_OutputLanguage := "";
     pp_ApprovalBoundary := "Do not execute, expand scope, or take external action without applicable authorization.";
     pp_PhaseScope := "design";
     pp_StopRules := ["Stop when the result is validated; if blocked, report the blocker and next safe action."];
     pp_FallbackRules := ["Return the safest useful partial result with missing evidence identified."];
     pp_AbstainRules := ["Abstain from unsafe, unauthorized, or unsupported claims."];
     pp_ValidationBar := ["Check the artifact against the goal, constraints, evidence, and requested format."];
     pp_ArtifactPriorities := []; pp_StablePrefix := None; pp_DynamicTail := None;
     pp_Scope := []; pp_NonGoals := []; pp_Gates := [] |}.

Definition NewPlan : string -> PromptPlan := defaultPlan.

(** ** Recognising compiled prompts *)

Definition heading (title : string) : string := title +:+ ":" +:+ LF.

(** [-1] is [None]. *)
Definition sectionIndex (value title : string) : option nat :=
  if has_prefix (heading title) value then Some 0%nat
  else (fun i => i + 2)%nat <$> str_index (blank_line +:+ heading title) value.

Definition compiled_titles : list string :=
  ["Goal"; "Success criteria"; "Constraints"; "Decision rules"; "Evidence"; "Tools";
   "Approval boundary"; "Phase"; "Validation"; "Output"; "Stop"; "Fallback"; "Abstain"].

(** [previous] is [-1] before the first title. *)
Fixpoint sections_ordered (value : string) (titles : list string) (previous : Z) : bool :=
  match titles with
  | [] => true
  | title :: rest =>
      let index := match sectionIndex value title with Some i => Z.of_nat i | None => (-1)%Z end in
      if (index <=? previous)%Z then false else sections_ordered value rest index
  end.

Definition looksCompiled (value : string) : bool := sections_ordered value compiled_titles (-1).

Definition sectionValue (value title : string) : string * bool :=
  match sectionIndex value title with
  | None => ("", false)
  | Some start =>
      let body := str_drop (start + String.length title + 2) value in
      let body := match str_index blank_line body with
                  | None => body
                  | Some stop => str_take stop body
                  end in
      (trim_space body, negb (trim_space body =s ""))
  end.

(** ** Failure classes *)

(** The size of the last rune, as [utf8.DecodeLastRuneInString] finds it: the
    shortest suffix of 2 to 4 bytes that starts with a rune start decides. *)
Definition rune_start (c : ascii) : bool := negb (is_cont c).

Fixpoint last_rune_from (s : string) (ks : list nat) : nat :=
  match ks with
  | [] => 1%nat
  | k :: ks' =>
      if (String.length s <? k)%nat then 1%nat
      else
        match str_drop (String.length s - k) s with
        | String c _ as suffix =>
            if rune_start c then
              match chunks suffix with
              | ch :: _ => if (String.length ch.2 =? k)%nat then k else 1%nat
              | [] => 1%nat
              end
            else last_rune_from s ks'
        | "" => 1%nat
        end
  end.

Definition last_rune_size (s : string) : nat :=
  match String.get (String.length s - 1) s with
  | Some c => if (byte c <? 128)%Z then 1%nat else last_rune_from s [2; 3; 4]%nat
  | None => 0%nat
  end.

Fixpoint truncate_go (fuel : nat) (value : string) (limit : nat) : string :=
  match fuel with
  | O => value
  | S f =>
      if (limit <? String.length value)%nat then
        truncate_go f (str_take (String.length value - last_rune_size value) value) limit
      else value
  end.

(** Every turn removes at least one byte. *)
Definition truncateUTF8 (value : string) (limit : nat) : string :=
  truncate_go (String.length value) value limit.

Definition failureClass (finding : string) : string :=
  let first := match split_on newline finding with [] => "" | l :: _ => l end in
  let value := trim ".:; " (to_lower (trim_space first)) in
  let value := truncateUTF8 value 200 in
  if value =s "" then "review finding" else value.

(** ** Requests *)

Definition prepareImproveRequest (request : ImprovePromptRequest)
    : result StableError (string * PromptPlan) :=
  if negb (ipq_SchemaVersion request =s SchemaVersion) || negb (ipq_Kind request =s "request") then
    Err (invalid "request must use schema 1.0.0 and kind request" "request")
  else if negb (ValidExecutionPolicy (ipq_ExecutionPolicy request)) then
    Err (invalid "invalid execution policy" "execution_policy")
  else if (8000 <? str_len (ipq_Intent request))%Z then
    Err (invalid "intent exceeds 8000 bytes" "intent")
  else
    let! intent := Normalize (ipq_Intent request) in
    let! plan := match ipq_PromptPlan request with
                 | None => Ok (defaultPlan intent)
                 | Some plan => check! validatePlan plan in Ok plan
                 end in
    check! match ipq_Budget request with None => None | Some b => validateBudget b end in
    Ok (intent, plan).

Definition ValidateImproveRequest (request : ImprovePromptRequest) : option StableError :=
  match prepareImproveRequest request with Ok _ => None | Err e => Some e end.

Definition with_phase (plan : PromptPlan) (phase : string) : PromptPlan :=
  {| pp_SchemaVersion := pp_SchemaVersion plan; pp_Role := pp_Role plan;
     pp_Personality := pp_Personality plan; pp_CollaborationStyle := pp_CollaborationStyle plan;
     pp_Goal := pp_Goal plan; pp_SuccessCriteria := pp_SuccessCriteria plan;
     pp_Invariants := pp_Invariants plan; pp_DecisionRules := pp_DecisionRules plan;
     pp_EvidenceRequirements := pp_EvidenceRequirements plan; pp_Tools := pp_Tools plan;
     pp_OutputContract := pp_OutputContract plan; pp_OutputLanguage := pp_OutputLanguage plan;
     pp_ApprovalBoundary := pp_ApprovalBoundary plan; pp_PhaseScope := phase;
     pp_StopRules := pp_StopRules plan; pp_FallbackRules := pp_FallbackRules plan;
     pp_AbstainRules := pp_AbstainRules plan; pp_ValidationBar := pp_ValidationBar plan;
     pp_ArtifactPriorities := pp_ArtifactPriorities plan; pp_StablePrefix := pp_StablePrefix plan;
     pp_DynamicTail := pp_DynamicTail plan; pp_Scope := pp_Scope plan;
     pp_NonGoals := pp_NonGoals plan; pp_Gates := pp_Gates plan |}.

(** The plan and the prompt [improve] settles on: a prompt that is already compiled
    is kept as it is, with the phase it names. *)
Definition compile (intent : string) (plan : PromptPlan) (hasPlan : bool) (phaseOverride : string)
    : PromptPlan * string :=
  let plan := if phaseOverride =s "" then plan else with_phase plan phaseOverride in
  let preserve := (phaseOverride =s "") && negb hasPlan && looksCompiled intent in
  let '(phase, ok) := sectionValue intent "Phase" in
  if preserve && ok && validPhase phase then (with_phase plan phase, intent)
  else (plan, RenderPlan plan true).

Definition improve (done : nat -> bool) (request : ImprovePromptRequest) (host : HostPermission)
    (phaseOverride : string) : result StableError ImprovePromptResult :=
  check! checkContext (done 0%nat) in
  let! prepared := prepareImproveRequest request in
  check! checkContext (done 1%nat) in
  let '(intent, plan) := prepared in
  let '(plan, compiled) :=
    compile intent plan (negb (is_none (ipq_PromptPlan request))) phaseOverride in
  if (16000 <? str_len compiled)%Z then
    Err (semanticInvalid "compiled prompt exceeds 16000 bytes" "improved_prompt")
  else
    let! outcome := Policy.Resolve (ipq_ExecutionPolicy request) (pp_PhaseScope plan) host in
    Ok {| ipr_SchemaVersion := SchemaVersion; ipr_Kind := "result"; ipr_ImprovedPrompt := compiled;
          ipr_PolicyOutcome := outcome; ipr_Diagnostics := []; ipr_BoundaryDecisions := [] |}.

Definition Improve (done : nat -> bool) (request : ImprovePromptRequest) (host : HostPermission)
    : result StableError ImprovePromptResult := improve done request host "".

Definition ImproveWithPhase (done : nat -> bool) (request : ImprovePromptRequest)
    (host : HostPermission) (phase : string) : result StableError ImprovePromptResult :=
  if negb (validPhase phase) then Err (invalid "invalid phase scope" "phase")
  else improve done request host phase.

Definition goal_lead : string := "Take this as a new goal:" +:+ blank_line.

Definition CreateGoal (done : bool) (request : CreateGoalPromptRequest)
    : result StableError CreateGoalPromptResult :=
  check! checkContext done in
  if negb (cgq_SchemaVersion request =s SchemaVersion) || negb (cgq_Kind request =s "request") then
    Err (invalid "request must use schema 1.0.0 and kind request" "request")
  else if (4000 <? str_len (cgq_Objective request))%Z then
    Err (invalid "objective exceeds 4000 bytes" "objective")
  else
    let! objective := Normalize (cgq_Objective request) in
    check! validatePlan (cgq_PromptPlan request) in
    let body := RenderPlan (cgq_PromptPlan request) false in
    let prompt := goal_lead +:+ objective in
    let prompt := if negb (body =s "") then prompt +:+ blank_line +:+ body else prompt in
    if (16000 <? str_len prompt)%Z then
      Err (invalid "goal request or result exceeds contract limit" "objective")
    else
      Ok {| cgr_SchemaVersion := SchemaVersion; cgr_Kind := "result"; cgr_GoalPrompt := prompt;
            cgr_CheckpointRequired := true |}.

Definition CreateGoalFromObjective (done : bool) (objective : string)
    : result StableError CreateGoalPromptResult :=
  CreateGoal done
    {| cgq_SchemaVersion := SchemaVersion; cgq_Kind := "request"; cgq_Objective := objective;
       cgq_PromptPlan := defaultPlan "Create the requested goal artifact." |}.

(** [^[a-f0-9]{7,64}$]: without the flag (?m), [$] is the end of the text. *)
Definition hex_byte (c : ascii) : bool := in_range 97 102 (byte c) || in_range 48 57 (byte c).

Definition reviewHeadPattern (head : string) : bool :=
  (7 <=? String.length head)%nat && (String.length head <=? 64)%nat
  && forallb hex_byte (String.list_ascii_of_string head).

Definition reviewFixInstructions : string :=
  str_join LF
    [""; "For each finding:"; "- State the violated invariant.";
     "- Scan directly analogous paths for the same failure class.";
     "- Add the smallest focused regression proof."; "- Apply the fix without scope expansion.";
     "- Run focused validation, then reply and resolve the review thread."; "";
     "Stop after all listed findings and same-pattern gaps are validated; do not start unrelated work."].

(** The loop over the findings: the normalised findings and the distinct classes. *)
Fixpoint review_findings (items : list string) (findings classes : list string)
    : result StableError (list string * list string) :=
  match items with
  | [] => Ok (findings, classes)
  | item :: rest =>
      if (1000 <? str_len item)%Z then Err (invalid "finding exceeds 1000 bytes" "findings")
      else match Normalize item with
           | Err _ => Err (invalid "finding must not be empty" "findings")
           | Ok value =>
               let class := failureClass value in
               review_findings rest (findings ++ [value])
                 (if contains classes class then classes else classes ++ [class])
           end
  end.

Definition review_prompt (head : string) (findings : list string) : string :=
  "Fix review findings for head " +:+ head +:+ "." +:+ blank_line +:+ "Findings:" +:+ LF +:+
  str_concat ((fun finding => "- " +:+ finding +:+ LF) <$> findings) +:+ reviewFixInstructions.

Definition CreateReviewFix (done : bool) (request : CreateReviewFixPromptRequest)
    : result StableError CreateReviewFixPromptResult :=
  check! checkContext done in
  if negb (crq_SchemaVersion request =s SchemaVersion) || negb (crq_Kind request =s "request") then
    Err (invalid "request must use schema 1.0.0 and kind request" "request")
  else if bool_decide (crq_Findings request = [])
          || (100 <? Z.of_nat (length (crq_Findings request)))%Z then
    Err (invalid "findings must contain 1 to 100 items" "findings")
  else if negb (reviewHeadPattern (crq_ReviewHead request)) then
    Err (invalid "review_head must be a commit hash" "review_head")
  else
    let! found := review_findings (crq_Findings request) [] [] in
    let '(findings, classes) := found in
    let prompt := review_prompt (crq_ReviewHead request) findings in
    if (16000 <? str_len prompt)%Z then
      Err (semanticInvalid "review fix prompt exceeds 16000 bytes" "findings")
    else
      Ok {| crr_SchemaVersion := SchemaVersion; crr_Kind := "result"; crr_FixPrompt := prompt;
            crr_FailureClasses := classes; crr_SamePatternScanRequired := true |}.
