(* ===== verification/Compiled.v ===== *)
(** * Compiling a compiled prompt (internal/compiler/compiler.go)

    [improve] keeps a prompt it recognises as compiled.  The prompt it renders for an
    intent of one line is recognised, with the phase of the default plan, so that
    improving it again changes nothing. *)
From S2P Require Import Contracts Unicode Utf8 Policy Textutil Compiler.
From Stdlib Require Import Ascii.

(** ** The rendering of a one-line intent *)

(** What follows the goal in the default plan. *)
Definition default_body : string :=
  Eval vm_compute in str_join blank_line ("" :: plan_sections (defaultPlan "") true).

Definition default_prompt (value : string) : string := "Goal:" +:+ LF +:+ value +:+ default_body.

(** An intent as [Normalize] leaves it, on one line. *)
Record one_line (value : string) : Prop := {
  ol_newline : no_char newline value;
  ol_return : no_char "013"%char value;
  ol_starts : starts_outside is_space value;
  ol_ends : ends_outside is_space value;
  ol_nonempty : value <> "";
  ol_valid : valid_utf8 value = true
}.

Lemma RenderPlan_default value :
  one_line value -> RenderPlan (defaultPlan value) true = default_prompt value.
Proof.
  intros [_ _ Hs He Hne _]. unfold RenderPlan.
  assert (trim_space value = value) as Ht by (by apply trim_id).
  assert (plan_sections (defaultPlan value) true =
    ("Goal:" +:+ LF +:+ value) :: plan_sections (defaultPlan "") true) as ->.
  { unfold plan_sections, addText at 4. cbn [pp_Goal defaultPlan].
    rewrite Ht, (proj2 (str_eqb_neq _ _)) by done. reflexivity. }
  unfold default_prompt.
  replace ("Goal:" +:+ LF +:+ value +:+ default_body)
    with (("Goal:" +:+ LF +:+ value) +:+ default_body) by (by rewrite !str_app_assoc).
  generalize ("Goal:" +:+ LF +:+ value) as lead. intros lead. reflexivity.
Qed.

(** The lines after the goal. *)
Definition body_lines : list string := Eval vm_compute in tail (split_on newline default_body).

Lemma default_prompt_lines value :
  default_prompt value = str_join LF ("Goal:" :: value :: body_lines).
Proof. rewrite !join_cons. unfold default_prompt. reflexivity. Qed.

Lemma default_prompt_split value : default_prompt value = ("Goal:" +:+ LF +:+ value) +:+ default_body.
Proof. unfold default_prompt. by rewrite !str_app_assoc. Qed.

Lemma body_lines_ok : Forall line_ok body_lines.
Proof. apply line_okb_all. vm_compute. reflexivity. Qed.

Section OneLine.
Context (value : string) (Hv : one_line value).

Lemma one_line_ok : line_ok value.
Proof.
  destruct Hv. split; try done.
  - by apply ends_outside_cut.
  - intros H. apply trim_empty in H. rewrite trim_id in H by done. done.
Qed.

Lemma default_prompt_normal : Normalize (default_prompt value) = Ok (default_prompt value).
Proof.
  apply (Normalize_join ("Goal:" :: value :: body_lines)); [|done|apply default_prompt_lines|..].
  - split.
    + apply Forall_cons_2; [by apply line_okb_spec|].
      apply Forall_cons_2; [apply one_line_ok|apply body_lines_ok].
    + cbn [spaced]. split; [done|]. split; [intros H; by destruct (ol_nonempty _ Hv)|].
      assert (is_empty value = false) as ->.
      { apply not_true_is_false. rewrite is_empty_spec. apply Hv. }
      by repeat split.
    + intros H. vm_compute in H. discriminate.
  - intros ch. rewrite default_prompt_split. unfold default_prompt.
    change ("Goal:" +:+ LF +:+ value) with (String "G" ("oal:" +:+ LF +:+ value)).
    rewrite str_app_cons, chunks_ascii by done. cbn. by intros [= <-].
  - intros ch. rewrite default_prompt_split, chunks_app by done. rewrite last_app.
    change (last (chunks default_body)) with (Some (46%Z, ".")). by intros [= <-].
  - done.
Qed.

(** Text after the goal is found where it is in the body. *)
Lemma default_prompt_index p :
  str_index (blank_line +:+ p) (default_prompt value) =
    (fun k => String.length ("Goal:" +:+ LF +:+ value) + k)%nat <$>
      str_index (blank_line +:+ p) default_body.
Proof.
  destruct Hv as [Hn _ _ _ Hne _].
  change (blank_line +:+ p) with (String newline (String newline p)).
  unfold default_prompt. rewrite str_index_app by (repeat constructor; discriminate).
  change (LF +:+ value +:+ default_body) with (String newline (value +:+ default_body)).
  assert (has_prefix (String newline (String newline p)) (String newline (value +:+ default_body))
    = false) as Hp.
  { destruct value as [|c v]; [done|]. apply Forall_cons in Hn as [Hc _].
    rewrite str_app_cons. cbn [has_prefix]. rewrite Ascii.eqb_refl.
    destruct (Ascii.eqb_spec newline c); [congruence|done]. }
  cbn [str_index]. rewrite Hp, str_index_app by done.
  destruct (str_index _ default_body); [|done]. cbn [fmap option_fmap option_map].
  f_equal.
Qed.

Definition lead : nat := String.length ("Goal:" +:+ LF +:+ value).

Lemma lead_pos : (0 < lead)%nat.
Proof. unfold lead. rewrite length_str_app. apply Nat.lt_lt_add_r. vm_compute. lia. Qed.

Lemma default_prompt_section title :
  has_prefix (heading title) (default_prompt value) = false ->
  has_prefix (heading title) default_body = false ->
  sectionIndex (default_prompt value) title = (fun k => lead + k)%nat <$> sectionIndex default_body title.
Proof.
  intros H1 H2. unfold sectionIndex. rewrite H1, H2, default_prompt_index.
  destruct (str_index _ default_body); [|done]. cbn. f_equal. unfold lead. lia.
Qed.

Lemma sections_ordered_shift titles previous :
  Forall (fun title => has_prefix (heading title) (default_prompt value) = false /\
    has_prefix (heading title) default_body = false /\ sectionIndex default_body title <> None) titles ->
  sections_ordered default_body titles previous = true ->
  sections_ordered (default_prompt value) titles (Z.of_nat lead + previous) = true.
Proof.
  revert previous. induction titles as [|title titles IH]; intros previous; [done|].
  intros [(H1 & H2 & H3) Ht]%Forall_cons. cbn [sections_ordered].
  rewrite default_prompt_section by done. destruct (sectionIndex default_body title) as [k|]; [|done].
  cbn [fmap option_fmap option_map]. intros H. case_hyp H; [done|]. bool_facts.
  rewrite (proj2 (Z.leb_gt _ _)) by lia. rewrite Nat2Z.inj_add. by apply IH.
Qed.

Lemma sections_ordered_weaken text titles previous previous' :
  (previous' <= previous)%Z ->
  sections_ordered text titles previous = true -> sections_ordered text titles previous' = true.
Proof.
  intros Hle. destruct titles as [|title titles]; [done|]. cbn [sections_ordered].
  set (index := match sectionIndex text title with Some i => Z.of_nat i | None => _ end).
  destruct (Z.leb_spec index previous) as [|Hlt]; [done|].
  by rewrite (proj2 (Z.leb_gt index previous')) by lia.
Qed.

Lemma default_prompt_compiled : looksCompiled (default_prompt value) = true.
Proof.
  unfold looksCompiled, compiled_titles. cbn [sections_ordered].
  replace (sectionIndex (default_prompt value) "Goal") with (Some 0%nat) by done. cbn [Z.of_nat].
  rewrite (proj2 (Z.leb_gt _ _)) by lia.
  change (sections_ordered (default_prompt value) (tail compiled_titles) 0 = true).
  apply (sections_ordered_weaken _ _ (Z.of_nat lead + -1)); [pose proof lead_pos; lia|].
  apply sections_ordered_shift; [|vm_compute; reflexivity].
  repeat (apply Forall_cons_2; [split_and!; [done|done|vm_compute; discriminate]|]). constructor.
Qed.

Lemma default_prompt_phase : sectionValue (default_prompt value) "Phase" = ("design", true).
Proof.
  unfold sectionValue. rewrite default_prompt_section by done.
  destruct (sectionIndex default_body "Phase") as [k|] eqn:E; vm_compute in E; [|done].
  injection E as <-. cbn [fmap option_fmap option_map].
  rewrite default_prompt_split. unfold lead. rewrite <- !Nat.add_assoc, str_drop_app.
  vm_compute. reflexivity.
Qed.

Lemma one_line_not_compiled : looksCompiled value = false.
Proof.
  destruct Hv as [Hn _ _ _ _ _]. unfold looksCompiled, compiled_titles. cbn [sections_ordered].
  assert (sectionIndex value "Goal" = None) as ->; [|done].
  unfold sectionIndex. destruct (has_prefix _ value) eqn:E.
  - apply has_prefix_inv in E as [t ->]. apply no_char_app in Hn as [Hn _].
    apply Forall_forall with (x := newline) in Hn; [done|]. vm_compute. set_solver.
  - change (blank_line +:+ heading "Goal") with (String newline (LF +:+ heading "Goal")).
    by rewrite str_index_no_char.
Qed.
End OneLine.

Definition with_intent (request : ImprovePromptRequest) (intent : string) : ImprovePromptRequest :=
  {| ipq_SchemaVersion := ipq_SchemaVersion request; ipq_Kind := ipq_Kind request;
     ipq_Intent := intent; ipq_ExecutionPolicy := ipq_ExecutionPolicy request;
     ipq_PromptPlan := ipq_PromptPlan request; ipq_Budget := ipq_Budget request |}.

Lemma Normalize_one_line input value :
  Normalize input = Ok value -> no_char newline value -> one_line value.
Proof.
  intros (lines & -> & Hn & Hne & Hs & He & Hv & Hvalid)%Normalize_Ok Hline.
  destruct lines as [|line [|line' lines]]; [done| |].
  - split; try done. destruct Hn as [Hl _ _]. by apply Forall_cons in Hl as [[] _].
  - rewrite join_cons in Hline. apply no_char_app in Hline as [_ Hline].
    by apply Forall_cons in Hline as [? _].
Qed.

Lemma prepare_with_intent request prepared intent :
  prepareImproveRequest request = Ok prepared -> ipq_PromptPlan request = None ->
  (str_len intent <= 8000)%Z -> Normalize intent = Ok intent ->
  prepareImproveRequest (with_intent request intent) = Ok (intent, defaultPlan intent).
Proof.
  intros H Hplan Hlen Hn. revert H. unfold prepareImproveRequest, with_intent.
  cbn [ipq_SchemaVersion ipq_Kind ipq_Intent ipq_ExecutionPolicy ipq_PromptPlan ipq_Budget].
  destruct (_ || _); [discriminate|]. destruct (negb _); [discriminate|].
  destruct (8000 <? str_len (ipq_Intent request))%Z; [discriminate|].
  destruct (Normalize (ipq_Intent request)); [|discriminate].
  rewrite (proj2 (Z.ltb_ge _ _)), Hn, Hplan by done.
  by destruct (match ipq_Budget request with Some b => validateBudget b | None => None end).
Qed.

Lemma compile_one_line value :
  one_line value ->
  exists plan, pp_PhaseScope plan = "design" /\
    compile value (defaultPlan value) false "" = (plan, default_prompt value).
Proof.
  intros Hv. exists (defaultPlan value). split; [done|]. unfold compile.
  rewrite one_line_not_compiled by done. rewrite str_eqb_refl, <- RenderPlan_default by done.
  by destruct (sectionValue value "Phase").
Qed.

Lemma compile_default_prompt value :
  one_line value ->
  exists plan, pp_PhaseScope plan = "design" /\
    compile (default_prompt value) (defaultPlan (default_prompt value)) false "" =
      (plan, default_prompt value).
Proof.
  intros Hv. exists (with_phase (defaultPlan (default_prompt value)) "design"). split; [done|].
  unfold compile. rewrite default_prompt_compiled, default_prompt_phase by done. done.
Qed.

Lemma Improve_inv done request host r value :
  ipq_PromptPlan request = None -> Normalize (ipq_Intent request) = Ok value -> one_line value ->
  Improve done request host = Ok r ->
  done 0%nat = false /\ done 1%nat = false /\ (exists p, prepareImproveRequest request = Ok p) /\
  (16000 <? str_len (default_prompt value))%Z = false /\
  exists outcome, Policy.Resolve (ipq_ExecutionPolicy request) "design" host = Ok outcome /\
    r = {| ipr_SchemaVersion := SchemaVersion; ipr_Kind := "result";
           ipr_ImprovedPrompt := default_prompt value; ipr_PolicyOutcome := outcome;
           ipr_Diagnostics := []; ipr_BoundaryDecisions := [] |}.
Proof.
  intros Hplan Hnorm Hv. unfold Improve, improve, checkContext.
  destruct (done 0%nat); [discriminate|].
  destruct (prepareImproveRequest request) as [prepared|] eqn:Hp; [|discriminate].
  assert (prepared = (value, defaultPlan value)) as ->.
  { revert Hp. unfold prepareImproveRequest. rewrite Hnorm, Hplan. intros H.
    repeat case_hyp H; cbn in *; congruence. }
  destruct (done 1%nat); [discriminate|]. rewrite Hplan. cbn [is_none negb].
  destruct (compile_one_line value Hv) as (plan & Hph & ->). rewrite Hph. cbv beta iota.
  intros H. case_hyp H; [discriminate|].
  destruct (Policy.Resolve (ipq_ExecutionPolicy request) "design" host) as [outcome|] eqn:Ho;
    [|discriminate].
  injection H as <-. split_and!; [done|done|by eexists|done|by eexists].
Qed.

Lemma Improve_one_line done request host r value :
  ipq_PromptPlan request = None -> Normalize (ipq_Intent request) = Ok value -> one_line value ->
  Improve done request host = Ok r ->
  ipr_ImprovedPrompt r = default_prompt value /\ (str_len (default_prompt value) <= 16000)%Z.
Proof.
  intros Hplan Hnorm Hv H.
  destruct (Improve_inv _ _ _ _ _ Hplan Hnorm Hv H) as (_ & _ & _ & Hlen & outcome & _ & ->).
  by bool_facts.
Qed.

(** Improving is idempotent on plain one-line intents: for a request without a
    plan, the prompt that [Improve] renders is recognised as already compiled, so that
    submitting it as the intent of the same request gives the same result, with the
    same policy outcome, as long as it fits the limit on intents. *)
Theorem Improve_idempotent done (request : ImprovePromptRequest) (host : HostPermission)
    (value : string) (r : ImprovePromptResult) :
  ipq_PromptPlan request = None ->
  Normalize (ipq_Intent request) = Ok value -> no_char newline value ->
  Improve done request host = Ok r -> (str_len (ipr_ImprovedPrompt r) <= 8000)%Z ->
  ipr_ImprovedPrompt r = RenderPlan (defaultPlan value) true /\
  Improve done (with_intent request (ipr_ImprovedPrompt r)) host = Ok r.
Proof.
  intros Hplan Hnorm Hline Hr. pose proof (Normalize_one_line _ _ Hnorm Hline) as Hv.
  destruct (Improve_inv _ _ _ _ _ Hplan Hnorm Hv Hr)
    as (D0 & D1 & [p Hp] & Hmax & outcome & Ho & ->).
  cbn [ipr_ImprovedPrompt]. intros Hlen. split; [by rewrite RenderPlan_default|].
  unfold Improve, improve, checkContext. rewrite D0, D1.
  rewrite (prepare_with_intent _ _ (default_prompt value) Hp Hplan Hlen)
    by (by apply default_prompt_normal).
  cbn [with_intent ipq_PromptPlan ipq_ExecutionPolicy]. rewrite Hplan. cbn [is_none negb].
  destruct (compile_default_prompt value Hv) as (plan & Hph & ->). rewrite Hph.
  cbv beta iota. by rewrite Hmax, Ho.
Qed.

Definition sample_request : ImprovePromptRequest :=
  {| ipq_SchemaVersion := SchemaVersion; ipq_Kind := "request";
     ipq_Intent := "  Summarise the open incidents." +:+ LF;
     ipq_ExecutionPolicy := ExecutionPolicyAskBeforeExecute; ipq_PromptPlan := None;
     ipq_Budget := None |}.

Definition ok_or {E A} (default : A) (r : result E A) : A :=
  match r with Ok x => x | Err _ => default end.

Lemma Improve_idempotent_witness :
  let r := ok_or (mkImprovePromptResult "" "" "" "" [] [])
             (Improve (fun _ => false) sample_request HostPermitted) in
  Improve (fun _ => false) (with_intent sample_request (ipr_ImprovedPrompt r)) HostPermitted = Ok r /\
  (900 < str_len (ipr_ImprovedPrompt r))%Z.
Proof.
  intros r. split; [|vm_compute; reflexivity].
  apply (Improve_idempotent (fun _ => false) sample_request HostPermitted
           "Summarise the open incidents." r).
  - reflexivity.
  - vm_compute. reflexivity.
  - repeat constructor; discriminate.
  - vm_compute. reflexivity.
  - vm_compute. discriminate.
Defined.

(** ** Review fixes *)

Lemma last_rune_size_pos s : s <> "" -> (1 <= last_rune_size s)%nat.
Proof.
  intros Hs. unfold last_rune_size. destruct (String.get _ s) eqn:E.
  - destruct (_ <? _)%Z; [lia|]. generalize (eq_refl : [2; 3; 4]%nat = [2; 3; 4]%nat).
    generalize [2; 3; 4]%nat at 1 3 as ks. intros ks ->. cbn [last_rune_from].
    repeat (case_goal; try lia).
  - exfalso. clear - E Hs. assert (forall n s, (n < String.length s)%nat -> String.get n s <> None) as H.
    { clear. induction n as [|n IH]; intros [|a s]; cbn; try lia; [done|]. intros ?. apply IH. lia. }
    apply (H _ s) in E; [done|]. destruct s; [done|]. cbn. lia.
Qed.

Lemma truncate_go_spec fuel value limit :
  (String.length value <= fuel)%nat ->
  (String.length (truncate_go fuel value limit) <= limit)%nat /\
  exists n, truncate_go fuel value limit = str_take n value.
Proof.
  revert value. induction fuel as [|fuel IH]; intros value Hf; cbn [truncate_go].
  - split; [lia|]. exists 0%nat. destruct value; [done|]. cbn in Hf. lia.
  - destruct (Nat.ltb_spec limit (String.length value)) as [Hlt|Hle].
    + pose proof (last_rune_size_pos value ltac:(intros ->; cbn in Hlt; lia)).
      destruct (IH (str_take (String.length value - last_rune_size value) value)) as [H1 [n H2]].
      { rewrite length_str_take. lia. }
      split; [done|]. exists (Nat.min n (String.length value - last_rune_size value)).
      by rewrite H2, str_take_take.
    + split; [done|]. exists (String.length value). by rewrite str_take_all.
Qed.

Lemma failureClass_bounded finding :
  failureClass finding <> "" /\ (str_len (failureClass finding) <= 200)%Z.
Proof.
  unfold failureClass. cbv zeta.
  set (text := trim ".:; " _). destruct (truncate_go_spec (String.length text) text 200 ltac:(lia))
    as [H _]. change (truncate_go _ _ _) with (truncateUTF8 text 200) in H.
  destruct (str_eqb (truncateUTF8 text 200) "") eqn:E; str_facts; [done|].
  unfold str_len. split; [done|lia].
Qed.

(** The prefix of the findings that the loop has read. *)
Definition finding_in (findings classes : list string) (item : string) : Prop :=
  exists value, Normalize item = Ok value /\ (str_len item <= 1000)%Z /\ value ∈ findings /\
    failureClass value ∈ classes.

Lemma review_findings_spec items findings classes findings' classes' :
  review_findings items findings classes = Ok (findings', classes') ->
  NoDup classes -> Forall (fun c => exists f, f ∈ findings /\ c = failureClass f) classes ->
  NoDup classes' /\ Forall (fun c => exists f, f ∈ findings' /\ c = failureClass f) classes' /\
  (exists more, findings' = findings ++ more /\ length more = length items) /\
  (forall c, c ∈ classes -> c ∈ classes') /\
  Forall (finding_in findings' classes') items.
Proof.
  revert findings classes. induction items as [|item items IH]; intros findings classes; cbn [review_findings].
  - intros [= <- <-] Hd Hc. split_and!; try done. exists []. by rewrite app_nil_r.
  - destruct (1000 <? str_len item)%Z eqn:Hlen; [done|].
    destruct (Normalize item) as [value|] eqn:Hn; [|done]. cbv zeta. intros H Hd Hc.
    set (next := if contains classes (failureClass value) then _ else _) in H.
    assert (NoDup next /\ Forall (fun c => exists f, f ∈ findings ++ [value] /\ c = failureClass f) next /\
      failureClass value ∈ next /\ (forall c, c ∈ classes -> c ∈ next)) as (Hd' & Hc' & Hv & Hsub).
    { assert (Forall (fun c => exists f, f ∈ findings ++ [value] /\ c = failureClass f) classes) as Hc2.
      { eapply Forall_impl; [exact Hc|]. intros c (f & Hf & ->). exists f. set_solver. }
      unfold next. destruct (contains classes (failureClass value)) eqn:E.
      - apply contains_spec in E. by split_and!.
      - assert (failureClass value ∉ classes) as Hnot by (intros Hin%contains_spec; congruence).
        split_and!.
        + apply NoDup_app. split_and!; [done| |apply NoDup_singleton]. set_solver.
        + apply Forall_app_2; [done|]. apply Forall_singleton. exists value. set_solver.
        + set_solver.
        + set_solver. }
    destruct (IH _ _ H Hd' Hc') as (H1 & H2 & (more & -> & Hm) & H4 & H5).
    split_and!; try done.
    + exists (value :: more). rewrite <- app_assoc. cbn. by rewrite Hm.
    + auto.
    + constructor; [|done]. exists value. bool_facts. split_and!; auto. set_solver.
Qed.

(** A review-fix prompt covers every finding it was asked about: each finding, once
    normalised, is a line of the prompt and its failure class is listed; the classes are
    distinct, short, never empty and all come from findings; and the prompt keeps its
    byte limit. *)
Theorem CreateReviewFix_covers (request : CreateReviewFixPromptRequest)
    (r : CreateReviewFixPromptResult) :
  CreateReviewFix false request = Ok r ->
  (1 <= length (crq_Findings request) <= 100)%nat /\
  reviewHeadPattern (crq_ReviewHead request) = true /\
  (str_len (crr_FixPrompt r) <= 16000)%Z /\
  NoDup (crr_FailureClasses r) /\
  Forall (fun c => c <> "" /\ (str_len c <= 200)%Z) (crr_FailureClasses r) /\
  exists findings,
    crr_FixPrompt r = review_prompt (crq_ReviewHead request) findings /\
    length findings = length (crq_Findings request) /\
    Forall (finding_in findings (crr_FailureClasses r)) (crq_Findings request) /\
    Forall (fun c => exists f, f ∈ findings /\ c = failureClass f) (crr_FailureClasses r).
Proof.
  unfold CreateReviewFix. cbn [checkContext]. intros H.
  destruct (negb _ || negb _); [done|].
  destruct (_ || (100 <? _)%Z) eqn:Hn; [done|].
  destruct (negb (reviewHeadPattern _)) eqn:Hh; [done|].
  destruct (review_findings (crq_Findings request) [] []) as [[findings classes]|] eqn:Hf; [|done].
  cbv beta iota zeta in H. destruct (16000 <? _)%Z eqn:Hlen; [done|]. injection H as <-.
  cbn [crr_FixPrompt crr_FailureClasses]. bool_facts.
  destruct (review_findings_spec _ _ _ _ _ Hf) as (Hd & Hc & (more & -> & Hm) & _ & Hall);
    [constructor|constructor|].
  split_and!; try done.
  - destruct (crq_Findings request); [done|]. cbn. lia.
  - lia.
  - eapply Forall_impl; [exact Hc|]. intros c (f & _ & ->). apply failureClass_bounded.
  - by exists more.
Qed.

Definition sample_review : CreateReviewFixPromptRequest :=
  {| crq_SchemaVersion := SchemaVersion; crq_Kind := "request"; crq_ReviewHead := "0a1b2c3";
     crq_Findings := ["Unchecked error."; "unchecked error"; "Missing bound:"] |}.

Lemma CreateReviewFix_covers_witness :
  let r := ok_or (mkCreateReviewFixPromptResult "" "" "" [] false)
             (CreateReviewFix false sample_review) in
  crr_FailureClasses r = ["unchecked error"; "missing bound"] /\ NoDup (crr_FailureClasses r).
Proof.
  intros r. split; [vm_compute; reflexivity|].
  apply (CreateReviewFix_covers sample_review r). vm_compute. reflexivity.
Defined.
