(* ===== verification/Checkpoint.v ===== *)
(** * Checkpoints (internal/checkpoint/checkpoint.go)

    A continuation summary is validated and rendered as lines of text.  [parse] reads a
    rendering back: it is the specification, the program has no parser. *)
From S2P Require Import Contracts Unicode Utf8 Textutil.
From Stdlib Require Import Ascii.

Record Checkpoint := mkCheckpoint {
  cp_Objective : string;
  cp_AcceptedDecisions : list string;
  cp_Constraints : list string;
  cp_EvidenceRefs : list string;
  cp_Completed : list string;
  cp_Validation : list string;
  cp_Blockers : list string;
  cp_NextAction : string;
  cp_RemainingGates : list string
}.

Definition checkpointError (message field : string) : StableError :=
  NewError ErrorCodeInvalidSchema message field false.

Definition validText (value : string) (max : Z) : bool :=
  if negb (valid_utf8 value) || (trim_space value =s "") || (max <? str_len value)%Z then false
  else forallb (fun r => negb (is_control r)) (runes value).

Definition validateList (values : list string) (max : Z) : option StableError :=
  if (max <? Z.of_nat (length values))%Z then
    Some (NewError ErrorCodeInvalidSchema "too many checkpoint items" "checkpoint" false)
  else if forallb (fun value => validText value 500) values then None
  else Some (NewError ErrorCodeInvalidSchema "invalid checkpoint item" "checkpoint" false).

Fixpoint validateLists (lists : list (string * list string * Z)) : option StableError :=
  match lists with
  | [] => None
  | (name, values, max) :: rest =>
      match validateList values max with
      | Some _ => Some (checkpointError "invalid checkpoint list" ("checkpoint." +:+ name))
      | None => validateLists rest
      end
  end.

Definition checkpoint_lists (value : Checkpoint) : list (string * list string * Z) :=
  [("accepted_decisions", cp_AcceptedDecisions value, 50%Z);
   ("constraints", cp_Constraints value, 50%Z);
   ("evidence_refs", cp_EvidenceRefs value, 50%Z);
   ("completed", cp_Completed value, 50%Z);
   ("validation", cp_Validation value, 50%Z);
   ("blockers", cp_Blockers value, 20%Z);
   ("remaining_gates", cp_RemainingGates value, 50%Z)].

Definition writeList (title : string) (values : list string) : string :=
  match values with
  | [] => ""
  | _ => LF +:+ title +:+ ":" +:+ LF +:+
           str_concat ((fun value => "- " +:+ trim_space value +:+ LF) <$> values)
  end.

Definition write_checkpoint (value : Checkpoint) : string :=
  "Checkpoint" +:+ LF +:+ LF +:+ "Objective:" +:+ LF +:+ trim_space (cp_Objective value) +:+ LF +:+
  writeList "Accepted decisions" (cp_AcceptedDecisions value) +:+
  writeList "Constraints" (cp_Constraints value) +:+
  writeList "Evidence" (cp_EvidenceRefs value) +:+
  writeList "Completed" (cp_Completed value) +:+
  writeList "Validation" (cp_Validation value) +:+
  writeList "Blockers" (cp_Blockers value) +:+
  LF +:+ "Next action:" +:+ LF +:+ trim_space (cp_NextAction value) +:+ LF +:+
  writeList "Remaining gates" (cp_RemainingGates value).

Definition Render (value : Checkpoint) : result StableError string :=
  if negb (validText (cp_Objective value) 1000) || negb (validText (cp_NextAction value) 500) then
    Err (checkpointError "checkpoint objective and next action are required" "checkpoint")
  else
    check! validateLists (checkpoint_lists value) in
    Ok (trim_space (write_checkpoint value)).

(** ** Which checkpoints are rendered *)

Record text_ok (max : Z) (value : string) : Prop := {
  to_valid : valid_utf8 value = true;
  to_blank : trim_space value <> "";
  to_length : (str_len value <= max)%Z;
  to_control : Forall (fun r => is_control r = false) (runes value)
}.

Record list_ok (max : Z) (values : list string) : Prop := {
  li_length : (Z.of_nat (length values) <= max)%Z;
  li_items : Forall (text_ok 500) values
}.

Record checkpoint_wf (value : Checkpoint) : Prop := {
  cw_objective : text_ok 1000 (cp_Objective value);
  cw_next : text_ok 500 (cp_NextAction value);
  cw_accepted : list_ok 50 (cp_AcceptedDecisions value);
  cw_constraints : list_ok 50 (cp_Constraints value);
  cw_evidence : list_ok 50 (cp_EvidenceRefs value);
  cw_completed : list_ok 50 (cp_Completed value);
  cw_validation : list_ok 50 (cp_Validation value);
  cw_blockers : list_ok 20 (cp_Blockers value);
  cw_gates : list_ok 50 (cp_RemainingGates value)
}.

Lemma validText_ok max value : validText value max = true <-> text_ok max value.
Proof.
  unfold validText. destruct (_ || _) eqn:E.
  - split; [done|]. intros [H1 H2 H3 _]. exfalso.
    apply orb_true_iff in E as [[E|E]%orb_true_iff|E].
    + by rewrite H1 in E.
    + by apply str_eqb_eq in E.
    + apply Z.ltb_lt in E. lia.
  - str_facts. rewrite forallb_spec. split.
    + intros Hr. split; try done. by eapply Forall_impl; [exact Hr|]; intros r ?%negb_true_iff.
    + intros [_ _ _ Hr]. eapply Forall_impl; [exact Hr|]. by intros r ->.
Qed.

Lemma validateList_ok max values : validateList values max = None <-> list_ok max values.
Proof.
  unfold validateList. case_goal; bool_facts; [split; [done|intros []; lia]|].
  destruct (forallb _ values) eqn:F.
  - split; [|done]. intros _. split; [done|]. rewrite forallb_spec in F.
    eapply Forall_impl; [exact F|]. intros x. apply validText_ok.
  - split; [done|]. intros [_ H]. rewrite <- not_true_iff_false, forallb_spec in F. destruct F.
    eapply Forall_impl; [exact H|]. intros x. apply validText_ok.
Qed.

Lemma validateLists_ok lists :
  validateLists lists = None <-> Forall (fun l => list_ok l.2 l.1.2) lists.
Proof.
  induction lists as [|[[name values] max] lists IH]; [done|]. cbn [validateLists].
  rewrite Forall_cons, <- IH. cbn. rewrite <- validateList_ok. destruct (validateList values max); naive_solver.
Qed.

Lemma checkpoint_lists_ok value :
  Forall (fun l => list_ok l.2 l.1.2) (checkpoint_lists value) <->
  list_ok 50 (cp_AcceptedDecisions value) /\ list_ok 50 (cp_Constraints value) /\
  list_ok 50 (cp_EvidenceRefs value) /\ list_ok 50 (cp_Completed value) /\
  list_ok 50 (cp_Validation value) /\ list_ok 20 (cp_Blockers value) /\
  list_ok 50 (cp_RemainingGates value).
Proof. unfold checkpoint_lists. rewrite !Forall_cons, Forall_nil. cbn. tauto. Qed.

Lemma Render_wf value text :
  Render value = Ok text <-> checkpoint_wf value /\ text = trim_space (write_checkpoint value).
Proof.
  unfold Render.
  destruct (validText (cp_Objective value) 1000) eqn:Ho; cbn [negb orb].
  2:{ split; [done|]. intros [[H] _]. apply validText_ok in H. congruence. }
  destruct (validText (cp_NextAction value) 500) eqn:Hn; cbn [negb].
  2:{ split; [done|]. intros [[_ H] _]. apply validText_ok in H. congruence. }
  apply validText_ok in Ho, Hn.
  pose proof (validateLists_ok (checkpoint_lists value)) as H. rewrite checkpoint_lists_ok in H.
  destruct (validateLists _).
  - split; [done|]. intros [[] _]. destruct H as [_ H]. by discriminate H.
  - destruct (proj1 H eq_refl) as (? & ? & ? & ? & ? & ? & ?).
    split; [intros [= <-]; done|by intros [_ ->]].
Qed.

(** ** Lines *)

Definition section_lines (title : string) (values : list string) : list string :=
  match values with
  | [] => []
  | _ => "" :: (title +:+ ":") :: ((fun value => "- " +:+ trim_space value) <$> values)
  end.

Lemma writeList_lines title values : writeList title values = unlines (section_lines title values).
Proof.
  destruct values as [|v values]; [done|]. unfold writeList, section_lines, unlines.
  rewrite !fmap_cons, <- !list_fmap_compose. cbn. by rewrite !str_app_assoc.
Qed.

Definition checkpoint_lines (value : Checkpoint) : list string :=
  ["Checkpoint"; ""; "Objective:"; trim_space (cp_Objective value)] ++
  section_lines "Accepted decisions" (cp_AcceptedDecisions value) ++
  section_lines "Constraints" (cp_Constraints value) ++
  section_lines "Evidence" (cp_EvidenceRefs value) ++
  section_lines "Completed" (cp_Completed value) ++
  section_lines "Validation" (cp_Validation value) ++
  section_lines "Blockers" (cp_Blockers value) ++
  [""; "Next action:"; trim_space (cp_NextAction value)] ++
  section_lines "Remaining gates" (cp_RemainingGates value).

Lemma write_checkpoint_lines value : write_checkpoint value = unlines (checkpoint_lines value).
Proof.
  unfold checkpoint_lines. rewrite !unlines_app, <- !writeList_lines. unfold write_checkpoint.
  unfold unlines. cbn [fmap list_fmap str_concat foldr]. rewrite !str_app_assoc. reflexivity.
Qed.

(** A line that is not blank at its end and holds no newline. *)
Record solid (line : string) : Prop := {
  so_valid : valid_utf8 line = true;
  so_newline : no_char newline line;
  so_nonempty : line <> "";
  so_end : ends_outside is_space line
}.

Lemma text_ok_trim max value : text_ok max value -> solid (trim_space value).
Proof.
  intros [H1 H2 _ H4]. split; [by apply valid_trim| |done|apply trim_ends].
  apply valid_no_char; [done|by apply valid_trim|]. apply runes_part; [done|].
  eapply Forall_impl; [exact H4|]. by intros r Hr ->.
Qed.

Lemma solid_item value : solid value -> solid ("- " +:+ value).
Proof.
  intros [H1 H2 H3 H4]. split.
  - by apply valid_utf8_concat.
  - apply no_char_app. split; [repeat constructor; discriminate|done].
  - done.
  - by apply ends_outside_app.
Qed.

Definition clean_line (line : string) : Prop := no_char newline line /\ valid_utf8 line = true.

Lemma section_items_solid max values :
  list_ok max values -> Forall solid ((fun value => "- " +:+ trim_space value) <$> values).
Proof.
  intros [_ Hv]. apply Forall_fmap. eapply Forall_impl; [exact Hv|]. intros x Hx.
  eapply solid_item, text_ok_trim, Hx.
Qed.

Lemma section_clean title max values :
  clean_line (title +:+ ":") -> list_ok max values -> Forall clean_line (section_lines title values).
Proof.
  intros Ht Hv%section_items_solid. destruct values as [|v values]; [constructor|].
  unfold section_lines. constructor; [by repeat constructor|]. constructor; [done|].
  eapply Forall_impl; [exact Hv|]. by intros l [].
Qed.

Lemma section_last title max values :
  list_ok max values -> values <> [] ->
  exists lines l, section_lines title values = lines ++ [l] /\ solid l.
Proof.
  intros Hv%section_items_solid Hne. destruct values as [|v values]; [done|].
  unfold section_lines. set (items := _ <$> _) in *.
  destruct items as [|l front _] eqn:E using rev_ind; [by destruct values|].
  exists ("" :: (title +:+ ":") :: front), l. split; [done|].
  apply Forall_app in Hv as [_ Hv]. by apply Forall_cons in Hv as [Hv _].
Qed.

(** ** Reading a rendering *)

Definition item_mark : string := "- ".

Fixpoint parse_items (lines : list string) : list string * list string :=
  match lines with
  | line :: rest =>
      if has_prefix item_mark line then
        let '(items, rest) := parse_items rest in (str_drop 2 line :: items, rest)
      else ([], lines)
  | [] => ([], [])
  end.

Definition parse_section (title : string) (lines : list string) : list string * list string :=
  match lines with
  | blank :: head :: rest =>
      if (blank =s "") && (head =s title +:+ ":") then parse_items rest else ([], lines)
  | _ => ([], lines)
  end.

Definition parse (text : string) : option Checkpoint :=
  match split_on newline text with
  | _ :: _ :: _ :: objective :: rest =>
      let '(accepted, rest) := parse_section "Accepted decisions" rest in
      let '(constraints, rest) := parse_section "Constraints" rest in
      let '(evidence, rest) := parse_section "Evidence" rest in
      let '(completed, rest) := parse_section "Completed" rest in
      let '(validation, rest) := parse_section "Validation" rest in
      let '(blockers, rest) := parse_section "Blockers" rest in
      match rest with
      | _ :: _ :: next :: rest =>
          let '(gates, rest) := parse_section "Remaining gates" rest in
          if bool_decide (rest = []) then
            Some (mkCheckpoint objective accepted constraints evidence completed validation
                    blockers next gates)
          else None
      | _ => None
      end
  | _ => None
  end.

Definition trimmed (value : Checkpoint) : Checkpoint :=
  mkCheckpoint (trim_space (cp_Objective value)) (trim_space <$> cp_AcceptedDecisions value)
    (trim_space <$> cp_Constraints value) (trim_space <$> cp_EvidenceRefs value)
    (trim_space <$> cp_Completed value) (trim_space <$> cp_Validation value)
    (trim_space <$> cp_Blockers value) (trim_space (cp_NextAction value))
    (trim_space <$> cp_RemainingGates value).

(** The lines that may follow a section: nothing, or another section. *)
Definition follows (titles : list string) (rest : list string) : Prop :=
  rest = [] \/ exists title lines, title ∈ titles /\ rest = "" :: (title +:+ ":") :: lines.

Lemma parse_items_spec values titles rest :
  follows titles rest ->
  parse_items (((fun value => "- " +:+ trim_space value) <$> values) ++ rest) =
    (trim_space <$> values, rest).
Proof.
  intros Hr. induction values as [|v values IH].
  - by destruct Hr as [->|(title & lines & _ & ->)].
  - rewrite fmap_cons. cbn [app parse_items].
    change (has_prefix item_mark _) with true. cbv beta iota. by rewrite IH.
Qed.

Lemma parse_section_spec title values titles rest :
  follows titles rest -> title ∉ titles ->
  parse_section title (section_lines title values ++ rest) = (trim_space <$> values, rest) /\
  follows (title :: titles) (section_lines title values ++ rest).
Proof.
  intros Hr Ht. destruct values as [|v values]; cbn [section_lines app].
  - split.
    + destruct Hr as [->|(title' & lines & Hin & ->)]; [done|]. unfold parse_section.
      rewrite (proj2 (str_eqb_neq (title' +:+ ":") _)), andb_false_r; [done|].
      intros E%str_app_inj_r. by subst.
    + destruct Hr as [->|(title' & lines & Hin & ->)]; [by left|]. right.
      exists title', lines. split; [by apply list_elem_of_further|done].
  - split.
    + unfold parse_section. rewrite !str_eqb_refl. by apply (parse_items_spec _ titles).
    + right. eexists title, _. split; [by apply list_elem_of_here|done].
Qed.

Lemma unlines_trim lines l :
  Forall (fun x => valid_utf8 x = true) (lines ++ [l]) -> solid l ->
  starts_outside is_space (str_join LF (lines ++ [l])) ->
  trim_space (unlines (lines ++ [l])) = str_join LF (lines ++ [l]).
Proof.
  intros Hv [Hl _ Hne He] Hs. destruct (lines ++ [l]) as [|x r] eqn:E; [by destruct lines|].
  rewrite unlines_join, <- E. unfold trim_space. rewrite trim_func_split, trim_left_id.
  - rewrite trim_right_drop; [|done|repeat constructor].
    apply trim_right_id. rewrite join_snoc. destruct lines as [|y ys]; [done|].
    rewrite <- str_app_assoc. apply ends_outside_app; [|done|done].
    rewrite <- E in Hv. apply Forall_app in Hv as [Hv _].
    apply valid_utf8_concat; [|done]. change LF with (String newline "").
    rewrite valid_join by done. by apply forallb_spec.
  - rewrite <- E in Hs. intros ch. rewrite chunks_app by done. rewrite head_app.
    intros Hch. apply Hs. destruct (head (chunks _)) eqn:Eh; [done|]. cbn in Hch.
    destruct (chunks (str_join LF (lines ++ [l]))) eqn:Ec; [|done].
    apply chunks_nil in Ec. exfalso. apply Hne. revert Ec. rewrite join_snoc.
    destruct lines; [done|]. rewrite <- str_app_assoc. clear.
    destruct (_ +:+ LF) as [|a t]; [done|]. by rewrite str_app_cons.
Qed.

Lemma checkpoint_lines_wf value :
  checkpoint_wf value ->
  Forall clean_line (checkpoint_lines value) /\
  exists lines l, checkpoint_lines value = lines ++ [l] /\ solid l.
Proof.
  intros [Ho Hn H1 H2 H3 H4 H5 H6 H7]. apply text_ok_trim in Ho, Hn. unfold checkpoint_lines.
  split.
  - destruct Ho as [Ho1 Ho2 _ _], Hn as [Hn1 Hn2 _ _].
    repeat (apply Forall_app_2; [first
      [ repeat (apply Forall_cons_2; [first [by split|split; [repeat constructor; discriminate|done]]|]);
        constructor
      | eapply section_clean; [split; [repeat constructor; discriminate|done]|eassumption] ]|]).
    eapply section_clean; [split; [repeat constructor; discriminate|done]|eassumption].
  - rewrite !app_assoc. set (front := _ ++ section_lines "Blockers" _).
    destruct (cp_RemainingGates value) as [|g gates] eqn:E.
    + exists (front ++ [""; "Next action:"]), (trim_space (cp_NextAction value)).
      cbn [section_lines]. by rewrite app_nil_r, <- app_assoc.
    + destruct (section_last "Remaining gates" _ _ H7) as (lines & l & -> & Hl); [done|].
      eexists (_ ++ lines), l. by rewrite app_assoc.
Qed.

Lemma Render_lines value text :
  Render value = Ok text -> split_on newline text = checkpoint_lines value.
Proof.
  intros [Hwf ->]%Render_wf. rewrite write_checkpoint_lines.
  destruct (checkpoint_lines_wf value Hwf) as (Hc & lines & l & E & Hl).
  rewrite E, unlines_trim; [|rewrite <- E; eapply Forall_impl; [exact Hc|]; by intros x []|done|].
  - change LF with (String newline ""). apply split_join; [by destruct lines|].
    rewrite <- E. eapply Forall_impl; [exact Hc|]. by intros x [].
  - rewrite <- E. unfold checkpoint_lines. cbn [app]. rewrite join_cons. intros ch.
    change ("Checkpoint" +:+ ?x) with (String "C" ("heckpoint" +:+ x)).
    rewrite chunks_ascii by done. cbn. by intros [= <-].
Qed.

(** C33: a checkpoint is rendered exactly when its objective, next action and lists are
    within their bounds and free of control characters, and the rendering loses nothing
    but the space around the items: reading the lines back gives the checkpoint. *)
Theorem Render_roundtrip (value : Checkpoint) :
  ((exists text, Render value = Ok text) <-> checkpoint_wf value) /\
  forall text, Render value = Ok text -> parse text = Some (trimmed value).
Proof.
  split.
  - split; [by intros [text [H _]%Render_wf]|]. intros H. eexists. by apply Render_wf.
  - intros text H. unfold parse. rewrite (Render_lines _ _ H). unfold checkpoint_lines.
    set (gates := section_lines "Remaining gates" (cp_RemainingGates value)).
    assert (parse_section "Remaining gates" gates = (trim_space <$> cp_RemainingGates value, []))
      as Hg.
    { unfold gates. rewrite <- (app_nil_r (section_lines _ _)).
      by apply (parse_section_spec _ _ []); [left|set_solver]. }
    set (rest := [""; "Next action:"; _] ++ gates).
    assert (follows ["Next action"] rest) as F0.
    { right. eexists "Next action", _. split; [set_solver|done]. }
    destruct (parse_section_spec "Blockers" (cp_Blockers value) _ _ F0) as [P1 F1]; [set_solver|].
    destruct (parse_section_spec "Validation" (cp_Validation value) _ _ F1) as [P2 F2]; [set_solver|].
    destruct (parse_section_spec "Completed" (cp_Completed value) _ _ F2) as [P3 F3]; [set_solver|].
    destruct (parse_section_spec "Evidence" (cp_EvidenceRefs value) _ _ F3) as [P4 F4]; [set_solver|].
    destruct (parse_section_spec "Constraints" (cp_Constraints value) _ _ F4)
      as [P5 F5]; [set_solver|].
    destruct (parse_section_spec "Accepted decisions" (cp_AcceptedDecisions value) _ _ F5)
      as [P6 _]; [set_solver|].
    cbn [app]. rewrite P6, P5, P4, P3, P2, P1. unfold rest. cbn [app]. by rewrite Hg.
Qed.

Definition sample_checkpoint : Checkpoint :=
  mkCheckpoint " Ship the fix." ["Keep tests."; " No rewrite "] [] ["ref-1"] [] ["ok"] []
    "Run the gate." ["Review"].

Lemma Render_roundtrip_witness :
  let text := match Render sample_checkpoint with Ok text => text | Err _ => "" end in
  parse text = Some (trimmed sample_checkpoint) /\ (60 < str_len text)%Z.
Proof.
  intros text. split; [|vm_compute; reflexivity].
  apply (Render_roundtrip sample_checkpoint). vm_compute. reflexivity.
Defined.
