(* ===== verification/Regex.v ===== *)
(** * Regular expressions of Go's regexp package

    The expressions the program compiles, read from the source strings by [compile],
    and a matcher by derivatives.  An assertion looks at the code points around its
    position, so that a derivative carries the code point before it.  [matches] is the
    meaning of an expression, [search] is [Regexp.MatchString], and [search_correct]
    relates them. *)
From S2P Require Import Prelude GoString Unicode Utf8 Runes.
From Stdlib Require Import Ascii.

Inductive regex :=
  | Empty
  | Eps
  | Class (accepts : Z -> bool)
  | Assert (holds : option Z -> option Z -> bool)
  | Seq (r1 r2 : regex)
  | Alt (r1 r2 : regex)
  | Star (r : regex).

(** The code point before a position after reading [w], and the one after it. *)
Definition before_end (p : option Z) (w : list Z) : option Z :=
  match last w with Some c => Some c | None => p end.
Definition after_start (w : list Z) (n : option Z) : option Z :=
  match w with c :: _ => Some c | [] => n end.

(** [matches r p w n]: [r] matches [w] between the code points [p] and [n]. *)
Inductive matches : regex -> option Z -> list Z -> option Z -> Prop :=
  | m_eps p n : matches Eps p [] n
  | m_class f p c n : f c = true -> matches (Class f) p [c] n
  | m_assert f p n : f p n = true -> matches (Assert f) p [] n
  | m_seq r1 r2 p w1 w2 n :
      matches r1 p w1 (after_start w2 n) -> matches r2 (before_end p w1) w2 n ->
      matches (Seq r1 r2) p (w1 ++ w2) n
  | m_left r1 r2 p w n : matches r1 p w n -> matches (Alt r1 r2) p w n
  | m_right r1 r2 p w n : matches r2 p w n -> matches (Alt r1 r2) p w n
  | m_stop r p n : matches (Star r) p [] n
  | m_step r p w1 w2 n :
      w1 <> [] -> matches r p w1 (after_start w2 n) -> matches (Star r) (before_end p w1) w2 n ->
      matches (Star r) p (w1 ++ w2) n.

(** ** The matcher *)

Fixpoint nullable (r : regex) (p n : option Z) : bool :=
  match r with
  | Empty | Class _ => false
  | Eps | Star _ => true
  | Assert holds => holds p n
  | Seq r1 r2 => nullable r1 p n && nullable r2 p n
  | Alt r1 r2 => nullable r1 p n || nullable r2 p n
  end.

Definition mk_seq (r1 r2 : regex) : regex :=
  match r1 with Empty => Empty | Eps => r2 | _ => Seq r1 r2 end.

Definition mk_alt (r1 r2 : regex) : regex :=
  match r1, r2 with Empty, _ => r2 | _, Empty => r1 | _, _ => Alt r1 r2 end.

Fixpoint deriv (r : regex) (p : option Z) (c : Z) : regex :=
  match r with
  | Empty | Eps | Assert _ => Empty
  | Class accepts => if accepts c then Eps else Empty
  | Seq r1 r2 =>
      mk_alt (mk_seq (deriv r1 p c) r2) (if nullable r1 p (Some c) then deriv r2 p c else Empty)
  | Alt r1 r2 => mk_alt (deriv r1 p c) (deriv r2 p c)
  | Star r1 => mk_seq (deriv r1 p c) (Star r1)
  end.

(** Some prefix of the text is matched, some part of it is. *)
Fixpoint match_prefix (r : regex) (p : option Z) (w : list Z) : bool :=
  if nullable r p (after_start w None) then true
  else match w with
       | [] => false
       | c :: w' => match_prefix (deriv r p c) (Some c) w'
       end.

Fixpoint search (r : regex) (p : option Z) (w : list Z) : bool :=
  if match_prefix r p w then true
  else match w with
       | [] => false
       | c :: w' => search r (Some c) w'
       end.

(** ** The matcher decides [matches] *)

Lemma before_end_app p w1 w2 : before_end p (w1 ++ w2) = before_end (before_end p w1) w2.
Proof.
  unfold before_end. rewrite last_app. destruct (last w2) eqn:E; [done|].
  by destruct (last w1).
Qed.

Lemma before_end_cons p c w : before_end p (c :: w) = before_end (Some c) w.
Proof. change (c :: w) with ([c] ++ w). by rewrite before_end_app. Qed.

Lemma after_start_app w1 w2 n : after_start (w1 ++ w2) n = after_start w1 (after_start w2 n).
Proof. by destruct w1. Qed.

#[local] Hint Constructors matches : core.

Lemma matches_seq r1 r2 p w n :
  matches (Seq r1 r2) p w n <->
  exists w1 w2, w = w1 ++ w2 /\ matches r1 p w1 (after_start w2 n) /\
    matches r2 (before_end p w1) w2 n.
Proof.
  split; [|intros (w1 & w2 & -> & H1 & H2); auto].
  intros H. inversion H; subst. eauto.
Qed.

Lemma matches_alt r1 r2 p w n :
  matches (Alt r1 r2) p w n <-> matches r1 p w n \/ matches r2 p w n.
Proof. split; [intros H; inversion H; subst; auto|intros [H|H]; auto]. Qed.

Lemma matches_empty p w n : ~ matches Empty p w n.
Proof. intros H. inversion H. Qed.

Lemma matches_eps p w n : matches Eps p w n <-> w = [].
Proof. split; [intros H; by inversion H|intros ->; auto]. Qed.

Lemma nullable_spec r p n : nullable r p n = true <-> matches r p [] n.
Proof.
  induction r as [| |f|f|r1 IH1 r2 IH2|r1 IH1 r2 IH2|r IH]; cbn [nullable].
  - split; [done|]. by intros ?%matches_empty.
  - split; auto.
  - split; [done|]. intros H. inversion H.
  - split; [auto|]. intros H. by inversion H.
  - rewrite andb_true_iff, IH1, IH2, matches_seq. split.
    + intros [H1 H2]. by exists [], [].
    + intros ([|] & [|] & E & H1 & H2); try done.
  - by rewrite orb_true_iff, IH1, IH2, matches_alt.
  - split; auto.
Qed.

Lemma matches_smart_seq r1 r2 p w n : matches (mk_seq r1 r2) p w n <-> matches (Seq r1 r2) p w n.
Proof.
  destruct r1; cbn [mk_seq]; try done; rewrite matches_seq.
  - split; [by intros ?%matches_empty|]. intros (w1 & w2 & _ & H & _). by apply matches_empty in H.
  - split.
    + intros H. exists [], w. split_and!; auto.
    + intros (w1 & w2 & -> & ->%matches_eps & H). done.
Qed.

Lemma matches_smart_alt r1 r2 p w n : matches (mk_alt r1 r2) p w n <-> matches (Alt r1 r2) p w n.
Proof.
  rewrite matches_alt. pose proof (matches_empty p w n) as He.
  destruct r1, r2; cbn [mk_alt]; rewrite ?matches_alt; tauto.
Qed.

Lemma matches_star_cons r p c w n :
  matches (Star r) p (c :: w) n <->
  exists w1 w2, w = w1 ++ w2 /\ matches r p (c :: w1) (after_start w2 n) /\
    matches (Star r) (before_end (Some c) w1) w2 n.
Proof.
  split.
  - intros H. inversion H as [| | | | | | |? ? w1 w2 ? Hne H1 H2]; subst.
    destruct w1 as [|c' w1]; [done|]. simplify_list_eq. exists w1, w2.
    by rewrite <- (before_end_cons p).
  - intros (w1 & w2 & -> & H1 & H2). rewrite <- (before_end_cons p) in H2.
    by apply (m_step r p (c :: w1)).
Qed.

Lemma matches_seq_cons r1 r2 p c w n :
  matches (Seq r1 r2) p (c :: w) n <->
  (exists w1 w2, w = w1 ++ w2 /\ matches r1 p (c :: w1) (after_start w2 n) /\
    matches r2 (before_end (Some c) w1) w2 n) \/
  matches r1 p [] (Some c) /\ matches r2 p (c :: w) n.
Proof.
  rewrite matches_seq. split.
  - intros ([|c' w1] & w2 & E & H1 & H2).
    + right. cbn in E. by subst.
    + left. simplify_list_eq. exists w1, w2. by rewrite <- (before_end_cons p).
  - intros [(w1 & w2 & -> & H1 & H2)|[H1 H2]].
    + exists (c :: w1), w2. by rewrite (before_end_cons p).
    + by exists [], (c :: w).
Qed.

Lemma deriv_spec r p c w n :
  matches (deriv r p c) (Some c) w n <-> matches r p (c :: w) n.
Proof.
  revert w n. induction r as [| |f|f|r1 IH1 r2 IH2|r1 IH1 r2 IH2|r IH]; intros w n; cbn [deriv].
  - split; by intros ?%matches_empty.
  - split; [by intros ?%matches_empty|]. intros H. by inversion H.
  - destruct (f c) eqn:E.
    + rewrite matches_eps. split; [intros ->; auto|]. intros H. by inversion H.
    + split; [by intros ?%matches_empty|]. intros H. inversion H; congruence.
  - split; [by intros ?%matches_empty|]. intros H. by inversion H.
  - rewrite matches_smart_alt, matches_alt, matches_smart_seq, matches_seq, matches_seq_cons.
    setoid_rewrite IH1. rewrite <- nullable_spec. destruct (nullable r1 p (Some c)).
    + rewrite IH2. intuition.
    + pose proof (matches_empty (Some c) w n). intuition congruence.
  - by rewrite matches_smart_alt, !matches_alt, IH1, IH2.
  - rewrite matches_smart_seq, matches_seq, matches_star_cons. by setoid_rewrite IH.
Qed.

Lemma match_prefix_spec r p w :
  match_prefix r p w = true <->
  exists m rest, w = m ++ rest /\ matches r p m (after_start rest None).
Proof.
  revert r p. induction w as [|c w IH]; intros r p; cbn [match_prefix].
  - case_goal.
    + split; [|done]. intros _. exists [], []. split; [done|]. by apply nullable_spec.
    + split; [done|]. intros ([|] & [|] & Hw & H); try done.
      apply nullable_spec in H. cbn in *. congruence.
  - case_goal.
    + split; [|done]. intros _. exists [], (c :: w). split; [done|]. by apply nullable_spec.
    + rewrite IH. setoid_rewrite deriv_spec. split.
      * intros (m & rest & -> & H). by exists (c :: m), rest.
      * intros ([|c' m] & rest & Hw & H); cbn in Hw.
        -- subst rest. apply nullable_spec in H. cbn in *. congruence.
        -- simplify_list_eq. by exists m, rest.
Qed.

Lemma search_spec r p w :
  search r p w = true <->
  exists pre m post, w = pre ++ m ++ post /\
    matches r (before_end p pre) m (after_start post None).
Proof.
  revert p. induction w as [|c w IH]; intros p; cbn [search].
  - case_goal.
    + split; [|done]. intros _. apply match_prefix_spec in E as (m & rest & Hw & H).
      by exists [], m, rest.
    + split; [done|]. intros ([|] & m & post & Hw & H); [|done].
      exfalso. apply not_true_iff_false in E. apply E, match_prefix_spec. by exists m, post.
  - case_goal.
    + split; [|done]. intros _. apply match_prefix_spec in E as (m & rest & Hw & H).
      by exists [], m, rest.
    + rewrite IH. split.
      * intros (pre & m & post & -> & H). exists (c :: pre), m, post. by rewrite before_end_cons.
      * intros ([|c' pre] & m & post & Hw & H); cbn in Hw.
        -- exfalso. apply not_true_iff_false in E. apply E, match_prefix_spec. by exists m, post.
        -- simplify_list_eq. rewrite before_end_cons in H. by exists pre, m, post.
Qed.

(** ** Reading an expression

    Literals, [.], classes of characters and ranges, groups, [|], the suffixes [?], [*]
    and [{n}], the escapes [\b] and [\.], the anchors [^] and [$], and the flag [(?i)]
    in front. *)

(** [unicode.SimpleFold] on the code points that fold to an ASCII letter. *)
Definition fold_orbit (r : Z) : list Z :=
  if in_range 65 90 r then
    r :: (r + 32)%Z :: (if (r =? 83)%Z then [383%Z] else if (r =? 75)%Z then [8490%Z] else [])
  else if in_range 97 122 r then
    r :: (r - 32)%Z :: (if (r =? 115)%Z then [383%Z] else if (r =? 107)%Z then [8490%Z] else [])
  else if (r =? 383)%Z then [r; 83%Z; 115%Z]
  else if (r =? 8490)%Z then [r; 75%Z; 107%Z]
  else [r].

Definition ranges (fold : bool) (rs : list (Z * Z)) (r : Z) : bool :=
  existsb (fun c => existsb (fun lh => in_range lh.1 lh.2 c) rs) (if fold then fold_orbit r else [r]).

Definition is_word (c : option Z) : bool :=
  match c with
  | Some c => in_range 48 57 c || in_range 65 90 c || in_range 97 122 c || (c =? 95)%Z
  | None => false
  end.

Definition word_boundary (p n : option Z) : bool := xorb (is_word p) (is_word n).
Definition text_start (p n : option Z) : bool := match p with None => true | _ => false end.
Definition text_end (p n : option Z) : bool := match n with None => true | _ => false end.

Fixpoint repeat_regex (n : nat) (r : regex) : regex :=
  match n with O => Eps | S n => mk_seq r (repeat_regex n r) end.

(** The ranges of a class, up to its [\]]. *)
Fixpoint read_class (l : list ascii) (rs : list (Z * Z)) : option (list (Z * Z) * list ascii) :=
  match l with
  | [] => None
  | "]"%char :: rest => Some (rs, rest)
  | lo :: rest =>
      let single := read_class rest ((byte lo, byte lo) :: rs) in
      match rest with
      | "-"%char :: tail =>
          match tail with
          | "]"%char :: _ => single
          | hi :: rest' => read_class rest' ((byte lo, byte hi) :: rs)
          | [] => single
          end
      | _ => single
      end
  end.

Fixpoint read_number (l : list ascii) (n : nat) : option (nat * list ascii) :=
  match l with
  | "}"%char :: rest => Some (n, rest)
  | c :: rest =>
      if in_range 48 57 (byte c) then read_number rest (10 * n + Z.to_nat (byte c - 48))%nat else None
  | [] => None
  end.

Fixpoint read_alt (fold : bool) (fuel : nat) (l : list ascii) : option (regex * list ascii) :=
  match fuel with
  | O => None
  | S fuel =>
      match read_seq fold fuel l with
      | Some (r, "|"%char :: rest) =>
          match read_alt fold fuel rest with
          | Some (r', rest) => Some (Alt r r', rest)
          | None => None
          end
      | other => other
      end
  end
with read_seq (fold : bool) (fuel : nat) (l : list ascii) : option (regex * list ascii) :=
  match fuel with
  | O => None
  | S fuel =>
      match l with
      | [] | "|"%char :: _ | ")"%char :: _ => Some (Eps, l)
      | _ =>
          match read_atom fold fuel l with
          | Some (r, rest) =>
              let suffixed :=
                match rest with
                | "?"%char :: rest => Some (Alt r Eps, rest)
                | "*"%char :: rest => Some (Star r, rest)
                | "{"%char :: rest =>
                    match read_number rest 0 with
                    | Some (n, rest) => Some (repeat_regex n r, rest)
                    | None => None
                    end
                | _ => Some (r, rest)
                end in
              match suffixed with
              | Some (r, rest) =>
                  match read_seq fold fuel rest with
                  | Some (r', rest) => Some (match r' with Eps => r | _ => Seq r r' end, rest)
                  | None => None
                  end
              | None => None
              end
          | None => None
          end
      end
  end
with read_atom (fold : bool) (fuel : nat) (l : list ascii) : option (regex * list ascii) :=
  match fuel with
  | O => None
  | S fuel =>
      match l with
      | "("%char :: rest =>
          match read_alt fold fuel rest with
          | Some (r, ")"%char :: rest) => Some (r, rest)
          | _ => None
          end
      | "["%char :: rest =>
          match read_class rest [] with
          | Some (rs, rest) => Some (Class (ranges fold rs), rest)
          | None => None
          end
      | "."%char :: rest => Some (Class (fun r => negb (r =? 10)%Z), rest)
      | "^"%char :: rest => Some (Assert text_start, rest)
      | "$"%char :: rest => Some (Assert text_end, rest)
      | "\"%char :: "b"%char :: rest => Some (Assert word_boundary, rest)
      | "\"%char :: c :: rest => Some (Class (ranges fold [(byte c, byte c)]), rest)
      | c :: rest => Some (Class (ranges fold [(byte c, byte c)]), rest)
      | [] => None
      end
  end.

Definition compile (pattern : string) : option regex :=
  let fold := has_prefix "(?i)" pattern in
  let l := String.list_ascii_of_string (if fold then str_drop 4 pattern else pattern) in
  match read_alt fold (4 * length l + 4) l with
  | Some (r, []) => Some r
  | _ => None
  end.

(** [regexp.MustCompile]; [patterns_compile] of the files that use it shows that the
    default is never taken. *)
Definition must_compile (pattern : string) : regex :=
  match compile pattern with Some r => r | None => Empty end.

(** [Regexp.MatchString]. *)
Definition match_string (r : regex) (s : string) : bool := search r None (runes s).

(** ** Replacing

    The length of the shortest match at a position.  It is the match Go finds when no
    two matches of the expression start at the same position. *)
Fixpoint match_length (r : regex) (p : option Z) (w : list Z) : option nat :=
  if nullable r p (after_start w None) then Some O
  else match w with
       | [] => None
       | c :: w' => S <$> match_length (deriv r p c) (Some c) w'
       end.

(** [Regexp.ReplaceAllStringFunc] for an expression that matches no empty text: the
    matches from left to right, each one after the end of the one before.  [skip] counts
    the code points of a match that are still to be passed over. *)
Fixpoint replace_matches (r : regex) (f : string -> string) (p : option Z) (skip : nat) (w : list Z)
    : string :=
  match w with
  | [] => ""
  | c :: w' =>
      match skip with
      | S k => replace_matches r f (Some c) k w'
      | O =>
          match match_length r p w with
          | Some (S n) =>
              f (of_runes (take (S n) w)) +:+ replace_matches r f (Some c) n w'
          | _ => encode_rune c +:+ replace_matches r f (Some c) O w'
          end
      end
  end.

(** The matcher of regular expressions is the one the expressions mean: a text is
    matched exactly when some part of it is matched between the code points around it. *)
Theorem match_string_correct (r : regex) (s : string) :
  match_string r s = true <->
  exists pre m post, runes s = pre ++ m ++ post /\
    matches r (last pre) m (head post).
Proof.
  unfold match_string. rewrite search_spec. unfold before_end, after_start.
  split; intros (pre & m & post & Hw & H); exists pre, m, post; (split; [done|]).
  - by destruct (last pre), post.
  - by destruct (last pre), post.
Qed.

Definition ex_boundary : regex := must_compile "(?i)\b(keep going|show (all|your) reasoning)\b".
Definition ex_session : regex :=
  must_compile "^[a-f0-9]{8}-[a-f0-9]{4}-[1-5][a-f0-9]{3}-[89ab][a-f0-9]{3}-[a-f0-9]{12}$".
Example ex_boundary_matches :
  match_string ex_boundary <$> ["please Keep going."; "unkeep going"; "showyour"; "x SHOW your reaſoning"]
  = [true; false; false; true].
Proof. vm_compute. reflexivity. Qed.
Example ex_session_matches :
  match_string ex_session <$>
    ["0a1b2c3d-0a1b-4a1b-8a1b-0a1b2c3d4e5f"; "0a1b2c3d-0a1b-4a1b-7a1b-0a1b2c3d4e5f"]
  = [true; false].
Proof. vm_compute. reflexivity. Qed.
