(* ===== verification/Lint.v ===== *)
(** * Linting prompts (internal/lint/lint.go)

    The required sections, the rules on a line, contradictions, duplicates and dated
    stable prefixes.  The patterns are the strings of the source, read by [Regex]. *)
From S2P Require Import Contracts Unicode Utf8 Textutil Regex.
From Stdlib Require Import Ascii.

Record rule := mkRule {
  ru_code : string;
  ru_severity : string;
  ru_message : string;
  ru_rationale : string;
  ru_remediation : string;
  ru_pattern : string
}.

Definition lineRules : list rule :=
  [mkRule "unbounded-persistence" "error"
     "Unbounded persistence or delegation request."
     "Work without measurable completion or limits can overrun scope and budget."
     "Add measurable completion, retry or fanout limits, and an observable stop rule."
     "(?i)\b(keep going|until happy|babysit|do everything|never stop|recursive delegation)\b";
   mkRule "chain-of-thought" "error"
     "Private reasoning or chain-of-thought requested."
     "The task should request conclusions and evidence, not hidden reasoning."
     "Ask for a concise rationale, evidence, or verification summary."
     "(?i)\b(chain[- ]of[- ]thought|show (all|your) reasoning|hidden reasoning)\b";
   mkRule "broad-absolute" "warning"
     "Broad ALWAYS/NEVER instruction."
     "Absolute wording is brittle unless it protects a true invariant."
     "Replace with a scoped decision rule or state why this is an invariant."
     "\b(ALWAYS|NEVER)\b";
   mkRule "unsupported-host-setting" "warning"
     "Host setting claim may be unsupported."
     "Prompt Better must not invent or change model, effort, verbosity, fast, Ultra, or hidden settings."
     "Capability-tag the advice and require current evidence, or remove it."
     "(?i)\b(set|switch|force|guarantee).*(model|reasoning effort|verbosity|fast mode|ultra mode|hidden flag)\b";
   mkRule "accounting-conflation" "warning"
     "API and subscription accounting may be conflated."
     "API token or cache fields do not establish Codex subscription usage or cost."
     "Name the product surface and accounting regime; mark unknowns explicitly."
     "(?i)\b(api|cache).*(subscription|usage unit|price|cost)\b|\bsubscription.*(token|cache|api)\b";
   mkRule "blanket-brevity" "warning"
     "Blanket brevity may drop required content."
     "Facts, decisions, caveats, evidence, and next actions take priority over generic brevity."
     "State a concrete length or format while preserving required content."
     "(?i)\b(be (extremely )?(brief|concise)|sacrifice .* for brevity)\b";
   mkRule "vague-role" "warning"
     "Role is too vague to change behavior reliably."
     "Generic expert or helpful roles add tokens without defining responsibility."
     "Name the concrete responsibility or remove the role."
     "(?i)\byou are (a |an )?(helpful|expert|world[- ]class) (assistant|ai|agent)\b";
   mkRule "keyword-semantic-map" "warning"
     "Keyword-only semantic routing may be brittle."
     "Keywords do not reliably establish user intent, authorization, or phase."
     "Use an explicit decision rule with context and fallback behavior."
     "(?i)\bif (the )?(prompt|request) (contains|has) (the )?(word|keyword)\b";
   mkRule "blanket-language-switch" "warning"
     "Blanket language switching may drop user intent."
     "Output language should change only under an explicit request or product rule."
     "Preserve the requested language or state the scoped language rule."
     "(?i)\b(always |regardless.*,? )?(respond|answer|output) in english\b";
   mkRule "fixed-context-threshold" "warning"
     "Fixed cache, context, or compaction threshold may be unsupported."
     "Host thresholds and accounting behavior are capability- and version-dependent."
     "Treat the number as source-qualified evidence or remove the universal claim."
     "(?i)\b[0-9]+k? (tokens?|context|compaction|cache).*(always|threshold|limit)\b"].

(** The patterns, compiled once. *)
Definition compiledRules : list (rule * regex) :=
  (fun r => (r, must_compile (ru_pattern r))) <$> lineRules.

Definition dynamicDatePattern : string := "\b20[0-9]{2}[-/]".

Definition dated (line : string) : bool := match_string (must_compile dynamicDatePattern) line.

Record requiredSection := mkSection {
  rs_name : string;
  rs_code : string;
  rs_message : string;
  rs_rationale : string;
  rs_remediation : string
}.

Definition requiredSections : list requiredSection :=
  [mkSection "goal" "missing-goal" "Missing explicit outcome."
     "Without an outcome, transformations cannot be checked for success."
     "Add a Goal section or a direct outcome-first instruction.";
   mkSection "success criteria" "missing-success" "Missing success criteria."
     "Completion is ambiguous without observable success criteria."
     "Add measurable success criteria.";
   mkSection "evidence" "missing-evidence" "Missing evidence requirement."
     "Claims and completion cannot be verified without required evidence."
     "State the evidence needed or explicitly say none is required.";
   mkSection "validation" "missing-validation" "Missing validation requirement."
     "A result can look complete without evidence that it works."
     "State the checks or evidence required before completion.";
   mkSection "stop" "missing-stop" "Missing stop rule."
     "Open-ended work can drift into later phases or excessive retries."
     "Add an observable completion and blocked/budget stop rule.";
   mkSection "approval boundary" "missing-authorization" "Missing authorization boundary."
     "The prompt may silently advance from planning to implementation or external action."
     "State what requires user or host approval."].

Record directiveState := mkDirective {
  ds_isNegative : bool;
  ds_line : Z
}.

Fixpoint itoa_go (fuel : nat) (value : Z) (digits : string) : string :=
  match fuel with
  | O => digits
  | S f => if (0 <? value)%Z then
             itoa_go f (value / 10) (String (byte_char (48 + value mod 10)) digits)
           else digits
  end.

(** 20 digits hold any [int]. *)
Definition itoa (value : Z) : string := if (value =? 0)%Z then "0" else itoa_go 20 value "".

Definition hasSection (lines : list string) (name : string) : bool :=
  let want := to_lower name +:+ ":" in
  existsb (fun line =>
    let value := to_lower (trim_space line) in
    (value =s want) || (name =s "goal") && (value =s "take this as a new goal:")) lines.

(** The loops over the prefixes: the first one that [value] has. *)
Fixpoint cut_prefix (prefixes : list string) (value : string) : option string :=
  match prefixes with
  | [] => None
  | prefix :: rest =>
      if has_prefix prefix value then Some (trim_space (trim_prefix prefix value))
      else cut_prefix rest value
  end.

Definition directive (line : string) : option (string * bool) :=
  let value := to_lower (trim_space (trim_left "-* " line)) in
  match cut_prefix ["do not "; "never "] value with
  | Some key => Some (key, true)
  | None =>
      match cut_prefix ["do "; "always "] value with
      | Some key => Some (key, false)
      | None => None
      end
  end.

Definition isSectionBoundary (value : string) : bool :=
  if (value =s "") || negb (has_suffix ":" value) then false else negb (dated value).

Definition section_diagnostics (lines : list string) : list Diagnostic :=
  (fun section => mkDiagnostic (rs_code section) "warning" (rs_message section) "document"
                    (rs_rationale section) (rs_remediation section)) <$>
  filter (fun section => hasSection lines (rs_name section) = false) requiredSections.

(** The maps of the loop over the lines. *)
Record Lint := mkLint {
  li_seen : gmap string Z;
  li_directives : gmap string directiveState;
  li_diagnostics : list Diagnostic
}.

Definition start_lint (diagnostics : list Diagnostic) : Lint := mkLint ∅ ∅ diagnostics.

Definition location_of (number : Z) : string := "line " +:+ itoa number.

Definition duplicate_diagnostic (prior number : Z) : Diagnostic :=
  mkDiagnostic "duplicate-instruction" "warning"
    ("Instruction duplicates line " +:+ itoa prior +:+ ".") (location_of number)
    "Repeated instructions add noise and can destabilize reusable prefixes."
    "Keep one authoritative copy.".

Definition contradiction_diagnostic (prior number : Z) : Diagnostic :=
  mkDiagnostic "contradictory-instructions" "error"
    ("Instruction contradicts line " +:+ itoa prior +:+ ".") (location_of number)
    "Opposing directives make the required behavior undefined."
    "Keep one scoped authoritative directive or add an explicit precedence rule.".

Definition rule_diagnostics (line : string) (number : Z) : list Diagnostic :=
  (fun current : rule * regex =>
     mkDiagnostic (ru_code current.1) (ru_severity current.1) (ru_message current.1)
       (location_of number) (ru_rationale current.1) (ru_remediation current.1)) <$>
  filter (fun current => match_string current.2 line = true) compiledRules.

Definition note_line (number : Z) (line : string) (s : Lint) : Lint :=
  let key := to_lower (trim_space line) in
  if trim_space line =s "" then s
  else match li_seen s !! key with
       | Some prior =>
           mkLint (li_seen s) (li_directives s)
             (li_diagnostics s ++ [duplicate_diagnostic prior number])
       | None => mkLint (<[key := number]> (li_seen s)) (li_directives s) (li_diagnostics s)
       end.

Definition note_directive (number : Z) (line : string) (s : Lint) : Lint :=
  match directive line with
  | None => s
  | Some (key, negative) =>
      match li_directives s !! key with
      | Some prior =>
          if negb (Bool.eqb (ds_isNegative prior) negative) then
            mkLint (li_seen s) (li_directives s)
              (li_diagnostics s ++ [contradiction_diagnostic (ds_line prior) number])
          else s
      | None =>
          mkLint (li_seen s) (<[key := mkDirective negative number]> (li_directives s))
            (li_diagnostics s)
      end
  end.

Definition lint_line (number : Z) (line : string) (s : Lint) : Lint :=
  let s := note_line number line s in
  let s := mkLint (li_seen s) (li_directives s) (li_diagnostics s ++ rule_diagnostics line number) in
  note_directive number line s.

Fixpoint lint_lines (number : Z) (lines : list string) (s : Lint) : Lint :=
  match lines with
  | [] => s
  | line :: rest => lint_lines (number + 1) rest (lint_line number line s)
  end.

Definition prefix_diagnostic (number : Z) : Diagnostic :=
  mkDiagnostic "unstable-prefix-dynamic-content" "warning"
    "Dated dynamic content appears in the stable prefix." (location_of number)
    "Volatile content churns a reusable prefix without changing its durable contract."
    "Move dated task evidence to dynamic context unless ordering authority requires otherwise.".

Fixpoint lint_prefix (number : Z) (lines : list string) (inPrefix : bool) : list Diagnostic :=
  match lines with
  | [] => []
  | line :: rest =>
      let trimmed := trim_space line in
      if equal_fold_ascii trimmed "Stable prefix:" then lint_prefix (number + 1) rest true
      else
        let inPrefix := if inPrefix && isSectionBoundary trimmed then false else inPrefix in
        (if inPrefix && dated line then [prefix_diagnostic number] else [])
          ++ lint_prefix (number + 1) rest inPrefix
  end.

Definition is_error (diagnostic : Diagnostic) : bool := dg_Severity diagnostic =s "error".

(** The two passes, stopped at the limit. *)
Definition capDiagnostics (diagnostics : list Diagnostic) (limit : nat) : list Diagnostic :=
  if (length diagnostics <=? limit)%nat then diagnostics
  else take limit (filter (fun d => is_error d = true) diagnostics
                   ++ filter (fun d => is_error d = false) diagnostics).

Definition all_diagnostics (candidate : string) : list Diagnostic :=
  let lines := split_on newline candidate in
  li_diagnostics (lint_lines 1 lines (start_lint (section_diagnostics lines)))
  ++ (if str_contains "stable prefix:" (to_lower candidate) then lint_prefix 1 lines false else []).

Definition CheckPrompt (request : LintPromptRequest) : result StableError LintPromptResult :=
  if negb (lpq_SchemaVersion request =s SchemaVersion) || negb (lpq_Kind request =s "request") then
    Err (invalid "request must use schema 1.0.0 and kind request" "request")
  else if (16000 <? str_len (lpq_Candidate request))%Z then
    Err (invalid "candidate exceeds 16000 bytes" "candidate")
  else
    let! candidate := Normalize (lpq_Candidate request) in
    let diagnostics := all_diagnostics candidate in
    Ok {| lpr_SchemaVersion := SchemaVersion; lpr_Kind := "result";
          lpr_Valid := negb (existsb is_error diagnostics);
          lpr_Diagnostics := capDiagnostics diagnostics 100; lpr_BoundaryDecisions := [] |}.

(** ** The patterns *)

Lemma patterns_compile :
  forallb (fun pattern => match compile pattern with Some _ => true | None => false end)
    (dynamicDatePattern :: (ru_pattern <$> lineRules)) = true.
Proof. vm_compute. reflexivity. Qed.

(** ** When a prompt is valid *)

(** A line that an error rule matches. *)
Definition error_line (line : string) : Prop :=
  Exists (fun r => ru_severity r = "error" /\ match_string (must_compile (ru_pattern r)) line = true)
    lineRules.

(** Two lines that give opposite directives. *)
Definition contradicted (lines : list string) : Prop :=
  exists key line1 line2, line1 ∈ lines /\ line2 ∈ lines /\
    directive line1 = Some (key, true) /\ directive line2 = Some (key, false).

Definition has_error (ds : list Diagnostic) : Prop := Exists (fun d => is_error d = true) ds.

Lemma has_error_app ds ds' : has_error (ds ++ ds') <-> has_error ds \/ has_error ds'.
Proof. apply Exists_app. Qed.

Lemma no_errors ds : Forall (fun d => is_error d = false) ds -> ~ has_error ds.
Proof.
  intros H E. apply Exists_exists in E as (d & Hd & E). rewrite Forall_forall in H.
  specialize (H d Hd). congruence.
Qed.

Lemma rule_diagnostics_error line number :
  has_error (rule_diagnostics line number) <-> error_line line.
Proof.
  unfold has_error, error_line. rewrite !Exists_exists. split.
  - intros (d & Hd & E). apply list_elem_of_fmap in Hd as ([r p] & -> & Hr).
    apply list_elem_of_filter in Hr as [Hm Hr].
    apply list_elem_of_fmap in Hr as (r' & [= -> ->] & Hr).
    exists r'. split_and!; [done| |done]. by apply str_eqb_eq in E.
  - intros (r & Hr & Hs & Hm). eexists. split.
    + apply list_elem_of_fmap. exists (r, must_compile (ru_pattern r)). split; [reflexivity|].
      apply list_elem_of_filter. split; [exact Hm|]. apply list_elem_of_fmap. by exists r.
    + apply str_eqb_eq. exact Hs.
Qed.

(** The polarities the loop has recorded, and the contradictions it then finds. *)
Definition polarity (s : Lint) : gmap string bool := ds_isNegative <$> li_directives s.

Fixpoint contradicts (known : gmap string bool) (lines : list string) : Prop :=
  match lines with
  | [] => False
  | line :: rest =>
      match directive line with
      | None => contradicts known rest
      | Some (key, negative) =>
          match known !! key with
          | Some b => b <> negative \/ contradicts known rest
          | None => contradicts (<[key := negative]> known) rest
          end
      end
  end.

Lemma note_line_spec number line s :
  li_directives (note_line number line s) = li_directives s /\
  (has_error (li_diagnostics (note_line number line s)) <-> has_error (li_diagnostics s)).
Proof.
  unfold note_line. case_goal; [done|]. case_goal; [|done]. cbn [li_directives li_diagnostics].
  rewrite has_error_app. split; [done|].
  assert (~ has_error [duplicate_diagnostic z number]) by (apply no_errors; by repeat constructor).
  tauto.
Qed.

Lemma lint_lines_error number lines s :
  has_error (li_diagnostics (lint_lines number lines s)) <->
  has_error (li_diagnostics s) \/ Exists error_line lines \/ contradicts (polarity s) lines.
Proof.
  revert number s. induction lines as [|line lines IH]; intros number s; cbn [lint_lines contradicts].
  { rewrite Exists_nil. tauto. }
  rewrite IH, Exists_cons. unfold lint_line.
  destruct (note_line_spec number line s) as [Hd Hn]. set (s1 := note_line number line s) in *.
  set (s2 := mkLint _ _ _).
  assert (has_error (li_diagnostics s2) <-> has_error (li_diagnostics s) \/ error_line line) as H2.
  { unfold s2. cbn [li_diagnostics]. by rewrite has_error_app, Hn, rule_diagnostics_error. }
  assert (polarity s2 = polarity s) as Hp by (unfold polarity, s2; cbn; by rewrite Hd).
  unfold note_directive. destruct (directive line) as [[key negative]|]; [|rewrite H2, Hp; tauto].
  assert (polarity s !! key = ds_isNegative <$> li_directives s2 !! key) as ->.
  { rewrite <- Hp. unfold polarity. by rewrite lookup_fmap. }
  destruct (li_directives s2 !! key) as [prior|]; cbn [fmap option_fmap option_map].
  - destruct (Bool.eqb_spec (ds_isNegative prior) negative) as [He|He]; cbn [negb].
    + rewrite H2, Hp. tauto.
    + unfold polarity at 1. cbn [li_diagnostics li_directives]. rewrite has_error_app, H2.
      assert (has_error [contradiction_diagnostic (ds_line prior) number]) by (by constructor).
      tauto.
  - cbn [li_diagnostics]. rewrite H2. unfold polarity at 1. cbn [li_directives].
    rewrite fmap_insert. change (ds_isNegative <$> li_directives s2) with (polarity s2).
    rewrite Hp. cbn [ds_isNegative]. tauto.
Qed.

(** A directive that is known, or given by one of the lines. *)
Definition given (known : gmap string bool) (lines : list string) (key : string) (b : bool) : Prop :=
  known !! key = Some b \/ exists line, line ∈ lines /\ directive line = Some (key, b).

Lemma given_cons known line lines key b :
  given known (line :: lines) key b <->
  given known lines key b \/ directive line = Some (key, b).
Proof.
  unfold given. setoid_rewrite elem_of_cons. split.
  - intros [H|(l & [->|H] & Hd)]; eauto.
  - intros [[H|(l & H & Hd)]|H]; eauto 6.
Qed.

Lemma given_insert known lines key b key' b' :
  known !! key = None ->
  given (<[key := b]> known) lines key' b' <-> given known lines key' b' \/ (key' = key /\ b' = b).
Proof.
  intros Hk. unfold given. destruct (decide (key' = key)) as [->|Hne].
  - rewrite lookup_insert_eq, Hk. naive_solver.
  - rewrite lookup_insert_ne by done. naive_solver.
Qed.

Lemma contradicts_spec known lines :
  contradicts known lines <->
  exists key b, given known lines key b /\ given ∅ lines key (negb b).
Proof.
  revert known. induction lines as [|line lines IH]; intros known; cbn [contradicts].
  { split; [done|]. intros (key & b & _ & [H|(l & H & _)]); [by rewrite lookup_empty in H|].
    by apply not_elem_of_nil in H. }
  setoid_rewrite given_cons.
  destruct (directive line) as [[key n]|].
  2:{ rewrite IH. naive_solver. }
  destruct (known !! key) as [b|] eqn:Hk; rewrite IH.
  - split.
    + intros [Hb|(key' & b' & H1 & H2)]; [|eauto 7].
      exists key, b. split; [left; by left|]. right. f_equal. f_equal. by destruct b, n.
    + intros (key' & b' & H1 & H2). destruct (decide (b = n)) as [<-|]; [|by left]. right.
      destruct H2 as [H2|[= <- ->]].
      * exists key', b'. split; [|done]. destruct H1 as [H1|[= <- ->]]; [done|by left].
      * destruct H1 as [H1|[= Hb]]; [|by destruct b'].
        exists key, (negb b'). split; [by left|]. rewrite negb_involutive.
        destruct H1 as [H1|H1]; [rewrite H1 in Hk; injection Hk; by destruct b'|by right].
  - setoid_rewrite given_insert; [|done]. split.
    + intros (key' & b' & [H1|[-> ->]] & H2); [eauto 7|]. exists key, n. eauto.
    + intros (key' & b' & H1 & H2).
      destruct H2 as [H2|[= <- Hn]].
      * exists key', b'. split; [|done]. destruct H1 as [H1|[= <- ->]]; auto.
      * subst n. destruct H1 as [H1|[= Hb]]; [|by destruct b'].
        destruct H1 as [H1|H1]; [congruence|].
        exists key, (negb b'). split; [by right|]. rewrite negb_involutive. by right.
Qed.

Lemma contradicts_empty lines : contradicts ∅ lines <-> contradicted lines.
Proof.
  rewrite contradicts_spec. unfold given, contradicted. split.
  - intros (key & [|] & [H1|(l1 & H1 & E1)] & [H2|(l2 & H2 & E2)]);
      rewrite ?lookup_empty in *; try done; by eauto 8.
  - intros (key & l1 & l2 & H1 & H2 & E1 & E2). exists key, true. split; right; eauto.
Qed.

Lemma all_diagnostics_error candidate :
  has_error (all_diagnostics candidate) <->
  Exists error_line (split_on newline candidate) \/ contradicted (split_on newline candidate).
Proof.
  unfold all_diagnostics. rewrite has_error_app, lint_lines_error, <- contradicts_empty.
  set (lines := split_on newline candidate).
  assert (~ has_error (section_diagnostics lines)) as H1.
  { apply no_errors. unfold section_diagnostics. apply Forall_fmap, Forall_true. done. }
  assert (forall lines n b, Forall (fun d => is_error d = false) (lint_prefix n lines b)) as H2.
  { clear. induction lines as [|line rest IH]; intros n b; cbn [lint_prefix]; [constructor|].
    destruct (equal_fold_ascii _ _); [apply IH|]. apply Forall_app_2; [|apply IH].
    destruct (_ && dated line); by repeat constructor. }
  assert (~ has_error (if str_contains "stable prefix:" (to_lower candidate)
                       then lint_prefix 1 lines false else [])) as H3.
  { case_goal; apply no_errors; [apply H2|constructor]. }
  change (polarity (start_lint _)) with (ds_isNegative <$> (∅ : gmap string directiveState)).
  rewrite fmap_empty. cbn [li_diagnostics start_lint]. tauto.
Qed.

Lemma has_error_cap ds limit :
  (0 < limit)%nat -> has_error (capDiagnostics ds limit) <-> has_error ds.
Proof.
  intros Hl. unfold capDiagnostics. case_goal; [done|]. unfold has_error.
  rewrite !Exists_exists. split.
  - intros (d & Hd & E1). exists d. split; [|done]. apply elem_of_take in Hd as (i & Hd & _).
    apply list_elem_of_lookup_2 in Hd. rewrite elem_of_app, !list_elem_of_filter in Hd. tauto.
  - intros (d & Hd & E1).
    destruct (filter (fun d => is_error d = true) ds) as [|e es] eqn:Ef.
    { exfalso. assert (d ∈ filter (fun d => is_error d = true) ds) as Hin by (by apply list_elem_of_filter).
      rewrite Ef in Hin. by apply not_elem_of_nil in Hin. }
    exists e. split.
    + destruct limit; [lia|]. cbn. apply list_elem_of_here.
    + assert (e ∈ filter (fun d => is_error d = true) ds) as Hin by (rewrite Ef; apply list_elem_of_here).
      by apply list_elem_of_filter in Hin as [? _].
Qed.

(** A prompt is reported valid exactly when no line of its normal form matches an
    error rule and no two lines give opposite directives; at most 100 diagnostics are
    returned, and the cap never hides the reason of an invalid verdict. *)
Theorem CheckPrompt_verdict (request : LintPromptRequest) (candidate : string) (r : LintPromptResult) :
  Normalize (lpq_Candidate request) = Ok candidate -> CheckPrompt request = Ok r ->
  (lpr_Valid r = false <->
     Exists error_line (split_on newline candidate) \/ contradicted (split_on newline candidate)) /\
  (lpr_Valid r = false <-> has_error (lpr_Diagnostics r)) /\
  (length (lpr_Diagnostics r) <= 100)%nat.
Proof.
  unfold CheckPrompt. intros Hn H. destruct (_ || _); [done|]. destruct (_ <? _)%Z; [done|].
  rewrite Hn in H. cbv beta iota zeta in H. injection H as <-. cbn [lpr_Valid lpr_Diagnostics].
  assert (negb (existsb is_error (all_diagnostics candidate)) = false <->
    has_error (all_diagnostics candidate)) as Hv by (by rewrite negb_false_iff, existsb_spec).
  split_and!.
  - by rewrite Hv, all_diagnostics_error.
  - rewrite Hv. symmetry. apply has_error_cap. lia.
  - unfold capDiagnostics. case_goal; bool_facts; [done|]. rewrite length_take. lia.
Qed.

Definition sample_lint : LintPromptRequest :=
  mkLintPromptRequest SchemaVersion "request"
    ("Goal:" +:+ LF +:+ "- Do run tests" +:+ LF +:+ "- Never run tests" +:+ LF +:+ "You are an expert AI").

Lemma CheckPrompt_verdict_witness :
  let r := match CheckPrompt sample_lint with Ok r => r | Err _ => mkLintPromptResult "" "" true [] [] end in
  lpr_Valid r = false /\ has_error (lpr_Diagnostics r).
Proof.
  intros r. assert (lpr_Valid r = false) as H by (vm_compute; reflexivity). split; [exact H|].
  apply (CheckPrompt_verdict sample_lint
    ("Goal:" +:+ LF +:+ "- Do run tests" +:+ LF +:+ "- Never run tests" +:+ LF +:+ "You are an expert AI") r).
  - vm_compute. reflexivity.
  - vm_compute. reflexivity.
  - exact H.
Defined.
