(* ===== verification/Pipeline.v ===== *)
(** * Improving, then linting

    What [lint_prompt] (internal/lint) says of a prompt that [improve_prompt]
    (internal/compiler) rendered. *)
From S2P Require Import Contracts Unicode Utf8 Policy Textutil Compiler Compiled Regex Lint.
From Stdlib Require Import Ascii.

Definition fixed_lines : list string := "Goal:" :: body_lines.

Definition lint_of (candidate : string) : LintPromptRequest :=
  mkLintPromptRequest SchemaVersion "request" candidate.

(** The one directive of the default plan. *)
Definition fixed_directive : string :=
  "execute, expand scope, or take external action without applicable authorization.".

Lemma fixed_directives : omap directive fixed_lines = [(fixed_directive, true)].
Proof. vm_compute. reflexivity. Qed.

Definition error_lineb (line : string) : bool :=
  existsb (fun r => (ru_severity r =s "error") && match_string (must_compile (ru_pattern r)) line)
    lineRules.

Lemma error_lineb_spec line : error_lineb line = true <-> error_line line.
Proof.
  unfold error_lineb, error_line. rewrite existsb_spec, !Exists_exists.
  setoid_rewrite andb_true_iff. by setoid_rewrite str_eqb_eq.
Qed.

Lemma fixed_lines_no_error : ~ Exists error_line fixed_lines.
Proof.
  assert (existsb error_lineb fixed_lines = false) as H by (vm_compute; reflexivity).
  intros E. rewrite <- not_true_iff_false, existsb_spec in H. apply H.
  eapply Exists_impl; [exact E|]. intros line. apply error_lineb_spec.
Qed.

Section Prompt.
Context (value : string) (Hv : one_line value).

Let lines : list string := split_on newline (default_prompt value).

Lemma prompt_lines : lines = "Goal:" :: value :: body_lines.
Proof.
  unfold lines. rewrite default_prompt_lines. apply split_join; [done|].
  constructor; [repeat constructor; discriminate|]. constructor; [apply Hv|].
  eapply Forall_impl; [apply body_lines_ok|]. by intros l [].
Qed.

Lemma prompt_line line : line ∈ lines <-> line = value \/ line ∈ fixed_lines.
Proof. rewrite prompt_lines. unfold fixed_lines. rewrite !elem_of_cons. tauto. Qed.

Lemma hasSection_mono l1 l2 name :
  (forall line, line ∈ l1 -> line ∈ l2) -> hasSection l1 name = true -> hasSection l2 name = true.
Proof.
  unfold hasSection. cbv zeta. rewrite !existsb_spec, !Exists_exists.
  intros Hsub (line & Hl & H). eauto.
Qed.

Lemma prompt_sections : section_diagnostics lines = [].
Proof.
  unfold section_diagnostics. rewrite filter_none; [done|].
  assert (forallb (fun section => hasSection fixed_lines (rs_name section)) requiredSections = true)
    as H by (vm_compute; reflexivity).
  apply forallb_spec in H. eapply Forall_impl; [exact H|]. intros section Hs Hnot.
  rewrite (hasSection_mono fixed_lines) in Hnot; [done| |done].
  intros line Hl. apply prompt_line. by right.
Qed.

Lemma prompt_error_lines : Exists error_line lines <-> error_line value.
Proof.
  rewrite Exists_exists. setoid_rewrite prompt_line. split.
  - intros (line & [->|Hl] & H); [done|]. destruct fixed_lines_no_error.
    apply Exists_exists. eauto.
  - intros H. eauto.
Qed.

Lemma fixed_directive_line line key negative :
  line ∈ fixed_lines -> directive line = Some (key, negative) -> key = fixed_directive /\ negative = true.
Proof.
  intros Hl Hd. assert ((key, negative) ∈ omap directive fixed_lines) as H.
  { apply list_elem_of_omap. eauto. }
  rewrite fixed_directives in H. apply list_elem_of_singleton in H. by injection H.
Qed.

Lemma prompt_contradicted : contradicted lines <-> directive value = Some (fixed_directive, false).
Proof.
  unfold contradicted. setoid_rewrite prompt_line. split.
  - intros (key & l1 & l2 & [->|H1] & [->|H2] & D1 & D2); try congruence.
    + by apply fixed_directive_line in D2 as [_ ?].
    + by apply fixed_directive_line in D1 as [<- _].
    + by apply fixed_directive_line in D2 as [_ ?].
  - intros D. assert ((fixed_directive, true) ∈ omap directive fixed_lines) as H.
    { rewrite fixed_directives. by apply list_elem_of_singleton. }
    apply list_elem_of_omap in H as (l1 & Hl & D1). exists fixed_directive, l1, value.
    split_and!; auto.
Qed.

Lemma not_document_line number lines' s :
  Forall (fun d => dg_Location d <> "document") (li_diagnostics s) ->
  Forall (fun d => dg_Location d <> "document") (li_diagnostics (lint_lines number lines' s)).
Proof.
  revert number s. induction lines' as [|line rest IH]; intros number s Hs; [done|].
  cbn [lint_lines]. apply IH. unfold lint_line, note_directive, note_line, rule_diagnostics.
  repeat case_goal; cbn [li_diagnostics]; repeat apply Forall_app_2; try done;
    try (apply Forall_fmap, Forall_true; intros r; discriminate); repeat constructor; discriminate.
Qed.
End Prompt.

Lemma lint_prefix_location number lines inPrefix :
  Forall (fun d => dg_Location d <> "document") (lint_prefix number lines inPrefix).
Proof.
  revert number inPrefix. induction lines as [|line rest IH]; intros number inPrefix;
    cbn [lint_prefix]; [constructor|].
  destruct (equal_fold_ascii _ _); [apply IH|]. apply Forall_app_2; [|apply IH].
  destruct (_ && dated line); repeat constructor; discriminate.
Qed.

Lemma capDiagnostics_elem d ds limit : d ∈ capDiagnostics ds limit -> d ∈ ds.
Proof.
  unfold capDiagnostics. case_goal; [done|].
  intros (i & Hd & _)%elem_of_take. apply list_elem_of_lookup_2 in Hd.
  rewrite elem_of_app, !list_elem_of_filter in Hd. tauto.
Qed.

(** What [improve_prompt] renders for a one-line intent, [lint_prompt] accepts but
    for the intent itself: the linter takes the prompt, misses no section of it, and
    finds it invalid exactly when the intent matches an error rule or contradicts the
    approval boundary of the default plan. *)
Theorem Improve_then_lint done (request : ImprovePromptRequest) (host : HostPermission)
    (value : string) (r : ImprovePromptResult) :
  ipq_PromptPlan request = None ->
  Normalize (ipq_Intent request) = Ok value -> no_char newline value ->
  Improve done request host = Ok r ->
  exists l, CheckPrompt (lint_of (ipr_ImprovedPrompt r)) = Ok l /\
    Forall (fun d => dg_Location d <> "document") (lpr_Diagnostics l) /\
    (lpr_Valid l = false <-> error_line value \/ directive value = Some (fixed_directive, false)).
Proof.
  intros Hplan Hnorm Hline Hr. pose proof (Normalize_one_line _ _ Hnorm Hline) as Hv.
  destruct (Improve_one_line _ _ _ _ _ Hplan Hnorm Hv Hr) as [Hp Hlen]. rewrite Hp in *.
  unfold CheckPrompt, lint_of. cbn [lpq_SchemaVersion lpq_Kind lpq_Candidate].
  rewrite !str_eqb_refl, (proj2 (Z.ltb_ge _ _)), default_prompt_normal by done.
  eexists. split; [reflexivity|]. cbn [lpr_Diagnostics lpr_Valid]. split.
  - apply Forall_forall. intros d Hd%capDiagnostics_elem. revert d Hd. apply Forall_forall.
    unfold all_diagnostics. apply Forall_app_2.
    + apply not_document_line. by rewrite prompt_sections.
    + case_goal; [apply lint_prefix_location|constructor].
  - rewrite negb_false_iff, existsb_spec. fold (has_error (all_diagnostics (default_prompt value))).
    by rewrite all_diagnostics_error, prompt_error_lines, prompt_contradicted.
Qed.

Lemma Improve_then_lint_witness :
  let r := ok_or (mkImprovePromptResult "" "" "" "" [] [])
             (Improve (fun _ => false) sample_request HostPermitted) in
  exists l, CheckPrompt (lint_of (ipr_ImprovedPrompt r)) = Ok l /\
    Forall (fun d => dg_Location d <> "document") (lpr_Diagnostics l) /\
    (lpr_Valid l = false <-> error_line "Summarise the open incidents." \/
       directive "Summarise the open incidents." = Some (fixed_directive, false)).
Proof.
  intros r. apply (Improve_then_lint (fun _ => false) sample_request HostPermitted).
  - reflexivity.
  - vm_compute. reflexivity.
  - repeat constructor; discriminate.
  - vm_compute. reflexivity.
Defined.
