(* ===== verification/Report.v ===== *)
(** * Governance reports: the model (internal/report/render.go)

    [Build] turns the result of a project audit into a [Model] of display strings; every
    text of the audit passes through [clean]. *)
From S2P Require Import Contracts Unicode Utf8 Runes GoFmt Textutil Regex.
From Stdlib Require Import Ascii.

Definition MaxResultBytes : Z := 50000%Z.

Definition activeLink : string := "(?i)\b(https?|ftp|mailto|javascript|data|file):|\bwww\.".

(** ** Display texts *)

Definition link_pattern : regex := must_compile activeLink.

Definition neutral_match (matched : string) : string :=
  if equal_fold_ascii matched "www." then "www∶" else trim_suffix ":" matched +:+ "∶".

Definition neutralizeSchemes (value : string) : string :=
  replace_matches link_pattern neutral_match None 0 (runes value).

(** The code points [clean] treats as separators beside spaces and controls. *)
Definition is_bidi (r : Z) : bool :=
  (r =? 8234)%Z || (r =? 8235)%Z || (r =? 8237)%Z || (r =? 8238)%Z || in_range 8294 8297 r.

(** The loop over the runes: [space] says that a separator is pending, [started] that the
    builder is not empty. *)
Fixpoint clean_runes (l : list Z) (space started : bool) : string :=
  match l with
  | [] => ""
  | r :: l =>
      if is_control r || is_bidi r || is_space r then clean_runes l true started
      else if space && started then " " +:+ encode_rune r +:+ clean_runes l false true
      else encode_rune r +:+ clean_runes l space true
  end.

Definition angle (c : ascii) : string :=
  if Ascii.eqb c "<" then "‹" else if Ascii.eqb c ">" then "›" else String c "".

Definition clean (value : string) : string :=
  let value := trim_space (clean_runes (runes (to_valid value)) false false) in
  let value := replace_all "::" "∶∶" (replace_bytes angle value) in
  neutralizeSchemes value.

Definition Sanitize (value : string) : string := clean value.

Definition escape (c : ascii) : string :=
  if existsb (Ascii.eqb c) ["\"; "|"; "`"; "*"; "_"; "["; "]"; "("; ")"]%char then
    String "\" (String c "")
  else if Ascii.eqb c "<" then "&lt;" else if Ascii.eqb c ">" then "&gt;" else String c "".

Definition md (value : string) : string := replace_bytes escape (clean value).

Definition SanitizeMarkdown (value : string) : string := md value.

Definition cell (value : string) : string :=
  let rs := runes (md value) in
  if (length rs <=? 28)%nat then of_runes rs else of_runes (take 27 rs) +:+ "…".

Definition known (value : string) : string :=
  let value := clean value in if value =s "" then "unknown" else value.

Definition number (value : option float64) : string :=
  match value with
  | None => "unknown"
  | Some v => if is_nan v || is_inf v then "unknown" else fmt_g6 v
  end.

Definition finiteNumber (value : float64) : string :=
  if is_nan value || is_inf value then "unknown" else fmt_g6 value.

Definition sortedStrings (values : list string) : list string := sort_strings values.

Definition cleanList (values : list string) : string :=
  match values with [] => "none" | _ => clean (str_join ", " (sortedStrings values)) end.

Definition optionalInt (value : option Z) : string :=
  match value with None => "unknown" | Some v => fmt_d v end.

Definition privacyState (suppressed : bool) : string :=
  if suppressed then "suppressed" else "redacted aggregate".

(** ** The model *)

Record count := mkCount { ct_Name : string; ct_Included : Z; ct_Excluded : string }.

Record source := mkSource {
  so_Kind : string; so_Version : string; so_Freshness : string; so_Coverage : string;
  so_Redaction : string; so_Knowledge : string }.

Record metric := mkMetric {
  me_Label : string; me_Name : string; me_Value : string; me_Numerator : string;
  me_Denominator : string; me_Previous : string; me_Median : string; me_Unit : string;
  me_Status : string; me_Reason : string; me_Coverage : string; me_Confidence : string;
  me_Uncertainty : string; me_Polarity : string; me_Exclusions : string; me_Sample : Z }.

Record contribution := mkContribution {
  co_Scope : string; co_Class : string; co_Numerator : string; co_Denominator : string;
  co_Value : string; co_Coverage : string; co_Attribution : string }.

Record workload := mkWorkload {
  wo_Metric : string; wo_Volume : string; wo_Mix : string; wo_Within : string;
  wo_Residual : string; wo_Status : string; wo_Classes : string }.

Record guardrail := mkGuardrail { gu_Name : string; gu_State : string; gu_Coverage : string }.

Record finding := mkFinding {
  fi_Code : string; fi_Classification : string; fi_Confidence : string; fi_Cause : string;
  fi_Detector : string; fi_Exception : string; fi_Counterevidence : string }.

Record recommendation := mkRecommendation {
  re_Code : string; re_Action : string; re_Verification : string; re_Lifecycle : string;
  re_Impact : string; re_Contract : string; re_Scope : string; re_EvidenceConfidence : string;
  re_Rationale : string; re_Target : string; re_Guardrails : string; re_Risks : string;
  re_Approval : string }.

Record outlier := mkOutlier {
  ou_Metric : string; ou_Value : string; ou_Unit : string; ou_Direction : string;
  ou_Magnitude : string; ou_Impact : string; ou_Scope : string; ou_Coverage : string;
  ou_Window : string; ou_Recommendation : string }.

Record confounder := mkConfounder { cf_Kind : string; cf_State : string; cf_Confidence : string }.

Record provenance := mkProvenance { pr_Field : string; pr_Knowledge : string; pr_Source : string }.

Record Model := mkModel {
  mo_Identity : string; mo_Scope : string; mo_Coverage : string; mo_QualityGate : string;
  mo_Revision : string; mo_AsOf : string; mo_Window : string; mo_Baseline : string;
  mo_Comparisons : list string; mo_Privacy : string; mo_Lineage : string; mo_Derivation : string;
  mo_UpstreamOmitted : Z; mo_ScopeCounts : list count; mo_Sources : list source;
  mo_Metrics : list metric; mo_Contributions : list contribution; mo_Workload : list workload;
  mo_Guardrails : list guardrail; mo_Overhead : list metric; mo_Findings : list finding;
  mo_Recommendations : list recommendation; mo_Outliers : list outlier;
  mo_Confounders : list confounder; mo_Provenance : list provenance;
  mo_initialOmissions : gmap string Z }.

(** ** Windows and counts *)

Definition scopeCounts (value : ReportScopeCounts) : list count :=
  [mkCount "trajectories" (rsc_IncludedTrajectories value) (optionalInt (rsc_ExcludedTrajectories value));
   mkCount "turns" (rsc_IncludedTurns value) (optionalInt (rsc_ExcludedTurns value));
   mkCount "tool calls" (rsc_IncludedToolCalls value) (optionalInt (rsc_ExcludedToolCalls value));
   mkCount "evidence" (rsc_IncludedEvidence value) (optionalInt (rsc_ExcludedEvidence value))].

Definition reportWindow (value : ReportWindowReference) : string :=
  cat [fmt_time (rw_StartsAt value); " to "; fmt_time (rw_EndsAt value); "; as of ";
       fmt_time (rw_AsOf value); "; coverage "; clean (rw_Coverage value); "; baseline ";
       clean (rw_BaselineVersion value); "; sources "; cleanList (rw_SourceVersions value)].

Definition baselineSummary (facts : GovernanceReportFacts) : string :=
  let previous :=
    match rf_PreviousWindow facts with
    | None => "unknown"
    | Some w => fmt_time (rw_AsOf w) +:+ " / " +:+ clean (rw_Coverage w)
    end in
  cat ["previous "; previous; "; rolling windows "; fmt_d (Z.of_nat (length (rf_RollingWindows facts)))].

Definition comparisonWindows (facts : GovernanceReportFacts) : list string :=
  match rf_PreviousWindow facts with
  | None => []
  | Some w => ["previous: " +:+ reportWindow w]
  end ++
  imap (fun index value => cat ["rolling "; fmt_d (Z.of_nat index + 1); ": "; reportWindow value])
    (rf_RollingWindows facts).

Definition audit_window (w : AuditWindowProvenance) : string :=
  cat [fmt_time (aw_StartsAt w); " to "; fmt_time (aw_EndsAt w); "; revision "; fmt_d (aw_Revision w);
       "; late evidence "; fmt_t (aw_LateEvidence w); "; baseline "; clean (aw_BaselineVersion w);
       "; counting "; clean (aw_CountingMode w); "; workload "; clean (aw_WorkloadVersion w);
       "; sources "; cleanList (aw_SourceVersions w)].

Definition lineage_counts (c : InvocationCounts) : string :=
  cat ["host calls "; fmt_d (ic_HostCalls c); "; leaf calls "; fmt_d (ic_LeafCalls c);
       "; host results "; fmt_d (ic_HostResults c); "; leaf results "; fmt_d (ic_LeafResults c);
       "; unknown calls "; fmt_d (ic_UnknownCalls c)].

(** ** Rows *)

(** A map from the facts' names, or the error for a name that occurs twice. *)
Fixpoint index_facts {A} (name : A -> string) (message : string) (facts : list A)
    (labels : gmap string A) : result string (gmap string A) :=
  match facts with
  | [] => Ok labels
  | fact :: rest =>
      match labels !! name fact with
      | Some _ => Err message
      | None => index_facts name message rest (<[name fact := fact]> labels)
      end
  end.

(** The rows of the values that each have a fact of their name, each name once. *)
Fixpoint join_facts {A B C} (key : A -> string) (row : A -> B -> C) (message : string)
    (labels : gmap string B) (values : list A) (names : gset string) : result string (list C) :=
  match values with
  | [] => Ok []
  | value :: rest =>
      if bool_decide (key value ∈ names) then Err message
      else match labels !! key value with
           | None => Err message
           | Some fact =>
               let! rows := join_facts key row message labels rest ({[key value]} ∪ names) in
               Ok (row value fact :: rows)
           end
  end.

Definition metric_row (value : MetricResult) (fact : ReportMetricFacts) : metric :=
  {| me_Label := clean (rm_DisplayLabel fact); me_Name := clean (mr_Name value);
     me_Value := number (mr_NativeValue value); me_Numerator := number (mr_Numerator value);
     me_Denominator := number (mr_Denominator value); me_Previous := number (mr_PreviousValue value);
     me_Median := number (mr_RollingMedian value); me_Unit := clean (mr_NativeUnit value);
     me_Status := clean (mr_Status value); me_Reason := clean (mr_StatusReason value);
     me_Coverage := clean (mr_Coverage value); me_Confidence := clean (mr_Confidence value);
     me_Uncertainty := clean (mr_Uncertainty value); me_Polarity := clean (rm_Polarity fact);
     me_Exclusions := cleanList (mr_Exclusions value); me_Sample := mr_SampleCount value |}.

(** A missing fact is the zero value: no label and no polarity. *)
Definition overhead_row (labels : gmap string ReportMetricFacts) (value : MetricResult) : metric :=
  let fact := default (mkReportMetricFacts "" "" "") (labels !! mr_Name value) in
  {| me_Label := clean (rm_DisplayLabel fact); me_Name := clean (mr_Name value);
     me_Value := number (mr_NativeValue value); me_Numerator := ""; me_Denominator := "";
     me_Previous := number (mr_PreviousValue value); me_Median := number (mr_RollingMedian value);
     me_Unit := clean (mr_NativeUnit value); me_Status := clean (mr_Status value);
     me_Reason := clean (mr_StatusReason value); me_Coverage := clean (mr_Coverage value);
     me_Confidence := clean (mr_Confidence value); me_Uncertainty := clean (mr_Uncertainty value);
     me_Polarity := clean (rm_Polarity fact); me_Exclusions := ""; me_Sample := 0 |}.

Definition contribution_row (suppressed : bool) (value : ScopeContribution) : contribution :=
  let hidden := suppressed || (sc_AttributionState value =s "privacy_suppressed") in
  {| co_Scope := clean (sc_Scope value); co_Class := clean (sc_WorkloadClass value);
     co_Numerator := if hidden then "unknown" else finiteNumber (sc_Numerator value);
     co_Denominator := if hidden then "unknown" else finiteNumber (sc_Denominator value);
     co_Value := if hidden then "unknown" else number (sc_Contribution value);
     co_Coverage := clean (sc_Coverage value); co_Attribution := clean (sc_AttributionState value) |}.

Definition workload_row (value : WorkloadDecomposition) : workload :=
  mkWorkload (clean (wd_Metric value)) (number (wd_VolumeEffect value)) (number (wd_MixEffect value))
    (number (wd_WithinClassEffect value)) (number (wd_Residual value)) (clean (wd_Status value))
    (cleanList (wd_Classes value)).

Definition guardrail_row (value : GuardrailResult) : guardrail :=
  mkGuardrail (clean (gr_Name value)) (clean (gr_State value)) (clean (gr_Coverage value)).

Definition finding_row (value : AuditFinding) : finding :=
  let detector :=
    if negb (af_Detector value =s "") || negb (af_DetectorVersion value =s "") then
      af_Detector value +:+ "@" +:+ af_DetectorVersion value
    else "" in
  {| fi_Code := clean (af_Code value); fi_Classification := known (af_Classification value);
     fi_Confidence := known (af_Confidence value); fi_Cause := known (af_Cause value);
     fi_Detector := known detector; fi_Exception := known (af_ExceptionCheck value);
     fi_Counterevidence := cleanList (af_Counterevidence value) |}.

Definition recommendation_row (value : AuditRecommendation) (fact : ReportRecommendationFacts)
    : recommendation :=
  {| re_Code := clean (ar_Code value); re_Action := known (ar_Action value);
     re_Verification := known (ar_Verification value); re_Lifecycle := known (ar_LifecycleState value);
     re_Impact := known (rr_ExpectedQualityImpact fact); re_Contract := known (rr_ViolatedContract fact);
     re_Scope := known (rr_Scope fact); re_EvidenceConfidence := known (rr_EvidenceConfidence fact);
     re_Rationale := known (rr_BroaderChangeRationale fact); re_Target := known (ar_TargetSurface value);
     re_Guardrails := cleanList (ar_ProtectedGuardrails value); re_Risks := cleanList (ar_Risks value);
     re_Approval := fmt_t (ar_ApprovalRequired value) |}.

Definition source_row (value : ReportSourceFacts) : source :=
  mkSource (clean (rs_SourceKind value)) (clean (rs_Version value)) (clean (rs_Freshness value))
    (clean (rs_Coverage value)) (clean (rs_RedactionState value)) (clean (rs_KnowledgeState value)).

(** ** Outliers: the rows of the result, completed by their facts *)

Definition outlier_row (value : NativeOutlier) : outlier :=
  {| ou_Metric := clean (no_Metric value); ou_Value := number (no_NativeValue value);
     ou_Unit := clean (no_NativeUnit value); ou_Direction := clean (no_Direction value);
     ou_Magnitude := number (no_Magnitude value); ou_Impact := ""; ou_Scope := "";
     ou_Coverage := ""; ou_Window := ""; ou_Recommendation := "" |}.

Fixpoint outlier_metrics (values : list NativeOutlier) (names : gset string)
    : result string (gset string) :=
  match values with
  | [] => Ok names
  | value :: rest =>
      if bool_decide (no_Metric value ∈ names) then Err "report outliers are ambiguous"
      else outlier_metrics rest ({[no_Metric value]} ∪ names)
  end.

Definition complete_outlier (fact : ReportOutlierFacts) (row : outlier) : outlier :=
  if ou_Metric row =s clean (ro_Metric fact) then
    {| ou_Metric := ou_Metric row; ou_Value := ou_Value row; ou_Unit := ou_Unit row;
       ou_Direction := ou_Direction row; ou_Magnitude := ou_Magnitude row;
       ou_Impact := clean (ro_Impact fact); ou_Scope := clean (ro_Scope fact);
       ou_Coverage := clean (ro_Coverage fact); ou_Window := reportWindow (ro_EvidenceWindow fact);
       ou_Recommendation := clean (ro_RecommendationCode fact) |}
  else row.

Fixpoint complete_outliers (facts : list ReportOutlierFacts) (names seen : gset string)
    (rows : list outlier) : result string (gset string * list outlier) :=
  match facts with
  | [] => Ok (seen, rows)
  | fact :: rest =>
      if bool_decide (ro_Metric fact ∈ seen) then Err "report outlier facts are ambiguous"
      else if negb (bool_decide (ro_Metric fact ∈ names)) then
        Err "report outlier facts are incomplete"
      else complete_outliers rest names ({[ro_Metric fact]} ∪ seen) (complete_outlier fact <$> rows)
  end.

Definition build_outliers (values : list NativeOutlier) (facts : list ReportOutlierFacts)
    : result string (list outlier) :=
  let! names := outlier_metrics values ∅ in
  let! completed := complete_outliers facts names ∅ (outlier_row <$> values) in
  if negb (size completed.1 =? size names)%nat then Err "report outlier facts are incomplete"
  else Ok completed.2.

(** ** Order *)

Definition NUL : string := String "000" "".
Definition join_key (parts : list string) : string := str_join NUL parts.
Definition key_less {A} (key : A -> string) (a b : A) : bool := str_lt (key a) (key b).

Definition sourceKey (v : source) : string :=
  join_key [so_Kind v; so_Version v; so_Freshness v; so_Coverage v; so_Redaction v; so_Knowledge v].
Definition metricKey (v : metric) : string :=
  join_key [me_Name v; me_Value v; me_Status v; me_Coverage v].
Definition findingKey (v : finding) : string :=
  join_key [fi_Code v; fi_Detector v; fi_Classification v; fi_Confidence v].
Definition outlierKey (v : outlier) : string :=
  join_key [ou_Metric v; ou_Scope v; ou_Value v; ou_Direction v].
Definition confounderKey (v : confounder) : string :=
  join_key [cf_Kind v; cf_State v; cf_Confidence v].
Definition provenanceKey (v : provenance) : string :=
  join_key [pr_Field v; pr_Knowledge v; pr_Source v].
Definition contributionKey (v : contribution) : string :=
  join_key [co_Scope v; co_Class v; co_Numerator v; co_Denominator v; co_Value v; co_Coverage v;
            co_Attribution v].
Definition workloadKey (v : workload) : string :=
  join_key [wo_Metric v; wo_Status v; wo_Classes v; wo_Volume v; wo_Mix v; wo_Within v; wo_Residual v].
Definition guardrailKey (v : guardrail) : string := join_key [gu_Name v; gu_State v; gu_Coverage v].

Definition sortModel (m : Model) : Model :=
  {| mo_Identity := mo_Identity m; mo_Scope := mo_Scope m; mo_Coverage := mo_Coverage m;
     mo_QualityGate := mo_QualityGate m; mo_Revision := mo_Revision m; mo_AsOf := mo_AsOf m;
     mo_Window := mo_Window m; mo_Baseline := mo_Baseline m; mo_Comparisons := mo_Comparisons m;
     mo_Privacy := mo_Privacy m; mo_Lineage := mo_Lineage m; mo_Derivation := mo_Derivation m;
     mo_UpstreamOmitted := mo_UpstreamOmitted m;
     mo_ScopeCounts := go_sort (key_less ct_Name) (mo_ScopeCounts m);
     mo_Sources := go_sort (key_less sourceKey) (mo_Sources m);
     mo_Metrics := go_sort (key_less metricKey) (mo_Metrics m);
     mo_Contributions := go_sort (key_less contributionKey) (mo_Contributions m);
     mo_Workload := go_sort (key_less workloadKey) (mo_Workload m);
     mo_Guardrails := go_sort (key_less guardrailKey) (mo_Guardrails m);
     mo_Overhead := go_sort (key_less metricKey) (mo_Overhead m);
     mo_Findings := go_sort (key_less findingKey) (mo_Findings m);
     mo_Recommendations := mo_Recommendations m;
     mo_Outliers := go_sort (key_less outlierKey) (mo_Outliers m);
     mo_Confounders := go_sort (key_less confounderKey) (mo_Confounders m);
     mo_Provenance := go_sort (key_less provenanceKey) (mo_Provenance m);
     mo_initialOmissions := mo_initialOmissions m |}.

Definition limit_recommendations (m : Model) : Model :=
  let rs := mo_Recommendations m in
  if (length rs <=? 5)%nat then m
  else
    {| mo_Identity := mo_Identity m; mo_Scope := mo_Scope m; mo_Coverage := mo_Coverage m;
       mo_QualityGate := mo_QualityGate m; mo_Revision := mo_Revision m; mo_AsOf := mo_AsOf m;
       mo_Window := mo_Window m; mo_Baseline := mo_Baseline m; mo_Comparisons := mo_Comparisons m;
       mo_Privacy := mo_Privacy m; mo_Lineage := mo_Lineage m; mo_Derivation := mo_Derivation m;
       mo_UpstreamOmitted := mo_UpstreamOmitted m; mo_ScopeCounts := mo_ScopeCounts m;
       mo_Sources := mo_Sources m; mo_Metrics := mo_Metrics m; mo_Contributions := mo_Contributions m;
       mo_Workload := mo_Workload m; mo_Guardrails := mo_Guardrails m; mo_Overhead := mo_Overhead m;
       mo_Findings := mo_Findings m; mo_Recommendations := take 5 rs; mo_Outliers := mo_Outliers m;
       mo_Confounders := mo_Confounders m; mo_Provenance := mo_Provenance m;
       mo_initialOmissions := {["recommendations" := (Z.of_nat (length rs) - 5)%Z]} |}.

Definition Build (res : AuditProjectResult) : result string Model :=
  match apr_ReportFacts res with
  | None => Err "report facts unavailable"
  | Some facts =>
      if negb (rf_Version facts =s "report-facts-v1") then Err "report facts unavailable"
      else
        let! labels := index_facts rm_Name "report metric facts are ambiguous" (rf_Metrics facts) ∅ in
        let! metrics := join_facts mr_Name metric_row "report metrics are ambiguous or incomplete"
                          labels (apr_Metrics res) ∅ in
        let! recommendationFacts := index_facts rr_Code "report recommendation facts are ambiguous"
                                      (rf_Recommendations facts) ∅ in
        let! recommendations := join_facts ar_Code recommendation_row
                                  "report recommendations are ambiguous or incomplete"
                                  recommendationFacts (apr_Recommendations res) ∅ in
        let! outliers := build_outliers (apr_Outliers res) (rf_Outliers facts) in
        Ok (limit_recommendations (sortModel
          {| mo_Identity := clean (rf_DisplayIdentity facts); mo_Scope := clean (apr_Scope res);
             mo_Coverage := clean (apr_Coverage res); mo_QualityGate := clean (rf_QualityGateState facts);
             mo_Revision := clean (apr_RevisionHash res); mo_AsOf := fmt_time (apr_AsOf res);
             mo_Window := audit_window (apr_Window res); mo_Baseline := baselineSummary facts;
             mo_Comparisons := comparisonWindows facts;
             mo_Privacy := privacyState (rf_PrivacySuppressed facts);
             mo_Lineage := lineage_counts (apr_InvocationCounts res);
             mo_Derivation := clean (apr_DerivationMethod res);
             mo_UpstreamOmitted := apr_OmittedCount res;
             mo_ScopeCounts := scopeCounts (rf_ScopeCounts facts);
             mo_Sources := source_row <$> rf_Sources facts; mo_Metrics := metrics;
             mo_Contributions := contribution_row (rf_PrivacySuppressed facts) <$> apr_Contributions res;
             mo_Workload := workload_row <$> apr_WorkloadEffects res;
             mo_Guardrails := guardrail_row <$> apr_Guardrails res;
             mo_Overhead := overhead_row labels <$> apr_GovernanceOverhead res;
             mo_Findings := finding_row <$> apr_Findings res; mo_Recommendations := recommendations;
             mo_Outliers := outliers;
             mo_Confounders := (fun v => mkConfounder (clean (cs_Kind v)) (clean (cs_State v))
                                           (clean (cs_Confidence v))) <$> apr_Confounders res;
             mo_Provenance := (fun v => mkProvenance (clean (rp_Field v)) (clean (rp_KnowledgeState v))
                                          (clean (rp_Provenance v))) <$> rf_Provenance facts;
             mo_initialOmissions := ∅ |}))
  end.

(** ** Lemmas on the rows *)

Lemma join_facts_spec {A B C} (key : A -> string) (row : A -> B -> C) message labels values names rows :
  join_facts key row message labels values names = Ok rows ->
  length rows = length values /\ NoDup (key <$> values) /\
  Forall (fun v => key v ∉ names) values /\
  Forall2 (fun v r => exists fact, labels !! key v = Some fact /\ r = row v fact) values rows.
Proof.
  revert names rows. induction values as [|v values IH]; intros names rows; cbn [join_facts].
  { intros [= <-]. split_and!; try constructor; done. }
  intros H. case_bool_decide as Hv; [done|]. destruct (labels !! key v) as [fact|] eqn:E; [|done].
  destruct (join_facts key row message labels values _) as [rest|] eqn:Hr; [|done].
  injection H as <-. destruct (IH _ _ Hr) as (H1 & H2 & H3 & H4). rewrite Forall_forall in H3.
  split_and!.
  - cbn. by rewrite H1.
  - cbn. constructor; [|done]. intros (x & Hx & Hin)%list_elem_of_fmap.
    apply H3 in Hin. set_solver.
  - constructor; [done|]. apply Forall_forall. intros x Hx. apply H3 in Hx. set_solver.
  - constructor; [eauto|done].
Qed.

Lemma complete_outliers_length facts names seen rows seen' rows' :
  complete_outliers facts names seen rows = Ok (seen', rows') -> length rows' = length rows.
Proof.
  revert seen rows. induction facts as [|fact facts IH]; intros seen rows; cbn [complete_outliers].
  { by intros [= _ <-]. }
  destruct (bool_decide _); [done|]. destruct (negb _); [done|]. intros H.
  rewrite (IH _ _ H). by rewrite length_fmap.
Qed.

Lemma build_outliers_length values facts rows :
  build_outliers values facts = Ok rows -> length rows = length values.
Proof.
  unfold build_outliers. destruct (outlier_metrics values ∅) as [names|]; [|done].
  destruct (complete_outliers facts names ∅ _) as [[seen rows']|] eqn:E; [|done].
  cbv beta iota. destruct (negb _); [done|]. intros [= <-].
  apply complete_outliers_length in E. by rewrite length_fmap in E.
Qed.

(** What sorting and the limit do to the lists of a model. *)
Lemma finished_lists m :
  let m' := limit_recommendations (sortModel m) in
  mo_Metrics m' ≡ₚ mo_Metrics m /\ mo_Recommendations m' = take 5 (mo_Recommendations m) /\
  mo_Outliers m' ≡ₚ mo_Outliers m /\
  mo_initialOmissions m' =
    (if (length (mo_Recommendations m) <=? 5)%nat then mo_initialOmissions m
     else {["recommendations" := (Z.of_nat (length (mo_Recommendations m)) - 5)%Z]}) /\
  mo_Contributions m' ≡ₚ mo_Contributions m /\ mo_Privacy m' = mo_Privacy m /\
  mo_Confounders m' ≡ₚ mo_Confounders m /\ mo_Findings m' ≡ₚ mo_Findings m /\
  mo_Workload m' ≡ₚ mo_Workload m /\ mo_Sources m' ≡ₚ mo_Sources m /\
  mo_Overhead m' ≡ₚ mo_Overhead m /\ mo_Comparisons m' = mo_Comparisons m /\
  mo_Provenance m' ≡ₚ mo_Provenance m /\ mo_Guardrails m' ≡ₚ mo_Guardrails m.
Proof.
  cbv zeta. unfold limit_recommendations.
  replace (mo_Recommendations (sortModel m)) with (mo_Recommendations m) by done.
  destruct (length (mo_Recommendations m) <=? 5)%nat eqn:El; bool_facts; unfold sortModel;
    cbn [mo_Metrics mo_Recommendations mo_Outliers mo_initialOmissions mo_Contributions
         mo_Privacy mo_Confounders mo_Findings mo_Workload mo_Sources mo_Overhead mo_Comparisons
         mo_Provenance mo_Guardrails];
    split_and!; first [apply go_sort_perm|reflexivity|symmetry; apply take_ge; lia].
Qed.

(** What [Build] succeeds with. *)
Lemma Build_inv res m :
  Build res = Ok m ->
  exists facts labels metrics recommendationFacts recommendations outliers,
    apr_ReportFacts res = Some facts /\
    join_facts mr_Name metric_row "report metrics are ambiguous or incomplete" labels
      (apr_Metrics res) ∅ = Ok metrics /\
    join_facts ar_Code recommendation_row "report recommendations are ambiguous or incomplete"
      recommendationFacts (apr_Recommendations res) ∅ = Ok recommendations /\
    build_outliers (apr_Outliers res) (rf_Outliers facts) = Ok outliers /\
    mo_Metrics m ≡ₚ metrics /\ mo_Recommendations m = take 5 recommendations /\
    mo_Outliers m ≡ₚ outliers /\
    mo_initialOmissions m =
      (if (length recommendations <=? 5)%nat then ∅
       else {["recommendations" := (Z.of_nat (length recommendations) - 5)%Z]}) /\
    mo_Contributions m ≡ₚ contribution_row (rf_PrivacySuppressed facts) <$> apr_Contributions res /\
    mo_Privacy m = privacyState (rf_PrivacySuppressed facts) /\
    (length (mo_Confounders m) = length (apr_Confounders res)) /\
    (length (mo_Findings m) = length (apr_Findings res)) /\
    (length (mo_Workload m) = length (apr_WorkloadEffects res)) /\
    (length (mo_Sources m) = length (rf_Sources facts)) /\
    (length (mo_Overhead m) = length (apr_GovernanceOverhead res)) /\
    mo_Comparisons m = comparisonWindows facts /\
    (length (mo_Provenance m) = length (rf_Provenance facts)) /\
    mo_Guardrails m ≡ₚ guardrail_row <$> apr_Guardrails res.
Proof.
  unfold Build. destruct (apr_ReportFacts res) as [facts|]; [|done]. destruct (negb _); [done|].
  destruct (index_facts rm_Name _ _ _) as [labels|]; [|done].
  destruct (join_facts mr_Name _ _ _ _ _) as [metrics|] eqn:E1; [|done].
  destruct (index_facts rr_Code _ _ _) as [recommendationFacts|]; [|done].
  destruct (join_facts ar_Code _ _ _ _ _) as [recommendations|] eqn:E2; [|done].
  destruct (build_outliers _ _) as [outliers|] eqn:E3; [|done].
  cbv beta iota zeta. intros [= <-].
  exists facts, labels, metrics, recommendationFacts, recommendations, outliers.
  match goal with |- context [limit_recommendations (sortModel ?m)] =>
    destruct (finished_lists m) as (H1 & H2 & H3 & H4 & H5 & H6 & H7 & H8 & H9 & H10 & H11 & H12 &
      H13 & H14); set (final := limit_recommendations (sortModel m)) in * end.
  apply Permutation_length in H7, H8, H9, H10, H11, H13. clearbody final.
  split_and!; [done|done|done|done|exact H1|exact H2|exact H3|exact H4|exact H5|exact H6|..|exact H14].
  - etrans; [exact H7|apply length_fmap].
  - etrans; [exact H8|apply length_fmap].
  - etrans; [exact H9|apply length_fmap].
  - etrans; [exact H10|apply length_fmap].
  - etrans; [exact H11|apply length_fmap].
  - exact H12.
  - etrans; [exact H13|apply length_fmap].
Qed.

(** A report that [Build] accepts names every metric and every recommendation once and
    joins each with its own facts, shows at most the first five recommendations, and under
    privacy suppression shows no number of any contribution. *)
Theorem Build_faithful (res : AuditProjectResult) (m : Model) (facts : GovernanceReportFacts) :
  Build res = Ok m -> apr_ReportFacts res = Some facts ->
  NoDup (mr_Name <$> apr_Metrics res) /\ NoDup (ar_Code <$> apr_Recommendations res) /\
  (length (mo_Recommendations m) <= 5)%nat /\
  (exists labels : gmap string ReportMetricFacts, Forall (fun row => exists value fact, value ∈ apr_Metrics res /\
     labels !! mr_Name value = Some fact /\ row = metric_row value fact) (mo_Metrics m)) /\
  (rf_PrivacySuppressed facts = true ->
     mo_Privacy m = "suppressed" /\
     Forall (fun c => co_Numerator c = "unknown" /\ co_Denominator c = "unknown" /\
                      co_Value c = "unknown") (mo_Contributions m)) /\
  Forall (fun value => sc_AttributionState value = "privacy_suppressed" ->
    exists c, c ∈ mo_Contributions m /\ co_Numerator c = "unknown" /\ co_Denominator c = "unknown" /\
      co_Value c = "unknown") (apr_Contributions res).
Proof.
  intros H Hf. destruct (Build_inv _ _ H) as (facts' & labels & metrics & rfacts & recs & outliers &
    Hf' & Hm & Hr & _ & Pm & Er & _ & _ & Pc & Ep & _).
  rewrite Hf in Hf'. injection Hf' as <-.
  destruct (join_facts_spec _ _ _ _ _ _ _ Hm) as (_ & Nm & _ & Am).
  destruct (join_facts_spec _ _ _ _ _ _ _ Hr) as (_ & Nr & _).
  split_and!; [done|done|rewrite Er, length_take; lia|..].
  - exists labels. rewrite Pm. apply Forall_forall. intros row Hrow.
    apply list_elem_of_lookup_1 in Hrow as [i Hi].
    destruct (Forall2_lookup_r _ _ _ _ _ Am Hi) as (value & Hv & fact & Hl & ->).
    exists value, fact. split_and!; try done. by eapply list_elem_of_lookup_2.
  - intros Hs. split; [by rewrite Ep, Hs|]. rewrite Pc. apply Forall_fmap, Forall_true.
    intros x. unfold compose, contribution_row. by rewrite Hs.
  - apply Forall_forall. intros value Hv Hs. exists (contribution_row (rf_PrivacySuppressed facts) value).
    split; [rewrite Pc; by apply list_elem_of_fmap_2|].
    unfold contribution_row. rewrite Hs. by destruct (rf_PrivacySuppressed facts).
Qed.

(** ** An example *)

Definition sample_facts : GovernanceReportFacts :=
  {| rf_Version := "report-facts-v1"; rf_DisplayIdentity := "demo"; rf_PrivacySuppressed := true;
     rf_PreviousWindow := None; rf_RollingWindows := [];
     rf_ScopeCounts := mkReportScopeCounts 3 None 4 (Some 1%Z) 5 None 6 None;
     rf_Sources := []; rf_Metrics := [mkReportMetricFacts "latency" "Latency" "lower"];
     rf_QualityGateState := "pass"; rf_Outliers := [];
     rf_Recommendations :=
       (fun code => mkReportRecommendationFacts code "" "project" "" "" "") <$> ["a"; "b"; "c"; "d"; "e"; "f"];
     rf_Provenance := [] |}.

Definition sample_metric : MetricResult :=
  {| mr_Name := "latency"; mr_Version := "1"; mr_NativeValue := Some (float_lit 5 2);
     mr_NativeUnit := "s"; mr_Numerator := None; mr_Denominator := None; mr_SampleCount := 2;
     mr_PreviousValue := None; mr_RollingMedian := None; mr_RollingMAD := None;
     mr_BaselineSampleCount := 0; mr_AbsoluteChangePrevious := None;
     mr_PercentageChangePrevious := None; mr_AbsoluteChangeRolling := None;
     mr_PercentageChangeRolling := None; mr_WorkloadAdjustedResidual := None;
     mr_PracticalThreshold := fzero; mr_Coverage := "complete"; mr_Status := "stable";
     mr_StatusReason := ""; mr_Confidence := "high"; mr_Uncertainty := ""; mr_Exclusions := [];
     mr_EvidenceRefs := [] |}.

(** [long] is the text of the confounders. *)
Definition sample_audit (long : string) : AuditProjectResult :=
  {| apr_SchemaVersion := SchemaVersion; apr_Kind := "result"; apr_AuditReference := "ref";
     apr_Scope := "project"; apr_AsOf := 0; apr_RevisionHash := "00"; apr_Coverage := "complete";
     apr_Metrics := [sample_metric]; apr_Findings := [];
     apr_Recommendations :=
       (fun code => mkAuditRecommendation code "" "" "" "" "" [] true "" [] []) <$>
         ["a"; "b"; "c"; "d"; "e"; "f"];
     apr_GovernanceOverhead := [];
     apr_Window := mkAuditWindowProvenance 0 0 0 "UTC" "b1" "host" "w1" [] 1 false;
     apr_Contributions := [mkScopeContribution "project" "r" "code" fzero fzero None "complete" "known"];
     apr_WorkloadEffects := []; apr_InvocationCounts := mkInvocationCounts 0 0 0 0 0;
     apr_Outliers := []; apr_Confounders := [mkConfounderStratum long "x" true "" ""];
     apr_Guardrails := []; apr_DerivationMethod := "m"; apr_OmittedCount := 0;
     apr_ReportFacts := Some sample_facts |}.

Definition empty_model : Model :=
  mkModel "" "" "" "" "" "" "" "" [] "" "" "" 0 [] [] [] [] [] [] [] [] [] [] [] [] ∅.

Definition sample_model : Model :=
  match Build (sample_audit "late data") with Ok m => m | Err _ => empty_model end.

Lemma Build_faithful_witness :
  mo_Privacy sample_model = "suppressed" /\
  Forall (fun c => co_Numerator c = "unknown" /\ co_Denominator c = "unknown" /\ co_Value c = "unknown")
    (mo_Contributions sample_model).
Proof.
  apply (Build_faithful (sample_audit "late data") sample_model sample_facts); [vm_compute; reflexivity..].
Defined.
