(* ===== verification/ReportRender.v ===== *)
(** * Governance reports: rendering (internal/report/render.go)

    The three formats, and [RenderBounded], which drops rows from the least important
    section until the encoded result fits its byte budget. *)
From S2P Require Import Contracts Unicode Utf8 Runes GoFmt Textutil Regex Report.
From Stdlib Require Import Ascii.

(** ** Wrapping *)

(** The last space of the second half of the first [width] places, or [width]. *)
Fixpoint wrap_cut (rs : list Z) (width cut : nat) : nat :=
  match cut with
  | O => width
  | S c =>
      if (cut <=? width / 2)%nat then width
      else if bool_decide (rs !! cut = Some 32%Z) then cut
      else wrap_cut rs width c
  end.

Fixpoint wrap_line (fuel : nat) (line : string) (width : nat) : string :=
  match fuel with
  | O => line +:+ LF
  | S f =>
      let rs := runes line in
      if (width <? length rs)%nat then
        let cut := wrap_cut rs width width in
        trim_space (of_runes (take cut rs)) +:+ LF
          +:+ wrap_line f (trim_space (of_runes (drop cut rs))) width
      else if line =s "" then "" else line +:+ LF
  end.

(** Every turn takes at least one rune. *)
Definition wrapText (value : string) (width : nat) : string :=
  trim_suffix LF
    (str_concat ((fun line => wrap_line (S (length (runes line))) line width)
       <$> split_on newline value)).

(** ** The formats *)

Definition label (v : metric) : string := if negb (me_Label v =s "") then me_Label v else me_Name v.

Definition rows {A} (values : list A) (row : A -> string) : string := str_concat (row <$> values).

(** A section with its heading, or nothing when it has no rows. *)
Definition section {A} (values : list A) (heading : string) (row : A -> string) : string :=
  match values with [] => "" | _ => heading +:+ rows values row end.

Definition renderChat (m : Model) : string :=
  cat [
    cat ["Governance report"; LF; "Identity: "; mo_Identity m; LF; "Scope: "; mo_Scope m;
         " | Coverage: "; mo_Coverage m; " | Quality gate: "; mo_QualityGate m; " | Privacy: ";
         mo_Privacy m; LF; "As of: "; mo_AsOf m; " | Revision: "; mo_Revision m; LF; "Window: ";
         mo_Window m; LF; "Baseline: "; mo_Baseline m; LF; "Lineage: "; mo_Lineage m; LF;
         "Derivation: "; mo_Derivation m; " | Upstream omissions: "; fmt_d (mo_UpstreamOmitted m); LF];
    rows (mo_Comparisons m) (fun v =>
      cat ["Comparison window: "; v; LF]);
    rows (mo_ScopeCounts m) (fun v =>
      cat ["Scope: "; ct_Name v; " included="; fmt_d (ct_Included v); " excluded="; ct_Excluded v;
           LF]);
    rows (mo_Sources m) (fun v =>
      cat ["Source: "; so_Kind v; " version="; so_Version v; " freshness="; so_Freshness v;
           " coverage="; so_Coverage v; " redaction="; so_Redaction v; " knowledge="; so_Knowledge v;
           LF]);
    rows (mo_Recommendations m) (fun v =>
      cat ["Next action: "; re_Code v; " — "; re_Action v; ". Target: "; re_Target v;
           ". Contract: "; re_Contract v; ". Scope: "; re_Scope v; ". Lifecycle: "; re_Lifecycle v;
           ". Evidence: "; re_EvidenceConfidence v; ". Quality impact: "; re_Impact v;
           ". Approval required: "; re_Approval v; ". Guardrails: "; re_Guardrails v; ". Risks: ";
           re_Risks v; ". Broader-change rationale: "; re_Rationale v; ". Verify: "; re_Verification v;
           LF]);
    rows (mo_Metrics m) (fun v =>
      cat ["Metric: "; label v; " = "; me_Value v; " "; me_Unit v; "; raw="; me_Numerator v; "/";
           me_Denominator v; "; sample="; fmt_d (me_Sample v); "; previous="; me_Previous v;
           "; median="; me_Median v; " ("; me_Status v; ": "; me_Reason v; ", "; me_Coverage v;
           ", confidence="; me_Confidence v; ", uncertainty="; me_Uncertainty v; ", polarity=";
           me_Polarity v; ", exclusions="; me_Exclusions v; ")"; LF]);
    rows (mo_Contributions m) (fun v =>
      cat ["Contribution: "; co_Scope v; "/"; co_Class v; " = "; co_Value v; "; raw=";
           co_Numerator v; "/"; co_Denominator v; " ("; co_Coverage v; ", "; co_Attribution v; ")"; LF]);
    rows (mo_Workload m) (fun v =>
      cat ["Workload: "; wo_Metric v; " volume="; wo_Volume v; " mix="; wo_Mix v; " within=";
           wo_Within v; " residual="; wo_Residual v; " ("; wo_Status v; "; classes="; wo_Classes v; ")";
           LF]);
    rows (mo_Guardrails m) (fun v =>
      cat ["Guardrail: "; gu_Name v; " = "; gu_State v; " ("; gu_Coverage v; ")"; LF]);
    rows (mo_Overhead m) (fun v =>
      cat ["Governance overhead (excluded): "; label v; " = "; me_Value v; " "; me_Unit v; " (";
           me_Coverage v; ")"; LF]);
    rows (mo_Findings m) (fun v =>
      cat ["Finding: "; fi_Code v; " — "; fi_Classification v; "; cause="; fi_Cause v;
           "; detector="; fi_Detector v; "; exception="; fi_Exception v; "; counterevidence=";
           fi_Counterevidence v; " ("; fi_Confidence v; ")"; LF]);
    rows (mo_Outliers m) (fun v =>
      cat ["Outlier: "; ou_Metric v; " = "; ou_Value v; " "; ou_Unit v; " ("; ou_Direction v;
           "); dimensionless magnitude="; ou_Magnitude v; "; impact="; ou_Impact v; "; scope=";
           ou_Scope v; "; coverage="; ou_Coverage v; "; window="; ou_Window v; "; action=";
           ou_Recommendation v; LF]);
    rows (mo_Confounders m) (fun v =>
      cat ["Confounder: "; cf_Kind v; " = "; cf_State v; " ("; cf_Confidence v; ")"; LF]);
    rows (mo_Provenance m) (fun v =>
      cat ["Provenance: "; pr_Field v; " = "; pr_Knowledge v; " / "; pr_Source v; LF])].

Definition writeMarkdownSections (m : Model) : string :=
  cat [
    section (mo_Comparisons m) (cat [LF; "### Comparison windows"; LF])
      (fun v =>
      cat ["- "; md v; LF]);
    section (mo_ScopeCounts m) (cat [LF; "### Scope and drill-down"; LF])
      (fun v =>
      cat ["- "; md (ct_Name v); ": included "; fmt_d (ct_Included v); "; excluded ";
           md (ct_Excluded v); LF]);
    section (mo_Sources m) (cat [LF; "### Sources"; LF])
      (fun v =>
      cat ["- "; md (so_Kind v); " "; md (so_Version v); ": freshness "; md (so_Freshness v);
           "; coverage "; md (so_Coverage v); "; redaction "; md (so_Redaction v); "; knowledge ";
           md (so_Knowledge v); LF]);
    section (mo_Recommendations m) (cat [LF; "### Next actions"; LF])
      (fun v =>
      cat ["- **"; md (re_Code v); ":** "; md (re_Action v); "; target: "; md (re_Target v);
           "; contract: "; md (re_Contract v); "; scope: "; md (re_Scope v); "; evidence: ";
           md (re_EvidenceConfidence v); "; quality impact: "; md (re_Impact v);
           "; approval required: "; md (re_Approval v); "; guardrails: "; md (re_Guardrails v);
           "; risks: "; md (re_Risks v); "; broader-change rationale: "; md (re_Rationale v);
           "; verify: "; md (re_Verification v); LF]);
    section (mo_Metrics m) (cat [LF; "### Metrics"; LF; LF; "metric | value | status | coverage"; LF; "--- | ---: | --- | ---"; LF])
      (fun v =>
      cat [md (label v); " | "; md (me_Value v); " "; md (me_Unit v); "; raw ";
           md (me_Numerator v); "/"; md (me_Denominator v); "; sample "; fmt_d (me_Sample v);
           " (previous "; md (me_Previous v); "; median "; md (me_Median v); ") | "; md (me_Status v);
           ": "; md (me_Reason v); "; confidence "; md (me_Confidence v); "; uncertainty ";
           md (me_Uncertainty v); "; polarity "; md (me_Polarity v); "; exclusions ";
           md (me_Exclusions v); " | "; md (me_Coverage v); LF]);
    section (mo_Contributions m) (cat [LF; "### Contributions"; LF])
      (fun v =>
      cat ["- "; md (co_Scope v); " / "; md (co_Class v); ": "; md (co_Value v); "; raw ";
           md (co_Numerator v); "/"; md (co_Denominator v); " ("; md (co_Coverage v); "; ";
           md (co_Attribution v); ")"; LF]);
    section (mo_Workload m) (cat [LF; "### Workload and mix explanation"; LF])
      (fun v =>
      cat ["- "; md (wo_Metric v); ": volume "; md (wo_Volume v); "; mix "; md (wo_Mix v);
           "; within-class "; md (wo_Within v); "; residual "; md (wo_Residual v); "; status ";
           md (wo_Status v); "; classes "; md (wo_Classes v); LF]);
    section (mo_Guardrails m) (cat [LF; "### Guardrails"; LF])
      (fun v =>
      cat ["- "; md (gu_Name v); ": "; md (gu_State v); " ("; md (gu_Coverage v); ")"; LF]);
    section (mo_Overhead m) (cat [LF; "### Governance overhead (excluded from outcome)"; LF])
      (fun v =>
      cat ["- "; md (label v); ": "; md (me_Value v); " "; md (me_Unit v); " (";
           md (me_Coverage v); ")"; LF]);
    section (mo_Findings m) (cat [LF; "### Findings"; LF])
      (fun v =>
      cat ["- **"; md (fi_Code v); ":** "; md (fi_Classification v); "; cause "; md (fi_Cause v);
           "; detector "; md (fi_Detector v); "; exception "; md (fi_Exception v); "; counterevidence ";
           md (fi_Counterevidence v); " ("; md (fi_Confidence v); ")"; LF]);
    section (mo_Outliers m) (cat [LF; "### Outliers"; LF])
      (fun v =>
      cat ["- "; md (ou_Metric v); ": "; md (ou_Value v); " "; md (ou_Unit v); ", ";
           md (ou_Direction v); "; dimensionless magnitude "; md (ou_Magnitude v); "; impact ";
           md (ou_Impact v); "; scope "; md (ou_Scope v); "; coverage "; md (ou_Coverage v);
           "; window "; md (ou_Window v); "; linked action "; md (ou_Recommendation v); LF]);
    section (mo_Confounders m) (cat [LF; "### Confounders"; LF])
      (fun v =>
      cat ["- "; md (cf_Kind v); ": "; md (cf_State v); " ("; md (cf_Confidence v); ")"; LF]);
    section (mo_Provenance m) (cat [LF; "### Provenance"; LF])
      (fun v =>
      cat ["- "; md (pr_Field v); ": "; md (pr_Knowledge v); " / "; md (pr_Source v); LF])].

Definition renderMarkdown (m : Model) : string :=
  cat [
    cat ["## Governance report"; LF; LF; "- Identity: "; md (mo_Identity m); LF; "- Scope: `";
         md (mo_Scope m); "`"; LF; "- Coverage: `"; md (mo_Coverage m); "`"; LF; "- Quality gate: `";
         md (mo_QualityGate m); "`"; LF; "- Privacy: `"; md (mo_Privacy m); "`"; LF; "- As of: `";
         md (mo_AsOf m); "`"; LF; "- Revision: `"; md (mo_Revision m); "`"; LF; "- Window: ";
         md (mo_Window m); LF; "- Baseline: "; md (mo_Baseline m); LF; "- Lineage: "; md (mo_Lineage m);
         LF; "- Derivation: "; md (mo_Derivation m); LF; "- Upstream omissions: ";
         fmt_d (mo_UpstreamOmitted m); LF];
    writeMarkdownSections m].

Definition renderTable (m : Model) : string :=
  cat [
    cat ["section | name | value | state"; LF; "--- | --- | --- | ---"; LF];
    cat ["summary | identity | "; cell (mo_Identity m); " | "; cell (mo_Coverage m); LF;
         "summary | scope | "; cell (mo_Scope m); " | "; cell (mo_Coverage m); LF;
         "summary | quality gate | "; cell (mo_QualityGate m); " | "; cell (mo_Coverage m); LF];
    rows (mo_Sources m) (fun v =>
      cat ["source | "; cell (so_Kind v); " "; cell (so_Version v); " | "; cell (so_Freshness v);
           " | "; cell (so_Coverage v); LF]);
    rows (mo_Recommendations m) (fun v =>
      cat ["recommendation | "; cell (re_Code v); " | "; cell (re_Action v); " | ";
           cell (re_Lifecycle v); LF]);
    rows (mo_Metrics m) (fun v =>
      cat ["metric | "; cell (label v); " | "; cell (me_Value v); " "; cell (me_Unit v); " | ";
           cell (me_Status v); LF]);
    rows (mo_Contributions m) (fun v =>
      cat ["contribution | "; cell (co_Scope v); " / "; cell (co_Class v); " | ";
           cell (co_Value v); " | "; cell (co_Coverage v); LF]);
    rows (mo_Guardrails m) (fun v =>
      cat ["guardrail | "; cell (gu_Name v); " | "; cell (gu_State v); " | "; cell (gu_Coverage v);
           LF]);
    rows (mo_Overhead m) (fun v =>
      cat ["overhead excluded | "; cell (label v); " | "; cell (me_Value v); " "; cell (me_Unit v);
           " | "; cell (me_Coverage v); LF]);
    rows (mo_Findings m) (fun v =>
      cat ["finding | "; cell (fi_Code v); " | "; cell (fi_Classification v); " | ";
           cell (fi_Confidence v); LF]);
    rows (mo_Workload m) (fun v =>
      cat ["workload | "; cell (wo_Metric v); " | mix "; cell (wo_Mix v); "; within ";
           cell (wo_Within v); " | "; cell (wo_Status v); LF]);
    rows (mo_Outliers m) (fun v =>
      cat ["outlier | "; cell (ou_Metric v); " | "; cell (ou_Value v); " "; cell (ou_Unit v);
           " | "; cell (ou_Direction v); LF]);
    rows (mo_Confounders m) (fun v =>
      cat ["confounder | "; cell (cf_Kind v); " | "; cell (cf_State v); " | ";
           cell (cf_Confidence v); LF]);
    rows (mo_Provenance m) (fun v =>
      cat ["provenance | "; cell (pr_Field v); " | "; cell (pr_Knowledge v); " | ";
           cell (pr_Source v); LF]);
    cat [LF; "Text alternative:"; LF];
    wrapText (renderChat m) 72].

Definition Render (model : Model) (format : ReportFormat) : string :=
  if format =s ReportFormatChat then renderChat model
  else if format =s ReportFormatTable then renderTable model
  else renderMarkdown model.

(** ** The encoded result *)

(** The fields with [omitempty]. *)
Definition nonempty_field (name value : string) : list string :=
  if value =s "" then [] else [json_field name (json_string value)].

Definition encode_omission (o : ReportSectionOmission) : string :=
  json_object [json_field "section" (json_string (rso_Section o));
               json_field "count" (fmt_d (rso_Count o))].

(** [json.Marshal] of the result; the labels are never nil. *)
Definition encode_result (r : RenderGovernanceReportResult) : string :=
  json_object
    ([json_field "schema_version" (json_string (rgr_SchemaVersion r));
      json_field "kind" (json_string (rgr_Kind r));
      json_field "format" (json_string (rgr_Format r));
      json_field "rendered" (json_string (rgr_Rendered r));
      json_field "coverage" (json_string (rgr_Coverage r));
      json_field "provenance_labels" (json_array (json_string <$> rgr_ProvenanceLabels r))]
     ++ nonempty_field "revision_hash" (rgr_RevisionHash r)
     ++ nonempty_field "fallback_reason" (rgr_FallbackReason r)
     ++ (if (rgr_OmittedCount r =? 0)%Z then []
         else [json_field "omitted_count" (fmt_d (rgr_OmittedCount r))])
     ++ match rgr_SectionOmissions r with
        | [] => []
        | os => [json_field "section_omissions" (json_array (encode_omission <$> os))]
        end).

(** ** Truncation *)

Definition drop_last {A} (l : list A) : list A := take (length l - 1) l.

Definition with_lists (m : Model) comparisons sources metrics contributions workload overhead findings
    recommendations outliers confounders provenance : Model :=
  {| mo_Identity := mo_Identity m; mo_Scope := mo_Scope m; mo_Coverage := mo_Coverage m;
     mo_QualityGate := mo_QualityGate m; mo_Revision := mo_Revision m; mo_AsOf := mo_AsOf m;
     mo_Window := mo_Window m; mo_Baseline := mo_Baseline m; mo_Comparisons := comparisons;
     mo_Privacy := mo_Privacy m; mo_Lineage := mo_Lineage m; mo_Derivation := mo_Derivation m;
     mo_UpstreamOmitted := mo_UpstreamOmitted m; mo_ScopeCounts := mo_ScopeCounts m;
     mo_Sources := sources; mo_Metrics := metrics; mo_Contributions := contributions;
     mo_Workload := workload; mo_Guardrails := mo_Guardrails m; mo_Overhead := overhead;
     mo_Findings := findings; mo_Recommendations := recommendations; mo_Outliers := outliers;
     mo_Confounders := confounders; mo_Provenance := provenance;
     mo_initialOmissions := mo_initialOmissions m |}.

Definition truncate (m : Model) : option (string * Model) :=
  let cut comparisons sources metrics contributions workload overhead findings
          recommendations outliers confounders provenance :=
    with_lists m comparisons sources metrics contributions workload overhead findings
      recommendations outliers confounders provenance in
  let cp := mo_Comparisons m in let so := mo_Sources m in let me := mo_Metrics m in
  let co := mo_Contributions m in let wo := mo_Workload m in let ov := mo_Overhead m in
  let fi := mo_Findings m in let re := mo_Recommendations m in let ou := mo_Outliers m in
  let cf := mo_Confounders m in let pr := mo_Provenance m in
  if (0 <? length cf)%nat then
    Some ("confounders", cut cp so me co wo ov fi re ou (drop_last cf) pr)
  else if (0 <? length ou)%nat then
    Some ("outliers", cut cp so me co wo ov fi re (drop_last ou) cf pr)
  else if (0 <? length fi)%nat then
    Some ("findings", cut cp so me co wo ov (drop_last fi) re ou cf pr)
  else if (0 <? length me)%nat then
    Some ("metrics", cut cp so (drop_last me) co wo ov fi re ou cf pr)
  else if (0 <? length co)%nat then
    Some ("contributions", cut cp so me (drop_last co) wo ov fi re ou cf pr)
  else if (0 <? length wo)%nat then
    Some ("workload", cut cp so me co (drop_last wo) ov fi re ou cf pr)
  else if (0 <? length so)%nat then
    Some ("sources", cut cp (drop_last so) me co wo ov fi re ou cf pr)
  else if (0 <? length ov)%nat then
    Some ("overhead", cut cp so me co wo (drop_last ov) fi re ou cf pr)
  else if (1 <? length cp)%nat then
    Some ("comparison_windows", cut (drop_last cp) so me co wo ov fi re ou cf pr)
  else if (1 <? length pr)%nat then
    Some ("provenance", cut cp so me co wo ov fi re ou cf (drop_last pr))
  else if (1 <? length re)%nat then
    Some ("recommendations", cut cp so me co wo ov fi (drop_last re) ou cf pr)
  else None.

(** [sum] and [omissions] of the map of omissions. *)
Definition sum (values : gmap string Z) : Z := map_fold (fun _ => Z.add) 0%Z values.

Definition omissions (values : gmap string Z) : list ReportSectionOmission :=
  (fun n => mkReportSectionOmission n (default 0%Z (values !! n)))
    <$> sort_strings (map_to_list values).*1.

Definition bounded_result (base : RenderGovernanceReportResult) (m : Model) (format : ReportFormat)
    (omitted : gmap string Z) : RenderGovernanceReportResult :=
  {| rgr_SchemaVersion := rgr_SchemaVersion base; rgr_Kind := rgr_Kind base;
     rgr_Format := rgr_Format base; rgr_Rendered := Render m format;
     rgr_Coverage := rgr_Coverage base; rgr_ProvenanceLabels := rgr_ProvenanceLabels base;
     rgr_RevisionHash := rgr_RevisionHash base; rgr_FallbackReason := rgr_FallbackReason base;
     rgr_OmittedCount := sum omitted; rgr_SectionOmissions := omissions omitted |}.

Definition fits (r : RenderGovernanceReportResult) : bool :=
  (str_len (encode_result r) <=? MaxResultBytes)%Z.

Definition over_budget : string := "report envelope exceeds byte budget".

(** The rows that [truncate] can still drop. *)
Definition droppable (m : Model) : nat :=
  length (mo_Confounders m) + length (mo_Outliers m) + length (mo_Findings m)
  + length (mo_Metrics m) + length (mo_Contributions m) + length (mo_Workload m)
  + length (mo_Sources m) + length (mo_Overhead m) + (length (mo_Comparisons m) - 1)
  + (length (mo_Provenance m) - 1) + (length (mo_Recommendations m) - 1).

(** [None] when the fuel runs out, which [render_fuel] shows it never does. *)
Fixpoint render_loop (fuel : nat) (m : Model) (format : ReportFormat)
    (base : RenderGovernanceReportResult) (omitted : gmap string Z)
    : option (result string RenderGovernanceReportResult) :=
  match fuel with
  | O => None
  | S f =>
      let r := bounded_result base m format omitted in
      if fits r then Some (Ok r)
      else match truncate m with
           | None => Some (Err over_budget)
           | Some (section, m) =>
               render_loop f m format base
                 (<[section := (default 0 (omitted !! section) + 1)%Z]> omitted)
           end
  end.

Definition RenderBounded (m : Model) (format : ReportFormat) (base : RenderGovernanceReportResult)
    : option (result string RenderGovernanceReportResult) :=
  render_loop (S (droppable m)) m format base (mo_initialOmissions m).

(** ** The steps of the truncation *)

Definition step (s : Model * gmap string Z) : option (Model * gmap string Z) :=
  match truncate s.1 with
  | None => None
  | Some (section, m) => Some (m, <[section := (default 0 (s.2 !! section) + 1)%Z]> s.2)
  end.

Fixpoint after (n : nat) (s : Model * gmap string Z) : option (Model * gmap string Z) :=
  match n with
  | O => Some s
  | S n => match step s with Some s' => after n s' | None => None end
  end.

(** The rows of the section of a name, with the number that is always kept. *)
Definition section_rows (m : Model) (name : string) : nat * nat :=
  if name =s "confounders" then (length (mo_Confounders m), 0)
  else if name =s "outliers" then (length (mo_Outliers m), 0)
  else if name =s "findings" then (length (mo_Findings m), 0)
  else if name =s "metrics" then (length (mo_Metrics m), 0)
  else if name =s "contributions" then (length (mo_Contributions m), 0)
  else if name =s "workload" then (length (mo_Workload m), 0)
  else if name =s "sources" then (length (mo_Sources m), 0)
  else if name =s "overhead" then (length (mo_Overhead m), 0)
  else if name =s "comparison_windows" then (length (mo_Comparisons m), 1)
  else if name =s "provenance" then (length (mo_Provenance m), 1)
  else if name =s "recommendations" then (length (mo_Recommendations m), 1)
  else (0, 0)%nat.

Lemma length_drop_last {A} (l : list A) : length (drop_last l) = (length l - 1)%nat.
Proof. unfold drop_last. rewrite length_take. lia. Qed.

Lemma drop_last_prefix {A} (l : list A) : drop_last l `prefix_of` l.
Proof. apply prefix_take. Qed.

(** What is left after a truncation is, section by section, a prefix. *)
Record shortened (m' m : Model) : Prop := {
  sh_confounders : mo_Confounders m' `prefix_of` mo_Confounders m;
  sh_outliers : mo_Outliers m' `prefix_of` mo_Outliers m;
  sh_findings : mo_Findings m' `prefix_of` mo_Findings m;
  sh_metrics : mo_Metrics m' `prefix_of` mo_Metrics m;
  sh_contributions : mo_Contributions m' `prefix_of` mo_Contributions m;
  sh_workload : mo_Workload m' `prefix_of` mo_Workload m;
  sh_sources : mo_Sources m' `prefix_of` mo_Sources m;
  sh_overhead : mo_Overhead m' `prefix_of` mo_Overhead m;
  sh_comparisons : mo_Comparisons m' `prefix_of` mo_Comparisons m;
  sh_provenance : mo_Provenance m' `prefix_of` mo_Provenance m;
  sh_recommendations : mo_Recommendations m' `prefix_of` mo_Recommendations m;
  sh_guardrails : mo_Guardrails m' = mo_Guardrails m;
  sh_identity : mo_Identity m' = mo_Identity m
}.

#[export] Instance shortened_preorder : PreOrder shortened.
Proof.
  split.
  - intros m. split; done.
  - intros m1 m2 m3 [] []. split; solve [by etrans|congruence].
Qed.

Ltac truncate_cases H :=
  unfold truncate in H; cbv zeta in H;
  repeat match type of H with
  | (if ?c then _ else _) = _ => destruct c eqn:?
  end; [injection H as <- <-..|discriminate H].

Lemma truncate_shortened m section m' : truncate m = Some (section, m') -> shortened m' m.
Proof.
  intros H. truncate_cases H; split; cbn; first [done|apply drop_last_prefix].
Qed.

Lemma truncate_rows m section m' name :
  truncate m = Some (section, m') ->
  ((section_rows m' name).1 + (if section =s name then 1 else 0) = (section_rows m name).1)%nat.
Proof.
  intros H. truncate_cases H; bool_facts; unfold section_rows;
    cbn [with_lists mo_Confounders mo_Outliers mo_Findings mo_Metrics mo_Contributions mo_Workload
         mo_Sources mo_Overhead mo_Comparisons mo_Provenance mo_Recommendations];
    repeat match goal with
    | |- context [name =s ?s] => destruct (name =s s) eqn:?; str_facts; subst
    end; cbn [fst]; rewrite ?length_drop_last;
    match goal with |- context [?a =s ?b] => destruct (a =s b) eqn:? end; str_facts;
    try congruence; lia.
Qed.

Lemma truncate_droppable m section m' : truncate m = Some (section, m') -> droppable m = S (droppable m').
Proof.
  intros H. truncate_cases H; bool_facts; unfold droppable; cbn; rewrite length_drop_last; lia.
Qed.

Lemma truncate_none m : truncate m = None <-> droppable m = 0%nat.
Proof.
  unfold truncate, droppable. cbv zeta. split.
  - intros H. repeat match type of H with (if ?c then _ else _) = _ => destruct c eqn:?; [done|] end.
    bool_facts. lia.
  - intros H. repeat match goal with |- (if (?a <? ?b)%nat then _ else _) = _ =>
      rewrite (proj2 (Nat.ltb_ge a b)) by lia end. done.
Qed.

(** [truncate] keeps the order of importance: it takes a row of a section only when the
    ones before it are used up. *)
Definition importance : list string :=
  ["confounders"; "outliers"; "findings"; "metrics"; "contributions"; "workload"; "sources";
   "overhead"; "comparison_windows"; "provenance"; "recommendations"].

Lemma sum_insert values name x :
  sum (<[name := x]> values) = (sum values - default 0 (values !! name) + x)%Z.
Proof.
  assert (forall v y, v !! name = None -> sum (<[name := y]> v) = (y + sum v)%Z) as Hnew.
  { intros v y Hv. unfold sum. rewrite map_fold_insert_L; [done|intros; lia|done]. }
  destruct (values !! name) as [y|] eqn:E; cbn [default].
  - rewrite <- insert_delete_eq, Hnew by apply lookup_delete_eq.
    pose proof (Hnew (delete name values) y (lookup_delete_eq _ _)) as Hy.
    rewrite insert_delete_id in Hy by done. cbn. lia.
  - rewrite Hnew by done. cbn. lia.
Qed.

Lemma after_accounts n s s' :
  after n s = Some s' ->
  shortened s'.1 s.1 /\ sum s'.2 = (sum s.2 + Z.of_nat n)%Z /\
  (forall name, default 0%Z (s'.2 !! name) + Z.of_nat (section_rows s'.1 name).1 =
                default 0%Z (s.2 !! name) + Z.of_nat (section_rows s.1 name).1)%Z /\
  (droppable s.1 = n + droppable s'.1)%nat.
Proof.
  revert s. induction n as [|n IH]; intros s; cbn [after].
  { intros [= ->]. split_and!; [done|lia|done|done]. }
  unfold step. destruct (truncate s.1) as [[section m]|] eqn:E; [|done].
  intros (H1 & H2 & H3 & H4)%IH. cbn [fst snd] in *. split_and!.
  - etrans; [exact H1|]. by eapply truncate_shortened.
  - rewrite H2, sum_insert. lia.
  - intros name. rewrite H3. rewrite <- (truncate_rows _ _ _ name E).
    destruct (str_eqb section name) eqn:Es; str_facts.
    + subst. rewrite lookup_insert_eq. cbn. unfold id. lia.
    + rewrite lookup_insert_ne by done. lia.
  - rewrite (truncate_droppable _ _ _ E). lia.
Qed.

Lemma render_loop_exact fuel m format base omitted :
  (droppable m < fuel)%nat ->
  (exists n m' o', after n (m, omitted) = Some (m', o') /\
     (forall k mk ok, (k < n)%nat -> after k (m, omitted) = Some (mk, ok) ->
        fits (bounded_result base mk format ok) = false) /\
     fits (bounded_result base m' format o') = true /\
     render_loop fuel m format base omitted = Some (Ok (bounded_result base m' format o'))) \/
  (forall n m' o', after n (m, omitted) = Some (m', o') ->
     fits (bounded_result base m' format o') = false) /\
  render_loop fuel m format base omitted = Some (Err over_budget).
Proof.
  revert m omitted. induction fuel as [|fuel IH]; intros m omitted Hf; [lia|].
  cbn [render_loop]. destruct (fits (bounded_result base m format omitted)) eqn:E.
  { left. exists 0%nat, m, omitted. split_and!; try done. intros; lia. }
  destruct (truncate m) as [[section m1]|] eqn:T.
  - pose proof (truncate_droppable _ _ _ T) as Hd.
    assert (step (m, omitted) = Some (m1, <[section := (default 0 (omitted !! section) + 1)%Z]> omitted))
      as Hs by (unfold step; cbn; by rewrite T).
    destruct (IH m1 (<[section := (default 0 (omitted !! section) + 1)%Z]> omitted) ltac:(lia))
      as [(n & m' & o' & Ha & Hk & Hok & Hr)|[Hall Hr]].
    + left. exists (S n), m', o'. split_and!; try done; [cbn [after]; by rewrite Hs|].
      intros [|k] mk ok Hlt; cbn [after]; [intros [= <- <-]; done|]. rewrite Hs.
      intros Hak. apply (Hk k); [lia|done].
    + right. split; [|done]. intros [|n] m' o'; cbn [after]; [intros [= <- <-]; done|].
      rewrite Hs. apply Hall.
  - right. split; [|done]. intros [|n] m' o'; cbn [after]; [intros [= <- <-]; done|].
    unfold step. cbn. by rewrite T.
Qed.

(** C34: [RenderBounded] always returns: the first rendering that fits the byte budget when
    rows are dropped one by one in the order of [truncate], or an error when none of them
    fits.  The loop of the code needs one turn more than there are rows to drop. *)
Theorem RenderBounded_exact (m : Model) (format : ReportFormat) (base : RenderGovernanceReportResult) :
  let start := (m, mo_initialOmissions m) in
  (exists n m' o', after n start = Some (m', o') /\
     (forall k mk ok, (k < n)%nat -> after k start = Some (mk, ok) ->
        fits (bounded_result base mk format ok) = false) /\
     (str_len (encode_result (bounded_result base m' format o')) <= MaxResultBytes)%Z /\
     RenderBounded m format base = Some (Ok (bounded_result base m' format o'))) \/
  (forall n m' o', after n start = Some (m', o') ->
     (MaxResultBytes < str_len (encode_result (bounded_result base m' format o')))%Z) /\
  RenderBounded m format base = Some (Err over_budget).
Proof.
  cbv zeta. unfold RenderBounded.
  destruct (render_loop_exact (S (droppable m)) m format base (mo_initialOmissions m) ltac:(lia))
    as [(n & m' & o' & H1 & H2 & H3 & H4)|[H1 H2]]; [left|right].
  - exists n, m', o'. unfold fits in H3. bool_facts. by split_and!.
  - split; [|done]. intros n m' o' Ha. specialize (H1 n m' o' Ha). unfold fits in H1. by bool_facts.
Qed.

(** ** Nothing disappears silently *)

(** The rows of the section of a name that the audit delivered. *)
Definition audit_rows (res : AuditProjectResult) (facts : GovernanceReportFacts) (name : string) : nat :=
  if name =s "confounders" then length (apr_Confounders res)
  else if name =s "outliers" then length (apr_Outliers res)
  else if name =s "findings" then length (apr_Findings res)
  else if name =s "metrics" then length (apr_Metrics res)
  else if name =s "contributions" then length (apr_Contributions res)
  else if name =s "workload" then length (apr_WorkloadEffects res)
  else if name =s "sources" then length (rf_Sources facts)
  else if name =s "overhead" then length (apr_GovernanceOverhead res)
  else if name =s "comparison_windows" then length (comparisonWindows facts)
  else if name =s "provenance" then length (rf_Provenance facts)
  else if name =s "recommendations" then length (apr_Recommendations res)
  else 0%nat.

Lemma build_rows res facts m name :
  Build res = Ok m -> apr_ReportFacts res = Some facts ->
  (default 0 (mo_initialOmissions m !! name) + Z.of_nat (section_rows m name).1 =
   Z.of_nat (audit_rows res facts name))%Z.
Proof.
  intros H Hf. destruct (Build_inv _ _ H) as (facts' & labels & metrics & rfacts & recs & outliers &
    Hf' & Hm & Hr & Ho & Pm & Er & Po & Ei & Pc & _ & L1 & L2 & L3 & L4 & L5 & L6 & L7 & _).
  rewrite Hf in Hf'. injection Hf' as <-.
  destruct (join_facts_spec _ _ _ _ _ _ _ Hm) as (Lm & _).
  destruct (join_facts_spec _ _ _ _ _ _ _ Hr) as (Lr & _).
  apply build_outliers_length in Ho. apply Permutation_length in Pm, Po, Pc.
  rewrite length_fmap in Pc. rewrite Lr in Ei.
  assert (forall n, n <> "recommendations" -> default 0%Z (mo_initialOmissions m !! n) = 0%Z) as H0.
  { intros n Hn. rewrite Ei. destruct (_ <=? 5)%nat; [by rewrite lookup_empty|].
    by rewrite lookup_singleton_ne. }
  unfold section_rows, audit_rows.
  repeat match goal with
  | |- context [name =s ?s] => destruct (name =s s) eqn:?; str_facts; [subst name|]
  end; cbn [fst]; try (rewrite H0 by done); try (rewrite ?L1, ?L2, ?L3, ?L4, ?L5, ?L6, ?L7; lia).
  rewrite Ei, Er, length_take, Lr. destruct (length (apr_Recommendations res) <=? 5)%nat eqn:El; bool_facts.
  - rewrite lookup_empty. cbn [from_option]. lia.
  - rewrite lookup_singleton_eq. cbn [from_option]. unfold id. lia.
Qed.

(** The count a result gives for the section of a name. *)
Definition omitted_in (r : RenderGovernanceReportResult) (name : string) : Z :=
  foldr Z.add 0%Z (rso_Count <$> filter (fun o => rso_Section o = name) (rgr_SectionOmissions r)).

Lemma count_of_names (f : string -> Z) l name :
  NoDup l ->
  foldr Z.add 0%Z (rso_Count <$> filter (fun o => rso_Section o = name)
    ((fun n => mkReportSectionOmission n (f n)) <$> l)) =
  if decide (name ∈ l) then f name else 0%Z.
Proof.
  induction 1 as [|n l Hn Hl IH]; [done|]. rewrite fmap_cons.
  destruct (decide (n = name)) as [->|Hne].
  - rewrite filter_cons_True, fmap_cons by done. cbn [foldr rso_Count].
    rewrite IH, decide_False, decide_True; [lia|apply list_elem_of_here|done].
  - rewrite filter_cons_False, IH by done. apply decide_ext. rewrite elem_of_cons.
    split; [by right|]. by intros [->|?].
Qed.

Lemma omitted_in_omissions values name :
  foldr Z.add 0%Z (rso_Count <$> filter (fun o => rso_Section o = name) (omissions values)) =
  default 0%Z (values !! name).
Proof.
  unfold omissions.
  assert (NoDup (sort_strings (map_to_list values).*1)) as Hd.
  { rewrite sort_strings_perm. apply NoDup_fst_map_to_list. }
  assert (forall n, n ∈ sort_strings (map_to_list values).*1 <-> is_Some (values !! n)) as Hin.
  { intros n. rewrite sort_strings_perm, list_elem_of_fmap. split.
    - intros ([n' x] & -> & Hx). apply elem_of_map_to_list in Hx. by exists x.
    - intros [x Hx]. exists (n, x). split; [done|]. by apply elem_of_map_to_list. }
  assert (name ∈ sort_strings (map_to_list values).*1 \/
    name ∉ sort_strings (map_to_list values).*1 /\ values !! name = None) as Hcase.
  { destruct (values !! name) eqn:E; [left; apply Hin; by eexists|right]. split; [|done].
    rewrite Hin, E. by intros []. }
  rewrite (count_of_names (fun n => default 0%Z (values !! n))) by done.
  destruct Hcase as [Hc|[Hc Hv]].
  - by rewrite decide_True.
  - rewrite decide_False by done. by rewrite Hv.
Qed.

(** Nothing disappears silently from a report: in a result that [RenderBounded] returns
    for the model of an audit, every section of the audit is accounted for, by the rows
    shown and the count given for the rows omitted; what is shown of a section is what
    comes first in it, identity and guardrails are always shown, and the encoded result
    keeps its byte budget. *)
Theorem report_accounts (res : AuditProjectResult) (facts : GovernanceReportFacts) (m : Model)
    (format : ReportFormat) (base r : RenderGovernanceReportResult) :
  Build res = Ok m -> apr_ReportFacts res = Some facts ->
  RenderBounded m format base = Some (Ok r) ->
  (str_len (encode_result r) <= MaxResultBytes)%Z /\
  exists shown, rgr_Rendered r = Render shown format /\ shortened shown m /\
    (forall name, omitted_in r name + Z.of_nat (section_rows shown name).1 =
                  Z.of_nat (audit_rows res facts name))%Z /\
    rgr_OmittedCount r = (sum (mo_initialOmissions m) + (Z.of_nat (droppable m) - Z.of_nat (droppable shown)))%Z.
Proof.
  intros Hb Hf Hr. unfold RenderBounded in Hr.
  destruct (render_loop_exact (S (droppable m)) m format base (mo_initialOmissions m) ltac:(lia))
    as [(n & m' & o' & Ha & _ & Hfit & He)|[_ He]]; rewrite He in Hr; [|discriminate].
  injection Hr as <-. destruct (after_accounts _ _ _ Ha) as (Hs & Hsum & Hrows & Hd). cbn in *.
  split; [unfold fits in Hfit; by bool_facts|]. exists m'. split_and!; try done.
  - intros name. unfold omitted_in. cbn [rgr_SectionOmissions bounded_result].
    rewrite omitted_in_omissions, Hrows. by apply build_rows.
  - rewrite Hsum. lia.
Qed.

(** ** An example *)

Definition sample_base : RenderGovernanceReportResult :=
  mkRenderGovernanceReportResult SchemaVersion "result" "chat" "" "complete" ["derived"] "" "" 0 [].

Definition sample_result : RenderGovernanceReportResult :=
  match RenderBounded sample_model "chat" sample_base with Some (Ok r) => r | _ => sample_base end.

Lemma report_accounts_witness :
  rgr_OmittedCount sample_result = 1%Z /\
  (omitted_in sample_result "recommendations" = 1)%Z /\
  (str_len (encode_result sample_result) <= MaxResultBytes)%Z.
Proof.
  split; [vm_compute; reflexivity|]. split; [vm_compute; reflexivity|].
  apply (report_accounts (sample_audit "late data") sample_facts sample_model "chat" sample_base);
    [vm_compute; reflexivity..].
Defined.
