(* ===== verification/CliRun.v ===== *)
(** * The command line (internal/cli): the commands

    [Run] parses the flags, settles the settings, reads the input and runs a command, which writes
    its result, or an error, and gives the exit code.

    Arguments, besides those of [Cli]: the JSON decoders and encoders, the terminal and the moments
    at which contexts end, the setup commands, and the store of [audit]. *)
From Stdlib Require Import Ascii.
From S2P Require Import Contracts GoString GoInt Utf8 GoFmt Textutil Policy PolicyPack Engine Compiler Lint Report GoFlag Config Cli.

Definition exitOK : Z := 0.
Definition exitInternal : Z := 1.
Definition exitInvalid : Z := 2.
Definition exitSemantic : Z := 3.
Definition exitPermission : Z := 4.
Definition exitApproval : Z := 5.
Definition exitBudget : Z := 124.

Definition exitFor (err : StableError) : Z :=
  let code := se_Code err in
  if one_of code [ErrorCodeInvalidSchema; ErrorCodeNotFound; ErrorCodeUnsupportedCapability; ErrorCodeUnknownCapability] then exitInvalid
  else if code =s ErrorCodeSemanticInvalid then exitSemantic
  else if code =s ErrorCodePermissionDenied then exitPermission
  else if code =s ErrorCodeApprovalRequired then exitApproval
  else if code =s ErrorCodeBudgetExhausted then exitBudget
  else exitInternal.

(** [Error]. *)
Definition error_text (e : StableError) : string := se_Code e +:+ ": " +:+ se_Message e.

(** An error that is not stable is reported as an internal one. *)
Definition asStable (err : option StableError) : StableError :=
  match err with Some e => e | None => NewError ErrorCodeInternal "internal error" "" true end.

(** ** The terminal *)

(** What was written to the two streams, and how many writes there were. *)
Record Terminal := mkTerminal { tm_out : string; tm_err : string; tm_writes : nat }.

Inductive Stream := Output | Errors.

(** Which writes fail, and how much of them is written then. *)
Record Screen := mkScreen { sc_fails : nat -> bool; sc_torn : nat -> nat }.

Definition Shown (A : Type) : Type := Terminal -> A * Terminal.

Definition show (screen : Screen) (to : Stream) (data : string) : Shown bool :=
  fun t =>
    let ok := negb (sc_fails screen (tm_writes t)) in
    let data := if ok then data else str_take (sc_torn screen (tm_writes t)) data in
    (ok, match to with
         | Output => mkTerminal (tm_out t +:+ data) (tm_err t) (S (tm_writes t))
         | Errors => mkTerminal (tm_out t) (tm_err t +:+ data) (S (tm_writes t))
         end).

(** What is encoded as JSON. *)
Record Info := mkInfo {
  bi_Version : string; bi_Commit : string; bi_BuildTimestamp : string; bi_GoVersion : string; bi_OS : string; bi_Architecture : string
}.

Inductive JsonValue :=
  | JsonError (e : StableError)
  | JsonImprove (r : ImprovePromptResult)
  | JsonGoal (r : CreateGoalPromptResult)
  | JsonReview (r : CreateReviewFixPromptResult)
  | JsonLint (r : LintPromptResult)
  | JsonInfo (i : Info)
  | JsonAudit (r : AuditProjectResult).

(** The process around the commands. *)
Record World := mkWorld {
  wo_screen : Screen;
  wo_encode : JsonValue -> option string;
  wo_config : string -> option (Layer * Trailing);
  wo_open_config : string -> ConfigFile;
  wo_input : Input;
  wo_repository : Repository;
  wo_decode_improve : string -> option (ImprovePromptRequest * Trailing);
  wo_decode_goal : string -> option (CreateGoalPromptRequest * Trailing);
  wo_decode_review : string -> option (CreateReviewFixPromptRequest * Trailing);
  wo_decode_lint : string -> option (LintPromptRequest * Trailing);
  wo_object : string -> option (gmap string string);
  wo_list : string -> option nat;
  wo_done : nat -> bool
}.

Section Commands.
Context (w : World).

Definition writeJSON (to : Stream) (value : JsonValue) : Shown bool :=
  match wo_encode w value with
  | None => fun t => (false, t)
  | Some encoded => show (wo_screen w) to (encoded +:+ LF)
  end.

Definition writeStableError (format : string) (e : StableError) : Shown bool :=
  if format =s "json" then writeJSON Errors (JsonError e) else show (wo_screen w) Errors (error_text e +:+ LF).

Definition emitError (format : string) (err : option StableError) : Shown Z :=
  fun t =>
    let stable := asStable err in
    let '(ok, t) := writeStableError format stable t in
    (if ok then exitFor stable else exitInternal, t).

Definition emit (format : string) (e : StableError) : Shown Z := emitError format (Some e).

Definition outputFailure : Shown Z :=
  fun t =>
    let '(_, t) := writeStableError "text" (NewError ErrorCodeInternal "output write failed" "output" true) t in
    (exitInternal, t).

Definition emitResult (format : string) (value : JsonValue) (text : string) : Shown Z :=
  fun t =>
    let '(ok, t) := if format =s "json" then writeJSON Output value t else show (wo_screen w) Output (text +:+ LF) t in
    if ok then (exitOK, t) else outputFailure t.

(** ** Requests in JSON *)

Definition decodeStrict {A} (decode : string -> option (A * Trailing)) (data : string) : result StableError A :=
  if negb (valid_utf8 data) then Err (invalid "request must be valid utf-8" "request")
  else match decode data with
       | None => Err (invalid "invalid request json" "request")
       | Some (_, TrailingValue) => Err (invalid "request contains multiple json values" "request")
       | Some (_, TrailingInvalid) => Err (invalid "invalid trailing request data" "request")
       | Some (request, TrailingEnd) => Ok request
       end.

Fixpoint jsonValueAtPath (data : string) (path : list string) : option string :=
  match path with
  | [] => Some data
  | segment :: path =>
      match wo_object w data with
      | None => None
      | Some object => match object !! segment with None => None | Some next => jsonValueAtPath next path end
      end
  end.

Definition rejectJSONNull (data : string) (path : list string) : option StableError :=
  match jsonValueAtPath data path with
  | Some value =>
      if trim_space value =s "null" then Some (invalid (default "" (last path) +:+ " must not be null") (str_join "." path)) else None
  | None => None
  end.

Definition rejectEmptyJSONList (data : string) (path : list string) : option StableError :=
  match jsonValueAtPath data path with
  | None => None
  | Some value =>
      if (trim_space value =s "null") || bool_decide (wo_list w value = Some 0%nat)
      then Some (invalid (default "" (last path) +:+ " must contain at least one item") (str_join "." path))
      else None
  end.

(** ** The commands *)

Definition appendUnique (values : list string) (value : string) : list string :=
  if contains values value then values else values ++ [value].

Definition nonEmptyLines (value : string) : list string :=
  filter (fun line => line <> "") ((fun line => trim_space (trim_prefix "-" line)) <$> split_on newline value).

Definition with_boundaries (plan : PromptPlan) (scope nonGoals gates : list string) : PromptPlan :=
  {| pp_SchemaVersion := pp_SchemaVersion plan; pp_Role := pp_Role plan; pp_Personality := pp_Personality plan;
     pp_CollaborationStyle := pp_CollaborationStyle plan; pp_Goal := pp_Goal plan; pp_SuccessCriteria := pp_SuccessCriteria plan;
     pp_Invariants := pp_Invariants plan; pp_DecisionRules := pp_DecisionRules plan;
     pp_EvidenceRequirements := pp_EvidenceRequirements plan; pp_Tools := pp_Tools plan; pp_OutputContract := pp_OutputContract plan;
     pp_OutputLanguage := pp_OutputLanguage plan; pp_ApprovalBoundary := pp_ApprovalBoundary plan; pp_PhaseScope := pp_PhaseScope plan;
     pp_StopRules := pp_StopRules plan; pp_FallbackRules := pp_FallbackRules plan; pp_AbstainRules := pp_AbstainRules plan;
     pp_ValidationBar := pp_ValidationBar plan; pp_ArtifactPriorities := pp_ArtifactPriorities plan;
     pp_StablePrefix := pp_StablePrefix plan; pp_DynamicTail := pp_DynamicTail plan;
     pp_Scope := scope; pp_NonGoals := nonGoals; pp_Gates := gates |}.

(** A decision is told to the prompt as a non-goal or a gate. *)
Definition add_decision (plan : PromptPlan) (decision : BoundaryDecision) : PromptPlan :=
  if bd_Category decision =s "non_goal"
  then with_boundaries plan (pp_Scope plan) (appendUnique (pp_NonGoals plan) (bd_Explanation decision)) (pp_Gates plan)
  else if one_of (bd_Category decision) ["validation"; "release"]
  then with_boundaries plan (pp_Scope plan) (pp_NonGoals plan) (appendUnique (pp_Gates plan) (bd_Explanation decision))
  else plan.

Definition add_scope (plan : PromptPlan) (scope : string) : PromptPlan :=
  with_boundaries plan (appendUnique (pp_Scope plan) scope) (pp_NonGoals plan) (pp_Gates plan).

Definition with_plan (request : ImprovePromptRequest) (plan : PromptPlan) : ImprovePromptRequest :=
  mkImprovePromptRequest (ipq_SchemaVersion request) (ipq_Kind request) (ipq_Intent request) (ipq_ExecutionPolicy request)
    (Some plan) (ipq_Budget request).

Definition with_policy (request : ImprovePromptRequest) (executionPolicy : ExecutionPolicy) : ImprovePromptRequest :=
  mkImprovePromptRequest (ipq_SchemaVersion request) (ipq_Kind request) (ipq_Intent request) executionPolicy
    (ipq_PromptPlan request) (ipq_Budget request).

(** The request of [improve_prompt], as JSON with the checks of what JSON can leave out. *)
Definition improve_request (opt : options) (cfg : Config) (data : string) : result StableError ImprovePromptRequest :=
  if op_isRequestJSON opt then
    let! request := decodeStrict (wo_decode_improve w) data in
    check! rejectJSONNull data ["prompt_plan"] in
    check! rejectJSONNull data ["budget"] in
    check! rejectJSONNull data ["budget"; "context_mode"] in
    check! match ipq_Budget request with
           | Some budget =>
               if (eb_ContextMode budget =s "") && bool_decide (is_Some (jsonValueAtPath data ["budget"; "context_mode"]))
               then Some (invalid "context_mode must be a supported string" "budget.context_mode") else None
           | None => None
           end in
    check! rejectEmptyJSONList data ["prompt_plan"; "artifact_priorities"] in
    check! ValidateImproveRequest request in
    let origin := default "" (cf_Provenance cfg !! "execution_policy") in
    Ok (if (origin =s "file") || (origin =s "cli") then with_policy request (cf_ExecutionPolicy cfg) else request)
  else Ok (mkImprovePromptRequest SchemaVersion "request" data (cf_ExecutionPolicy cfg) None None).

(** The plan of a request in a repository. *)
Definition bounded_request (opt : options) (decisions : list BoundaryDecision) (request : ImprovePromptRequest) : ImprovePromptRequest :=
  if op_contextRoot opt =s "" then request
  else
    let plan := default (NewPlan (ipq_Intent request)) (ipq_PromptPlan request) in
    with_plan request (foldl add_decision (foldl add_scope plan (op_scopes opt)) decisions).

Definition with_decisions (r : ImprovePromptResult) (decisions : list BoundaryDecision) : ImprovePromptResult :=
  mkImprovePromptResult (ipr_SchemaVersion r) (ipr_Kind r) (ipr_ImprovedPrompt r) (ipr_PolicyOutcome r) (ipr_Diagnostics r) decisions.

Definition improve_result (opt : options) (cfg : Config) (data : string) : result StableError ImprovePromptResult :=
  let! request := improve_request opt cfg data in
  let! decisions := boundaryDecisions (wo_repository w) opt in
  let request := bounded_request opt decisions request in
  let! r := if op_isPhaseSet opt then ImproveWithPhase (wo_done w) request (cf_HostPermission cfg) (op_phase opt)
            else Improve (wo_done w) request (cf_HostPermission cfg) in
  Ok (with_decisions r decisions).

Definition runImprove (opt : options) (cfg : Config) (data : string) : Shown Z :=
  match improve_result opt cfg data with
  | Err e => emit (cf_Format cfg) e
  | Ok r => emitResult (cf_Format cfg) (JsonImprove r) (ipr_ImprovedPrompt r)
  end.

Definition goal_result (opt : options) (data : string) : result StableError CreateGoalPromptResult :=
  if op_isRequestJSON opt then
    let! request := decodeStrict (wo_decode_goal w) data in
    check! rejectEmptyJSONList data ["prompt_plan"; "artifact_priorities"] in
    CreateGoal (wo_done w 0%nat) request
  else CreateGoalFromObjective (wo_done w 0%nat) data.

Definition runGoal (opt : options) (cfg : Config) (data : string) : Shown Z :=
  match goal_result opt data with
  | Err e => emit (cf_Format cfg) e
  | Ok r => emitResult (cf_Format cfg) (JsonGoal r) (cgr_GoalPrompt r)
  end.

Definition review_result (opt : options) (data : string) : result StableError CreateReviewFixPromptResult :=
  let! request := if op_isRequestJSON opt then decodeStrict (wo_decode_review w) data
                  else Ok (mkCreateReviewFixPromptRequest SchemaVersion "request" (nonEmptyLines data) (op_reviewHead opt)) in
  CreateReviewFix (wo_done w 0%nat) request.

Definition runReview (opt : options) (cfg : Config) (data : string) : Shown Z :=
  match review_result opt data with
  | Err e => emit (cf_Format cfg) e
  | Ok r => emitResult (cf_Format cfg) (JsonReview r) (crr_FixPrompt r)
  end.

Definition maxDiagnostics : nat := 100.

(** One decision among the diagnostics. *)
Definition add_diagnostic (r : LintPromptResult) (decision : BoundaryDecision) : LintPromptResult :=
  if bd_Outcome decision =s "continue" then r
  else
    let block := bd_Outcome decision =s "block" in
    let diagnostic := mkDiagnostic ("boundary-" +:+ bd_Outcome decision) (if block then "error" else "warning") (bd_Explanation decision)
                        (bd_SourceRef decision) "Repository boundary policy applies." "Respect the boundary decision before proceeding." in
    mkLintPromptResult (lpr_SchemaVersion r) (lpr_Kind r) (if block then false else lpr_Valid r)
      (if (length (lpr_Diagnostics r) <? maxDiagnostics)%nat then lpr_Diagnostics r ++ [diagnostic] else lpr_Diagnostics r)
      (lpr_BoundaryDecisions r).

Definition addBoundaryDiagnostics (r : LintPromptResult) (decisions : list BoundaryDecision) : LintPromptResult :=
  foldl add_diagnostic r decisions.

Definition diagnostic_line (d : Diagnostic) : string :=
  dg_Severity d +:+ " " +:+ dg_Code d +:+ " " +:+ dg_Location d +:+ ": " +:+ dg_Message d +:+ LF.

(** The lines, until a write fails. *)
Fixpoint write_lines (lines : list string) : Shown bool :=
  fun t =>
    match lines with
    | [] => (true, t)
    | line :: lines => let '(ok, t) := show (wo_screen w) Output line t in if ok then write_lines lines t else (false, t)
    end.

Definition writeLint (format : string) (r : LintPromptResult) : Shown bool :=
  if format =s "json" then writeJSON Output (JsonLint r)
  else match lpr_Diagnostics r with
       | [] => show (wo_screen w) Output ("valid" +:+ LF)
       | diagnostics => write_lines (diagnostic_line <$> diagnostics)
       end.

Definition lint_result (opt : options) (data : string) : result StableError LintPromptResult :=
  let! request := if op_isRequestJSON opt then decodeStrict (wo_decode_lint w) data
                  else Ok (mkLintPromptRequest SchemaVersion "request" data) in
  let! r := CheckPrompt request in
  let! decisions := boundaryDecisions (wo_repository w) opt in
  Ok (addBoundaryDiagnostics
        (mkLintPromptResult (lpr_SchemaVersion r) (lpr_Kind r) (lpr_Valid r) (lpr_Diagnostics r) decisions) decisions).

Definition runLint (opt : options) (cfg : Config) (data : string) : Shown Z :=
  match lint_result opt data with
  | Err e => emit (cf_Format cfg) e
  | Ok r =>
      fun t =>
        let '(ok, t) := writeLint (cf_Format cfg) r t in
        if negb ok then outputFailure t else (if lpr_Valid r then exitOK else exitSemantic, t)
  end.
End Commands.

(** ** version, audit and Run *)

(** The store of [audit]: the times of its flags, the address in the environment, whether it can be
    opened, its answers, and [json.Marshal] of them. *)
Record AuditStore := mkAuditStore {
  as_parse_time : string -> option Z;
  as_dsn : string;
  as_opens : bool;
  as_audit : AuditProjectRequest -> result (option StableError) AuditProjectResult;
  as_marshal : AuditProjectResult -> option string
}.

Section Run.
Context (w : World) (store : AuditStore) (info : Info).

Definition info_line (i : Info) : string :=
  "prompt-better " +:+ bi_Version i +:+ " commit=" +:+ bi_Commit i +:+ " built=" +:+ bi_BuildTimestamp i +:+ " go=" +:+ bi_GoVersion i
  +:+ " " +:+ bi_OS i +:+ "/" +:+ bi_Architecture i +:+ LF.

Definition print_or_fail (m : Shown bool) : Shown Z :=
  fun t => let '(ok, t) := m t in (if ok then exitOK else exitInternal, t).

Definition runVersion (args : list string) : Shown Z :=
  let invalid_flags := emit w "text" (invalid "invalid version flags" "flags") in
  let command := default "" (head args) in
  let p := flag_parse (fun name => if name =s "format" then Some StringFlag else None) (tail args) in
  if (command =s "--version") && negb (length args =? 1)%nat then invalid_flags
  else if (command =s "version") && (negb (pd_ok p) || negb (length (pd_args p) =? 0)%nat) then invalid_flags
  else
    let format := if command =s "version" then flag_string "format" "text" p else "text" in
    if format =s "text" then print_or_fail (show (wo_screen w) Output (info_line info))
    else if format =s "json" then print_or_fail (writeJSON w Output (JsonInfo info))
    else emit w "text" (invalid "unsupported version format" "format").

Definition audit_flags (name : string) : option FlagKind :=
  if one_of name ["scope"; "reference"; "starts-at"; "ends-at"; "as-of"; "source"; "format"] then Some StringFlag
  else if name =s "consent" then Some BoolFlag
  else None.

Definition audit_line (r : AuditProjectResult) : string :=
  "audit " +:+ apr_AuditReference r +:+ " coverage=" +:+ apr_Coverage r +:+ " metrics=" +:+ fmt_d (Z.of_nat (length (apr_Metrics r)))
  +:+ " findings=" +:+ fmt_d (Z.of_nat (length (apr_Findings r)))
  +:+ " recommendations=" +:+ fmt_d (Z.of_nat (length (apr_Recommendations r))) +:+ LF.

Definition audit_request (p : Parsed) (start end_ asOf : Z) : AuditProjectRequest :=
  {| apq_SchemaVersion := SchemaVersion; apq_Kind := "request"; apq_Scope := flag_string "scope" "" p;
     apq_Reference := flag_string "reference" "" p; apq_ConfiguredSources := flag_list "source" p;
     apq_StartsAt := start; apq_EndsAt := end_; apq_AsOf := asOf;
     apq_Consent := if flag_bool "consent" p then AuditConsentGranted else AuditConsentUnknown |}.

Definition runAudit (args : list string) : Shown Z :=
  let p := flag_parse audit_flags args in
  let format := flag_string "format" "json" p in
  let time name := as_parse_time store (flag_string name "" p) in
  if negb (pd_ok p) || negb (length (pd_args p) =? 0)%nat then emit w "text" (invalid "invalid audit flags" "flags")
  else match time "starts-at", time "ends-at", time "as-of" with
       | Some start, Some end_, Some asOf =>
           if negb (format =s "json") && negb (format =s "text") then emit w "text" (invalid "invalid audit window or format" "flags")
           else
             let unavailable := emit w format (NewError ErrorCodeCoverageIncomplete "project audit store unavailable" "reference" true) in
             if (as_dsn store =s "") || negb (as_opens store) then unavailable
             else match as_audit store (audit_request p start end_ asOf) with
                  | Err e => emitError w format e
                  | Ok r =>
                      if format =s "json" then
                        match as_marshal store r with
                        | None => fun t => (exitInternal, t)
                        | Some encoded =>
                            if (MaxResultBytes <? str_len encoded + 1)%Z
                            then emit w format (NewError ErrorCodeBudgetExhausted "audit result exceeds output budget" "result" false)
                            else print_or_fail (show (wo_screen w) Output (encoded +:+ LF))
                        end
                      else print_or_fail (show (wo_screen w) Output (audit_line r))
                  end
       | _, _, _ => emit w "text" (invalid "invalid audit window or format" "flags")
       end.

Definition usage : string :=
  "usage: prompt-better <improve_prompt|create_goal_prompt|create_review_fix_prompt|lint_prompt|audit|doctor|init|version> [flags] [text]".

Definition writeUsage (to : Stream) : Shown Z := print_or_fail (show (wo_screen w) to (usage +:+ LF)).

Definition validCommand (command : string) : bool :=
  one_of command ["improve_prompt"; "create_goal_prompt"; "create_review_fix_prompt"; "lint_prompt"].

(** A prompt command, after its name was recognised. *)
Definition run_command (command : string) (args : list string) : Shown Z :=
  let '(opt, parseErr) := parseOptions command args in
  match parseErr with
  | Some e => emit w (requestedErrorFormat opt) e
  | None =>
      match loadConfig (wo_config w) (wo_open_config w) (op_configPath opt) (flags_layer opt) with
      | Err e => emit w (requestedErrorFormat opt) e
      | Ok cfg =>
          fun t =>
            let '(shown, t) := if op_isShowProvenance opt then show (wo_screen w) Errors (formatProvenance (cf_Provenance cfg) +:+ LF) t
                               else (true, t) in
            if negb shown then (exitInternal, t)
            else match readInput (wo_input w) (op_inputPath opt) (op_positional opt) (cf_MaxInputBytes cfg) with
                 | Err e => emit w (cf_Format cfg) e t
                 | Ok data =>
                     if command =s "improve_prompt" then runImprove w opt cfg data t
                     else if command =s "create_goal_prompt" then runGoal w opt cfg data t
                     else if command =s "create_review_fix_prompt" then runReview w opt cfg data t
                     else if command =s "lint_prompt" then runLint w opt cfg data t
                     else (exitInternal, t)
                 end
      end
  end.

(** [setup] runs [doctor] and [init], which are another package. *)
Definition Run (setup : string -> list string -> Shown Z) (streams : bool) (args : list string) : Shown Z :=
  fun t =>
    if negb streams then (exitInternal, t)
    else match args with
         | [] => let '(code, t) := writeUsage Errors t in (if (code =? exitOK)%Z then exitInvalid else exitInternal, t)
         | command :: rest =>
             if one_of command ["help"; "--help"; "-h"] then writeUsage Output t
             else if one_of command ["version"; "--version"] then runVersion args t
             else if one_of command ["doctor"; "init"] then setup command rest t
             else if command =s "audit" then runAudit rest t
             else if negb (validCommand command) then emit w "text" (invalid "unknown command" "command") t
             else run_command command rest t
         end.
End Run.
