(* ===== verification/Commands.v ===== *)
(** * What the commands do (internal/cli): theorems *)
From Stdlib Require Import Ascii.
From S2P Require Import Contracts GoString Utf8 Textutil Policy PolicyPack Discovery Engine Compiler Lint Report GoFlag Config Cli CliRun.

(** ** Exit codes *)

Lemma exitFor_failure e : exitFor e <> exitOK.
Proof. unfold exitFor. repeat case_goal; discriminate. Qed.

(** A terminal that takes all writes, and values that can be encoded. *)
Record calm (w : World) : Prop := {
  ca_screen : forall n, sc_fails (wo_screen w) n = false;
  ca_encode : forall v, is_Some (wo_encode w v)
}.

(** What an error looks like. *)
Definition said (w : World) (format : string) (e : StableError) : string :=
  (if format =s "json" then default "" (wo_encode w (JsonError e)) else error_text e) +:+ LF.

(** ** What a command line means *)

(** How a command ends: with a result, with the verdict of the linter, with an error, or with the
    usage because there was no command. *)
Inductive Reply :=
  | Answer (text : string)
  | Verdict (format : string) (r : LintPromptResult)
  | Refusal (format : string) (e : StableError)
  | Misused.

Section Meaning.
Context (w : World) (store : AuditStore) (info : Info).

(** A value as the format has it. *)
Definition formatted (format : string) (v : JsonValue) (text : string) : string :=
  (if format =s "json" then default "" (wo_encode w v) else text) +:+ LF.

Definition lint_text (format : string) (r : LintPromptResult) : string :=
  if format =s "json" then default "" (wo_encode w (JsonLint r)) +:+ LF
  else match lpr_Diagnostics r with
       | [] => "valid" +:+ LF
       | diagnostics => str_concat (diagnostic_line <$> diagnostics)
       end.

(** What each of them is on the standard output, on the error stream, and as a code. *)
Definition printed (r : Reply) : string :=
  match r with
  | Answer text => text
  | Verdict format r => lint_text format r
  | Refusal _ _ | Misused => ""
  end.

Definition complaint (r : Reply) : string :=
  match r with
  | Answer _ | Verdict _ _ => ""
  | Refusal format e => said w format e
  | Misused => usage +:+ LF
  end.

Definition code_of (r : Reply) : Z :=
  match r with
  | Answer _ => exitOK
  | Verdict _ r => if lpr_Valid r then exitOK else exitSemantic
  | Refusal _ e => exitFor e
  | Misused => exitInvalid
  end.

Definition reply {A} (format : string) (r : result StableError A) (f : A -> Reply) : Reply :=
  match r with Ok x => f x | Err e => Refusal format e end.

(** A prompt command, on the text it read. *)
Definition prompt_reply (command : string) (opt : options) (cfg : Config) (data : string) : Reply :=
  let format := cf_Format cfg in
  if command =s "improve_prompt"
  then reply format (improve_result w opt cfg data) (fun r => Answer (formatted format (JsonImprove r) (ipr_ImprovedPrompt r)))
  else if command =s "create_goal_prompt"
  then reply format (goal_result w opt data) (fun r => Answer (formatted format (JsonGoal r) (cgr_GoalPrompt r)))
  else if command =s "create_review_fix_prompt"
  then reply format (review_result w opt data) (fun r => Answer (formatted format (JsonReview r) (crr_FixPrompt r)))
  else reply format (lint_result w opt data) (Verdict format).

(** The notes, and the reply. *)
Definition prompt_ending (command : string) (args : list string) : string * Reply :=
  match parseOptions command args with
  | (opt, Some e) => ("", Refusal (requestedErrorFormat opt) e)
  | (opt, None) =>
      match loadConfig (wo_config w) (wo_open_config w) (op_configPath opt) (flags_layer opt) with
      | Err e => ("", Refusal (requestedErrorFormat opt) e)
      | Ok cfg =>
          (if op_isShowProvenance opt then formatProvenance (cf_Provenance cfg) +:+ LF else "",
           reply (cf_Format cfg) (readInput (wo_input w) (op_inputPath opt) (op_positional opt) (cf_MaxInputBytes cfg))
             (prompt_reply command opt cfg))
      end
  end.

Definition version_reply (args : list string) : Reply :=
  let p := flag_parse (fun name => if name =s "format" then Some StringFlag else None) (tail args) in
  let plain := default "" (head args) =s "--version" in
  let format := if plain then "text" else flag_string "format" "text" p in
  if (if plain then (length args =? 1)%nat else pd_ok p && (length (pd_args p) =? 0)%nat)
  then if one_of format ["text"; "json"] then Answer (if format =s "text" then info_line info else formatted "json" (JsonInfo info) "")
       else Refusal "text" (invalid "unsupported version format" "format")
  else Refusal "text" (invalid "invalid version flags" "flags").

Definition audited (format : string) (r : AuditProjectResult) : Reply :=
  if format =s "json"
  then let encoded := default "" (as_marshal store r) in
       if (MaxResultBytes <? str_len encoded + 1)%Z
       then Refusal format (NewError ErrorCodeBudgetExhausted "audit result exceeds output budget" "result" false)
       else Answer (encoded +:+ LF)
  else Answer (audit_line r).

Definition audit_reply (args : list string) : Reply :=
  let p := flag_parse audit_flags args in
  let format := flag_string "format" "json" p in
  let time name := as_parse_time store (flag_string name "" p) in
  if negb (pd_ok p && (length (pd_args p) =? 0)%nat) then Refusal "text" (invalid "invalid audit flags" "flags")
  else match time "starts-at", time "ends-at", time "as-of", one_of format ["json"; "text"] with
       | Some start, Some end_, Some asOf, true =>
           if (as_dsn store =s "") || negb (as_opens store)
           then Refusal format (NewError ErrorCodeCoverageIncomplete "project audit store unavailable" "reference" true)
           else match as_audit store (audit_request p start end_ asOf) with
                | Ok r => audited format r
                | Err e => Refusal format (asStable e)
                end
       | _, _, _, _ => Refusal "text" (invalid "invalid audit window or format" "flags")
       end.

(** The notes and the reply of every command but those of the setup. *)
Definition ending (args : list string) : string * Reply :=
  match args with
  | [] => ("", Misused)
  | command :: rest =>
      if one_of command ["help"; "--help"; "-h"] then ("", Answer (usage +:+ LF))
      else if one_of command ["version"; "--version"] then ("", version_reply args)
      else if command =s "audit" then ("", audit_reply rest)
      else if validCommand command then prompt_ending command rest
      else ("", Refusal "text" (invalid "unknown command" "command"))
  end.
End Meaning.

Section Calm.
Context (w : World) (Hc : calm w).

Lemma show_calm to data t :
  show (wo_screen w) to data t
  = (true, match to with
           | Output => mkTerminal (tm_out t +:+ data) (tm_err t) (S (tm_writes t))
           | Errors => mkTerminal (tm_out t) (tm_err t +:+ data) (S (tm_writes t))
           end).
Proof. unfold show. by rewrite (ca_screen w Hc). Qed.

Lemma writeJSON_calm to v t :
  exists encoded, wo_encode w v = Some encoded /\ writeJSON w to v t = show (wo_screen w) to (encoded +:+ LF) t.
Proof. unfold writeJSON. destruct (ca_encode w Hc v) as [encoded E]. rewrite E. by exists encoded. Qed.

Lemma emit_calm format e t :
  emit w format e t = (exitFor e, mkTerminal (tm_out t) (tm_err t +:+ said w format e) (S (tm_writes t))).
Proof.
  unfold emit, emitError, writeStableError, said. cbn [asStable]. destruct (format =s "json").
  - destruct (writeJSON_calm Errors (JsonError e) t) as (encoded & -> & ->). rewrite show_calm. done.
  - rewrite show_calm. done.
Qed.

Lemma emitResult_calm format v text t :
  emitResult w format v text t
  = (exitOK, mkTerminal (tm_out t +:+ formatted w format v text) (tm_err t) (S (tm_writes t))).
Proof.
  unfold emitResult, formatted. destruct (format =s "json").
  - destruct (writeJSON_calm Output v t) as (encoded & -> & ->). by rewrite show_calm.
  - by rewrite show_calm.
Qed.

Lemma print_calm to data t :
  print_or_fail (show (wo_screen w) to data) t
  = (exitOK, match to with
             | Output => mkTerminal (tm_out t +:+ data) (tm_err t) (S (tm_writes t))
             | Errors => mkTerminal (tm_out t) (tm_err t +:+ data) (S (tm_writes t))
             end).
Proof. unfold print_or_fail. by rewrite show_calm. Qed.

(** The run ended with the reply on the terminal. *)
Definition ended (t : Terminal) (notes : string) (r : Reply) (out : Z * Terminal) : Prop :=
  out.1 = code_of r
  /\ exists n, out.2 = mkTerminal (tm_out t +:+ printed w r) (tm_err t +:+ notes +:+ complaint w r) n.

(** The terminal a command starts from has the notes already. *)
Definition noted (t t1 : Terminal) (notes : string) : Prop := tm_out t1 = tm_out t /\ tm_err t1 = tm_err t +:+ notes.

Lemma noted_same t : noted t t "".
Proof. split; [done|by rewrite str_app_nil_r]. Qed.

Lemma refused t t1 notes format e : noted t t1 notes -> ended t notes (Refusal format e) (emit w format e t1).
Proof.
  intros [H1 H2]. rewrite emit_calm, H1, H2, str_app_assoc. split; [done|]. eexists. cbn [snd printed]. by rewrite str_app_nil_r.
Qed.

Lemma answered t t1 notes r code text n : noted t t1 notes -> code_of r = code -> printed w r = text -> complaint w r = "" ->
  ended t notes r (code, mkTerminal (tm_out t1 +:+ text) (tm_err t1) n).
Proof. intros [-> ->] <- <- E. split; [done|]. rewrite E, str_app_nil_r. by eexists. Qed.

Lemma resulted {A} t t1 notes format (r : result StableError A) v text :
  noted t t1 notes ->
  ended t notes (reply format r (fun x => Answer (formatted w format (v x) (text x))))
    (match r with Err e => emit w format e | Ok x => emitResult w format (v x) (text x) end t1).
Proof.
  intros Hn. destruct r as [x|e]; cbn [reply]; [|by apply refused]. rewrite emitResult_calm. by apply answered.
Qed.

Lemma write_lines_calm lines t :
  exists n, write_lines w lines t = (true, mkTerminal (tm_out t +:+ str_concat lines) (tm_err t) n).
Proof.
  revert t. induction lines as [|line lines IH]; intros [o e m]; cbn [write_lines].
  - exists m. cbn. by rewrite str_app_nil_r.
  - rewrite show_calm. cbn [tm_out tm_err tm_writes]. destruct (IH (mkTerminal (o +:+ line) e (S m))) as [n ->]. exists n. cbn [tm_out tm_err str_concat foldr].
    by rewrite str_app_assoc.
Qed.

Lemma writeLint_calm format r t :
  exists n, writeLint w format r t = (true, mkTerminal (tm_out t +:+ lint_text w format r) (tm_err t) n).
Proof.
  unfold writeLint, lint_text. destruct (format =s "json").
  { destruct (writeJSON_calm Output (JsonLint r) t) as (encoded & -> & ->). rewrite show_calm. eauto. }
  destruct (lpr_Diagnostics r) as [|d ds]; [rewrite show_calm; eauto|apply write_lines_calm].
Qed.

Lemma lint_ended t t1 notes opt cfg data :
  noted t t1 notes -> ended t notes (reply (cf_Format cfg) (lint_result w opt data) (Verdict (cf_Format cfg))) (runLint w opt cfg data t1).
Proof.
  intros Hn. unfold runLint. destruct (lint_result w opt data) as [r|e]; cbn [reply]; [|by apply refused].
  destruct (writeLint_calm (cf_Format cfg) r t1) as (n & ->). cbn [negb]. by apply answered.
Qed.

Lemma command_ended t command args :
  validCommand command = true ->
  ended t (prompt_ending w command args).1 (prompt_ending w command args).2 (run_command w command args t).
Proof.
  intros Hcommand. unfold run_command, prompt_ending. pose proof (noted_same t) as H0.
  destruct (parseOptions command args) as [opt [e|]]; [by apply (refused t t)|].
  destruct (loadConfig _ _ _ _) as [cfg|e]; [|by apply (refused t t)].
  cbn [fst snd]. set (notes := if op_isShowProvenance opt then _ else _).
  assert (exists t1, noted t t1 notes
    /\ (if op_isShowProvenance opt then show (wo_screen w) Errors (formatProvenance (cf_Provenance cfg) +:+ LF) t else (true, t)) = (true, t1))
    as (t1 & Hn & ->).
  { unfold notes. destruct (op_isShowProvenance opt); [rewrite show_calm|]; eexists; (split; [|reflexivity]); [done|apply noted_same]. }
  cbn [negb]. destruct (readInput _ _ _ _) as [data|e]; cbn [reply]; [|by apply refused].
  unfold prompt_reply, runImprove, runGoal, runReview.
  destruct (command =s "improve_prompt") eqn:E1; [by apply (resulted _ _ _ _ (improve_result w opt cfg data) JsonImprove)|].
  destruct (command =s "create_goal_prompt") eqn:E2; [by apply (resulted _ _ _ _ (goal_result w opt data) JsonGoal)|].
  destruct (command =s "create_review_fix_prompt") eqn:E3; [by apply (resulted _ _ _ _ (review_result w opt data) JsonReview)|].
  destruct (command =s "lint_prompt") eqn:E4; [by apply lint_ended|].
  exfalso. apply str_eqb_neq in E1, E2, E3, E4. unfold validCommand, one_of in Hcommand. apply contains_spec in Hcommand. set_solver.
Qed.

Lemma one_of_two x a b : one_of x [a; b] = (x =s a) || (x =s b).
Proof.
  apply eq_true_iff_eq. unfold one_of. rewrite contains_spec, orb_true_iff, !str_eqb_eq. set_solver.
Qed.

Lemma version_ended info t command rest :
  one_of command ["version"; "--version"] = true ->
  ended t "" (version_reply w info (command :: rest)) (runVersion w info (command :: rest) t).
Proof.
  intros Hcommand. pose proof (noted_same t) as Hn. unfold runVersion, version_reply. cbn [head tail default].
  set (p := flag_parse _ _). set (bad := invalid "invalid version flags" "flags").
  assert (forall format, ended t "" (if one_of format ["text"; "json"]
                                     then Answer (if format =s "text" then info_line info else formatted w "json" (JsonInfo info) "")
                                     else Refusal "text" (invalid "unsupported version format" "format"))
            ((if format =s "text" then print_or_fail (show (wo_screen w) Output (info_line info))
              else if format =s "json" then print_or_fail (writeJSON w Output (JsonInfo info))
              else emit w "text" (invalid "unsupported version format" "format")) t)) as Hformat.
  { intros format. rewrite one_of_two. destruct (format =s "text") eqn:E1.
    - apply str_eqb_eq in E1 as ->. rewrite print_calm. by apply answered.
    - destruct (format =s "json") eqn:E2.
      + apply str_eqb_eq in E2 as ->. unfold print_or_fail.
        destruct (writeJSON_calm Output (JsonInfo info) t) as (encoded & E & ->). rewrite show_calm.
        apply answered; [done..| |done]. unfold formatted. by rewrite E.
      + by apply refused. }
  unfold one_of in Hcommand. apply contains_spec in Hcommand.
  assert (command = "version" \/ command = "--version") as [->| ->] by set_solver.
  - change ("version" =s "--version") with false. change ("version" =s "version") with true. cbn [andb].
    destruct (pd_ok p && (length (pd_args p) =? 0)%nat) eqn:E.
    + apply andb_true_iff in E as [-> ->]. apply Hformat.
    + rewrite <- negb_andb, E. by apply refused.
  - change ("--version" =s "--version") with true. change ("--version" =s "version") with false. cbn [andb].
    destruct (length _ =? 1)%nat; cbn [negb]; [apply (Hformat "text")|by apply refused].
Qed.

Lemma audit_ended store t args :
  (forall r, is_Some (as_marshal store r)) -> ended t "" (audit_reply store args) (runAudit w store args t).
Proof.
  intros Hm. pose proof (noted_same t) as Hn. unfold runAudit, audit_reply. set (p := flag_parse _ _).
  set (format := flag_string "format" "json" p). rewrite negb_andb.
  destruct (_ || _); [by apply refused|]. destruct (as_parse_time _ _) as [start|]; [|by apply refused].
  destruct (as_parse_time _ _) as [end_|]; [|by apply refused]. destruct (as_parse_time _ _) as [asOf|]; [|by apply refused].
  rewrite one_of_two, <- (negb_involutive (_ || _)), negb_orb.
  destruct (_ && _); cbn [negb]; [by apply refused|]. destruct (_ || _); [by apply refused|].
  destruct (as_audit _ _) as [r|e]; [|exact (refused t t "" format (asStable e) Hn)].
  unfold audited. destruct (format =s "json"); [|rewrite print_calm; by apply answered].
  destruct (Hm r) as [encoded ->]. cbn [default]. destruct (_ <? _)%Z; [by apply refused|].
  rewrite print_calm. by apply answered.
Qed.
End Calm.

(** ** Replies *)

Lemma LF_end s : s +:+ LF <> "".
Proof. intros H. apply (f_equal String.length) in H. rewrite length_str_app in H. cbn in H. lia. Qed.

Lemma lint_text_nonempty w format r : lint_text w format r <> "".
Proof.
  unfold lint_text. destruct (format =s "json"); [apply LF_end|]. destruct (lpr_Diagnostics r) as [|d ds]; [discriminate|].
  cbn [fmap list_fmap str_concat foldr]. unfold diagnostic_line. intros H. apply (f_equal String.length) in H.
  rewrite !length_str_app in H. cbn in H. lia.
Qed.

Lemma said_nonempty w format e : said w format e <> "".
Proof. apply LF_end. Qed.

(** A reply that can come from a command line: its text ends a line. *)
Definition proper (r : Reply) : Prop := match r with Answer text => text <> "" | _ => True end.

Lemma proper_reply {A} format (r : result StableError A) f : (forall x, proper (f x)) -> proper (reply format r f).
Proof. intros H. destruct r; [apply H|done]. Qed.

Lemma ending_proper w store info args : proper (ending w store info args).2.
Proof.
  unfold ending. destruct args as [|command rest]; [done|].
  destruct (one_of _ _); [apply LF_end|]. destruct (one_of _ _); cbn [snd].
  { unfold version_reply. set (p := flag_parse _ _). clearbody p. repeat case_goal; cbn [proper]; try done; try apply LF_end; unfold info_line; intros H; discriminate H. }
  destruct (_ =s _); cbn [snd].
  { unfold audit_reply, audited. repeat case_goal; cbn [proper]; try done; try apply LF_end; unfold audit_line; intros H; discriminate H. }
  destruct (validCommand command); [|done]. unfold prompt_ending. destruct (parseOptions _ _) as [opt [e|]]; [done|].
  destruct (loadConfig _ _ _ _); [|done]. apply proper_reply. intros data. unfold prompt_reply.
  repeat case_goal; apply proper_reply; intros r; [apply LF_end..|done].
Qed.

(** Only the linter gives a verdict. *)
Lemma ending_verdict w store info args format r :
  (ending w store info args).2 = Verdict format r -> head args = Some "lint_prompt".
Proof.
  unfold ending. destruct args as [|command rest]; [done|]. cbn [head].
  destruct (one_of _ _); [done|]. destruct (one_of _ _); cbn [snd].
  { unfold version_reply. set (p := flag_parse _ _). clearbody p. repeat case_goal; discriminate. }
  destruct (_ =s _); cbn [snd]; [unfold audit_reply, audited; repeat case_goal; discriminate|].
  destruct (validCommand command) eqn:Hcommand; [|done]. unfold prompt_ending. destruct (parseOptions _ _) as [opt [e|]]; [done|].
  destruct (loadConfig _ _ _ _); [|done]. cbn [snd]. unfold reply at 1. destruct (readInput _ _ _ _); [|done]. unfold prompt_reply.
  destruct (command =s "improve_prompt") eqn:E1; [unfold reply; by case_goal|].
  destruct (command =s "create_goal_prompt") eqn:E2; [unfold reply; by case_goal|].
  destruct (command =s "create_review_fix_prompt") eqn:E3; [unfold reply; by case_goal|].
  intros _. apply str_eqb_neq in E1, E2, E3. unfold validCommand, one_of in Hcommand. apply contains_spec in Hcommand.
  f_equal. set_solver.
Qed.

(** The reply is what is written. *)
Lemma Run_ended w store info setup args t :
  calm w -> (forall r, is_Some (as_marshal store r)) ->
  (forall rest, args <> "doctor" :: rest /\ args <> "init" :: rest) ->
  ended w t (ending w store info args).1 (ending w store info args).2 (Run w store info setup true args t).
Proof.
  intros Hc Hm Hs. unfold Run, ending. cbn [negb]. pose proof (noted_same t) as Hn. destruct args as [|command rest].
  { unfold writeUsage. rewrite print_calm by done. split; [done|]. eexists. cbn. by rewrite str_app_nil_r. }
  destruct (one_of command ["help"; _; _]).
  { unfold writeUsage. rewrite print_calm by done. by apply answered. }
  destruct (one_of command ["version"; _]) eqn:Ev; [by apply version_ended|].
  destruct (one_of command ["doctor"; "init"]) eqn:Ed.
  { exfalso. apply contains_spec in Ed. destruct (Hs rest). set_solver. }
  destruct (command =s "audit"); [by apply audit_ended|].
  destruct (validCommand command) eqn:Ec; cbn [negb]; [by apply command_ended|by apply refused].
Qed.

(** What a reply says with its streams and its code. *)
Lemma reply_facts w args r :
  proper r -> (forall format l, r = Verdict format l -> head args = Some "lint_prompt") ->
  (code_of r = exitOK <-> (exists text, r = Answer text) \/ exists format l, r = Verdict format l /\ lpr_Valid l = true)
  /\ (printed w r <> "" -> complaint w r = ""
       /\ (code_of r = exitOK
           \/ code_of r = exitSemantic /\ head args = Some "lint_prompt" /\ exists format l, r = Verdict format l /\ lpr_Valid l = false))
  /\ (printed w r = "" -> complaint w r <> "" /\ code_of r <> exitOK).
Proof.
  intros Hp Hv. destruct r as [text|format l|format e|]; cbn [code_of printed complaint].
  - split; [split; [by left; exists text|done]|]. split; [by split; [|left]|]. by intros ?%Hp.
  - split; [|split; [|by intros ?%lint_text_nonempty]].
    + destruct (lpr_Valid l) eqn:El; (split; [intros H|intros [(text & [=])|(f & l' & [= <- <-] & H)]; congruence]); [|discriminate H].
      right. by exists format, l.
    + intros _. split; [done|]. destruct (lpr_Valid l) eqn:El; [by left|right]. split; [done|]. split; [by apply (Hv format l)|].
      by exists format, l.
  - split; [|split; [done|intros _; split; [apply said_nonempty|apply exitFor_failure]]].
    split; [by intros ?%exitFor_failure|]. by intros [(text & [=])|(f & l' & [=] & _)].
  - split; [split; [done|by intros [(text & [=])|(f & l' & [=] & _)]]|]. by split.
Qed.

(** C17: a script can trust the two streams and the code.  When the terminal takes what is written,
    every run but of the setup commands writes exactly its reply, which [ending] computes from the
    command line without a terminal: on the standard output the result, in the format that was
    asked for, or nothing; on the error stream the notes on the settings, if they were asked for, and
    then nothing, exactly one error, or the usage; and the code of the reply.  So the code is 0 exactly
    for a result, or for a prompt that [lint_prompt] finds valid, with no error on the error stream;
    a result that comes with another code is the verdict of [lint_prompt] on a prompt that is not
    valid, with the code 3; without a result there is an error and its code, which is not 0. *)
Theorem Run_ends w store info setup args t code t' :
  calm w -> (forall r, is_Some (as_marshal store r)) ->
  (forall rest, args <> "doctor" :: rest /\ args <> "init" :: rest) ->
  Run w store info setup true args t = (code, t') ->
  let '(notes, r) := ending w store info args in
  code = code_of r
  /\ (exists n, t' = mkTerminal (tm_out t +:+ printed w r) (tm_err t +:+ notes +:+ complaint w r) n)
  /\ (code = exitOK <-> (exists text, r = Answer text) \/ exists format l, r = Verdict format l /\ lpr_Valid l = true)
  /\ (printed w r <> "" -> complaint w r = ""
       /\ (code = exitOK
           \/ code = exitSemantic /\ head args = Some "lint_prompt" /\ exists format l, r = Verdict format l /\ lpr_Valid l = false))
  /\ (printed w r = "" -> complaint w r <> "" /\ code <> exitOK).
Proof.
  intros Hc Hm Hs E. pose proof (Run_ended w store info setup args t Hc Hm Hs) as [Hcode Hscreen]. rewrite E in Hcode, Hscreen.
  pose proof (ending_proper w store info args) as Hp.
  assert (forall format l, (ending w store info args).2 = Verdict format l -> head args = Some "lint_prompt") as Hv
    by apply ending_verdict.
  destruct (ending w store info args) as [notes r]. cbn [fst snd] in *. split; [done|]. split; [done|]. subst code.
  exact (reply_facts w args r Hp Hv).
Qed.

(** ** improve_prompt, from the command line to the terminal *)

Definition plain_request (text : string) : ImprovePromptRequest :=
  mkImprovePromptRequest SchemaVersion "request" text ExecutionPolicyImproveOnly None None.

(** C18: what the command line prints is what the compiler makes of the text.  Whatever the text,
    when it is no flag, at most 16384 bytes of UTF-8 and not blank, [prompt-better improve_prompt
    text] prints exactly the prompt of [compiler.Improve] on that text under the safest policy, with
    the code 0, or exactly its error with the code of the error. *)
Theorem Run_improve_text w store info setup text t :
  calm w -> (has_prefix "-" text = false \/ (String.length text < 2)%nat) ->
  (str_len text <= 16384)%Z -> valid_utf8 text = true -> trim_space text <> "" -> ow_close (in_stdin (wo_input w)) = true ->
  Run w store info setup true ["improve_prompt"; text] t
  = match Improve (wo_done w) (plain_request text) HostUnknown with
    | Ok r => (exitOK, mkTerminal (tm_out t +:+ ipr_ImprovedPrompt r +:+ LF) (tm_err t) (S (tm_writes t)))
    | Err e => (exitFor e, mkTerminal (tm_out t) (tm_err t +:+ error_text e +:+ LF) (S (tm_writes t)))
    end.
Proof.
  intros Hc Hf Hl Hv Hb Hi.
  assert (parseOptions "improve_prompt" [text] = (options_of (mkParsed [] true [text]) [text], None)) as Hp.
  { unfold parseOptions. assert (flag_parse command_flags [text] = mkParsed [] true [text]) as ->; [|reflexivity].
    cbn [flag_parse]. assert ((String.length text <? 2)%nat || negb (has_prefix "-" text) = true) as ->; [|done].
    destruct Hf as [->|Hf]; [apply orb_true_r|]. by rewrite (proj2 (Nat.ltb_lt _ _)). }
  set (opt := options_of (mkParsed [] true [text]) [text]) in Hp.
  assert (loadConfig (wo_config w) (wo_open_config w) (op_configPath opt) (flags_layer opt) = Ok Default) as Hcfg by (vm_compute; reflexivity).
  assert (readInput (wo_input w) (op_inputPath opt) (op_positional opt) (cf_MaxInputBytes Default) = Ok text) as Hr.
  { unfold opt, readInput. cbn [op_inputPath op_positional options_of length Nat.eqb negb]. change (flag_string "input" "" _ =s "") with true.
    cbn [negb andb]. rewrite Hi. cbn [negb str_join]. unfold validateInput. change (cf_MaxInputBytes Default) with 16384%Z.
    rewrite (proj2 (Z.ltb_ge _ _)), Hv by done. cbn [negb]. destruct (_ =? 0)%Z eqn:E; [|done]. apply Z.eqb_eq in E. destruct Hb.
    destruct (trim_space text); [done|]. rewrite str_len_cons in E. pose proof (str_len_nonneg s). lia. }
  unfold Run. cbn [negb]. change (one_of "improve_prompt" ["help"; "--help"; "-h"]) with false.
  change (one_of "improve_prompt" ["version"; "--version"]) with false. change (one_of "improve_prompt" ["doctor"; "init"]) with false.
  change ("improve_prompt" =s "audit") with false. change (validCommand "improve_prompt") with true. cbn [negb].
  unfold run_command. rewrite Hp. cbv beta iota. rewrite Hcfg. cbv beta iota. change (op_isShowProvenance opt) with false. cbv beta iota.
  cbn [negb]. rewrite Hr. cbv beta iota. change ("improve_prompt" =s "improve_prompt") with true. cbv beta iota.
  unfold runImprove, improve_result, improve_request. change (op_isRequestJSON opt) with false. cbv beta iota.
  unfold boundaryDecisions, bounded_request. change (op_contextRoot opt =s "") with true. cbv beta iota.
  change (op_isPhaseSet opt) with false. cbv beta iota. change (cf_ExecutionPolicy Default) with ExecutionPolicyImproveOnly.
  change (cf_HostPermission Default) with HostUnknown. fold (plain_request text). change (cf_Format Default) with "text".
  destruct (Improve _ _ _) as [r|e]; cbv beta iota.
  - unfold emitResult. change ("text" =s "json") with false. cbv beta iota. rewrite show_calm by done. done.
  - rewrite emit_calm by done. done.
Qed.

(** ** A repository as context *)

Lemma add_decision_goal plan d : pp_Goal (add_decision plan d) = pp_Goal plan /\ pp_SchemaVersion (add_decision plan d) = pp_SchemaVersion plan.
Proof. unfold add_decision. repeat case_goal; done. Qed.

Lemma bounded_goal plan scopes decisions :
  let plan' := foldl add_decision (foldl add_scope plan scopes) decisions in
  pp_Goal plan' = pp_Goal plan /\ pp_SchemaVersion plan' = pp_SchemaVersion plan.
Proof.
  cbv zeta. assert (pp_Goal (foldl add_scope plan scopes) = pp_Goal plan
    /\ pp_SchemaVersion (foldl add_scope plan scopes) = pp_SchemaVersion plan) as [<- <-].
  { revert plan. induction scopes as [|scope scopes IH]; intros plan; [done|]. cbn [foldl]. destruct (IH (add_scope plan scope)) as [-> ->]. done. }
  generalize (foldl add_scope plan scopes) as p. induction decisions as [|d decisions IH]; intros p; [done|]. cbn [foldl].
  destruct (IH (add_decision p d)) as [-> ->]. apply add_decision_goal.
Qed.

Definition goal_required : StableError := invalid "prompt plan goal is required" "prompt_plan.goal".

(** C37: with a repository as context a prompt of more than 2000 bytes is refused.  The contract
    takes intents of up to 8000 bytes, and without [--context-root] the command does as well; with
    it, [runImprove] puts the default plan of the text into the request, whose goal is the whole
    text, and the goal of a plan in a request is limited to 2000 bytes. *)
Theorem context_root_refuses_long_prompts w opt cfg data decisions intent :
  op_isRequestJSON opt = false -> op_isPhaseSet opt = false -> op_contextRoot opt <> "" ->
  boundaryDecisions (wo_repository w) opt = Ok decisions -> ValidExecutionPolicy (cf_ExecutionPolicy cfg) = true -> wo_done w 0%nat = false ->
  (2000 < str_len data <= 8000)%Z -> Normalize data = Ok intent ->
  improve_result w opt cfg data = Err goal_required
  /\ ValidateImproveRequest (mkImprovePromptRequest SchemaVersion "request" data (cf_ExecutionPolicy cfg) None None) = None.
Proof.
  intros Hj Hp Hr Hb He Hd Hl Hn. split.
  - unfold improve_result, improve_request, bounded_request. rewrite Hj, Hb, Hp, (proj2 (str_eqb_neq _ _) Hr). cbv beta iota.
    cbn [ipq_PromptPlan ipq_Intent default]. unfold Improve, improve, with_plan. rewrite Hd. cbn [checkContext].
    unfold prepareImproveRequest. cbn [ipq_SchemaVersion ipq_Kind ipq_ExecutionPolicy ipq_Intent ipq_PromptPlan].
    rewrite He, !str_eqb_refl, (proj2 (Z.ltb_ge _ _)), Hn by lia. cbn [negb orb].
    destruct (bounded_goal (NewPlan data) (op_scopes opt) decisions) as [Hg Hs]. unfold validatePlan. rewrite Hg, Hs.
    change (pp_SchemaVersion (NewPlan data)) with SchemaVersion. change (pp_Goal (NewPlan data)) with data. rewrite str_eqb_refl. cbn [negb].
    unfold validText. rewrite (proj2 (Z.ltb_lt _ _)) by lia. by rewrite orb_true_r.
  - unfold ValidateImproveRequest, prepareImproveRequest. cbn [ipq_SchemaVersion ipq_Kind ipq_ExecutionPolicy ipq_Intent ipq_PromptPlan ipq_Budget].
    rewrite He, !str_eqb_refl, (proj2 (Z.ltb_ge _ _)), Hn by lia. done.
Qed.

(** ** Examples *)

Definition no_file : Owned := mkOwned "" true true false false false.
Definition calm_screen : Screen := mkScreen (fun _ => false) (fun _ => O).

(** The small repository of [Discovery], without git. *)
Definition small_repository : Repository :=
  mkRepository (fun path => if path =s "repo" then Some (mkFileInfo true false false 0) else None) (fun _ => None)
    (fun _ => mkGitRun [] true false) (fun _ _ => sample_reader)
    (fun _ => Err goal_required) (fun _ => false).

Definition sample_world : World :=
  {| wo_screen := calm_screen; wo_encode := fun _ => Some "{}"; wo_config := fun _ => None;
     wo_open_config := fun _ => mkConfigFile false None None true true false;
     wo_input := mkInput no_file (fun _ => None) (fun _ => None); wo_repository := small_repository;
     wo_decode_improve := fun _ => None; wo_decode_goal := fun _ => None; wo_decode_review := fun _ => None;
     wo_decode_lint := fun _ => None; wo_object := fun _ => None; wo_list := fun _ => None; wo_done := fun _ => false |}.

Lemma sample_calm : calm sample_world.
Proof. split; [done|intros v; by eexists]. Qed.

Definition sample_store : AuditStore := mkAuditStore (fun _ => None) "" false (fun _ => Err None) (fun _ => Some "{}").
Definition sample_info : Info := mkInfo "devel" "unknown" "unknown" "go1.25" "linux" "amd64".
Definition no_setup : string -> list string -> Shown Z := fun _ _ t => (exitOK, t).
Definition blank_terminal : Terminal := mkTerminal "" "" 0.
#[local] Abbreviation sample_run args := (Run sample_world sample_store sample_info no_setup true args blank_terminal).

Definition sample_verdict : LintPromptResult :=
  match lint_result sample_world (parseOptions "lint_prompt" ["Keep it short."]).1 "Keep it short." with
  | Ok r => r
  | Err _ => mkLintPromptResult "" "" false [] []
  end.

Lemma sample_ending :
  ending sample_world sample_store sample_info ["lint_prompt"; "Keep it short."] = ("", Verdict "text" sample_verdict).
Proof. vm_compute. reflexivity. Qed.

(** The verdict on a prompt. *)
Example Run_ends_witness :
  (sample_run ["lint_prompt"; "Keep it short."]).1 = (if lpr_Valid sample_verdict then exitOK else exitSemantic)
  /\ tm_out (sample_run ["lint_prompt"; "Keep it short."]).2 = lint_text sample_world "text" sample_verdict.
Proof.
  destruct (sample_run ["lint_prompt"; "Keep it short."]) as [code t'] eqn:E. cbn [fst snd].
  assert (forall rest, ["lint_prompt"; "Keep it short."] <> "doctor" :: rest /\ ["lint_prompt"; "Keep it short."] <> "init" :: rest) as Hs
    by (intros rest; split; intros H; inversion H).
  assert (forall r, is_Some (as_marshal sample_store r)) as Hm by (intros r; by eexists).
  pose proof (Run_ends sample_world sample_store sample_info no_setup ["lint_prompt"; "Keep it short."] blank_terminal code t'
                sample_calm Hm Hs E) as H.
  rewrite sample_ending in H. destruct H as (Hcode & (n & Ht) & _). split; [exact Hcode|]. rewrite Ht. reflexivity.
Defined.

Example Run_improve_text_witness :
  exists r, Improve (fun _ => false) (plain_request "Summarise the open incidents.") HostUnknown = Ok r
    /\ sample_run ["improve_prompt"; "Summarise the open incidents."] = (exitOK, mkTerminal (ipr_ImprovedPrompt r +:+ LF) "" 1).
Proof.
  eexists. split; [vm_compute; reflexivity|].
  rewrite (Run_improve_text sample_world sample_store sample_info no_setup "Summarise the open incidents." blank_terminal sample_calm);
    [vm_compute; reflexivity|left; reflexivity|vm_compute; discriminate|vm_compute; reflexivity|vm_compute; discriminate|reflexivity].
Defined.

(** Other ends: a flag that is not known, a bad setting, and no command. *)
Example sample_runs :
  (fun args => (sample_run args).1) <$> [["improve_prompt"; "--nonsense"]; ["improve_prompt"; "--timeout"; "2m"; "x"]; []; ["version"];
    ["create_goal_prompt"; "--scope"; "a"; "x"]; ["audit"]; ["frobnicate"]; ["improve_prompt"; "--max-input-bytes=3"; "long"]]
  = [2; 2; 2; 0; 2; 2; 2; 2]%Z.
Proof. vm_compute. reflexivity. Qed.

Definition long_prompt : string := str_concat (replicate (Z.to_nat 2001) "a").
Definition sample_options : options := (parseOptions "improve_prompt" ["--context-root"; "repo"; "--scope"; "src"; long_prompt]).1.

Lemma sample_decisions : exists decisions, boundaryDecisions (wo_repository sample_world) sample_options = Ok decisions.
Proof. eexists. vm_compute. reflexivity. Qed.

Lemma long_prompt_normal : exists intent, Normalize long_prompt = Ok intent.
Proof. eexists. vm_compute. reflexivity. Qed.

Example context_root_refuses_long_prompts_witness :
  improve_result sample_world sample_options Default long_prompt = Err goal_required
  /\ exists r, Improve (wo_done sample_world) (plain_request long_prompt) HostUnknown = Ok r.
Proof.
  split; [|eexists; vm_compute; reflexivity].
  destruct sample_decisions as [decisions E]. destruct long_prompt_normal as [intent En].
  apply (context_root_refuses_long_prompts sample_world sample_options Default long_prompt decisions intent);
    [vm_compute; reflexivity|vm_compute; reflexivity|vm_compute; discriminate|exact E|reflexivity|reflexivity|split; vm_compute; done|exact En].
Defined.
