(* ===== verification/Display.v ===== *)
(** * Untrusted text in reports (internal/report/render.go)

    [clean] leaves no control, bidirectional override, line break or angle bracket in a
    text; [md] escapes what is left of Markdown; a table cell is short and keeps its
    column; wrapped lines keep their width. *)
From S2P Require Import Contracts Unicode Utf8 Runes GoFmt Textutil Regex Report ReportRender.
From Stdlib Require Import Ascii.

(** ** [clean] *)

(** The code points a cleaned text may hold, before and after angle brackets are
    replaced. *)
Definition plain_rune (r : Z) : Prop :=
  is_control r = false /\ is_bidi r = false /\ (is_space r = true -> r = 32%Z).

Definition display_rune (r : Z) : Prop := plain_rune r /\ r <> 60%Z /\ r <> 62%Z.

Ltac const_runes :=
  split; [reflexivity|repeat constructor; first [done|by intros]].

Lemma clean_runes_plain l space started :
  Forall scalar l -> made_of plain_rune (clean_runes l space started).
Proof.
  intros Hl. revert space started.
  induction Hl as [|r l Hr _ IH]; intros space started; cbn [clean_runes]; [apply made_of_nil|].
  destruct (is_control r) eqn:E1; cbn [orb]; [apply IH|].
  destruct (is_bidi r) eqn:E2; cbn [orb]; [apply IH|].
  destruct (is_space r) eqn:E3; [apply IH|].
  assert (made_of plain_rune (encode_rune r)) as He.
  { apply made_of_encode; [done|]. split_and!; [done..|]. by rewrite E3. }
  destruct (space && started).
  - apply made_of_app; [const_runes|]. apply made_of_app; [done|apply IH].
  - apply made_of_app; [done|apply IH].
Qed.

Lemma angle_display s : made_of plain_rune s -> made_of display_rune (replace_bytes angle s).
Proof.
  apply made_of_replace_bytes; unfold angle.
  - intros c Hc Hp. destruct (Ascii.eqb_spec c "<") as [->|H1]; [const_runes|].
    destruct (Ascii.eqb_spec c ">") as [->|H2]; [const_runes|].
    rewrite <- (str_app_nil_r (String c "")). apply made_of_app; [|apply made_of_nil].
    replace (String c "") with (encode_rune (byte c)).
    + pose proof (byte_range c). apply made_of_encode; [unfold scalar; lia|].
      split_and!; [done|..]; intros E; [apply H1|apply H2];
        by rewrite <- (byte_char_byte c), E.
    + unfold encode_rune. pose proof (byte_range c).
      rewrite (proj2 (in_range_spec _ _ _)) by lia. by rewrite byte_char_byte.
  - intros c Hc. destruct (Ascii.eqb_spec c "<") as [->|]; [done|].
    by destruct (Ascii.eqb_spec c ">") as [->|].
  - intros r Hr Hp. split_and!; [done|lia|lia].
Qed.

Lemma has_suffix_split suffix s :
  has_suffix suffix s = true -> s = str_take (String.length s - String.length suffix) s +:+ suffix.
Proof.
  assert (forall n t, t = str_take n t +:+ str_drop n t) as Hsplit.
  { clear. induction n as [|n IH]; intros [|a t]; try done. cbn. rewrite str_app_cons. f_equal. apply IH. }
  unfold has_suffix. intros H. bool_facts. rewrite (Hsplit (String.length s - String.length suffix)%nat s) at 1.
  by rewrite H0.
Qed.

Lemma neutral_display matched : made_of display_rune matched -> made_of display_rune (neutral_match matched).
Proof.
  intros Hm. unfold neutral_match. case_goal; [const_runes|].
  apply made_of_app; [|const_runes]. unfold trim_suffix. case_goal; [|done].
  apply has_suffix_split in E0. apply (made_of_prefix _ _ ":"); [done|]. by rewrite <- E0.
Qed.

Lemma replace_matches_display r f p skip w :
  (forall m, made_of display_rune m -> made_of display_rune (f m)) ->
  Forall scalar w -> Forall display_rune w -> made_of display_rune (replace_matches r f p skip w).
Proof.
  intros Hf. revert p skip. induction w as [|c w IH]; intros p skip Hs Hd; cbn [replace_matches];
    [apply made_of_nil|].
  pose proof Hs as [Hc Hw]%Forall_cons. pose proof Hd as [Hdc Hdw]%Forall_cons.
  destruct skip as [|k]; [|by apply IH].
  assert (made_of display_rune (encode_rune c +:+ replace_matches r f (Some c) 0 w)) as Hstep.
  { apply made_of_app; [by apply made_of_encode|by apply IH]. }
  destruct (match_length r p (c :: w)) as [[|n]|]; [done| |done].
  apply made_of_app; [|by apply IH]. apply Hf, made_of_of_runes.
  - by apply Forall_take.
  - by apply Forall_take.
Qed.

Lemma clean_made_of value : made_of display_rune (clean value).
Proof.
  unfold clean, neutralizeSchemes.
  assert (made_of display_rune (replace_all "::" "∶∶"
    (replace_bytes angle (trim_space (clean_runes (runes (to_valid value)) false false))))) as [_ H].
  { apply made_of_replace; [by repeat split|const_runes|].
    apply angle_display, made_of_trim, clean_runes_plain, runes_scalar. }
  apply replace_matches_display; [apply neutral_display|apply runes_scalar|done].
Qed.

Lemma no_char_of (P : Z -> Prop) c s :
  (byte c < 128)%Z -> made_of P s -> ~ P (byte c) -> no_char c s.
Proof.
  intros Hc [Hv Hp] Hn. apply valid_no_char; [done|done|]. eapply Forall_impl; [exact Hp|].
  by intros r Hr ->.
Qed.

(** ** [md] *)

Definition special (c : ascii) : bool :=
  existsb (Ascii.eqb c) ["|"; "`"; "*"; "_"; "["; "]"; "("; ")"; "<"; ">"]%char.

(** Every special byte follows a backslash that is not itself escaped. *)
Fixpoint md_safe (s : string) : Prop :=
  match s with
  | "" => True
  | String c rest =>
      if Ascii.eqb c "\" then match rest with "" => True | String _ rest => md_safe rest end
      else special c = false /\ md_safe rest
  end.

Fixpoint unescape (s : string) : string :=
  match s with
  | "" => ""
  | String c rest =>
      if Ascii.eqb c "\" then match rest with "" => "" | String d rest => String d (unescape rest) end
      else String c (unescape rest)
  end.

Lemma escape_cases c :
  (escape c = String "\" (String c "")) \/
  (escape c = "&lt;" /\ c = "<"%char) \/ (escape c = "&gt;" /\ c = ">"%char) \/
  (escape c = String c "" /\ Ascii.eqb c "\" = false /\ special c = false).
Proof.
  unfold escape. destruct (existsb (Ascii.eqb c) _) eqn:E; [by left|].
  destruct (Ascii.eqb_spec c "<") as [->|H1]; [tauto|].
  destruct (Ascii.eqb_spec c ">") as [->|H2]; [tauto|].
  right; right; right. cbn [existsb] in E. bool_facts. split_and!; [done|done|].
  unfold special. cbn [existsb].
  repeat match goal with H : Ascii.eqb c _ = false |- _ => rewrite H; clear H end.
  rewrite (proj2 (Ascii.eqb_neq c "<")), (proj2 (Ascii.eqb_neq c ">")) by done. done.
Qed.

Lemma replace_bytes_cons f c s : replace_bytes f (String c s) = f c +:+ replace_bytes f s.
Proof. done. Qed.

Lemma escaped_safe s : md_safe (replace_bytes escape s).
Proof.
  induction s as [|c s IH]; [done|]. rewrite replace_bytes_cons.
  destruct (escape_cases c) as [->|[[-> _]|[[-> _]|(-> & Hb & Hs)]]];
    rewrite ?str_app_cons, ?str_app_nil_l; try (cbn; by repeat split).
  cbn [md_safe]. by rewrite Hb.
Qed.

Lemma escaped_unescape s :
  no_char "<" s -> no_char ">" s -> unescape (replace_bytes escape s) = s.
Proof.
  induction s as [|c s IH]; [done|]. intros [H1 H2]%Forall_cons [H3 H4]%Forall_cons.
  rewrite replace_bytes_cons.
  destruct (escape_cases c) as [->|[[_ ?]|[[_ ?]|(-> & Hb & Hs)]]]; [|done|done|];
    rewrite ?str_app_cons, ?str_app_nil_l.
  - cbn. f_equal. by apply IH.
  - cbn [unescape]. rewrite Hb. f_equal. by apply IH.
Qed.

(** No untrusted text can take over a report: what [clean] returns is valid UTF-8
    without control characters, bidirectional overrides, line breaks or angle brackets, and
    [md] leaves no Markdown character unescaped and loses nothing of the cleaned text. *)
Theorem text_is_inert (value : string) :
  valid_utf8 (clean value) = true /\ Forall display_rune (runes (clean value)) /\
  no_char newline (clean value) /\
  md_safe (md value) /\ unescape (md value) = clean value.
Proof.
  pose proof (clean_made_of value) as Hm. split_and!; [apply Hm|apply Hm|..].
  - apply (no_char_of display_rune); [done|done|]. by intros [(H & _) _].
  - apply escaped_safe.
  - apply escaped_unescape; apply (no_char_of display_rune); try done; intros (_ & H1 & H2); done.
Qed.

(** ** [cell] *)

Lemma md_safe_cut a b : md_safe (a +:+ b) -> md_safe (a +:+ "…").
Proof.
  remember (String.length a) as n eqn:Hn. revert a Hn.
  induction n as [n IH] using lt_wf_ind. intros [|c a] Hn H; [done|].
  rewrite str_app_cons in *. cbn [md_safe] in *. destruct (Ascii.eqb c "\").
  - destruct a as [|d a]; [done|]. rewrite str_app_cons in *.
    apply (IH (String.length a)); [cbn in Hn; lia|done|done].
  - destruct H as [H1 H2]. split; [done|]. apply (IH (String.length a)); [cbn in Hn; lia|done|done].
Qed.

Lemma made_of_md value : made_of (fun r => r <> 10%Z) (md value).
Proof.
  pose proof (clean_made_of value) as Hm. unfold md.
  apply (made_of_impl (fun r => r <> 10%Z)); [done|].
  apply (made_of_replace_bytes display_rune); [| | |done].
  - intros c Hc Hd. assert (made_of (fun r => r <> 10%Z) (String c "")) as Hs.
    { replace (String c "") with (encode_rune (byte c)).
      - apply made_of_encode; [pose proof (byte_range c); unfold scalar; lia|].
        destruct Hd as [[Hd _] _]. intros E. by rewrite E in Hd.
      - unfold encode_rune. pose proof (byte_range c).
        rewrite (proj2 (in_range_spec _ _ _)) by lia. by rewrite byte_char_byte. }
    destruct (escape_cases c) as [->|[[-> _]|[[-> _]|(-> & _)]]]; try const_runes; [|done].
    change (String "\" (String c "")) with ("\" +:+ String c ""). by apply made_of_app; [const_runes|].
  - intros c Hc. unfold escape.
    assert (forall d, (byte d < 128)%Z -> Ascii.eqb c d = false) as Hne.
    { intros d Hd. apply Ascii.eqb_neq. intros ->. lia. }
    cbn [existsb]. by rewrite !Hne by done.
  - intros r Hr _. lia.
Qed.

(** A table cell has at most 28 code points, stays on its line, and cannot open a
    column: no special character of it is unescaped, even where the cell was cut. *)
Theorem cell_is_bounded (value : string) :
  (length (runes (cell value)) <= 28)%nat /\ md_safe (cell value) /\ no_char newline (cell value).
Proof.
  pose proof (made_of_md value) as [Hv Hd]. pose proof (runes_scalar (md value)) as Hs.
  pose proof (escaped_safe (clean value)) as Hsafe. fold (md value) in Hsafe.
  unfold cell. cbv zeta. destruct (length (runes (md value)) <=? 28)%nat eqn:E; bool_facts.
  - rewrite of_runes_runes by done. split_and!; [done|done|]. by apply valid_no_char.
  - set (front := take 27 (runes (md value))).
    assert (Forall scalar front) as Hf by (by apply Forall_take).
    assert (made_of (fun r => r <> 10%Z) (of_runes front)) as [Hfv Hfd].
    { apply made_of_of_runes; [done|by apply Forall_take]. }
    split_and!.
    + rewrite runes_app, runes_of_runes, length_app by done.
      replace (runes "…") with [8230%Z] by done. unfold front. rewrite length_take. cbn [length]. lia.
    + apply (md_safe_cut _ (of_runes (drop 27 (runes (md value))))).
      unfold front. by rewrite <- of_runes_app, take_drop, of_runes_runes.
    + apply no_char_app. split; [by apply valid_no_char|repeat constructor; discriminate].
Qed.

(** ** [wrapText] *)

(** The pieces of a line; [wrap_line] writes each on a line. *)
Fixpoint wrap_pieces (fuel : nat) (line : string) (width : nat) : list string :=
  match fuel with
  | O => [line]
  | S f =>
      let rs := runes line in
      if (width <? length rs)%nat then
        let cut := wrap_cut rs width width in
        trim_space (of_runes (take cut rs)) :: wrap_pieces f (trim_space (of_runes (drop cut rs))) width
      else if line =s "" then [] else [line]
  end.

Lemma wrap_line_pieces fuel line width : wrap_line fuel line width = unlines (wrap_pieces fuel line width).
Proof.
  revert line. induction fuel as [|f IH]; intros line; cbn [wrap_line wrap_pieces].
  - unfold unlines. cbn. by rewrite str_app_nil_r.
  - case_goal.
    + unfold unlines. rewrite fmap_cons. cbn [str_concat]. rewrite str_app_assoc. by rewrite IH.
    + case_goal; [done|]. unfold unlines. cbn. by rewrite str_app_nil_r.
Qed.

Lemma wrap_cut_range rs width cut :
  (2 <= width)%nat -> (cut <= width)%nat -> (1 <= wrap_cut rs width cut <= width)%nat.
Proof.
  intros Hw. induction cut as [|c IH]; intros Hc; cbn [wrap_cut]; [lia|].
  destruct (S c <=? width / 2)%nat eqn:E; [lia|]. destruct (bool_decide _); [lia|]. apply IH. lia.
Qed.

Lemma runes_trim_length q s : (length (runes (trim_func q s)) <= length (runes s))%nat.
Proof.
  unfold runes. rewrite chunks_trim, !length_fmap.
  destruct (drop_while_split (on_rune q) (chunks s)) as (pre & H1 & _).
  destruct (drop_while_end_split (on_rune q) (drop_while (on_rune q) (chunks s))) as (post & H2 & _).
  apply (f_equal length) in H1, H2. rewrite length_app in H1, H2. unfold chunk in *. lia.
Qed.

(** A piece: short, and on one line. *)
Definition piece (width : nat) (s : string) : Prop :=
  (length (runes s) <= width)%nat /\ no_char newline s.

Lemma trimmed_piece w :
  Forall scalar w -> Forall (fun r => r <> 10%Z) w ->
  no_char newline (trim_space (of_runes w)) /\ (length (runes (trim_space (of_runes w))) <= length w)%nat.
Proof.
  intros Hs Hn. split.
  - assert (made_of (fun r => r <> 10%Z) (trim_space (of_runes w))) as [Hv Hd].
    { by apply made_of_trim, made_of_of_runes. }
    by apply valid_no_char.
  - etrans; [apply runes_trim_length|]. by rewrite runes_of_runes.
Qed.

Lemma wrap_pieces_fit fuel line width :
  (2 <= width)%nat -> (length (runes line) < fuel)%nat -> no_char newline line ->
  Forall (piece width) (wrap_pieces fuel line width).
Proof.
  intros Hw. revert line. induction fuel as [|f IH]; intros line Hf Hn; [lia|]. cbn [wrap_pieces].
  pose proof (runes_scalar line) as Hs.
  pose proof (no_char_runes newline line ltac:(done) Hn) as Hr.
  destruct (width <? length (runes line))%nat eqn:E; bool_facts.
  - pose proof (wrap_cut_range (runes line) width width Hw ltac:(lia)) as Hc.
    set (cut := wrap_cut (runes line) width width) in *.
    destruct (trimmed_piece (take cut (runes line))) as [H1 H2];
      [by apply Forall_take|by apply Forall_take|].
    destruct (trimmed_piece (drop cut (runes line))) as [H3 H4];
      [by apply Forall_drop|by apply Forall_drop|].
    rewrite length_take in H2. rewrite length_drop in H4.
    constructor; [split; [lia|done]|]. apply IH; [lia|done].
  - case_goal; [constructor|]. constructor; [by split|constructor].
Qed.

Lemma trim_suffix_unlines lines :
  trim_suffix LF (unlines lines) = str_join LF lines.
Proof.
  destruct lines as [|l lines]; [done|]. rewrite unlines_join. generalize (str_join LF (l :: lines)).
  intros s. unfold trim_suffix, has_suffix. rewrite length_str_app.
  replace (String.length s + String.length LF - String.length LF)%nat with (String.length s + 0)%nat by lia.
  rewrite str_drop_app, (proj2 (Nat.leb_le (String.length LF) _)) by lia. cbn [str_drop].
  rewrite bool_decide_eq_true_2 by done. cbn [andb]. rewrite Nat.add_0_r. clear.
  induction s as [|a s IH]; [done|]. rewrite str_app_cons. cbn. by rewrite IH.
Qed.

(** Wrapping always ends with every line within the width, whatever the text. *)
Theorem wrapText_fits (value : string) (width : nat) :
  (2 <= width)%nat ->
  Forall (fun line => length (runes line) <= width)%nat (split_on newline (wrapText value width)).
Proof.
  intros Hw. unfold wrapText.
  set (pieces := concat ((fun line => wrap_pieces (S (length (runes line))) line width) <$> split_on newline value)).
  assert (str_concat ((fun line => wrap_line (S (length (runes line))) line width) <$> split_on newline value)
    = unlines pieces) as ->.
  { unfold pieces. generalize (split_on newline value). intros ls.
    induction ls as [|l ls IH]; [done|]. rewrite !fmap_cons. cbn [str_concat concat].
    by rewrite unlines_app, <- IH, wrap_line_pieces. }
  assert (Forall (piece width) pieces) as Hp.
  { unfold pieces. apply Forall_concat, Forall_fmap.
    eapply Forall_impl; [apply split_on_no_sep|]. intros line Hl. apply wrap_pieces_fit; [done|lia|done]. }
  rewrite trim_suffix_unlines. destruct pieces as [|p ps] eqn:E; [by repeat constructor; cbn; lia|].
  change LF with (String newline ""). rewrite split_join; [|done|].
  - eapply Forall_impl; [exact Hp|]. by intros x [].
  - eapply Forall_impl; [exact Hp|]. by intros x [].
Qed.

Lemma wrapText_fits_witness :
  let text := "the quick brown fox jumps over the lazy dog" in
  wrapText text 10 = str_join LF ["the quick"; "brown fox"; "jumps over"; "the lazy"; "dog"] /\
  Forall (fun line => length (runes line) <= 10)%nat (split_on newline (wrapText text 10)).
Proof.
  intros text. split; [vm_compute; reflexivity|]. apply (wrapText_fits text 10). lia.
Defined.

(** A separator in front of a text leaves a space after its first character: the flag
    is only reset when something has been written already. *)
Theorem clean_leading_separator (r1 r2 : Z) (l : list Z) :
  plain_rune r1 -> is_space r1 = false -> plain_rune r2 -> is_space r2 = false ->
  clean_runes (32%Z :: r1 :: r2 :: l) false false =
    encode_rune r1 +:+ " " +:+ encode_rune r2 +:+ clean_runes l false true.
Proof.
  intros (C1 & B1 & _) S1 (C2 & B2 & _) S2. cbn [clean_runes].
  rewrite C1, B1, S1, C2, B2, S2. done.
Qed.

Lemma clean_leading_separator_witness :
  clean " ab" = "a b" /\ clean "ab" = "ab" /\
  clean_runes [32; 97; 98]%Z false false = encode_rune 97 +:+ " " +:+ encode_rune 98 +:+ clean_runes [] false true.
Proof.
  split; [vm_compute; reflexivity|]. split; [vm_compute; reflexivity|].
  apply (clean_leading_separator 97 98 []); by repeat split.
Defined.
