(* ===== verification/AuditRequest.v ===== *)
(** * Audit requests (internal/audit/audit.go) *)
From S2P Require Import Contracts Regex.

Definition uuidReference : string :=
  "^[0-9a-fA-F]{8}-[0-9a-fA-F]{4}-[0-9a-fA-F]{4}-[0-9a-fA-F]{4}-[0-9a-fA-F]{12}$".

(** The loop over the sources; the same loop, with another message, is in
    internal/tools/service.go. *)
Fixpoint validSources (sources : list string) (seen : gset string) : bool :=
  match sources with
  | [] => true
  | source :: rest =>
      if (source =s "") || (80 <? str_len source)%Z || bool_decide (source ∈ seen) then false
      else validSources rest ({[source]} ∪ seen)
  end.

Definition ValidateRequest (request : AuditProjectRequest) : option StableError :=
  let validScope := one_of (apq_Scope request)
    [AuditScopePortfolio; AuditScopeProject; AuditScopeTask; AuditScopeTrajectory] in
  let n := Z.of_nat (length (apq_ConfiguredSources request)) in
  if negb (apq_SchemaVersion request =s SchemaVersion) || negb (apq_Kind request =s "request")
     || negb validScope || (apq_Reference request =s "") || (128 <? str_len (apq_Reference request))%Z
     || (n =? 0)%Z || (20 <? n)%Z then
    Some (NewError ErrorCodeInvalidSchema "invalid project audit request" "request" false)
  else if negb (validSources (apq_ConfiguredSources request) ∅) then
    Some (NewError ErrorCodeInvalidSchema "invalid project audit sources" "configured_sources" false)
  else
    first! (if apq_Scope request =s AuditScopePortfolio then
              if negb (apq_Reference request =s "all") then
                Some (NewError ErrorCodeInvalidSchema "portfolio reference must be all" "reference" false)
              else None
            else if negb (match_string (must_compile uuidReference) (apq_Reference request)) then
              Some (NewError ErrorCodeInvalidSchema "scope reference must be a UUID" "reference" false)
            else None) else
    if apq_Consent request =s AuditConsentDenied then
      Some (NewError ErrorCodePermissionDenied "audit consent denied" "consent" false)
    else if negb (apq_Consent request =s AuditConsentGranted) then
      Some (NewError ErrorCodeApprovalRequired "explicit audit consent required" "consent" false)
    else if is_zero_time (apq_StartsAt request)
            || negb (apq_StartsAt request <? apq_EndsAt request)%Z
            || (apq_AsOf request <? apq_StartsAt request)%Z then
      Some (NewError ErrorCodeInvalidSchema "invalid audit window" "starts_at" false)
    else None.

Lemma uuidReference_compiles : compile uuidReference <> None.
Proof.
  assert (match compile uuidReference with Some _ => true | None => false end = true) as H
    by (vm_compute; reflexivity).
  by destruct (compile uuidReference).
Qed.

(** ** The sources of a request *)

Definition source_ok (source : string) : Prop := source <> "" /\ (str_len source <= 80)%Z.

Lemma validSources_spec sources seen :
  validSources sources seen = true <->
  NoDup sources /\ Forall (fun s => source_ok s /\ s ∉ seen) sources.
Proof.
  revert seen. induction sources as [|s sources IH]; intros seen; cbn [validSources].
  { split; [|done]. intros _. by split; constructor. }
  rewrite NoDup_cons, Forall_cons. unfold source_ok.
  destruct (s =s "") eqn:E1; str_facts; [split; [done|naive_solver]|].
  destruct (80 <? str_len s)%Z eqn:E2; bool_facts; [split; [done|intros (_ & ((_ & ?) & _) & _); lia]|].
  cbn [orb]. case_bool_decide as E3; [split; [done|naive_solver]|]. rewrite IH. split.
  - intros [Hd Hf]. rewrite Forall_forall in Hf. split_and!; try done.
    + intros Hin. destruct (Hf s Hin) as [_ Hn]. set_solver.
    + apply Forall_forall. intros x Hx. destruct (Hf x Hx). split; [done|]. set_solver.
  - intros [[Hn Hd] [_ Hf]]. split; [done|]. rewrite Forall_forall in Hf.
    apply Forall_forall. intros x Hx. destruct (Hf x Hx) as [H1 H2]. split; [done|].
    assert (x <> s) by (by intros ->). set_solver.
Qed.

(** What a request must be. *)
Record request_wf (request : AuditProjectRequest) : Prop := {
  rq_version : apq_SchemaVersion request = SchemaVersion;
  rq_kind : apq_Kind request = "request";
  rq_scope : apq_Scope request ∈
    [AuditScopePortfolio; AuditScopeProject; AuditScopeTask; AuditScopeTrajectory];
  rq_length : (1 <= str_len (apq_Reference request) <= 128)%Z;
  rq_reference : if apq_Scope request =s AuditScopePortfolio then apq_Reference request = "all"
                 else match_string (must_compile uuidReference) (apq_Reference request) = true;
  rq_count : (1 <= length (apq_ConfiguredSources request) <= 20)%nat;
  rq_distinct : NoDup (apq_ConfiguredSources request);
  rq_sources : Forall source_ok (apq_ConfiguredSources request);
  rq_consent : apq_Consent request = AuditConsentGranted;
  rq_start : apq_StartsAt request <> zero_time;
  rq_window : (apq_StartsAt request < apq_EndsAt request)%Z;
  rq_as_of : (apq_StartsAt request <= apq_AsOf request)%Z
}.

(** C35: a project audit is accepted exactly when it is well formed: consent was granted
    explicitly, the scope and its reference agree, the sources are distinct and bounded,
    and the window is not empty and has begun by the time of the audit. *)
Theorem ValidateRequest_iff_wf (request : AuditProjectRequest) :
  ValidateRequest request = None <-> request_wf request.
Proof.
  unfold ValidateRequest. cbv zeta. split.
  - intros H.
    match type of H with (if ?c then _ else _) = _ => destruct c eqn:E1 end; [done|].
    destruct (validSources _ ∅) eqn:E2; cbn [negb] in H; [|done].
    match type of H with match ?c with Some _ => _ | None => _ end = _ => destruct c eqn:E3 end; [done|].
    destruct (apq_Consent request =s AuditConsentDenied); [done|].
    destruct (apq_Consent request =s AuditConsentGranted) eqn:E4; cbn [negb] in H; [|done].
    match type of H with (if ?c then _ else _) = _ => destruct c eqn:E5 end; [done|].
    apply validSources_spec in E2 as [Hd Hs]. str_facts. split; try done.
    + by apply contains_spec.
    + destruct (apq_Reference request); [done|]. unfold str_len in *. cbn [String.length] in *. lia.
    + destruct (apq_Scope request =s AuditScopePortfolio).
      * destruct (apq_Reference request =s "all") eqn:E; [by apply str_eqb_eq|done].
      * by destruct (match_string _ _).
    + lia.
    + eapply Forall_impl; [exact Hs|]. by intros s [].
    + by apply Z.eqb_neq.
  - intros []. rewrite rq_version0, rq_kind0, !str_eqb_refl.
    assert (one_of (apq_Scope request) [AuditScopePortfolio; AuditScopeProject; AuditScopeTask;
      AuditScopeTrajectory] = true) as -> by (by apply contains_spec).
    assert (apq_Reference request =s "" = false) as ->.
    { apply str_eqb_neq. intros Hr. rewrite Hr in rq_length0. unfold str_len in *. cbn in *. lia. }
    rewrite (proj2 (Z.ltb_ge 128 _)) by lia. rewrite (proj2 (Z.eqb_neq _ 0)) by lia.
    rewrite (proj2 (Z.ltb_ge 20 _)) by lia. cbn [negb orb].
    assert (validSources (apq_ConfiguredSources request) ∅ = true) as ->.
    { apply validSources_spec. split; [done|]. eapply Forall_impl; [exact rq_sources0|].
      intros s Hs. split; [done|]. set_solver. }
    rewrite rq_consent0. cbn [negb].
    destruct (apq_Scope request =s AuditScopePortfolio).
    + rewrite rq_reference0. cbn. unfold is_zero_time. rewrite (proj2 (Z.eqb_neq _ _)) by done.
      rewrite (proj2 (Z.ltb_lt _ _)), (proj2 (Z.ltb_ge _ _)) by lia. done.
    + rewrite rq_reference0. cbn. unfold is_zero_time. rewrite (proj2 (Z.eqb_neq _ _)) by done.
      rewrite (proj2 (Z.ltb_lt _ _)), (proj2 (Z.ltb_ge _ _)) by lia. done.
Qed.
