(* ===== verification/Service.v ===== *)
(** * The tool service (internal/tools/service.go)

    The handlers of the eight tools over the state the service keeps per session.  The
    mutex of the code makes every access to the map of sessions atomic, so a handler is
    a function from the state to a result and the next state.

    [active] is the list of the sessions the MCP library reports; the stores of audits,
    [time.Parse] and the JSON copy of an audit are arguments. *)
From S2P Require Import Contracts Unicode Utf8 Runes GoFmt Textutil Policy Compiler Checkpoint.
From S2P Require Import Regex Lint Report ReportRender AuditRequest.

Definition maxResultBytes : Z := 50000%Z.
Definition maxCheckpointItems : nat := 50.
Definition maxCheckpointItem : Z := 500%Z.
Definition maxProjectAuditsPerSession : nat := 8.

Record Configuration := mkConfiguration {
  cfg_ExecutionPolicy : ExecutionPolicy;
  cfg_SourceKinds : option (list string);
  cfg_ProcessPurposeConfigured : bool
}.

Record sessionState := mkSession {
  ss_checkpoint : option GetCheckpointResult;
  ss_auditRef : string;
  ss_audit : option AuditSessionResult;
  ss_provenance : list ProvenanceLabel;
  ss_projectAudits : gmap string AuditProjectResult;
  ss_projectOrder : list string
}.

Definition empty_session : sessionState := mkSession None "" None [] ∅ [].

(** What a handler returns beside a value: a stable error, the end of its context, a busy
    server, or any other error. *)
Inductive ToolError :=
  | Stable (e : StableError)
  | ContextEnded
  | Busy
  | OtherError.

Definition mapError (err : ToolError) : StableError :=
  match err with
  | Stable e => e
  | ContextEnded => NewError ErrorCodeBudgetExhausted "tool execution stopped at its bound" "request" true
  | Busy => NewError ErrorCodeBudgetExhausted "tool concurrency bound reached" "request" true
  | OtherError => NewError ErrorCodeInternal "tool execution failed" "request" false
  end.

Definition stable {A} (r : result StableError A) : result ToolError A :=
  match r with Ok x => Ok x | Err e => Err (Stable e) end.

(** The stores of [Service]; a store that is not there is [None]. *)
Record Stores := mkStores {
  st_audits : option (string -> list string -> option Z ->
                      result ToolError (AuditSessionResult * list ProvenanceLabel));
  st_projectAudits : option (AuditProjectRequest -> result ToolError AuditProjectResult)
}.

Record Service := mkService {
  sv_executionPolicy : ExecutionPolicy;
  sv_allowedSources : option (gset string);
  sv_processEnabled : bool;
  sv_stores : Stores
}.

(** [RegisterWithConfig]: what it checks and keeps; the registration of the tools with the
    MCP library is [register] below, once for each handler. *)
Definition RegisterWithConfig (stores : Stores) (config : Configuration) : result string Service :=
  if negb (ValidExecutionPolicy (cfg_ExecutionPolicy config)) then Err "execution policy required"
  else Ok {| sv_executionPolicy := cfg_ExecutionPolicy config;
             sv_allowedSources := list_to_set <$> cfg_SourceKinds config;
             sv_processEnabled := cfg_ProcessPurposeConfigured config; sv_stores := stores |}.

(** ** Bounds on checkpoints *)

(** The longest prefix of at most [limit] bytes that is valid UTF-8. *)
Fixpoint bounded_go (value : string) (limit : nat) : string :=
  match limit with
  | O => ""
  | S l => if valid_utf8 (str_take limit value) then str_take limit value else bounded_go value l
  end.

Definition bounded (value : string) (limit : Z) : string :=
  if (str_len value <=? limit)%Z then value else bounded_go value (Z.to_nat limit).

Definition boundedCheckpointList (values : list string) : list string :=
  (fun value => bounded value maxCheckpointItem) <$> take maxCheckpointItems values.

Definition executionPolicyRank (value : ExecutionPolicy) : Z :=
  if value =s ExecutionPolicyImproveOnly then 1
  else if value =s ExecutionPolicyAskBeforeExecute then 2
  else if value =s ExecutionPolicyFollowUserIntent then 3
  else 0.

Definition checkpointForImprove (request : ImprovePromptRequest) (res : ImprovePromptResult)
    (plan : PromptPlan) : GetCheckpointResult :=
  let validation := ipr_Diagnostics res in
  let validation := match validation with
                    | [] => ["Frozen v1 request and policy validation passed."]
                    | _ => validation
                    end in
  {| gcr_SchemaVersion := SchemaVersion; gcr_Kind := "result";
     gcr_Objective := bounded (ipq_Intent request) 1000;
     gcr_AcceptedDecisions := [cat ["Execution policy outcome: "; ipr_PolicyOutcome res; "."]];
     gcr_Constraints := boundedCheckpointList (pp_Invariants plan); gcr_EvidenceRefs := [];
     gcr_Completed := ["Improved prompt compiled."];
     gcr_Validation := boundedCheckpointList validation; gcr_Blockers := [];
     gcr_NextAction := "Use the improved prompt at the authorized boundary.";
     gcr_RemainingGates := boundedCheckpointList (pp_Gates plan) |}.

Definition checkpointForGoal (request : CreateGoalPromptRequest) : GetCheckpointResult :=
  {| gcr_SchemaVersion := SchemaVersion; gcr_Kind := "result";
     gcr_Objective := bounded (cgq_Objective request) 1000;
     gcr_AcceptedDecisions := ["House goal format selected."];
     gcr_Constraints := boundedCheckpointList (pp_Invariants (cgq_PromptPlan request));
     gcr_EvidenceRefs := []; gcr_Completed := ["Goal prompt compiled."];
     gcr_Validation := ["Frozen v1 goal contract passed."]; gcr_Blockers := [];
     gcr_NextAction := "Start the goal only when the requested boundary permits it.";
     gcr_RemainingGates := boundedCheckpointList (pp_Gates (cgq_PromptPlan request)) |}.

Definition checkpointForReview (request : CreateReviewFixPromptRequest)
    (res : CreateReviewFixPromptResult) : GetCheckpointResult :=
  {| gcr_SchemaVersion := SchemaVersion; gcr_Kind := "result";
     gcr_Objective := cat ["Fix review findings for head "; crq_ReviewHead request; "."];
     gcr_AcceptedDecisions := boundedCheckpointList (crr_FailureClasses res);
     gcr_Constraints := ["Scan directly analogous paths for every failure class."];
     gcr_EvidenceRefs := []; gcr_Completed := ["Review-fix prompt compiled."];
     gcr_Validation := ["Review head and bounded findings passed validation."]; gcr_Blockers := [];
     gcr_NextAction := "Apply and validate the review fixes at the exact reviewed head.";
     gcr_RemainingGates := ["Focused regression proof"; "Same-pattern scan"; "Latest-head validation"] |}.

Definition lint_validation (diagnostics : list Diagnostic) : list string :=
  match diagnostics with
  | [] => ["No prompt lint findings."]
  | _ => take 50 ((fun d => dg_Severity d +:+ ":" +:+ dg_Code d) <$> diagnostics)
  end.

Definition checkpointForLint (res : LintPromptResult) : GetCheckpointResult :=
  {| gcr_SchemaVersion := SchemaVersion; gcr_Kind := "result";
     gcr_Objective := "Review a prompt candidate.";
     gcr_AcceptedDecisions := [cat ["Prompt validity: "; fmt_t (lpr_Valid res); "."]];
     gcr_Constraints := ["Preserve authorization, evidence, validation, and stop boundaries."];
     gcr_EvidenceRefs := []; gcr_Completed := ["Prompt lint completed."];
     gcr_Validation := lint_validation (lpr_Diagnostics res); gcr_Blockers := [];
     gcr_NextAction := "Address material diagnostics before using the prompt.";
     gcr_RemainingGates := [] |}.

(** ** The sessions *)

Notation State := (gmap string sessionState).

(** [pruneDisconnectedLocked]: when the library reports no session, nothing is pruned. *)
Definition pruneDisconnected (active : list string) (state : State) : State :=
  match active with
  | [] => state
  | _ => filter (fun kv => kv.1 ∈ active) state
  end.

Definition sessionStateLocked (active : list string) (session : string) (state : State)
    : State * sessionState :=
  let state := pruneDisconnected active state in
  match state !! session with
  | Some s => (state, s)
  | None =>
      let state := if (8 <=? size state)%nat then ∅ else state in
      (<[session := empty_session]> state, empty_session)
  end.

(** A change of the session's record, which the code makes through its pointer. *)
Definition update_session (active : list string) (session : string)
    (f : sessionState -> sessionState) (state : State) : State :=
  let '(state, s) := sessionStateLocked active session state in <[session := f s]> state.

Definition set_checkpoint (value : GetCheckpointResult) (s : sessionState) : sessionState :=
  mkSession (Some value) (ss_auditRef s) (ss_audit s) (ss_provenance s) (ss_projectAudits s)
    (ss_projectOrder s).

Definition saveCheckpoint (active : list string) (session : string) (value : GetCheckpointResult)
    (state : State) : State := update_session active session (set_checkpoint value) state.

(** ** The handlers of the prompt tools *)

Definition Handler (A : Type) : Type := result ToolError A * State.

Definition improvePrompt (service : Service) (active : list string) (session : string)
    (done : nat -> bool) (request : ImprovePromptRequest) (state : State)
    : Handler ImprovePromptResult :=
  if (executionPolicyRank (sv_executionPolicy service) <?
      executionPolicyRank (ipq_ExecutionPolicy request))%Z then
    (Err (Stable (NewError ErrorCodePermissionDenied
       "requested execution policy exceeds configured policy" "execution_policy" false)), state)
  else
    match Improve done request HostUnknown with
    | Err e => (Err (Stable e), state)
    | Ok res =>
        let plan := match ipq_PromptPlan request with
                    | Some plan => plan
                    | None => NewPlan (ipq_Intent request)
                    end in
        (Ok res, saveCheckpoint active session (checkpointForImprove request res plan) state)
    end.

Definition createGoalPrompt (active : list string) (session : string) (done : bool)
    (request : CreateGoalPromptRequest) (state : State) : Handler CreateGoalPromptResult :=
  match CreateGoal done request with
  | Err e => (Err (Stable e), state)
  | Ok res => (Ok res, saveCheckpoint active session (checkpointForGoal request) state)
  end.

Definition createReviewFixPrompt (active : list string) (session : string) (done : bool)
    (request : CreateReviewFixPromptRequest) (state : State) : Handler CreateReviewFixPromptResult :=
  match CreateReviewFix done request with
  | Err e => (Err (Stable e), state)
  | Ok res => (Ok res, saveCheckpoint active session (checkpointForReview request res) state)
  end.

Definition lintPrompt (active : list string) (session : string) (request : LintPromptRequest)
    (state : State) : Handler LintPromptResult :=
  match CheckPrompt request with
  | Err e => (Err (Stable e), state)
  | Ok res => (Ok res, saveCheckpoint active session (checkpointForLint res) state)
  end.

Definition checkpoint_of (r : GetCheckpointResult) : Checkpoint :=
  mkCheckpoint (gcr_Objective r) (gcr_AcceptedDecisions r) (gcr_Constraints r) (gcr_EvidenceRefs r)
    (gcr_Completed r) (gcr_Validation r) (gcr_Blockers r) (gcr_NextAction r) (gcr_RemainingGates r).

Definition invalid_reference (reference : string) : bool :=
  (str_len reference <? 1)%Z || (128 <? str_len reference)%Z.

Definition checkpoint_missing : StableError :=
  NewError ErrorCodeNotFound "checkpoint reference unavailable" "reference" false.

Definition getCheckpoint (active : list string) (session : string) (request : GetCheckpointRequest)
    (state : State) : Handler GetCheckpointResult :=
  if negb (gcq_SchemaVersion request =s SchemaVersion) || negb (gcq_Kind request =s "request")
     || invalid_reference (gcq_Reference request) then
    (Err (Stable (NewError ErrorCodeInvalidSchema "invalid checkpoint request" "request" false)), state)
  else if negb (gcq_Reference request =s "latest") then (Err (Stable checkpoint_missing), state)
  else
    let state := pruneDisconnected active state in
    match state !! session ≫= ss_checkpoint with
    | None => (Err (Stable checkpoint_missing), state)
    | Some r =>
        match Checkpoint.Render (checkpoint_of r) with
        | Err e => (Err (Stable e), state)
        | Ok _ => (Ok r, state)
        end
    end.

(** ** The handlers of the audit tools *)

(** The loop over the configured sources: the first source that is not allowed. *)
Fixpoint check_sources (service : Service) (allowed : gset string) (sources : list string)
    : option StableError :=
  match sources with
  | [] => None
  | source :: rest =>
      if negb (bool_decide (source ∈ allowed)) then
        Some (NewError ErrorCodePermissionDenied "audit source is not configured"
                "configured_sources" false)
      else if (source =s "process") && negb (sv_processEnabled service) then
        Some (NewError ErrorCodePermissionDenied "process audit purpose is not configured"
                "configured_sources" false)
      else check_sources service allowed rest
  end.

Definition sources_allowed (service : Service) (sources : list string) : option StableError :=
  match sv_allowedSources service with
  | None => None
  | Some allowed => check_sources service allowed sources
  end.

Definition validateSources (sources : list string) : option StableError :=
  let n := Z.of_nat (length sources) in
  if (n =? 0)%Z || (20 <? n)%Z then
    Some (NewError ErrorCodeInvalidSchema "configured_sources must contain 1 to 20 items"
            "configured_sources" false)
  else if negb (validSources sources ∅) then
    Some (NewError ErrorCodeInvalidSchema "configured_sources contains an invalid item"
            "configured_sources" false)
  else None.

Definition sessionReference : string :=
  "^[a-f0-9]{8}-[a-f0-9]{4}-[1-5][a-f0-9]{3}-[89ab][a-f0-9]{3}-[a-f0-9]{12}$".
Definition revisionHash : string := "^[a-f0-9]{64}$".

Definition session_pattern : regex := must_compile sessionReference.
Definition hash_pattern : regex := must_compile revisionHash.

(** [parse_time] is [time.Parse(time.RFC3339Nano, ...)]. *)
Definition parseAuditReference (parse_time : string -> option Z) (reference : string)
    : result StableError (string * option Z) :=
  let reference := trim_prefix "current:" reference in
  if has_prefix "as-of:" reference then
    let value := trim_prefix "as-of:" reference in
    let bad := NewError ErrorCodeInvalidSchema "invalid as-of audit reference" "reference" false in
    match str_last_index "@" value with
    | None | Some O => Err bad
    | Some separator =>
        let id := str_drop (separator + 1) value in
        match parse_time (str_take separator value) with
        | Some at_time => if match_string session_pattern id then Ok (id, Some at_time) else Err bad
        | None => Err bad
        end
    end
  else if negb (match_string session_pattern reference) then
    Err (NewError ErrorCodeInvalidSchema "invalid audit reference" "reference" false)
  else Ok (reference, None).

Definition set_audit (reference : string) (res : AuditSessionResult) (labels : list ProvenanceLabel)
    (s : sessionState) : sessionState :=
  mkSession (ss_checkpoint s) reference (Some res) labels (ss_projectAudits s) (ss_projectOrder s).

(** The checks before the store is asked. *)
Definition audit_session_query (service : Service) (parse_time : string -> option Z)
    (request : AuditSessionRequest) : result StableError (string * option Z) :=
  if negb (asq_SchemaVersion request =s SchemaVersion) || negb (asq_Kind request =s "request")
     || invalid_reference (asq_Reference request) then
    Err (NewError ErrorCodeInvalidSchema "invalid audit request" "request" false)
  else if asq_Consent request =s AuditConsentDenied then
    Err (NewError ErrorCodePermissionDenied "audit consent denied" "consent" false)
  else if negb (asq_Consent request =s AuditConsentGranted) then
    Err (NewError ErrorCodeApprovalRequired "explicit audit consent required" "consent" false)
  else
    check! validateSources (asq_ConfiguredSources request) in
    check! sources_allowed service (asq_ConfiguredSources request) in
    parseAuditReference parse_time (asq_Reference request).

Definition auditSession (service : Service) (parse_time : string -> option Z) (active : list string)
    (session : string) (request : AuditSessionRequest) (state : State) : Handler AuditSessionResult :=
  match audit_session_query service parse_time request with
  | Err e => (Err (Stable e), state)
  | Ok (id, as_of) =>
      match st_audits (sv_stores service) with
      | None =>
          (Err (Stable (NewError ErrorCodeCoverageIncomplete "audit store unavailable" "reference" true)),
           state)
      | Some store =>
          match store id (asq_ConfiguredSources request) as_of with
          | Err e => (Err e, state)
          | Ok (res, labels) =>
              (Ok res, update_session active session (set_audit (asq_Reference request) res labels) state)
          end
      end
  end.

(** The cache of project audits: at most [maxProjectAuditsPerSession], the oldest revision
    leaving first.  [evict] is the loop that drops from the front. *)
Fixpoint evict (fuel : nat) (audits : gmap string AuditProjectResult) (order : list string)
    : gmap string AuditProjectResult * list string :=
  match fuel, order with
  | S f, oldest :: rest =>
      if (maxProjectAuditsPerSession <? length order)%nat then evict f (delete oldest audits) rest
      else (audits, order)
  | _, _ => (audits, order)
  end.

Definition cache_audit (hash : string) (cached : AuditProjectResult) (s : sessionState) : sessionState :=
  let order := match ss_projectAudits s !! hash with
               | Some _ => ss_projectOrder s
               | None => ss_projectOrder s ++ [hash]
               end in
  let '(audits, order) := evict (length order) (<[hash := cached]> (ss_projectAudits s)) order in
  mkSession (ss_checkpoint s) (ss_auditRef s) (ss_audit s) (ss_provenance s) audits order.

(** [json_copy] is [json.Unmarshal] after [json.Marshal]. *)
Definition cloneProjectAudit (json_copy : AuditProjectResult -> option AuditProjectResult)
    (res : AuditProjectResult) : option AuditProjectResult := json_copy res.

Definition facts_version (res : AuditProjectResult) : bool :=
  match apr_ReportFacts res with None => false | Some f => rf_Version f =s "report-facts-v1" end.

Definition result_matches (request : AuditProjectRequest) (res : AuditProjectResult) : bool :=
  (apr_SchemaVersion res =s SchemaVersion) && (apr_Kind res =s "result")
  && (apr_AuditReference res =s apq_Reference request) && (apr_Scope res =s apq_Scope request)
  && match_string hash_pattern (apr_RevisionHash res) && facts_version res.

Definition facts_unavailable : StableError :=
  NewError ErrorCodeCoverageIncomplete "governance report facts unavailable" "report_facts" true.

Definition auditProject (service : Service) (json_copy : AuditProjectResult -> option AuditProjectResult)
    (active : list string) (session : string) (request : AuditProjectRequest) (state : State)
    : Handler AuditProjectResult :=
  match ValidateRequest request with
  | Some e => (Err (Stable e), state)
  | None =>
      match sources_allowed service (apq_ConfiguredSources request) with
      | Some e => (Err (Stable e), state)
      | None =>
          match st_projectAudits (sv_stores service) with
          | None =>
              (Err (Stable (NewError ErrorCodeCoverageIncomplete "project audit store unavailable"
                              "reference" true)), state)
          | Some store =>
              match store request with
              | Err e => (Err e, state)
              | Ok res =>
                  if negb (result_matches request res) then (Err (Stable facts_unavailable), state)
                  else match cloneProjectAudit json_copy res with
                       | None =>
                           (Err (Stable (NewError ErrorCodeCoverageIncomplete
                              "governance report result invalid" "result" true)), state)
                       | Some cached =>
                           (Ok res, update_session active session
                                      (cache_audit (apr_RevisionHash res) cached) state)
                       end
              end
          end
      end
  end.

(** ** Reports *)

(** The value of the extension in the client's capabilities, as JSON decodes it. *)
Inductive Any :=
  | AString (s : string)
  | AList (l : list Any)
  | AStrings (l : list string)
  | AMap (fields : list (string * Any))
  | AOther.

Definition any_field (fields : list (string * Any)) (name : string) : option Any :=
  snd <$> find (fun f => f.1 =s name) fields.

Definition is_string (s : string) (v : Any) : bool :=
  match v with AString t => t =s s | _ => false end.

Record reportCapabilityState := mkCapability { rc_present : bool; rc_valid : bool }.

(** [extension] is [None] without a session, parameters, capabilities or extension. *)
Definition reportCapability (extension : option Any) : reportCapabilityState :=
  match extension with
  | None => mkCapability false false
  | Some (AMap settings) =>
      if negb (match any_field settings "version" with Some v => is_string "1" v | None => false end) then
        mkCapability true false
      else match any_field settings "formats" with
           | Some (AList formats) =>
               if existsb (is_string "chat") formats then mkCapability true true
               else mkCapability true false
           | Some (AStrings formats) =>
               if existsb (fun f => f =s "chat") formats then mkCapability true true
               else mkCapability true false
           | _ => mkCapability true false
           end
  | Some _ => mkCapability true false
  end.

Definition chatSupported (s : reportCapabilityState) : bool * string :=
  if rc_valid s then (true, "")
  else if rc_present s then (false, "chat_capability_malformed")
  else (false, "chat_capability_unavailable").

Definition renderAudit (audit : AuditSessionResult) (format : ReportFormat) : string :=
  let refs := fmt_d (Z.of_nat (length (asr_EvidenceRefs audit))) in
  trim_space
    (if format =s ReportFormatChat then
       cat ["Coverage: "; asr_Coverage audit; ". Evidence references: "; refs; "."]
         +:+ rows (asr_Findings audit) (fun finding => cat [" "; Sanitize finding; "."])
     else if format =s ReportFormatMarkdown then
       cat ["## PromptBetter governance report"; LF; LF; "- Coverage: `"; asr_Coverage audit; "`"; LF;
            "- Evidence references: "; refs; LF; "- Redaction applied: ";
            fmt_t (asr_RedactionApplied audit); LF]
         +:+ section (asr_Findings audit) (cat ["- Findings:"; LF])
               (fun finding => cat ["  - "; SanitizeMarkdown finding; LF])
     else if format =s ReportFormatTable then
       cat ["field | value"; LF; "--- | ---"; LF; "coverage | "; asr_Coverage audit; LF;
            "evidence_refs | "; refs; LF; "redaction_applied | "; fmt_t (asr_RedactionApplied audit); LF]
         +:+ str_concat (imap (fun index finding =>
               cat ["finding_"; fmt_d (Z.of_nat index + 1); " | "; SanitizeMarkdown finding; LF])
               (asr_Findings audit))
     else "").

Definition valid_format (format : ReportFormat) : bool :=
  one_of format [ReportFormatChat; ReportFormatMarkdown; ReportFormatTable].

(** The report of a cached project audit. *)
Definition render_project (project : AuditProjectResult) (format : ReportFormat)
    (capability : reportCapabilityState) : result ToolError RenderGovernanceReportResult :=
  let '(format, fallback) :=
    if format =s ReportFormatChat then
      let '(supported, reason) := chatSupported capability in
      if supported then (format, "") else (ReportFormatMarkdown, reason)
    else (format, "") in
  match Build project with
  | Err _ => Err (Stable facts_unavailable)
  | Ok model =>
      let base := {| rgr_SchemaVersion := SchemaVersion; rgr_Kind := "result"; rgr_Format := format;
                     rgr_Rendered := ""; rgr_Coverage := apr_Coverage project;
                     rgr_ProvenanceLabels := [ProvenanceDerived];
                     rgr_RevisionHash := apr_RevisionHash project; rgr_FallbackReason := fallback;
                     rgr_OmittedCount := 0; rgr_SectionOmissions := [] |} in
      match RenderBounded model format base with
      | Some (Ok r) => Ok r
      | _ => Err OtherError
      end
  end.

(** The report of the last session audit. *)
Definition render_session (audit : AuditSessionResult) (provenance : list ProvenanceLabel)
    (format : ReportFormat) : result ToolError RenderGovernanceReportResult :=
  let provenance := match provenance with [] => [ProvenanceUnknown] | _ => provenance end in
  let rendered := renderAudit audit format in
  if (str_len rendered =? 0)%Z || (maxResultBytes <? str_len rendered)%Z then
    Err (Stable (NewError ErrorCodeInternal "governance report rendering failed" "audit_reference" false))
  else
    Ok {| rgr_SchemaVersion := SchemaVersion; rgr_Kind := "result"; rgr_Format := format;
          rgr_Rendered := rendered; rgr_Coverage := asr_Coverage audit;
          rgr_ProvenanceLabels := provenance; rgr_RevisionHash := ""; rgr_FallbackReason := "";
          rgr_OmittedCount := 0; rgr_SectionOmissions := [] |}.

Definition report_request_error (request : RenderGovernanceReportRequest) : option StableError :=
  if negb (rgq_SchemaVersion request =s SchemaVersion) || negb (rgq_Kind request =s "request")
     || invalid_reference (rgq_AuditReference request) then
    Some (NewError ErrorCodeInvalidSchema "invalid governance report request" "request" false)
  else if negb (valid_format (rgq_Format request)) then
    Some (NewError ErrorCodeInvalidSchema "unsupported report format" "format" false)
  else if negb (rgq_RevisionHash request =s "")
          && negb (match_string hash_pattern (rgq_RevisionHash request)) then
    Some (NewError ErrorCodeInvalidSchema "invalid revision hash" "revision_hash" false)
  else None.

Definition cached_project (s : sessionState) (request : RenderGovernanceReportRequest)
    : option AuditProjectResult :=
  match ss_projectAudits s !! rgq_RevisionHash request with
  | Some cached => if apr_AuditReference cached =s rgq_AuditReference request then Some cached else None
  | None => None
  end.

Definition cached_audit (s : sessionState) (request : RenderGovernanceReportRequest)
    : option (AuditSessionResult * list ProvenanceLabel) :=
  match ss_audit s with
  | Some audit =>
      if ss_auditRef s =s rgq_AuditReference request then Some (audit, ss_provenance s) else None
  | None => None
  end.

Definition renderGovernanceReport (active : list string) (session : string)
    (capability : reportCapabilityState) (request : RenderGovernanceReportRequest) (state : State)
    : Handler RenderGovernanceReportResult :=
  match report_request_error request with
  | Some e => (Err (Stable e), state)
  | None =>
      let state := pruneDisconnected active state in
      (if negb (rgq_RevisionHash request =s "") then
         match state !! session ≫= (fun s => cached_project s request) with
         | None => Err (Stable (NewError ErrorCodeNotFound "audit revision unavailable in this MCP session"
                                  "revision_hash" false))
         | Some project => render_project project (rgq_Format request) capability
         end
       else
         match state !! session ≫= (fun s => cached_audit s request) with
         | None => Err (Stable (NewError ErrorCodeNotFound "audit reference unavailable in this MCP session"
                                  "audit_reference" false))
         | Some (audit, provenance) => render_session audit provenance (rgq_Format request)
         end, state)
  end.

(** ** Registration *)

Inductive CallToolResult (A : Type) :=
  | ErrorResult (e : StableError)
  | SuccessResult (text : string) (output : A).
Arguments ErrorResult {A} e.
Arguments SuccessResult {A} text output.

(** [encode] is [json.Marshal] of the output. *)
Definition successResult {A} (encode : A -> option string) (output : A) : CallToolResult A :=
  let exceeded := ErrorResult (NewError ErrorCodeBudgetExhausted "tool result exceeded its bound"
                                 "result" false) in
  match encode output with
  | None => exceeded
  | Some data => if (maxResultBytes <? str_len data)%Z then exceeded else SuccessResult data output
  end.

(** The function [register] installs: [acquired] is the outcome of [Server.Acquire],
    [decode] is [decodeStrict] of the arguments, and [ended] says that the bounded context
    has ended when the handler returns. *)
Definition register {Input Output : Type} (encode : Output -> option string)
    (decode : string -> option Input) (handle : Input -> State -> Handler Output)
    (acquired : option ToolError) (ended : bool) (arguments : string) (state : State)
    : CallToolResult Output * State :=
  match acquired with
  | Some err => (ErrorResult (mapError err), state)
  | None =>
      match decode arguments with
      | None =>
          (ErrorResult (NewError ErrorCodeInvalidSchema "request does not match the frozen schema"
                          "request" false), state)
      | Some input =>
          let '(output, state) := handle input state in
          if ended then (ErrorResult (mapError ContextEnded), state)
          else match output with
               | Err err => (ErrorResult (mapError err), state)
               | Ok output => (successResult encode output, state)
               end
      end
  end.

Lemma reference_patterns_compile :
  forallb (fun pattern => match compile pattern with Some _ => true | None => false end)
    [sessionReference; revisionHash] = true.
Proof. vm_compute. reflexivity. Qed.
