(* ===== verification/ServiceState.v ===== *)
(** * The sessions of the tool service (internal/tools/service.go)

    Every sequence of tool calls is a run of [step]; the bounds on the sessions and on
    their caches hold in every reachable state, no call shows or changes what another
    session stored, and what a call stored can be read back. *)
From S2P Require Import Contracts Unicode Utf8 Runes GoFmt Textutil Policy Compiler Compiled.
From S2P Require Import Checkpoint Regex Lint Report ReportRender AuditRequest Service.

(** ** The bounds *)

Record session_ok (s : sessionState) : Prop := {
  so_order : NoDup (ss_projectOrder s);
  so_bound : (length (ss_projectOrder s) <= maxProjectAuditsPerSession)%nat;
  so_keys : dom (ss_projectAudits s) = (list_to_set (ss_projectOrder s) : gset string)
}.

Record state_ok (state : State) : Prop := {
  st_size : (size state <= 8)%nat;
  st_sessions : map_Forall (fun _ s => session_ok s) state
}.

Lemma empty_session_ok : session_ok empty_session.
Proof. split; [constructor|cbn; lia|cbn; by rewrite dom_empty_L]. Qed.

Lemma prune_ok active state : state_ok state -> state_ok (pruneDisconnected active state).
Proof.
  intros [Hs Hf]. unfold pruneDisconnected. destruct active as [|a active]; [done|]. split.
  - etrans; [|exact Hs]. apply map_subseteq_size, map_filter_subseteq.
  - intros i s Hi. apply map_lookup_filter_Some in Hi as [Hi _]. by apply (Hf i).
Qed.

Lemma prune_lookup active state session s :
  pruneDisconnected active state !! session = Some s -> state !! session = Some s.
Proof.
  unfold pruneDisconnected. destruct active; [done|]. by intros [? _]%map_lookup_filter_Some.
Qed.

Lemma prune_keeps active state session s :
  active = [] \/ session ∈ active ->
  state !! session = Some s -> pruneDisconnected active state !! session = Some s.
Proof.
  intros Ha Hs. unfold pruneDisconnected. destruct active as [|a active]; [done|].
  apply map_lookup_filter_Some. split; [done|]. destruct Ha as [Ha|Ha]; [done|exact Ha].
Qed.

Lemma update_session_ok active session f state :
  (forall s, session_ok s -> session_ok (f s)) ->
  state_ok state -> state_ok (update_session active session f state).
Proof.
  intros Hf Hst. apply (prune_ok active) in Hst. unfold update_session, sessionStateLocked.
  destruct Hst as [Hs Hall]. cbv zeta.
  destruct (pruneDisconnected active state !! session) as [s|] eqn:E.
  - split.
    + rewrite map_size_insert, E. done.
    + apply map_Forall_insert_2; [|done]. apply Hf. by apply (Hall session).
  - assert (forall m : gmap string sessionState, (size m < 8)%nat -> map_Forall (fun _ s => session_ok s) m ->
      state_ok (<[session := f empty_session]> (<[session := empty_session]> m))) as Hnew.
    { intros m Hm Hall'. rewrite insert_insert_eq. split.
      - rewrite map_size_insert. destruct (m !! session); cbn; lia.
      - apply map_Forall_insert_2; [apply Hf, empty_session_ok|done]. }
    destruct (8 <=? size _)%nat eqn:E8; bool_facts; apply Hnew.
    + rewrite map_size_empty. lia.
    + apply map_Forall_empty.
    + done.
    + done.
Qed.

(** [evict] keeps the newest revisions. *)
Lemma evict_spec fuel audits order :
  (length order <= maxProjectAuditsPerSession + fuel)%nat ->
  NoDup order -> dom audits = (list_to_set order : gset string) ->
  let r := evict fuel audits order in
  let k := (length order - maxProjectAuditsPerSession)%nat in
  r.2 = drop k order /\ dom r.1 = (list_to_set (drop k order) : gset string) /\
  (forall h, h ∈ drop k order -> r.1 !! h = audits !! h).
Proof.
  revert audits order. induction fuel as [|f IH]; intros audits order Hl Hd Hk; cbv zeta; cbn [evict].
  { replace (length order - maxProjectAuditsPerSession)%nat with 0%nat by lia. by rewrite drop_0. }
  destruct order as [|oldest rest]; [by cbn|].
  destruct (maxProjectAuditsPerSession <? length (oldest :: rest))%nat eqn:E; bool_facts.
  - apply NoDup_cons in Hd as [Hn Hd].
    replace (length (oldest :: rest) - maxProjectAuditsPerSession)%nat
      with (S (length rest - maxProjectAuditsPerSession)) by (cbn [length] in *; lia).
    cbn [drop]. destruct (IH (delete oldest audits) rest) as (H1 & H2 & H3).
    + cbn [length] in Hl. lia.
    + done.
    + rewrite dom_delete_L, Hk. cbn. set_solver.
    + split_and!; [done|done|]. intros h Hh. rewrite H3 by done.
      rewrite lookup_delete_ne; [done|]. intros ->. apply Hn.
      by apply (subseteq_drop _ _ _ Hh).
  - replace (length (oldest :: rest) - maxProjectAuditsPerSession)%nat with 0%nat by lia.
    by rewrite drop_0.
Qed.

Definition cache_order (hash : string) (s : sessionState) : list string :=
  match ss_projectAudits s !! hash with
  | Some _ => ss_projectOrder s
  | None => ss_projectOrder s ++ [hash]
  end.

(** What caching an audit leaves: the newest revisions, the cached one among them. *)
Lemma cache_audit_spec hash cached s :
  session_ok s ->
  session_ok (cache_audit hash cached s) /\
  ss_projectAudits (cache_audit hash cached s) !! hash = Some cached /\
  (forall h c, h <> hash -> ss_projectAudits (cache_audit hash cached s) !! h = Some c ->
     ss_projectAudits s !! h = Some c) /\
  ss_projectOrder (cache_audit hash cached s) =
    drop (length (cache_order hash s) - maxProjectAuditsPerSession) (cache_order hash s) /\
  ss_checkpoint (cache_audit hash cached s) = ss_checkpoint s.
Proof.
  intros [Ho Hb Hk]. unfold cache_audit. fold (cache_order hash s).
  assert (NoDup (cache_order hash s) /\ (length (cache_order hash s) <= S maxProjectAuditsPerSession)%nat /\
    dom (<[hash := cached]> (ss_projectAudits s)) = (list_to_set (cache_order hash s) : gset string) /\
    hash ∈ drop (length (cache_order hash s) - maxProjectAuditsPerSession) (cache_order hash s))
    as (Hd & Hl & Hdom & Hin).
  { unfold cache_order. rewrite dom_insert_L, Hk. destruct (ss_projectAudits s !! hash) as [c|] eqn:E.
    - assert (hash ∈ ss_projectOrder s) as Hin.
      { rewrite <- (elem_of_list_to_set (C := gset string)), <- Hk. by eapply elem_of_dom_2. }
      split_and!; [done|lia|set_solver|].
      replace (length (ss_projectOrder s) - maxProjectAuditsPerSession)%nat with 0%nat by lia.
      by rewrite drop_0.
    - assert (hash ∉ ss_projectOrder s) as Hnin.
      { rewrite <- (elem_of_list_to_set (C := gset string)), <- Hk. by apply not_elem_of_dom. }
      rewrite length_app. cbn [length]. split_and!.
      + apply NoDup_app. split_and!; [done|set_solver|apply NoDup_singleton].
      + lia.
      + rewrite list_to_set_app_L. set_solver.
      + rewrite drop_app_le by (unfold maxProjectAuditsPerSession; lia). set_solver. }
  destruct (evict_spec (length (cache_order hash s)) (<[hash := cached]> (ss_projectAudits s))
              (cache_order hash s)) as (H1 & H2 & H3); [lia|done|done|].
  destruct (evict _ _ _) as [audits order]. cbn [fst snd] in *. subst order.
  split_and!; cbn; try done.
  - split; cbn; [by eapply sublist_NoDup; [|apply sublist_drop]|rewrite length_drop; lia|done].
  - rewrite H3 by done. by rewrite lookup_insert_eq.
  - intros h c Hne Hc. assert (h ∈ drop (length (cache_order hash s) - maxProjectAuditsPerSession)
      (cache_order hash s)) as Hh.
    { rewrite <- (elem_of_list_to_set (C := gset string)), <- H2. by eapply elem_of_dom_2. }
    rewrite H3 in Hc by done. by rewrite lookup_insert_ne in Hc.
Qed.

(** ** Runs *)

(** One tool call of a session, with whatever the client, the library and the stores supply,
    and the checkpoint it saves. *)
Inductive step (service : Service) (session : string) : State -> option GetCheckpointResult -> State -> Prop :=
  | step_improve active done request state res state' :
      improvePrompt service active session done request state = (res, state') ->
      step service session state
        (match res with
         | Ok r => Some (checkpointForImprove request r
                     (match ipq_PromptPlan request with Some p => p | None => NewPlan (ipq_Intent request) end))
         | Err _ => None end) state'
  | step_goal active done request state res state' :
      createGoalPrompt active session done request state = (res, state') ->
      step service session state
        (match res with Ok _ => Some (checkpointForGoal request) | Err _ => None end) state'
  | step_review active done request state res state' :
      createReviewFixPrompt active session done request state = (res, state') ->
      step service session state
        (match res with Ok r => Some (checkpointForReview request r) | Err _ => None end) state'
  | step_lint active request state res state' :
      lintPrompt active session request state = (res, state') ->
      step service session state
        (match res with Ok r => Some (checkpointForLint r) | Err _ => None end) state'
  | step_get active request state res state' :
      getCheckpoint active session request state = (res, state') -> step service session state None state'
  | step_audit_session parse_time active request state res state' :
      auditSession service parse_time active session request state = (res, state') ->
      step service session state None state'
  | step_audit_project json_copy active request state res state' :
      auditProject service json_copy active session request state = (res, state') ->
      step service session state None state'
  | step_report active capability request state res state' :
      renderGovernanceReport active session capability request state = (res, state') ->
      step service session state None state'.

(** A run from the empty state, with the checkpoints it saved, the latest first. *)
Inductive run (service : Service) : list (string * GetCheckpointResult) -> State -> Prop :=
  | run_start : run service [] ∅
  | run_step session saved state e state' :
      run service saved state -> step service session state e state' ->
      run service (match e with Some c => (session, c) :: saved | None => saved end) state'.

(** Every call leaves the state alone, prunes it, or updates the record of its session. *)
Inductive change (session : string) (state : State) : option GetCheckpointResult -> State -> Prop :=
  | change_none : change session state None state
  | change_prune active : change session state None (pruneDisconnected active state)
  | change_save active value :
      change session state (Some value) (saveCheckpoint active session value state)
  | change_update active f :
      (forall s, session_ok s -> session_ok (f s)) -> (forall s, ss_checkpoint (f s) = ss_checkpoint s) ->
      change session state None (update_session active session f state).

#[local] Hint Constructors change : core.

Lemma set_checkpoint_ok value s : session_ok s -> session_ok (set_checkpoint value s).
Proof. by intros []. Qed.

Lemma evict_checkpoint hash cached s : ss_checkpoint (cache_audit hash cached s) = ss_checkpoint s.
Proof. unfold cache_audit. by destruct (evict _ _ _). Qed.

Lemma step_change service session state e state' :
  step service session state e state' -> change session state e state'.
Proof.
  intros H. destruct H as [active done request state res state' H
    |active done request state res state' H|active done request state res state' H
    |active request state res state' H|active request state res state' H
    |parse_time active request state res state' H|json_copy active request state res state' H
    |active capability request state res state' H].
  - unfold improvePrompt in H. destruct (_ <? _)%Z; [by injection H as <- <-|].
    destruct (Improve done request HostUnknown); injection H as <- <-; auto.
  - unfold createGoalPrompt in H. destruct (CreateGoal done request); injection H as <- <-; auto.
  - unfold createReviewFixPrompt in H. destruct (CreateReviewFix done request); injection H as <- <-; auto.
  - unfold lintPrompt in H. destruct (CheckPrompt request); injection H as <- <-; auto.
  - unfold getCheckpoint in H. destruct (_ || _); [by injection H as <- <-|].
    destruct (negb _); [by injection H as <- <-|].
    destruct (_ ≫= ss_checkpoint); [destruct (Checkpoint.Render _)|]; injection H as <- <-; auto.
  - unfold auditSession in H. destruct (audit_session_query _ _ _) as [[id as_of]|]; [|by injection H as <- <-].
    destruct (st_audits _) as [store|]; [|by injection H as <- <-].
    destruct (store _ _ _) as [[r labels]|]; injection H as <- <-; [|done].
    apply change_update; [by intros s []|done].
  - unfold auditProject in H. destruct (ValidateRequest request); [by injection H as <- <-|].
    destruct (sources_allowed _ _); [by injection H as <- <-|].
    destruct (st_projectAudits _) as [store|]; [|by injection H as <- <-].
    destruct (store request) as [r|]; [|by injection H as <- <-].
    destruct (negb _); [by injection H as <- <-|].
    destruct (cloneProjectAudit _ _); injection H as <- <-; [|done].
    apply change_update; [intros s Hs; by apply cache_audit_spec|intros s; apply evict_checkpoint].
  - unfold renderGovernanceReport in H. destruct (report_request_error request); injection H as <- <-; auto.
Qed.

Lemma change_ok session state e state' : change session state e state' -> state_ok state -> state_ok state'.
Proof.
  intros H Hs. destruct H as [|active|active value|active f Hf _]; [done|by apply prune_ok|..];
    apply update_session_ok; try done. intros s. apply set_checkpoint_ok.
Qed.

Lemma run_ok service saved state : run service saved state -> state_ok state.
Proof.
  induction 1 as [|session saved state e state' _ IH Hstep].
  - split; [rewrite map_size_empty; lia|apply map_Forall_empty].
  - by eapply change_ok; [eapply step_change|].
Qed.

(** C24: whatever the clients call, the service keeps at most 8 sessions, each with at most
    8 project audits, every cached audit is listed once in the order of eviction, and nothing
    else is. *)
Theorem reachable_bounds (service : Service) (saved : list (string * GetCheckpointResult)) (state : State) :
  run service saved state ->
  (size state <= 8)%nat /\
  forall session s, state !! session = Some s ->
    NoDup (ss_projectOrder s) /\ (length (ss_projectOrder s) <= 8)%nat /\
    forall hash, is_Some (ss_projectAudits s !! hash) <-> hash ∈ ss_projectOrder s.
Proof.
  intros [Hs Hall]%run_ok. split; [done|]. intros session s E. destruct (Hall session s E) as [Ho Hb Hk].
  split_and!; [done|done|]. intros hash. rewrite <- elem_of_dom, Hk. by rewrite elem_of_list_to_set.
Qed.

Definition one_call_service : Service := mkService ExecutionPolicyAskBeforeExecute None false (mkStores None None).
Definition never : nat -> bool := fun _ => false.

Definition call_improve (state : State) : Handler ImprovePromptResult :=
  improvePrompt one_call_service [] "s1" never sample_request state.

Lemma one_call_run res state :
  call_improve ∅ = (res, state) -> exists saved, run one_call_service saved state.
Proof.
  intros H. eexists. eapply run_step; [apply run_start|].
  unfold call_improve in H. exact (step_improve _ "s1" _ _ _ _ _ _ H).
Qed.

Lemma reachable_bounds_witness :
  let state := (call_improve ∅).2 in (size state <= 8)%nat /\ size state = 1%nat.
Proof.
  intros state. split; [|vm_compute; reflexivity].
  destruct (one_call_run (call_improve ∅).1 state) as [saved H]; [apply surjective_pairing|].
  exact (proj1 (reachable_bounds one_call_service saved state H)).
Defined.

(** ** What a session can read *)

Definition stored_checkpoint (state : State) (session : string) : option GetCheckpointResult :=
  state !! session ≫= ss_checkpoint.

Definition last_saved (session : string) (saved : list (string * GetCheckpointResult))
    : option GetCheckpointResult := snd <$> find (fun c => c.1 =s session) saved.

(** An update finds the session's record, or makes an empty one, perhaps dropping others. *)
Lemma update_session_lookup active session f (state : State) :
  (exists s, update_session active session f state !! session = Some (f s) /\
     (s = empty_session \/ state !! session = Some s)) /\
  forall other s, other <> session -> update_session active session f state !! other = Some s ->
    state !! other = Some s.
Proof.
  unfold update_session, sessionStateLocked. cbv zeta.
  destruct (pruneDisconnected active state !! session) as [s|] eqn:E.
  - split.
    + exists s. rewrite lookup_insert_eq. eauto using prune_lookup.
    + intros other s' Hne. rewrite lookup_insert_ne by done. apply prune_lookup.
  - split.
    + exists empty_session. rewrite lookup_insert_eq. auto.
    + intros other s' Hne. rewrite !lookup_insert_ne by done.
      destruct (8 <=? size _)%nat; [by rewrite lookup_empty|apply prune_lookup].
Qed.

Lemma update_session_kept active session f (state : State) s :
  active = [] \/ session ∈ active -> state !! session = Some s ->
  update_session active session f state !! session = Some (f s).
Proof.
  intros Ha Hs. unfold update_session, sessionStateLocked. cbv zeta.
  rewrite (prune_keeps _ _ _ _ Ha Hs). by rewrite lookup_insert_eq.
Qed.

Lemma update_session_stored active session other f (state : State) v :
  (forall s, ss_checkpoint (f s) = ss_checkpoint s) ->
  stored_checkpoint (update_session active session f state) other = Some v ->
  stored_checkpoint state other = Some v.
Proof.
  intros Hf. unfold stored_checkpoint. destruct (update_session_lookup active session f state) as [(s & E & Hs) Ho].
  destruct (decide (other = session)) as [->|Hne].
  - rewrite E. cbn. rewrite Hf. by destruct Hs as [->| ->].
  - destruct (update_session active session f state !! other) as [s'|] eqn:E'; [|done].
    by rewrite (Ho other s' Hne E').
Qed.

Lemma change_stored session state e state' other v :
  change session state e state' -> stored_checkpoint state' other = Some v ->
  match e with Some saved => if session =s other then saved = v else stored_checkpoint state other = Some v
          | None => stored_checkpoint state other = Some v end.
Proof.
  intros H. destruct H as [|active|active value|active f _ Hf]; [done| | |by apply update_session_stored].
  - unfold stored_checkpoint. destruct (pruneDisconnected active state !! other) as [s|] eqn:E; [|done].
    by rewrite (prune_lookup _ _ _ _ E).
  - unfold stored_checkpoint, saveCheckpoint.
    destruct (update_session_lookup active session (set_checkpoint value) state) as [(s & E & _) Ho].
    destruct (session =s other) eqn:Eq.
    { apply str_eqb_eq in Eq as ->. rewrite E. cbn. by intros [= ->]. }
    apply str_eqb_neq, not_eq_sym in Eq.
    destruct (update_session _ _ _ state !! other) as [s'|] eqn:E'; [|done].
    by rewrite (Ho other s' Eq E').
Qed.

Lemma run_stored service saved state session v :
  run service saved state -> stored_checkpoint state session = Some v -> last_saved session saved = Some v.
Proof.
  intros H. revert v. induction H as [|session' saved state e state' _ IH Hstep]; intros v Hv.
  - unfold stored_checkpoint in Hv. by rewrite lookup_empty in Hv.
  - apply (change_stored _ _ _ _ _ _ (step_change _ _ _ _ _ Hstep)) in Hv.
    destruct e as [value|]; [|by apply IH]. unfold last_saved. cbn [find fst].
    destruct (session' =s session); [by cbn; rewrite Hv|by apply IH].
Qed.

Lemma getCheckpoint_stored active session request state r state' :
  getCheckpoint active session request state = (Ok r, state') ->
  stored_checkpoint state session = Some r /\ exists text, Checkpoint.Render (checkpoint_of r) = Ok text.
Proof.
  unfold getCheckpoint. destruct (_ || _); [done|]. destruct (negb _); [done|].
  unfold stored_checkpoint. destruct (pruneDisconnected active state !! session) as [s|] eqn:E; [|done].
  rewrite (prune_lookup _ _ _ _ E). cbn. destruct (ss_checkpoint s) as [v|]; [|done].
  destruct (Checkpoint.Render (checkpoint_of v)) eqn:R; [|done]. intros [= -> _]. eauto.
Qed.

(** C22: checkpoints do not cross sessions and are never stale: in every reachable state,
    a checkpoint that [get_checkpoint] returns to a session is the last one that a
    successful call of that same session saved, and it satisfies the checkpoint format. *)
Theorem getCheckpoint_is_last_saved (service : Service) (saved : list (string * GetCheckpointResult))
    (state state' : State) (active : list string) (session : string) (request : GetCheckpointRequest)
    (r : GetCheckpointResult) :
  run service saved state -> getCheckpoint active session request state = (Ok r, state') ->
  last_saved session saved = Some r /\ checkpoint_wf (checkpoint_of r).
Proof.
  intros Hrun H. destruct (getCheckpoint_stored _ _ _ _ _ _ H) as [Hs [text Ht]].
  split; [by eapply run_stored|by apply Render_wf in Ht as [Ht _]].
Qed.

Definition latest_request : GetCheckpointRequest :=
  {| gcq_SchemaVersion := SchemaVersion; gcq_Kind := "request"; gcq_Reference := "latest" |}.

Definition clean_request : ImprovePromptRequest := with_intent sample_request "Summarise the open incidents.".

Definition saved_state : State :=
  (improvePrompt one_call_service [] "s1" never clean_request ∅).2.

Lemma getCheckpoint_is_last_saved_witness :
  exists saved r, getCheckpoint [] "s1" latest_request saved_state = (Ok r, saved_state) /\
    last_saved "s1" saved = Some r /\ gcr_Objective r = "Summarise the open incidents.".
Proof.
  destruct (improvePrompt one_call_service [] "s1" never clean_request ∅) as [res state] eqn:E.
  assert (saved_state = state) as Hs by (unfold saved_state; by rewrite E). revert Hs.
  pose proof (run_step _ _ _ _ _ _ (run_start one_call_service) (step_improve _ _ _ _ _ _ _ _ E)) as Hrun.
  assert (exists r, getCheckpoint [] "s1" latest_request saved_state = (Ok r, saved_state) /\
    gcr_Objective r = "Summarise the open incidents.") as (r & Hr & Ho)
    by (eexists; split; vm_compute; reflexivity).
  intros Hs. rewrite Hs in Hr. eexists _, r. rewrite Hs. split; [exact Hr|].
  split; [|exact Ho].
  exact (proj1 (getCheckpoint_is_last_saved one_call_service _ state state [] "s1" latest_request r Hrun Hr)).
Defined.

(** ** A checkpoint that cannot be read *)

Lemma text_literal (max : Z) value : validText value max = true -> text_ok max value.
Proof. apply validText_ok. Qed.

Lemma checkpointForImprove_wf request outcome prompt :
  outcome ∈ [PolicyOutcomeReturnOnly; PolicyOutcomeDenied; PolicyOutcomeApprovalRequired;
             PolicyOutcomeExecutionRecommended] ->
  let r := {| ipr_SchemaVersion := SchemaVersion; ipr_Kind := "result"; ipr_ImprovedPrompt := prompt;
              ipr_PolicyOutcome := outcome; ipr_Diagnostics := []; ipr_BoundaryDecisions := [] |} in
  checkpoint_wf (checkpoint_of (checkpointForImprove request r (NewPlan (ipq_Intent request)))) <->
  text_ok 1000 (bounded (ipq_Intent request) 1000).
Proof.
  intros Ho r. split; [by intros []|]. intros Hi.
  assert (forall values max, forallb (fun v => validText v 500) values = true ->
    (Z.of_nat (length values) <=? max)%Z = true -> list_ok max values) as Hl.
  { intros values max Hv Hm. split; [by apply Z.leb_le|]. apply Forall_forall. intros x Hx.
    apply validText_ok. rewrite forallb_forall in Hv. by apply Hv, list_elem_of_In. }
  split; cbn [checkpoint_of checkpointForImprove gcr_Objective gcr_NextAction gcr_AcceptedDecisions
    gcr_Constraints gcr_EvidenceRefs gcr_Completed gcr_Validation gcr_Blockers gcr_RemainingGates
    cp_Objective cp_NextAction cp_AcceptedDecisions cp_Constraints cp_EvidenceRefs cp_Completed
    cp_Validation cp_Blockers cp_RemainingGates ipr_Diagnostics ipr_PolicyOutcome r];
    [exact Hi|apply text_literal; vm_compute; reflexivity|apply Hl|..];
    try (apply Hl; vm_compute; reflexivity); [|done].
  repeat (apply elem_of_cons in Ho as [->|Ho]; [vm_compute; reflexivity|]). by apply elem_of_nil in Ho.
Qed.

Lemma Resolve_outcome p phase host outcome :
  Policy.Resolve p phase host = Ok outcome ->
  outcome ∈ [PolicyOutcomeReturnOnly; PolicyOutcomeDenied; PolicyOutcomeApprovalRequired;
             PolicyOutcomeExecutionRecommended].
Proof.
  unfold Policy.Resolve. repeat (case_match; [|]); intros [= <-]; set_solver.
Qed.

Lemma Improve_result done request host r :
  Improve done request host = Ok r ->
  exists prompt phase outcome, Policy.Resolve (ipq_ExecutionPolicy request) phase host = Ok outcome /\
    r = {| ipr_SchemaVersion := SchemaVersion; ipr_Kind := "result"; ipr_ImprovedPrompt := prompt;
           ipr_PolicyOutcome := outcome; ipr_Diagnostics := []; ipr_BoundaryDecisions := [] |}.
Proof.
  unfold Improve, improve. destruct (checkContext (done 0%nat)); [done|].
  destruct (prepareImproveRequest request) as [[intent plan]|]; [|done].
  destruct (checkContext (done 1%nat)); [done|].
  destruct (Compiler.compile intent plan _ "") as [plan' compiled]. destruct (_ <? _)%Z; [done|].
  destruct (Policy.Resolve _ _ _) as [outcome|] eqn:E; [|done]. intros [= <-].
  by exists compiled, (pp_PhaseScope plan'), outcome.
Qed.

(** After a successful [improve_prompt] without a plan, the session reads its checkpoint
    back exactly when the raw intent, cut at 1000 bytes, is one line without control
    characters: a checkpoint saved for an intent of several lines is there, but every
    [get_checkpoint] fails on it. *)
Theorem getCheckpoint_after_improve (service : Service) (active : list string) (session : string)
    (done : nat -> bool) (request : ImprovePromptRequest) (state state' : State) (res : ImprovePromptResult) :
  active = [] \/ session ∈ active -> ipq_PromptPlan request = None ->
  improvePrompt service active session done request state = (Ok res, state') ->
  (exists r, (getCheckpoint active session latest_request state').1 = Ok r) <->
  text_ok 1000 (bounded (ipq_Intent request) 1000).
Proof.
  intros Ha Hplan. unfold improvePrompt. destruct (_ <? _)%Z; [done|].
  destruct (Improve done request HostUnknown) as [r|] eqn:E; [|done]. rewrite Hplan. intros [= -> <-].
  destruct (Improve_result _ _ _ _ E) as (prompt & phase & outcome & Ho & ->).
  rewrite <- (checkpointForImprove_wf request outcome prompt) by (by eapply Resolve_outcome).
  set (value := checkpointForImprove _ _ _).
  unfold getCheckpoint. cbn [latest_request gcq_SchemaVersion gcq_Kind gcq_Reference].
  change (_ || _) with false. change (negb _) with false. cbv iota zeta.
  destruct (update_session_lookup active session (set_checkpoint value) state) as [(s & Hs & _) _].
  unfold saveCheckpoint. rewrite (prune_keeps _ _ _ _ Ha Hs). cbn [mbind option_bind ss_checkpoint set_checkpoint].
  destruct (Checkpoint.Render (checkpoint_of value)) as [text|] eqn:R; cbn [fst].
  - apply Render_wf in R as [R _]. split; eauto.
  - split; [by intros [? ?]|]. intros Hwf. exfalso.
    assert (Checkpoint.Render (checkpoint_of value) = Ok (trim_space (write_checkpoint (checkpoint_of value))))
      as R' by (by apply Render_wf). congruence.
Qed.

Definition multiline_request : ImprovePromptRequest :=
  with_intent sample_request ("Summarise the incidents." +:+ LF +:+ "List the owners.").

Lemma getCheckpoint_after_improve_witness :
  let call := improvePrompt one_call_service [] "s1" never multiline_request ∅ in
  is_ok call.1 = true /\ ~ exists r, (getCheckpoint [] "s1" latest_request call.2).1 = Ok r.
Proof.
  intros call. assert (is_ok call.1 = true) as Hok by (vm_compute; reflexivity). split; [exact Hok|].
  destruct call as [[res|err] state] eqn:E; [|discriminate Hok]. cbn [snd]. intros Hr.
  apply (getCheckpoint_after_improve one_call_service [] "s1" never multiline_request ∅ state res) in Hr;
    [|by left|reflexivity|exact E].
  apply validText_ok in Hr. revert Hr. vm_compute. discriminate.
Defined.

(** C23: sessions are isolated: whatever a session calls, the record of any other session
    stays as it was, or is dropped. *)
Theorem step_isolated (service : Service) (session other : string) (state state' : State)
    (e : option GetCheckpointResult) (s : sessionState) :
  step service session state e state' -> other <> session -> state' !! other = Some s ->
  state !! other = Some s.
Proof.
  intros H%step_change Hne. destruct H as [|active|active value|active f _ _]; [done|apply prune_lookup|..];
    by apply update_session_lookup.
Qed.

Lemma step_isolated_witness :
  let state := (improvePrompt one_call_service [] "s2" never clean_request saved_state).2 in
  size state = 2%nat /\ state !! "s1" = saved_state !! "s1".
Proof.
  intros state. split; [vm_compute; reflexivity|].
  assert (exists s, state !! "s1" = Some s) as [s Hr] by (eexists; vm_compute; reflexivity).
  rewrite Hr. symmetry. revert Hr. unfold state.
  destruct (improvePrompt one_call_service [] "s2" never clean_request saved_state) as [res st] eqn:E.
  exact (step_isolated one_call_service "s2" "s1" saved_state st _ s (step_improve _ _ _ _ _ _ _ _ E)
           ltac:(discriminate)).
Defined.
