(* ===== verification/ServiceAudit.v ===== *)
(** * The audit tools of the service (internal/tools/service.go)

    An audit never runs without consent, and what it returned can be reported, from the
    copy the session keeps, until newer audits push it out. *)
From S2P Require Import Contracts Unicode Utf8 Runes GoFmt Textutil Policy Compiler Checkpoint.
From S2P Require Import Regex Lint Report ReportRender AuditRequest Service ServiceState.

(** ** Consent *)

Definition with_audits (audits : string -> list string -> option Z ->
      result ToolError (AuditSessionResult * list ProvenanceLabel))
    (projects : AuditProjectRequest -> result ToolError AuditProjectResult) (service : Service) : Service :=
  mkService (sv_executionPolicy service) (sv_allowedSources service) (sv_processEnabled service)
    (mkStores (Some audits) (Some projects)).

(** [audit_session] reads the store only for a request with consent: without it, the
    result is the same stable error whatever the store holds, and no session changes. *)
Theorem auditSession_needs_consent (service : Service) (parse_time : string -> option Z)
    (active : list string) (session : string) (request : AuditSessionRequest) (state : State) :
  asq_Consent request <> AuditConsentGranted ->
  exists e, forall audits projects,
    auditSession (with_audits audits projects service) parse_time active session request state =
      (Err (Stable e), state).
Proof.
  intros Hc%str_eqb_neq. unfold auditSession.
  assert (exists e, forall audits projects,
    audit_session_query (with_audits audits projects service) parse_time request = Err e) as [e He].
  { unfold audit_session_query. destruct (_ || _ || _); [by eexists|].
    destruct (asq_Consent request =s AuditConsentDenied); [by eexists|]. rewrite Hc. by eexists. }
  exists e. intros audits projects. by rewrite He.
Qed.

Definition unconsented : AuditSessionRequest :=
  {| asq_SchemaVersion := SchemaVersion; asq_Kind := "request"; asq_Reference := "current:x";
     asq_Consent := AuditConsentDenied; asq_ConfiguredSources := ["git"] |}.

Lemma auditSession_needs_consent_witness :
  exists e, forall audits projects,
    auditSession (with_audits audits projects one_call_service) (fun _ => None) [] "s1" unconsented ∅ =
      (Err (Stable e), ∅).
Proof.
  apply (auditSession_needs_consent one_call_service (fun _ => None) [] "s1" unconsented ∅).
  vm_compute. discriminate.
Defined.

(** ** Reading an audit back *)

Lemma auditProject_ok service json_copy active session request state res state' :
  auditProject service json_copy active session request state = (Ok res, state') ->
  ValidateRequest request = None /\ result_matches request res = true /\
  exists cached, json_copy res = Some cached /\
    state' = update_session active session (cache_audit (apr_RevisionHash res) cached) state.
Proof.
  unfold auditProject. destruct (ValidateRequest request); [done|].
  destruct (sources_allowed _ _); [done|]. destruct (st_projectAudits _) as [store|]; [|done].
  destruct (store request) as [r|]; [|done]. destruct (result_matches request r) eqn:E; [|done]. cbn [negb].
  unfold cloneProjectAudit. destruct (json_copy r) as [cached|] eqn:J; [|done]. intros [= -> <-]. eauto.
Qed.

Lemma prune_twice active (state : State) : pruneDisconnected active (pruneDisconnected active state) =
  pruneDisconnected active state.
Proof.
  unfold pruneDisconnected. destruct active; [done|]. rewrite map_filter_filter.
  apply map_filter_ext. naive_solver.
Qed.

(** An audit can be reported: right after a project audit, the session that asked for
    it renders the report of exactly the result it was given, under its revision hash and
    reference, in any reachable state and with any capability (when JSON copies the audit
    faithfully). *)
Theorem audit_then_report (service : Service) (json_copy : AuditProjectResult -> option AuditProjectResult)
    (saved : list (string * GetCheckpointResult)) (active : list string) (session : string)
    (request : AuditProjectRequest) (state state' : State) (res : AuditProjectResult)
    (capability : reportCapabilityState) (report : RenderGovernanceReportRequest) :
  run service saved state -> active = [] \/ session ∈ active -> json_copy res = Some res ->
  auditProject service json_copy active session request state = (Ok res, state') ->
  report_request_error report = None -> rgq_RevisionHash report = apr_RevisionHash res ->
  rgq_AuditReference report = apq_Reference request ->
  (renderGovernanceReport active session capability report state').1 =
    render_project res (rgq_Format report) capability.
Proof.
  intros Hrun%run_ok Ha Hcopy H Hvalid Hhash Href.
  destruct (auditProject_ok _ _ _ _ _ _ _ _ H) as (_ & Hm & cached & Hc & ->).
  rewrite Hcopy in Hc. injection Hc as <-.
  unfold renderGovernanceReport. rewrite Hvalid, Hhash. cbn [fst].
  unfold result_matches in Hm. bool_facts.
  destruct (apr_RevisionHash res =s "") eqn:E.
  { apply str_eqb_eq in E.
    match goal with H : match_string _ _ = true |- _ => rewrite E in H; vm_compute in H; discriminate H end. }
  destruct (update_session_lookup active session (cache_audit (apr_RevisionHash res) res) state) as [(s & Hs & Hor) _].
  rewrite (prune_keeps _ _ _ _ Ha Hs). cbn [negb mbind option_bind].
  assert (session_ok s) as Hok.
  { destruct Hor as [->|Hor]; [apply empty_session_ok|]. by apply (st_sessions _ Hrun session). }
  unfold cached_project. rewrite Hhash.
  destruct (cache_audit_spec (apr_RevisionHash res) res s Hok) as (_ & -> & _).
  rewrite Href. by match goal with H : (apr_AuditReference res =s _) = true |- _ => rewrite H end.
Qed.

(** ** The window of cached audits *)

Definition cache_all (audits : list (string * AuditProjectResult)) (s : sessionState) : sessionState :=
  foldl (fun s a => cache_audit a.1 a.2 s) s audits.

Lemma unique_key {A} (l : list (string * A)) k (x y : A) :
  NoDup l.*1 -> (k, x) ∈ l -> (k, y) ∈ l -> x = y.
Proof.
  intros Hd Hx Hy. apply (elem_of_list_to_map_1 (M := gmap string) l) in Hx, Hy; [|done..]. congruence.
Qed.

(** One more audit moves the window by one. *)
Lemma slide {A} (l : list (string * A)) m k x :
  let kept := (drop (length l - m) l).*1 in
  drop (length (kept ++ [k]) - m) (kept ++ [k]) = (drop (length (l ++ [(k, x)]) - m) (l ++ [(k, x)])).*1.
Proof.
  cbv zeta. rewrite !fmap_drop, fmap_app. cbn [fmap list_fmap fst].
  rewrite !length_app, length_drop, length_fmap. cbn [length].
  rewrite <- (drop_app_le l.*1 [k]) by (rewrite length_fmap; lia).
  rewrite drop_drop. f_equal. lia.
Qed.

(** A session keeps the audits of the last 8 revisions and forgets the older ones:
    after audits of pairwise different revisions, the revisions listed are the last 8 in
    the order of their audits, each with its own audit, and no other is cached. *)
Theorem cache_window (audits : list (string * AuditProjectResult)) :
  NoDup audits.*1 ->
  let s := cache_all audits empty_session in
  let kept := drop (length audits - maxProjectAuditsPerSession) audits in
  ss_projectOrder s = kept.*1 /\
  forall hash audit, ss_projectAudits s !! hash = Some audit <-> (hash, audit) ∈ kept.
Proof.
  intros Hd. cbv zeta.
  assert (session_ok (cache_all audits empty_session) /\
    ss_projectOrder (cache_all audits empty_session) =
      (drop (length audits - maxProjectAuditsPerSession) audits).*1 /\
    forall hash audit, ss_projectAudits (cache_all audits empty_session) !! hash = Some audit ->
      (hash, audit) ∈ audits) as (Hok & Ho & Hf).
  { induction audits as [|[h a] audits IH] using rev_ind.
    - split_and!; [apply empty_session_ok|done|]. intros hash audit. cbn. by rewrite lookup_empty.
    - rewrite fmap_app in Hd. apply NoDup_app in Hd as (Hd & Hn & _).
      destruct (IH Hd) as (Hok & Ho & Hf). unfold cache_all in *. rewrite foldl_app. cbn [foldl fst snd].
      set (s := foldl _ _ _) in *. destruct (cache_audit_spec h a s Hok) as (H1 & H2 & H3 & H4 & _).
      assert (ss_projectAudits s !! h = None) as Hnone.
      { destruct (ss_projectAudits s !! h) as [x|] eqn:E; [|done]. exfalso. apply Hf in E.
        apply (Hn h); [|by apply list_elem_of_here]. apply list_elem_of_fmap. by exists (h, x). }
      split_and!; [done| |].
      + rewrite H4. unfold cache_order. rewrite Hnone, Ho. apply slide.
      + intros hash audit Hc. apply elem_of_app. destruct (decide (hash = h)) as [->|Hne].
        * rewrite H2 in Hc. injection Hc as ->. right. apply list_elem_of_here.
        * left. by apply Hf, H3. }
  split; [done|]. intros hash audit.
  assert (is_Some (ss_projectAudits (cache_all audits empty_session) !! hash) <->
    hash ∈ (drop (length audits - maxProjectAuditsPerSession) audits).*1) as Hdom.
  { rewrite <- elem_of_dom, (so_keys _ Hok), Ho. by rewrite elem_of_list_to_set. }
  split.
  - intros Hc. pose proof (proj1 Hdom (mk_is_Some _ _ Hc)) as ([h a] & -> & Hin)%list_elem_of_fmap.
    cbn in Hc. rewrite (unique_key _ _ _ _ Hd (Hf _ _ Hc) (subseteq_drop _ _ _ Hin)). exact Hin.
  - intros Hin. destruct (proj2 Hdom) as [x Hx].
    { apply list_elem_of_fmap. by exists (hash, audit). }
    rewrite Hx. by rewrite (unique_key _ _ _ _ Hd (Hf _ _ Hx) (subseteq_drop _ _ _ Hin)).
Qed.

(** ** Samples *)

Definition sample_hash : string := str_concat (repeat "0123456789abcdef" 4).

Definition hashed_audit : AuditProjectResult :=
  let a := sample_audit "late data" in
  {| apr_SchemaVersion := apr_SchemaVersion a; apr_Kind := apr_Kind a; apr_AuditReference := "all";
     apr_Scope := AuditScopePortfolio; apr_AsOf := apr_AsOf a; apr_RevisionHash := sample_hash;
     apr_Coverage := apr_Coverage a; apr_Metrics := apr_Metrics a; apr_Findings := apr_Findings a;
     apr_Recommendations := apr_Recommendations a; apr_GovernanceOverhead := apr_GovernanceOverhead a;
     apr_Window := apr_Window a; apr_Contributions := apr_Contributions a;
     apr_WorkloadEffects := apr_WorkloadEffects a; apr_InvocationCounts := apr_InvocationCounts a;
     apr_Outliers := apr_Outliers a; apr_Confounders := apr_Confounders a; apr_Guardrails := apr_Guardrails a;
     apr_DerivationMethod := apr_DerivationMethod a; apr_OmittedCount := apr_OmittedCount a;
     apr_ReportFacts := apr_ReportFacts a |}.

Definition sample_project_request : AuditProjectRequest :=
  {| apq_SchemaVersion := SchemaVersion; apq_Kind := "request"; apq_Scope := AuditScopePortfolio;
     apq_Reference := "all"; apq_ConfiguredSources := ["git"]; apq_StartsAt := 1000000000;
     apq_EndsAt := 2000000000; apq_AsOf := 3000000000; apq_Consent := AuditConsentGranted |}.

Definition audit_service : Service :=
  with_audits (fun _ _ _ => Err OtherError) (fun _ => Ok hashed_audit) one_call_service.

Definition sample_report_request : RenderGovernanceReportRequest :=
  {| rgq_SchemaVersion := SchemaVersion; rgq_Kind := "request"; rgq_AuditReference := "all";
     rgq_RevisionHash := sample_hash; rgq_Format := ReportFormatMarkdown |}.

Lemma audit_then_report_witness :
  let state := (auditProject audit_service Some ["s1"] "s1" sample_project_request ∅).2 in
  let capability := mkCapability false false in
  is_ok (render_project hashed_audit ReportFormatMarkdown capability) = true /\
  (renderGovernanceReport ["s1"] "s1" capability sample_report_request state).1 =
    render_project hashed_audit ReportFormatMarkdown capability.
Proof.
  intros state capability. split; [vm_compute; reflexivity|]. unfold state.
  destruct (auditProject audit_service Some ["s1"] "s1" sample_project_request ∅) as [res st] eqn:E.
  assert (res = Ok hashed_audit) as ->.
  { assert (res = (res, st).1) as -> by reflexivity. rewrite <- E. vm_compute. reflexivity. }
  apply (audit_then_report audit_service Some [] ["s1"] "s1" sample_project_request ∅ st hashed_audit capability
           sample_report_request).
  - apply run_start.
  - right. apply list_elem_of_here.
  - reflexivity.
  - exact E.
  - vm_compute. reflexivity.
  - reflexivity.
  - reflexivity.
Defined.

Lemma cache_window_witness :
  ss_projectOrder (cache_all ((fun i => (fmt_d (Z.of_nat i), hashed_audit)) <$> seq 0 10) empty_session) =
    ["2"; "3"; "4"; "5"; "6"; "7"; "8"; "9"].
Proof.
  rewrite (proj1 (cache_window ((fun i => (fmt_d (Z.of_nat i), hashed_audit)) <$> seq 0 10)
                    ltac:(apply (bool_decide_unpack _); vm_compute; exact I))).
  vm_compute. reflexivity.
Defined.
