(* ===== verification/Metrics.v ===== *)
(** * Metrics (internal/metrics/metrics.go)

    The registry of metric definitions and the calculation of the metrics of a window from
    its counts.  A count is a [Z], as the checks of [Compute] leave only counts that a Go
    [int] holds. *)
From S2P Require Import Contracts.

Definition DefinitionVersion : string := "metric-v1".

Abbreviation Polarity := string (only parsing).
Definition PolarityContextual : Polarity := "contextual".
Definition PolarityLowerBetter : Polarity := "lower_better".
Definition PolarityHigherBetter : Polarity := "higher_better".
Definition PolarityGuardrail : Polarity := "guardrail".

Record MetricDefinition := mkMetricDefinition {
  de_Name : string;
  de_DisplayLabel : string;
  de_Version : string;
  de_Intent : string;
  de_Formula : string;
  de_Numerator : string;
  de_Denominator : string;
  de_NativeUnit : string;
  de_Polarity : Polarity;
  de_MinimumSample : Z;
  de_MinimumCoverage : float64;
  de_PracticalChange : float64;
  de_Hysteresis : float64;
  de_MinimumPersistence : Z;
  de_CooldownWindows : Z;
  de_EvidenceRequired : list string;
  de_Exclusions : list string;
  de_Confounders : list string;
  de_AllowedDiagnoses : list string;
  de_Guardrails : list string;
  de_Limitations : list string;
  de_MisuseRisk : string
}.

Record Input := mkInput {
  in_CompletedTurns : Z;
  in_AttributedTurns : Z;
  in_BoundaryDecisions : Z;
  in_BoundaryViolations : Z;
  in_Checkpoints : Z;
  in_CompleteCheckpoints : Z;
  in_TotalTokens : float64;
  in_NonCachedInputTokens : float64;
  in_ToolCalls : Z;
  in_PassiveWaitCalls : Z;
  in_ToolResults : Z;
  in_OversizedResults : Z;
  in_RepeatedCalls : Z;
  in_ToolErrors : Z;
  in_ObservableMutations : Z;
  in_ValidatedMutations : Z;
  in_AcceptedEvidence : Z;
  in_RedactedEvidence : Z;
  in_CommentaryMessages : Z;
  in_WallClockSeconds : float64;
  in_ActiveSeconds : float64;
  in_ActiveRuntimeKnown : bool;
  in_Coverage : CoverageState;
  in_EvidenceRefs : list string;
  in_Exclusions : list string
}.

Definition newDefinition (name label intent formula numerator denominator unit : string)
    (polarity : Polarity) (minimum : Z) (practical : float64)
    (evidence exclusions confounders diagnoses guardrails limitations : list string) (misuse : string)
    : MetricDefinition :=
  {| de_Name := name; de_DisplayLabel := label; de_Version := DefinitionVersion; de_Intent := intent;
     de_Formula := formula; de_Numerator := numerator; de_Denominator := denominator;
     de_NativeUnit := unit; de_Polarity := polarity; de_MinimumSample := minimum;
     de_MinimumCoverage := float_lit 90 100; de_PracticalChange := practical;
     de_Hysteresis := fdiv practical (float_of_Z 2); de_MinimumPersistence := 2; de_CooldownWindows := 3;
     de_EvidenceRequired := evidence; de_Exclusions := exclusions; de_Confounders := confounders;
     de_AllowedDiagnoses := diagnoses; de_Guardrails := guardrails; de_Limitations := limitations;
     de_MisuseRisk := misuse |}.

Definition quality : list string :=
  ["completion_coverage"; "validation_presence"; "permission_boundaries"; "privacy_coverage"].

Definition registry : list MetricDefinition :=
  [newDefinition "scope_attribution_coverage" "Scope attribution coverage"
     "Measure completed turns with explicit task/project attribution."
     "attributed completed turns / completed turns" "attributed completed turns" "completed turns" "ratio"
     PolarityHigherBetter 1 (float_lit 2 100) ["turns"; "tasks"; "sessions"]
     ["privacy_suppressed_small_cohorts"] ["adapter_coverage"] ["scope_attribution_gap"] quality
     ["unknown_attribution_is_not_failure"] "Must not infer ownership or rank people.";
   newDefinition "boundary_violation_rate" "Boundary violation rate"
     "Measure observed denied or violated boundary decisions."
     "denied or violated boundaries / observed boundary decisions" "denied or violated boundaries"
     "observed boundary decisions" "ratio" PolarityLowerBetter 1 (float_lit 1 100) ["boundaries"]
     ["unknown_boundary_outcome"] ["policy_version"; "risk_class"] ["boundary_violation"] quality
     ["host_boundary_remains_authoritative"] "Never converts a metric into permission.";
   newDefinition "checkpoint_completeness" "Checkpoint completeness"
     "Measure structured checkpoints containing completion, next action, and gate state."
     "complete checkpoints / observed checkpoints" "complete checkpoints" "observed checkpoints" "ratio"
     PolarityHigherBetter 1 (float_lit 5 100) ["checkpoints"]
     ["read_only_sessions_without_checkpoint_requirement"] ["workflow_phase"] ["checkpoint_gap"] quality
     ["counts_do_not_score_prose_quality"] "Checkpoint volume is not a quality score.";
   newDefinition "tokens_per_turn" "Tokens per turn" "Show native token workload per completed turn."
     "valid total-token deltas / completed turns" "valid total-token deltas" "completed turns" "tokens/turn"
     PolarityContextual 1 (float_lit 5 100) ["observations:usage"; "turns"] ["incomplete_turns"]
     ["model"; "tokenizer"; "workload_class"] [] quality ["contextual_not_quality"]
     "Must not trigger model or effort downgrade.";
   newDefinition "non_cached_input_per_turn" "Non-cached input per turn"
     "Measure native non-cached input deltas per completed turn."
     "valid non-cached input deltas / completed turns" "valid non-cached input deltas" "completed turns"
     "tokens/turn" PolarityLowerBetter 1 (float_lit 5 100)
     ["observations:usage"; "observations:cache"; "turns"] ["unknown_cache_accounting"]
     ["model"; "tool_schema"; "instruction"; "memory"; "media"] ["cache_churn"; "context_growth"] quality
     ["quality_guardrail_required"] "API and subscription accounting must remain separate.";
   newDefinition "passive_waits_per_100_tool_calls" "Passive waits per 100 tool calls"
     "Detect avoidable passive polling while preserving required waits."
     "classified passive waits / valid logical tool calls * 100" "classified passive waits"
     "valid logical tool calls" "calls/100_tool_calls" PolarityLowerBetter 5 (float_lit 10 100)
     ["tool_calls"; "state_epochs"; "execution_events:stop"]
     ["required_external_waits"; "user_requested_cadence"] ["external_wait"; "approval_state"]
     ["passive_polling"] quality ["classification_may_be_unknown"]
     "User-requested polling cadence is never waste.";
   newDefinition "oversized_outputs_per_100_tool_results" "Oversized outputs per 100 tool results"
     "Identify oversized text results without treating binary size as text."
     "text results above versioned threshold / valid text tool results * 100" "oversized text tool results"
     "valid text tool results" "results/100_tool_results" PolarityLowerBetter 5 (float_lit 10 100)
     ["items"; "tool_calls"] ["binary_media"; "necessary_complete_output"]
     ["output_modality"; "workload_class"] ["oversized_output"] quality ["threshold_is_versioned"]
     "Required evidence must not be truncated.";
   newDefinition "repeated_calls_per_100_tool_calls" "Repeated calls per 100 tool calls"
     "Measure unchanged repeated logical calls within one state epoch."
     "repeat candidates / valid logical tool calls * 100" "same canonical call in unchanged state epoch"
     "valid logical tool calls" "calls/100_tool_calls" PolarityLowerBetter 5 (float_lit 10 100)
     ["tool_calls"; "state_epochs"]
     ["state_changed"; "retry_after_changed_arguments"; "final_gate_validation"]
     ["repository_state"; "review_state"; "external_version"] ["repeated_unchanged_call"] quality
     ["canonicalization_is_redacted"] "Post-mutation or final-gate validation is not a duplicate.";
   newDefinition "commentary_per_turn" "Commentary per turn" "Show user-visible coordination volume."
     "commentary items / completed turns" "user-visible commentary items" "completed turns" "messages/turn"
     PolarityContextual 1 (float_lit 10 100) ["items"; "turns"] []
     ["workload_class"; "user_update_requirement"] [] quality ["never_automatically_waste"]
     "Necessary communication must not be suppressed.";
   newDefinition "wall_clock_runtime_per_turn" "Wall-clock runtime per turn"
     "Show elapsed runtime per completed turn." "unioned elapsed duration / completed turns"
     "unioned elapsed response duration" "completed turns" "seconds/turn" PolarityContextual 1
     (float_lit 10 100) ["responses"; "turns"] ["incomplete_turns"]
     ["host_load"; "external_service"; "workload_class"] [] quality ["host_load_is_a_confounder"]
     "Latency alone does not imply poor quality.";
   newDefinition "active_runtime_per_turn" "Active runtime per turn"
     "Show elapsed runtime excluding observable passive blocking."
     "unioned active intervals / completed turns" "unioned active intervals" "completed turns" "seconds/turn"
     PolarityContextual 1 (float_lit 10 100) ["phases"; "tool_calls"; "turns"]
     ["external_blocking"; "approval_wait"; "user_wait"] ["host_load"; "parallelism"; "workload_class"] []
     quality ["unobservable_waits_remain_unknown"] "Parallel intervals must be unioned, not summed.";
   newDefinition "tool_error_rate" "Tool error rate"
     "Guard against efficiency gains caused by failed tool work." "failed logical calls / valid logical calls"
     "failed logical calls" "valid logical calls" "ratio" PolarityGuardrail 5 (float_lit 2 100) ["tool_calls"]
     [] ["tool_family"; "external_service"] ["tool_reliability"] [] ["unknown_outcomes_block_promotion"]
     "Errors must not be hidden to improve resource metrics.";
   newDefinition "validation_presence" "Required validation presence"
     "Guard that mutations receive structured validation." "validated mutations / observable mutations"
     "validated mutations" "observable mutations" "ratio" PolarityGuardrail 1 (float_lit 1 100)
     ["state_epochs"; "tool_calls"; "execution_events:checkpoint"] [] ["mutation_kind"] ["missing_validation"]
     [] ["structured_events_only"] "Required final/security/release validation is necessary work.";
   newDefinition "privacy_redaction_coverage" "Privacy redaction coverage"
     "Guard that accepted evidence satisfies redaction requirements."
     "redacted accepted evidence / accepted evidence" "redacted accepted evidence" "accepted evidence" "ratio"
     PolarityGuardrail 1 (float_lit 1 100) ["evidence_artifacts"] [] ["source_kind"] ["privacy_gap"] []
     ["suppressed_small_cohorts"] "Privacy suppression must return unknown, never a fabricated pass."].

(** The package variable and the copy of it that [Definitions] returns. *)
Definition definitions : list MetricDefinition := registry.
Definition Definitions : list MetricDefinition := definitions.

(** An unknown name panics, which [Compute] never causes (see [Compute_exact]). *)
Definition definition (name : string) : option MetricDefinition :=
  find (fun item => de_Name item =s name) definitions.

(** [None] when [definition] panics. *)
Definition ratio (name : string) (numerator : float64) (denominator : Z) (input : Input)
    : option MetricResult :=
  d ← definition name;
  let result (native num den : option float64) status uncertainty :=
    {| mr_Name := name; mr_Version := DefinitionVersion; mr_NativeValue := native;
       mr_NativeUnit := de_NativeUnit d; mr_Numerator := num; mr_Denominator := den;
       mr_SampleCount := denominator; mr_PreviousValue := None; mr_RollingMedian := None;
       mr_RollingMAD := None; mr_BaselineSampleCount := 0; mr_AbsoluteChangePrevious := None;
       mr_PercentageChangePrevious := None; mr_AbsoluteChangeRolling := None;
       mr_PercentageChangeRolling := None; mr_WorkloadAdjustedResidual := None;
       mr_PracticalThreshold := de_PracticalChange d; mr_Coverage := in_Coverage input;
       mr_Status := status; mr_StatusReason := "comparison_unavailable"; mr_Confidence := "unknown";
       mr_Uncertainty := uncertainty; mr_Exclusions := de_Exclusions d ++ in_Exclusions input;
       mr_EvidenceRefs := in_EvidenceRefs input |} in
  let missing uncertainty := result None None None MetricStatusInsufficient uncertainty in
  Some
    (if negb (in_Coverage input =s CoverageStateComplete) then missing "coverage_incomplete"
     else if (name =s "active_runtime_per_turn") && negb (in_ActiveRuntimeKnown input) then
       missing "active_runtime_unavailable"
     else if (denominator <? de_MinimumSample d)%Z then missing "minimum_sample_not_met"
     else
       let value := fdiv numerator (float_of_Z denominator) in
       result (Some value) (Some numerator) (Some (float_of_Z denominator)) MetricStatusFlat "none").

Definition scaled (value : MetricResult) (native : option float64) : MetricResult :=
  {| mr_Name := mr_Name value; mr_Version := mr_Version value; mr_NativeValue := native;
     mr_NativeUnit := mr_NativeUnit value; mr_Numerator := mr_Numerator value;
     mr_Denominator := mr_Denominator value; mr_SampleCount := mr_SampleCount value;
     mr_PreviousValue := mr_PreviousValue value; mr_RollingMedian := mr_RollingMedian value;
     mr_RollingMAD := mr_RollingMAD value; mr_BaselineSampleCount := mr_BaselineSampleCount value;
     mr_AbsoluteChangePrevious := mr_AbsoluteChangePrevious value;
     mr_PercentageChangePrevious := mr_PercentageChangePrevious value;
     mr_AbsoluteChangeRolling := mr_AbsoluteChangeRolling value;
     mr_PercentageChangeRolling := mr_PercentageChangeRolling value;
     mr_WorkloadAdjustedResidual := mr_WorkloadAdjustedResidual value;
     mr_PracticalThreshold := mr_PracticalThreshold value; mr_Coverage := mr_Coverage value;
     mr_Status := mr_Status value; mr_StatusReason := mr_StatusReason value;
     mr_Confidence := mr_Confidence value; mr_Uncertainty := mr_Uncertainty value;
     mr_Exclusions := mr_Exclusions value; mr_EvidenceRefs := mr_EvidenceRefs value |}.

Definition perHundred (name : string) (numerator denominator : Z) (input : Input) : option MetricResult :=
  result ← ratio name (float_of_Z numerator) denominator input;
  Some (match mr_NativeValue result with
        | Some value => scaled result (Some (fmul value (float_of_Z 100)))
        | None => result
        end).

Definition invalidMeasurement (value : float64) : bool := flt value fzero || is_nan value || is_inf value.

Definition invalidInput (input : Input) : bool :=
  let negative n := (n <? 0)%Z in
  let negativeCount :=
    negative (in_CompletedTurns input) || negative (in_AttributedTurns input)
    || negative (in_BoundaryDecisions input) || negative (in_BoundaryViolations input)
    || negative (in_Checkpoints input) || negative (in_CompleteCheckpoints input)
    || negative (in_ToolCalls input) || negative (in_ToolResults input)
    || negative (in_PassiveWaitCalls input) || negative (in_OversizedResults input)
    || negative (in_RepeatedCalls input) || negative (in_ToolErrors input)
    || negative (in_ObservableMutations input) || negative (in_ValidatedMutations input)
    || negative (in_AcceptedEvidence input) || negative (in_RedactedEvidence input)
    || negative (in_CommentaryMessages input) in
  let exceeds part whole := (whole <? part)%Z in
  let countExceedsTotal :=
    exceeds (in_AttributedTurns input) (in_CompletedTurns input)
    || exceeds (in_BoundaryViolations input) (in_BoundaryDecisions input)
    || exceeds (in_CompleteCheckpoints input) (in_Checkpoints input)
    || exceeds (in_PassiveWaitCalls input) (in_ToolCalls input)
    || exceeds (in_OversizedResults input) (in_ToolResults input)
    || exceeds (in_RepeatedCalls input) (in_ToolCalls input)
    || exceeds (in_ToolErrors input) (in_ToolCalls input)
    || exceeds (in_ValidatedMutations input) (in_ObservableMutations input)
    || exceeds (in_RedactedEvidence input) (in_AcceptedEvidence input) in
  let invalidDurationOrTokens :=
    invalidMeasurement (in_TotalTokens input) || invalidMeasurement (in_NonCachedInputTokens input)
    || invalidMeasurement (in_WallClockSeconds input) || invalidMeasurement (in_ActiveSeconds input)
    || flt (in_TotalTokens input) (in_NonCachedInputTokens input)
    || flt (in_WallClockSeconds input) (in_ActiveSeconds input) in
  negativeCount || countExceedsTotal || invalidDurationOrTokens.

Definition by_name (a b : MetricResult) : bool := str_lt (mr_Name a) (mr_Name b).

Definition calculated (input : Input) : list (option MetricResult) :=
  [ratio "scope_attribution_coverage" (float_of_Z (in_AttributedTurns input)) (in_CompletedTurns input) input;
   ratio "boundary_violation_rate" (float_of_Z (in_BoundaryViolations input)) (in_BoundaryDecisions input) input;
   ratio "checkpoint_completeness" (float_of_Z (in_CompleteCheckpoints input)) (in_Checkpoints input) input;
   ratio "tokens_per_turn" (in_TotalTokens input) (in_CompletedTurns input) input;
   ratio "non_cached_input_per_turn" (in_NonCachedInputTokens input) (in_CompletedTurns input) input;
   perHundred "passive_waits_per_100_tool_calls" (in_PassiveWaitCalls input) (in_ToolCalls input) input;
   perHundred "oversized_outputs_per_100_tool_results" (in_OversizedResults input) (in_ToolResults input) input;
   perHundred "repeated_calls_per_100_tool_calls" (in_RepeatedCalls input) (in_ToolCalls input) input;
   ratio "tool_error_rate" (float_of_Z (in_ToolErrors input)) (in_ToolCalls input) input;
   ratio "validation_presence" (float_of_Z (in_ValidatedMutations input)) (in_ObservableMutations input) input;
   ratio "privacy_redaction_coverage" (float_of_Z (in_RedactedEvidence input)) (in_AcceptedEvidence input) input;
   ratio "commentary_per_turn" (float_of_Z (in_CommentaryMessages input)) (in_CompletedTurns input) input;
   ratio "wall_clock_runtime_per_turn" (in_WallClockSeconds input) (in_CompletedTurns input) input;
   ratio "active_runtime_per_turn" (in_ActiveSeconds input) (in_CompletedTurns input) input].

(** [None] would be a panic. *)
Definition Compute (input : Input) : option (result string (list MetricResult)) :=
  if invalidInput input then Some (Err "metric input is inconsistent")
  else results ← mapM id (calculated input); Some (Ok (go_sort by_name results)).

(** ** What is accepted *)

Definition part_of (part whole : Z) : Prop := (0 <= part <= whole)%Z.

Definition measurement (value : float64) : Prop := finite value = true /\ flt value fzero = false.

Record input_wf (input : Input) : Prop := {
  iw_turns : part_of (in_AttributedTurns input) (in_CompletedTurns input);
  iw_boundaries : part_of (in_BoundaryViolations input) (in_BoundaryDecisions input);
  iw_checkpoints : part_of (in_CompleteCheckpoints input) (in_Checkpoints input);
  iw_waits : part_of (in_PassiveWaitCalls input) (in_ToolCalls input);
  iw_results : part_of (in_OversizedResults input) (in_ToolResults input);
  iw_repeated : part_of (in_RepeatedCalls input) (in_ToolCalls input);
  iw_errors : part_of (in_ToolErrors input) (in_ToolCalls input);
  iw_mutations : part_of (in_ValidatedMutations input) (in_ObservableMutations input);
  iw_evidence : part_of (in_RedactedEvidence input) (in_AcceptedEvidence input);
  iw_commentary : (0 <= in_CommentaryMessages input)%Z;
  iw_total : measurement (in_TotalTokens input);
  iw_noncached : measurement (in_NonCachedInputTokens input);
  iw_wall : measurement (in_WallClockSeconds input);
  iw_active : measurement (in_ActiveSeconds input);
  iw_tokens : flt (in_TotalTokens input) (in_NonCachedInputTokens input) = false;
  iw_seconds : flt (in_WallClockSeconds input) (in_ActiveSeconds input) = false
}.

Lemma measurement_spec value : invalidMeasurement value = false <-> measurement value.
Proof.
  unfold invalidMeasurement, measurement, finite.
  destruct (flt value fzero), (is_nan value), (is_inf value); cbn; naive_solver.
Qed.

Lemma invalidInput_spec input : invalidInput input = false <-> input_wf input.
Proof.
  unfold invalidInput. cbv zeta. rewrite !orb_false_iff, !measurement_spec, !Z.ltb_ge. split.
  - intros H. decompose [and] H. split; unfold part_of; done.
  - intros []. unfold part_of in *. split_and!; try done; lia.
Qed.

(** ** What is calculated *)

Record measure := mkMeasure {
  ms_Name : string;
  ms_Numerator : Input -> float64;
  ms_Denominator : Input -> Z;
  ms_Hundred : bool
}.

(** A metric of counts, or of measurements. *)
Definition count_of (name : string) (part whole : Input -> Z) (hundred : bool) : measure :=
  mkMeasure name (fun input => float_of_Z (part input)) whole hundred.

Definition measures : list measure :=
  [count_of "scope_attribution_coverage" in_AttributedTurns in_CompletedTurns false;
   count_of "boundary_violation_rate" in_BoundaryViolations in_BoundaryDecisions false;
   count_of "checkpoint_completeness" in_CompleteCheckpoints in_Checkpoints false;
   mkMeasure "tokens_per_turn" in_TotalTokens in_CompletedTurns false;
   mkMeasure "non_cached_input_per_turn" in_NonCachedInputTokens in_CompletedTurns false;
   count_of "passive_waits_per_100_tool_calls" in_PassiveWaitCalls in_ToolCalls true;
   count_of "oversized_outputs_per_100_tool_results" in_OversizedResults in_ToolResults true;
   count_of "repeated_calls_per_100_tool_calls" in_RepeatedCalls in_ToolCalls true;
   count_of "tool_error_rate" in_ToolErrors in_ToolCalls false;
   count_of "validation_presence" in_ValidatedMutations in_ObservableMutations false;
   count_of "privacy_redaction_coverage" in_RedactedEvidence in_AcceptedEvidence false;
   count_of "commentary_per_turn" in_CommentaryMessages in_CompletedTurns false;
   mkMeasure "wall_clock_runtime_per_turn" in_WallClockSeconds in_CompletedTurns false;
   mkMeasure "active_runtime_per_turn" in_ActiveSeconds in_CompletedTurns false].

(** The evidence for a metric is there. *)
Definition evidenced (input : Input) (d : MetricDefinition) (denominator : Z) : bool :=
  (in_Coverage input =s CoverageStateComplete)
  && implb (de_Name d =s "active_runtime_per_turn") (in_ActiveRuntimeKnown input)
  && (de_MinimumSample d <=? denominator)%Z.

Definition value_of (input : Input) (m : measure) : float64 :=
  let value := fdiv (ms_Numerator m input) (float_of_Z (ms_Denominator m input)) in
  if ms_Hundred m then fmul value (float_of_Z 100) else value.

Definition measured (input : Input) (m : measure) (r : MetricResult) : Prop :=
  exists d, d ∈ definitions /\ de_Name d = ms_Name m /\ mr_Name r = ms_Name m /\
    mr_NativeUnit r = de_NativeUnit d /\ mr_SampleCount r = ms_Denominator m input /\
    mr_Coverage r = in_Coverage input /\
    if evidenced input d (ms_Denominator m input) then
      mr_NativeValue r = Some (value_of input m) /\ mr_Numerator r = Some (ms_Numerator m input) /\
      mr_Denominator r = Some (float_of_Z (ms_Denominator m input)) /\ mr_Uncertainty r = "none"
    else
      mr_NativeValue r = None /\ mr_Numerator r = None /\ mr_Denominator r = None /\
      mr_Status r = MetricStatusInsufficient /\ mr_Uncertainty r <> "none".

Lemma definition_spec name d : definition name = Some d -> d ∈ definitions /\ de_Name d = name.
Proof.
  intros H. apply find_some in H as [Hin Hn]. split; [by apply list_elem_of_In|by apply str_eqb_eq].
Qed.

Lemma ratio_measured input m :
  is_Some (definition (ms_Name m)) -> ms_Hundred m = false ->
  exists r, ratio (ms_Name m) (ms_Numerator m input) (ms_Denominator m input) input = Some r /\
    measured input m r.
Proof.
  intros [d Hd] Hh. destruct (definition_spec _ _ Hd) as [Hin Hn].
  unfold ratio. rewrite Hd. cbn [mbind option_bind]. eexists. split; [reflexivity|].
  exists d. rewrite <- Hn. unfold evidenced, value_of. rewrite Hh.
  destruct (in_Coverage input =s CoverageStateComplete); cbn [negb andb]; [|by (cbn; split_and!)].
  destruct (de_Name d =s "active_runtime_per_turn"), (in_ActiveRuntimeKnown input);
    cbn [negb andb implb]; try (by (cbn; split_and!));
    rewrite Z.ltb_antisym; destruct (de_MinimumSample d <=? ms_Denominator m input)%Z;
    cbn [negb]; by (cbn; split_and!).
Qed.

Lemma perHundred_measured input name part whole :
  is_Some (definition name) ->
  exists r, perHundred name (part input) (whole input) input = Some r /\
    measured input (count_of name part whole true) r.
Proof.
  intros Hd. destruct (ratio_measured input (count_of name part whole false) Hd eq_refl)
    as (r & Hr & d & Hin & Hn & Hname & Hunit & Hs & Hc & Hv).
  cbn [count_of ms_Name ms_Numerator ms_Denominator ms_Hundred] in *.
  unfold perHundred. rewrite Hr. cbn [mbind option_bind]. eexists. split; [reflexivity|].
  exists d. cbn [count_of ms_Name ms_Numerator ms_Denominator ms_Hundred].
  destruct (evidenced input d (whole input)).
  - destruct Hv as (Hv & Hu & He & Hx). rewrite Hv. by split_and!.
  - destruct Hv as (Hv & Hu & He & Hs' & Hx). rewrite Hv. by split_and!.
Qed.

Lemma measures_defined : Forall (fun m => is_Some (definition (ms_Name m))) measures.
Proof. repeat (constructor; [by eexists|]). constructor. Qed.

Lemma calculated_measured input :
  Forall2 (fun m o => exists r, o = Some r /\ measured input m r) measures (calculated input).
Proof.
  pose proof measures_defined as Hd. unfold measures, calculated in *.
  repeat match goal with
  | H : Forall _ (_ :: _) |- _ => apply Forall_cons in H as [? H]
  end.
  repeat (apply Forall2_cons; split); [..|apply Forall2_nil_2];
    first [by apply perHundred_measured | by apply (ratio_measured input (count_of _ _ _ false))
          | by apply (ratio_measured input (mkMeasure _ _ _ false))].
Qed.

Lemma calculated_all input :
  exists results, mapM id (calculated input) = Some results /\ Forall2 (measured input) measures results.
Proof.
  pose proof (calculated_measured input) as H. induction H as [|m o ms os (r & -> & Hr) _ (rs & IH & Hrs)].
  - by exists [].
  - exists (r :: rs). split; [cbn; by rewrite IH|by constructor].
Qed.

#[export] Instance by_name_strict_weak : StrictWeak by_name.
Proof. apply str_lt_on_strict_weak. Qed.

Lemma measure_names : ms_Name <$> measures ≡ₚ de_Name <$> definitions.
Proof.
  apply NoDup_Permutation; [apply (bool_decide_unpack _); vm_compute; exact I..|].
  intros x. split; intros Hx; revert x Hx; apply Forall_forall;
    apply (bool_decide_unpack _); vm_compute; exact I.
Qed.

Lemma Compute_valid input :
  invalidInput input = false ->
  exists unsorted, Compute input = Some (Ok (go_sort by_name unsorted)) /\
    Forall2 (measured input) measures unsorted /\
    mr_Name <$> go_sort by_name unsorted = sort_strings (de_Name <$> Definitions).
Proof.
  intros E. unfold Compute. rewrite E. destruct (calculated_all input) as (results & -> & H).
  exists results. split_and!; [done|done|]. unfold by_name. rewrite go_sort_fmap. apply sort_strings_perm_eq.
  etrans; [|apply measure_names]. apply reflexive_eq. clear E.
  induction H as [|m r ms rs (d & _ & _ & Hn & _) _ IH]; [done|]. cbn. by rewrite Hn, IH.
Qed.

Lemma Compute_names input results :
  Compute input = Some (Ok results) -> mr_Name <$> results = sort_strings (de_Name <$> Definitions).
Proof.
  intros H. destruct (invalidInput input) eqn:E; [unfold Compute in H; by rewrite E in H|].
  destruct (Compute_valid input E) as (unsorted & Hc & _ & Hn). rewrite H in Hc. by injection Hc as ->.
Qed.

(** The metrics are exactly what the counts say: [Compute] accepts exactly the inputs
    whose parts fit their wholes; it never panics; and it gives one result for every
    definition, in the order of the names, each the quotient of its two counts, or per
    hundred, when the coverage is complete and the sample large enough, and no value at all
    otherwise. *)
Theorem Compute_exact (input : Input) :
  match Compute input with
  | None => False
  | Some (Err _) => ~ input_wf input
  | Some (Ok results) =>
      input_wf input /\ mr_Name <$> results = sort_strings (de_Name <$> Definitions) /\
      exists unsorted, unsorted ≡ₚ results /\ Forall2 (measured input) measures unsorted
  end.
Proof.
  destruct (invalidInput input) eqn:E.
  - unfold Compute. rewrite E. intros H%invalidInput_spec. congruence.
  - destruct (Compute_valid input E) as (unsorted & -> & Hm & Hn).
    split_and!; [by apply invalidInput_spec|done|]. exists unsorted. split; [by rewrite go_sort_perm|done].
Qed.
