(* ===== verification/Baseline.v ===== *)
(** * Baselines (internal/baseline/baseline.go)

    The comparison of a metric with the window before it and with the median of earlier
    windows, and the verdict that follows. *)
From S2P Require Import Contracts Metrics.

Definition Version : string := "baseline-v1".

Record Window := mkWindow {
  wi_Value : option float64;
  wi_Coverage : CoverageState;
  wi_MetricVersion : string;
  wi_Comparable : bool;
  wi_GuardrailsPass : bool
}.

Record Comparison := mkComparison {
  cm_Previous : Window;
  cm_Rolling : list Window;
  cm_Seasonal : list Window;
  cm_WorkloadExpected : option float64;
  cm_ConfoundersMatched : bool;
  cm_HysteresisActive : bool;
  cm_PersistenceCount : Z;
  cm_PrivacySuppressed : bool
}.

(** ** The numbers *)

(** [None] is the panic on an empty list. *)
Definition Median (values : list float64) : option float64 :=
  let copyValues := go_sort float_less values in
  let middle := (length copyValues / 2)%nat in
  if (length copyValues mod 2 =? 0)%nat then
    match copyValues !! (middle - 1)%nat, copyValues !! middle with
    | Some a, Some b => if (middle =? 0)%nat then None else Some (fdiv (fadd a b) (float_of_Z 2))
    | _, _ => None
    end
  else copyValues !! middle.

(** The window's value, when it can be compared with [current]. *)
Definition compatible (current : MetricResult) (window : Window) : bool :=
  match wi_Value window with
  | None => false
  | Some value =>
      finite value && (wi_Coverage window =s CoverageStateComplete)
      && (wi_MetricVersion window =s mr_Version current) && wi_Comparable window
  end.

Definition compatibleValues (current : MetricResult) (windows : list Window) : list float64 :=
  omap (fun window => if compatible current window then wi_Value window else None) windows.

Definition change (current baseline : float64) : option float64 * option float64 :=
  let absolute := fsub current baseline in
  if feq baseline fzero then (Some absolute, None) else (Some absolute, Some (fdiv absolute baseline)).

Definition relativeEffect (current baseline : float64) : float64 :=
  if feq baseline fzero then
    if feq current fzero then fzero else inf_with_sign_of current
  else fdiv (fsub current baseline) baseline.

Definition signsConflict (first second : float64) : bool :=
  negb (feq first fzero) && negb (feq second fzero) && negb (Bool.eqb (signbit first) (signbit second)).

Definition confidence (sample : Z) (mad median : float64) : string :=
  if (7 <=? sample)%Z && (feq median fzero || fle (fdiv mad (fabs median)) (float_lit 10 100)) then "high"
  else if (3 <=? sample)%Z then "medium"
  else "low".

(** ** Assignments to fields of the result *)

Definition set_verdict (r : MetricResult) (status : MetricStatus) (reason confidence : string)
    : MetricResult :=
  mkMetricResult (mr_Name r) (mr_Version r) (mr_NativeValue r) (mr_NativeUnit r) (mr_Numerator r)
    (mr_Denominator r) (mr_SampleCount r) (mr_PreviousValue r) (mr_RollingMedian r) (mr_RollingMAD r)
    (mr_BaselineSampleCount r) (mr_AbsoluteChangePrevious r) (mr_PercentageChangePrevious r)
    (mr_AbsoluteChangeRolling r) (mr_PercentageChangeRolling r) (mr_WorkloadAdjustedResidual r)
    (mr_PracticalThreshold r) (mr_Coverage r) status reason confidence (mr_Uncertainty r)
    (mr_Exclusions r) (mr_EvidenceRefs r).

Definition set_reason (r : MetricResult) (reason : string) : MetricResult :=
  set_verdict r (mr_Status r) reason (mr_Confidence r).

Definition set_threshold (r : MetricResult) (threshold : float64) (uncertainty : string) : MetricResult :=
  mkMetricResult (mr_Name r) (mr_Version r) (mr_NativeValue r) (mr_NativeUnit r) (mr_Numerator r)
    (mr_Denominator r) (mr_SampleCount r) (mr_PreviousValue r) (mr_RollingMedian r) (mr_RollingMAD r)
    (mr_BaselineSampleCount r) (mr_AbsoluteChangePrevious r) (mr_PercentageChangePrevious r)
    (mr_AbsoluteChangeRolling r) (mr_PercentageChangeRolling r) (mr_WorkloadAdjustedResidual r)
    threshold (mr_Coverage r) (mr_Status r) (mr_StatusReason r) (mr_Confidence r) uncertainty
    (mr_Exclusions r) (mr_EvidenceRefs r).

Definition set_sample (r : MetricResult) (sample : Z) : MetricResult :=
  mkMetricResult (mr_Name r) (mr_Version r) (mr_NativeValue r) (mr_NativeUnit r) (mr_Numerator r)
    (mr_Denominator r) (mr_SampleCount r) (mr_PreviousValue r) (mr_RollingMedian r) (mr_RollingMAD r)
    sample (mr_AbsoluteChangePrevious r) (mr_PercentageChangePrevious r)
    (mr_AbsoluteChangeRolling r) (mr_PercentageChangeRolling r) (mr_WorkloadAdjustedResidual r)
    (mr_PracticalThreshold r) (mr_Coverage r) (mr_Status r) (mr_StatusReason r) (mr_Confidence r)
    (mr_Uncertainty r) (mr_Exclusions r) (mr_EvidenceRefs r).

Definition set_changes (r : MetricResult) (previous median mad : option float64)
    (changePrevious changeRolling : option float64 * option float64) (residual : option float64)
    : MetricResult :=
  mkMetricResult (mr_Name r) (mr_Version r) (mr_NativeValue r) (mr_NativeUnit r) (mr_Numerator r)
    (mr_Denominator r) (mr_SampleCount r) previous median mad (mr_BaselineSampleCount r)
    changePrevious.1 changePrevious.2 changeRolling.1 changeRolling.2 residual
    (mr_PracticalThreshold r) (mr_Coverage r) (mr_Status r) (mr_StatusReason r) (mr_Confidence r)
    (mr_Uncertainty r) (mr_Exclusions r) (mr_EvidenceRefs r).

(** ** The verdict *)

Definition lowerIsBetter (current : MetricResult) (d : MetricDefinition) : bool :=
  (de_Polarity d =s PolarityLowerBetter)
  || ((de_Polarity d =s PolarityGuardrail) && (mr_Name current =s "tool_error_rate")).

Definition noise_of (d : MetricDefinition) (median mad : float64) : float64 :=
  if negb (feq median fzero) && flt (de_PracticalChange d) (fdiv mad median) then fdiv mad median
  else de_PracticalChange d.

(** The end of [Apply], once the comparison is filled in. *)
Definition judge (current : MetricResult) (d : MetricDefinition) (comparison : Comparison)
    (value previous median mad : float64) (sample : Z) : MetricResult :=
  if negb (wi_GuardrailsPass (cm_Previous comparison)) then
    set_reason current "guardrail_regressed_or_unknown"
  else if negb (cm_ConfoundersMatched comparison) then
    set_verdict current MetricStatusMixed "confounder_unmatched" "low"
  else
    let effectPrevious := relativeEffect value previous in
    let effectRolling := relativeEffect value median in
    let noise := noise_of d median mad in
    let conf := confidence sample mad median in
    if fle (fabs effectPrevious) noise && fle (fabs effectRolling) noise then
      set_verdict current MetricStatusFlat "within_practical_or_noise_threshold" conf
    else if signsConflict effectPrevious effectRolling || (de_Polarity d =s PolarityContextual) then
      set_verdict current MetricStatusMixed "contextual_or_baselines_conflict" conf
    else if cm_HysteresisActive comparison || (cm_PersistenceCount comparison <? de_MinimumPersistence d)%Z then
      set_verdict current MetricStatusFlat "hysteresis_or_persistence" "medium"
    else
      let improved := if lowerIsBetter current d then flt effectRolling fzero else flt fzero effectRolling in
      set_verdict current (if improved then MetricStatusImproved else MetricStatusWorsened)
        "meaningful_matched_change" conf.

(** [None] would be a panic. *)
Definition Apply (current : MetricResult) (d : MetricDefinition) (comparison : Comparison)
    : option (result string MetricResult) :=
  let current := set_threshold current (de_PracticalChange d) (mr_Uncertainty current) in
  let current := set_verdict current MetricStatusInsufficient "comparison_unavailable" "unknown" in
  match mr_NativeValue current with
  | Some value =>
      if negb (finite value) || negb (mr_Coverage current =s CoverageStateComplete) then
        Some (Ok (set_reason current "current_incomplete"))
      else if cm_PrivacySuppressed comparison then
        Some (Ok (set_threshold (set_reason current "privacy_suppressed") (de_PracticalChange d) "small_cohort"))
      else if negb (compatible current (cm_Previous comparison)) then
        Some (Ok (set_reason current "previous_incompatible"))
      else
        let rolling := compatibleValues current (cm_Rolling comparison) in
        let seasonal := compatibleValues current (cm_Seasonal comparison) in
        if (length rolling <? 3)%nat && (length seasonal <? 3)%nat then
          Some (Ok (set_sample (set_reason current "baseline_sample_not_met") (Z.of_nat (length rolling))))
        else
          let '(current, rolling) :=
            if (length rolling <? 3)%nat then (set_reason current "seasonal_last_n_fallback", seasonal)
            else (current, rolling) in
          median ← Median rolling;
          mad ← Median ((fun value => fabs (fsub value median)) <$> rolling);
          previous ← wi_Value (cm_Previous comparison);
          let current := set_sample current (Z.of_nat (length rolling)) in
          let current :=
            set_changes current (Some previous) (Some median) (Some mad) (change value previous)
              (change value median)
              (match cm_WorkloadExpected comparison with
               | Some expected => Some (fsub value expected)
               | None => mr_WorkloadAdjustedResidual current
               end) in
          Some (Ok (judge current d comparison value previous median mad (Z.of_nat (length rolling))))
  | None => Some (Ok (set_reason current "current_incomplete"))
  end.

(** ** Totality *)

Lemma Median_total values : values <> [] -> exists m, Median values = Some m.
Proof.
  intros Hne. unfold Median. set (l := go_sort float_less values).
  assert (length l = length values) as Hl by apply length_go_sort.
  assert (0 < length l)%nat as Hpos by (destruct values; [done|cbn in *; lia]).
  pose proof (Nat.div_mod_eq (length l) 2). pose proof (Nat.mod_upper_bound (length l) 2).
  assert (forall i, (i < length l)%nat -> exists x, l !! i = Some x) as Hin
    by (intros i Hi; by apply lookup_lt_is_Some).
  destruct (length l mod 2 =? 0)%nat eqn:E; bool_facts; [|apply Hin; lia].
  destruct (Hin (length l / 2 - 1)%nat) as [a ->]; [lia|].
  destruct (Hin (length l / 2)%nat) as [b ->]; [lia|].
  destruct (length l / 2 =? 0)%nat eqn:E2; bool_facts; [lia|by eexists].
Qed.

(** ** When a change is called an improvement or a regression *)

(** The current value, the previous one and the values of the baseline, when all of them
    are complete and comparable. *)
Record comparable (current : MetricResult) (comparison : Comparison) (value previous : float64)
    (values : list float64) : Prop := {
  cb_value : mr_NativeValue current = Some value;
  cb_finite : finite value = true;
  cb_complete : mr_Coverage current = CoverageStateComplete;
  cb_public : cm_PrivacySuppressed comparison = false;
  cb_compatible : compatible current (cm_Previous comparison) = true;
  cb_previous : wi_Value (cm_Previous comparison) = Some previous;
  cb_values : values =
    if (length (compatibleValues current (cm_Rolling comparison)) <? 3)%nat
    then compatibleValues current (cm_Seasonal comparison)
    else compatibleValues current (cm_Rolling comparison);
  cb_sample : (3 <= length values)%nat
}.

(** The change is material, one-sided, matched and persistent. *)
Record decisive (d : MetricDefinition) (comparison : Comparison) (value previous median mad : float64)
    : Prop := {
  dc_guardrails : wi_GuardrailsPass (cm_Previous comparison) = true;
  dc_confounders : cm_ConfoundersMatched comparison = true;
  dc_material : fle (fabs (relativeEffect value previous)) (noise_of d median mad) = false \/
                fle (fabs (relativeEffect value median)) (noise_of d median mad) = false;
  dc_one_sided : signsConflict (relativeEffect value previous) (relativeEffect value median) = false;
  dc_polarity : de_Polarity d <> PolarityContextual;
  dc_settled : cm_HysteresisActive comparison = false;
  dc_persistent : (de_MinimumPersistence d <= cm_PersistenceCount comparison)%Z
}.

Definition verdict (r : MetricResult) : Prop :=
  mr_Status r = MetricStatusImproved \/ mr_Status r = MetricStatusWorsened.

(** The change from the median is in the direction the metric should move. *)
Definition favourable (current : MetricResult) (d : MetricDefinition) (value median : float64) : bool :=
  if lowerIsBetter current d then flt (relativeEffect value median) fzero
  else flt fzero (relativeEffect value median).

Lemma judge_verdict current d comparison value previous median mad sample :
  mr_Status current = MetricStatusInsufficient ->
  let r := judge current d comparison value previous median mad sample in
  (verdict r <-> decisive d comparison value previous median mad) /\
  (verdict r -> mr_Status r =
     if favourable current d value median then MetricStatusImproved else MetricStatusWorsened).
Proof.
  intros Hs. unfold judge, favourable, verdict. cbv zeta.
  destruct (wi_GuardrailsPass _) eqn:E1; cbn [negb].
  2: { cbn. rewrite Hs. split; [|by intros [|]]. split; [by intros [|]|intros []; congruence]. }
  destruct (cm_ConfoundersMatched _) eqn:E2; cbn [negb].
  2: { cbn. split; [|by intros [|]]. split; [by intros [|]|intros []; congruence]. }
  destruct (fle (fabs (relativeEffect value previous)) _ && _) eqn:E3.
  { cbn. split; [|by intros [|]]. split; [by intros [|]|]. apply andb_true_iff in E3 as [E3 E4].
    intros [? ? [?|?]]; congruence. }
  destruct (signsConflict _ _) eqn:E4; cbn [orb].
  { cbn. split; [|by intros [|]]. split; [by intros [|]|intros []; congruence]. }
  destruct (de_Polarity d =s PolarityContextual) eqn:E5.
  { apply str_eqb_eq in E5. cbn. split; [|by intros [|]]. split; [by intros [|]|intros []; congruence]. }
  apply str_eqb_neq in E5. apply andb_false_iff in E3.
  destruct (cm_HysteresisActive comparison) eqn:E6; cbn [orb].
  { cbn. split; [|by intros [|]]. split; [by intros [|]|intros []; congruence]. }
  destruct (_ <? _)%Z eqn:E7; bool_facts.
  { cbn. split; [|by intros [|]]. split; [by intros [|]|intros []; lia]. }
  assert (decisive d comparison value previous median mad) as Hd by (by constructor).
  destruct (if lowerIsBetter current d then _ else _); cbn; split; [|done|..|done];
    split; intros _; [done|by left|done|by right].
Qed.

Definition same_measurement (r r' : MetricResult) : Prop :=
  mr_Name r = mr_Name r' /\ mr_NativeValue r = mr_NativeValue r' /\ mr_Coverage r = mr_Coverage r'.

Lemma comparable_unique current comparison value previous values value' previous' values' :
  comparable current comparison value previous values ->
  comparable current comparison value' previous' values' ->
  value = value' /\ previous = previous' /\ values = values'.
Proof. intros [] []. split_and!; congruence. Qed.

Lemma judge_frame current d comparison value previous median mad sample :
  let r := judge current d comparison value previous median mad sample in
  same_measurement r current /\ mr_RollingMedian r = mr_RollingMedian current.
Proof.
  cbv zeta. unfold judge, same_measurement. cbv zeta.
  repeat match goal with |- context [if ?b then _ else _] => destruct b end; by split_and!.
Qed.

Lemma Apply_cases current d comparison :
  (exists r, Apply current d comparison = Some (Ok r) /\ mr_Status r = MetricStatusInsufficient /\
     same_measurement r current /\ forall value previous values, ~ comparable current comparison value previous values) \/
  (exists value previous values median mad filled, comparable current comparison value previous values /\
     Median values = Some median /\ Median ((fun v => fabs (fsub v median)) <$> values) = Some mad /\
     Apply current d comparison =
       Some (Ok (judge filled d comparison value previous median mad (Z.of_nat (length values)))) /\
     mr_Status filled = MetricStatusInsufficient /\ same_measurement filled current /\
     mr_RollingMedian filled = Some median).
Proof.
  unfold Apply. cbv zeta. cbn [set_verdict set_threshold mr_NativeValue mr_Coverage].
  destruct (mr_NativeValue current) as [value|] eqn:Ev.
  2: { left. eexists. split; [reflexivity|]. split_and!; try done. intros ??? []. congruence. }
  destruct (finite value) eqn:Ef; cbn [negb orb].
  2: { left. eexists. split; [reflexivity|]. split_and!; try done. intros ??? []. congruence. }
  destruct (mr_Coverage current =s CoverageStateComplete) eqn:Ec; cbn [negb].
  2: { left. eexists. split; [reflexivity|]. split_and!; try done. apply str_eqb_neq in Ec. by intros ??? []. }
  destruct (cm_PrivacySuppressed comparison) eqn:Ep.
  { left. eexists. split; [reflexivity|]. split_and!; try done. intros ??? []. congruence. }
  change (compatible _ (cm_Previous comparison)) with (compatible current (cm_Previous comparison)).
  change (compatibleValues _ (cm_Rolling comparison)) with (compatibleValues current (cm_Rolling comparison)).
  change (compatibleValues _ (cm_Seasonal comparison)) with (compatibleValues current (cm_Seasonal comparison)).
  destruct (compatible current (cm_Previous comparison)) eqn:Eq; cbn [negb].
  2: { left. eexists. split; [reflexivity|]. split_and!; try done. intros ??? []. congruence. }
  assert (exists previous, wi_Value (cm_Previous comparison) = Some previous) as [previous Epr].
  { unfold compatible in Eq. destruct (wi_Value _); [by eexists|done]. }
  apply str_eqb_eq in Ec.
  destruct ((length (compatibleValues current (cm_Rolling comparison)) <? 3)%nat &&
    (length (compatibleValues current (cm_Seasonal comparison)) <? 3)%nat) eqn:Es.
  { left. eexists. split; [reflexivity|]. split_and!; try done. intros ??? []. subst.
    apply andb_true_iff in Es as [Es1 Es2]. rewrite Es1 in *. bool_facts. lia. }
  right. apply andb_false_iff in Es.
  set (values := if (length (compatibleValues current (cm_Rolling comparison)) <? 3)%nat
    then compatibleValues current (cm_Seasonal comparison)
    else compatibleValues current (cm_Rolling comparison)).
  assert (3 <= length values)%nat as Hl.
  { unfold values. destruct (_ <? 3)%nat eqn:E1; destruct Es; bool_facts; try lia; done. }
  destruct (Median_total values) as [median Hm]; [by intros ->; cbn in Hl; lia|].
  destruct (Median_total ((fun v => fabs (fsub v median)) <$> values)) as [mad Hd].
  { intros E%(f_equal length). rewrite length_fmap in E. cbn in E. lia. }
  exists value, previous, values, median, mad.
  assert (comparable current comparison value previous values) as Hc by (by split).
  clear Es Hc. subst values.
  destruct (length (compatibleValues current (cm_Rolling comparison)) <? 3)%nat eqn:E1;
    cbn [mbind option_bind] in *; rewrite Hm; cbn [mbind option_bind]; rewrite Hd; cbn [mbind option_bind];
    rewrite Epr; cbn [mbind option_bind]; eexists; split_and!; try reflexivity; try done;
    (split; try done; by rewrite E1).
Qed.

Lemma Apply_total current d comparison :
  exists r, Apply current d comparison = Some (Ok r) /\ same_measurement r current.
Proof.
  destruct (Apply_cases current d comparison) as [(r & Hr & _ & Hs & _)|
    (value & previous & values & median & mad & filled & _ & _ & _ & Hr & _ & Hs & _)]; [eauto|].
  eexists. split; [exact Hr|]. destruct (judge_frame filled d comparison value previous median mad
    (Z.of_nat (length values))) as ((Jn & Jv & Jc) & _). destruct Hs as (Sn & Sv & Sc).
  unfold same_measurement. split_and!; congruence.
Qed.

(** C31: a change is called an improvement or a regression only on complete evidence: [Apply]
    always returns a result, with the measured value untouched, and gives one of the two
    verdicts exactly when the current value, the previous window and at least three baseline
    windows are complete and comparable, nothing is suppressed, the guardrails passed, the
    confounders match, the change is beyond the noise, not contradicted, not contextual and
    persistent; the verdict is then the direction of the change from the median. *)
Theorem Apply_verdict (current : MetricResult) (d : MetricDefinition) (comparison : Comparison) :
  exists r, Apply current d comparison = Some (Ok r) /\ mr_Name r = mr_Name current /\
    mr_NativeValue r = mr_NativeValue current /\ mr_Coverage r = mr_Coverage current /\
    (verdict r <-> exists value previous values median mad,
       comparable current comparison value previous values /\ Median values = Some median /\
       Median ((fun v => fabs (fsub v median)) <$> values) = Some mad /\
       decisive d comparison value previous median mad) /\
    (verdict r -> exists value median, mr_NativeValue current = Some value /\ mr_RollingMedian r = Some median /\
       mr_Status r = if favourable current d value median then MetricStatusImproved else MetricStatusWorsened).
Proof.
  destruct (Apply_cases current d comparison) as [(r & Hr & Hs & (Hn & Hv & Hc) & Hno)|
    (value & previous & values & median & mad & filled & Hcmp & Hm & Hd & Hr & Hs & (Hn & Hv & Hc) & Hf)].
  - exists r. split_and!; try done; unfold verdict; rewrite Hs.
    + split; [by intros [|]|]. intros (value & previous & values & median & mad & H & _). by apply Hno in H.
    + by intros [|].
  - eexists. split; [exact Hr|]. destruct (judge_frame filled d comparison value previous median mad
      (Z.of_nat (length values))) as ((Jn & Jv & Jc) & Jm).
    destruct (judge_verdict filled d comparison value previous median mad (Z.of_nat (length values)) Hs)
      as [J1 J2].
    split_and!; [congruence..| |].
    + rewrite J1. split; [intros H; by exists value, previous, values, median, mad|].
      intros (value' & previous' & values' & median' & mad' & H & Hm' & Hd' & H').
      destruct (comparable_unique _ _ _ _ _ _ _ _ Hcmp H) as (<- & <- & <-).
      rewrite Hm in Hm'. injection Hm' as <-. rewrite Hd in Hd'. by injection Hd' as <-.
    + intros Hj. exists value, median. split_and!; [apply Hcmp|congruence|].
      rewrite (J2 Hj). unfold favourable, lowerIsBetter. by rewrite Hn.
Qed.

(** ** A verdict at the median *)

Lemma fsub_diag x : finite x = true -> feq (fsub x x) fzero = true.
Proof.
  destruct x as [s|s| |s m e]; intros Hf; try done; [by destruct s|].
  unfold fsub, SFsub. by rewrite Z.sub_diag.
Qed.

Lemma relativeEffect_diag x :
  finite x = true -> feq (relativeEffect x x) fzero = true /\
  flt (relativeEffect x x) fzero = false /\ flt fzero (relativeEffect x x) = false.
Proof.
  intros Hf. unfold relativeEffect. destruct (feq x fzero) eqn:E; [done|].
  pose proof (fsub_diag x Hf) as Hs. destruct (fsub x x) as [s|[]| |[] m e]; try done.
  destruct x as [sx|sx| |sx mx ex]; try done.
Qed.

(** A value equal to its rolling median is never called an improvement: when such a change
    gets a verdict at all, which then rests on the previous window alone, the verdict is
    that the metric worsened, even for a metric that moved in the right direction. *)
Theorem Apply_at_median (current : MetricResult) (d : MetricDefinition) (comparison : Comparison)
    (r : MetricResult) (value : float64) :
  Apply current d comparison = Some (Ok r) -> mr_NativeValue current = Some value -> finite value = true ->
  mr_RollingMedian r = Some value -> verdict r -> mr_Status r = MetricStatusWorsened.
Proof.
  intros Hr Hv Hf Hm Hj. destruct (Apply_cases current d comparison) as [(r' & Hr' & Hs & _)|
    (v & previous & values & median & mad & filled & Hcmp & _ & _ & Hr' & Hs & (Hn & Hv' & _) & Hfm)];
    rewrite Hr in Hr'; injection Hr' as ->.
  { unfold verdict in Hj. rewrite Hs in Hj. by destruct Hj. }
  destruct (judge_frame filled d comparison v previous median mad (Z.of_nat (length values))) as (_ & Jm).
  rewrite Jm, Hfm in Hm. injection Hm as ->. pose proof (cb_value _ _ _ _ _ Hcmp) as Hv2.
  rewrite Hv in Hv2. injection Hv2 as <-.
  rewrite (proj2 (judge_verdict filled d comparison value previous value mad _ Hs) Hj).
  unfold favourable. destruct (relativeEffect_diag value Hf) as (_ & -> & ->). by destruct (lowerIsBetter _ _).
Qed.

Definition sample_window (value : Z) : Window :=
  mkWindow (Some (float_of_Z value)) CoverageStateComplete DefinitionVersion true true.

(** A metric of which more is better, at 4 before, at 5 now and in every earlier window. *)
Definition sample_comparison : Comparison :=
  mkComparison (sample_window 4) (sample_window <$> [5; 5; 5]%Z) [] None true false 2 false.

Definition sample_definition : MetricDefinition :=
  match definition "checkpoint_completeness" with Some d => d | None => newDefinition "" "" "" "" "" "" "" "" 0 fzero [] [] [] [] [] [] "" end.

Definition sample_current : MetricResult :=
  mkMetricResult "checkpoint_completeness" DefinitionVersion (Some (float_of_Z 5)) "ratio" None None 1
    None None None 0 None None None None None fzero CoverageStateComplete MetricStatusFlat "" "" "none" [] [].

Definition sample_verdict : MetricResult :=
  match Apply sample_current sample_definition sample_comparison with Some (Ok r) => r | _ => sample_current end.

Lemma Apply_at_median_witness :
  de_Polarity sample_definition = PolarityHigherBetter /\
  mr_PreviousValue sample_verdict = Some (float_of_Z 4) /\ mr_Status sample_verdict = MetricStatusWorsened.
Proof.
  split; [reflexivity|]. split; [vm_compute; reflexivity|].
  apply (Apply_at_median sample_current sample_definition sample_comparison sample_verdict (float_of_Z 5));
    [vm_compute; reflexivity..|]. right. vm_compute. reflexivity.
Defined.
