(* ===== verification/Outlier.v ===== *)
(** * Outliers (internal/outlier/outlier.go)

    The metrics farthest from their rolling median, in units of the median absolute
    deviation. *)
From S2P Require Import Contracts.

Definition outlier_of (metric : MetricResult) : option NativeOutlier :=
  match mr_NativeValue metric, mr_RollingMedian metric, mr_RollingMAD metric with
  | Some value, Some median, Some mad =>
      if finite value && finite median && finite mad && negb (fle mad fzero) then
        Some {| no_Metric := mr_Name metric; no_NativeValue := Some value;
                no_NativeUnit := mr_NativeUnit metric;
                no_Direction := if flt value median then "lower" else "higher";
                no_Magnitude := Some (fdiv (fabs (fsub value median)) mad) |}
      else None
  | _, _, _ => None
  end.

(** [*result[i].Magnitude], which is never nil. *)
Definition magnitude (o : NativeOutlier) : float64 := default fzero (no_Magnitude o).

Definition rank_less (a b : NativeOutlier) : bool :=
  if feq (magnitude a) (magnitude b) then str_lt (no_Metric a) (no_Metric b)
  else flt (magnitude b) (magnitude a).

Definition Rank (metrics : list MetricResult) : list NativeOutlier :=
  let result := go_sort rank_less (omap outlier_of metrics) in
  if (10 <? length result)%nat then take 10 result else result.

(** ** The order *)

Lemma magnitude_number metric o : outlier_of metric = Some o -> is_nan (magnitude o) = false.
Proof.
  unfold outlier_of. destruct (mr_NativeValue metric) as [v|], (mr_RollingMedian metric) as [m|],
    (mr_RollingMAD metric) as [d|]; try done.
  destruct (finite v) eqn:Hv, (finite m) eqn:Hm, (finite d) eqn:Hd; try done. cbn [andb].
  destruct (fle d fzero) eqn:Hp; [done|]. intros [= <-]. unfold magnitude. cbn [no_Magnitude default].
  apply fdiv_not_nan; [by rewrite fabs_not_nan; apply fsub_not_nan|done|].
  by destruct d as [sd|sd| |[] md ed].
Qed.

Definition tied (a b : NativeOutlier) : bool :=
  negb (float_less (magnitude b) (magnitude a)) && negb (float_less (magnitude a) (magnitude b)).

(** [rank_less] as a lexicographic order on every float. *)
Definition rank_order (a b : NativeOutlier) : bool :=
  if tied a b then str_lt (no_Metric a) (no_Metric b) else float_less (magnitude b) (magnitude a).

#[export] Instance rank_order_strict_weak : StrictWeak rank_order.
Proof.
  apply (strict_weak_lex tied (fun a b => float_less (magnitude b) (magnitude a))
           (fun a b => str_lt (no_Metric a) (no_Metric b))).
  - intros a b. unfold tied. by rewrite andb_true_iff, !negb_true_iff.
  - apply (strict_weak_flip (fun a b => float_less (magnitude a) (magnitude b))), strict_weak_on, _.
  - apply str_lt_on_strict_weak.
Qed.

Lemma rank_less_order a b :
  is_nan (magnitude a) = false -> is_nan (magnitude b) = false -> rank_less a b = rank_order a b.
Proof.
  intros Ha Hb. unfold rank_less, rank_order, tied.
  rewrite (feq_float_less _ _ Ha Hb), (flt_float_less _ _ Hb). by rewrite andb_comm.
Qed.

Lemma outlier_numbers (metrics : list MetricResult) o : o ∈ omap outlier_of metrics -> is_nan (magnitude o) = false.
Proof. intros (m & _ & Hm)%list_elem_of_omap. by eapply magnitude_number. Qed.

Lemma Rank_sorted metrics :
  Rank metrics = take 10 (go_sort rank_order (omap outlier_of metrics)).
Proof.
  unfold Rank. rewrite (go_sort_ext rank_less rank_order).
  - destruct (10 <? _)%nat eqn:E; bool_facts; [done|]. by rewrite take_ge.
  - intros a b Ha Hb. apply rank_less_order; by eapply outlier_numbers.
Qed.

Definition deviates (metric : MetricResult) (o : NativeOutlier) : Prop :=
  exists value median mad, mr_NativeValue metric = Some value /\ mr_RollingMedian metric = Some median /\
    mr_RollingMAD metric = Some mad /\ finite value = true /\ finite median = true /\ finite mad = true /\
    flt fzero mad = true /\ no_Metric o = mr_Name metric /\ no_NativeUnit o = mr_NativeUnit metric /\
    no_NativeValue o = Some value /\ no_Magnitude o = Some (fdiv (fabs (fsub value median)) mad).

Lemma outlier_deviates metric o : outlier_of metric = Some o -> deviates metric o.
Proof.
  unfold outlier_of. destruct (mr_NativeValue metric) as [v|] eqn:Ev, (mr_RollingMedian metric) as [m|] eqn:Em,
    (mr_RollingMAD metric) as [d|] eqn:Ed; try done.
  destruct (finite v) eqn:Hv, (finite m) eqn:Hm, (finite d) eqn:Hd; try done. cbn [andb].
  destruct (fle d fzero) eqn:Hp; [done|]. intros [= <-]. exists v, m, d. split_and!; try done.
  by destruct d as [sd|sd| |[] md ed].
Qed.

Lemma outlier_name metric o : outlier_of metric = Some o -> no_Metric o = mr_Name metric.
Proof. intros H%outlier_deviates. by destruct H as (? & ? & ? & H); decompose [and] H. Qed.

Lemma rank_order_tie a b : not_after rank_order a b -> not_after rank_order b a -> no_Metric a = no_Metric b.
Proof.
  unfold not_after, rank_order, tied. rewrite (andb_comm (negb (float_less (magnitude a) _))).
  destruct (float_less (magnitude a) (magnitude b)), (float_less (magnitude b) (magnitude a)); try done.
  cbn. intros. by apply str_lt_antisym.
Qed.

(** The outliers are the ten largest deviations: [Rank] returns at most ten, each the
    deviation of a metric in its own unit with a finite positive scale, in decreasing
    magnitude; a deviation it leaves out is not larger than any it keeps, and none is left
    out while there are ten or fewer; the magnitudes are numbers, so the order is total, and
    for metrics of different names the result does not depend on the order of the metrics. *)
Theorem Rank_top (metrics : list MetricResult) :
  (length (Rank metrics) = Nat.min 10 (length (omap outlier_of metrics)))%nat /\
  Forall (fun o => exists metric, metric ∈ metrics /\ deviates metric o) (Rank metrics) /\
  StronglySorted (fun a b => flt (magnitude a) (magnitude b) = false) (Rank metrics) /\
  (exists dropped, Rank metrics ++ dropped ≡ₚ omap outlier_of metrics /\
     Forall (fun d => Forall (fun o => flt (magnitude o) (magnitude d) = false) (Rank metrics)) dropped) /\
  (NoDup (mr_Name <$> metrics) -> forall metrics', metrics' ≡ₚ metrics -> Rank metrics' = Rank metrics).
Proof.
  rewrite Rank_sorted. set (l := omap outlier_of metrics). set (sorted := go_sort rank_order l).
  assert (sorted ≡ₚ l) as Hp by apply go_sort_perm.
  assert (StronglySorted (not_after rank_order) sorted) as Hs by apply go_sort_sorted, _.
  assert (forall o, o ∈ sorted -> is_nan (magnitude o) = false) as Hn.
  { intros o. rewrite Hp. apply outlier_numbers. }
  assert (forall a b, is_nan (magnitude a) = false -> not_after rank_order a b ->
    flt (magnitude a) (magnitude b) = false) as Hle.
  { intros a b Ha Hab. unfold not_after, rank_order, tied in Hab. rewrite flt_float_less by done.
    destruct (float_less (magnitude a) (magnitude b)) eqn:E; [exact Hab|done]. }
  split_and!.
  - rewrite length_take. f_equal. by apply Permutation_length.
  - apply Forall_forall. intros o Ho%elem_of_take. destruct Ho as (i & Hi & _).
    apply list_elem_of_lookup_2 in Hi. rewrite Hp in Hi.
    apply list_elem_of_omap in Hi as (m & Hm & Ho). eauto using outlier_deviates.
  - apply (StronglySorted_on (not_after rank_order)); [by apply StronglySorted_cut|].
    intros a b (i & Ha & _)%elem_of_take _. apply Hle, Hn. by eapply list_elem_of_lookup_2.
  - exists (drop 10 sorted). split; [by rewrite take_drop|]. apply Forall_forall. intros d Hd.
    apply Forall_forall. intros o Ho. apply Hle.
    + apply elem_of_take in Ho as (i & Ho & _). apply Hn. by eapply list_elem_of_lookup_2.
    + by apply (proj2 (StronglySorted_cut _ 10 sorted Hs)).
  - intros Hd metrics' Hm. rewrite Rank_sorted. f_equal. symmetry. apply go_sort_perm_eq; [apply _| |].
    + intros a b Ha Hb Hab Hba. apply list_elem_of_omap in Ha as (ma & Hma & Ea), Hb as (mb & Hmb & Eb).
      assert (ma = mb) as <-; [|congruence]. apply (NoDup_fmap_inj_elem mr_Name metrics); [done..|].
      rewrite <- (outlier_name _ _ Ea), <- (outlier_name _ _ Eb). by apply rank_order_tie.
    + unfold l. by rewrite Hm.
Qed.
