(* ===== verification/Diagnosis.v ===== *)
(** * Detectors (internal/diagnosis/diagnosis.go) and recommendations
    (internal/recommendation/recommendation.go)

    Findings from counted observations, and the proposals that follow from findings. *)
From S2P Require Import Contracts.

Definition DetectorVersion : string := "detector-v1".

Record Observation := mkObservation {
  ob_Code : string;
  ob_Cause : string;
  ob_ExceptionCheck : string;
  ob_Classification : string;
  ob_Coverage : CoverageState;
  ob_PositiveCount : Z;
  ob_Denominator : Z;
  ob_MinimumSample : Z;
  ob_MinimumRate : float64;
  ob_EvidenceRefs : list string;
  ob_Counterevidence : list string;
  ob_RequiredWork : bool;
  ob_ConfounderMatched : bool
}.

Definition bounded (values : list string) (limit : nat) : list string :=
  let result := sort_strings values in
  if (limit <? length result)%nat then take limit result else result.

Definition evaluate (observation : Observation) : option AuditFinding :=
  if (ob_PositiveCount observation <=? 0)%Z then None
  else if (0 <? ob_Denominator observation)%Z && flt fzero (ob_MinimumRate observation)
          && fle (fdiv (float_of_Z (ob_PositiveCount observation)) (float_of_Z (ob_Denominator observation)))
               (ob_MinimumRate observation) then None
  else
    let '(classification, confidence) :=
      if ob_RequiredWork observation then ("necessary", "high")
      else if negb (ob_Coverage observation =s CoverageStateComplete)
              || (ob_Denominator observation <? ob_MinimumSample observation)%Z then ("uncertain", "unknown")
      else if negb (ob_ConfounderMatched observation)
              || (0 <? length (ob_Counterevidence observation))%nat then ("mixed", "medium")
      else (ob_Classification observation, "high") in
    let classification := if classification =s "" then "uncertain" else classification in
    Some {| af_Code := ob_Code observation; af_Detector := ob_Code observation;
            af_DetectorVersion := DetectorVersion; af_Cause := ob_Cause observation;
            af_ExceptionCheck := ob_ExceptionCheck observation; af_Classification := classification;
            af_Confidence := confidence; af_EvidenceRefs := bounded (ob_EvidenceRefs observation) 100;
            af_Counterevidence := bounded (ob_Counterevidence observation) 20 |}.

Definition by_code (a b : AuditFinding) : bool := str_lt (af_Code a) (af_Code b).

Definition Evaluate (observations : list Observation) : list AuditFinding :=
  go_sort by_code (omap evaluate observations).

#[export] Instance by_code_strict_weak : StrictWeak by_code.
Proof. apply str_lt_on_strict_weak. Qed.

(** ** Recommendations *)

Definition RecommendationVersion : string := "recommendation-v1".

Record Feedback := mkFeedback {
  fb_State : string;
  fb_CooldownUntil : Z;
  fb_EvidenceRevision : string
}.

Record RecommendationContext := mkRecommendationContext {
  rc_AsOf : Z;
  rc_ExistingRuleCoverage : gmap string bool;
  rc_Feedback : gmap string Feedback;
  rc_MaterialEvidenceRevision : string;
  rc_EvidenceRevisions : gmap string string;
  rc_QualityGuardrailsPass : bool
}.

Definition suppressed (code : string) (context : RecommendationContext) : bool :=
  match rc_Feedback context !! code with
  | None => false
  | Some feedback =>
      if negb (fb_State feedback =s "dismissed") then false
      else
        let own := default "" (rc_EvidenceRevisions context !! code) in
        let revision := if negb (own =s "") then own else rc_MaterialEvidenceRevision context in
        let newEvidence := negb (revision =s "") && negb (revision =s fb_EvidenceRevision feedback) in
        (rc_AsOf context <? fb_CooldownUntil feedback)%Z && negb newEvidence
  end.

Definition preview (finding : AuditFinding) (code target action movement verification : string)
    (risks : list string) : AuditRecommendation :=
  {| ar_Code := code; ar_PolicyVersion := RecommendationVersion; ar_LifecycleState := "proposed";
     ar_TargetSurface := target; ar_Action := action; ar_ExpectedMovement := movement;
     ar_ProtectedGuardrails := ["completion"; "permissions"; "privacy"; "quality"; "safety"; "validation"];
     ar_ApprovalRequired := true; ar_Verification := verification; ar_Risks := risks;
     ar_EvidenceRefs := af_EvidenceRefs finding |}.

Definition noAction : AuditRecommendation :=
  {| ar_Code := "no_action"; ar_PolicyVersion := RecommendationVersion; ar_LifecycleState := "proposed";
     ar_TargetSurface := "no_action"; ar_Action := "Keep the current workflow.";
     ar_ExpectedMovement := "none"; ar_ProtectedGuardrails := ["all_configured_quality_and_safety_gates"];
     ar_ApprovalRequired := false; ar_Verification := "Re-audit after new comparable evidence is available.";
     ar_Risks := []; ar_EvidenceRefs := [] |}.

Definition candidate (finding : AuditFinding) : option AuditRecommendation :=
  let code := af_Code finding in
  if code =s "scope_attribution_gap" then
    Some (preview finding "restore_scope_attribution" "collector_mapping"
      "Restore explicit normalized task attribution at the adapter boundary."
      "higher scope attribution coverage without identity disclosure"
      "Replay the same synthetic attribution fixtures and require observed keyed task aliases."
      ["privacy suppression may keep small cohorts unknown"])
  else if code =s "checkpoint_gap" then
    Some (preview finding "complete_checkpoint_contract" "validation_cadence"
      "Record completion, next action, and remaining gate counts at required checkpoints."
      "higher checkpoint completeness without extra checkpoint volume"
      "Replay matched checkpoint fixtures and require all structured fields."
      ["unnecessary checkpoints add governance overhead"])
  else if code =s "passive_polling" then
    Some (preview finding "wait_on_state_change" "validation_cadence"
      "Replace unchanged polling with the configured wait or user-requested cadence."
      "lower passive waits with unchanged completion and coverage"
      "Replay a matched window and require fewer unchanged polls with no missed state transition."
      ["external state may require polling"])
  else if code =s "repeated_unchanged_call" then
    Some (preview finding "reuse_unchanged_evidence" "tool_output_budget"
      "Reuse the prior bounded result until relevant state changes."
      "lower repeated calls with equal evidence coverage"
      "Replay a matched window and require fewer duplicate calls with equal evidence coverage."
      ["stale evidence after an unobserved mutation"])
  else if code =s "missing_validation" then
    Some (preview finding "validate_after_mutation" "validation_cadence"
      "Run the smallest configured validation after each observable mutation."
      "higher validation presence without weakening final gates"
      "Replay the next matched window and require complete mutation validation coverage."
      ["validation cost may rise for mutation-heavy work"])
  else if code =s "privacy_redaction_gap" then
    Some (preview finding "restore_redaction_coverage" "project_instruction"
      "Restore configured redaction before accepting additional evidence."
      "complete privacy redaction coverage"
      "Re-run redaction fixtures and require no accepted evidence with unknown redaction state."
      ["suppression may reduce metric coverage"])
  else None.

Definition skipped (context : RecommendationContext) (finding : AuditFinding) : bool :=
  (af_Classification finding =s "necessary") || (af_Classification finding =s "uncertain")
  || default false (rc_ExistingRuleCoverage context !! af_Code finding)
  || suppressed (af_Code finding) context || negb (rc_QualityGuardrailsPass context).

(** The loop, with the recommendations already made. *)
Fixpoint generate (context : RecommendationContext) (findings : list AuditFinding)
    (result : list AuditRecommendation) : list AuditRecommendation :=
  match findings with
  | [] => result
  | finding :: rest =>
      if (length result =? 5)%nat then result
      else if skipped context finding then generate context rest result
      else match candidate finding with
           | Some recommendation => generate context rest (result ++ [recommendation])
           | None => generate context rest result
           end
  end.

Definition Generate (findings : list AuditFinding) (context : RecommendationContext)
    : list AuditRecommendation :=
  match generate context (go_sort by_code findings) [] with
  | [] => [noAction]
  | result => result
  end.

(** ** Findings *)

Lemma bounded_spec values limit :
  (length (bounded values limit) <= limit)%nat /\ bounded values limit ⊆ values.
Proof.
  unfold bounded. destruct (_ <? _)%nat eqn:E; bool_facts.
  - split; [rewrite length_take; lia|]. intros x Hx. apply (subseteq_take limit) in Hx.
    by rewrite sort_strings_perm in Hx.
  - split; [done|]. intros x. by rewrite sort_strings_perm.
Qed.

(** What a finding says of its observation. *)
Record grounded (o : Observation) (f : AuditFinding) : Prop := {
  gd_code : af_Code f = ob_Code o;
  gd_cause : af_Cause f = ob_Cause o;
  gd_count : (0 < ob_PositiveCount o)%Z;
  gd_refs : (length (af_EvidenceRefs f) <= 100)%nat /\ af_EvidenceRefs f ⊆ ob_EvidenceRefs o;
  gd_counter : (length (af_Counterevidence f) <= 20)%nat /\ af_Counterevidence f ⊆ ob_Counterevidence o;
  gd_necessary : ob_RequiredWork o = true -> af_Classification f = "necessary";
  gd_plain : ob_RequiredWork o = false -> ob_Coverage o = CoverageStateComplete ->
    (ob_MinimumSample o <= ob_Denominator o)%Z -> ob_ConfounderMatched o = true ->
    ob_Counterevidence o = [] -> ob_Classification o <> "" -> af_Classification f = ob_Classification o;
  gd_judged : ob_RequiredWork o = false -> af_Classification f <> "uncertain" ->
    ob_Coverage o = CoverageStateComplete /\ (ob_MinimumSample o <= ob_Denominator o)%Z /\
    (af_Classification f = ob_Classification o \/
     af_Classification f = "mixed" /\ (ob_ConfounderMatched o = false \/ ob_Counterevidence o <> []))
}.

Lemma evaluate_grounded o f : evaluate o = Some f -> grounded o f.
Proof.
  unfold evaluate. destruct (_ <=? _)%Z eqn:Ep; [done|]. destruct (_ && _ && _); [done|]. bool_facts.
  assert ((0 <? length (ob_Counterevidence o))%nat = false <-> ob_Counterevidence o = []) as Hc.
  { rewrite Nat.ltb_ge. destruct (ob_Counterevidence o); cbn; split; intros; try done; lia. }
  destruct (ob_RequiredWork o) eqn:Er.
  { intros [= <-]. split; cbn; try apply bounded_spec; done || congruence. }
  destruct (_ || _) eqn:E1.
  { intros [= <-]. split; cbn; try apply bounded_spec; try (done || congruence). intros _ H1 H2.
    rewrite (proj2 (str_eqb_eq _ _) H1) in E1. cbn in E1. bool_facts. lia. }
  apply orb_false_iff in E1 as [E1 E2]. apply negb_false_iff, str_eqb_eq in E1. apply Z.ltb_ge in E2.
  destruct (_ || _) eqn:E3.
  { intros [= <-]. split; cbn; try apply bounded_spec; try (done || congruence).
    - intros _ _ _ Hm Hn. apply Hc in Hn. rewrite Hm, Hn in E3. done.
    - intros _ _. split_and!; [done..|]. right. split; [done|].
      destruct (ob_ConfounderMatched o) eqn:Em; [|by left]. right. intros Hn. apply Hc in Hn.
      by rewrite Hn in E3. }
  intros [= <-]. destruct (ob_Classification o =s "") eqn:E4.
  - apply str_eqb_eq in E4. split; cbn; try apply bounded_spec; done || congruence.
  - split; cbn; try apply bounded_spec; try (done || congruence). intros _ _. split_and!; [done..|by left].
Qed.

Lemma elem_of_Evaluate f observations : f ∈ Evaluate observations <-> exists o, o ∈ observations /\ evaluate o = Some f.
Proof. unfold Evaluate. by rewrite elem_of_go_sort, list_elem_of_omap. Qed.

(** ** Recommendations *)

Definition proposal (context : RecommendationContext) (finding : AuditFinding) : option AuditRecommendation :=
  if skipped context finding then None else candidate finding.

Lemma generate_spec context findings result :
  (length result <= 5)%nat ->
  generate context findings result = take 5 (result ++ omap (proposal context) findings).
Proof.
  revert result. induction findings as [|f findings IH]; intros result Hl; cbn [generate].
  { rewrite app_nil_r. by rewrite take_ge. }
  destruct (length result =? 5)%nat eqn:E5; bool_facts.
  { rewrite take_app_le by lia. by rewrite take_ge by lia. }
  unfold omap. cbn [list_omap]. fold (omap (M := list) (proposal context)). unfold proposal at 1.
  destruct (skipped context f); [by apply IH|]. destruct (candidate f) as [r|]; [|by apply IH].
  rewrite IH by (rewrite length_app; cbn; lia). by rewrite <- app_assoc.
Qed.

Lemma candidate_preview f r : candidate f = Some r ->
  ar_ApprovalRequired r = true /\ ar_LifecycleState r = "proposed" /\
  ar_EvidenceRefs r = af_EvidenceRefs f /\ ar_Code r <> "no_action".
Proof. unfold candidate. repeat (case_match; [by intros [= <-]|]). done. Qed.
