(* ===== verification/Tokens.v ===== *)
(** * Deltas of native counters (internal/tokens/tokens.go) *)
From S2P Require Import Contracts GoInt.

Definition AlgorithmVersion : string := "counter-delta-v1".

Record Observation := mkObservation {
  ob_CounterType : string;
  ob_Unit : string;
  ob_Value : Z;
  ob_Sequence : Z;
  ob_Source : string
}.

Record Delta := mkDelta {
  dl_CounterType : string;
  dl_Unit : string;
  dl_Value : Z;
  dl_Start : Observation;
  dl_End : Observation;
  dl_State : string;
  dl_Confidence : string;
  dl_AlgorithmVersion : string
}.

Definition delta_of (start stop : Observation) (value : Z) (state confidence : string) : Delta :=
  {| dl_CounterType := ob_CounterType stop; dl_Unit := ob_Unit stop; dl_Value := value;
     dl_Start := start; dl_End := stop; dl_State := state; dl_Confidence := confidence;
     dl_AlgorithmVersion := AlgorithmVersion |}.

(** The error case also returns the delta, in state "unknown". *)
Definition Derive (start stop : Observation) (wrapAt : Z) : Delta * option string :=
  if (ob_CounterType start =s "") || negb (ob_CounterType start =s ob_CounterType stop)
     || (ob_Unit start =s "") || negb (ob_Unit start =s ob_Unit stop)
     || negb (ob_Source start =s ob_Source stop)
  then (delta_of start stop 0 "unknown" "low", Some "unlike counters cannot be combined")
  else if (ob_Sequence stop <=? ob_Sequence start)%Z then
    (delta_of start stop 0 "duplicate_or_out_of_order" "low", None)
  else if (ob_Value start <=? ob_Value stop)%Z then
    (delta_of start stop (u64_sub (ob_Value stop) (ob_Value start)) "derived" "high", None)
  else if (0 <? wrapAt)%Z && (ob_Value start <=? wrapAt)%Z && (ob_Value stop <=? wrapAt)%Z then
    (delta_of start stop
       (u64_add (u64_add (u64_sub wrapAt (ob_Value start)) (ob_Value stop)) 1)
       "wrap" "medium", None)
  else (delta_of start stop 0 "reset" "medium", None).

Record observation_wf (o : Observation) : Prop := {
  ow_value : u64_range (ob_Value o);
  ow_sequence : u64_range (ob_Sequence o)
}.

(** Two observations of the same counter. *)
Record like (start stop : Observation) : Prop := {
  lk_type : ob_CounterType start = ob_CounterType stop;
  lk_type_known : ob_CounterType start <> "";
  lk_unit : ob_Unit start = ob_Unit stop;
  lk_unit_known : ob_Unit start <> "";
  lk_source : ob_Source start = ob_Source stop
}.

Lemma like_guard start stop :
  like start stop <->
  (ob_CounterType start =s "") || negb (ob_CounterType start =s ob_CounterType stop)
  || (ob_Unit start =s "") || negb (ob_Unit start =s ob_Unit stop)
  || negb (ob_Source start =s ob_Source stop) = false.
Proof.
  rewrite !orb_false_iff, !negb_false_iff, !str_eqb_neq, !str_eqb_eq.
  split; [intros []; tauto|]. intros ((((? & ?) & ?) & ?) & ?). by split.
Qed.

Lemma wrap_value wrapAt s e :
  u64_range wrapAt -> u64_range s -> u64_range e -> (s <= wrapAt)%Z -> (e < s)%Z ->
  u64_add (u64_add (u64_sub wrapAt s) e) 1 = (wrapAt - s + e + 1)%Z.
Proof.
  unfold u64_range, u64_add, u64_sub. intros. rewrite !(u64_id (wrapAt - s)),
    !(u64_id (wrapAt - s + e)), u64_id; unfold u64_range; lia.
Qed.

(** A counter that counts modulo [wrapAt + 1] and advances by [d] between two
    observations of increasing sequence is measured exactly: [Derive] returns [d],
    with no 64-bit overflow, and says whether the counter wrapped in between. *)
Theorem Derive_recovers (start stop : Observation) (wrapAt d : Z) :
  observation_wf start -> observation_wf stop -> like start stop ->
  u64_range wrapAt -> (0 < wrapAt)%Z ->
  (ob_Value start <= wrapAt)%Z -> (0 <= d <= wrapAt)%Z ->
  ob_Value stop = ((ob_Value start + d) mod (wrapAt + 1))%Z ->
  (ob_Sequence start < ob_Sequence stop)%Z ->
  Derive start stop wrapAt =
    (delta_of start stop d
       (if (ob_Value start + d <=? wrapAt)%Z then "derived" else "wrap")
       (if (ob_Value start + d <=? wrapAt)%Z then "high" else "medium"), None).
Proof.
  intros [Hs _] [He _] Hl Hw Hw0 Hsw Hd Hmod Hseq. unfold Derive.
  rewrite (proj1 (like_guard _ _) Hl), (proj2 (Z.leb_gt _ _)) by lia.
  destruct (Z.leb_spec (ob_Value start + d) wrapAt).
  - rewrite Z.mod_small in Hmod by (unfold u64_range in *; lia).
    rewrite (proj2 (Z.leb_le _ _)) by lia.
    unfold u64_sub. rewrite u64_id by (unfold u64_range in *; lia).
    by replace (ob_Value stop - ob_Value start)%Z with d by lia.
  - assert (ob_Value stop = ob_Value start + d - (wrapAt + 1))%Z as Hv.
    { rewrite Hmod. symmetry. apply (Z.mod_unique_pos _ _ 1); unfold u64_range in *; lia. }
    rewrite (proj2 (Z.leb_gt (ob_Value start) _)), (proj2 (Z.ltb_lt _ _)),
      !(proj2 (Z.leb_le _ wrapAt)) by lia.
    cbn [andb]. rewrite wrap_value by (done || lia). f_equal. f_equal. lia.
Qed.

(** On every input [Derive] measures nothing unless it can: a non-zero value
    comes only with the states "derived" and "wrap", it fits in 64 bits, and adding
    it to the start value gives the end value, modulo [wrapAt + 1] after a wrap; it
    fails exactly for unlike counters. *)
Theorem Derive_sound (start stop : Observation) (wrapAt : Z) :
  observation_wf start -> observation_wf stop -> u64_range wrapAt ->
  let '(delta, err) := Derive start stop wrapAt in
  (err <> None <-> ~ like start stop) /\
  u64_range (dl_Value delta) /\
  (dl_State delta = "derived" -> (ob_Value start + dl_Value delta = ob_Value stop)%Z) /\
  (dl_State delta = "wrap" ->
     ((ob_Value start + dl_Value delta) mod (wrapAt + 1) = ob_Value stop)%Z /\
     (dl_Value delta <= wrapAt)%Z) /\
  (dl_Value delta <> 0%Z -> dl_State delta = "derived" \/ dl_State delta = "wrap").
Proof.
  intros [Hs _] [He _] Hw. unfold Derive.
  pose proof (like_guard start stop) as Hl.
  destruct ((ob_CounterType start =s "") || _ || _ || _ || _).
  { cbn. split_and!; try done. split; [|done]. intros _ H. apply Hl in H. done. }
  assert (like start stop) by (by apply Hl).
  assert ((None : option string) <> None <-> ~ like start stop) by (split; [done|tauto]).
  case_goal; bool_facts; [by cbn; split_and!|].
  case_goal; bool_facts; cbn [delta_of dl_Value dl_State].
  { unfold u64_sub. rewrite u64_id by (unfold u64_range in *; lia).
    split_and!; try done; unfold u64_range in *; try lia; intros; try lia; by left. }
  case_goal; bool_facts; cbn [delta_of dl_Value dl_State]; [|by split_and!].
  rewrite wrap_value by done.
  split_and!; try done; unfold u64_range in *; try lia; intros _; [|by right].
  split; [|lia]. symmetry. apply (Z.mod_unique_pos _ _ 1); lia.
Qed.

(** ** Witnesses *)

Definition sample_observation (value sequence : Z) : Observation :=
  mkObservation "input_tokens" "tokens" value sequence "usage".

Lemma sample_like v1 s1 v2 s2 : like (sample_observation v1 s1) (sample_observation v2 s2).
Proof. by split. Qed.

Lemma Derive_recovers_witness :
  Derive (sample_observation 65530 7) (sample_observation 4 9) 65535 =
    (delta_of (sample_observation 65530 7) (sample_observation 4 9) 10 "wrap" "medium", None).
Proof.
  apply (Derive_recovers (sample_observation 65530 7) (sample_observation 4 9) 65535 10);
    try (unfold u64_range; cbn; lia).
  - split; unfold u64_range; cbn; lia.
  - split; unfold u64_range; cbn; lia.
  - apply sample_like.
  - reflexivity.
Defined.

Lemma Derive_sound_witness :
  let delta := fst (Derive (sample_observation 65530 7) (sample_observation 4 9) 65535) in
  dl_State delta = "wrap" /\ ((65530 + dl_Value delta) mod 65536 = 4)%Z.
Proof.
  assert (observation_wf (sample_observation 65530 7)) as H1 by (split; unfold u64_range; cbn; lia).
  assert (observation_wf (sample_observation 4 9)) as H2 by (split; unfold u64_range; cbn; lia).
  assert (u64_range 65535) as H3 by (unfold u64_range; lia).
  split; [reflexivity|].
  exact (proj1 (proj1 (proj2 (proj2 (proj2 (Derive_sound _ _ _ H1 H2 H3)))) eq_refl)).
Defined.
