(* ===== verification/Lineage.v ===== *)
(** * Exactly-once invocation lineage (internal/lineage/lineage.go)

    [Correlate] folds raw events into one invocation per logical call, ignoring
    redelivered events, and counts the host and leaf calls.  The iteration order of
    the Go map is a parameter of the summary. *)
From S2P Require Import Contracts.
From Stdlib Require Import Ascii.

Record Event := mkEvent {
  ev_Source : string;
  ev_SourceEventID : string;
  ev_LogicalCallID : string;
  ev_ParentCallID : string;
  ev_Kind : string;
  ev_Role : string;
  ev_Attempt : Z;
  ev_Result : bool;
  ev_LateRevision : bool
}.

Record Invocation := mkInvocation {
  in_LogicalCallID : string;
  in_ParentCallID : string;
  in_Kinds : list string;
  in_Sources : list string;
  in_Attempts : Z;
  in_HasResult : bool;
  in_Revised : bool;
  in_ParentConflict : bool
}.

Record Summary := mkSummary {
  su_Invocations : list Invocation;
  su_HostCount : Z;
  su_LeafCount : Z
}.

Definition appendUnique (values : list string) (value : string) : list string :=
  if contains values value then values else values ++ [value].

Definition identity (event : Event) : string :=
  ev_Source event +:+ String zero "" +:+ ev_SourceEventID event.

Definition identified (event : Event) : bool :=
  negb ((ev_LogicalCallID event =s "") || (ev_SourceEventID event =s "")).

(** [&Invocation{...}] of a call seen for the first time. *)
Definition new_invocation (event : Event) : Invocation :=
  mkInvocation (ev_LogicalCallID event) (ev_ParentCallID event) [] [] 0 false false false.

(** The [else if] branch: events of one call that disagree on their parent. *)
Definition check_parent (invocation : Invocation) (event : Event) : Invocation :=
  if in_ParentCallID invocation =s ev_ParentCallID event then invocation
  else {| in_LogicalCallID := in_LogicalCallID invocation; in_ParentCallID := "";
          in_Kinds := in_Kinds invocation; in_Sources := in_Sources invocation;
          in_Attempts := in_Attempts invocation; in_HasResult := in_HasResult invocation;
          in_Revised := in_Revised invocation; in_ParentConflict := true |}.

(** The updates that follow, for new and known calls alike. *)
Definition absorb (invocation : Invocation) (event : Event) : Invocation :=
  {| in_LogicalCallID := in_LogicalCallID invocation;
     in_ParentCallID := in_ParentCallID invocation;
     in_Kinds := appendUnique (in_Kinds invocation) (ev_Kind event);
     in_Sources := appendUnique (in_Sources invocation) (ev_Source event);
     in_Attempts := if (in_Attempts invocation <? ev_Attempt event)%Z then ev_Attempt event
                    else in_Attempts invocation;
     in_HasResult := in_HasResult invocation || ev_Result event;
     in_Revised := in_Revised invocation || ev_LateRevision event;
     in_ParentConflict := in_ParentConflict invocation |}.

(** The variables [byCall] and [seen]. *)
Record Correlation := mkCorrelation {
  co_byCall : gmap string Invocation;
  co_seen : gset string
}.

Definition record_event (byCall : gmap string Invocation) (event : Event)
    : gmap string Invocation :=
  let invocation := match byCall !! ev_LogicalCallID event with
                    | None => new_invocation event
                    | Some invocation => check_parent invocation event
                    end in
  <[ev_LogicalCallID event := absorb invocation event]> byCall.

(** The body of the loop over the events. *)
Definition correlate_event (s : Correlation) (event : Event) : Correlation :=
  if negb (identified event) then s
  else if bool_decide (identity event ∈ co_seen s) then s
  else {| co_byCall := record_event (co_byCall s) event;
          co_seen := {[identity event]} ∪ co_seen s |}.

Definition correlate_all (events : list Event) : Correlation :=
  foldl correlate_event (mkCorrelation ∅ ∅) events.

Definition children_of (iteration : list Invocation) : gset string :=
  foldl (fun children invocation =>
           if in_ParentCallID invocation =s "" then children
           else {[in_ParentCallID invocation]} ∪ children) ∅ iteration.

Definition count_where (p : Invocation -> bool) (iteration : list Invocation) : Z :=
  Z.of_nat (length (List.filter p iteration)).

Definition call_less (a b : Invocation) : bool :=
  str_lt (in_LogicalCallID a) (in_LogicalCallID b).

(** The two loops over the map and the sort, for one iteration order of the map. *)
Definition summarize (iteration : list Invocation) : Summary :=
  let children := children_of iteration in
  {| su_Invocations := go_sort call_less iteration;
     su_HostCount := count_where (fun i => in_ParentCallID i =s "") iteration;
     su_LeafCount := count_where (fun i => negb (bool_decide (in_LogicalCallID i ∈ children)))
                       iteration |}.

Definition invocations (byCall : gmap string Invocation) : list Invocation :=
  (map_to_list byCall).*2.

Definition Correlate (events : list Event) : Summary :=
  summarize (invocations (co_byCall (correlate_all events))).

(** ** The specification *)

(** The events that count: identified, and the first of their identity. *)
Fixpoint accepted_from (seen : gset string) (events : list Event) : list Event :=
  match events with
  | [] => []
  | event :: rest =>
      if negb (identified event) || bool_decide (identity event ∈ seen) then accepted_from seen rest
      else event :: accepted_from ({[identity event]} ∪ seen) rest
  end.

Definition accepted : list Event -> list Event := accepted_from ∅.

Lemma correlate_accepted events s :
  co_byCall (foldl correlate_event s events) =
  foldl record_event (co_byCall s) (accepted_from (co_seen s) events).
Proof.
  revert s. induction events as [|e events IH]; intros s; [done|].
  cbn [foldl accepted_from]. rewrite IH. unfold correlate_event.
  destruct (negb (identified e)); [done|]. cbn [orb]. by case_bool_decide.
Qed.

Lemma correlate_seen events s i :
  i ∈ co_seen (foldl correlate_event s events) <->
  i ∈ co_seen s \/ exists e, e ∈ events /\ identified e = true /\ identity e = i.
Proof.
  revert s. induction events as [|e events IH]; intros s; cbn [foldl].
  { setoid_rewrite elem_of_nil. naive_solver. }
  rewrite IH. unfold correlate_event. setoid_rewrite elem_of_cons.
  destruct (identified e) eqn:E; cbn [negb].
  - case_bool_decide; cbn [co_seen]; rewrite ?elem_of_union, ?elem_of_singleton; naive_solver.
  - split; [intros [?|(e0 & ? & ?)]; eauto|].
    intros [?|(e0 & [->|?] & ? & ?)]; [by left|congruence|eauto].
Qed.

(** The events of one logical call. *)
Definition of_call (id : string) (events : list Event) : list Event :=
  List.filter (fun e => ev_LogicalCallID e =s id) events.

Definition fold_call (o : option Invocation) (e : Event) : option Invocation :=
  Some (absorb (match o with None => new_invocation e | Some i => check_parent i e end) e).

Lemma lookup_record_events events m id :
  foldl record_event m events !! id = foldl fold_call (m !! id) (of_call id events).
Proof.
  revert m. induction events as [|e events IH]; intros m; [done|].
  cbn [foldl]. rewrite IH. unfold of_call at 2. cbn [List.filter].
  destruct (ev_LogicalCallID e =s id) eqn:E; str_facts; unfold record_event.
  - subst id. by rewrite lookup_insert_eq.
  - by rewrite lookup_insert_ne.
Qed.

(** The parent of a call: the one its events agree on, or none. *)
Definition agreed_parent (events : list Event) : string :=
  match events with
  | [] => ""
  | e :: rest =>
      if forallb (fun e' => ev_ParentCallID e' =s ev_ParentCallID e) rest
      then ev_ParentCallID e else ""
  end.

(** What one invocation says of the events of its call. *)
Record describes (i : Invocation) (e : Event) (rest : list Event) : Prop := {
  ds_call : in_LogicalCallID i = ev_LogicalCallID e;
  ds_parent : in_ParentCallID i = agreed_parent (e :: rest);
  ds_conflict : in_ParentConflict i =
    negb (forallb (fun e' => ev_ParentCallID e' =s ev_ParentCallID e) rest);
  ds_result : in_HasResult i = existsb ev_Result (e :: rest);
  ds_revised : in_Revised i = existsb ev_LateRevision (e :: rest);
  ds_attempts : in_Attempts i = foldl Z.max 0%Z (ev_Attempt <$> e :: rest)
}.

Lemma max_if a b : (if (a <? b)%Z then b else a) = Z.max a b.
Proof. destruct (Z.ltb_spec a b); lia. Qed.

(** One more event of a call whose events agreed ([b]) on the parent [p]. *)
Lemma check_parent_fields i e p (b : bool) :
  in_ParentCallID i = (if b then p else "") -> in_ParentConflict i = negb b ->
  let i' := check_parent i e in
  in_ParentCallID i' = (if b && (ev_ParentCallID e =s p) then p else "") /\
  in_ParentConflict i' = negb (b && (ev_ParentCallID e =s p)) /\
  in_LogicalCallID i' = in_LogicalCallID i /\ in_HasResult i' = in_HasResult i /\
  in_Revised i' = in_Revised i /\ in_Attempts i' = in_Attempts i.
Proof.
  intros Hp Hc. unfold check_parent. rewrite Hp. cbv zeta.
  destruct b; cbn [andb].
  - rewrite (str_eqb_sym (ev_ParentCallID e)).
    destruct (p =s ev_ParentCallID e); by rewrite ?Hp, ?Hc.
  - destruct ("" =s ev_ParentCallID e); by rewrite ?Hp, ?Hc.
Qed.

Lemma fold_call_describes e rest :
  exists i, foldl fold_call None (e :: rest) = Some i /\ describes i e rest.
Proof.
  induction rest as [|e' rest IH] using rev_ind.
  { eexists. split; [reflexivity|]. split; cbn; rewrite ?orb_false_r, ?max_if; done. }
  destruct IH as (i & Hi & [Hc Hp Hx Hr Hv Ha]).
  rewrite app_comm_cons, foldl_app, Hi. cbn [foldl]. eexists. split; [reflexivity|].
  destruct (check_parent_fields i e' _ _ Hp Hx) as (Gp & Gx & Gc & Gr & Gv & Ga).
  split; cbn [absorb in_LogicalCallID in_ParentCallID in_ParentConflict in_HasResult
    in_Revised in_Attempts].
  - by rewrite Gc.
  - rewrite Gp. cbn [agreed_parent]. rewrite forallb_app. cbn. by rewrite andb_true_r.
  - rewrite Gx, forallb_app. cbn. by rewrite andb_true_r.
  - rewrite Gr, Hr, app_comm_cons, existsb_app. cbn [existsb]. by rewrite orb_false_r.
  - rewrite Gv, Hv, app_comm_cons, existsb_app. cbn [existsb]. by rewrite orb_false_r.
  - rewrite Ga, max_if, Ha, app_comm_cons, fmap_app, foldl_app. done.
Qed.

(** The table after all events. *)
Definition calls (events : list Event) : gmap string Invocation :=
  co_byCall (correlate_all events).

Lemma lookup_calls events id :
  calls events !! id = foldl fold_call None (of_call id (accepted events)).
Proof.
  unfold calls, correlate_all. rewrite correlate_accepted, lookup_record_events.
  cbn [co_byCall co_seen]. by rewrite lookup_empty.
Qed.

Lemma lookup_calls_Some events id i :
  calls events !! id = Some i ->
  in_LogicalCallID i = id /\ of_call id (accepted events) <> [] /\
  exists e rest, of_call id (accepted events) = e :: rest /\ describes i e rest.
Proof.
  rewrite lookup_calls. destruct (of_call id (accepted events)) as [|e rest] eqn:E; [done|].
  destruct (fold_call_describes e rest) as (j & -> & Hj). intros [= ->].
  assert (e ∈ of_call id (accepted events)) as He by (rewrite E; left).
  unfold of_call in He. apply list_elem_of_In, List.filter_In in He as [_ He]. str_facts.
  split_and!; [by rewrite (ds_call _ _ _ Hj)|done|eauto].
Qed.

(** Redelivered events change nothing. *)
Lemma correlate_replay s dup :
  (forall e, e ∈ dup -> identified e = true -> identity e ∈ co_seen s) ->
  foldl correlate_event s dup = s.
Proof.
  induction dup as [|e dup IH]; intros H; [done|]. cbn [foldl].
  assert (correlate_event s e = s) as ->.
  { unfold correlate_event. destruct (identified e) eqn:E; [|done]. cbn [negb].
    by rewrite bool_decide_eq_true_2 by (apply H; [left|done]). }
  apply IH. intros e' He'. apply H. by right.
Qed.

(** C36: delivery is exactly once: events that were delivered before, in any number
    and order, and events without a call or event identifier, do not change the
    summary. *)
Theorem Correlate_exactly_once (events dup : list Event) :
  (forall e, e ∈ dup ->
     ev_LogicalCallID e = "" \/ ev_SourceEventID e = "" \/
     exists e', e' ∈ events /\ ev_LogicalCallID e' <> "" /\
       ev_SourceEventID e' = ev_SourceEventID e /\ ev_Source e' = ev_Source e) ->
  Correlate (events ++ dup) = Correlate events.
Proof.
  intros H. unfold Correlate, correlate_all. rewrite foldl_app, correlate_replay; [done|].
  intros e He Hid. apply correlate_seen. right. unfold identified in *.
  apply negb_true_iff, orb_false_iff in Hid as [H1 H2]. str_facts.
  destruct (H e He) as [?|[?|(e' & He' & Hc & Hs & Hsrc)]]; [done..|].
  exists e'. split_and!; [done| |unfold identity; by rewrite Hs, Hsrc].
  apply negb_true_iff, orb_false_iff. rewrite !str_eqb_neq. by rewrite Hs.
Qed.

(** ** The summary does not depend on the iteration order of the map *)

Lemma count_where_perm p l1 l2 : l1 ≡ₚ l2 -> count_where p l1 = count_where p l2.
Proof.
  unfold count_where. intros HP. f_equal. induction HP as [|x l1 l2 _ IH|x y l|l1 l2 l3 _ IH1 _ IH2];
    cbn; try destruct (p x); try destruct (p y); cbn; congruence.
Qed.

Lemma elem_of_children l c :
  c ∈ children_of l <-> c <> "" /\ exists i, i ∈ l /\ in_ParentCallID i = c.
Proof.
  unfold children_of. induction l as [|i l IH] using rev_ind; cbn.
  { rewrite elem_of_empty. setoid_rewrite elem_of_nil. naive_solver. }
  rewrite foldl_app. cbn. setoid_rewrite elem_of_app. setoid_rewrite list_elem_of_singleton.
  destruct (in_ParentCallID i =s "") eqn:E; str_facts.
  - rewrite IH. split; [naive_solver|]. intros (Hc & j & [Hj| ->] & Hp); [eauto|congruence].
  - rewrite elem_of_union, elem_of_singleton, IH. naive_solver.
Qed.

Lemma children_perm l1 l2 : l1 ≡ₚ l2 -> children_of l1 = children_of l2.
Proof.
  intros HP. apply set_eq. intros c. rewrite !elem_of_children. by setoid_rewrite HP.
Qed.

Lemma elem_of_invocations events i :
  i ∈ invocations (calls events) <-> calls events !! in_LogicalCallID i = Some i.
Proof.
  unfold invocations. rewrite list_elem_of_fmap. split.
  - intros ([id j] & -> & Hj%elem_of_map_to_list). cbn.
    destruct (lookup_calls_Some _ _ _ Hj) as (-> & _). done.
  - intros H. exists (in_LogicalCallID i, i). by rewrite elem_of_map_to_list.
Qed.

Lemma invocations_NoDup events :
  NoDup (in_LogicalCallID <$> invocations (calls events)).
Proof.
  assert (in_LogicalCallID <$> invocations (calls events) = (map_to_list (calls events)).*1) as ->.
  { unfold invocations. rewrite <- list_fmap_compose. apply list_fmap_ext.
    intros k [id i] Hk. cbn. apply list_elem_of_lookup_2, elem_of_map_to_list in Hk.
    by destruct (lookup_calls_Some _ _ _ Hk) as (-> & _). }
  apply NoDup_fst_map_to_list.
Qed.

Lemma summarize_perm events iteration :
  iteration ≡ₚ invocations (calls events) -> summarize iteration = Correlate events.
Proof.
  intros HP. unfold Correlate, summarize. fold (calls events).
  rewrite (children_perm _ _ HP), !(count_where_perm _ _ _ HP). f_equal.
  apply (go_sort_by_key_perm_eq in_LogicalCallID); [|done].
  rewrite HP. apply invocations_NoDup.
Qed.

(** The summary is determined by the events, not by the iteration order of the
    map, and it is exact: sorted by call, one invocation for each call that has an
    accepted event, with the parent its events agree on (none, and a conflict, when
    they disagree), the highest attempt, and the disjunctions of the flags. *)
Theorem Correlate_exact (events : list Event) :
  (forall iteration, iteration ≡ₚ invocations (calls events) ->
     summarize iteration = Correlate events) /\
  NoDup (in_LogicalCallID <$> su_Invocations (Correlate events)) /\
  StronglySorted (not_after call_less) (su_Invocations (Correlate events)) /\
  (forall id, id ∈ (in_LogicalCallID <$> su_Invocations (Correlate events)) <->
     exists e, e ∈ accepted events /\ ev_LogicalCallID e = id) /\
  (forall i, i ∈ su_Invocations (Correlate events) ->
     exists e rest, of_call (in_LogicalCallID i) (accepted events) = e :: rest /\
       describes i e rest).
Proof.
  pose proof (go_sort_perm call_less (invocations (calls events))) as HP.
  split_and!.
  - intros iteration. apply summarize_perm.
  - cbn. rewrite HP. apply invocations_NoDup.
  - apply go_sort_sorted, str_lt_on_strict_weak.
  - intros id. rewrite list_elem_of_fmap. cbn. setoid_rewrite HP.
    setoid_rewrite elem_of_invocations. split.
    + intros (i & -> & Hi). destruct (lookup_calls_Some _ _ _ Hi) as (_ & _ & e & rest & He & _).
      assert (e ∈ of_call (in_LogicalCallID i) (accepted events)) as Hin by (rewrite He; left).
      unfold of_call in Hin. apply list_elem_of_In, List.filter_In in Hin as [H1 H2]. str_facts.
      exists e. by rewrite list_elem_of_In.
    + intros (e & He & <-).
      assert (e ∈ of_call (ev_LogicalCallID e) (accepted events)) as Hin.
      { unfold of_call. apply list_elem_of_In, List.filter_In.
        rewrite <- list_elem_of_In. by rewrite str_eqb_refl. }
      destruct (of_call (ev_LogicalCallID e) (accepted events)) as [|e0 rest] eqn:E;
        [by apply elem_of_nil in Hin|].
      destruct (fold_call_describes e0 rest) as (i & Hi & Hd). exists i.
      assert (calls events !! ev_LogicalCallID e = Some i) as Hl by (by rewrite lookup_calls, E).
      destruct (lookup_calls_Some _ _ _ Hl) as (Hid & _). by rewrite Hid.
  - intros i. cbn. rewrite HP, elem_of_invocations. intros Hi.
    by destruct (lookup_calls_Some _ _ _ Hi) as (_ & _ & ?).
Qed.

(** ** The counts do not depend on the order of delivery *)

Lemma accepted_distinct events seen :
  NoDup (identity <$> events) -> (forall e, e ∈ events -> identity e ∉ seen) ->
  accepted_from seen events = List.filter identified events.
Proof.
  revert seen. induction events as [|e events IH]; intros seen HN Hs; [done|].
  rewrite fmap_cons, NoDup_cons in HN. destruct HN as [Hni HN]. cbn.
  destruct (identified e); cbn [negb orb].
  - rewrite bool_decide_eq_false_2 by (apply Hs; left). f_equal. apply IH; [done|].
    intros e' He'. rewrite elem_of_union, elem_of_singleton. intros [Heq|Hin].
    + apply Hni. rewrite <- Heq. by apply list_elem_of_fmap_2.
    + eapply Hs; [by right|done].
  - apply IH; [done|]. intros e' He'. apply Hs. by right.
Qed.

Lemma list_filter_perm {A} (p : A -> bool) l1 l2 :
  l1 ≡ₚ l2 -> List.filter p l1 ≡ₚ List.filter p l2.
Proof.
  induction 1 as [|x l1 l2 _ IH|x y l|l1 l2 l3 _ IH1 _ IH2]; cbn; [done| | |by rewrite IH1].
  - destruct (p x); by rewrite IH.
  - destruct (p x), (p y); try done. apply perm_swap.
Qed.

Lemma agreed_parent_all e rest p :
  (forall e', e' ∈ e :: rest -> ev_ParentCallID e' = p) -> agreed_parent (e :: rest) = p.
Proof.
  intros H. cbn. rewrite (H e) by left.
  assert (forallb (fun e' => ev_ParentCallID e' =s p) rest = true) as ->; [|done].
  apply forallb_spec, Forall_forall. intros e' He'. apply str_eqb_eq, H. by right.
Qed.

Lemma agreed_parent_perm l1 l2 : l1 ≡ₚ l2 -> agreed_parent l1 = agreed_parent l2.
Proof.
  intros HP. destruct l1 as [|e1 r1]; [by apply Permutation_nil in HP as ->|].
  destruct l2 as [|e2 r2]; [by symmetry in HP; apply Permutation_nil in HP|].
  assert (forall e r e' r', e :: r ≡ₚ e' :: r' ->
    forallb (fun x => ev_ParentCallID x =s ev_ParentCallID e) r = true ->
    agreed_parent (e' :: r') = ev_ParentCallID e) as Hall.
  { intros e r e' r' HP' Hf. apply agreed_parent_all. intros x. rewrite <- HP'.
    apply forallb_spec in Hf. rewrite Forall_forall in Hf.
    intros [->|Hx]%elem_of_cons; [done|]. by apply str_eqb_eq, Hf. }
  cbn. destruct (forallb (fun x => _ =s ev_ParentCallID e1) r1) eqn:F1.
  - symmetry. by eapply Hall.
  - destruct (forallb (fun x => _ =s ev_ParentCallID e2) r2) eqn:F2; [|done].
    symmetry in HP. pose proof (Hall _ _ _ _ HP F2) as H. cbn in H. by rewrite F1 in H.
Qed.

(** The parents of the calls, which the counts are functions of. *)
Definition parents (m : gmap string Invocation) : gmap string string := in_ParentCallID <$> m.

Lemma parents_perm events events' :
  accepted events' ≡ₚ accepted events -> parents (calls events') = parents (calls events).
Proof.
  intros HP. apply map_eq. intros id. unfold parents. rewrite !lookup_fmap, !lookup_calls.
  assert (of_call id (accepted events') ≡ₚ of_call id (accepted events)) as HP'
    by (by apply list_filter_perm).
  pose proof (agreed_parent_perm _ _ HP') as Ha.
  destruct (of_call id (accepted events')) as [|e' r'] eqn:E';
    [by apply Permutation_nil in HP' as ->|].
  destruct (of_call id (accepted events)) as [|e r] eqn:E;
    [by symmetry in HP'; apply Permutation_nil in HP'|].
  destruct (fold_call_describes e' r') as (i' & -> & Hi').
  destruct (fold_call_describes e r) as (i & -> & Hi). cbn.
  by rewrite (ds_parent _ _ _ Hi), (ds_parent _ _ _ Hi'), Ha.
Qed.

Definition call_parent (i : Invocation) : string * string :=
  (in_LogicalCallID i, in_ParentCallID i).

Lemma call_parents events :
  call_parent <$> invocations (calls events) = map_to_list (parents (calls events)).
Proof.
  unfold parents, invocations. rewrite map_to_list_fmap, <- list_fmap_compose.
  apply list_fmap_ext. intros k [id i] Hk. cbn.
  apply list_elem_of_lookup_2, elem_of_map_to_list in Hk.
  destruct (lookup_calls_Some _ _ _ Hk) as (<- & _). done.
Qed.

Lemma count_where_fmap (q : string * string -> bool) l :
  count_where (fun i => q (call_parent i)) l =
  Z.of_nat (length (List.filter q (call_parent <$> l))).
Proof.
  unfold count_where. f_equal. induction l as [|i l IH]; [done|].
  rewrite fmap_cons. cbn [List.filter]. destruct (q (call_parent i)); cbn; by rewrite IH.
Qed.

Lemma elem_of_children_fmap l c :
  c ∈ children_of l <-> c <> "" /\ c ∈ (call_parent <$> l).*2.
Proof.
  rewrite elem_of_children, <- list_fmap_compose, list_elem_of_fmap.
  setoid_rewrite (eq_comm c). naive_solver.
Qed.

(** When no event is delivered twice the host and leaf counts, and the set of
    calls, do not depend on the order of delivery. *)
Theorem Correlate_order_independent (events events' : list Event) :
  NoDup (identity <$> events) -> events' ≡ₚ events ->
  su_HostCount (Correlate events') = su_HostCount (Correlate events) /\
  su_LeafCount (Correlate events') = su_LeafCount (Correlate events) /\
  in_LogicalCallID <$> su_Invocations (Correlate events') =
    in_LogicalCallID <$> su_Invocations (Correlate events).
Proof.
  intros HN HP.
  assert (accepted events' ≡ₚ accepted events) as Hacc.
  { unfold accepted. rewrite !accepted_distinct; try (by rewrite ?HP);
      try (intros; apply not_elem_of_empty). by apply list_filter_perm. }
  assert (call_parent <$> invocations (calls events') =
    call_parent <$> invocations (calls events)) as Hcp.
  { rewrite !call_parents. by rewrite (parents_perm events events'). }
  assert (children_of (invocations (calls events')) = children_of (invocations (calls events)))
    as Hch.
  { apply set_eq. intros c. by rewrite !elem_of_children_fmap, Hcp. }
  split_and!.
  - cbn. fold (calls events') (calls events).
    rewrite !(count_where_fmap (fun x => x.2 =s "")). by rewrite Hcp.
  - cbn. fold (calls events') (calls events). rewrite Hch.
    set (q := fun x : string * string =>
      negb (bool_decide (x.1 ∈ children_of (invocations (calls events))))).
    etrans; [exact (count_where_fmap q _)|]. rewrite Hcp. symmetry.
    exact (count_where_fmap q _).
  - cbn. fold (calls events') (calls events). unfold call_less.
    rewrite !(go_sort_fmap in_LogicalCallID str_lt).
    assert (forall l, in_LogicalCallID <$> l = (call_parent <$> l).*1) as Hid
      by (intros l; by rewrite <- list_fmap_compose).
    by rewrite !Hid, Hcp.
Qed.


(** ** Witnesses *)

Definition sample_events : list Event :=
  [mkEvent "otel" "e1" "call-1" "" "tool" "host" 1 false false;
   mkEvent "rollout" "e7" "call-2" "call-1" "tool" "leaf" 1 false false;
   mkEvent "otel" "e2" "call-2" "call-1" "tool" "leaf" 2 true false;
   mkEvent "otel" "e3" "call-3" "call-1" "tool" "leaf" 1 true true].

Lemma Correlate_exactly_once_witness :
  Correlate (sample_events ++ rev sample_events) = Correlate sample_events /\
  su_HostCount (Correlate sample_events) = 1%Z /\ su_LeafCount (Correlate sample_events) = 2%Z.
Proof.
  split; [|split; vm_compute; reflexivity]. apply Correlate_exactly_once.
  intros e He. right. right. exists e.
  assert (e ∈ sample_events) as He' by (by rewrite <- (Permutation_rev sample_events) in He).
  split; [done|]. split; [|done].
  repeat (apply elem_of_cons in He' as [->|He']; [discriminate|]). by apply elem_of_nil in He'.
Defined.

Lemma sample_events_distinct : NoDup (identity <$> sample_events).
Proof. apply (bool_decide_unpack _). vm_compute. exact I. Qed.

Lemma Correlate_order_independent_witness :
  su_LeafCount (Correlate (rev sample_events)) = su_LeafCount (Correlate sample_events).
Proof.
  refine (proj1 (proj2 (Correlate_order_independent sample_events (rev sample_events)
    sample_events_distinct _))).
  symmetry. apply Permutation_rev.
Defined.
