(* ===== verification/Ordering.v ===== *)
(** * Cross-source precedence (internal/normalize/ordering.go)

    Several sources assert a value of one field; the assertion of highest
    precedence, then latest, wins, and a disagreement at the top is not resolved. *)
From S2P Require Import Contracts.

Record Assertion := mkAssertion {
  as_Field : string;
  as_Value : string;
  as_SourceKind : string;
  as_SourceSequence : Z;
  as_MonotonicNanos : Z;
  as_ObservedAt : Z;
  as_Precedence : Z
}.

Record Resolution := mkResolution {
  rn_Field : string;
  rn_Value : string;
  rn_WinningSource : string;
  rn_Conflicts : list Assertion;
  rn_OrderingUncertain : bool
}.

(** The [less] closure: higher precedence first, then later ones. *)
Definition before (a b : Assertion) : bool :=
  if negb (as_Precedence a =? as_Precedence b)%Z then (as_Precedence b <? as_Precedence a)%Z
  else if negb (as_SourceSequence a =? as_SourceSequence b)%Z then
    (as_SourceSequence b <? as_SourceSequence a)%Z
  else if negb (as_MonotonicNanos a =? as_MonotonicNanos b)%Z then
    (as_MonotonicNanos b <? as_MonotonicNanos a)%Z
  else (as_ObservedAt b <? as_ObservedAt a)%Z.

(** The condition under which the order of two assertions is uncertain. *)
Definition tied (winner assertion : Assertion) : bool :=
  (as_Precedence assertion =? as_Precedence winner)%Z
  && (as_SourceSequence assertion =? as_SourceSequence winner)%Z
  && (as_MonotonicNanos assertion =? as_MonotonicNanos winner)%Z
  && (as_ObservedAt assertion =? as_ObservedAt winner)%Z.

Definition differs (winner assertion : Assertion) : bool :=
  negb (as_Value assertion =s as_Value winner).

Definition Resolve (assertions : list Assertion) : Resolution :=
  match go_sort before assertions with
  | [] => mkResolution "" "" "" [] false
  | winner :: rest =>
      let conflicts := List.filter (differs winner) rest in
      let uncertain := existsb (tied winner) rest in
      let conflictingTie := existsb (fun a => tied winner a && differs winner a) rest in
      {| rn_Field := as_Field winner;
         rn_Value := if conflictingTie then "" else as_Value winner;
         rn_WinningSource := if conflictingTie then "" else as_SourceKind winner;
         rn_Conflicts := conflicts;
         rn_OrderingUncertain := uncertain |}
  end.

#[export] Instance before_strict_weak : StrictWeak before.
Proof.
  apply strict_weak_lex_ne; [apply Z_eqb_same_flip|apply Z_gtb_on_strict_weak|].
  apply strict_weak_lex_ne; [apply Z_eqb_same_flip|apply Z_gtb_on_strict_weak|].
  apply strict_weak_lex_ne; [apply Z_eqb_same_flip|apply Z_gtb_on_strict_weak|].
  apply Z_gtb_on_strict_weak.
Qed.

(** [tied] is incomparability. *)
Lemma tied_before w a : tied w a = true <-> before a w = false /\ before w a = false.
Proof.
  unfold tied, before. split.
  - intros H. bool_facts. repeat match goal with H : _ = _ |- _ => rewrite H end.
    by rewrite !Z.eqb_refl, !Z.ltb_irrefl.
  - intros [H1 H2]. lex_tie H1 H2. lex_tie H1 H2. lex_tie H1 H2. bool_facts.
    assert (as_ObservedAt a = as_ObservedAt w) by lia.
    repeat match goal with H : _ = _ |- _ => rewrite H end. by rewrite !Z.eqb_refl.
Qed.

(** An assertion that no other one precedes. *)
Definition top (assertions : list Assertion) (a : Assertion) : Prop :=
  a ∈ assertions /\ forall b, b ∈ assertions -> before b a = false.

Lemma sorted_top assertions w rest :
  go_sort before assertions = w :: rest ->
  top assertions w /\
  (forall a, top assertions a <-> a ∈ assertions /\ tied w a = true) /\
  (forall a, a ∈ assertions <-> a = w \/ a ∈ rest).
Proof.
  intros E. pose proof (go_sort_sorted before assertions) as HS. rewrite E in HS.
  apply StronglySorted_inv in HS as [_ HF]. rewrite Forall_forall in HF.
  assert (forall a, a ∈ assertions <-> a = w \/ a ∈ rest) as Hin
    by (intros a; by rewrite <- (elem_of_go_sort before), E, elem_of_cons).
  assert (forall b, b ∈ assertions -> before b w = false) as Hw.
  { intros b [->|Hb]%Hin; [apply sw_irrefl, _|by apply HF]. }
  split_and!; [split; [apply Hin; by left|done]| |done].
  intros a. split.
  - intros [Ha Htop]. split; [done|]. apply tied_before. split; [by apply Hw|].
    apply Htop, Hin. by left.
  - intros [Ha [H1 H2]%tied_before]. split; [done|]. intros b Hb.
    eapply sw_trans; [exact H2|by apply Hw].
Qed.

(** The result depends only on the set of assertions: when the highest-ranked
    assertions agree on a value, that value is the result, its source one of theirs,
    and the conflicts are other values only; when they disagree nothing wins and the
    order is reported as uncertain. *)
Theorem Resolve_top (assertions : list Assertion) :
  assertions <> [] ->
  (forall v, (forall a, top assertions a -> as_Value a = v) ->
     rn_Value (Resolve assertions) = v /\
     (exists w, top assertions w /\ rn_WinningSource (Resolve assertions) = as_SourceKind w) /\
     Forall (fun c => c ∈ assertions /\ as_Value c <> v) (rn_Conflicts (Resolve assertions))) /\
  (forall a b, top assertions a -> top assertions b -> as_Value a <> as_Value b ->
     rn_Value (Resolve assertions) = "" /\ rn_WinningSource (Resolve assertions) = "" /\
     rn_OrderingUncertain (Resolve assertions) = true).
Proof.
  intros Hne. unfold Resolve. destruct (go_sort before assertions) as [|w rest] eqn:E.
  { exfalso. apply Hne, Permutation_nil. by rewrite <- (go_sort_perm before assertions), E. }
  destruct (sorted_top _ _ _ E) as (Hw & Htop & Hin).
  cbn [rn_Value rn_WinningSource rn_Conflicts rn_OrderingUncertain]. split.
  - intros v Hv. rewrite (Hv w Hw).
    assert (existsb (fun a => tied w a && differs w a) rest = false) as ->.
    { apply not_true_iff_false. rewrite existsb_spec, Exists_exists.
      intros (a & Ha & [Ht Hd]%andb_true_iff). unfold differs in Hd. bool_facts. str_facts.
      apply Hd. rewrite (Hv w Hw). apply Hv, Htop. split; [|done]. apply Hin. by right. }
    split_and!; [done|by exists w|]. apply Forall_forall. intros c.
    rewrite list_elem_of_In, List.filter_In, <- list_elem_of_In. intros [Hc Hd].
    unfold differs in Hd. bool_facts. str_facts. rewrite (Hv w Hw) in Hd.
    split; [apply Hin; by right|done].
  - intros a b Ha Hb Hab.
    assert (exists c, c ∈ rest /\ tied w c = true /\ differs w c = true) as (c & Hc & Ht & Hd).
    { assert (forall c, top assertions c -> as_Value c <> as_Value w ->
        exists c, c ∈ rest /\ tied w c = true /\ differs w c = true) as H.
      { intros c [Hc Ht]%Htop Hv. exists c. apply Hin in Hc as [->|Hc]; [done|].
        split_and!; [done..|]. unfold differs. by apply negb_true_iff, str_eqb_neq. }
      destruct (decide (as_Value a = as_Value w)); [apply (H b)|apply (H a)]; congruence. }
    assert (existsb (fun a => tied w a && differs w a) rest = true) as ->.
    { apply existsb_spec, Exists_exists. exists c. by rewrite Ht, Hd. }
    split_and!; [done..|]. apply existsb_spec, Exists_exists. eauto.
Qed.

Lemma Resolve_top_witness :
  let assertions :=
    [mkAssertion "model" "a" "rollout" 4 0 10 1; mkAssertion "model" "b" "otel" 9 0 12 3;
     mkAssertion "model" "b" "hook" 9 0 12 3] in
  rn_Value (Resolve assertions) = "b" /\ rn_OrderingUncertain (Resolve assertions) = true /\
  Forall (fun c => c ∈ assertions /\ as_Value c <> "b") (rn_Conflicts (Resolve assertions)).
Proof.
  intros assertions. split; [reflexivity|]. split; [reflexivity|].
  assert (assertions <> []) as Hne by discriminate.
  refine (proj2 (proj2 (proj1 (Resolve_top assertions Hne) "b" _))).
  intros a [Ha Ht]. unfold assertions in Ha.
  apply elem_of_cons in Ha as [->|Ha].
  { specialize (Ht (mkAssertion "model" "b" "otel" 9 0 12 3)).
    assert (before (mkAssertion "model" "b" "otel" 9 0 12 3)
      (mkAssertion "model" "a" "rollout" 4 0 10 1) = true) as Hb by reflexivity.
    rewrite Ht in Hb; [discriminate|]. right. left. }
  repeat (apply elem_of_cons in Ha as [->|Ha]; [reflexivity|]). by apply elem_of_nil in Ha.
Defined.
