(* ===== verification/Runtime.v ===== *)
(** * Execution intervals and output modalities (internal/runtime/runtime.go) *)
From S2P Require Import Contracts GoInt.

Record Interval := mkInterval {
  iv_Start : Z;
  iv_End : Z;
  iv_Class : string
}.

(** [t.Sub(u)]: a [time.Duration] saturates at the bounds of [int64]. *)
Definition time_sub (t u : Z) : Z := Z.max min_i64 (Z.min max_i64 (t - u)).

Definition is_included (included : gmap string bool) (interval : Interval) : bool :=
  default false (included !! iv_Class interval) && (iv_Start interval <? iv_End interval)%Z.

(** The loop over the selected intervals after the first. *)
Fixpoint union_loop (start stop total : Z) (rest : list Interval) : Z :=
  match rest with
  | [] => i64_add total (time_sub stop start)
  | interval :: rest' =>
      if (stop <? iv_Start interval)%Z then
        union_loop (iv_Start interval) (iv_End interval)
          (i64_add total (time_sub stop start)) rest'
      else
        union_loop start (if (stop <? iv_End interval)%Z then iv_End interval else stop)
          total rest'
  end.

Definition union_of (selected : list Interval) : Z :=
  match selected with
  | [] => 0%Z
  | first :: rest => union_loop (iv_Start first) (iv_End first) 0 rest
  end.

Definition starts_before (a b : Interval) : bool := (iv_Start a <? iv_Start b)%Z.

Definition UnionDuration (intervals : list Interval) (included : gmap string bool) : Z :=
  union_of (go_sort starts_before (List.filter (is_included included) intervals)).

Record Output := mkOutput {
  ou_Modality : string;
  ou_Bytes : Z;
  ou_Tokens : option Z
}.

Definition is_text (output : Output) : bool :=
  (ou_Modality output =s "text") || (ou_Modality output =s "context").

Fixpoint text_tokens (outputs : list Output) (total : Z) (known : bool) : Z * bool :=
  match outputs with
  | [] => (total, known)
  | output :: rest =>
      if negb (is_text output) then text_tokens rest total known
      else match ou_Tokens output with
           | None => text_tokens rest total false
           | Some tokens =>
               if (u64_sub max_u64 total <? tokens)%Z then (0%Z, false)
               else text_tokens rest (u64_add total tokens) known
           end
  end.

Definition TextTokens (outputs : list Output) : Z * bool := text_tokens outputs 0 true.

(** ** The measure of a union of intervals *)

(** The nanoseconds of a half-open interval. *)
Definition points (start stop : Z) : gset Z := list_to_set (seqZ start (stop - start)).

Fixpoint covered (l : list Interval) : gset Z :=
  match l with
  | [] => ∅
  | i :: l' => points (iv_Start i) (iv_End i) ∪ covered l'
  end.

Lemma elem_of_points x a b : x ∈ points a b <-> (a <= x < b)%Z.
Proof. unfold points. rewrite elem_of_list_to_set, elem_of_seqZ. lia. Qed.

Lemma size_points a b : (a <= b)%Z -> Z.of_nat (size (points a b)) = (b - a)%Z.
Proof.
  intros H. unfold points. rewrite size_list_to_set by apply NoDup_seqZ.
  rewrite length_seqZ. lia.
Qed.

Lemma elem_of_covered x l : x ∈ covered l <-> exists i, i ∈ l /\ (iv_Start i <= x < iv_End i)%Z.
Proof.
  induction l as [|i l IH]; cbn.
  - rewrite elem_of_empty. setoid_rewrite elem_of_nil. naive_solver.
  - rewrite elem_of_union, elem_of_points, IH. setoid_rewrite elem_of_cons. naive_solver.
Qed.

Lemma covered_perm l1 l2 : l1 ≡ₚ l2 -> covered l1 = covered l2.
Proof. intros HP. apply set_eq. intros x. rewrite !elem_of_covered. by setoid_rewrite HP. Qed.

#[export] Instance starts_before_strict_weak : StrictWeak starts_before.
Proof. apply Z_ltb_on_strict_weak. Qed.

(** All times lie within one representable duration. *)
Definition within (base : Z) (i : Interval) : Prop :=
  (base <= iv_Start i)%Z /\ (iv_Start i < iv_End i)%Z /\ (iv_End i <= base + max_i64)%Z.

Lemma union_loop_exact base start stop total rest :
  (base <= start)%Z -> (start <= stop)%Z -> (stop <= base + max_i64)%Z ->
  (0 <= total <= start - base)%Z ->
  Forall (within base) rest -> Forall (fun i => (start <= iv_Start i)%Z) rest ->
  StronglySorted (not_after starts_before) rest ->
  union_loop start stop total rest =
    (total + Z.of_nat (size (points start stop ∪ covered rest)))%Z.
Proof.
  revert start stop total. induction rest as [|i rest IH];
    intros start stop total Hb Hs Hm Ht Hw Hge HS; cbn [union_loop covered].
  { assert (points start stop ∪ ∅ = points start stop) as -> by set_solver.
    rewrite size_points by done. unfold i64_add, time_sub, min_i64, max_i64 in *.
    rewrite i64_id; unfold i64_range; lia. }
  apply Forall_cons in Hw as [(Hi1 & Hi2 & Hi3) Hw]. apply Forall_cons in Hge as [Hg Hge].
  apply StronglySorted_inv in HS as [HS HF].
  assert (Forall (fun j => (iv_Start i <= iv_Start j)%Z) rest) as Hge'.
  { eapply Forall_impl; [exact HF|]. intros j. unfold not_after, starts_before.
    by rewrite Z.ltb_ge. }
  case_goal; bool_facts.
  - assert (i64_add total (time_sub stop start) = total + (stop - start))%Z as ->.
    { unfold i64_add, time_sub, min_i64, max_i64 in *. rewrite i64_id; unfold i64_range; lia. }
    rewrite IH by (done || lia).
    rewrite (size_union (points start stop)).
    + rewrite Nat2Z.inj_add, (size_points start) by lia. lia.
    + intros x. rewrite elem_of_union, elem_of_points, elem_of_points, elem_of_covered.
      rewrite Forall_forall in Hge'. intros Hx [Hx'|(j & Hj & Hx')]; [lia|].
      specialize (Hge' j Hj). lia.
  - assert ((if (stop <? iv_End i)%Z then iv_End i else stop) = Z.max stop (iv_End i)) as ->
      by (case_goal; bool_facts; lia).
    rewrite IH; try lia; try done. f_equal. f_equal. f_equal. apply set_eq. intros x.
    rewrite !elem_of_union, !elem_of_points.
    assert (start <= x < Z.max stop (iv_End i) <->
      start <= x < stop \/ iv_Start i <= x < iv_End i)%Z as -> by lia. tauto.
Qed.

(** [UnionDuration] is the measure of the union of the included, non-empty
    intervals, overlaps counted once, whichever order of equal starts the unstable
    sort leaves, as long as all times fit in one duration. *)
Theorem UnionDuration_measure (intervals : list Interval) (included : gmap string bool) (base : Z) :
  Forall (fun i => (base <= iv_Start i)%Z /\ (iv_End i <= base + max_i64)%Z) intervals ->
  let selected := List.filter (is_included included) intervals in
  UnionDuration intervals included = Z.of_nat (size (covered selected)) /\
  (forall s, s ≡ₚ selected -> StronglySorted (not_after starts_before) s ->
     union_of s = UnionDuration intervals included).
Proof.
  intros Hall selected.
  assert (forall s, s ≡ₚ selected -> StronglySorted (not_after starts_before) s ->
    union_of s = Z.of_nat (size (covered selected))) as H.
  { intros s HP HS. rewrite <- (covered_perm _ _ HP).
    assert (Forall (within base) s) as Hw.
    { rewrite HP. apply Forall_forall. intros i Hi. unfold selected in Hi.
      apply list_elem_of_In, List.filter_In in Hi as [Hi Hinc].
      apply list_elem_of_In in Hi. rewrite Forall_forall in Hall.
      unfold is_included in Hinc. bool_facts. specialize (Hall i Hi).
      unfold within. lia. }
    destruct s as [|i s]; [done|]. cbn [union_of covered].
    apply Forall_cons in Hw as [(H1 & H2 & H3) Hw]. apply StronglySorted_inv in HS as [HS HF].
    apply (union_loop_exact base); try lia; try done.
    eapply Forall_impl; [exact HF|]. intros j. unfold not_after, starts_before.
    by rewrite Z.ltb_ge. }
  assert (UnionDuration intervals included = Z.of_nat (size (covered selected))) as HU.
  { apply H; [apply go_sort_perm|apply go_sort_sorted, _]. }
  split; [done|]. intros s HP HS. rewrite HU. by apply H.
Qed.

(** ** Text tokens *)

(** The tokens of the text and context outputs that report them. *)
Definition text_counts (outputs : list Output) : list Z :=
  omap (fun o => if is_text o then ou_Tokens o else None) outputs.

Definition sum (l : list Z) : Z := foldr Z.add 0%Z l.

Definition all_known (outputs : list Output) : bool :=
  forallb (fun o => negb (is_text o) || bool_decide (is_Some (ou_Tokens o))) outputs.

Lemma sum_nonneg l : Forall u64_range l -> (0 <= sum l)%Z.
Proof. unfold u64_range. induction 1; cbn; [done|]. unfold sum in *. cbn. lia. Qed.

Lemma text_tokens_exact outputs total known :
  Forall u64_range (text_counts outputs) -> u64_range total ->
  text_tokens outputs total known =
    (if (total + sum (text_counts outputs) <=? max_u64)%Z
     then (total + sum (text_counts outputs), known && all_known outputs) else (0, false))%Z.
Proof.
  revert total known. induction outputs as [|o outputs IH]; intros total known Hr Ht.
  { cbn. rewrite Z.add_0_r, andb_true_r, (proj2 (Z.leb_le _ _)); [done|].
    unfold u64_range, max_u64 in *. lia. }
  cbn [text_tokens text_counts omap list_omap all_known forallb] in *.
  fold (text_counts outputs) in *. fold (all_known outputs).
  destruct (is_text o); cbn [negb orb]; [|by rewrite IH].
  destruct (ou_Tokens o) as [t|]; cbn [is_Some] in *.
  - apply Forall_cons in Hr as [Hr1 Hr2]. fold (text_counts outputs) in *.
    pose proof (sum_nonneg _ Hr2). cbn [sum foldr] in *. fold (sum (text_counts outputs)) in *.
    rewrite bool_decide_eq_true_2 by done. cbn [andb].
    unfold u64_sub. rewrite u64_id by (unfold u64_range, max_u64 in *; lia).
    case_goal; bool_facts.
    + rewrite (proj2 (Z.leb_gt _ _)); [done|lia].
    + unfold u64_add. rewrite u64_id by (unfold u64_range, max_u64 in *; lia).
      rewrite IH by (done || unfold u64_range, max_u64 in *; lia).
      by rewrite Z.add_assoc.
  - rewrite IH by done. rewrite bool_decide_eq_false_2 by (by intros []).
    by rewrite !andb_false_r.
Qed.

(** [TextTokens] adds without overflow: it returns the exact sum of the reported
    text and context tokens when it fits in 64 bits, known exactly when every such
    output reports one, and an unknown zero otherwise. *)
Theorem TextTokens_exact (outputs : list Output) :
  Forall u64_range (text_counts outputs) ->
  TextTokens outputs =
    (if (sum (text_counts outputs) <=? max_u64)%Z
     then (sum (text_counts outputs), all_known outputs) else (0, false))%Z /\
  u64_range (fst (TextTokens outputs)).
Proof.
  intros Hr. assert (TextTokens outputs =
    (if (sum (text_counts outputs) <=? max_u64)%Z
     then (sum (text_counts outputs), all_known outputs) else (0, false))%Z) as ->.
  { unfold TextTokens. by rewrite text_tokens_exact. }
  split; [done|]. pose proof (sum_nonneg _ Hr). unfold u64_range, max_u64.
  case_goal; bool_facts; cbn [fst]; lia.
Qed.

(** ** Witnesses *)

Definition sample_intervals : list Interval :=
  [mkInterval 50 90 "tool"; mkInterval 0 40 "model"; mkInterval 30 60 "model";
   mkInterval 100 120 "tool"; mkInterval 0 500 "wait"].
Definition sample_included : gmap string bool := <["tool" := true]> (<["model" := true]> ∅).

Lemma UnionDuration_measure_witness :
  UnionDuration sample_intervals sample_included = 110%Z /\
  UnionDuration sample_intervals sample_included =
    Z.of_nat (size (covered (List.filter (is_included sample_included) sample_intervals))).
Proof.
  split; [vm_compute; reflexivity|].
  refine (proj1 (UnionDuration_measure sample_intervals sample_included 0 _)).
  repeat constructor; vm_compute; discriminate.
Defined.

Lemma TextTokens_exact_witness :
  TextTokens [mkOutput "text" 4 (Some 7%Z); mkOutput "image" 900 None;
              mkOutput "context" 2 (Some 5%Z)] = (12%Z, true).
Proof.
  refine (proj1 (TextTokens_exact [mkOutput "text" 4 (Some 7%Z); mkOutput "image" 900 None;
              mkOutput "context" 2 (Some 5%Z)] _)).
  repeat constructor; vm_compute; congruence.
Defined.
