(* ===== verification/AuditEngine.v ===== *)
(** * The project audit (internal/audit/audit.go)

    [Run] turns a snapshot of normalised evidence into the result of an audit, with the facts
    its report needs; [BoundResult] cuts a result to a byte budget.

    [encode_payload] and [marshal] are [json.Marshal], [json_copy] is [json.Unmarshal] after
    it, [encode_refs] is [json.Marshal] of a list of strings, and [sha256_hex] is the
    hexadecimal SHA-256: they are arguments. *)
From S2P Require Import Contracts GoInt Runtime Metrics Baseline Outlier Diagnosis.
From S2P Require Import Unicode Utf8 Runes GoFmt Textutil Regex AuditRequest Report Service.

Definition EngineVersion : string := "audit-v2".
Definition MaxAuditBytes : Z := 50000%Z.

Definition recommendationByFinding : gmap string string :=
  list_to_map
    [("scope_attribution_gap", "restore_scope_attribution");
     ("checkpoint_gap", "complete_checkpoint_contract");
     ("passive_polling", "wait_on_state_change");
     ("repeated_unchanged_call", "reuse_unchanged_evidence");
     ("missing_validation", "validate_after_mutation");
     ("privacy_redaction_gap", "restore_redaction_coverage")].

Definition recommended_for (code : string) : string := default "" (recommendationByFinding !! code).

Record Snapshot := mkSnapshot {
  sn_Reference : string;
  sn_Scope : AuditScope;
  sn_StartsAt : Z;
  sn_EndsAt : Z;
  sn_AsOf : Z;
  sn_Coverage : CoverageState;
  sn_Metrics : Input;
  sn_GovernanceOverhead : Input;
  sn_PassivePollingRefs : list string;
  sn_RepeatedCallRefs : list string;
  sn_NecessaryWorkRefs : list string;
  sn_Comparisons : gmap string Comparison;
  sn_Window : AuditWindowProvenance;
  sn_Contributions : list ScopeContribution;
  sn_ConfounderStrata : list ConfounderStratum;
  sn_Guardrails : list GuardrailResult;
  sn_WorkloadEffects : list WorkloadDecomposition;
  sn_InvocationCounts : InvocationCounts;
  sn_ReportScopeCounts : ReportScopeCounts;
  sn_ReportSources : list ReportSourceFacts;
  sn_PrivacySuppressed : bool;
  sn_OmittedCount : Z;
  sn_RecommendationContext : RecommendationContext
}.

(** ** Preparing the snapshot *)

Definition normal_window (s : Snapshot) : AuditWindowProvenance :=
  if is_zero_time (aw_StartsAt (sn_Window s)) then
    mkAuditWindowProvenance (sn_StartsAt s) (sn_EndsAt s) (sn_AsOf s) "UTC" "baseline-v1"
      "logical-invocation-v1" "workload-v1" [] 1 false
  else sn_Window s.

Definition normal_context (s : Snapshot) : RecommendationContext :=
  let c := sn_RecommendationContext s in
  if rc_MaterialEvidenceRevision c =s "" then
    mkRecommendationContext (rc_AsOf c) (rc_ExistingRuleCoverage c) (rc_Feedback c) (sn_Reference s)
      (rc_EvidenceRevisions c) (rc_QualityGuardrailsPass c)
  else c.

Definition normal_counts (s : Snapshot) : ReportScopeCounts :=
  let c := sn_ReportScopeCounts s in
  if (rsc_IncludedTurns c =? 0)%Z && (0 <? in_CompletedTurns (sn_Metrics s))%Z then
    mkReportScopeCounts (rsc_IncludedTrajectories c) (rsc_ExcludedTrajectories c)
      (in_CompletedTurns (sn_Metrics s)) (rsc_ExcludedTurns c) (in_ToolCalls (sn_Metrics s))
      (rsc_ExcludedToolCalls c) (in_AcceptedEvidence (sn_Metrics s)) (rsc_ExcludedEvidence c)
  else c.

(** A nil slice and an empty one are the same list, so the four assignments of empty slices
    change nothing. *)
Definition normalizeSnapshot (s : Snapshot) : Snapshot :=
  mkSnapshot (sn_Reference s) (sn_Scope s) (sn_StartsAt s) (sn_EndsAt s) (sn_AsOf s) (sn_Coverage s)
    (sn_Metrics s) (sn_GovernanceOverhead s) (sn_PassivePollingRefs s) (sn_RepeatedCallRefs s)
    (sn_NecessaryWorkRefs s) (sn_Comparisons s) (normal_window s) (sn_Contributions s)
    (sn_ConfounderStrata s) (sn_Guardrails s) (sn_WorkloadEffects s) (sn_InvocationCounts s)
    (normal_counts s) (sn_ReportSources s) (sn_PrivacySuppressed s) (sn_OmittedCount s) (normal_context s).

(** ** Comparisons *)

Definition zero_definition : MetricDefinition :=
  mkMetricDefinition "" "" "" "" "" "" "" "" "" 0 fzero fzero fzero 0 0 [] [] [] [] [] [] "".

Definition definitions_by_name : gmap string MetricDefinition :=
  foldl (fun m d => <[de_Name d := d]> m) ∅ Definitions.

Definition definition_named (name : string) : MetricDefinition :=
  default zero_definition (definitions_by_name !! name).

(** [None] is a panic of [baseline.Apply]. *)
Definition apply_comparison (comparisons : gmap string Comparison) (r : MetricResult)
    : option (result string MetricResult) :=
  match comparisons !! mr_Name r with
  | None => Some (Ok (set_verdict r MetricStatusInsufficient "comparison_unavailable" "unknown"))
  | Some comparison => Apply r (definition_named (mr_Name r)) comparison
  end.

Fixpoint applyComparisons (results : list MetricResult) (comparisons : gmap string Comparison)
    : option (result string (list MetricResult)) :=
  match results with
  | [] => Some (Ok [])
  | r :: rest =>
      head ← apply_comparison comparisons r;
      match head with
      | Err e => Some (Err e)
      | Ok value =>
          tail ← applyComparisons rest comparisons;
          Some (let! values := tail in Ok (value :: values))
      end
  end.

(** ** Findings *)

(** The loop over one group, with what is seen and kept so far. *)
Fixpoint merge_group (values : list string) (seen : gset string) (kept : list string)
    : gset string * list string :=
  match values with
  | [] => (seen, kept)
  | value :: rest =>
      if negb (value =s "") && negb (bool_decide (value ∈ seen)) && (length kept <? 100)%nat then
        merge_group rest ({[value]} ∪ seen) (kept ++ [value])
      else merge_group rest seen kept
  end.

Definition mergeRefs (groups : list (list string)) : list string :=
  sort_strings (foldl (fun st group => merge_group group st.1 st.2) (∅, []) groups).2.

Definition confounders_matched (s : Snapshot) : bool := forallb cs_Matched (sn_ConfounderStrata s).

Definition observations (s : Snapshot) : list Observation :=
  let m := sn_Metrics s in
  let observe code cause check classification positive denominator minimum rate refs counter required :=
    mkObservation code cause check classification (sn_Coverage s) positive denominator minimum rate refs
      counter required (confounders_matched s) in
  [observe "scope_attribution_gap" "completed turns lack explicit normalized task attribution"
     "privacy-suppressed and genuinely unknown attribution remain unknown" "uncertain"
     (in_CompletedTurns m - in_AttributedTurns m)%Z (in_CompletedTurns m) 1%Z fzero (in_EvidenceRefs m) [] false;
   observe "boundary_violation" "structured boundary decision denied or recorded a violation"
     "host-authoritative denial is necessary and never bypassed" "necessary"
     (in_BoundaryViolations m) (in_BoundaryDecisions m) 1%Z fzero (in_EvidenceRefs m) [] true;
   observe "checkpoint_gap" "structured checkpoint omitted completion, next action, or gate state"
     "checkpoints not required for read-only bounded work" "avoidable"
     (in_Checkpoints m - in_CompleteCheckpoints m)%Z (in_Checkpoints m) 1%Z fzero (in_EvidenceRefs m) [] false;
   observe "passive_polling" "unchanged-state passive polling" "required waits and user cadence excluded"
     "avoidable" (in_PassiveWaitCalls m) (in_ToolCalls m) 5%Z (float_lit 10 100)
     (mergeRefs [sn_PassivePollingRefs s; in_EvidenceRefs m]) (sn_NecessaryWorkRefs s) false;
   observe "repeated_unchanged_call" "same canonical call in one state epoch"
     "mutations, changed arguments, retries, and final gates excluded" "avoidable"
     (in_RepeatedCalls m) (in_ToolCalls m) 5%Z (float_lit 10 100)
     (mergeRefs [sn_RepeatedCallRefs s; in_EvidenceRefs m]) (sn_NecessaryWorkRefs s) false;
   observe "tool_error_burst" "tool failures exceeded the guarded rate"
     "external and expected failures remain confounders" "uncertain"
     (in_ToolErrors m) (in_ToolCalls m) 5%Z (float_lit 5 100) (in_EvidenceRefs m) [] false;
   observe "missing_validation" "observable mutations lack structured validation"
     "read-only and no-op state epochs excluded" "avoidable"
     (in_ObservableMutations m - in_ValidatedMutations m)%Z (in_ObservableMutations m) 1%Z fzero
     (in_EvidenceRefs m) [] false;
   observe "privacy_redaction_gap" "accepted evidence lacks a complete redaction state"
     "not-needed redaction is an explicit passing state" "avoidable"
     (in_AcceptedEvidence m - in_RedactedEvidence m)%Z (in_AcceptedEvidence m) 1%Z fzero
     (in_EvidenceRefs m) [] false].

Definition detect (s : Snapshot) : list AuditFinding := Evaluate (observations s).

Definition guardrailsPass (guardrails : list GuardrailResult) : bool :=
  if (length guardrails =? 0)%nat then false
  else forallb (fun guardrail => gr_State guardrail =s "pass") guardrails.

(** The loop of [qualityGateState], with the state so far. *)
Fixpoint quality_gate_loop (guardrails : list GuardrailResult) (state : string) : string :=
  match guardrails with
  | [] => state
  | guardrail :: rest =>
      if gr_State guardrail =s "fail" then "fail"
      else quality_gate_loop rest (if gr_State guardrail =s "pass" then state else "unknown")
  end.

Definition qualityGateState (guardrails : list GuardrailResult) : string :=
  if (length guardrails =? 0)%nat then "unknown" else quality_gate_loop guardrails "pass".

(** ** The facts of the report *)

Definition comparisonCoverage (metrics : list MetricResult) : CoverageState :=
  match find (fun metric => bool_decide (is_Some (mr_PreviousValue metric))
                            || bool_decide (is_Some (mr_RollingMedian metric))) metrics with
  | Some metric => mr_Coverage metric
  | None => CoverageStateUnknown
  end.

Definition linkedRecommendation (d : MetricDefinition) (findings : list AuditFinding)
    (recommendations : list AuditRecommendation) : string :=
  let linked finding :=
    existsb (fun code => code =s af_Code finding) (de_AllowedDiagnoses d)
    && existsb (fun item => ar_Code item =s recommended_for (af_Code finding)) recommendations in
  match find linked findings with
  | Some finding => recommended_for (af_Code finding)
  | None => ""
  end.

Definition zero_metric : MetricResult :=
  mkMetricResult "" "" None "" None None 0 None None None 0 None None None None None fzero "" "" "" "" "" [] [].

Definition zero_finding : AuditFinding := mkAuditFinding "" "" "" "" "" "" "" [] [].

Definition metric_by_name (metrics : list MetricResult) (name : string) : MetricResult :=
  default zero_metric (foldl (fun m metric => <[mr_Name metric := metric]> m) (∅ : gmap string MetricResult) metrics !! name).

Definition finding_for (findings : list AuditFinding) (code : string) : AuditFinding :=
  default zero_finding
    (foldl (fun m finding => <[recommended_for (af_Code finding) := finding]> m) (∅ : gmap string AuditFinding) findings !! code).

(** [t.Add(d)] with a wrapped [time.Duration]. *)
Definition rolling_window (s : Snapshot) (coverage : CoverageState) (duration offset : Z)
    : ReportWindowReference :=
  let stop := (sn_EndsAt s + i64 (- i64 ((offset - 1) * duration)))%Z in
  mkReportWindowReference (stop + i64 (- duration))%Z stop (sn_AsOf s) coverage
    (aw_BaselineVersion (sn_Window s)) (aw_SourceVersions (sn_Window s)).

Definition recommendation_fact (s : Snapshot) (findings : list AuditFinding) (item : AuditRecommendation)
    : ReportRecommendationFacts :=
  let finding := finding_for findings (ar_Code item) in
  let '(contract, confidence) :=
    if ar_Code item =s "no_action" then ("no violated contract with actionable evidence", "unknown")
    else (af_Cause finding, af_Confidence finding) in
  mkReportRecommendationFacts (ar_Code item) contract (sn_Scope s) confidence (ar_ExpectedMovement item)
    "No model change; use the smallest scoped corrective action and verify it against protected guardrails.".

Definition metric_fact (metric : MetricResult) : ReportMetricFacts :=
  let d := definition_named (mr_Name metric) in
  mkReportMetricFacts (mr_Name metric) (de_DisplayLabel d) (de_Polarity d).

Definition outlier_fact (s : Snapshot) (calculated : list MetricResult) (findings : list AuditFinding)
    (recommendations : list AuditRecommendation) (item : NativeOutlier) : ReportOutlierFacts :=
  let metric := metric_by_name calculated (no_Metric item) in
  {| ro_Metric := no_Metric item; ro_Scope := sn_Scope s; ro_Impact := mr_Status metric;
     ro_Coverage := mr_Coverage metric;
     ro_EvidenceWindow :=
       mkReportWindowReference (sn_StartsAt s) (sn_EndsAt s) (sn_AsOf s) (mr_Coverage metric)
         (aw_BaselineVersion (sn_Window s)) (aw_SourceVersions (sn_Window s));
     ro_RecommendationCode :=
       linkedRecommendation (definition_named (no_Metric item)) findings recommendations |}.

Definition buildReportFacts (s : Snapshot) (calculated : list MetricResult) (findings : list AuditFinding)
    (recommendations : list AuditRecommendation) (outliers : list NativeOutlier)
    : GovernanceReportFacts :=
  let duration := time_sub (sn_EndsAt s) (sn_StartsAt s) in
  let coverage := comparisonCoverage calculated in
  {| rf_Version := "report-facts-v1"; rf_DisplayIdentity := sn_Reference s;
     rf_PrivacySuppressed := sn_PrivacySuppressed s;
     rf_PreviousWindow :=
       Some (mkReportWindowReference (sn_StartsAt s + i64 (- duration))%Z (sn_StartsAt s) (sn_AsOf s) coverage
               (aw_BaselineVersion (sn_Window s)) (aw_SourceVersions (sn_Window s)));
     rf_RollingWindows := rolling_window s coverage duration <$> [2; 3; 4; 5; 6; 7; 8]%Z;
     rf_ScopeCounts := sn_ReportScopeCounts s; rf_Sources := sn_ReportSources s;
     rf_Metrics := metric_fact <$> calculated; rf_QualityGateState := qualityGateState (sn_Guardrails s);
     rf_Outliers := outlier_fact s calculated findings recommendations <$> outliers;
     rf_Recommendations := recommendation_fact s findings <$> recommendations;
     rf_Provenance :=
       [mkReportProvenanceFact "metrics" "derived" "normalized_sql+metric-v1";
        mkReportProvenanceFact "window" "observed" "normalized_runtime";
        mkReportProvenanceFact "recommendations" "derived" RecommendationVersion] |}.

(** ** Running an audit *)

Section Encoding.
Context (encode_payload : Snapshot -> list MetricResult -> list AuditFinding -> list AuditRecommendation -> option string)
        (encode_refs : list string -> string) (sha256_hex : string -> string).

Definition findingEvidenceRevisions (findings : list AuditFinding) : gmap string string :=
  foldl (fun m finding => <[af_Code finding := sha256_hex (encode_refs (af_EvidenceRefs finding))]> m) ∅ findings.

Definition first_revision (s : Snapshot) : Snapshot :=
  let w := sn_Window s in
  mkSnapshot (sn_Reference s) (sn_Scope s) (sn_StartsAt s) (sn_EndsAt s) (sn_AsOf s) (sn_Coverage s)
    (sn_Metrics s) (sn_GovernanceOverhead s) (sn_PassivePollingRefs s) (sn_RepeatedCallRefs s)
    (sn_NecessaryWorkRefs s) (sn_Comparisons s)
    (mkAuditWindowProvenance (aw_StartsAt w) (aw_EndsAt w) (aw_AsOf w) (aw_Timezone w) (aw_BaselineVersion w)
       (aw_CountingMode w) (aw_WorkloadVersion w) (aw_SourceVersions w) 0 false)
    (sn_Contributions s) (sn_ConfounderStrata s) (sn_Guardrails s) (sn_WorkloadEffects s)
    (sn_InvocationCounts s) (sn_ReportScopeCounts s) (sn_ReportSources s) (sn_PrivacySuppressed s)
    (sn_OmittedCount s) (sn_RecommendationContext s).

Definition hash (s : Snapshot) (results : list MetricResult) (findings : list AuditFinding)
    (recommendations : list AuditRecommendation) : result ToolError string :=
  match encode_payload (first_revision s) results findings recommendations with
  | None => Err OtherError
  | Some data => Ok (sha256_hex data)
  end.

Definition audit_context (s : Snapshot) (findings : list AuditFinding) : RecommendationContext :=
  let c := sn_RecommendationContext s in
  mkRecommendationContext (sn_AsOf s) (rc_ExistingRuleCoverage c) (rc_Feedback c)
    (rc_MaterialEvidenceRevision c) (findingEvidenceRevisions findings) (guardrailsPass (sn_Guardrails s)).

(** An error of [errors.New]. *)
Definition plain_error {A} (r : result string A) : result ToolError A :=
  match r with Ok x => Ok x | Err _ => Err OtherError end.

(** Everything [Run] does with a snapshot it got; [None] would be a panic. *)
Definition audit_snapshot (s : Snapshot) : option (result ToolError AuditProjectResult) :=
  let s := normalizeSnapshot s in
  metrics ← Compute (sn_Metrics s);
  match metrics with
  | Err _ => Some (Err OtherError)
  | Ok measured =>
      compared ← applyComparisons measured (sn_Comparisons s);
      match compared with
      | Err _ => Some (Err OtherError)
      | Ok calculated =>
          computed ← Compute (sn_GovernanceOverhead s);
          match computed with
          | Err _ => Some (Err OtherError)
          | Ok overhead =>
              let findings := detect s in
              let recommendations := Generate findings (audit_context s findings) in
              let outliers := Rank calculated in
              let facts := buildReportFacts s calculated findings recommendations outliers in
              Some (
                let! revision := hash s calculated findings recommendations in
                Ok {| apr_SchemaVersion := SchemaVersion; apr_Kind := "result";
                      apr_AuditReference := sn_Reference s; apr_Scope := sn_Scope s; apr_AsOf := sn_AsOf s;
                      apr_RevisionHash := revision; apr_Coverage := sn_Coverage s;
                      apr_Metrics := calculated; apr_Findings := findings;
                      apr_Recommendations := recommendations; apr_GovernanceOverhead := overhead;
                      apr_Window := sn_Window s; apr_Contributions := sn_Contributions s;
                      apr_WorkloadEffects := sn_WorkloadEffects s;
                      apr_InvocationCounts := sn_InvocationCounts s; apr_Outliers := outliers;
                      apr_Confounders := sn_ConfounderStrata s; apr_Guardrails := sn_Guardrails s;
                      apr_DerivationMethod := "normalized_sql+metric-v1+baseline-v1";
                      apr_OmittedCount := sn_OmittedCount s; apr_ReportFacts := Some facts |})
          end
      end
  end.

Definition Run (source : AuditProjectRequest -> result ToolError Snapshot) (request : AuditProjectRequest)
    : option (result ToolError AuditProjectResult) :=
  match ValidateRequest request with
  | Some e => Some (Err (Stable e))
  | None =>
      match source request with
      | Err e => Some (Err e)
      | Ok s => audit_snapshot s
      end
  end.
End Encoding.

(** ** The byte budget *)

Definition set_omitted (r : AuditProjectResult) (metrics : list MetricResult) (findings : list AuditFinding)
    (guardrails : list GuardrailResult) (contributions : list ScopeContribution)
    (confounders : list ConfounderStratum) (effects : list WorkloadDecomposition)
    (outliers : list NativeOutlier) : AuditProjectResult :=
  {| apr_SchemaVersion := apr_SchemaVersion r; apr_Kind := apr_Kind r;
     apr_AuditReference := apr_AuditReference r; apr_Scope := apr_Scope r; apr_AsOf := apr_AsOf r;
     apr_RevisionHash := apr_RevisionHash r; apr_Coverage := apr_Coverage r; apr_Metrics := metrics;
     apr_Findings := findings; apr_Recommendations := apr_Recommendations r;
     apr_GovernanceOverhead := apr_GovernanceOverhead r; apr_Window := apr_Window r;
     apr_Contributions := contributions; apr_WorkloadEffects := effects;
     apr_InvocationCounts := apr_InvocationCounts r; apr_Outliers := outliers;
     apr_Confounders := confounders; apr_Guardrails := guardrails;
     apr_DerivationMethod := apr_DerivationMethod r; apr_OmittedCount := (apr_OmittedCount r + 1)%Z;
     apr_ReportFacts := apr_ReportFacts r |}.

(** The slice without its last item, unless it is empty. *)
Definition omitLast {A} (values : list A) : option (list A) :=
  match values with [] => None | _ => Some (removelast values) end.

(** The loop from the last index down: the last element whose list is not empty loses the
    last item of it. *)
Fixpoint omit_from_last {A B} (get : A -> list B) (set : A -> list B -> A) (values : list A)
    : option (list A) :=
  match values with
  | [] => None
  | value :: rest =>
      match omit_from_last get set rest with
      | Some rest' => Some (value :: rest')
      | None => (fun items => set value items :: rest) <$> omitLast (get value)
      end
  end.

Definition set_metric_refs (m : MetricResult) (refs : list string) : MetricResult :=
  mkMetricResult (mr_Name m) (mr_Version m) (mr_NativeValue m) (mr_NativeUnit m) (mr_Numerator m)
    (mr_Denominator m) (mr_SampleCount m) (mr_PreviousValue m) (mr_RollingMedian m) (mr_RollingMAD m)
    (mr_BaselineSampleCount m) (mr_AbsoluteChangePrevious m) (mr_PercentageChangePrevious m)
    (mr_AbsoluteChangeRolling m) (mr_PercentageChangeRolling m) (mr_WorkloadAdjustedResidual m)
    (mr_PracticalThreshold m) (mr_Coverage m) (mr_Status m) (mr_StatusReason m) (mr_Confidence m)
    (mr_Uncertainty m) (mr_Exclusions m) refs.

Definition set_counterevidence (f : AuditFinding) (refs : list string) : AuditFinding :=
  mkAuditFinding (af_Code f) (af_Detector f) (af_DetectorVersion f) (af_Cause f) (af_ExceptionCheck f)
    (af_Classification f) (af_Confidence f) (af_EvidenceRefs f) refs.

Definition set_guardrail_refs (g : GuardrailResult) (refs : list string) : GuardrailResult :=
  mkGuardrailResult (gr_Name g) (gr_State g) (gr_Coverage g) refs.

Definition or_else {A} (first second : option A) : option A :=
  match first with Some x => Some x | None => second end.

Definition omitOneEvidenceReference (r : AuditProjectResult) : option AuditProjectResult :=
  or_else
    ((fun metrics => set_omitted r metrics (apr_Findings r) (apr_Guardrails r) (apr_Contributions r)
        (apr_Confounders r) (apr_WorkloadEffects r) (apr_Outliers r)) <$>
     omit_from_last mr_EvidenceRefs set_metric_refs (apr_Metrics r))
  (or_else
    ((fun findings => set_omitted r (apr_Metrics r) findings (apr_Guardrails r) (apr_Contributions r)
        (apr_Confounders r) (apr_WorkloadEffects r) (apr_Outliers r)) <$>
     omit_from_last af_Counterevidence set_counterevidence (apr_Findings r))
    ((fun guardrails => set_omitted r (apr_Metrics r) (apr_Findings r) guardrails (apr_Contributions r)
        (apr_Confounders r) (apr_WorkloadEffects r) (apr_Outliers r)) <$>
     omit_from_last gr_EvidenceRefs set_guardrail_refs (apr_Guardrails r))).

(** What the loop of [boundResult] drops next. *)
Definition omit_one (r : AuditProjectResult) : option AuditProjectResult :=
  or_else (omitOneEvidenceReference r)
  (or_else
    ((fun contributions => set_omitted r (apr_Metrics r) (apr_Findings r) (apr_Guardrails r) contributions
        (apr_Confounders r) (apr_WorkloadEffects r) (apr_Outliers r)) <$> omitLast (apr_Contributions r))
  (or_else
    ((fun confounders => set_omitted r (apr_Metrics r) (apr_Findings r) (apr_Guardrails r)
        (apr_Contributions r) confounders (apr_WorkloadEffects r) (apr_Outliers r)) <$>
     omitLast (apr_Confounders r))
  (or_else
    ((fun effects => set_omitted r (apr_Metrics r) (apr_Findings r) (apr_Guardrails r)
        (apr_Contributions r) (apr_Confounders r) effects (apr_Outliers r)) <$>
     omitLast (apr_WorkloadEffects r))
    ((fun outliers => set_omitted r (apr_Metrics r) (apr_Findings r) (apr_Guardrails r)
        (apr_Contributions r) (apr_Confounders r) (apr_WorkloadEffects r) outliers) <$>
     omitLast (apr_Outliers r))))).

Section Budget.
Context (marshal : AuditProjectResult -> option string)
        (json_copy : AuditProjectResult -> option AuditProjectResult).

Definition budget_error : ToolError :=
  Stable (NewError ErrorCodeBudgetExhausted "audit result exceeds output budget" "result" false).

(** [None]: out of fuel. *)
Fixpoint bound_loop (fuel : nat) (limit : Z) (r : AuditProjectResult)
    : option (result ToolError AuditProjectResult) :=
  match fuel with
  | O => None
  | S f =>
      match marshal r with
      | None => Some (Err OtherError)
      | Some encoded =>
          if (str_len encoded <=? limit)%Z then Some (Ok r)
          else match omit_one r with
               | Some r' => bound_loop f limit r'
               | None => Some (Err budget_error)
               end
      end
  end.

(** What can be dropped from a result, and the fuel of the loop. *)
Definition omittable (r : AuditProjectResult) : nat :=
  sum_list_with (fun m => length (mr_EvidenceRefs m)) (apr_Metrics r)
  + sum_list_with (fun f => length (af_Counterevidence f)) (apr_Findings r)
  + sum_list_with (fun g => length (gr_EvidenceRefs g)) (apr_Guardrails r)
  + length (apr_Contributions r) + length (apr_Confounders r) + length (apr_WorkloadEffects r)
  + length (apr_Outliers r).

Definition boundResult (r : AuditProjectResult) (limit : Z) : option (result ToolError AuditProjectResult) :=
  match marshal r with
  | None => Some (Err OtherError)
  | Some _ =>
      match json_copy r with
      | None => Some (Err OtherError)
      | Some bounded => bound_loop (S (omittable bounded)) limit bounded
      end
  end.

Definition BoundResult (r : AuditProjectResult) : option (result ToolError AuditProjectResult) :=
  boundResult r MaxAuditBytes.
End Budget.
