(* ===== verification/AuditReport.v ===== *)
(** * Every audit can be reported

    The result of [Run] always has the facts that [Report.Build] asks for; cutting a result
    to its byte budget keeps its findings and recommendations, but not always its report. *)
From S2P Require Import Contracts GoInt Runtime Metrics Baseline Outlier Diagnosis.
From S2P Require Import Unicode Utf8 Runes GoFmt Textutil Regex AuditRequest Report Service AuditEngine.

(** ** When [Build] accepts *)

Lemma index_facts_ok {A} (name : A -> string) message facts labels :
  NoDup (name <$> facts) -> Forall (fun f => labels !! name f = None) facts ->
  exists labels', index_facts name message facts labels = Ok labels' /\
    (forall f, f ∈ facts -> labels' !! name f = Some f) /\
    (forall n, n ∉ name <$> facts -> labels' !! n = labels !! n).
Proof.
  revert labels. induction facts as [|f facts IH]; intros labels Hd Hf; cbn [index_facts].
  { exists labels. split_and!; [done|by intros ? ?%not_elem_of_nil|done]. }
  rewrite fmap_cons in Hd |- *. apply NoDup_cons in Hd as [Hn Hd]. apply Forall_cons in Hf as [H0 Hf].
  rewrite H0. destruct (IH (<[name f := f]> labels)) as (labels' & H1 & H2 & H3); [done|..].
  { rewrite Forall_forall in Hf |- *. intros g Hg. rewrite lookup_insert_ne; [by apply Hf|].
    intros E. apply Hn. rewrite E. by apply list_elem_of_fmap_2. }
  exists labels'. split_and!; [done|..].
  - intros g [->|Hg]%elem_of_cons; [|by apply H2]. rewrite H3 by done. by rewrite lookup_insert_eq.
  - intros n Hn'. rewrite H3 by set_solver. rewrite lookup_insert_ne; [done|]. set_solver.
Qed.

Lemma join_facts_ok {A B C} (key : A -> string) (row : A -> B -> C) message labels values names :
  NoDup (key <$> values) -> Forall (fun v => key v ∉ names) values ->
  Forall (fun v => is_Some (labels !! key v)) values ->
  exists rows, join_facts key row message labels values names = Ok rows.
Proof.
  revert names. induction values as [|v values IH]; intros names Hd Hn Hl; cbn [join_facts]; [by eexists|].
  rewrite fmap_cons in Hd. apply NoDup_cons in Hd as [Hv Hd].
  apply Forall_cons in Hn as [Hn0 Hn], Hl as [[fact Hf] Hl]. rewrite bool_decide_false by done. rewrite Hf.
  destruct (IH ({[key v]} ∪ names)) as [rows ->]; [done| |done|by eexists].
  rewrite Forall_forall in Hn |- *. intros w Hw. apply Hn in Hw as Hw'.
  assert (key w <> key v); [|set_solver]. intros E. apply Hv. rewrite <- E. by apply list_elem_of_fmap_2.
Qed.

Lemma outlier_metrics_ok values names :
  NoDup (no_Metric <$> values) -> Forall (fun v => no_Metric v ∉ names) values ->
  outlier_metrics values names = Ok (list_to_set (no_Metric <$> values) ∪ names).
Proof.
  revert names. induction values as [|v values IH]; intros names Hd Hn; cbn [outlier_metrics].
  { f_equal. set_solver. }
  rewrite fmap_cons in Hd |- *. apply NoDup_cons in Hd as [Hv Hd]. apply Forall_cons in Hn as [Hn0 Hn].
  rewrite bool_decide_false by done. rewrite IH; [f_equal; set_solver|done|].
  rewrite Forall_forall in Hn |- *. intros w Hw. apply Hn in Hw as Hw'.
  assert (no_Metric w <> no_Metric v); [|set_solver]. intros E. apply Hv. rewrite <- E. by apply list_elem_of_fmap_2.
Qed.

Lemma outlier_metrics_inv values names names' :
  outlier_metrics values names = Ok names' ->
  NoDup (no_Metric <$> values) /\ Forall (fun v => no_Metric v ∉ names) values /\
  names' = list_to_set (no_Metric <$> values) ∪ names.
Proof.
  revert names. induction values as [|v values IH]; intros names; cbn [outlier_metrics].
  { intros [= <-]. split_and!; [constructor|constructor|set_solver]. }
  case_bool_decide as Hv; [done|]. intros (H1 & H2 & ->)%IH. rewrite Forall_forall in H2.
  rewrite fmap_cons. split_and!; [|constructor; [done|]; apply Forall_forall; set_solver|set_solver].
  apply NoDup_cons. split; [|done]. intros (w & Hw & Hin)%list_elem_of_fmap. apply H2 in Hin. set_solver.
Qed.

Lemma complete_outliers_ok facts names seen rows :
  NoDup (ro_Metric <$> facts) -> Forall (fun f => ro_Metric f ∉ seen /\ ro_Metric f ∈ names) facts ->
  exists rows', complete_outliers facts names seen rows =
    Ok (list_to_set (ro_Metric <$> facts) ∪ seen, rows').
Proof.
  revert seen rows. induction facts as [|f facts IH]; intros seen rows Hd Hf; cbn [complete_outliers].
  { exists rows. cbn. by rewrite union_empty_l_L. }
  rewrite fmap_cons in Hd |- *. apply NoDup_cons in Hd as [Hv Hd]. apply Forall_cons in Hf as [[H1 H2] Hf].
  rewrite bool_decide_false by done. rewrite bool_decide_true by done. cbn [negb].
  destruct (IH ({[ro_Metric f]} ∪ seen) (complete_outlier f <$> rows)) as [rows' E]; [done|..].
  - rewrite Forall_forall in Hf |- *. intros g Hg. destruct (Hf g Hg) as [H3 H4]. split; [|done].
    assert (ro_Metric g <> ro_Metric f); [|set_solver]. intros E. apply Hv. rewrite <- E. by apply list_elem_of_fmap_2.
  - exists rows'. rewrite E. do 2 f_equal. cbn. set_solver.
Qed.

Lemma complete_outliers_inv facts names seen rows seen' rows' :
  complete_outliers facts names seen rows = Ok (seen', rows') ->
  NoDup (ro_Metric <$> facts) /\ Forall (fun f => ro_Metric f ∉ seen /\ ro_Metric f ∈ names) facts /\
  seen' = list_to_set (ro_Metric <$> facts) ∪ seen.
Proof.
  revert seen rows. induction facts as [|f facts IH]; intros seen rows; cbn [complete_outliers].
  { intros [= <- _]. split_and!; [constructor|constructor|set_solver]. }
  case_bool_decide as Hs; [done|]. case_bool_decide as Hn; [|done]. cbn [negb].
  intros (H1 & H2 & ->)%IH. rewrite Forall_forall in H2. rewrite fmap_cons.
  split_and!; [|constructor; [done|]; apply Forall_forall; set_solver|set_solver].
  apply NoDup_cons. split; [|done]. intros (g & Hg & Hin)%list_elem_of_fmap. apply H2 in Hin. set_solver.
Qed.

(** The outliers and their facts name the same metrics, each once. *)
Definition outliers_matched (values : list NativeOutlier) (facts : list ReportOutlierFacts) : Prop :=
  NoDup (no_Metric <$> values) /\ ro_Metric <$> facts ≡ₚ no_Metric <$> values.

Lemma build_outliers_spec values facts :
  (exists rows, build_outliers values facts = Ok rows) <-> outliers_matched values facts.
Proof.
  unfold build_outliers, outliers_matched. split.
  - destruct (outlier_metrics values ∅) as [names|] eqn:E1; [|by intros [? ?]].
    apply outlier_metrics_inv in E1 as (Hd & _ & ->).
    destruct (complete_outliers facts _ ∅ _) as [[seen rows]|] eqn:E2; [|by intros [? ?]].
    apply complete_outliers_inv in E2 as (Hf & Hin & ->). cbn [fst snd].
    destruct (_ =? _)%nat eqn:E3; [|by intros [? ?]]. intros _. split; [done|]. bool_facts.
    rewrite !union_empty_r_L, !size_list_to_set in E3 by done.
    apply submseteq_length_Permutation; [|lia].
    apply NoDup_submseteq; [done|]. intros n (f & -> & Hf')%list_elem_of_fmap.
    rewrite Forall_forall in Hin. apply Hin in Hf' as [_ Hf']. set_solver.
  - intros [Hd Hp]. rewrite outlier_metrics_ok; [|done|apply Forall_true; set_solver].
    destruct (complete_outliers_ok facts (list_to_set (no_Metric <$> values) ∪ ∅) ∅ (outlier_row <$> values))
      as [rows ->]; [by rewrite Hp| |].
    { apply Forall_forall. intros f Hf%(list_elem_of_fmap_2 ro_Metric). rewrite Hp in Hf. set_solver. }
    cbn [fst snd]. rewrite !union_empty_r_L, !size_list_to_set by (by rewrite ?Hp).
    rewrite (Permutation_length Hp), Nat.eqb_refl. by eexists.
Qed.

(** What it takes for a report to be built. *)
Lemma Build_ok res facts :
  apr_ReportFacts res = Some facts -> rf_Version facts = "report-facts-v1" ->
  NoDup (mr_Name <$> apr_Metrics res) -> rm_Name <$> rf_Metrics facts = mr_Name <$> apr_Metrics res ->
  NoDup (ar_Code <$> apr_Recommendations res) ->
  rr_Code <$> rf_Recommendations facts = ar_Code <$> apr_Recommendations res ->
  outliers_matched (apr_Outliers res) (rf_Outliers facts) ->
  exists m, Build res = Ok m.
Proof.
  intros Hf Hv Hm Em Hr Er Ho. unfold Build. rewrite Hf, Hv. cbn [negb]. rewrite (str_eqb_refl _). cbn [negb].
  destruct (index_facts_ok rm_Name "report metric facts are ambiguous" (rf_Metrics facts) ∅)
    as (labels & -> & Hl & _); [by rewrite Em|by apply Forall_true|].
  destruct (join_facts_ok mr_Name metric_row "report metrics are ambiguous or incomplete" labels
              (apr_Metrics res) ∅) as [rows ->]; [done|apply Forall_true; set_solver| |].
  { apply Forall_forall. intros v Hv'%(list_elem_of_fmap_2 mr_Name). rewrite <- Em in Hv'.
    apply list_elem_of_fmap in Hv' as (f & -> & Hin). rewrite Hl by done. by eexists. }
  destruct (index_facts_ok rr_Code "report recommendation facts are ambiguous" (rf_Recommendations facts) ∅)
    as (rlabels & -> & Hrl & _); [by rewrite Er|by apply Forall_true|].
  destruct (join_facts_ok ar_Code recommendation_row "report recommendations are ambiguous or incomplete"
              rlabels (apr_Recommendations res) ∅) as [rrows ->]; [done|apply Forall_true; set_solver| |].
  { apply Forall_forall. intros v Hv'%(list_elem_of_fmap_2 ar_Code). rewrite <- Er in Hv'.
    apply list_elem_of_fmap in Hv' as (f & -> & Hin). rewrite Hrl by done. by eexists. }
  destruct (proj2 (build_outliers_spec (apr_Outliers res) (rf_Outliers facts)) Ho) as [orows ->].
  by eexists.
Qed.

(** ** The names in a result of [Run] *)

Lemma applyComparisons_names results comparisons values :
  applyComparisons results comparisons = Some (Ok values) -> mr_Name <$> values = mr_Name <$> results.
Proof.
  revert values. induction results as [|r results IH]; intros values; cbn [applyComparisons].
  { by intros [= <-]. }
  destruct (apply_comparison comparisons r) as [[value|]|] eqn:E; [|done..]. cbn [mbind option_bind].
  destruct (applyComparisons results comparisons) as [[rest|]|]; [|done..]. cbn. intros [= <-].
  rewrite fmap_cons, (IH rest) by done. f_equal. revert E. unfold apply_comparison.
  destruct (comparisons !! mr_Name r) as [c|]; [|by intros [= <-]].
  intros E. destruct (Apply_total r (definition_named (mr_Name r)) c) as (r' & Hr' & Hn & _).
  rewrite E in Hr'. by injection Hr' as ->.
Qed.

Lemma names_distinct : NoDup (de_Name <$> Definitions).
Proof. apply (bool_decide_unpack _). vm_compute. exact I. Qed.

Lemma Compute_distinct input results : Compute input = Some (Ok results) -> NoDup (mr_Name <$> results).
Proof. intros ->%Compute_names. rewrite sort_strings_perm. apply names_distinct. Qed.

Lemma NoDup_fmap_omap {A B} (f : A -> string) (g : B -> string) (h : A -> option B) l :
  (forall a b, h a = Some b -> g b = f a) -> NoDup (f <$> l) -> NoDup (g <$> omap h l).
Proof.
  intros Hh. induction l as [|a l IH]; intros Hd; [constructor|].
  rewrite fmap_cons in Hd. apply NoDup_cons in Hd as [Hn Hd]. unfold omap. cbn [list_omap].
  fold (omap (M := list) h l). destruct (h a) as [b|] eqn:E; [|by apply IH]. rewrite fmap_cons.
  apply NoDup_cons. split; [|by apply IH]. rewrite (Hh a b E). intros (c & Hc & Hin)%list_elem_of_fmap.
  apply list_elem_of_omap in Hin as (a' & Ha' & Ec). apply Hn. rewrite Hc, (Hh a' c Ec).
  by apply list_elem_of_fmap_2.
Qed.

Lemma NoDup_take {A} n (l : list A) : NoDup l -> NoDup (take n l).
Proof. intros H. by eapply sublist_NoDup; [|apply sublist_take]. Qed.

Lemma Rank_distinct metrics : NoDup (mr_Name <$> metrics) -> NoDup (no_Metric <$> Rank metrics).
Proof.
  intros Hd. rewrite Rank_sorted, fmap_take. apply NoDup_take. rewrite go_sort_perm.
  by apply (NoDup_fmap_omap mr_Name); [apply outlier_name|].
Qed.

Lemma evaluate_code o f : evaluate o = Some f -> af_Code f = ob_Code o.
Proof. intros H. by apply evaluate_grounded in H as []. Qed.

Lemma detect_distinct s : NoDup (af_Code <$> detect s).
Proof.
  unfold detect, Evaluate. rewrite go_sort_perm. apply (NoDup_fmap_omap ob_Code).
  - intros a b. apply evaluate_code.
  - apply (bool_decide_unpack _). vm_compute. exact I.
Qed.

(** The recommendation of a finding has the code of the table. *)
Lemma candidate_code f r : candidate f = Some r -> recommendationByFinding !! af_Code f = Some (ar_Code r).
Proof.
  unfold candidate. repeat (case_match; [match goal with H : (_ =s _) = true |- _ =>
    apply str_eqb_eq in H; rewrite H end; by intros [= <-]|]). done.
Qed.

Lemma table_injective : forall a b c, recommendationByFinding !! a = Some c ->
  recommendationByFinding !! b = Some c -> a = b.
Proof.
  intros a b c Ha Hb. apply elem_of_map_to_list in Ha, Hb.
  assert (Forall (fun x => Forall (fun y => x.2 = y.2 -> x.1 = y.1) (map_to_list recommendationByFinding))
    (map_to_list recommendationByFinding)) as H.
  { apply (bool_decide_unpack _). vm_compute. exact I. }
  rewrite Forall_forall in H. apply H in Ha. rewrite Forall_forall in Ha. by apply (Ha (b, c) Hb).
Qed.

Lemma proposals_distinct context findings :
  NoDup (af_Code <$> findings) -> NoDup (ar_Code <$> omap (proposal context) findings).
Proof.
  intros Hd. induction findings as [|f findings IH]; [constructor|].
  rewrite fmap_cons in Hd. apply NoDup_cons in Hd as [Hn Hd]. unfold omap. cbn [list_omap].
  fold (omap (M := list) (proposal context) findings).
  destruct (proposal context f) as [r|] eqn:E; [|by apply IH]. rewrite fmap_cons.
  apply NoDup_cons. split; [|by apply IH]. intros (r' & Hr & Hin)%list_elem_of_fmap.
  apply list_elem_of_omap in Hin as (f' & Hf' & E'). apply Hn.
  unfold proposal in E, E'. destruct (skipped context f); [done|]. destruct (skipped context f'); [done|].
  apply candidate_code in E, E'. rewrite Hr in E. rewrite (table_injective _ _ _ E E').
  by apply list_elem_of_fmap_2.
Qed.

Lemma Generate_cases findings context :
  Generate findings context =
    match take 5 (omap (proposal context) (go_sort by_code findings)) with
    | [] => [noAction]
    | l => l
    end.
Proof. unfold Generate. by rewrite generate_spec by (cbn; lia). Qed.

Lemma Generate_distinct findings context :
  NoDup (af_Code <$> findings) -> NoDup (ar_Code <$> Generate findings context).
Proof.
  intros Hd. rewrite Generate_cases. pose proof (NoDup_take 5 (ar_Code <$> omap (proposal context)
    (go_sort by_code findings))) as H. rewrite <- fmap_take in H.
  destruct (take 5 _) as [|r l]; [apply NoDup_singleton|]. apply H, proposals_distinct. by rewrite go_sort_perm.
Qed.

Lemma length_take_le_5 {A} (l : list A) : (length (take 5 l) <= 5)%nat.
Proof. rewrite length_take. lia. Qed.

Lemma observations_coverage s o : o ∈ observations s -> ob_Coverage o = sn_Coverage s.
Proof.
  revert o. apply Forall_forall. unfold observations. repeat (constructor; [done|]). constructor.
Qed.

Lemma forallb_false_elem {A} (p : A -> bool) l :
  forallb p l = false -> exists x, x ∈ l /\ p x = false.
Proof.
  induction l as [|x l IH]; [done|]. cbn [forallb]. destruct (p x) eqn:E.
  - intros (y & Hy & Hp)%IH. exists y. split; [by right|done].
  - intros _. exists x. split; [by left|done].
Qed.

Section Run.
Context (encode_payload : Snapshot -> list MetricResult -> list AuditFinding -> list AuditRecommendation -> option string)
        (encode_refs : list string -> string) (sha256_hex : string -> string).

Lemma audit_snapshot_inv s res :
  audit_snapshot encode_payload encode_refs sha256_hex s = Some (Ok res) ->
  let s := normalizeSnapshot s in
  exists measured, Compute (sn_Metrics s) = Some (Ok measured) /\
    applyComparisons measured (sn_Comparisons s) = Some (Ok (apr_Metrics res)) /\
    apr_Findings res = detect s /\
    apr_Recommendations res = Generate (detect s) (audit_context encode_refs sha256_hex s (detect s)) /\
    apr_Outliers res = Rank (apr_Metrics res) /\ apr_Confounders res = sn_ConfounderStrata s /\
    apr_Guardrails res = sn_Guardrails s /\ apr_Coverage res = sn_Coverage s /\
    apr_ReportFacts res = Some (buildReportFacts s (apr_Metrics res) (apr_Findings res)
      (apr_Recommendations res) (apr_Outliers res)).
Proof.
  unfold audit_snapshot. cbv zeta. destruct (Compute (sn_Metrics _)) as [[measured|]|] eqn:E1; [|done..].
  cbn [mbind option_bind]. destruct (applyComparisons _ _) as [[calculated|]|] eqn:E2; [|done..].
  cbn [mbind option_bind]. destruct (Compute (sn_GovernanceOverhead _)) as [[overhead|]|]; [|done..].
  cbn [mbind option_bind]. destruct (hash _ _ _ _ _) as [revision|]; [|done]. intros [= <-].
  exists measured. by split_and!.
Qed.

Lemma applyComparisons_total results comparisons :
  exists values, applyComparisons results comparisons = Some (Ok values).
Proof.
  induction results as [|r results [values IH]]; cbn [applyComparisons]; [by eexists|].
  assert (exists value, apply_comparison comparisons r = Some (Ok value)) as [value ->].
  { unfold apply_comparison. destruct (comparisons !! mr_Name r) as [c|]; [|by eexists].
    destruct (Apply_total r (definition_named (mr_Name r)) c) as (r' & -> & _). by eexists. }
  cbn [mbind option_bind]. rewrite IH. by eexists.
Qed.

Lemma Compute_total input :
  (exists results, Compute input = Some (Ok results)) \/ (exists e, Compute input = Some (Err e)) /\ ~ input_wf input.
Proof.
  destruct (invalidInput input) eqn:E.
  - right. split; [unfold Compute; rewrite E; by eexists|]. intros H%invalidInput_spec. congruence.
  - left. destruct (Compute_valid input E) as (unsorted & -> & _). by eexists.
Qed.

(** Why an audit of a snapshot fails. *)
Definition unusable (s : Snapshot) : Prop :=
  ~ input_wf (sn_Metrics s) \/ ~ input_wf (sn_GovernanceOverhead s) \/
  exists calculated findings recommendations,
    encode_payload (first_revision (normalizeSnapshot s)) calculated findings recommendations = None.

Lemma audit_snapshot_total s :
  (exists res, audit_snapshot encode_payload encode_refs sha256_hex s = Some (Ok res)) \/
  (exists e, audit_snapshot encode_payload encode_refs sha256_hex s = Some (Err e)) /\ unusable s.
Proof.
  unfold audit_snapshot, unusable. cbv zeta. change (sn_Metrics (normalizeSnapshot s)) with (sn_Metrics s).
  change (sn_GovernanceOverhead (normalizeSnapshot s)) with (sn_GovernanceOverhead s).
  destruct (Compute_total (sn_Metrics s)) as [[measured ->]|[[e ->] H]]; cbn [mbind option_bind];
    [|right; split; [by eexists|by left]].
  destruct (applyComparisons_total measured (sn_Comparisons (normalizeSnapshot s))) as [calculated ->].
  cbn [mbind option_bind].
  destruct (Compute_total (sn_GovernanceOverhead s)) as [[overhead ->]|[[e ->] H]]; cbn [mbind option_bind];
    [|right; split; [by eexists|by right; left]].
  unfold hash. destruct (encode_payload _ _ _ _) as [data|] eqn:E; [left; by eexists|].
  right. split; [by eexists|]. right. right. eauto.
Qed.

(** The facts of a result name its metrics, recommendations and outliers. *)
Lemma audit_snapshot_reportable s res :
  audit_snapshot encode_payload encode_refs sha256_hex s = Some (Ok res) ->
  exists facts, apr_ReportFacts res = Some facts /\ rf_Version facts = "report-facts-v1" /\
    NoDup (mr_Name <$> apr_Metrics res) /\ rm_Name <$> rf_Metrics facts = mr_Name <$> apr_Metrics res /\
    NoDup (ar_Code <$> apr_Recommendations res) /\
    rr_Code <$> rf_Recommendations facts = ar_Code <$> apr_Recommendations res /\
    outliers_matched (apr_Outliers res) (rf_Outliers facts).
Proof.
  intros (measured & Hc & Ha & Hf & Hr & Ho & _ & _ & _ & Hfacts)%audit_snapshot_inv.
  assert (NoDup (mr_Name <$> apr_Metrics res)) as Hd.
  { rewrite (applyComparisons_names _ _ _ Ha). by eapply Compute_distinct. }
  eexists. split; [exact Hfacts|]. split_and!; [done|done|..].
  - cbn [buildReportFacts rf_Metrics]. by rewrite <- list_fmap_compose.
  - rewrite Hr. apply Generate_distinct, detect_distinct.
  - cbn [buildReportFacts rf_Recommendations]. rewrite <- list_fmap_compose. apply list_fmap_ext.
    intros i item _. unfold compose, recommendation_fact. by destruct (_ =s _).
  - split; [rewrite Ho; by apply Rank_distinct|]. cbn [buildReportFacts rf_Outliers].
    by rewrite <- list_fmap_compose.
Qed.

(** C28: every audit can be reported: [Run] never panics; it fails only when the request is
    invalid, the source fails or the snapshot is unusable; and whatever the snapshot, a
    result that it returns has exactly one fact for each of its metrics, recommendations and
    outliers, so that [report.Build] accepts it. *)
Theorem Run_reportable (source : AuditProjectRequest -> result ToolError Snapshot)
    (request : AuditProjectRequest) :
  match Run encode_payload encode_refs sha256_hex source request with
  | None => False
  | Some (Err _) => ValidateRequest request <> None \/ (exists e, source request = Err e) \/
                    (exists s, source request = Ok s /\ unusable s)
  | Some (Ok res) => ValidateRequest request = None /\ exists m, Build res = Ok m
  end.
Proof.
  unfold Run. destruct (ValidateRequest request); [by left|]. destruct (source request) as [s|e]; [|eauto].
  destruct (audit_snapshot_total s) as [[res Hres]|[[e ->] H]]; [|eauto 6]. rewrite Hres. split; [done|].
  destruct (audit_snapshot_reportable _ _ Hres) as (facts & Hf & Hv & Nm & Em & Nr & Er & Ho).
  by apply (Build_ok res facts).
Qed.

Lemma Run_inv source request res :
  Run encode_payload encode_refs sha256_hex source request = Some (Ok res) ->
  exists s, audit_snapshot encode_payload encode_refs sha256_hex s = Some (Ok res).
Proof. unfold Run. destruct (ValidateRequest request); [done|]. destruct (source request); [eauto|done]. Qed.

Lemma guardrailsPass_spec guardrails :
  guardrailsPass guardrails = true -> guardrails <> [] /\ Forall (fun g => gr_State g = "pass") guardrails.
Proof.
  unfold guardrailsPass. destruct guardrails as [|g l]; [done|]. cbn [length Nat.eqb]. intros H. split; [done|].
  rewrite forallb_spec in H. eapply Forall_impl; [exact H|]. intros x. apply str_eqb_eq.
Qed.

(** Where a recommendation comes from. *)
Definition supported (res : AuditProjectResult) (r : AuditRecommendation) : Prop :=
  ar_ApprovalRequired r = true /\ ar_LifecycleState r = "proposed" /\
  exists f, f ∈ apr_Findings res /\ recommendationByFinding !! af_Code f = Some (ar_Code r) /\
    ar_EvidenceRefs r = af_EvidenceRefs f /\ (length (af_EvidenceRefs f) <= 100)%nat /\
    af_Classification f <> "necessary" /\ af_Classification f <> "uncertain".

Lemma proposal_supported s res context r :
  apr_Findings res = detect s -> r ∈ omap (proposal context) (go_sort by_code (detect s)) ->
  supported res r /\ rc_QualityGuardrailsPass context = true /\
  exists o f, o ∈ observations s /\ grounded o f /\ recommendationByFinding !! ob_Code o = Some (ar_Code r) /\
    af_Classification f <> "necessary" /\ af_Classification f <> "uncertain".
Proof.
  intros Hf (f & Hin & Hp)%list_elem_of_omap. rewrite elem_of_go_sort in Hin.
  pose proof Hin as (o & Ho & He)%elem_of_Evaluate. apply evaluate_grounded in He.
  unfold proposal in Hp. destruct (skipped context f) eqn:Es; [done|].
  unfold skipped in Es. apply orb_false_iff in Es as [Es Eg]. apply orb_false_iff in Es as [Es _].
  apply orb_false_iff in Es as [Es _]. apply orb_false_iff in Es as [En Eu].
  apply str_eqb_neq in En, Eu. apply negb_false_iff in Eg.
  destruct (candidate_preview _ _ Hp) as (Ha & Hl & Hr & _). apply candidate_code in Hp.
  split_and!; [|done|].
  - split_and!; [done..|]. exists f. rewrite Hf. split_and!; try done. by destruct (gd_refs _ _ He).
  - exists o, f. rewrite <- (gd_code _ _ He). by split_and!.
Qed.

(** C29: a recommendation never runs ahead of its evidence: a result of [Run] has between one
    and five, either the single one that nothing is to be done, or, when there are
    guardrails and all of them pass and the coverage is complete, only proposals that
    require approval, each with the evidence of a finding of the result that is neither
    necessary work nor uncertain. *)
Theorem recommendations_supported (source : AuditProjectRequest -> result ToolError Snapshot)
    (request : AuditProjectRequest) (res : AuditProjectResult) :
  Run encode_payload encode_refs sha256_hex source request = Some (Ok res) ->
  (1 <= length (apr_Recommendations res) <= 5)%nat /\ NoDup (ar_Code <$> apr_Recommendations res) /\
  (apr_Recommendations res = [noAction] \/
   apr_Guardrails res <> [] /\ Forall (fun g => gr_State g = "pass") (apr_Guardrails res) /\
   apr_Coverage res = CoverageStateComplete /\ Forall (supported res) (apr_Recommendations res)).
Proof.
  intros (s0 & H)%Run_inv. apply audit_snapshot_inv in H as (measured & _ & _ & Hf & Hr & _ & _ & Hg & Hc & _).
  set (s := normalizeSnapshot s0) in *. split_and!.
  - rewrite Hr, Generate_cases. pose proof (length_take_le_5 (omap (proposal (audit_context encode_refs
      sha256_hex s (detect s))) (go_sort by_code (detect s)))). destruct (take 5 _); cbn in *; lia.
  - rewrite Hr, Generate_cases. pose proof (length_take_le_5 (omap (proposal (audit_context encode_refs
      sha256_hex s (detect s))) (go_sort by_code (detect s)))). destruct (take 5 _); cbn in *; lia.
  - rewrite Hr. apply Generate_distinct, detect_distinct.
  - rewrite Hr, Generate_cases. set (context := audit_context _ _ _ _).
    assert (forall r, r ∈ take 5 (omap (proposal context) (go_sort by_code (detect s))) ->
      supported res r /\ guardrailsPass (apr_Guardrails res) = true /\ apr_Coverage res = CoverageStateComplete)
      as Hall.
    { intros r (i & Hi & _)%elem_of_take. apply list_elem_of_lookup_2 in Hi.
      destruct (proposal_supported s res context r Hf Hi) as (H1 & H2 & o & f & Ho & Hgr & Ht & Hn & Hu).
      split; [done|]. split; [by rewrite Hg|]. rewrite Hc.
      assert (ob_RequiredWork o = false) as Hw.
      { destruct (ob_RequiredWork o) eqn:E; [|done]. by apply (gd_necessary _ _ Hgr) in E. }
      destruct (gd_judged _ _ Hgr Hw Hu) as (<- & _). symmetry.
      by apply observations_coverage. }
    destruct (take 5 _) as [|r l]; [by left|]. right.
    destruct (Hall r (list_elem_of_here _ _)) as (_ & Hp & Hcov). apply guardrailsPass_spec in Hp as [Hp1 Hp2].
    split_and!; [done..|]. apply Forall_forall. intros x Hx. by apply Hall.
Qed.

Lemma attribution_observation s o :
  o ∈ observations s -> ob_Code o = "scope_attribution_gap" ->
  ob_Classification o = "uncertain" /\ ob_RequiredWork o = false /\ ob_Counterevidence o = [] /\
  ob_ConfounderMatched o = confounders_matched s.
Proof.
  intros Ho Hc. unfold observations in Ho.
  repeat (apply elem_of_cons in Ho as [->|Ho]; [by (split_and! || discriminate Hc)|]).
  by apply elem_of_nil in Ho.
Qed.

(** The gap in attribution is proposed for repair only when the comparison is
    confounded: its detector calls it uncertain on clean evidence, which is never
    recommended, and mixed, which is, when some confounder is unmatched. *)
Theorem attribution_needs_confounder (source : AuditProjectRequest -> result ToolError Snapshot)
    (request : AuditProjectRequest) (res : AuditProjectResult) (r : AuditRecommendation) :
  Run encode_payload encode_refs sha256_hex source request = Some (Ok res) ->
  r ∈ apr_Recommendations res -> ar_Code r = "restore_scope_attribution" ->
  exists c, c ∈ apr_Confounders res /\ cs_Matched c = false.
Proof.
  intros (s0 & H)%Run_inv. apply audit_snapshot_inv in H as (measured & _ & _ & Hf & Hr & _ & Hcf & _).
  set (s := normalizeSnapshot s0) in *. rewrite Hr, Generate_cases. intros Hin Hcode.
  destruct (take 5 _) as [|x l] eqn:E; [by apply list_elem_of_singleton in Hin as ->|]. rewrite <- E in Hin.
  apply elem_of_take in Hin as (i & Hi & _). apply list_elem_of_lookup_2 in Hi.
  destruct (proposal_supported s res _ r Hf Hi) as (_ & _ & o & f & Ho & Hg & Ht & _ & Hu).
  rewrite Hcode in Ht. assert (ob_Code o = "scope_attribution_gap") as Hc by (by eapply table_injective).
  destruct (attribution_observation s o Ho Hc) as (H1 & H2 & H3 & H4).
  destruct (gd_judged _ _ Hg H2 Hu) as (_ & _ & [Hcl|[_ [Hm|Hn]]]); [congruence| |done].
  rewrite H4 in Hm. unfold confounders_matched in Hm. rewrite Hcf.
  destruct (forallb_false_elem _ _ Hm) as (c & Hc' & Hcm). eauto.
Qed.
End Run.

(** ** An example *)

Definition sample_input : Input :=
  mkInput 4 2 0 0 0 0 (float_of_Z 400) (float_of_Z 100) 10 3 10 0 0 0 0 0 1 1 4 (float_of_Z 60) (float_of_Z 30)
    true CoverageStateComplete ["ref-b"; "ref-a"] [].

Definition sample_snapshot : Snapshot :=
  {| sn_Reference := "all"; sn_Scope := AuditScopePortfolio; sn_StartsAt := 1000000000; sn_EndsAt := 2000000000;
     sn_AsOf := 3000000000; sn_Coverage := CoverageStateComplete; sn_Metrics := sample_input;
     sn_GovernanceOverhead := sample_input; sn_PassivePollingRefs := ["ref-c"]; sn_RepeatedCallRefs := [];
     sn_NecessaryWorkRefs := []; sn_Comparisons := ∅;
     sn_Window := mkAuditWindowProvenance zero_time 0 0 "" "" "" "" [] 0 false; sn_Contributions := [];
     sn_ConfounderStrata := [mkConfounderStratum "model" "changed" false "low" "observed"];
     sn_Guardrails := [mkGuardrailResult "privacy" "pass" CoverageStateComplete []];
     sn_WorkloadEffects := []; sn_InvocationCounts := mkInvocationCounts 0 0 0 0 0;
     sn_ReportScopeCounts := mkReportScopeCounts 0 None 0 None 0 None 0 None; sn_ReportSources := [];
     sn_PrivacySuppressed := false; sn_OmittedCount := 0;
     sn_RecommendationContext := mkRecommendationContext 0 ∅ ∅ "" ∅ false |}.

Definition sample_request : AuditProjectRequest :=
  {| apq_SchemaVersion := SchemaVersion; apq_Kind := "request"; apq_Scope := AuditScopePortfolio;
     apq_Reference := "all"; apq_ConfiguredSources := ["git"]; apq_StartsAt := 1000000000;
     apq_EndsAt := 2000000000; apq_AsOf := 3000000000; apq_Consent := AuditConsentGranted |}.

Definition sample_run : option (result ToolError AuditProjectResult) :=
  Run (fun _ _ _ _ => Some "payload") str_concat (fun data => data) (fun _ => Ok sample_snapshot) sample_request.

Definition sample_result : AuditProjectResult :=
  match sample_run with Some (Ok res) => res | _ => sample_audit "" end.

Lemma sample_run_ok : sample_run = Some (Ok sample_result).
Proof. vm_compute. reflexivity. Qed.

Lemma recommendations_supported_witness :
  ar_Code <$> apr_Recommendations sample_result = ["wait_on_state_change"; "restore_scope_attribution"] /\
  apr_Guardrails sample_result <> [].
Proof.
  split; [vm_compute; reflexivity|].
  destruct (recommendations_supported _ _ _ _ _ sample_result sample_run_ok) as (_ & _ & [H|H]).
  - apply (f_equal length) in H. vm_compute in H. discriminate H.
  - apply H.
Defined.

Lemma attribution_needs_confounder_witness :
  exists c, c ∈ apr_Confounders sample_result /\ cs_Matched c = false.
Proof.
  assert (exists r, apr_Recommendations sample_result !! 1%nat = Some r /\ ar_Code r = "restore_scope_attribution")
    as (r & Hr & Hc) by (eexists; split; vm_compute; reflexivity).
  apply (attribution_needs_confounder _ _ _ _ _ sample_result r sample_run_ok); [|exact Hc].
  by apply list_elem_of_lookup_2 in Hr.
Defined.
