(* ===== verification/AuditBudget.v ===== *)
(** * The byte budget of an audit (internal/audit/audit.go, BoundResult)

    Cutting a result to its budget terminates, counts what it drops, and never touches a
    recommendation or the evidence of a finding; but once an outlier is dropped, the facts of
    the report no longer fit the result. *)
From S2P Require Import Contracts GoInt Runtime Metrics Baseline Outlier Diagnosis.
From S2P Require Import Unicode Utf8 Runes GoFmt Textutil Regex AuditRequest Report Service AuditEngine AuditReport.

(** ** What may be dropped *)

(** The same elements, with a prefix of their items. *)
Definition thinned {A B} (get : A -> list B) (set : A -> list B -> A) (values values' : list A) : Prop :=
  Forall2 (fun a a' => a' = set a (get a') /\ get a' `prefix_of` get a) values values'.

Record omits (r b : AuditProjectResult) : Prop := {
  om_header : (apr_AuditReference b, apr_Scope b, apr_AsOf b, apr_RevisionHash b, apr_Coverage b) =
              (apr_AuditReference r, apr_Scope r, apr_AsOf r, apr_RevisionHash r, apr_Coverage r);
  om_metrics : thinned mr_EvidenceRefs set_metric_refs (apr_Metrics r) (apr_Metrics b);
  om_findings : thinned af_Counterevidence set_counterevidence (apr_Findings r) (apr_Findings b);
  om_guardrails : thinned gr_EvidenceRefs set_guardrail_refs (apr_Guardrails r) (apr_Guardrails b);
  om_recommendations : apr_Recommendations b = apr_Recommendations r;
  om_contributions : apr_Contributions b `prefix_of` apr_Contributions r;
  om_confounders : apr_Confounders b `prefix_of` apr_Confounders r;
  om_effects : apr_WorkloadEffects b `prefix_of` apr_WorkloadEffects r;
  om_outliers : apr_Outliers b `prefix_of` apr_Outliers r;
  om_facts : apr_ReportFacts b = apr_ReportFacts r;
  om_count : (apr_OmittedCount b + Z.of_nat (omittable b) = apr_OmittedCount r + Z.of_nat (omittable r))%Z;
  om_less : (omittable b <= omittable r)%nat
}.

(** Fields that can be read and set. *)
Class Lens {A B} (get : A -> B) (set : A -> B -> A) : Prop := {
  lens_get : forall a x, get (set a x) = x;
  lens_set : forall a x y, set (set a x) y = set a y;
  lens_id : forall a, set a (get a) = a
}.

#[export] Instance metric_refs_lens : Lens mr_EvidenceRefs set_metric_refs.
Proof. split; [done|done|by intros []]. Qed.
#[export] Instance counterevidence_lens : Lens af_Counterevidence set_counterevidence.
Proof. split; [done|done|by intros []]. Qed.
#[export] Instance guardrail_refs_lens : Lens gr_EvidenceRefs set_guardrail_refs.
Proof. split; [done|done|by intros []]. Qed.

Section Thinned.
Context {A B} (get : A -> list B) (set : A -> list B -> A) `{!Lens get set}.

Lemma thinned_refl values : thinned get set values values.
Proof. apply Forall_Forall2_diag, Forall_true. intros a. by rewrite lens_id. Qed.

Lemma thinned_trans values1 values2 values3 :
  thinned get set values1 values2 -> thinned get set values2 values3 -> thinned get set values1 values3.
Proof.
  unfold thinned. intros H. revert values3. induction H as [|a b l k [Hb Pb] _ IH]; intros values3 H3.
  - by apply Forall2_nil_inv_l in H3 as ->.
  - apply Forall2_cons_inv_l in H3 as (c & l3 & [Hc Pc] & H3 & ->). constructor; [|by apply IH].
    split; [|by etrans]. rewrite Hc at 1. rewrite Hb at 1. by rewrite lens_set.
Qed.

Lemma omitLast_spec {C} (l l' : list C) : omitLast l = Some l' -> l' `prefix_of` l /\ length l = S (length l').
Proof.
  unfold omitLast. destruct l as [|x l]; [done|]. intros H. apply (inj Some) in H as <-.
  destruct (exists_last (l := x :: l)) as (init & y & E); [done|]. rewrite E, removelast_last.
  split; [by exists [y]|]. rewrite length_app. cbn. lia.
Qed.

Lemma omitLast_none {C} (l : list C) : omitLast l = None -> l = [].
Proof. by destruct l. Qed.

Lemma omit_from_last_spec values values' :
  omit_from_last get set values = Some values' ->
  thinned get set values values' /\
  sum_list_with (fun a => length (get a)) values = S (sum_list_with (fun a => length (get a)) values').
Proof.
  revert values'. induction values as [|a values IH]; intros values'; cbn [omit_from_last]; [done|].
  destruct (omit_from_last get set values) as [rest|] eqn:E.
  - intros [= <-]. destruct (IH rest eq_refl) as [H1 H2]. split.
    + constructor; [split; [by rewrite lens_id|done]|exact H1].
    + cbn. lia.
  - destruct (omitLast (get a)) as [items|] eqn:L; [|done]. intros [= <-].
    destruct (omitLast_spec _ _ L) as [P1 P2]. split.
    + constructor; [by rewrite lens_get|apply thinned_refl].
    + cbn. rewrite (lens_get a items). lia.
Qed.

Lemma omit_from_last_none values :
  omit_from_last get set values = None -> sum_list_with (fun a => length (get a)) values = 0%nat.
Proof.
  induction values as [|a values IH]; cbn [omit_from_last]; [done|].
  destruct (omit_from_last get set values); [done|]. destruct (omitLast (get a)) eqn:L; [done|].
  intros _. apply omitLast_none in L. cbn. rewrite L, IH by done. done.
Qed.
End Thinned.

Lemma omits_refl r : omits r r.
Proof. split; try done; apply thinned_refl, _. Qed.

Lemma omits_trans r1 r2 r3 : omits r1 r2 -> omits r2 r3 -> omits r1 r3.
Proof.
  intros [] []. split; try congruence; try lia; try (by eapply thinned_trans; eauto with typeclass_instances);
    by etrans.
Qed.

Lemma omit_one_spec r b : omit_one r = Some b -> omits r b /\ omittable r = S (omittable b).
Proof.
  unfold omit_one, omitOneEvidenceReference, or_else.
  destruct (omit_from_last mr_EvidenceRefs _ _) as [l|] eqn:E1;
    [|destruct (omit_from_last af_Counterevidence _ _) as [l|] eqn:E2;
    [|destruct (omit_from_last gr_EvidenceRefs _ _) as [l|] eqn:E3]]; cbn [fmap option_fmap option_map];
    [| | |destruct (omitLast (apr_Contributions r)) as [l|] eqn:E4;
    [|destruct (omitLast (apr_Confounders r)) as [l|] eqn:E5;
    [|destruct (omitLast (apr_WorkloadEffects r)) as [l|] eqn:E6;
    [|destruct (omitLast (apr_Outliers r)) as [l|] eqn:E7]]]]; cbn [fmap option_fmap option_map];
    intros H; try discriminate H; injection H as <-;
    match goal with
    | E : omit_from_last _ _ _ = Some _ |- _ => apply omit_from_last_spec in E as [P1 P2]; [|apply _]
    | E : omitLast _ = Some _ |- _ => apply omitLast_spec in E as [P1 P2]
    end;
    (split; [split|]); try done; try (by apply thinned_refl, _); unfold omittable; cbn; try lia.
Qed.

Lemma omit_one_none r : omit_one r = None -> omittable r = 0%nat.
Proof.
  unfold omit_one, omitOneEvidenceReference, or_else.
  destruct (omit_from_last mr_EvidenceRefs _ _) eqn:E1; [done|].
  destruct (omit_from_last af_Counterevidence _ _) eqn:E2; [done|].
  destruct (omit_from_last gr_EvidenceRefs _ _) eqn:E3; [done|]. cbn [fmap option_fmap option_map].
  destruct (omitLast (apr_Contributions r)) eqn:E4; [done|].
  destruct (omitLast (apr_Confounders r)) eqn:E5; [done|].
  destruct (omitLast (apr_WorkloadEffects r)) eqn:E6; [done|].
  destruct (omitLast (apr_Outliers r)) eqn:E7; [done|]. intros _.
  apply omit_from_last_none in E1, E2, E3. apply omitLast_none in E4, E5, E6, E7.
  unfold omittable. rewrite E1, E2, E3, E4, E5, E6, E7. done.
Qed.

(** ** The loop *)

Section Budget.
Context (marshal : AuditProjectResult -> option string)
        (json_copy : AuditProjectResult -> option AuditProjectResult).

Definition within (limit : Z) (r : AuditProjectResult) : Prop :=
  exists encoded, marshal r = Some encoded /\ (str_len encoded <= limit)%Z.

Definition over (limit : Z) (r : AuditProjectResult) : Prop :=
  exists encoded, marshal r = Some encoded /\ (limit < str_len encoded)%Z.

Definition bounded_outcome (limit : Z) (r : AuditProjectResult)
    (outcome : option (result ToolError AuditProjectResult)) : Prop :=
  match outcome with
  | None => False
  | Some (Ok b) => omits r b /\ within limit b /\ (within limit r -> b = r)
  | Some (Err e) =>
      (e = OtherError /\ exists b, omits r b /\ marshal b = None) \/
      (e = budget_error /\ exists b, omits r b /\ omittable b = 0%nat /\ over limit b)
  end.

Lemma bound_loop_spec limit fuel r :
  (omittable r < fuel)%nat -> bounded_outcome limit r (bound_loop marshal fuel limit r).
Proof.
  revert r. induction fuel as [|f IH]; intros r Hf; [lia|]. cbn [bound_loop].
  destruct (marshal r) as [encoded|] eqn:E; [|left; split; [done|]; exists r; split; [apply omits_refl|done]].
  destruct (str_len encoded <=? limit)%Z eqn:El; bool_facts.
  { split_and!; [apply omits_refl|by exists encoded|done]. }
  destruct (omit_one r) as [r'|] eqn:Eo.
  - destruct (omit_one_spec _ _ Eo) as [H1 H2]. specialize (IH r' ltac:(lia)).
    destruct (bound_loop marshal f limit r') as [[b|e]|]; cbn [bounded_outcome] in *; [| |done].
    + destruct IH as (H3 & H4 & _). split_and!; [by eapply omits_trans|done|].
      intros (encoded' & E' & Hl). rewrite E in E'. injection E' as ->. lia.
    + destruct IH as [(-> & b & H3 & H4)|(-> & b & H3 & H4 & H5)]; [left|right]; (split; [done|]);
        exists b; split_and!; try done; by eapply omits_trans.
  - right. split; [done|]. exists r. split_and!; [apply omits_refl|by apply omit_one_none|by exists encoded].
Qed.

(** C30: the budget of an audit is met or reported, never silently broken: [BoundResult] always
    returns; a result it returns fits the limit, is the given one when that fits already,
    keeps every recommendation and the evidence of every finding, drops only from the ends
    of the other lists and counts each item it drops; and the budget error is returned only
    when nothing is left to drop and the rest is still too long. *)
Theorem boundResult_exact (r copy : AuditProjectResult) (limit : Z) :
  json_copy r = Some copy -> marshal r <> None ->
  bounded_outcome limit copy (boundResult marshal json_copy r limit).
Proof.
  intros Hc Hm. unfold boundResult. destruct (marshal r); [|done]. rewrite Hc. apply bound_loop_spec. lia.
Qed.

(** ** The report of a bounded result *)

Lemma thinned_names {A B} (get : A -> list B) (set : A -> list B -> A) (name : A -> string) values values' :
  (forall a l, name (set a l) = name a) -> thinned get set values values' -> name <$> values' = name <$> values.
Proof.
  intros Hn H. induction H as [|a b l k [Hb _] _ IH]; [done|]. cbn. by rewrite IH, Hb, Hn.
Qed.

Lemma prefix_same_length {A} (l k : list A) : l `prefix_of` k -> length l = length k -> l = k.
Proof.
  intros [x ->] H. rewrite length_app in H. destruct x; [by rewrite app_nil_r|cbn in H; lia].
Qed.

Context (encode_payload : Snapshot -> list MetricResult -> list AuditFinding -> list AuditRecommendation -> option string)
        (encode_refs : list string -> string) (sha256_hex : string -> string).

(** Cutting a result can make it unreportable: when the result of an audit is cut to a
    budget, its report can still be built exactly when no outlier was dropped, because the
    facts of the report keep an entry for every outlier. *)
Theorem bounded_report (source : AuditProjectRequest -> result ToolError Snapshot)
    (request : AuditProjectRequest) (res b : AuditProjectResult) (limit : Z) :
  Run encode_payload encode_refs sha256_hex source request = Some (Ok res) ->
  json_copy res = Some res -> boundResult marshal json_copy res limit = Some (Ok b) ->
  (exists m, Build b = Ok m) <-> apr_Outliers b = apr_Outliers res.
Proof.
  intros (s & Hs)%Run_inv Hcopy Hb.
  assert (omits res b) as [_ Hm _ _ Hr _ _ _ Ho Hf _ _].
  { unfold boundResult in Hb. destruct (marshal res); [|done]. rewrite Hcopy in Hb.
    pose proof (bound_loop_spec limit (S (omittable res)) res ltac:(lia)) as H. rewrite Hb in H. apply H. }
  destruct (audit_snapshot_reportable _ _ _ _ _ Hs) as (facts & Hfacts & Hv & Nm & Em & Nr & Er & Nout & Pout).
  apply (thinned_names _ _ mr_Name) in Hm; [|done].
  split.
  - intros [m Hbuild]. apply Build_inv in Hbuild as (facts' & _ & _ & _ & _ & orows & Hf' & _ & _ & Hout & _).
    rewrite Hf, Hfacts in Hf'. injection Hf' as <-.
    assert (outliers_matched (apr_Outliers b) (rf_Outliers facts)) as [_ Pb].
    { apply build_outliers_spec. by exists orows. }
    apply prefix_same_length; [done|]. rewrite Pout in Pb. apply Permutation_length in Pb.
    by rewrite !length_fmap in Pb.
  - intros E. apply (Build_ok b facts); try congruence. rewrite E. done.
Qed.
End Budget.

(** ** An example *)

(** A metric with an outlier: 100 now, after 90, 100 and 130. *)
Definition outlier_snapshot : Snapshot :=
  let s := sample_snapshot in
  mkSnapshot (sn_Reference s) (sn_Scope s) (sn_StartsAt s) (sn_EndsAt s) (sn_AsOf s) (sn_Coverage s)
    (sn_Metrics s) (sn_GovernanceOverhead s) (sn_PassivePollingRefs s) (sn_RepeatedCallRefs s)
    (sn_NecessaryWorkRefs s)
    {["tokens_per_turn" := mkComparison (sample_window 100) (sample_window <$> [90; 100; 130]%Z) [] None true
                             false 2 false]}
    (sn_Window s) (sn_Contributions s) (sn_ConfounderStrata s) (sn_Guardrails s) (sn_WorkloadEffects s)
    (sn_InvocationCounts s) (sn_ReportScopeCounts s) (sn_ReportSources s) (sn_PrivacySuppressed s)
    (sn_OmittedCount s) (sn_RecommendationContext s).

Definition outlier_run : option (result ToolError AuditProjectResult) :=
  Run (fun _ _ _ _ => Some "payload") str_concat (fun data => data) (fun _ => Ok outlier_snapshot) sample_request.

Definition outlier_result : AuditProjectResult :=
  match outlier_run with Some (Ok res) => res | _ => sample_audit "" end.

Lemma outlier_run_ok : outlier_run = Some (Ok outlier_result).
Proof. vm_compute. reflexivity. Qed.

(** An encoding that is long while there is an outlier. *)
Definition sample_marshal (r : AuditProjectResult) : option string :=
  Some (match apr_Outliers r with [] => "{}" | _ => "{outliers}" end).

Definition bounded_result : AuditProjectResult :=
  match boundResult sample_marshal Some outlier_result 5 with Some (Ok b) => b | _ => outlier_result end.

Lemma bounded_ok : boundResult sample_marshal Some outlier_result 5 = Some (Ok bounded_result).
Proof. vm_compute. reflexivity. Qed.

Lemma boundResult_exact_witness :
  omits outlier_result bounded_result /\ apr_OmittedCount bounded_result = 30%Z.
Proof.
  split; [|vm_compute; reflexivity].
  pose proof (boundResult_exact sample_marshal Some outlier_result outlier_result 5 eq_refl ltac:(discriminate)) as H.
  rewrite bounded_ok in H. apply H.
Defined.

Lemma bounded_report_witness :
  no_Metric <$> apr_Outliers outlier_result = ["tokens_per_turn"] /\ ~ exists m, Build bounded_result = Ok m.
Proof.
  split; [vm_compute; reflexivity|].
  intros H. apply (bounded_report sample_marshal Some _ _ _ _ sample_request outlier_result bounded_result 5
    outlier_run_ok eq_refl bounded_ok) in H. vm_compute in H. discriminate H.
Defined.
