(* ===== verification/Evidence.v ===== *)
(** * Evidence (internal/evidence/evidence.go)

    What may be kept of a source record: a schema of attributes for each kind of source, the
    redaction of everything else, and the opaque aliases of identities.

    [hmac_hex] is HMAC-SHA-256 of a message under a key, in hexadecimal: an argument. *)
From Stdlib Require Import Ascii.
From S2P Require Import Contracts Unicode Utf8 Runes GoInt.

Definition IdentityVersion : string := "identity-v2".

Abbreviation Coverage := string (only parsing).
Definition CoverageComplete : Coverage := "complete".
Definition CoveragePartial : Coverage := "partial".
Definition CoverageMissing : Coverage := "missing".
Definition CoverageUnknown : Coverage := "unknown".

Record Lineage := mkLineage {
  li_SessionID : string;
  li_TrajectoryID : string;
  li_ParentTrajectoryID : string;
  li_TaskID : string;
  li_TurnID : string;
  li_TurnOrdinal : option Z;
  li_ResponseID : string;
  li_ParentResponseID : string;
  li_ToolCallID : string;
  li_CallerToolCallID : string;
  li_ToolKind : string;
  li_CallPath : string
}.

Definition absent (s : string) : bool := s =s "".

Definition Incomplete (l : Lineage) : bool :=
  if negb (absent (li_TrajectoryID l)) && absent (li_SessionID l) then true
  else if negb (absent (li_TurnID l))
          && (absent (li_TrajectoryID l) || bool_decide (li_TurnOrdinal l = None)) then true
  else if negb (absent (li_ResponseID l)) && absent (li_TurnID l) then true
  else negb (absent (li_ToolCallID l)) && absent (li_ResponseID l).

(** The slice and the map may be nil. *)
Record EvidenceRecord := mkEvidenceRecord {
  er_ID : string;
  er_SourceKind : string;
  er_SourceVersion : string;
  er_Sequence : Z;
  er_EventAt : option Z;
  er_IngestedAt : Z;
  er_ObservedAt : Z;
  er_MonotonicNanos : Z;
  er_Classification : string;
  er_Coverage : Coverage;
  er_CoverageReason : string;
  er_ProductSurface : string;
  er_ContentSHA256 : string;
  er_RedactedFields : option (list string);
  er_Attributes : option (gmap string string);
  er_LateRevision : bool;
  er_OrderingUncertain : bool;
  er_GovernanceOverhead : bool;
  er_Lineage : Lineage
}.

Inductive EvidenceError :=
  | ErrSensitive
  | ErrOther (message : string).

(** ** Attributes *)

Definition attributeSet (names : list string) : gset string := list_to_set names.

Definition allowedAttributes : gmap string (gset string) :=
  list_to_map
    [("configuration", attributeSet
        ["execution_policy"; "host_permission"; "max_input_bytes"; "timeout"; "format"; "activity_class";
         "policy_schema_version"; "policy_hash"; "raw_prompt_retention"; "telemetry"]);
     ("git", attributeSet ["repository_alias"; "worktree_alias"; "branch_alias"; "head_alias"; "activity_class"]);
     ("github", attributeSet ["event_kind"; "state"; "repository_alias"; "pull_request_alias"; "check_alias";
        "activity_class"]);
     ("codex_jsonl", attributeSet
        ["session_alias"; "trajectory_alias"; "task_alias"; "task_attribution_state";
         "turn_alias"; "turn_ordinal"; "phase"; "phase_event"; "response_lineage";
         "parent_response_alias"; "response_event"; "tool_call_alias"; "caller_alias";
         "tool_kind"; "call_path"; "tool_outcome"; "result_state"; "canonical_call";
         "state_epoch"; "mutation_state"; "output_modality"; "output_size_bytes";
         "wait_state"; "model_variant"; "reasoning_effort"; "reasoning_mode";
         "effective_context"; "verbosity"; "service_mode"; "cache_mode"; "cache_ttl";
         "usage_kind"; "usage_value"; "usage_unit"; "accounting_regime"; "cache_kind";
         "cache_value"; "image_detail"; "safeguard_outcome";
         "safety_identifier_presence"; "checkpoint_event"; "boundary_event";
         "delegation_event"; "stop_event"; "compaction_event"; "activity_class";
         "plan_hash"; "plan_phase_scope"; "approval_boundary_class";
         "budget_enforcement"; "budget_max_tool_loops"; "budget_max_retries";
         "budget_max_retrieval_expansions"; "budget_delegation_policy";
         "budget_max_agent_depth"; "budget_max_concurrency"; "budget_context_mode";
         "budget_exhaustion_outcome"; "policy_schema_version"; "policy_hash";
         "raw_prompt_retention"; "telemetry"; "host_kind"; "host_version";
         "host_capability_name"; "host_capability_state";
         "project_attribution_confidence"; "project_attribution_valid_to"]);
     ("codex_state_sqlite", attributeSet ["thread_alias"; "trajectory_alias"; "state"; "model_variant";
        "reasoning_effort"; "activity_class"]);
     ("rollout_summary", attributeSet ["session_alias"; "trajectory_alias"; "compaction_state";
        "delegation_parent"; "delegation_depth"; "context_mode"; "activity_class"]);
     ("process", attributeSet ["purpose"; "state"; "activity_class"])].

Definition allowed_for (sourceKind : string) : gset string := default ∅ (allowedAttributes !! sourceKind).

Definition sensitive_fragments : list string :=
  ["prompt"; "response_body"; "reasoning"; "payload"; "program_body"; "database_row"; "token_value";
   "secret"; "username"; "host_path"; "safety_identifier"; "authorization"; "cookie"; "cwd"; "path";
   "content"; "text"; "user"].

Definition sensitiveKey (key : string) : bool :=
  let key := to_lower key in existsb (fun fragment => str_contains fragment key) sensitive_fragments.

Definition secretLike (value : string) : bool :=
  let lower := to_lower value in
  str_contains "-----begin private key-----" lower || has_prefix "ghp_" lower || has_prefix "sk-" lower
  || str_contains "op://" lower || has_prefix "github_pat_" lower || has_prefix "eyj" lower.

(** [strings.ContainsRune] of the punctuation that metadata may hold. *)
Definition metadata_mark (r : Z) : bool := bool_decide (r ∈ runes "._:+-").

Definition safeMetadataValue (value : string) : bool :=
  if (value =s "") || (128 <? str_len value)%Z then false
  else forallb (fun r => is_letter r || is_digit r || metadata_mark r) (runes value).

Definition keyedAttribute (field : string) : bool :=
  has_suffix "_alias" field || str_contains "lineage" field || has_suffix "_parent" field
  || (field =s "canonical_call") || (field =s "state_epoch").

Definition aliasDomain (sourceKind field : string) : string :=
  if one_of field ["session_alias"; "thread_alias"] then "session"
  else if one_of field ["trajectory_alias"; "delegation_parent"] then "trajectory"
  else if field =s "task_alias" then "task"
  else if one_of field ["response_lineage"; "parent_response_alias"] then "response"
  else if one_of field ["tool_call_alias"; "caller_alias"] then "tool_call"
  else if field =s "canonical_call" then "canonical_call"
  else if field =s "state_epoch" then "state_epoch"
  else sourceKind +:+ ":" +:+ field.

(** [strconv.ParseInt(s, 10, 64)]. *)
Definition ParseInt (s : string) : option Z :=
  let '(negative, digits) :=
    match s with
    | String c rest =>
        if Ascii.eqb c "-"%char then (true, rest) else if Ascii.eqb c "+"%char then (false, rest) else (false, s)
    | EmptyString => (false, s)
    end in
  if (digits =s "") || negb (forallb (in_range 48 57) (runes digits)) then None
  else
    let n := parse_digits 0 digits in
    let z := if negative then (- n)%Z else n in
    if (min_i64 <=? z)%Z && (z <=? max_i64)%Z then Some z else None.

(** The value of a key, or the empty string. *)
Definition attribute (attributes : gmap string string) (field : string) : string :=
  default "" (attributes !! field).

Definition ParseLineage (attributes : gmap string string) : Lineage :=
  let get := attribute attributes in
  {| li_SessionID := if get "session_alias" =s "" then get "thread_alias" else get "session_alias";
     li_TrajectoryID := get "trajectory_alias"; li_ParentTrajectoryID := get "delegation_parent";
     li_TaskID := get "task_alias"; li_TurnID := get "turn_alias";
     li_TurnOrdinal :=
       match ParseInt (get "turn_ordinal") with
       | Some ordinal => if (0 <=? ordinal)%Z then Some ordinal else None
       | None => None
       end;
     li_ResponseID := get "response_lineage"; li_ParentResponseID := get "parent_response_alias";
     li_ToolCallID := get "tool_call_alias"; li_CallerToolCallID := get "caller_alias";
     li_ToolKind := get "tool_kind"; li_CallPath := get "call_path" |}.

Definition Validate (record : EvidenceRecord) : option EvidenceError :=
  if (er_ID record =s "") || (er_SourceKind record =s "") || is_zero_time (er_IngestedAt record)
     || is_zero_time (er_ObservedAt record) then Some (ErrOther "incomplete evidence metadata")
  else match er_Attributes record, er_RedactedFields record with
       | Some attributes, Some _ =>
           if existsb (fun kv => sensitiveKey kv.1 || secretLike kv.2) (map_to_list attributes)
           then Some ErrSensitive else None
       | _, _ => Some (ErrOther "evidence collections must be initialized")
       end.

Section Keyed.
Context (hmac_hex : string -> string -> string).

(** Each part is written after a NUL. *)
Definition opaque_message (parts : list string) : string :=
  str_concat ((fun part => String "000" part) <$> parts).

Definition OpaqueID (key : string) (parts : list string) : result EvidenceError string :=
  if (str_len key <? 32)%Z then Err (ErrOther "identity key must be at least 32 bytes")
  else Ok (hmac_hex key (opaque_message parts)).

(** What happens to one attribute: it is redacted, kept with a value, or the record fails. *)
Definition sanitize_one (sourceKind identityKey field value : string)
    : result EvidenceError (option string) :=
  if negb (bool_decide (field ∈ allowed_for sourceKind)) || sensitiveKey field then Ok None
  else if secretLike value then Err ErrSensitive
  else if keyedAttribute field then
    if trim_space value =s "" then Ok (Some "")
    else let! opaque := OpaqueID identityKey [aliasDomain sourceKind field; value] in Ok (Some opaque)
  else if negb (safeMetadataValue value) then Err ErrSensitive
  else Ok (Some value).

(** The loop over the map, whose order is that of [entries]. *)
Fixpoint sanitize_loop (sourceKind identityKey : string) (entries : list (string * string))
    (clean : gmap string string) (redacted : list string)
    : result EvidenceError (gmap string string * list string) :=
  match entries with
  | [] => Ok (clean, sort_strings redacted)
  | (field, value) :: rest =>
      let! kept := sanitize_one sourceKind identityKey field value in
      match kept with
      | None => sanitize_loop sourceKind identityKey rest clean (redacted ++ [field])
      | Some v => sanitize_loop sourceKind identityKey rest (<[field := v]> clean) redacted
      end
  end.

(** [Sanitize] of a map that the code happens to visit in the order of [entries]. *)
Definition Sanitize (sourceKind identityKey : string) (entries : list (string * string))
    : result EvidenceError (gmap string string * list string) :=
  sanitize_loop sourceKind identityKey entries ∅ [].
End Keyed.

(** ** What is kept *)

(** The lower-case hexadecimal digits that [hex.EncodeToString] writes. *)
Definition hex_char (c : ascii) : bool := in_range 48 57 (byte c) || in_range 97 102 (byte c).

Definition hexadecimal (s : string) : Prop :=
  Forall (fun c => hex_char c = true) (String.list_ascii_of_string s).

Lemma hex_char_range c : hex_char c = true -> (48 <= byte c <= 57 \/ 97 <= byte c <= 102)%Z.
Proof. unfold hex_char. rewrite orb_true_iff, !in_range_spec. done. Qed.

Lemma to_lower_hex s : hexadecimal s -> to_lower s = s.
Proof.
  induction s as [|c s IH]; [done|]. intros [Hc Hs]%Forall_cons.
  assert (byte c < 128)%Z as Ha by (apply hex_char_range in Hc; lia).
  unfold to_lower. rewrite chunks_ascii by done. cbn [fmap list_fmap str_concat fst].
  fold (to_lower s). rewrite IH by done.
  assert (rune_lower (byte c) = byte c) as ->.
  { apply hex_char_range in Hc. unfold rune_lower, in_range. repeat case_goal; lia. }
  unfold encode_rune.
  rewrite (proj2 (in_range_spec 0 127 (byte c))) by (pose proof (byte_range c); lia).
  by rewrite byte_char_byte.
Qed.

Lemma hex_no_char c s : hex_char c = false -> hexadecimal s -> no_char c s.
Proof. intros Hc H. eapply Forall_impl; [exact H|]. intros d Hd ->. by rewrite Hc in Hd. Qed.

Lemma hex_prefix c p s : hex_char c = false -> hexadecimal s -> has_prefix (String c p) s = false.
Proof.
  intros Hc H. destruct s as [|d s]; [done|]. apply Forall_cons in H as [Hd _]. cbn.
  destruct (Ascii.eqb_spec c d) as [->|]; [by rewrite Hc in Hd|done].
Qed.

Lemma hex_not_secret s : hexadecimal s -> secretLike s = false.
Proof.
  intros H. unfold secretLike. rewrite to_lower_hex by done.
  rewrite (hex_prefix "g" "hp_"), (hex_prefix "s" "k-"), (hex_prefix "g" "ithub_pat_") by done.
  assert (forall c p, hex_char c = false -> str_contains (String c p) s = false) as Hin.
  { intros c p Hc. unfold str_contains. by rewrite str_index_no_char by eauto using hex_no_char. }
  rewrite !Hin by done. destruct s as [|d s]; [done|]. apply Forall_cons in H as [_ H].
  pose proof (hex_prefix "y" "j" s eq_refl H) as Hy. cbn [has_prefix]. by destruct (Ascii.eqb _ d).
Qed.

#[local] Opaque allowed_for sensitiveKey secretLike keyedAttribute safeMetadataValue aliasDomain
  trim_space.

Section Sanitized.
Context (hmac_hex : string -> string -> string) (sourceKind identityKey : string).

(** Keeping an attribute, case by case. *)
Lemma sanitize_one_kept f raw v :
  sanitize_one hmac_hex sourceKind identityKey f raw = Ok (Some v) ->
  f ∈ allowed_for sourceKind /\ sensitiveKey f = false /\ secretLike raw = false
  /\ (if keyedAttribute f
      then v = "" /\ trim_space raw = ""
           \/ OpaqueID hmac_hex identityKey [aliasDomain sourceKind f; raw] = Ok v
      else v = raw /\ safeMetadataValue raw = true).
Proof.
  unfold sanitize_one. destruct (bool_decide (f ∈ _)) eqn:Hf; [|done]. apply bool_decide_eq_true in Hf.
  cbn [negb orb]. destruct (sensitiveKey f); [done|]. destruct (secretLike raw); [done|].
  destruct (keyedAttribute f).
  - destruct (trim_space raw =s "") eqn:Ht; [apply str_eqb_eq in Ht; intros [= <-]; tauto|].
    destruct (OpaqueID _ _ _) as [o|e]; [intros [= <-]; tauto|done].
  - destruct (safeMetadataValue raw); [intros [= <-]; tauto|done].
Qed.

Lemma OpaqueID_ok parts v : OpaqueID hmac_hex identityKey parts = Ok v -> v = hmac_hex identityKey (opaque_message parts).
Proof. unfold OpaqueID. destruct (_ <? _)%Z; [done|]. by intros [= <-]. Qed.

#[local] Opaque sanitize_one.

Abbreviation one kv := (sanitize_one hmac_hex sourceKind identityKey kv.1 kv.2).

Definition kept_of (kv : string * string) : option (string * string) :=
  match one kv with Ok (Some v) => Some (kv.1, v) | _ => None end.

Definition dropped_of (kv : string * string) : option string :=
  match one kv with Ok None => Some kv.1 | _ => None end.

Lemma kept_of_Some f raw g v :
  kept_of (f, raw) = Some (g, v) <-> g = f /\ sanitize_one hmac_hex sourceKind identityKey f raw = Ok (Some v).
Proof.
  unfold kept_of. cbn [fst snd]. destruct (sanitize_one _ _ _ f raw) as [[w|]|e]; naive_solver.
Qed.

Lemma dropped_of_Some f raw g :
  dropped_of (f, raw) = Some g <-> g = f /\ sanitize_one hmac_hex sourceKind identityKey f raw = Ok None.
Proof.
  unfold dropped_of. cbn [fst snd]. destruct (sanitize_one _ _ _ f raw) as [[w|]|e]; naive_solver.
Qed.

Lemma kept_keys (entries : list (string * string)) f :
  f ∈ (omap kept_of entries).*1 -> f ∈ entries.*1.
Proof.
  intros ([g v] & -> & ([h raw] & Hin & [-> Hk]%kept_of_Some)%list_elem_of_omap)%list_elem_of_fmap.
  apply list_elem_of_fmap. by exists (h, raw).
Qed.

Lemma kept_NoDup (entries : list (string * string)) :
  NoDup entries.*1 -> NoDup (omap kept_of entries).*1.
Proof.
  induction entries as [|[f raw] entries IH]; [done|]. cbn [fmap list_fmap fst]. intros [Hf HN]%NoDup_cons.
  cbn [omap list_omap]. unfold kept_of at 1. cbn [fst snd].
  destruct (sanitize_one _ _ _ f raw) as [[v|]|e]; [|auto..]. cbn [fmap list_fmap fst]. apply NoDup_cons.
  split; [|auto]. intros Hin. by apply Hf, kept_keys.
Qed.

Lemma sanitize_loop_exact entries clean redacted :
  NoDup entries.*1 -> (forall f, f ∈ entries.*1 -> clean !! f = None) ->
  match sanitize_loop hmac_hex sourceKind identityKey entries clean redacted with
  | Ok (c, r) =>
      Forall (fun kv => is_ok (one kv) = true) entries
      /\ c = list_to_map (omap kept_of entries) ∪ clean
      /\ r = sort_strings (redacted ++ omap dropped_of entries)
  | Err e => exists kv, kv ∈ entries /\ one kv = Err e
  end.
Proof.
  revert clean redacted. induction entries as [|[f raw] entries IH]; intros clean redacted HN Hd.
  { cbn. rewrite app_nil_r, (left_id_L ∅ (∪)). by repeat split. }
  cbn [fmap list_fmap fst] in *. apply NoDup_cons in HN as [Hf HN].
  cbn [sanitize_loop omap list_omap]. unfold kept_of at 1, dropped_of at 1. cbn [fst snd].
  destruct (sanitize_one _ _ _ f raw) as [[v|]|e] eqn:Ho.
  - assert (forall g, g ∈ entries.*1 -> <[f:=v]> clean !! g = None) as Hd'.
    { intros g Hg. rewrite lookup_insert_ne by (by intros ->). apply Hd. by right. }
    specialize (IH (<[f:=v]> clean) redacted HN Hd'). destruct (sanitize_loop _ _ _ _ _ _) as [[c r]|e'].
    + destruct IH as (H1 & -> & ->). split_and!; [constructor; [cbn; by rewrite Ho|done]| |done].
      cbn. rewrite <- insert_union_l, <- insert_union_r; [done|].
      apply not_elem_of_list_to_map_1. intros Hin. by apply Hf, kept_keys.
    + destruct IH as (kv & Hin & E). exists kv. split; [by right|done].
  - specialize (IH clean (redacted ++ [f]) HN).
    destruct (sanitize_loop _ _ _ _ _ _) as [[c r]|e'].
    + destruct IH as (H1 & -> & ->); [by intros g Hg; apply Hd; right|].
      split_and!; [constructor; [cbn; by rewrite Ho|done]|done|]. by rewrite <- (assoc_L (++)).
    + destruct IH as (kv & Hin & E); [by intros g Hg; apply Hd; right|].
      exists kv. split; [by right|done].
  - exists (f, raw). split; [by left|done].
Qed.

Lemma Sanitize_map entries attributes :
  entries ≡ₚ map_to_list attributes ->
  match Sanitize hmac_hex sourceKind identityKey entries with
  | Ok (clean, redacted) =>
      (forall f raw, attributes !! f = Some raw ->
         is_ok (sanitize_one hmac_hex sourceKind identityKey f raw) = true)
      /\ (forall f v, clean !! f = Some v <->
            exists raw, attributes !! f = Some raw
                        /\ sanitize_one hmac_hex sourceKind identityKey f raw = Ok (Some v))
      /\ redacted = sort_strings (omap dropped_of (map_to_list attributes))
  | Err e => exists f raw, attributes !! f = Some raw
                           /\ sanitize_one hmac_hex sourceKind identityKey f raw = Err e
  end.
Proof.
  intros HP. pose proof (NoDup_fst_map_to_list attributes) as HN. rewrite <- HP in HN.
  assert (forall f raw, (f, raw) ∈ entries <-> attributes !! f = Some raw) as Hin.
  { intros f raw. by rewrite HP, elem_of_map_to_list. }
  pose proof (sanitize_loop_exact entries ∅ [] HN (fun _ _ => lookup_empty _)) as H.
  unfold Sanitize. destruct (sanitize_loop _ _ _ _ _ _) as [[clean redacted]|e].
  - destruct H as (H1 & -> & ->). rewrite Forall_forall in H1. split_and!.
    + intros f raw Hf%Hin. exact (H1 _ Hf).
    + intros f v. rewrite (right_id_L ∅ (∪)), <- elem_of_list_to_map.
      * rewrite list_elem_of_omap. split.
        -- intros ([g raw] & Hg%Hin & [-> Hk]%kept_of_Some). by exists raw.
        -- intros (raw & Hf%Hin & Ho). exists (f, raw). split; [exact Hf|]. by apply kept_of_Some.
      * by apply kept_NoDup.
    + apply sort_strings_perm_eq. cbn. by rewrite HP.
  - destruct H as ([f raw] & Hf%Hin & E). eauto.
Qed.

Lemma elem_of_dropped attributes f :
  f ∈ sort_strings (omap dropped_of (map_to_list attributes))
  <-> exists raw, attributes !! f = Some raw
                  /\ sanitize_one hmac_hex sourceKind identityKey f raw = Ok None.
Proof.
  rewrite sort_strings_perm, list_elem_of_omap. split.
  - intros ([g raw] & Hg%elem_of_map_to_list & [-> Ho]%dropped_of_Some). by exists raw.
  - intros (raw & Hf%elem_of_map_to_list & Ho). exists (f, raw). split; [exact Hf|].
    by apply dropped_of_Some.
Qed.
End Sanitized.

Lemma Validate_clean record attributes :
  er_ID record <> "" -> er_SourceKind record <> "" ->
  er_IngestedAt record <> zero_time -> er_ObservedAt record <> zero_time ->
  er_Attributes record = Some attributes -> is_Some (er_RedactedFields record) ->
  (forall f v, attributes !! f = Some v -> sensitiveKey f = false /\ secretLike v = false) ->
  Validate record = None.
Proof.
  intros H1%str_eqb_neq H2%str_eqb_neq H3 H4 HA [l HR] Hc. unfold Validate, is_zero_time.
  rewrite H1, H2, HA, HR, (proj2 (Z.eqb_neq _ _) H3), (proj2 (Z.eqb_neq _ _) H4). cbn [orb].
  destruct (existsb _ _) eqn:E; [|reflexivity]. exfalso.
  apply existsb_exists in E as ([f v] & Hin & E). apply list_elem_of_In, elem_of_map_to_list in Hin.
  destruct (Hc f v Hin) as [Hs Hl]. cbn in E. rewrite Hs, Hl in E. discriminate E.
Qed.

(** Nothing private or secret is kept. *)
Lemma Sanitize_clean hmac_hex sourceKind identityKey entries attributes clean redacted :
  (forall key message, hexadecimal (hmac_hex key message)) ->
  entries ≡ₚ map_to_list attributes ->
  Sanitize hmac_hex sourceKind identityKey entries = Ok (clean, redacted) ->
  forall f v, clean !! f = Some v -> sensitiveKey f = false /\ secretLike v = false.
Proof.
  intros Hhex HP HS f v. pose proof (Sanitize_map hmac_hex sourceKind identityKey _ _ HP) as H.
  rewrite HS in H. destruct H as (_ & Hclean & _). intros (raw & Hf & Ho)%Hclean.
  pose proof (sanitize_one_kept _ _ _ _ _ _ Ho) as (Ha & Hs & Hl & Hv). split; [exact Hs|].
  destruct (keyedAttribute f); [|by destruct Hv as [-> _]].
  destruct Hv as [[-> _]| ->%OpaqueID_ok]; apply hex_not_secret; [constructor|apply Hhex].
Qed.

(** C40: the redaction of evidence is complete and safe.  Every attribute of the source is either
    kept or named among the redacted fields, in order.  A kept attribute is one that the schema
    of the source allows and whose name is not private; its value did not look like a secret, and
    is replaced by an opaque keyed identifier when it identifies something, or is short and made
    of letters, digits and a few marks.  What is kept always passes [Validate], and the result
    does not depend on the order in which the map is visited. *)
Theorem Sanitize_safe hmac_hex sourceKind identityKey entries attributes clean redacted :
  (forall key message, hexadecimal (hmac_hex key message)) ->
  entries ≡ₚ map_to_list attributes ->
  Sanitize hmac_hex sourceKind identityKey entries = Ok (clean, redacted) ->
  (forall f, f ∈ redacted <-> is_Some (attributes !! f) /\ clean !! f = None)
  /\ StronglySorted (not_after str_lt) redacted
  /\ (forall f v, clean !! f = Some v ->
        exists raw, attributes !! f = Some raw
          /\ f ∈ allowed_for sourceKind /\ sensitiveKey f = false /\ secretLike raw = false
          /\ if keyedAttribute f
             then v = "" /\ trim_space raw = ""
                  \/ v = hmac_hex identityKey (opaque_message [aliasDomain sourceKind f; raw])
             else v = raw /\ safeMetadataValue raw = true)
  /\ (forall record, er_ID record <> "" -> er_SourceKind record <> "" ->
        er_IngestedAt record <> zero_time -> er_ObservedAt record <> zero_time ->
        er_Attributes record = Some clean -> er_RedactedFields record = Some redacted ->
        Validate record = None)
  /\ (forall entries', entries' ≡ₚ map_to_list attributes ->
        Sanitize hmac_hex sourceKind identityKey entries' = Ok (clean, redacted)).
Proof.
  intros Hhex HP HS. pose proof (Sanitize_map hmac_hex sourceKind identityKey _ _ HP) as H.
  rewrite HS in H. destruct H as (Hok & Hclean & Hred).
  split_and!.
  - intros f. rewrite Hred, elem_of_dropped. split.
    + intros (raw & Hf & Ho). split; [eauto|]. apply eq_None_not_Some. intros [v (raw' & Hf' & Ho')%Hclean].
      rewrite Hf in Hf'. injection Hf' as ->. rewrite Ho in Ho'. discriminate Ho'.
    + intros [[raw Hf] Hn]. exists raw. split; [exact Hf|]. specialize (Hok f raw Hf).
      destruct (sanitize_one _ _ _ f raw) as [[v|]|e] eqn:Ho; [|reflexivity|discriminate Hok].
      assert (clean !! f = Some v) as Hv by (apply Hclean; eauto). rewrite Hn in Hv. discriminate Hv.
  - rewrite Hred. apply sort_strings_sorted.
  - intros f v (raw & Hf & Ho)%Hclean. exists raw.
    pose proof (sanitize_one_kept _ _ _ _ _ _ Ho) as (Ha & Hs & Hl & Hv).
    split_and!; try assumption. destruct (keyedAttribute f); [|exact Hv].
    destruct Hv as [Hv|Hv%OpaqueID_ok]; [by left|by right].
  - intros record H1 H2 H3 H4 HA HR. apply (Validate_clean record clean); try assumption; [by rewrite HR|].
    exact (Sanitize_clean _ _ _ _ _ _ _ Hhex HP HS).
  - intros entries' HP'. pose proof (Sanitize_map hmac_hex sourceKind identityKey _ _ HP') as H.
    destruct (Sanitize _ _ _ entries') as [[clean' redacted']|e].
    + destruct H as (_ & Hclean' & Hred'). rewrite Hred, Hred'. repeat f_equal.
      apply map_eq. intros f. apply option_eq. intros v. by rewrite Hclean', Hclean.
    + destruct H as (f & raw & Hf & He). specialize (Hok f raw Hf). rewrite He in Hok. discriminate Hok.
Qed.

(** ** When a record is refused *)

(** The attributes that make [Sanitize] fail. *)
Definition offends (sourceKind identityKey f raw : string) : bool :=
  bool_decide (f ∈ allowed_for sourceKind) && negb (sensitiveKey f)
  && (secretLike raw
      || if keyedAttribute f then negb (trim_space raw =s "") && (str_len identityKey <? 32)%Z
         else negb (safeMetadataValue raw)).

#[local] Transparent sanitize_one.

Lemma sanitize_one_ok hmac_hex sourceKind identityKey f raw :
  is_ok (sanitize_one hmac_hex sourceKind identityKey f raw) = negb (offends sourceKind identityKey f raw).
Proof.
  unfold sanitize_one, offends, OpaqueID. destruct (bool_decide _); [|reflexivity]. cbn [negb orb andb].
  destruct (sensitiveKey f); [reflexivity|]. destruct (secretLike raw); [reflexivity|]. cbn [negb orb andb].
  destruct (keyedAttribute f); [|by destruct (safeMetadataValue raw)].
  destruct (trim_space raw =s ""); [reflexivity|]. by destruct (_ <? _)%Z.
Qed.

#[local] Opaque sanitize_one offends.

(** A record is refused exactly for a reason that the schema gives: some allowed, not private
    attribute has a value that looks like a secret, or identifies something while the identity
    key is shorter than 32 bytes, or is not plain metadata. *)
Theorem Sanitize_refuses_iff hmac_hex sourceKind identityKey entries attributes :
  entries ≡ₚ map_to_list attributes ->
  is_ok (Sanitize hmac_hex sourceKind identityKey entries) = false
  <-> exists f raw, attributes !! f = Some raw /\ offends sourceKind identityKey f raw = true.
Proof.
  intros HP. pose proof (Sanitize_map hmac_hex sourceKind identityKey _ _ HP) as H.
  destruct (Sanitize _ _ _ entries) as [[clean redacted]|e]; cbn [is_ok].
  - destruct H as (Hok & _ & _). split; [discriminate|]. intros (f & raw & Hf & Ho).
    specialize (Hok f raw Hf). rewrite sanitize_one_ok, Ho in Hok. discriminate Hok.
  - split; [|reflexivity]. intros _. destruct H as (f & raw & Hf & He). exists f, raw. split; [exact Hf|].
    pose proof (sanitize_one_ok hmac_hex sourceKind identityKey f raw) as Hok. rewrite He in Hok.
    by destruct (offends _ _ _ _).
Qed.

(** ** Attributes that can never be kept *)

(** The attributes that a schema lists and that [sensitiveKey] nevertheless drops. *)
Definition never_kept (sourceKind : string) : list string :=
  sort_strings (filter (fun f => sensitiveKey f = true) (elements (allowed_for sourceKind))).

Example never_kept_codex :
  never_kept "codex_jsonl"
  = ["budget_context_mode"; "call_path"; "effective_context"; "raw_prompt_retention"; "reasoning_effort";
     "reasoning_mode"; "safety_identifier_presence"].
Proof. vm_compute. reflexivity. Qed.

Lemma elem_of_never_kept sourceKind f :
  f ∈ never_kept sourceKind <-> f ∈ allowed_for sourceKind /\ sensitiveKey f = true.
Proof. unfold never_kept. rewrite sort_strings_perm, list_elem_of_filter, elem_of_elements. tauto. Qed.

Lemma kept_not_sensitive hmac_hex sourceKind identityKey entries attributes clean redacted f :
  entries ≡ₚ map_to_list attributes ->
  Sanitize hmac_hex sourceKind identityKey entries = Ok (clean, redacted) ->
  sensitiveKey f = true -> clean !! f = None.
Proof.
  intros HP HS Hs. pose proof (Sanitize_map hmac_hex sourceKind identityKey _ _ HP) as H.
  rewrite HS in H. destruct H as (_ & Hclean & _). apply eq_None_not_Some.
  intros [v (raw & _ & Ho)%Hclean].
  pose proof (sanitize_one_kept _ _ _ _ _ _ Ho) as (_ & Hs' & _). rewrite Hs in Hs'. discriminate Hs'.
Qed.

#[local] Transparent sanitize_one.

(** With a long enough key, an attribute that is not private is kept for some value. *)
Definition example_key : string := "0123456789abcdef0123456789abcdef".

Lemma keeps_plain hmac_hex sourceKind f :
  f ∈ allowed_for sourceKind -> sensitiveKey f = false ->
  exists v, Sanitize hmac_hex sourceKind example_key [(f, "a")] = Ok ({[f := v]}, []).
Proof.
  intros Ha Hs. unfold Sanitize. cbn [sanitize_loop].
  assert (exists v, sanitize_one hmac_hex sourceKind example_key f "a" = Ok (Some v)) as [v ->].
  { unfold sanitize_one, OpaqueID. rewrite (bool_decide_eq_true_2 _ Ha), Hs. cbn [negb orb].
    assert (secretLike "a" = false) as -> by (vm_compute; reflexivity).
    assert (trim_space "a" =s "" = false) as -> by (vm_compute; reflexivity).
    assert (str_len example_key <? 32 = false)%Z as -> by (vm_compute; reflexivity).
    assert (safeMetadataValue "a" = true) as -> by (vm_compute; reflexivity). cbn [negb].
    destruct (keyedAttribute f); eexists; reflexivity. }
  exists v. reflexivity.
Qed.

(** Some attributes are allowed in vain.  An attribute that the schema of a source allows is
    dropped whatever its value exactly when its name contains a private fragment; for the session
    log these include [call_path], so that no lineage read from sanitized attributes has a call
    path. *)
Theorem allowed_in_vain hmac_hex sourceKind :
  (forall f, f ∈ allowed_for sourceKind ->
     (f ∈ never_kept sourceKind
      <-> forall identityKey entries attributes clean redacted,
            entries ≡ₚ map_to_list attributes ->
            Sanitize hmac_hex sourceKind identityKey entries = Ok (clean, redacted) ->
            clean !! f = None))
  /\ "call_path" ∈ never_kept "codex_jsonl"
  /\ (forall identityKey entries attributes clean redacted,
        entries ≡ₚ map_to_list attributes ->
        Sanitize hmac_hex sourceKind identityKey entries = Ok (clean, redacted) ->
        li_CallPath (ParseLineage clean) = "").
Proof.
  split_and!.
  - intros f Ha. rewrite elem_of_never_kept. split.
    + intros [_ Hs] identityKey entries attributes clean redacted HP HS.
      exact (kept_not_sensitive _ _ _ _ _ _ _ f HP HS Hs).
    + intros H. split; [exact Ha|]. destruct (sensitiveKey f) eqn:Hs; [reflexivity|].
      destruct (keeps_plain hmac_hex sourceKind f Ha Hs) as [v Hv].
      specialize (H _ _ {[f := "a"]} _ _ ltac:(by rewrite map_to_list_singleton) Hv).
      rewrite lookup_singleton_eq in H. discriminate H.
  - rewrite never_kept_codex. set_solver.
  - intros identityKey entries attributes clean redacted HP HS. unfold ParseLineage, attribute. cbn [li_CallPath].
    assert (sensitiveKey "call_path" = true) as Hs by (vm_compute; reflexivity).
    by rewrite (kept_not_sensitive _ _ _ _ _ _ _ _ HP HS Hs).
Qed.

(** ** Concrete inputs *)

(** A session log record, under a function that writes the length of the message in hexadecimal. *)
Definition example_hmac (_ message : string) : string :=
  str_concat (replicate (String.length message) "0").

Definition example_attributes : gmap string string :=
  {["turn_ordinal" := "7"; "call_path" := "a.b"; "cwd" := "/home/me"]}.

Lemma example_hmac_hex key message : hexadecimal (example_hmac key message).
Proof. unfold example_hmac, hexadecimal. induction (String.length message) as [|n IH]; cbn; by constructor. Qed.

Lemma example_sanitized :
  exists clean, Sanitize example_hmac "codex_jsonl" example_key (map_to_list example_attributes)
                = Ok (clean, ["call_path"; "cwd"]) /\ clean !! "turn_ordinal" = Some "7".
Proof.
  assert (match Sanitize example_hmac "codex_jsonl" example_key (map_to_list example_attributes) with
          | Ok (clean, redacted) =>
              bool_decide (redacted = ["call_path"; "cwd"])
              && bool_decide (clean !! "turn_ordinal" = Some "7")
          | Err _ => false
          end = true) as H by (vm_compute; reflexivity).
  destruct (Sanitize _ _ _ _) as [[clean redacted]|e]; [|discriminate H].
  apply andb_true_iff in H as [->%bool_decide_eq_true Ht%bool_decide_eq_true]. by exists clean.
Qed.

Example Sanitize_safe_witness :
  exists clean, Sanitize example_hmac "codex_jsonl" example_key (map_to_list example_attributes)
                = Ok (clean, ["call_path"; "cwd"])
    /\ clean !! "turn_ordinal" = Some "7" /\ StronglySorted (not_after str_lt) ["call_path"; "cwd"].
Proof.
  destruct example_sanitized as (clean & HS & Ht). exists clean. split; [exact HS|]. split; [exact Ht|].
  exact (proj1 (proj2 (Sanitize_safe example_hmac "codex_jsonl" example_key _ example_attributes _ _
                         example_hmac_hex ltac:(reflexivity) HS))).
Defined.

Example Sanitize_refuses_iff_witness :
  is_ok (Sanitize example_hmac "process" "" [("state", "sk-1")]) = false
  <-> exists f raw, ({["state" := "sk-1"]} : gmap string string) !! f = Some raw
                    /\ offends "process" "" f raw = true.
Proof. apply Sanitize_refuses_iff. vm_compute. reflexivity. Defined.
