(* ===== verification/Attribution.v ===== *)
(** * Attribution of observations to projects (internal/attribution/attribution.go)

    [Resolve] scores the candidate projects of an observation and names the best ones, without
    choosing between equals.  Scores are sums of a few constants per candidate, far inside the
    range of an [int]: they are integers here. *)
From S2P Require Import Contracts Unicode Utf8.

Definition AlgorithmVersion : string := "attribution-v1".

Record Candidate := mkCandidate {
  cd_ProjectID : string;
  cd_RepositoryID : string;
  cd_WorktreeID : string;
  cd_Root : string;
  cd_Remote : string;
  cd_RenamedFrom : list string;
  cd_Sparse : bool
}.

Record Observation := mkObservation {
  ob_RepositoryID : string;
  ob_WorktreeID : string;
  ob_Root : string;
  ob_Remote : string;
  ob_ProjectIDs : list string;
  ob_Temporary : bool
}.

Record Result := mkResult {
  rs_ProjectIDs : list string;
  rs_Evidence : list string;
  rs_Confidence : string;
  rs_AlgorithmVersion : string;
  rs_State : string
}.

Definition normalizedRemote (remote : string) : string :=
  let remote := trim_suffix ".git" (trim_space (to_lower remote)) in
  let remote := trim_prefix "https://" remote in
  let remote := trim_prefix "ssh://" remote in
  let remote := replace_first "git@" "" remote in
  replace_first ":" "/" remote.

Definition cleanRoot (root : string) : string := trim_suffix "/" (trim_space root).

Definition unique (values : list string) : list string :=
  sort_strings (elements (list_to_set (filter (fun value => value <> "") values) : gset string)).

(** The calls of [add] for one candidate, in order. *)
Definition reasons (observation : Observation) (candidate : Candidate) : list (Z * string) :=
  (if negb (ob_WorktreeID observation =s "")
      && (ob_WorktreeID observation =s cd_WorktreeID candidate)
   then [(100%Z, "worktree_identity")] else [])
  ++ (if negb (ob_RepositoryID observation =s "")
         && (ob_RepositoryID observation =s cd_RepositoryID candidate)
      then [(80%Z, "repository_identity")] else [])
  ++ (if negb (normalizedRemote (ob_Remote observation) =s "")
         && (normalizedRemote (ob_Remote observation) =s normalizedRemote (cd_Remote candidate))
      then [(60%Z, "remote_identity")] else [])
  ++ flat_map (fun renamed =>
       if normalizedRemote (ob_Remote observation) =s normalizedRemote renamed
       then [(50%Z, "renamed_remote")] else []) (cd_RenamedFrom candidate)
  ++ (if negb (cd_Root candidate =s "")
         && (cleanRoot (ob_Root observation) =s cleanRoot (cd_Root candidate))
      then [(40%Z, "root_identity")] else []).

(** [scores] and [evidenceByProject]. *)
Definition Scores : Type := gmap string Z * gmap string (list string).

Definition add (project : string) (st : Scores) (entry : Z * string) : Scores :=
  let '(scores, evidence) := st in
  let '(score, reason) := entry in
  (<[project := (default 0 (scores !! project) + score)%Z]> scores,
   <[project := default [] (evidence !! project) ++ [reason]]> evidence).

Definition score_candidate (observation : Observation) (st : Scores) (candidate : Candidate) : Scores :=
  if cd_ProjectID candidate =s "" then st
  else foldl (add (cd_ProjectID candidate)) st (reasons observation candidate).

Definition score_all (observation : Observation) (candidates : list Candidate) : Scores :=
  foldl (score_candidate observation) (∅, ∅) candidates.

(** The largest score, or 0. *)
Definition best_score (scores : gmap string Z) : Z :=
  foldl (fun best kv => if (best <? kv.2)%Z then kv.2 else best) 0%Z (map_to_list scores).

Definition best_projects (scores : gmap string Z) : list string :=
  let best := best_score scores in
  sort_strings (omap (fun kv => if (kv.2 =? best)%Z && (0 <? kv.2)%Z then Some kv.1 else None)
                  (map_to_list scores)).

Definition Resolve (observation : Observation) (candidates : list Candidate) : Result :=
  let result := mkResult [] [] "unknown" AlgorithmVersion "unattributed" in
  if ob_Temporary observation then mkResult [] ["temporary_directory"] "unknown" AlgorithmVersion "unattributed"
  else if (1 <? length (ob_ProjectIDs observation))%nat then
    mkResult (unique (ob_ProjectIDs observation)) ["explicit_multi_project"] "high" AlgorithmVersion
      "multi_project"
  else
    let '(scores, evidenceByProject) := score_all observation candidates in
    let best := best_score scores in
    match best_projects scores with
    | [] => result
    | [project] =>
        mkResult [project] (default [] (evidenceByProject !! project))
          (if (80 <=? best)%Z then "high" else "medium") AlgorithmVersion "attributed"
    | projects => mkResult projects ["conflicting_equal_precedence"] "low" AlgorithmVersion "ambiguous"
    end.

(** ** What the scores are *)

(** All the reasons for a project, in the order of the candidates. *)
Definition reasons_for (observation : Observation) (candidates : list Candidate) (project : string)
    : list (Z * string) :=
  flat_map (fun c => if cd_ProjectID c =s project then reasons observation c else []) candidates.

Definition total (l : list (Z * string)) : Z := foldr Z.add 0%Z l.*1.

Lemma total_app l1 l2 : total (l1 ++ l2) = (total l1 + total l2)%Z.
Proof.
  unfold total. rewrite fmap_app, foldr_app. induction l1.*1 as [|z l IH]; cbn; [done|]. rewrite IH. lia.
Qed.

Lemma reasons_positive observation candidate :
  Forall (fun r => 0 < r.1)%Z (reasons observation candidate).
Proof.
  unfold reasons. repeat (apply Forall_app; split); try (case_goal; by repeat constructor).
  apply Forall_flat_map, Forall_forall. intros renamed _. case_goal; by repeat constructor.
Qed.

Lemma total_positive l : Forall (fun r : Z * string => 0 < r.1)%Z l -> (l = [] /\ total l = 0 \/ l <> [] /\ 0 < total l)%Z.
Proof.
  induction 1 as [|r l Hr Hl IH]; [by left|]. right. split; [done|]. unfold total in *. cbn. lia.
Qed.

(** The score maps after the reasons [F project] have been added for every project. *)
Definition tracks (st : Scores) (F : string -> list (Z * string)) : Prop :=
  forall p, st.1 !! p = (if decide (F p = []) then None else Some (total (F p)))
            /\ st.2 !! p = (if decide (F p = []) then None else Some (F p).*2).

Lemma tracks_ext st F G : (forall p, F p = G p) -> tracks st F -> tracks st G.
Proof. intros HFG H p. rewrite <- !HFG. apply H. Qed.

Lemma tracks_add st F p entry :
  tracks st F -> tracks (add p st entry) (fun q => if q =s p then F q ++ [entry] else F q).
Proof.
  intros H q. destruct st as [scores evidence], entry as [z reason], (H p) as [H1 H2]. cbn in *.
  destruct (q =s p) eqn:Hq.
  - apply str_eqb_eq in Hq as ->. rewrite !lookup_insert_eq, H1, H2.
    rewrite !(decide_False (P := F p ++ [(z, reason)] = [])) by (by destruct (F p)).
    rewrite total_app, fmap_app. unfold total at 2. cbn [fmap list_fmap foldr fst].
    destruct (decide (F p = [])) as [E|]; [rewrite E|]; (split; [|done]; f_equal; unfold total; cbn; lia).
  - apply str_eqb_neq in Hq. rewrite !lookup_insert_ne by done. apply H.
Qed.

Lemma tracks_adds st F p entries :
  tracks st F -> tracks (foldl (add p) st entries) (fun q => if q =s p then F q ++ entries else F q).
Proof.
  revert st F. induction entries as [|entry entries IH]; intros st F H; cbn [foldl].
  - apply (tracks_ext st F); [|done]. intros q. case_match; [by rewrite app_nil_r|done].
  - eapply tracks_ext; [|apply IH, tracks_add, H]. intros q. cbn beta.
    destruct (q =s p); [by rewrite <- (assoc_L (++))|done].
Qed.

Section Scored.
Context (observation : Observation).

Lemma tracks_candidates candidates st F :
  tracks st F ->
  tracks (foldl (score_candidate observation) st candidates)
    (fun p => F p ++ if p =s "" then [] else reasons_for observation candidates p).
Proof.
  revert st F. induction candidates as [|c candidates IH]; intros st F H; cbn [foldl].
  - apply (tracks_ext st F); [|done]. intros p. cbn. by case_match; rewrite app_nil_r.
  - destruct (cd_ProjectID c =s "") eqn:Hc.
    + eapply tracks_ext; [|apply IH]; [|unfold score_candidate; rewrite Hc; apply H].
      intros p. cbn. apply str_eqb_eq in Hc as ->. rewrite (str_eqb_sym ""). by destruct (p =s "").
    + eapply tracks_ext; [|apply IH]; [|unfold score_candidate; rewrite Hc; apply tracks_adds, H].
      intros p. cbn. rewrite (str_eqb_sym (cd_ProjectID c)). destruct (p =s cd_ProjectID c) eqn:Hp.
      * apply str_eqb_eq in Hp as ->. by rewrite Hc, (assoc_L (++)).
      * done.
Qed.

(** The score of a project: the sum over the candidates that name it. *)
Definition project_score (candidates : list Candidate) (p : string) : Z :=
  if p =s "" then 0 else total (reasons_for observation candidates p).

Lemma reasons_for_positive candidates p :
  Forall (fun r => 0 < r.1)%Z (reasons_for observation candidates p).
Proof.
  apply Forall_flat_map, Forall_forall. intros c _. case_match; [apply reasons_positive|constructor].
Qed.

Lemma scores_tracked candidates :
  tracks (score_all observation candidates)
    (fun p => if p =s "" then [] else reasons_for observation candidates p).
Proof. by apply (tracks_candidates candidates (∅, ∅) (fun _ => [])). Qed.

Lemma scores_lookup candidates p s :
  (score_all observation candidates).1 !! p = Some s
  <-> project_score candidates p = s /\ (0 < s)%Z.
Proof.
  destruct (scores_tracked candidates p) as [H _]. rewrite H. unfold project_score. cbn.
  destruct (p =s ""); [cbn; split; [done|lia]|].
  pose proof (total_positive _ (reasons_for_positive candidates p)) as [[-> ->]|[Hne Ht]]; cbn.
  - split; [done|lia].
  - rewrite decide_False by done. split; [intros [= <-]; auto|]. by intros [-> _].
Qed.

Lemma evidence_lookup candidates p :
  (0 < project_score candidates p)%Z ->
  (score_all observation candidates).2 !! p = Some (reasons_for observation candidates p).*2.
Proof.
  destruct (scores_tracked candidates p) as [_ H]. rewrite H. unfold project_score. cbn. destruct (p =s ""); [lia|].
  intros Hp. rewrite decide_False; [done|]. intros E. rewrite E in Hp. cbn in Hp. lia.
Qed.
End Scored.

Lemma best_score_spec scores :
  (forall p s, scores !! p = Some s -> s <= best_score scores)%Z
  /\ (best_score scores = 0%Z \/ exists p, scores !! p = Some (best_score scores)).
Proof.
  unfold best_score.
  assert (forall l b, let r := foldl (fun best (kv : string * Z) => if (best <? kv.2)%Z then kv.2 else best) b l in
            (b <= r)%Z /\ (forall kv, kv ∈ l -> kv.2 <= r)%Z /\ (r = b \/ exists kv, kv ∈ l /\ kv.2 = r)) as H.
  { induction l as [|kv l IH]; intros b; cbn [foldl].
    - split_and!; [lia|set_solver|by left].
    - destruct (IH (if (b <? kv.2)%Z then kv.2 else b)) as (H1 & H2 & H3). cbn in *. split_and!.
      + case_match; lia.
      + intros kv' [->|Hin]%elem_of_cons; [|auto]. case_match; lia.
      + destruct H3 as [H3|(kv' & Hin & H3)]; [|right; exists kv'; split; [by right|done]].
        destruct (b <? kv.2)%Z; [right; exists kv; split; [by left|done]|by left]. }
  destruct (H (map_to_list scores) 0%Z) as (_ & H2 & H3). split.
  - intros p s Hp. apply (H2 (p, s)), elem_of_map_to_list, Hp.
  - destruct H3 as [H3|([p s] & Hin%elem_of_map_to_list & Hs)]; [by left|]. right. exists p.
    cbn in Hs. by rewrite <- Hs.
Qed.

Lemma elem_of_best observation candidates p :
  p ∈ best_projects (score_all observation candidates).1
  <-> (0 < project_score observation candidates p)%Z
      /\ (forall q, project_score observation candidates q <= project_score observation candidates p)%Z.
Proof.
  unfold best_projects. rewrite sort_strings_perm, list_elem_of_omap.
  destruct (best_score_spec (score_all observation candidates).1) as [Hmax Hex]. split.
  - intros ([q s] & [Hs Hpos]%elem_of_map_to_list%scores_lookup & E). cbn in E.
    destruct (s =? _)%Z eqn:Hb; [|done]. apply Z.eqb_eq in Hb. cbn in E. case_match; [|done].
    injection E as ->. rewrite Hs. split; [lia|]. intros r.
    destruct (decide (0 < project_score observation candidates r))%Z as [Hr|Hr]; [|lia].
    rewrite Hb. apply (Hmax r). by apply scores_lookup.
  - intros [Hpos Hle]. exists (p, project_score observation candidates p).
    rewrite elem_of_map_to_list, scores_lookup. split; [done|]. cbn.
    assert (project_score observation candidates p = best_score (score_all observation candidates).1) as ->.
    { pose proof (Hmax p _ (proj2 (scores_lookup _ _ _ _) (conj eq_refl Hpos))) as H1.
      destruct Hex as [H0|(q & [Hq Hqp]%scores_lookup)]; [lia|]. specialize (Hle q). lia. }
    rewrite Z.eqb_refl. cbn. destruct (0 <? _)%Z eqn:E; [done|].
    destruct Hex as [H0|(q & [Hq Hqp]%scores_lookup)]; [|lia].
    pose proof (Hmax p _ (proj2 (scores_lookup _ _ _ _) (conj eq_refl Hpos))). lia.
Qed.

Lemma best_score_of observation candidates p :
  p ∈ best_projects (score_all observation candidates).1 ->
  best_score (score_all observation candidates).1 = project_score observation candidates p.
Proof.
  intros [Hpos Hle]%elem_of_best.
  destruct (best_score_spec (score_all observation candidates).1) as [Hmax Hex].
  pose proof (Hmax p _ (proj2 (scores_lookup _ _ _ _) (conj eq_refl Hpos))) as H1.
  destruct Hex as [H0|(q & [Hq Hqp]%scores_lookup)]; [lia|]. specialize (Hle q). lia.
Qed.

Lemma best_projects_NoDup scores : NoDup (best_projects scores).
Proof.
  unfold best_projects. rewrite sort_strings_perm. generalize (best_score scores) as best. intros best.
  pose proof (NoDup_fst_map_to_list scores) as H. revert H.
  induction (map_to_list scores) as [|[p s] l IH]; [constructor|].
  cbn [fmap list_fmap fst omap list_omap snd]. intros [Hp HN]%NoDup_cons.
  destruct (_ && _); [|auto]. apply NoDup_cons. split; [|auto].
  intros ([q r] & Hin & E)%list_elem_of_omap. apply Hp, list_elem_of_fmap. exists (q, r). cbn in E.
  by case_match; simplify_eq.
Qed.

(** Attribution is exact and never forced.  Without an explicit list of projects, the result
    names exactly the projects with the largest positive sum of matching evidence, in order: one
    such project is attributed, with its reasons and a confidence that follows from its score;
    several are reported as ambiguous, with no choice among them; none is unattributed. *)
Theorem Resolve_attributes observation candidates :
  ob_Temporary observation = false -> (length (ob_ProjectIDs observation) <= 1)%nat ->
  let result := Resolve observation candidates in
  let score := project_score observation candidates in
  StronglySorted (not_after str_lt) (rs_ProjectIDs result) /\ NoDup (rs_ProjectIDs result)
  /\ (forall p, p ∈ rs_ProjectIDs result <-> (0 < score p)%Z /\ forall q, (score q <= score p)%Z)
  /\ match rs_ProjectIDs result with
     | [] => rs_State result = "unattributed" /\ rs_Confidence result = "unknown"
             /\ rs_Evidence result = []
     | [p] => rs_State result = "attributed"
              /\ rs_Confidence result = (if (80 <=? score p)%Z then "high" else "medium")
              /\ rs_Evidence result = (reasons_for observation candidates p).*2
     | _ => rs_State result = "ambiguous" /\ rs_Confidence result = "low"
            /\ rs_Evidence result = ["conflicting_equal_precedence"]
     end.
Proof.
  intros HT HL. cbn zeta.
  assert (rs_ProjectIDs (Resolve observation candidates)
          = best_projects (score_all observation candidates).1) as HP.
  { unfold Resolve. rewrite HT, (proj2 (Nat.ltb_ge _ _) HL).
    destruct (score_all _ _) as [scores evidence]. cbn [fst]. by destruct (best_projects scores) as [|p [|q l]]. }
  rewrite HP. split_and!.
  - apply sort_strings_sorted.
  - apply best_projects_NoDup.
  - apply elem_of_best.
  - pose proof (elem_of_best observation candidates) as Hin.
    pose proof (best_score_of observation candidates) as Hb.
    pose proof (evidence_lookup observation candidates) as He.
    unfold Resolve. rewrite HT, (proj2 (Nat.ltb_ge _ _) HL).
    destruct (score_all _ _) as [scores evidence]. cbn [fst snd] in *.
    destruct (best_projects scores) as [|p [|q l]]; [done| |done]. cbn.
    assert (p ∈ [p]) as Hp by set_solver. rewrite (Hb p Hp). rewrite He by (by apply Hin). done.
Qed.

#[export] Instance project_score_proper observation :
  Proper ((≡ₚ) ==> eq ==> eq) (project_score observation).
Proof.
  intros l l' HP p _ <-. unfold project_score, reasons_for. destruct (p =s ""); [done|].
  induction HP as [|c l l' HP IH|c d l|l1 l2 l3 _ IH1 _ IH2]; cbn [flat_map].
  - done.
  - by rewrite !total_app, IH.
  - rewrite !total_app. lia.
  - by rewrite IH1.
Qed.

(** Which projects an observation is attributed to, how confidently, and whether it is
    ambiguous, does not depend on the order of the candidates. *)
Theorem Resolve_order_independent observation candidates candidates' :
  candidates ≡ₚ candidates' ->
  let r := Resolve observation candidates in
  let r' := Resolve observation candidates' in
  rs_ProjectIDs r = rs_ProjectIDs r' /\ rs_Confidence r = rs_Confidence r' /\ rs_State r = rs_State r'.
Proof.
  intros HP. cbn zeta.
  assert (best_projects (score_all observation candidates).1
          = best_projects (score_all observation candidates').1) as Hb.
  { apply (sorted_perm_unique str_lt).
    - intros a b _ _ H1 H2. by apply str_lt_antisym.
    - apply sort_strings_sorted.
    - apply sort_strings_sorted.
    - apply NoDup_Permutation; [apply best_projects_NoDup..|]. intros p. rewrite !elem_of_best.
      setoid_rewrite HP. done. }
  pose proof (best_score_of observation candidates) as Hs.
  pose proof (best_score_of observation candidates') as Hs'.
  unfold Resolve. destruct (ob_Temporary _); [done|]. destruct (_ <? _)%nat; [done|].
  destruct (score_all observation candidates) as [scores evidence].
  destruct (score_all observation candidates') as [scores' evidence']. cbn [fst] in *. rewrite <- Hb in *.
  destruct (best_projects scores) as [|p [|q l]]; [done| |done]. cbn.
  rewrite (Hs p), (Hs' p), HP by set_solver. done.
Qed.

(** ** An observation that identifies nothing *)

Definition blank (observation : Observation) : Prop :=
  ob_Temporary observation = false /\ (length (ob_ProjectIDs observation) <= 1)%nat
  /\ ob_RepositoryID observation = "" /\ ob_WorktreeID observation = ""
  /\ ob_Root observation = "" /\ ob_Remote observation = "".

(** A candidate that such an observation cannot match. *)
Definition unmatched (c : Candidate) : Prop :=
  cd_ProjectID c = ""
  \/ (Forall (fun remote => normalizedRemote remote <> "") (cd_RenamedFrom c)
      /\ (cd_Root c = "" \/ cleanRoot (cd_Root c) <> "")).

Lemma blank_reasons observation c :
  blank observation -> cd_ProjectID c <> "" -> reasons observation c = [] <-> unmatched c.
Proof.
  intros (_ & _ & HR & HW & HT & HM) Hid. unfold reasons, unmatched. rewrite HR, HW, HT, HM.
  assert (normalizedRemote "" = "") as -> by (vm_compute; reflexivity).
  assert (cleanRoot "" = "") as -> by (vm_compute; reflexivity). cbn [str_eqb negb andb app].
  assert (negb ("" =s "") = false) as -> by reflexivity. cbn [andb app].
  split.
  - intros [H1 H2]%app_eq_nil. right. split.
    + apply Forall_forall. intros remote Hin E.
      apply list_elem_of_In in Hin.
      assert (("renamed_remote" : string) ∈ (@nil (Z * string)).*2); [|set_solver].
      rewrite <- H1. apply list_elem_of_fmap. exists (50%Z, "renamed_remote"). split; [done|].
      apply list_elem_of_In, in_flat_map. exists remote. rewrite E. split; [done|by left].
    + destruct (cd_Root c =s "") eqn:Er; [left; by apply str_eqb_eq|right]. cbn in H2.
      destruct (("" =s cleanRoot (cd_Root c))) eqn:Ec; [done|]. apply str_eqb_neq in Ec. congruence.
  - intros [?|[H1 H2]]; [done|].
    assert (flat_map (fun renamed => if "" =s normalizedRemote renamed then [(50%Z, "renamed_remote")] else [])
              (cd_RenamedFrom c) = []) as ->.
    { induction H1 as [|r l Hr _ IH]; [done|]. cbn [flat_map].
      rewrite (proj2 (str_eqb_neq "" _)) by congruence. exact IH. }
    destruct H2 as [->|H2]; [done|]. rewrite (proj2 (str_eqb_neq "" (cleanRoot _))) by congruence.
    by rewrite andb_false_r.
Qed.

Lemma reasons_for_nil observation candidates p :
  reasons_for observation candidates p = []
  <-> Forall (fun c => cd_ProjectID c = p -> reasons observation c = []) candidates.
Proof.
  unfold reasons_for. induction candidates as [|c l IH]; cbn [flat_map]; [done|].
  rewrite Forall_cons, <- IH. destruct (cd_ProjectID c =s p) eqn:E.
  - apply str_eqb_eq in E. split; [intros [H1 H2]%app_eq_nil; done|].
    intros [H1 ->]. by rewrite (H1 E).
  - apply str_eqb_neq in E. cbn. naive_solver.
Qed.

Lemma score_positive observation candidates p :
  (0 < project_score observation candidates p)%Z
  <-> p <> "" /\ reasons_for observation candidates p <> [].
Proof.
  unfold project_score. destruct (p =s "") eqn:E.
  - apply str_eqb_eq in E. split; [lia|]. by intros [].
  - apply str_eqb_neq in E. pose proof (total_positive _ (reasons_for_positive observation candidates p)).
    naive_solver lia.
Qed.

(** Some project has the largest score, if any has a positive one. *)
Lemma best_projects_nil observation candidates :
  best_projects (score_all observation candidates).1 = []
  <-> forall p, ~ (0 < project_score observation candidates p)%Z.
Proof.
  destruct (best_score_spec (score_all observation candidates).1) as [Hmax Hex]. split.
  - intros Hb p Hp.
    pose proof (Hmax p _ (proj2 (scores_lookup _ _ _ _) (conj eq_refl Hp))) as H1.
    destruct Hex as [H0|(q & Hq)]; [lia|].
    assert (q ∈ best_projects (score_all observation candidates).1) as Hin; [|rewrite Hb in Hin; set_solver].
    apply elem_of_best. pose proof (proj1 (scores_lookup _ _ _ _) Hq) as [Hs Hpos]. split; [lia|].
    intros r. destruct (decide (0 < project_score observation candidates r))%Z as [Hr|Hr]; [|lia].
    pose proof (Hmax r _ (proj2 (scores_lookup _ _ _ _) (conj eq_refl Hr))). lia.
  - intros H. destruct (best_projects _) as [|p l] eqn:Hb; [done|]. destruct (H p).
    apply elem_of_best. rewrite Hb. by left.
Qed.

(** An observation that identifies nothing, with no identity, root or remote, is not always
    unattributed: it is attributed as soon as a candidate has a former remote that is empty once
    normalised, or a root that is empty once cleaned, because these two comparisons do not first
    ask that the observation has something to compare. *)
Theorem blank_observation observation candidates :
  blank observation ->
  rs_State (Resolve observation candidates) = "unattributed" <-> Forall unmatched candidates.
Proof.
  intros HB. pose proof HB as (HT & HL & _).
  transitivity (forall p, ~ (0 < project_score observation candidates p)%Z).
  - rewrite <- best_projects_nil. unfold Resolve. rewrite HT, (proj2 (Nat.ltb_ge _ _) HL).
    destruct (score_all _ _) as [scores evidence]. cbn [fst]. by destruct (best_projects scores) as [|p [|q l]].
  - setoid_rewrite score_positive. rewrite Forall_forall. split.
    + intros H c Hc. destruct (decide (cd_ProjectID c = "")) as [E|E]; [by left|].
      apply (blank_reasons observation); [done..|]. specialize (H (cd_ProjectID c)).
      destruct (decide (reasons_for observation candidates (cd_ProjectID c) = [])) as [Hr|Hr]; [|tauto].
      apply reasons_for_nil in Hr. rewrite Forall_forall in Hr. by apply Hr.
    + intros H p [Hp Hr]. apply Hr, reasons_for_nil, Forall_forall. intros c Hc <-.
      apply blank_reasons; [done..|]. by apply H.
Qed.

(** ** Concrete inputs *)

Definition example_observation : Observation := mkObservation "repo-1" "" "/srv/app/" "git@host:team/app.git" [] false.

Definition example_candidates : list Candidate :=
  [mkCandidate "p1" "repo-1" "" "/srv/app" "https://host/team/app" [] false;
   mkCandidate "p2" "repo-2" "" "/srv/app" "" ["ssh://host/team/app.git"] true].

Example Resolve_attributes_witness :
  rs_ProjectIDs (Resolve example_observation example_candidates) = ["p1"]
  /\ forall q, (project_score example_observation example_candidates q
                <= project_score example_observation example_candidates "p1")%Z.
Proof.
  assert (rs_ProjectIDs (Resolve example_observation example_candidates) = ["p1"]) as E
    by (vm_compute; reflexivity).
  split; [exact E|].
  pose proof (Resolve_attributes example_observation example_candidates eq_refl (Nat.le_0_l 1)) as (_ & _ & H & _).
  apply (H "p1"). rewrite E. by left.
Defined.

Example Resolve_order_independent_witness :
  rs_State (Resolve example_observation example_candidates)
  = rs_State (Resolve example_observation (rev example_candidates)).
Proof.
  pose proof (Resolve_order_independent example_observation example_candidates (rev example_candidates)) as H.
  exact (proj2 (proj2 (H (Permutation_rev _)))).
Defined.

Definition blank_example : Observation := mkObservation "" "" "" "" [] false.

Example blank_observation_witness :
  rs_State (Resolve blank_example [mkCandidate "p1" "" "" "/" "" [] false]) = "attributed"
  /\ ~ Forall unmatched [mkCandidate "p1" "" "" "/" "" [] false].
Proof.
  assert (rs_State (Resolve blank_example [mkCandidate "p1" "" "" "/" "" [] false]) = "attributed") as E
    by (vm_compute; reflexivity).
  split; [exact E|]. intros H.
  apply (blank_observation blank_example) in H; [|by repeat split; cbn; lia].
  rewrite E in H. discriminate H.
Defined.
