(* ===== verification/Workload.v ===== *)
(** * Workload decomposition (internal/workload/workload.go)

    A change of a total is split into an effect of the volume, of the mix of classes and of the
    rates within the classes.  The code computes with float64, which rounds; the arithmetic is an
    interface here, [Arith], with two instances: [float_arith], the code's (without the fused
    multiplications that Go allows a compiler to use), and [exact_arith], the rationals, in which
    the identity that the code relies on is proved. *)
From S2P Require Import Contracts.
From Stdlib Require Import QArith Qcanon.

Class Arith (F : Type) : Type := {
  a_zero : F;
  a_add : F -> F -> F;
  a_sub : F -> F -> F;
  a_mul : F -> F -> F;
  a_div : F -> F -> F;
  a_lt : F -> F -> bool;
  a_le : F -> F -> bool;
  a_eq : F -> F -> bool;
  a_abs : F -> F;
  a_finite : F -> bool;
  a_tolerance : F
}.

Definition Version : string := "workload-v1".

Section Decomposition.
Context {F : Type} `{Arith F}.

Record ClassValue := mkClassValue {
  cv_Class : string;
  cv_Count : F;
  cv_Numerator : F;
  cv_Denominator : F
}.

Definition no_value : ClassValue := mkClassValue "" a_zero a_zero a_zero.

Definition validInput (value : ClassValue) : bool :=
  negb ((cv_Class value =s "") || negb (a_finite (cv_Count value)) || negb (a_finite (cv_Numerator value))
        || negb (a_finite (cv_Denominator value)) || a_lt (cv_Count value) a_zero
        || a_lt (cv_Numerator value) a_zero || a_lt (cv_Denominator value) a_zero
        || (a_lt a_zero (cv_Numerator value) && a_eq (cv_Denominator value) a_zero)).

Definition validInputs (values : list ClassValue) : bool := forallb validInput values.

Definition classUnion (groups : list (list ClassValue)) : list string :=
  sort_strings (elements (list_to_set
    (filter (fun class => class <> "") (cv_Class <$> concat groups)) : gset string)).

(** The value of a class in a Go map: the zero value if there is none. *)
Definition class_value (m : gmap string ClassValue) (class : string) : ClassValue :=
  default no_value (m !! class).

Definition index_step (result : gmap string ClassValue) (value : ClassValue) : gmap string ClassValue :=
  let current := class_value result (cv_Class value) in
  <[cv_Class value :=
      mkClassValue (cv_Class value) (a_add (cv_Count current) (cv_Count value))
        (a_add (cv_Numerator current) (cv_Numerator value))
        (a_add (cv_Denominator current) (cv_Denominator value))]> result.

Definition index (values : list ClassValue) : gmap string ClassValue := foldl index_step ∅ values.

Definition totalCount (values : list ClassValue) : F :=
  foldl (fun total value => a_add total (cv_Count value)) a_zero values.

Definition totalNumerator (values : list ClassValue) : F :=
  foldl (fun total value => a_add total (cv_Numerator value)) a_zero values.

Definition safeRate (value : ClassValue) : F :=
  if a_le (cv_Denominator value) a_zero then a_zero else a_div (cv_Numerator value) (cv_Denominator value).

Definition direction (value : F) : Z :=
  if a_lt (a_abs value) a_tolerance then 0 else if a_lt value a_zero then -1 else 1.

Definition aggregateDirection (previous current : list ClassValue) : Z :=
  direction (a_sub (a_div (totalNumerator current) (totalCount current))
                   (a_div (totalNumerator previous) (totalCount previous))).

Definition withinDirection (previous current : gmap string ClassValue) (classes : list string) : Z :=
  direction (foldl (fun value class =>
    a_add value (a_sub (safeRate (class_value current class)) (safeRate (class_value previous class))))
    a_zero classes).

Record Effects := mkEffects {
  ef_Metric : string;
  ef_Volume : option F;
  ef_Mix : option F;
  ef_Within : option F;
  ef_Residual : option F;
  ef_Status : string;
  ef_Classes : list string
}.

Definition insufficient (metric : string) (classes : list string) : Effects :=
  mkEffects metric None None None None "insufficient" classes.

(** The loop over the classes: the mix and within-class effects so far. *)
Definition effect_step (prev curr : gmap string ClassValue) (prevCount currCount : F)
    (st : F * F) (class : string) : F * F :=
  let '(mix, within) := st in
  let p := class_value prev class in
  let c := class_value curr class in
  let pShare := a_div (cv_Count p) prevCount in
  let cShare := a_div (cv_Count c) currCount in
  let pRate := safeRate p in
  let cRate := safeRate c in
  (a_add mix (a_mul (a_mul currCount (a_sub cShare pShare)) pRate),
   a_add within (a_mul (a_mul currCount cShare) (a_sub cRate pRate))).

Definition Decompose (metric : string) (previous current : list ClassValue) : Effects :=
  let classes := classUnion [previous; current] in
  if (length classes =? 0)%nat || negb (validInputs previous) || negb (validInputs current)
  then insufficient metric []
  else
    let prev := index previous in
    let curr := index current in
    let prevCount := totalCount previous in
    let currCount := totalCount current in
    if a_le prevCount a_zero || a_le currCount a_zero then insufficient metric classes
    else
      let prevTotal := totalNumerator previous in
      let currTotal := totalNumerator current in
      let prevRate := a_div prevTotal prevCount in
      let volume := a_mul (a_sub currCount prevCount) prevRate in
      let '(mix, within) := foldl (effect_step prev curr prevCount currCount) (a_zero, a_zero) classes in
      let change := a_sub currTotal prevTotal in
      let residual := a_sub (a_sub (a_sub change volume) mix) within in
      let status :=
        if (aggregateDirection previous current =? withinDirection prev curr classes)%Z
        then "decomposed" else "simpson_mixed" in
      mkEffects metric (Some volume) (Some mix) (Some within) (Some residual) status classes.
End Decomposition.
Arguments ClassValue F : clear implicits.
Arguments Effects F : clear implicits.

(** The code's arithmetic, and the value it returns. *)
#[export] Instance float_arith : Arith float64 := {
  a_zero := fzero; a_add := fadd; a_sub := fsub; a_mul := fmul; a_div := fdiv;
  a_lt := flt; a_le := fle; a_eq := feq; a_abs := fabs; a_finite := finite;
  a_tolerance := float_lit 1 1000000000000
}.

Definition decomposition (e : Effects float64) : WorkloadDecomposition :=
  mkWorkloadDecomposition (ef_Metric e) (ef_Volume e) (ef_Mix e) (ef_Within e) (ef_Residual e)
    (ef_Status e) (ef_Classes e).

(** Exact arithmetic. *)
#[export] Instance exact_arith : Arith Qc := {
  a_zero := 0%Qc; a_add := Qcplus; a_sub := Qcminus; a_mul := Qcmult; a_div := Qcdiv;
  a_lt := fun x y => if Qclt_le_dec x y then true else false;
  a_le := fun x y => if Qclt_le_dec y x then false else true;
  a_eq := fun x y => if Qc_eq_dec x y then true else false;
  a_abs := fun x => if Qclt_le_dec x 0%Qc then Qcopp x else x;
  a_finite := fun _ => true;
  a_tolerance := Q2Qc (1 # 1000000000000)
}.

(** ** Sums in exact arithmetic *)

Section Exact.
Open Scope Qc_scope.

Definition qsum (l : list Qc) : Qc := foldr Qcplus 0 l.

Lemma qsum_cons x l : qsum (x :: l) = x + qsum l.
Proof. done. Qed.

Lemma qsum_app l1 l2 : qsum (l1 ++ l2) = qsum l1 + qsum l2.
Proof. unfold qsum. induction l1 as [|x l1 IH]; cbn; [ring|]. rewrite IH. ring. Qed.

Lemma qsum_combine {A} (f g : A -> Qc) l : qsum ((fun x => f x + g x) <$> l) = qsum (f <$> l) + qsum (g <$> l).
Proof. unfold qsum. induction l as [|x l IH]; cbn; [ring|]. rewrite IH. ring. Qed.

Lemma qsum_scale {A} (k : Qc) (f : A -> Qc) l : qsum ((fun x => k * f x) <$> l) = k * qsum (f <$> l).
Proof. unfold qsum. induction l as [|x l IH]; cbn; [ring|]. rewrite IH. ring. Qed.

Lemma qsum_perm l1 l2 : l1 ≡ₚ l2 -> qsum l1 = qsum l2.
Proof.
  unfold qsum. induction 1 as [|x l1 l2 _ IH|x y l|l1 l2 l3 _ IH1 _ IH2]; cbn; [done|by rewrite IH| |congruence].
  ring.
Qed.

Lemma foldl_qsum {A} (f : A -> Qc) l z : foldl (fun total x => total + f x) z l = z + qsum (f <$> l).
Proof. revert z. unfold qsum. induction l as [|x l IH]; intros z; cbn; [ring|]. rewrite IH. ring. Qed.

Lemma qsum_nonneg l : Forall (fun x => 0 <= x) l -> 0 <= qsum l.
Proof.
  unfold qsum. induction 1 as [|x l Hx _ IH]; cbn; [apply Qcle_refl|].
  replace 0 with (0 + 0) by ring. by apply Qcplus_le_compat.
Qed.

Lemma qsum_zero l : Forall (fun x => 0 <= x) l -> qsum l <= 0 -> Forall (fun x => x = 0) l.
Proof.
  unfold qsum. induction 1 as [|x l Hx Hl IH]; cbn; [constructor|]. intros H.
  assert (0 <= qsum l) as Hs by by apply qsum_nonneg. unfold qsum in Hs.
  assert (x <= 0) as Hx0.
  { eapply Qcle_trans; [|exact H]. replace x with (x + 0) at 1 by ring. apply Qcplus_le_compat; [apply Qcle_refl|done]. }
  assert (foldr Qcplus 0 l <= 0) as Hl0.
  { eapply Qcle_trans; [|exact H]. replace (foldr Qcplus 0 l) with (0 + foldr Qcplus 0 l) at 1 by ring.
    by apply Qcplus_le_compat, Qcle_refl. }
  constructor; [by apply Qcle_antisym|by apply IH].
Qed.

(** ** What the index of the values holds *)

(** The values of one class. *)
Definition of_class (values : list (ClassValue Qc)) (class : string) : list (ClassValue Qc) :=
  filter (fun v => cv_Class v = class) values.

Lemma class_value_insert (m : gmap string (ClassValue Qc)) class v class' :
  class_value (<[class := v]> m) class' = if decide (class = class') then v else class_value m class'.
Proof. unfold class_value. case_decide as E; [subst; by rewrite lookup_insert_eq|by rewrite lookup_insert_ne]. Qed.

(** A field that [index] adds up. *)
Definition summed (g : ClassValue Qc -> Qc) : Prop :=
  g no_value = 0
  /\ forall m v class, g (class_value (index_step m v) class)
                       = g (class_value m class) + (if decide (cv_Class v = class) then g v else 0).

Lemma index_sum g values class : summed g -> g (class_value (index values) class) = qsum (g <$> of_class values class).
Proof.
  intros [H0 Hg]. unfold index.
  assert (forall m, g (class_value (foldl index_step m values) class)
                    = g (class_value m class) + qsum (g <$> of_class values class)) as H.
  { induction values as [|v values IH]; intros m; cbn [foldl]; [cbn; ring|].
    rewrite IH, Hg. unfold of_class. rewrite filter_cons. case_decide; rewrite ?fmap_cons, ?qsum_cons; ring. }
  rewrite H. unfold class_value. rewrite lookup_empty. cbn. rewrite H0. ring.
Qed.

Lemma summed_Count : summed cv_Count.
Proof. split; [done|]. intros m v c. unfold index_step. rewrite class_value_insert. case_decide; [by subst|cbn; ring]. Qed.
Lemma summed_Numerator : summed cv_Numerator.
Proof. split; [done|]. intros m v c. unfold index_step. rewrite class_value_insert. case_decide; [by subst|cbn; ring]. Qed.
Lemma summed_Denominator : summed cv_Denominator.
Proof. split; [done|]. intros m v c. unfold index_step. rewrite class_value_insert. case_decide; [by subst|cbn; ring]. Qed.

(** Summing over the classes is summing over the values. *)
Lemma sum_over_classes (g : ClassValue Qc -> Qc) values classes :
  NoDup classes -> (forall v, v ∈ values -> cv_Class v ∈ classes) ->
  qsum ((fun class => qsum (g <$> of_class values class)) <$> classes) = qsum (g <$> values).
Proof.
  intros HN. induction values as [|v values IH]; intros Hin.
  - cbn. unfold qsum. induction classes as [|c classes IHc]; cbn; [done|]. apply NoDup_cons in HN as [_ HN].
    rewrite IHc by (done || set_solver). ring.
  - cbn [fmap list_fmap]. change (qsum (g v :: (g <$> values))) with (g v + qsum (g <$> values)).
    rewrite <- IH by set_solver. clear IH.
    assert (cv_Class v ∈ classes) as Hv by (apply Hin; left). clear Hin.
    transitivity (qsum ((fun class => (if decide (cv_Class v = class) then g v else 0)
                                      + qsum (g <$> of_class values class)) <$> classes)).
    { f_equal. apply list_fmap_ext. intros _ class _. unfold of_class. rewrite filter_cons.
      case_decide; rewrite ?fmap_cons, ?qsum_cons; [done|ring]. }
    rewrite qsum_combine. f_equal.
    induction classes as [|c classes IH]; [by apply elem_of_nil in Hv|].
    apply NoDup_cons in HN as [Hc HN]. cbn. case_decide as E.
    + subst c. transitivity (g v + 0); [|ring]. f_equal.
      clear -Hc. unfold qsum. induction classes as [|d classes IH]; cbn; [done|].
      rewrite decide_False by (intros E; apply Hc; rewrite E; left). rewrite IH by set_solver. ring.
    + apply elem_of_cons in Hv as [Hv|Hv]; [congruence|].
      fold (qsum ((fun class => if decide (cv_Class v = class) then g v else 0) <$> classes)).
      rewrite IH by done. ring.
Qed.

Lemma index_total g values classes :
  summed g -> NoDup classes -> (forall v, v ∈ values -> cv_Class v ∈ classes) ->
  qsum ((fun class => g (class_value (index values) class)) <$> classes) = qsum (g <$> values).
Proof.
  intros Hg HN Hin. rewrite <- (sum_over_classes g values classes) by done. f_equal.
  apply list_fmap_ext. intros _ class _. by apply index_sum.
Qed.

Lemma classUnion_spec (groups : list (list (ClassValue Qc))) class :
  class ∈ classUnion groups <-> class <> "" /\ exists values v, values ∈ groups /\ v ∈ values /\ cv_Class v = class.
Proof.
  unfold classUnion. rewrite sort_strings_perm, elem_of_elements, elem_of_list_to_set, list_elem_of_filter.
  apply and_iff_compat_l. rewrite list_elem_of_fmap. split.
  - intros (v & -> & (values & Hg & Hv)%list_elem_of_In%in_concat). exists values, v.
    by rewrite !list_elem_of_In.
  - intros (values & v & Hg & Hv & <-). exists v. split; [done|]. apply list_elem_of_In, in_concat.
    exists values. by rewrite <- !list_elem_of_In.
Qed.

Lemma classUnion_NoDup (groups : list (list (ClassValue Qc))) : NoDup (classUnion groups).
Proof. unfold classUnion. rewrite sort_strings_perm. apply NoDup_elements. Qed.

(** ** The effects *)

(** What the classes explain of a total: their counts at their rates. *)
Definition explained (classes : list string) (m : gmap string (ClassValue Qc)) : Qc :=
  qsum ((fun class => cv_Count (class_value m class) * safeRate (class_value m class)) <$> classes).

Lemma effects_sum prev curr prevCount currCount classes mix within :
  prevCount <> 0 -> currCount <> 0 ->
  let st := foldl (effect_step prev curr prevCount currCount) (mix, within) classes in
  st.1 + st.2 = mix + within + explained classes curr - currCount / prevCount * explained classes prev.
Proof.
  intros Hp Hc. unfold explained. revert mix within.
  induction classes as [|class classes IH]; intros mix within; cbn zeta in *.
  - cbn. field. done.
  - cbn [foldl]. unfold effect_step at 2 4. cbn [a_add a_sub a_mul a_div exact_arith].
    rewrite IH, !fmap_cons, !qsum_cons. field. done.
Qed.

Lemma a_le_zero x : a_le x 0 = true <-> x <= 0.
Proof.
  cbn. destruct (Qclt_le_dec 0 x) as [Hx|Hx]; [|done].
  split; [done|]. intros Hle. by destruct (Qclt_not_le _ _ Hx).
Qed.

Lemma validInput_facts v :
  validInput v = true ->
  cv_Class v <> "" /\ 0 <= cv_Count v /\ 0 <= cv_Numerator v /\ 0 <= cv_Denominator v
  /\ (cv_Denominator v = 0 -> cv_Numerator v = 0).
Proof.
  unfold validInput. cbn. intros Hv. apply negb_true_iff in Hv.
  repeat (apply orb_false_iff in Hv as [Hv ?]). apply str_eqb_neq in Hv.
  repeat match goal with
  | H : (if Qclt_le_dec ?x 0 then _ else _) = false |- _ => destruct (Qclt_le_dec x 0) in H; [done|]
  end.
  split_and!; [done..|]. intros Hd.
  destruct (Qclt_le_dec 0 (cv_Numerator v)) as [Hn|Hn]; [|by apply Qcle_antisym].
  destruct (Qc_eq_dec (cv_Denominator v) 0); [|done]. cbn in *. congruence.
Qed.

Lemma validInputs_facts values v :
  validInputs values = true -> v ∈ values ->
  cv_Class v <> "" /\ 0 <= cv_Count v /\ 0 <= cv_Numerator v /\ 0 <= cv_Denominator v
  /\ (cv_Denominator v = 0 -> cv_Numerator v = 0).
Proof. unfold validInputs. rewrite forallb_spec, Forall_forall. intros H Hv. by apply validInput_facts, H. Qed.

(** A value whose denominator is its count, as the store builds them. *)
Definition counted (v : ClassValue Qc) : Prop := cv_Denominator v = cv_Count v.

Lemma class_explained values class :
  validInputs values = true -> Forall counted values ->
  cv_Count (class_value (index values) class) * safeRate (class_value (index values) class)
  = cv_Numerator (class_value (index values) class).
Proof.
  intros HV HC.
  assert (cv_Count (class_value (index values) class) = cv_Denominator (class_value (index values) class)) as ->.
  { rewrite (index_sum cv_Count), (index_sum cv_Denominator) by auto using summed_Count, summed_Denominator.
    f_equal. apply list_fmap_ext. intros i v Hv. symmetry. apply list_elem_of_lookup_2 in Hv.
    rewrite Forall_forall in HC. apply HC. by apply list_elem_of_filter in Hv as [_ Hv]. }
  unfold safeRate. destruct (a_le _ _) eqn:E.
  - apply a_le_zero in E. rewrite (index_sum cv_Denominator) in E by apply summed_Denominator.
    rewrite (index_sum cv_Numerator) by apply summed_Numerator.
    assert (Forall (fun v => v ∈ values) (of_class values class)) as Hin.
    { apply Forall_forall. intros v Hv. by apply list_elem_of_filter in Hv as [_ Hv]. }
    apply qsum_zero in E.
    + rewrite Forall_fmap in E. cbn.
      transitivity 0; [ring|]. symmetry. revert Hin E. generalize (of_class values class) as l.
      induction l as [|v l IH]; [done|]. intros [Hv Hl]%Forall_cons [Ev El]%Forall_cons.
      rewrite fmap_cons, qsum_cons, IH by done.
      destruct (validInputs_facts _ _ HV Hv) as (_ & _ & _ & _ & Hd). rewrite Hd by done. ring.
    + rewrite Forall_fmap. eapply Forall_impl; [exact Hin|]. intros v Hv. cbn.
      by destruct (validInputs_facts _ _ HV Hv) as (_ & _ & _ & Hd & _).
  - cbn. field. intros E0. rewrite E0 in E. cbn in E. discriminate E.
Qed.

Lemma explained_all values classes :
  validInputs values = true -> Forall counted values ->
  NoDup classes -> (forall v, v ∈ values -> cv_Class v ∈ classes) ->
  explained classes (index values) = totalNumerator values.
Proof.
  intros HV HC HN Hin. unfold explained, totalNumerator. cbn [a_add a_zero exact_arith].
  rewrite (foldl_qsum cv_Numerator), <- (index_total _ _ _ summed_Numerator HN Hin).
  rewrite Qcplus_0_l. f_equal. apply list_fmap_ext. intros _ class _. by apply class_explained.
Qed.

Lemma class_in_union values groups v :
  validInputs values = true -> values ∈ groups -> v ∈ values -> cv_Class v ∈ classUnion groups.
Proof.
  intros HV Hg Hv. apply classUnion_spec. split; [by destruct (validInputs_facts _ _ HV Hv)|]. eauto.
Qed.

(** In exact arithmetic the decomposition is an identity.  For valid inputs with positive
    counts, the change of the total is the sum of the four effects; the volume effect is the
    change of the count at the old overall rate; and the residual is what the classes do not
    explain now, minus, scaled by the growth of the count, what they did not explain before.
    When every denominator is the count, as in the values that the store collects, the residual
    is zero.  The status tells whether the aggregate and the within-class rates moved apart. *)
Theorem Decompose_exact metric (previous current : list (ClassValue Qc)) :
  validInputs previous = true -> validInputs current = true ->
  0 < totalCount previous -> 0 < totalCount current ->
  let classes := classUnion [previous; current] in
  let change := totalNumerator current - totalNumerator previous in
  exists volume mix within residual status,
    Decompose metric previous current
    = mkEffects metric (Some volume) (Some mix) (Some within) (Some residual) status classes
    /\ change = volume + mix + within + residual
    /\ volume = (totalCount current - totalCount previous) * (totalNumerator previous / totalCount previous)
    /\ residual = (totalNumerator current - explained classes (index current))
                  - totalCount current / totalCount previous
                    * (totalNumerator previous - explained classes (index previous))
    /\ (Forall counted previous -> Forall counted current -> residual = 0)
    /\ (status = "simpson_mixed"
        <-> aggregateDirection previous current <> withinDirection (index previous) (index current) classes).
Proof.
  intros HVp HVc Hp Hc. cbn zeta.
  set (classes := classUnion [previous; current]).
  assert (totalCount previous <> 0) as Hp0 by by apply not_eq_sym, Qclt_not_eq.
  assert (totalCount current <> 0) as Hc0 by by apply not_eq_sym, Qclt_not_eq.
  pose proof (effects_sum (index previous) (index current) (totalCount previous) (totalCount current)
                classes 0 0 Hp0 Hc0) as He. cbn zeta in He.
  unfold Decompose. fold classes. rewrite HVp, HVc.
  assert (length classes =? 0 = false)%nat as ->.
  { destruct classes as [|c l] eqn:E; [|done]. exfalso. destruct previous as [|v l].
    - by destruct (Qclt_not_eq _ _ Hp).
    - pose proof (class_in_union _ [v :: l; current] v HVp) as Hin.
      unfold classes in E. rewrite E in Hin. by apply (elem_of_nil (cv_Class v)), Hin; left. }
  assert (forall x, 0 < x -> a_le x a_zero = false) as Hpos.
  { intros x Hx. apply not_true_iff_false. intros Hx0%a_le_zero. by apply (Qclt_not_le _ _ Hx). }
  cbn [orb negb]. rewrite !Hpos by done. cbn [orb a_zero exact_arith a_add a_sub a_mul a_div].
  change (@a_zero Qc exact_arith) with 0.
  destruct (foldl _ (0, 0) classes) as [mix within]. cbn [fst snd] in He.
  assert (within = explained classes (index current)
                   - totalCount current / totalCount previous * explained classes (index previous) - mix) as ->.
  { transitivity (mix + within - mix); [ring|]. rewrite He. ring. }
  eexists _, _, _, _, _. split; [reflexivity|]. split_and!.
  - ring.
  - reflexivity.
  - field. done.
  - intros HCp HCc. rewrite !explained_all; [field; done|done|done|apply classUnion_NoDup| |done|done|apply classUnion_NoDup|].
    + intros v Hv. apply (class_in_union previous); [done|left|done].
    + intros v Hv. apply (class_in_union current); [done|right; left|done].
  - destruct (_ =? _)%Z eqn:E; [apply Z.eqb_eq in E|apply Z.eqb_neq in E]; by split.
Qed.

(** ** Order *)

Lemma index_lookup values class :
  index values !! class
  = (if decide (of_class values class = []) then None
     else Some (mkClassValue class (qsum (cv_Count <$> of_class values class))
                  (qsum (cv_Numerator <$> of_class values class))
                  (qsum (cv_Denominator <$> of_class values class)))).
Proof.
  induction values as [|v values IH] using rev_ind; [done|].
  assert (index (values ++ [v]) = index_step (index values) v) as -> by (unfold index; by rewrite foldl_app).
  unfold of_class in *. rewrite filter_app, filter_cons, filter_nil. unfold index_step.
  destruct (decide (cv_Class v = class)) as [E|E].
  - subst class. rewrite lookup_insert_eq, decide_False by (by destruct (filter _ values)).
    rewrite (index_sum cv_Count), (index_sum cv_Numerator), (index_sum cv_Denominator)
      by auto using summed_Count, summed_Numerator, summed_Denominator.
    unfold of_class. rewrite !fmap_app, !qsum_app. cbn. do 2 f_equal; unfold qsum; cbn; ring.
  - by rewrite app_nil_r, lookup_insert_ne.
Qed.

#[export] Instance index_proper : Proper ((≡ₚ) ==> eq) (index (F := Qc)).
Proof.
  intros l l' HP. apply map_eq. intros class. rewrite !index_lookup.
  assert (of_class l class ≡ₚ of_class l' class) as Hc by (unfold of_class; by rewrite HP).
  rewrite !(qsum_perm (_ <$> of_class l class) (_ <$> of_class l' class)) by by rewrite Hc.
  case_decide as E1; case_decide as E2; try done; exfalso.
  - rewrite E1 in Hc. by apply E2, Permutation_nil.
  - rewrite E2 in Hc. by apply E1, Permutation_nil.
Qed.

#[export] Instance totalCount_proper : Proper ((≡ₚ) ==> eq) (totalCount (F := Qc)).
Proof.
  intros l l' HP. unfold totalCount. cbn [a_add a_zero exact_arith]. rewrite !(foldl_qsum cv_Count).
  f_equal. apply qsum_perm. by rewrite HP.
Qed.

#[export] Instance totalNumerator_proper : Proper ((≡ₚ) ==> eq) (totalNumerator (F := Qc)).
Proof.
  intros l l' HP. unfold totalNumerator. cbn [a_add a_zero exact_arith]. rewrite !(foldl_qsum cv_Numerator).
  f_equal. apply qsum_perm. by rewrite HP.
Qed.

#[export] Instance validInputs_proper : Proper ((≡ₚ) ==> eq) (validInputs (F := Qc)).
Proof. intros l l' HP. apply eq_iff_eq_true. unfold validInputs. rewrite !forallb_spec. by rewrite HP. Qed.

(** In exact arithmetic the decomposition depends on the multisets of values only, not on the
    order in which they are listed. *)
Theorem Decompose_order_independent metric (previous previous' current current' : list (ClassValue Qc)) :
  previous ≡ₚ previous' -> current ≡ₚ current' ->
  Decompose metric previous current = Decompose metric previous' current'.
Proof.
  intros Hp Hc.
  assert (classUnion [previous; current] = classUnion [previous'; current']) as HU.
  { unfold classUnion. do 2 f_equal. apply list_to_set_perm_L. cbn [concat]. by rewrite Hp, Hc. }
  unfold Decompose, aggregateDirection.
  by rewrite HU, (index_proper _ _ Hp), (index_proper _ _ Hc), (totalCount_proper _ _ Hp),
    (totalCount_proper _ _ Hc), (totalNumerator_proper _ _ Hp), (totalNumerator_proper _ _ Hc),
    (validInputs_proper _ _ Hp), (validInputs_proper _ _ Hc).
Qed.

(** ** Concrete inputs *)

Definition q (n : Z) : Qc := Q2Qc (inject_Z n).

Definition example_previous : list (ClassValue Qc) :=
  [mkClassValue "simple" (q 90) (q 90) (q 90); mkClassValue "complex" (q 10) (q 90) (q 10)].
Definition example_current : list (ClassValue Qc) :=
  [mkClassValue "simple" (q 10) (q 5) (q 10); mkClassValue "complex" (q 90) (q 720) (q 90)].

Example Decompose_exact_witness :
  exists residual, ef_Residual (Decompose "tokens" example_previous example_current) = Some residual
                   /\ residual = 0.
Proof.
  assert (forall v, v ∈ example_previous \/ v ∈ example_current -> counted v) as HC.
  { unfold example_previous, example_current. intros v. rewrite !elem_of_cons, !elem_of_nil.
    intuition subst; reflexivity. }
  destruct (Decompose_exact "tokens" example_previous example_current) as
    (volume & mix & within & residual & status & E & _ & _ & _ & H0 & _);
    [vm_compute; reflexivity..|].
  exists residual. rewrite E. split; [reflexivity|]. apply H0; apply Forall_forall; intros v Hv; apply HC; auto.
Defined.

Example Decompose_order_independent_witness :
  Decompose "tokens" example_previous example_current
  = Decompose "tokens" (rev example_previous) (rev example_current).
Proof. apply Decompose_order_independent; apply Permutation_rev. Defined.

(** A value whose denominator is not its count leaves a residual. *)
Example residual_example :
  ef_Residual (Decompose "tokens" [mkClassValue "a" (q 1) (q 0) (q 1)] [mkClassValue "a" (q 1) (q 6) (q 2)])
  = Some (q 3).
Proof. vm_compute. reflexivity. Qed.
End Exact.

(** The code's own example, in its own arithmetic. *)
Example float_example :
  let v class count numerator denominator :=
    mkClassValue class (float_of_Z count) (float_of_Z numerator) (float_of_Z denominator) in
  let e := decomposition (Decompose "tokens" [v "simple" 90 90 90; v "complex" 10 90 10]
                                             [v "simple" 10 5 10; v "complex" 90 720 90])%Z in
  wd_Status e = "simpson_mixed" /\ wd_Residual e = Some fzero.
Proof. vm_compute. auto. Qed.
