(* ===== verification/Status.v ===== *)
(** * Collector status and confounders (internal/status/status.go, internal/confounder/confounder.go)

    The sanitized status of the sources, and the confounders that are kept as observed. *)
From S2P Require Import Contracts Evidence.

Definition MaxErrors : nat := 20.

Record SourceStatus := mkSourceStatus {
  st_Kind : string;
  st_Enabled : bool;
  st_Supported : bool;
  st_Cursor : string;
  st_FreshAt : option Z;
  st_EvidenceCount : Z;
  st_Coverage : Coverage;
  st_CoverageReason : string;
  st_ConflictCount : Z;
  st_OrderingUncertain : bool;
  st_LateRevisionCount : Z;
  st_GovernanceCount : Z;
  st_FieldCoverage : gmap string Coverage;
  st_Errors : list string
}.

Record StatusReport := mkStatusReport {
  sp_AsOf : Z;
  sp_Sources : list SourceStatus;
  sp_HostCalls : Z;
  sp_LeafCalls : Z
}.

Definition families : list string :=
  ["identity"; "response"; "items_phases"; "tool_state"; "lifecycle"; "usage_cache"; "governance_overhead"].

Definition known_coverage (c : Coverage) : bool :=
  one_of c [CoverageComplete; CoveragePartial; CoverageMissing; CoverageUnknown].

Definition normalizeFieldCoverage (values : gmap string Coverage) : gmap string Coverage :=
  foldl (fun result family =>
    let value := default "" (values !! family) in
    <[family := if known_coverage value then value else CoverageUnknown]> result) ∅ families.

Definition error_codes : list string := ["malformed"; "truncated"; "sensitive"; "adapter_failure"; "offline"].

Definition sanitize (errors : list string) : list string :=
  (fun code => if one_of code error_codes then code else "adapter_failure") <$> take MaxErrors errors.

Definition with_coverage (s : SourceStatus) (coverage : Coverage) (reason : string) : SourceStatus :=
  mkSourceStatus (st_Kind s) (st_Enabled s) (st_Supported s) (st_Cursor s) (st_FreshAt s)
    (st_EvidenceCount s) coverage reason (st_ConflictCount s) (st_OrderingUncertain s)
    (st_LateRevisionCount s) (st_GovernanceCount s) (st_FieldCoverage s) (st_Errors s).

Definition normalize_source (s : SourceStatus) : SourceStatus :=
  let s := mkSourceStatus (st_Kind s) (st_Enabled s) (st_Supported s) (st_Cursor s) (st_FreshAt s)
             (st_EvidenceCount s) (st_Coverage s) (st_CoverageReason s) (st_ConflictCount s)
             (st_OrderingUncertain s) (st_LateRevisionCount s) (st_GovernanceCount s)
             (normalizeFieldCoverage (st_FieldCoverage s)) (sanitize (st_Errors s)) in
  if negb (st_Enabled s) then with_coverage s CoverageMissing "disabled"
  else if negb (st_Supported s) then with_coverage s CoverageUnknown "unsupported"
  else s.

Definition Build (asOf : Z) (sources : list SourceStatus) (hostCalls leafCalls : Z) : StatusReport :=
  mkStatusReport asOf (go_sort (fun a b => str_lt (st_Kind a) (st_Kind b)) (normalize_source <$> sources))
    hostCalls leafCalls.

(** ** Confounders *)

Record ConfounderObservation := mkConfounderObservation {
  cf_Kind : string;
  cf_Value : string;
  cf_Provenance : string
}.

Definition supported : list string :=
  ["model"; "tokenizer"; "host"; "tool"; "instruction"; "config"; "memory"; "media"].

Definition Normalize (kind value provenance : string) : ConfounderObservation :=
  if negb (one_of kind supported) || (value =s "") then mkConfounderObservation kind "" "unknown"
  else if negb (one_of provenance ["observed"; "configured"]) then mkConfounderObservation kind "" "unknown"
  else mkConfounderObservation kind value provenance.

(** ** What a status says *)

Lemma normalizeFieldCoverage_lookup values family :
  normalizeFieldCoverage values !! family
  = if contains families family then
      Some (let value := default "" (values !! family) in if known_coverage value then value else CoverageUnknown)
    else None.
Proof.
  unfold normalizeFieldCoverage.
  assert (forall l (result : gmap string Coverage),
            foldl (fun result family =>
              let value := default "" (values !! family) in
              <[family := if known_coverage value then value else CoverageUnknown]> result) result l !! family
            = if contains l family then
                Some (let value := default "" (values !! family) in
                      if known_coverage value then value else CoverageUnknown)
              else result !! family) as H.
  { induction l as [|f l IH]; intros result; cbn [foldl contains]; [done|]. rewrite IH.
    destruct (decide (f = family)) as [->|Hf].
    - rewrite lookup_insert_eq, bool_decide_eq_true_2 by done. by destruct (contains l family).
    - rewrite lookup_insert_ne, bool_decide_eq_false_2 by done. done. }
  apply H.
Qed.

(** A status reveals nothing but codes: whatever the collector passes, every source of the report
    has a known coverage for exactly the seven families, at most twenty errors, each one of five
    codes, and a disabled or unsupported source says so; sources are ordered by kind. *)
Theorem Build_sanitized asOf sources hostCalls leafCalls :
  let report := Build asOf sources hostCalls leafCalls in
  length (sp_Sources report) = length sources
  /\ StronglySorted (not_after (fun a b => str_lt (st_Kind a) (st_Kind b))) (sp_Sources report)
  /\ Forall (fun s =>
       (forall family, match st_FieldCoverage s !! family with
                       | Some c => family ∈ families /\ known_coverage c = true
                       | None => ~ family ∈ families
                       end)
       /\ (length (st_Errors s) <= MaxErrors)%nat
       /\ Forall (fun code => code ∈ error_codes) (st_Errors s)
       /\ (st_Enabled s = false -> st_Coverage s = CoverageMissing /\ st_CoverageReason s = "disabled")
       /\ (st_Enabled s = true -> st_Supported s = false ->
             st_Coverage s = CoverageUnknown /\ st_CoverageReason s = "unsupported")) (sp_Sources report).
Proof.
  cbn zeta. unfold Build. cbn [sp_Sources]. split_and!.
  - by rewrite length_go_sort, length_fmap.
  - apply go_sort_sorted, str_lt_on_strict_weak.
  - apply Forall_forall. intros s' (s & -> & _)%elem_of_go_sort%list_elem_of_fmap.
    assert (st_FieldCoverage (normalize_source s) = normalizeFieldCoverage (st_FieldCoverage s)
            /\ st_Errors (normalize_source s) = sanitize (st_Errors s)) as [-> ->].
    { unfold normalize_source. repeat case_goal; done. }
    split_and!.
    + intros family. rewrite normalizeFieldCoverage_lookup. destruct (contains families family) eqn:E.
      * apply contains_spec in E. split; [done|]. cbn zeta. by case_match.
      * intros Hin%contains_spec. congruence.
    + unfold sanitize. rewrite length_fmap, length_take. lia.
    + unfold sanitize. apply Forall_fmap, Forall_forall. intros code _. cbn. case_match eqn:E.
      * by apply contains_spec.
      * set_solver.
    + unfold normalize_source. cbn. destruct (st_Enabled s) eqn:E; cbn; [|done]. intros H. exfalso.
      revert H. case_goal; cbn; congruence.
    + unfold normalize_source. cbn. destruct (st_Enabled s) eqn:E; cbn; [|congruence].
      destruct (st_Supported s) eqn:E2; cbn; [congruence|done].
Qed.
