(* ===== verification/Snapshots.v ===== *)
(** * Typed observations of evidence (internal/collector/postgres.go)

    What the collector derives from a sanitized record before it is persisted: typed metadata,
    snapshots of plan, budget, policy and host, opaque UUIDs.

    [sha256] is SHA-256 (32 bytes), [parse_float] is [strconv.ParseFloat] with 64 bits and
    [parse_time] is [time.Parse] with RFC 3339, in nanoseconds: arguments. *)
From Stdlib Require Import Ascii.
From S2P Require Import Contracts Runes GoInt GoFlag Evidence.

Record PlanSnapshot := mkPlanSnapshot {
  ps_Hash : string;
  ps_PhaseScope : string;
  ps_ApprovalBoundary : string
}.

Record BudgetSnapshot := mkBudgetSnapshot {
  bs_Enforcement : string;
  bs_MaxToolLoops : option Z;
  bs_MaxRetries : option Z;
  bs_MaxRetrievalExpansions : option Z;
  bs_DelegationPolicy : string;
  bs_MaxAgentDepth : option Z;
  bs_MaxConcurrency : option Z;
  bs_ContextMode : string;
  bs_ExhaustionOutcome : string
}.

Record PolicySnapshot := mkPolicySnapshot {
  pos_SchemaVersion : string;
  pos_Hash : string;
  pos_RawRetentionEnabled : bool;
  pos_TelemetryEnabled : bool
}.

Record HostCapabilitySnapshot := mkHostCapabilitySnapshot {
  hs_HostKind : string;
  hs_HostVersion : string;
  hs_CapabilityName : string;
  hs_CapabilityState : string
}.

Record RuntimeObservation := mkRuntimeObservation {
  ro_Phase : string; ro_PhaseEvent : string; ro_ResponseEvent : string; ro_TaskAttribution : string;
  ro_ModelVariant : string; ro_ReasoningEffort : string; ro_ReasoningMode : string;
  ro_Verbosity : string; ro_ServiceMode : string; ro_SafeguardOutcome : string;
  ro_ToolOutcome : string; ro_ResultState : string;
  ro_CanonicalCallHash : option string; ro_StateEpochID : string; ro_StateEpochHash : option string;
  ro_MutationState : string; ro_OutputModality : string; ro_OutputSizeBytes : option Z;
  ro_WaitState : string; ro_UsageKind : string; ro_UsageValue : option float64; ro_UsageUnit : string;
  ro_AccountingRegime : string; ro_CacheKind : string; ro_CacheValue : option float64;
  ro_CacheMode : string; ro_CacheTTLSeconds : option Z;
  ro_CheckpointEvent : string; ro_BoundaryEvent : string; ro_DelegationEvent : string;
  ro_StopEvent : string; ro_CompactionEvent : string;
  ro_Plan : option PlanSnapshot;
  ro_Budget : option BudgetSnapshot;
  ro_Policy : option PolicySnapshot;
  ro_HostCapability : option HostCapabilitySnapshot;
  ro_AttributionConfidence : option float64;
  ro_AttributionValidTo : option Z;
  ro_GovernanceOverhead : bool
}.

(** ** Parsing *)

(** The value of a hexadecimal digit, of either case. *)
Definition hex_value (c : ascii) : option Z :=
  let b := byte c in
  if in_range 48 57 b then Some (b - 48)%Z
  else if in_range 97 102 b then Some (b - 87)%Z
  else if in_range 65 70 b then Some (b - 55)%Z
  else None.

(** [hex.DecodeString]: the bytes, or an error. *)
Fixpoint hex_decode (s : string) : option string :=
  match s with
  | EmptyString => Some EmptyString
  | String a (String b rest) =>
      match hex_value a, hex_value b, hex_decode rest with
      | Some x, Some y, Some bytes => Some (String (byte_char (16 * x + y)) bytes)
      | _, _, _ => None
      end
  | String _ EmptyString => None
  end.

Definition hex_digit (z : Z) : ascii := byte_char (if (z <? 10)%Z then 48 + z else 87 + z).

(** [hex.EncodeToString]. *)
Fixpoint hex_encode (s : string) : string :=
  match s with
  | EmptyString => EmptyString
  | String c rest => String (hex_digit (byte c / 16)) (String (hex_digit (byte c mod 16)) (hex_encode rest))
  end.

Definition parseDigest (value : string) : option string :=
  match hex_decode value with
  | Some digest => if (str_len digest =? 32)%Z then Some digest else None
  | None => None
  end.

Definition anyAttribute (attributes : gmap string string) (names : list string) : bool :=
  existsb (fun name => negb (attribute attributes name =s "")) names.

(** [parseOptionalInt]: absent, a natural number, or an error with the caller's message. *)
Definition parseOptionalInt (message value : string) : result string (option Z) :=
  if value =s "" then Ok None
  else match ParseInt value with
       | Some parsed => if (parsed <? 0)%Z then Err message else Ok (Some parsed)
       | None => Err message
       end.

Section Observed.
Context (sha256 : string -> string) (parse_float : string -> option float64)
        (parse_time : string -> option Z).

Definition parseOptionalFloat (message value : string) : result string (option float64) :=
  if value =s "" then Ok None
  else match parse_float value with
       | Some parsed =>
           if flt parsed fzero || is_nan parsed || is_inf parsed then Err message else Ok (Some parsed)
       | None => Err message
       end.

(** One byte of a digest is replaced. *)
Definition set_byte (n : nat) (f : Z -> Z) (s : string) : string :=
  match str_drop n s with
  | String c rest => str_take n s +:+ String (byte_char (f (byte c))) rest
  | EmptyString => s
  end.

Definition deterministicUUID (value : string) : string :=
  let digest := sha256 value in
  let digest := set_byte 6 (fun b => Z.lor (Z.land b 15) 64) digest in
  let digest := set_byte 8 (fun b => Z.lor (Z.land b 63) 128) digest in
  let text := hex_encode (str_take 16 digest) in
  str_take 8 text +:+ "-" +:+ str_take 4 (str_drop 8 text) +:+ "-" +:+ str_take 4 (str_drop 12 text)
  +:+ "-" +:+ str_take 4 (str_drop 16 text) +:+ "-" +:+ str_drop 20 text.

Definition lineageUUID (value : string) : string := if value =s "" then "" else deterministicUUID value.

Definition redactionState (fields : list string) : string :=
  if (0 <? length fields)%nat then "applied" else "not_needed".

(** ** Snapshots *)

Definition plan_names : list string := ["plan_hash"; "plan_phase_scope"; "approval_boundary_class"].
Definition budget_names : list string :=
  ["budget_enforcement"; "budget_max_tool_loops"; "budget_max_retries"; "budget_max_retrieval_expansions";
   "budget_delegation_policy"; "budget_max_agent_depth"; "budget_max_concurrency"; "budget_context_mode";
   "budget_exhaustion_outcome"].
Definition policy_names : list string :=
  ["policy_schema_version"; "policy_hash"; "raw_prompt_retention"; "telemetry"].
Definition host_names : list string :=
  ["host_kind"; "host_version"; "host_capability_name"; "host_capability_state"].

Definition plan_snapshot (attributes : gmap string string) : result string (option PlanSnapshot) :=
  let get := attribute attributes in
  if anyAttribute attributes plan_names then
    match parseDigest (get "plan_hash") with
    | Some hash =>
        if (get "plan_phase_scope" =s "") || (get "approval_boundary_class" =s "")
        then Err "invalid plan snapshot"
        else Ok (Some (mkPlanSnapshot hash (get "plan_phase_scope") (get "approval_boundary_class")))
    | None => Err "invalid plan snapshot"
    end
  else Ok None.

Definition budget_snapshot (attributes : gmap string string) (plan : option PlanSnapshot)
    : result string (option BudgetSnapshot) :=
  let get := attribute attributes in
  let invalid := "invalid budget snapshot" in
  if anyAttribute attributes budget_names then
    if bool_decide (plan = None) || (get "budget_enforcement" =s "")
       || (get "budget_delegation_policy" =s "") || (get "budget_exhaustion_outcome" =s "")
    then Err invalid
    else
      let! loops := parseOptionalInt invalid (get "budget_max_tool_loops") in
      let! retries := parseOptionalInt invalid (get "budget_max_retries") in
      let! expansions := parseOptionalInt invalid (get "budget_max_retrieval_expansions") in
      let! depth := parseOptionalInt invalid (get "budget_max_agent_depth") in
      let! concurrency := parseOptionalInt invalid (get "budget_max_concurrency") in
      if match concurrency with Some n => (n <? 1)%Z | None => false end then Err invalid
      else Ok (Some (mkBudgetSnapshot (get "budget_enforcement") loops retries expansions
                       (get "budget_delegation_policy") depth concurrency (get "budget_context_mode")
                       (get "budget_exhaustion_outcome")))
  else Ok None.

Definition policy_snapshot (attributes : gmap string string) : result string (option PolicySnapshot) :=
  let get := attribute attributes in
  if anyAttribute attributes policy_names then
    match parseDigest (get "policy_hash"), ParseBool (get "raw_prompt_retention"),
          ParseBool (get "telemetry") with
    | Some hash, Some rawRetention, Some telemetry =>
        if get "policy_schema_version" =s "" then Err "invalid policy snapshot"
        else Ok (Some (mkPolicySnapshot (get "policy_schema_version") hash rawRetention telemetry))
    | _, _, _ => Err "invalid policy snapshot"
    end
  else Ok None.

Definition host_snapshot (attributes : gmap string string) : result string (option HostCapabilitySnapshot) :=
  let get := attribute attributes in
  if anyAttribute attributes host_names then
    if (get "host_capability_name" =s "") || (get "host_capability_state" =s "")
    then Err "invalid host capability snapshot"
    else Ok (Some (mkHostCapabilitySnapshot (get "host_kind") (get "host_version")
                     (get "host_capability_name") (get "host_capability_state")))
  else Ok None.

Definition attribution_confidence (attributes : gmap string string) (taskAttribution : string)
    : result string (option float64) :=
  let value := attribute attributes "project_attribution_confidence" in
  if value =s "" then Ok None
  else
    let! confidence := parseOptionalFloat "invalid project attribution" value in
    match confidence with
    | Some c => if flt (float_of_Z 1) c || (taskAttribution =s "") then Err "invalid project attribution"
                else Ok (Some c)
    | None => Err "invalid project attribution"
    end.

Definition attribution_valid_to (attributes : gmap string string) (observedAt : Z) (taskAttribution : string)
    : result string (option Z) :=
  let value := attribute attributes "project_attribution_valid_to" in
  if value =s "" then Ok None
  else match parse_time value with
       | Some validTo =>
           if (validTo <=? observedAt)%Z || (taskAttribution =s "") then Err "invalid project attribution"
           else Ok (Some validTo)
       | None => Err "invalid project attribution"
       end.

Definition attributes_of (record : EvidenceRecord) : gmap string string := default ∅ (er_Attributes record).

Definition runtimeObservation (record : EvidenceRecord) : result string RuntimeObservation :=
  let attributes := attributes_of record in
  let get := attribute attributes in
  let! outputSize := parseOptionalInt "invalid output size" (get "output_size_bytes") in
  let! ttl := parseOptionalInt "invalid cache ttl" (get "cache_ttl") in
  let! usage := parseOptionalFloat "invalid usage value" (get "usage_value") in
  let! cache := parseOptionalFloat "invalid cache value" (get "cache_value") in
  let! plan := plan_snapshot attributes in
  let! budget := budget_snapshot attributes plan in
  let! policy := policy_snapshot attributes in
  let! host := host_snapshot attributes in
  let! confidence := attribution_confidence attributes (get "task_attribution_state") in
  let! validTo := attribution_valid_to attributes (er_ObservedAt record) (get "task_attribution_state") in
  let hash value := if value =s "" then None else Some (sha256 value) in
  Ok {| ro_Phase := get "phase"; ro_PhaseEvent := get "phase_event";
        ro_ResponseEvent := get "response_event"; ro_TaskAttribution := get "task_attribution_state";
        ro_ModelVariant := get "model_variant"; ro_ReasoningEffort := get "reasoning_effort";
        ro_ReasoningMode := get "reasoning_mode"; ro_Verbosity := get "verbosity";
        ro_ServiceMode := get "service_mode"; ro_SafeguardOutcome := get "safeguard_outcome";
        ro_ToolOutcome := get "tool_outcome"; ro_ResultState := get "result_state";
        ro_CanonicalCallHash := hash (get "canonical_call");
        ro_StateEpochID := if get "state_epoch" =s "" then "" else deterministicUUID (get "state_epoch");
        ro_StateEpochHash := hash (get "state_epoch");
        ro_MutationState := get "mutation_state"; ro_OutputModality := get "output_modality";
        ro_OutputSizeBytes := outputSize; ro_WaitState := get "wait_state"; ro_UsageKind := get "usage_kind";
        ro_UsageValue := usage; ro_UsageUnit := get "usage_unit"; ro_AccountingRegime := get "accounting_regime";
        ro_CacheKind := get "cache_kind"; ro_CacheValue := cache; ro_CacheMode := get "cache_mode";
        ro_CacheTTLSeconds := ttl; ro_CheckpointEvent := get "checkpoint_event";
        ro_BoundaryEvent := get "boundary_event"; ro_DelegationEvent := get "delegation_event";
        ro_StopEvent := get "stop_event"; ro_CompactionEvent := get "compaction_event";
        ro_Plan := plan; ro_Budget := budget; ro_Policy := policy; ro_HostCapability := host;
        ro_AttributionConfidence := confidence; ro_AttributionValidTo := validTo;
        ro_GovernanceOverhead := er_GovernanceOverhead record |}.

(** ** The batch that is persisted *)

Record PersistentSource := mkPersistentSource {
  pso_SourceID : string;
  pso_CursorID : string;
  pso_ProjectID : string
}.

Record EvidenceLineage := mkEvidenceLineage {
  el_SessionID : string;
  el_TrajectoryID : string;
  el_ParentTrajectoryID : string;
  el_TaskID : string;
  el_TurnID : string;
  el_TurnOrdinal : option Z;
  el_ResponseID : string;
  el_ParentResponseID : string;
  el_ToolCallID : string;
  el_CallerToolCallID : string;
  el_ToolKind : string;
  el_CallPath : string
}.

Record PersistedEvidence := mkPersistedEvidence {
  pe_ID : string;
  pe_SourceID : string;
  pe_ProjectID : option string;
  pe_SessionID : option string;
  pe_ExternalAliasID : option string;
  pe_SchemaVersion : string;
  pe_SourceVersion : string;
  pe_ContentHash : string;
  pe_ContentLength : Z;
  pe_Classification : string;
  pe_RedactionState : string;
  pe_CoverageState : string;
  pe_Provenance : string;
  pe_ProductSurface : string;
  pe_ObservedAt : Z;
  pe_RetainedUntil : option Z;
  pe_Lineage : EvidenceLineage;
  pe_Runtime : RuntimeObservation
}.

Definition persisted_lineage (l : Lineage) : EvidenceLineage :=
  {| el_SessionID := lineageUUID (li_SessionID l);
     el_TrajectoryID := lineageUUID (li_TrajectoryID l);
     el_ParentTrajectoryID := lineageUUID (li_ParentTrajectoryID l);
     el_TaskID := lineageUUID (li_TaskID l);
     el_TurnID := lineageUUID (li_TurnID l);
     el_TurnOrdinal := li_TurnOrdinal l;
     el_ResponseID := lineageUUID (li_ResponseID l);
     el_ParentResponseID := lineageUUID (li_ParentResponseID l);
     el_ToolCallID := lineageUUID (li_ToolCallID l);
     el_CallerToolCallID := lineageUUID (li_CallerToolCallID l);
     el_ToolKind := li_ToolKind l;
     el_CallPath := li_CallPath l |}.

Definition optional (s : string) : option string := if s =s "" then None else Some s.

(** One record of a batch. *)
Definition persisted (source : PersistentSource) (record : EvidenceRecord) : result string PersistedEvidence :=
  match hex_decode (er_ContentSHA256 record) with
  | None => Err "invalid evidence digest"
  | Some hash =>
      let id := deterministicUUID (er_ID record) in
      let lineage := persisted_lineage (er_Lineage record) in
      let! runtime := runtimeObservation record in
      Ok {| pe_ID := id; pe_SourceID := pso_SourceID source; pe_ProjectID := optional (pso_ProjectID source);
            pe_SessionID := optional (el_SessionID lineage); pe_ExternalAliasID := Some id;
            pe_SchemaVersion := SchemaVersion; pe_SourceVersion := er_SourceVersion record;
            pe_ContentHash := hash;
            pe_ContentLength := Z.of_nat (size (attributes_of record));
            pe_Classification := er_Classification record;
            pe_RedactionState := redactionState (default [] (er_RedactedFields record));
            pe_CoverageState := er_Coverage record; pe_Provenance := "runtime_observed";
            pe_ProductSurface := er_ProductSurface record; pe_ObservedAt := er_ObservedAt record; pe_RetainedUntil := None;
            pe_Lineage := lineage; pe_Runtime := runtime |}
  end.

(** The records of a batch are all converted before anything is written: the first error wins. *)
Fixpoint persisted_batch (source : PersistentSource) (records : list EvidenceRecord)
    : result string (list PersistedEvidence) :=
  match records with
  | [] => Ok []
  | record :: rest =>
      let! item := persisted source record in
      let! items := persisted_batch source rest in
      Ok (item :: items)
  end.

(** ** Hexadecimal text *)

Lemma hex_digit_hex z : (0 <= z < 16)%Z -> hex_char (hex_digit z) = true.
Proof.
  intros H. unfold hex_digit, hex_char, in_range. rewrite byte_byte_char by (destruct (z <? 10)%Z; lia).
  destruct (Z.ltb_spec z 10); rewrite orb_true_iff, !andb_true_iff, !Z.leb_le; lia.
Qed.

Lemma hex_encode_hex s : hexadecimal (hex_encode s).
Proof.
  induction s as [|c s IH]; [constructor|]. pose proof (byte_range c).
  constructor; [|constructor; [|exact IH]]; apply hex_digit_hex.
  - split; [apply Z.div_pos; lia|apply Z.div_lt_upper_bound; lia].
  - apply Z.mod_pos_bound. lia.
Qed.

(** ** What is lost on the way *)

Lemma persisted_batch_ok source records items :
  persisted_batch source records = Ok items <-> Forall2 (fun r i => persisted source r = Ok i) records items.
Proof.
  revert items. induction records as [|r records IH]; intros items; cbn [persisted_batch].
  - split; [by intros [= <-]|]. intros H. by inversion H.
  - split.
    + destruct (persisted source r) as [i|] eqn:Hi; [|done].
      destruct (persisted_batch source records) as [l|] eqn:Hl; [|done]. intros [= <-].
      constructor; [done|]. by apply IH.
    + intros (i & l & Hi & Hl & ->)%Forall2_cons_inv_l. apply IH in Hl. by rewrite Hi, Hl.
Qed.

(** Attributes whose name is private are never there. *)
Definition redacted_for (attributes : gmap string string) : Prop :=
  forall f, sensitiveKey f = true -> attributes !! f = None.

Lemma redacted_attribute attributes f :
  redacted_for attributes -> sensitiveKey f = true -> attribute attributes f = "".
Proof. intros H Hs. unfold attribute. by rewrite H. Qed.

Lemma policy_snapshot_redacted attributes :
  redacted_for attributes ->
  policy_snapshot attributes
  = if anyAttribute attributes policy_names then Err "invalid policy snapshot" else Ok None.
Proof.
  intros H. unfold policy_snapshot. destruct (anyAttribute _ _); [|done].
  rewrite (redacted_attribute _ "raw_prompt_retention" H) by (vm_compute; reflexivity).
  assert (ParseBool "" = None) as -> by (vm_compute; reflexivity). by destruct (parseDigest _).
Qed.

Lemma budget_snapshot_context attributes plan b :
  budget_snapshot attributes plan = Ok (Some b) -> bs_ContextMode b = attribute attributes "budget_context_mode".
Proof.
  unfold budget_snapshot. destruct (anyAttribute _ _); [|done]. destruct (_ || _ || _ || _); [done|].
  repeat (destruct (parseOptionalInt _ _); [|done]). by case_match; intros [= <-].
Qed.

(** The parts of an observation that its snapshots give. *)
Lemma runtimeObservation_ok record r :
  runtimeObservation record = Ok r ->
  exists plan, policy_snapshot (attributes_of record) = Ok (ro_Policy r)
    /\ budget_snapshot (attributes_of record) plan = Ok (ro_Budget r)
    /\ ro_ReasoningEffort r = attribute (attributes_of record) "reasoning_effort"
    /\ ro_ReasoningMode r = attribute (attributes_of record) "reasoning_mode".
Proof.
  unfold runtimeObservation.
  destruct (parseOptionalInt _ _); [|done]. destruct (parseOptionalInt _ _); [|done].
  destruct (parseOptionalFloat _ _); [|done]. destruct (parseOptionalFloat _ _); [|done].
  destruct (plan_snapshot _) as [plan|]; [|done].
  destruct (budget_snapshot _ _) as [budget|] eqn:Hb; [|done].
  destruct (policy_snapshot _) as [policy|] eqn:Hp; [|done].
  destruct (host_snapshot _); [|done]. destruct (attribution_confidence _ _); [|done].
  destruct (attribution_valid_to _ _ _); [|done]. intros [= <-]. by exists plan.
Qed.
End Observed.

(** Some evidence that the schema allows can never be persisted.  The name of
    [raw_prompt_retention] is private, so sanitized attributes never have it, while the policy
    snapshot requires it: a record whose sanitized attributes have a policy version, a policy hash
    or a telemetry setting fails to convert, and with it every batch that contains it.  What is
    persisted never has a policy snapshot, a reasoning effort or mode, or the context mode of a
    budget. *)
Theorem policy_evidence_blocks sha256 parse_float parse_time hmac_hex
    sourceKind identityKey entries attributes clean redacted record :
  entries ≡ₚ map_to_list attributes ->
  Sanitize hmac_hex sourceKind identityKey entries = Ok (clean, redacted) ->
  er_Attributes record = Some clean ->
  (anyAttribute clean policy_names = true ->
     forall source records, record ∈ records ->
       is_ok (persisted_batch sha256 parse_float parse_time source records) = false)
  /\ (forall r, runtimeObservation sha256 parse_float parse_time record = Ok r ->
        ro_Policy r = None /\ ro_ReasoningEffort r = "" /\ ro_ReasoningMode r = ""
        /\ forall b, ro_Budget r = Some b -> bs_ContextMode b = "").
Proof.
  intros HP HS HA.
  assert (redacted_for (attributes_of record)) as HR.
  { intros f Hs. unfold attributes_of. rewrite HA. exact (kept_not_sensitive _ _ _ _ _ _ _ f HP HS Hs). }
  assert (forall r, runtimeObservation sha256 parse_float parse_time record = Ok r ->
            ro_Policy r = None /\ anyAttribute (attributes_of record) policy_names = false) as Hpol.
  { intros r (plan & Hp & _)%runtimeObservation_ok. rewrite policy_snapshot_redacted in Hp by done.
    destruct (anyAttribute _ _); [discriminate Hp|]. by injection Hp as <-. }
  split.
  - intros Hany source records Hin.
    destruct (persisted_batch _ _ _ source records) as [items|e] eqn:E; [|reflexivity].
    apply persisted_batch_ok in E. apply list_elem_of_lookup in Hin as [i Hin].
    destruct (Forall2_lookup_l _ _ _ _ _ E Hin) as (item & _ & Hi). unfold persisted in Hi. destruct (hex_decode _); [|discriminate Hi].
    destruct (runtimeObservation _ _ _ record) as [r|] eqn:Hr; [|discriminate Hi].
    destruct (Hpol r eq_refl) as [_ Hn]. assert (attributes_of record = clean) as Hc by (unfold attributes_of; by rewrite HA).
    rewrite Hc, Hany in Hn. discriminate Hn.
  - intros r Hr. destruct (Hpol r Hr) as [Hp _].
    destruct (runtimeObservation_ok _ _ _ _ _ Hr) as (plan & _ & Hb & -> & ->). split_and!; [done| | |].
    + by apply (redacted_attribute _ _ HR); vm_compute.
    + by apply (redacted_attribute _ _ HR); vm_compute.
    + intros b Eb. rewrite Eb in Hb. rewrite (budget_snapshot_context _ _ _ Hb).
      by apply (redacted_attribute _ _ HR); vm_compute.
Qed.

(** ** A concrete record: a valid telemetry setting *)

Definition policy_example : list (string * string) := [("telemetry", "false")].

Definition example_record (attributes : gmap string string) : EvidenceRecord :=
  mkEvidenceRecord "id" "codex_jsonl" "1" 1 None 1 1 1 "internal" CoverageComplete "" "codex_subscription"
    "" (Some []) (Some attributes) false false false (ParseLineage attributes).

Example policy_evidence_blocks_witness :
  Sanitize example_hmac "codex_jsonl" example_key policy_example = Ok ({["telemetry" := "false"]}, [])
  /\ Validate (example_record {["telemetry" := "false"]}) = None
  /\ is_ok (persisted_batch (fun s => s) (fun _ => None) (fun _ => None)
       (mkPersistentSource "s" "c" "p") [example_record {["telemetry" := "false"]}]) = false.
Proof.
  assert (Sanitize example_hmac "codex_jsonl" example_key policy_example
          = Ok ({["telemetry" := "false"]}, [])) as E by (vm_compute; reflexivity).
  split; [exact E|]. split; [vm_compute; reflexivity|].
  apply (policy_evidence_blocks (fun s => s) (fun _ => None) (fun _ => None) example_hmac
           "codex_jsonl" example_key policy_example {["telemetry" := "false"]}
           {["telemetry" := "false"]} [] (example_record {["telemetry" := "false"]})).
  - vm_compute. reflexivity.
  - exact E.
  - reflexivity.
  - vm_compute. reflexivity.
  - left.
Defined.
