(* ===== verification/Setup.v ===== *)
(** * Setup of the integration (internal/setup)

    [init] writes a configuration, a skill and a manifest of what it owns, and registers the server
    with Codex; [init --uninstall] takes back exactly what the manifest names; [doctor] reads all
    of it.  Every one is a sequence of operations on files and on Codex, any of which may fail.
    Nobody else changes the files or the registration while a command runs.

    Arguments: which operations fail and the names of temporary files, [codex] as a state with its
    commands, the JSON decoders, SHA-256, the skill that is embedded, [os.Stat], and what starting a
    server and asking the database meet.  The modes of files are those of Unix. *)
From Stdlib Require Import Ascii.
From S2P Require Import Contracts GoString GoInt GoFmt Utf8 Unicode GoPath Policy Textutil GoFlag Evidence Snapshots.

Definition serverName : string := "promptBetter".
Definition configVersion : string := "1.0.0".
Definition defaultConfigRel : string := "prompt-better/integration.json".
Definition manifestRel : string := "prompt-better/ownership.json".
Definition skillRel : string := "skills/prompt-better/SKILL.md".
Definition databaseEnv : string := "PROMPT_BETTER_DATABASE_URL".
Definition maxFileBytes : Z := 64 * 1024.

Definition sourceKinds : list string :=
  ["configuration"; "git"; "github"; "codex_jsonl"; "codex_state_sqlite"; "rollout_summary"; "process"].

Record IntegrationConfig := mkIntegrationConfig {
  ic_SchemaVersion : string;
  ic_ExecutionPolicy : ExecutionPolicy;
  ic_SourceKinds : list string;
  ic_ProcessPurpose : string;
  ic_RawPromptRetention : bool;
  ic_Telemetry : bool;
  ic_DatabaseEnv : string
}.

Record ownershipManifest := mkManifest {
  om_SchemaVersion : string;
  om_ServerName : string;
  om_RegistrationHash : string;
  om_Files : gmap string string
}.

(** The arguments are a slice that may be nil, which JSON and nothing else tells from an empty one. *)
Record registration := mkRegistration { rg_Command : string; rg_Args : option (list string); rg_Cwd : string }.

Definition rg_arguments (r : registration) : list string := default [] (rg_Args r).

#[export] Instance registration_eq_dec : EqDecision registration.
Proof. solve_decision. Defined.

(** ** The machine *)

(** A file: its bytes, whether it is a regular file and whether its mode is 0600. *)
Record Entry := mkEntry { en_data : string; en_regular : bool; en_private : bool }.

Abbreviation Tree := (gmap string Entry) (only parsing).

(** The files, the state of Codex and how many operations were done. *)
Record Machine (C : Type) := mkMachine { ma_tree : gmap string Entry; ma_codex : C; ma_steps : nat }.
Arguments mkMachine {C} _ _ _.
Arguments ma_tree {C} _.
Arguments ma_codex {C} _.
Arguments ma_steps {C} _.

(** Which operation fails - a removal or a renaming when it is stuck -, what a write that fails leaves,
    and the random part of a name. *)
Record Fate := mkFate { fa_fails : nat -> bool; fa_stuck : nat -> bool; fa_torn : nat -> string; fa_temp : nat -> string }.

(** What [json.Unmarshal] reads, SHA-256 and the skill that is embedded. *)
Record Document := mkDocument {
  do_Command : string; do_Args : option (list string); do_Cwd : string;
  do_Type : string; do_TransportCommand : string; do_TransportArgs : option (list string); do_TransportCwd : string
}.

Record Codec := mkCodec {
  cd_read_config : string -> option IntegrationConfig;
  cd_read_manifest : string -> option ownershipManifest;
  cd_read_document : string -> option Document;
  cd_read_plugin : string -> option (string * string);
  cd_read_servers : string -> option (gmap string (string * list string));
  cd_sha256 : string -> string;
  cd_skill : string
}.

(** ** Texts *)

(** [json.MarshalIndent] with two spaces: a field, an object, and a value in it that has parts. *)
Definition field_text (name value : string) : string := json_string name +:+ ": " +:+ value.

Definition parts_text (open close indent : string) (parts : list string) : string :=
  match parts with
  | [] => open +:+ close
  | _ => open +:+ LF +:+ str_join ("," +:+ LF) ((fun part => indent +:+ "  " +:+ part) <$> parts) +:+ LF +:+ indent +:+ close
  end.

Definition bool_text (b : bool) : string := if b then "true" else "false".

(** The file of a configuration. *)
Definition config_text (config : IntegrationConfig) : string :=
  parts_text "{" "}" ""
    ([field_text "schema_version" (json_string (ic_SchemaVersion config));
      field_text "execution_policy" (json_string (ic_ExecutionPolicy config));
      field_text "source_kinds" (parts_text "[" "]" "  " (json_string <$> ic_SourceKinds config))]
     ++ (if ic_ProcessPurpose config =s "" then [] else [field_text "process_purpose" (json_string (ic_ProcessPurpose config))])
     ++ [field_text "raw_prompt_retention" (bool_text (ic_RawPromptRetention config));
         field_text "telemetry" (bool_text (ic_Telemetry config));
         field_text "database_env" (json_string (ic_DatabaseEnv config))]) +:+ LF.

(** The file of a manifest: a map is written in the order of its keys. *)
Definition manifest_text (manifest : ownershipManifest) : string :=
  parts_text "{" "}" ""
    [field_text "schema_version" (json_string (om_SchemaVersion manifest));
     field_text "server_name" (json_string (om_ServerName manifest));
     field_text "registration_hash" (json_string (om_RegistrationHash manifest));
     field_text "files" (parts_text "{" "}" "  "
       ((fun name => field_text name (json_string (default "" (om_Files manifest !! name)))) <$> sort_strings (map_to_list (om_Files manifest)).*1))]
  +:+ LF.

(** [json.Marshal] of a registration. *)
Definition registration_text (r : registration) : string :=
  json_object
    ([json_field "command" (json_string (rg_Command r)); json_field "args" (match rg_Args r with None => "null" | Some args => json_array (json_string <$> args) end)]
     ++ (if rg_Cwd r =s "" then [] else [json_field "cwd" (json_string (rg_Cwd r))])).

(** What a command says, and with which code it ends. *)
Inductive Verdict := Refuses (message : string) | States (state action : string).

(** [writeError] and [writeStatus], with whether the line can be written. *)
Definition verdict_text (v : Verdict) : string :=
  match v with
  | Refuses message => "error: " +:+ message +:+ LF
  | States state action => state +:+ ": " +:+ action +:+ LF
  end.

Definition verdict_code (written : bool) (v : Verdict) : Z :=
  if written then match v with Refuses _ => 2%Z | States _ _ => 0%Z end else 1%Z.

Section Setup.
(** [place] is where a path leads to: two paths can lead to one place. *)
Context {C : Type} (run : list string -> C -> (string * bool) * C) (fate : Fate) (place : string -> string) (codec : Codec).

Definition Io (A : Type) : Type := Machine C -> A * Machine C.

Definition io_ret {A} (x : A) : Io A := fun m => (x, m).
Definition io_bind {A B} (c : Io A) (k : A -> Io B) : Io B := fun m => let '(x, m) := c m in k x m.

#[local] Notation "'io!' x := m 'in' k" := (io_bind m (fun x => k)) (at level 200, x name, m at level 100, k at level 200).

(** The machine after one operation on the files. *)
Definition stepped (m : Machine C) (tree : gmap string Entry) : Machine C := mkMachine tree (ma_codex m) (S (ma_steps m)).

(** An operation that changes the files, or fails and does not. *)
Definition attempt (bad : nat -> bool) (f : gmap string Entry -> option (gmap string Entry)) : Io bool :=
  fun m =>
    if bad (ma_steps m) then (false, stepped m (ma_tree m))
    else match f (ma_tree m) with
         | Some tree => (true, stepped m tree)
         | None => (false, stepped m (ma_tree m))
         end.

(** An operation with no effect on the files: [MkdirAll], [Chmod] to 0600, [Sync], [Close]. *)
Definition quiet : Io bool := attempt (fa_fails fate) Some.

Inductive Looked := LookFailed | LookMissing | Found (e : Entry).

Definition lstat (path : string) : Io Looked :=
  fun m => (if fa_fails fate (ma_steps m) then LookFailed
            else match ma_tree m !! place path with Some e => Found e | None => LookMissing end,
            stepped m (ma_tree m)).

Definition os_remove (path : string) : Io bool :=
  attempt (fa_stuck fate)
    (fun tree => match tree !! place path with Some _ => Some (delete (place path) tree) | None => None end).

(** [os.Remove] for a caller that takes a missing file for a removed one. *)
Definition os_remove_if_any (path : string) : Io bool :=
  attempt (fa_stuck fate) (fun tree => Some (delete (place path) tree)).

Definition os_rename (from to : string) : Io bool :=
  attempt (fa_stuck fate)
    (fun tree => match tree !! place from with
                 | Some e => Some (<[place to := e]> (delete (place from) tree))
                 | None => None
                 end).

Definition os_link (from to : string) : Io bool :=
  attempt (fa_fails fate)
    (fun tree => match tree !! place from, tree !! place to with
                 | Some e, None => Some (<[place to := e]> tree)
                 | _, _ => None
                 end).

(** [os.CreateTemp]: a new private file; [None] when it fails. *)
Definition create_temp (dir pattern : string) : Io (option string) :=
  fun m =>
    let name := path_join dir (pattern +:+ fa_temp fate (ma_steps m)) in
    if fa_fails fate (ma_steps m) then (None, stepped m (ma_tree m))
    else match ma_tree m !! place name with
         | Some _ => (None, stepped m (ma_tree m))
         | None => (Some name, stepped m (<[place name := mkEntry "" true true]> (ma_tree m)))
         end.

Definition with_data (data : string) (e : Entry) : Entry := mkEntry data (en_regular e) (en_private e).

Definition write_bytes (path data : string) : Io bool :=
  fun m =>
    if fa_fails fate (ma_steps m)
    then (false, stepped m (alter (with_data (fa_torn fate (ma_steps m))) (place path) (ma_tree m)))
    else (true, stepped m (alter (with_data data) (place path) (ma_tree m))).

Inductive Bounded := BoundedFailed | BoundedMissing | Bytes (data : string).

Definition readBounded (path : string) : Io Bounded :=
  io! info := lstat path in
  match info with
  | LookFailed => io_ret BoundedFailed
  | LookMissing => io_ret BoundedMissing
  | Found e =>
      if negb (en_regular e) || (maxFileBytes <? str_len (en_data e))%Z then io_ret BoundedFailed
      else
        io! ok := quiet in
        io_ret (if ok then Bytes (en_data e) else BoundedFailed)
  end.

Inductive FileStateOf := Missing | Same | Conflict.

(** [None] is an error. *)
Definition fileState (path expected : string) : Io (option FileStateOf) :=
  io! info := lstat path in
  match info with
  | LookMissing => io_ret (Some Missing)
  | LookFailed => io_ret None
  | Found e =>
      if negb (en_regular e) then io_ret None
      else
        io! actual := readBounded path in
        match actual with
        | Bytes data => io_ret (Some (if (data =s expected) && en_private e then Same else Conflict))
        | _ => io_ret None
        end
  end.

(** The steps of [atomicWrite] once there is a temporary file. *)
Definition atomic_steps (temporary path data : string) : Io bool :=
  io! ok := quiet in
  if negb ok then io_ret false
  else
    io! ok := write_bytes temporary data in
    if negb ok then io_ret false
    else
      io! ok := quiet in
      if negb ok then io_ret false
      else
        io! ok := quiet in
        if negb ok then io_ret false
        else
          io! ok := os_link temporary path in
          if negb ok then io_ret false
          else
            io! ok := os_remove temporary in
            if negb ok then io_ret false
            else
              io! ok := quiet in
              if negb ok then io_ret false else quiet.

Definition atomicWrite (path data : string) : Io bool :=
  io! ok := quiet in
  if negb ok then io_ret false
  else
    io! temporary := create_temp (path_dir path) ".prompt-better-" in
    match temporary with
    | None => io_ret false
    | Some temporary =>
        io! ok := atomic_steps temporary path data in
        io! _ := os_remove_if_any temporary in
        io_ret ok
    end.

Fixpoint remove_each (paths : list string) : Io unit :=
  match paths with
  | [] => io_ret tt
  | path :: paths => io! _ := os_remove path in remove_each paths
  end.

(** The order in which the maps are ranged over: of the paths to remove, of the two files of an
    installation when they are checked and when they are written, of the files of a manifest when they
    are checked and when they are moved. *)
Record Ranges := mkRanges {
  ra_remove : list string -> list string;
  ra_check : bool;
  ra_write : bool;
  ra_owned : gmap string string -> list (string * string);
  ra_stage : gmap string string -> list (string * string)
}.

(** Every element once. *)
Definition fair (ranges : Ranges) : Prop :=
  (forall l, ra_remove ranges l ≡ₚ l) /\
  (forall files, ra_owned ranges files ≡ₚ map_to_list files) /\
  (forall files, ra_stage ranges files ≡ₚ map_to_list files).

Context (ranges : Ranges).

Definition removeNewFiles (paths : list string) : Io unit := remove_each (ra_remove ranges paths).

(** ** Codex *)

Definition codex (args : list string) : Io (string * bool) :=
  fun m => let '(r, c) := run args (ma_codex m) in (r, mkMachine (ma_tree m) c (ma_steps m)).

Inductive Queried := QueryFailed | QueryMissing | Registered (r : registration).

(** The document of [codex mcp get], in its two shapes. *)
Definition document_registration (document : Document) : Queried :=
  if negb (do_TransportCommand document =s "") then
    if negb (do_Type document =s "stdio") then QueryFailed
    else Registered (mkRegistration (do_TransportCommand document) (do_TransportArgs document) (do_TransportCwd document))
  else if do_Command document =s "" then QueryFailed
  else Registered (mkRegistration (do_Command document) (do_Args document) (do_Cwd document)).

Definition getRegistration : Io Queried :=
  io! answer := codex ["mcp"; "get"; serverName; "--json"] in
  let '(data, ok) := answer in
  if negb ok then
    let lower := to_lower data in
    io_ret (if str_contains "not found" lower || str_contains "no mcp" lower then QueryMissing else QueryFailed)
  else io_ret match cd_read_document codec data with
              | None => QueryFailed
              | Some document => document_registration document
              end.

Definition sameRegistration (left right : registration) : bool :=
  (rg_Command left =s rg_Command right) && bool_decide (rg_arguments left = rg_arguments right) && (rg_Cwd left =s rg_Cwd right).

Definition digest (data : string) : string := hex_encode (cd_sha256 codec data).
Definition registrationDigest (value : registration) : string := digest (registration_text value).

Definition isPluginRegistration (value : registration) : Io bool :=
  if negb (rg_Command value =s "go") || negb (bool_decide (rg_arguments value = ["run"; "./cmd/prompt-better-mcp"])) || (rg_Cwd value =s "")
  then io_ret false
  else
    io! pluginData := readBounded (path_join (path_join (rg_Cwd value) ".codex-plugin") "plugin.json") in
    io! mcpData := readBounded (path_join (rg_Cwd value) ".mcp.json") in
    match pluginData, mcpData with
    | Bytes pluginData, Bytes mcpData =>
        io_ret match cd_read_plugin codec pluginData, cd_read_servers codec mcpData with
               | Some (name, servers), Some manifest =>
                   match manifest !! serverName with
                   | Some (command, args) =>
                       (name =s "prompt-better") && (servers =s "./.mcp.json") && (command =s rg_Command value)
                       && bool_decide (args = rg_arguments value)
                   | None => false
                   end
               | _, _ => false
               end
    | _, _ => io_ret false
    end.

(** ** Install *)

(** [filepath.Rel]: up from what is left of the base to what is left of the target. *)
Fixpoint strip_common (base target : list string) : list string * list string :=
  match base, target with
  | x :: base', y :: target' => if x =s y then strip_common base' target' else (base, target)
  | _, _ => (base, target)
  end.

Definition path_rel (base target : string) : option string :=
  let base := path_clean base in
  let target := path_clean target in
  if base =s target then Some "."
  else if negb (Bool.eqb (is_abs base) (is_abs target)) then None
  else
    match strip_common (clean_elements (is_abs base) base) (clean_elements (is_abs target) target) with
    | (".." :: _, _) => None
    | (up, down) => Some (str_join "/" (((fun _ => "..") <$> up) ++ down))
    end.

Definition ownedName (home configPath path : string) : string :=
  if (path =s configPath) && negb (path_clean configPath =s path_join home defaultConfigRel) then "config"
  else default "" (path_rel home path).

(** The files, in the order in which the map is ranged over; when both paths are one, the second of
    the literal is kept. *)
Definition install_files (skill_first : bool) (home configPath configData : string) : list (string * string) :=
  let skillPath := path_join home skillRel in
  if configPath =s skillPath then [(skillPath, cd_skill codec)]
  else if skill_first then [(skillPath, cd_skill codec); (configPath, configData)]
  else [(configPath, configData); (skillPath, cd_skill codec)].

(** The states of the files: [None] when one is in the way, or the paths that are missing. *)
Fixpoint check_files (files : list (string * string)) (missing : list string) : Io (option (list string)) :=
  match files with
  | [] => io_ret (Some missing)
  | (path, data) :: files =>
      io! state := fileState path data in
      match state with
      | None | Some Conflict => io_ret None
      | Some Missing => check_files files (missing ++ [path])
      | Some Same => check_files files missing
      end
  end.

Fixpoint write_files (files : list (string * string)) (missing : list string) : Io bool :=
  match files with
  | [] => io_ret true
  | (path, data) :: files =>
      if negb (contains missing path) then write_files files missing
      else
        io! ok := atomicWrite path data in
        if ok then write_files files missing else io_ret false
  end.

Definition manifest_of (home configPath : string) (files : list (string * string)) (expected : registration) : ownershipManifest :=
  mkManifest configVersion serverName (registrationDigest expected)
    (list_to_map ((fun pd => (ownedName home configPath pd.1, digest pd.2)) <$> files)).

Definition with_args (expected : registration) (configPath : string) : registration :=
  mkRegistration (rg_Command expected) (Some (rg_arguments expected ++ ["--config"; configPath])) (rg_Cwd expected).

(** What registers the server, with its check. *)
Definition register (expected : registration) (missing : list string) : Io (option string) :=
  let failed := io! _ := removeNewFiles missing in io_ret (Some "Codex MCP registration failed") in
  io! added := codex (["mcp"; "add"; serverName; "--"; rg_Command expected] ++ rg_arguments expected) in
  if negb added.2 then failed
  else
    io! current := getRegistration in
    match current with
    | Registered r =>
        if sameRegistration r expected then io_ret None
        else io! _ := codex ["mcp"; "remove"; serverName] in failed
    | _ => io! _ := codex ["mcp"; "remove"; serverName] in failed
    end.

(** The changes, once everything is checked. *)
Definition apply_install (written : list (string * string)) (manifestPath manifestData : string) (missing : list string)
    (expected : registration) (unregistered : bool) : Io Verdict :=
  let write_failed := io! _ := removeNewFiles missing in io_ret (Refuses "integration write failed") in
  io! ok := write_files written missing in
  if negb ok then write_failed
  else
    io! ok := (if contains missing manifestPath then atomicWrite manifestPath manifestData else io_ret true) in
    if negb ok then write_failed
    else if unregistered then
      io! failed := register expected missing in
      match failed with
      | Some message => io_ret (Refuses message)
      | None => io_ret (States "applied" "install")
      end
    else io_ret (States "applied" "install").

Definition runInstall (home configPath : string) (config : IntegrationConfig) (expected : registration) (apply : bool)
    : Io Verdict :=
  let expected := with_args expected configPath in
  let files := install_files (ra_check ranges) home configPath (config_text config) in
  let written := install_files (ra_write ranges) home configPath (config_text config) in
  let manifestPath := path_join home manifestRel in
  let manifestData := manifest_text (manifest_of home configPath files expected) in
  io! checked := check_files files [] in
  match checked with
  | None => io_ret (Refuses "source_conflict")
  | Some missing =>
      io! manifestState := fileState manifestPath manifestData in
      match manifestState with
      | None | Some Conflict => io_ret (Refuses "source_conflict")
      | Some state =>
          let missing := match state with Missing => missing ++ [manifestPath] | _ => missing end in
          io! current := getRegistration in
          match current with
          | QueryFailed => io_ret (Refuses "Codex MCP state unavailable")
          | QueryMissing =>
              if negb apply then io_ret (States "preview" "install")
              else apply_install written manifestPath manifestData missing expected true
          | Registered r =>
              io! plugin := isPluginRegistration r in
              if negb (sameRegistration r expected) && negb plugin then io_ret (Refuses "source_conflict")
              else if negb apply then io_ret (States "preview" "install")
              else apply_install written manifestPath manifestData missing expected plugin
          end
      end
  end.

(** ** Uninstall *)

Record stagedOwnedFile := mkStaged { sf_original : string; sf_staged : string }.

(** [stageOwnedFile]: the file is moved aside and read again. *)
Definition stageOwnedFile (path expectedHash : string) : Io (option stagedOwnedFile) :=
  io! temporary := create_temp (path_dir path) ".prompt-better-uninstall-" in
  match temporary with
  | None => io_ret None
  | Some staged =>
      io! ok := quiet in
      if negb ok then io! _ := os_remove staged in io_ret None
      else
        io! ok := os_remove staged in
        if negb ok then io_ret None
        else
          io! ok := os_rename path staged in
          if negb ok then io_ret None
          else
            io! content := readBounded staged in
            let changed := io! _ := os_rename staged path in io_ret None in
            match content with
            | Bytes content => if digest content =s expectedHash then io_ret (Some (mkStaged path staged)) else changed
            | _ => changed
            end
  end.

(** The last one first. *)
Fixpoint restoreStagedFiles (reversed : list stagedOwnedFile) : Io unit :=
  match reversed with
  | [] => io_ret tt
  | file :: reversed => io! _ := os_rename (sf_staged file) (sf_original file) in restoreStagedFiles reversed
  end.

(** The path of a name in a manifest. *)
Definition owned_path (home configPath name : string) : option string :=
  if name =s defaultConfigRel then Some (path_join home defaultConfigRel)
  else if name =s skillRel then Some (path_join home skillRel)
  else if name =s "config" then Some configPath
  else None.

(** The files of the manifest, in the order in which it is ranged over, as they are on the disk. *)
Fixpoint check_owned (home configPath : string) (files : list (string * string)) : Io (option string) :=
  match files with
  | [] => io_ret None
  | (name, expectedHash) :: files =>
      match owned_path home configPath name with
      | None => io_ret (Some "ownership invalid")
      | Some path =>
          io! content := readBounded path in
          match content with
          | Bytes content => if digest content =s expectedHash then check_owned home configPath files else io_ret (Some "source_conflict")
          | _ => io_ret (Some "source_conflict")
          end
      end
  end.

(** [staged] has the files that were moved aside, the last one first. *)
Fixpoint stage_owned (home configPath : string) (files : list (string * string)) (staged : list stagedOwnedFile)
    : Io (option (list stagedOwnedFile)) :=
  match files with
  | [] => io_ret (Some staged)
  | (name, expectedHash) :: files =>
      io! file := stageOwnedFile (default "" (owned_path home configPath name)) expectedHash in
      match file with
      | None => io! _ := restoreStagedFiles staged in io_ret None
      | Some file => stage_owned home configPath files (file :: staged)
      end
  end.

(** The loop that removes what was moved aside, the first one first. *)
Fixpoint remove_staged (staged : list stagedOwnedFile) : Io bool :=
  match staged with
  | [] => io_ret true
  | file :: staged => io! ok := os_remove_if_any (sf_staged file) in if ok then remove_staged staged else io_ret false
  end.

(** The changes, once everything is checked. *)
Definition apply_uninstall (home configPath manifestPath : string) (files : list (string * string)) (registered : bool) : Io Verdict :=
  io! staged := stage_owned home configPath files [] in
  match staged with
  | None => io_ret (Refuses "owned file removal failed")
  | Some staged =>
      io! removed := (if registered then io! gone := codex ["mcp"; "remove"; serverName] in io_ret gone.2 else io_ret true) in
      if negb removed then io! _ := restoreStagedFiles staged in io_ret (Refuses "Codex MCP removal failed")
      else
        io! ok := remove_staged (rev staged) in
        if negb ok then io_ret (Refuses "owned file removal failed")
        else
          io! ok := os_remove_if_any manifestPath in
          io_ret (if ok then States "applied" "uninstall" else Refuses "ownership removal failed")
  end.

Definition manifest_valid (manifest : ownershipManifest) : bool :=
  (om_SchemaVersion manifest =s configVersion) && (om_ServerName manifest =s serverName) && negb (om_RegistrationHash manifest =s "").

Definition runUninstall (home configPath : string) (apply : bool) : Io Verdict :=
  let manifestPath := path_join home manifestRel in
  io! data := readBounded manifestPath in
  match data with
  | BoundedMissing => io_ret (States (if apply then "applied" else "preview") "uninstall_noop")
  | BoundedFailed => io_ret (Refuses "ownership unavailable")
  | Bytes data =>
      match cd_read_manifest codec data with
      | None => io_ret (Refuses "ownership invalid")
      | Some manifest =>
          if negb (manifest_valid manifest) then io_ret (Refuses "ownership invalid")
          else
            io! trouble := check_owned home configPath (ra_owned ranges (om_Files manifest)) in
            match trouble with
            | Some message => io_ret (Refuses message)
            | None =>
                io! current := getRegistration in
                let go registered :=
                  if negb apply then io_ret (States "preview" "uninstall")
                  else apply_uninstall home configPath manifestPath (ra_stage ranges (om_Files manifest)) registered in
                match current with
                | QueryFailed => io_ret (Refuses "Codex MCP state unavailable")
                | QueryMissing => go false
                | Registered r =>
                    if negb (registrationDigest r =s om_RegistrationHash manifest) then io_ret (Refuses "source_conflict") else go true
                end
            end
      end
  end.

(** ** The flags of init *)

(** What [os.Stat] says of a path, links followed. *)
Record StatInfo := mkStatInfo { st_dir : bool; st_regular : bool; st_executable : bool }.

(** The environment of the process. *)
Record Surroundings := mkSurroundings {
  su_stat : string -> option StatInfo;
  su_codex_home : string;
  su_user_home : option string
}.

Definition resolveCodexHome (su : Surroundings) (value : string) : option string :=
  let value := if value =s "" then su_codex_home su else value in
  let value := if value =s "" then (fun home => path_join home ".codex") <$> su_user_home su else Some value in
  match value with
  | Some value => if is_abs value then Some (path_clean value) else None
  | None => None
  end.

Definition regularDirectory (su : Surroundings) (path : string) : option string :=
  if negb (is_abs path) then None
  else match su_stat su (path_clean path) with Some info => if st_dir info then Some (path_clean path) else None | None => None end.

Definition regularFile (su : Surroundings) (path : string) : option string :=
  if negb (is_abs path) then None
  else match su_stat su (path_clean path) with Some info => if st_regular info then Some (path_clean path) else None | None => None end.

(** No kind twice, and only kinds that there are. *)
Fixpoint sources_valid (sources seen : list string) : bool :=
  match sources with
  | [] => true
  | kind :: sources => contains sourceKinds kind && negb (contains seen kind) && sources_valid sources (kind :: seen)
  end.

Definition validateInstall (su : Surroundings) (policyText : string) (sources : list string) (purpose sourceRoot serverBinary : string)
    : result string (IntegrationConfig * registration) :=
  if negb (ValidExecutionPolicy policyText) then Err "invalid execution policy"
  else if (length sources =? 0)%nat || (length sourceKinds <? length sources)%nat then Err "at least one valid source required"
  else if negb (sources_valid sources []) then Err "invalid or duplicate source"
  else if negb (Bool.eqb (contains sources "process") (negb (purpose =s ""))) then Err "process source requires purpose"
  else if Bool.eqb (sourceRoot =s "") (serverBinary =s "") then Err "choose one server mode"
  else
    let! expected :=
      if negb (sourceRoot =s "") then
        match regularDirectory su sourceRoot with
        | None => Err "source checkout unavailable"
        | Some root =>
            match su_stat su (path_join (path_join root "cmd") "prompt-better-mcp") with
            | None => Err "source server unavailable"
            | Some _ => Ok (mkRegistration "go" (Some ["-C"; root; "run"; "./cmd/prompt-better-mcp"]) "")
            end
        end
      else
        match regularFile su serverBinary with
        | None => Err "server binary unavailable"
        | Some binary =>
            match su_stat su binary with
            | Some info => if st_executable info then Ok (mkRegistration binary None "") else Err "server binary is not executable"
            | None => Err "server binary unavailable"
            end
        end in
    Ok (mkIntegrationConfig configVersion policyText (sort_strings sources) purpose false false databaseEnv, expected).

Definition init_flags (name : string) : option FlagKind :=
  if one_of name ["source"; "execution-policy"; "process-purpose"; "codex-home"; "config"; "source-root"; "server-binary"] then Some StringFlag
  else if one_of name ["apply"; "uninstall"] then Some BoolFlag
  else None.

Definition RunInit (su : Surroundings) (args : list string) : Io Verdict :=
  let p := flag_parse init_flags args in
  let text name := flag_string name "" p in
  let sources := flag_list "source" p in
  if negb (pd_ok p) || negb (length (pd_args p) =? 0)%nat then io_ret (Refuses "invalid command flags")
  else match resolveCodexHome su (text "codex-home") with
       | None => io_ret (Refuses "invalid Codex home")
       | Some home =>
           if negb (text "config" =s "") && negb (is_abs (text "config")) then io_ret (Refuses "config path must be absolute")
           else
             let configPath := if text "config" =s "" then path_join home defaultConfigRel else text "config" in
             if flag_bool "uninstall" p then
               if negb (text "execution-policy" =s "") || negb (length sources =? 0)%nat || negb (text "process-purpose" =s "")
                  || negb (text "source-root" =s "") || negb (text "server-binary" =s "")
               then io_ret (Refuses "uninstall flags conflict")
               else runUninstall home configPath (flag_bool "apply" p)
             else match validateInstall su (text "execution-policy") sources (text "process-purpose") (text "source-root") (text "server-binary") with
                  | Err message => io_ret (Refuses message)
                  | Ok (config, expected) => runInstall home configPath config expected (flag_bool "apply" p)
                  end
       end.

(** ** Doctor *)

Definition validateStoredConfig (config : IntegrationConfig) : bool :=
  (ic_SchemaVersion config =s configVersion) && ValidExecutionPolicy (ic_ExecutionPolicy config) && negb (ic_RawPromptRetention config)
  && negb (ic_Telemetry config) && (ic_DatabaseEnv config =s databaseEnv) && negb (length (ic_SourceKinds config) =? 0)%nat
  && sources_valid (ic_SourceKinds config) []
  && Bool.eqb (contains (ic_SourceKinds config) "process") (negb (ic_ProcessPurpose config =s "")).

(** [decode] is the strict decoder: no unknown fields, one value. *)
Definition LoadIntegrationConfig (decode : string -> option IntegrationConfig) (path : string) : Io (result string IntegrationConfig) :=
  io! data := readBounded path in
  io_ret match data with
         | Bytes data =>
             match decode data with
             | Some config => if validateStoredConfig config then Ok config else Err "integration config invalid"
             | None => Err "integration config invalid"
             end
         | _ => Err "integration config unavailable"
         end.

(** [strings.Fields]: [word] has the bytes of the word that was begun. *)
Fixpoint fields_go (word : string) (l : list chunk) : list string :=
  match l with
  | [] => if word =s "" then [] else [word]
  | ch :: l => if is_space ch.1 then (if word =s "" then [] else [word]) ++ fields_go "" l else fields_go (word +:+ ch.2) l
  end.

Definition Fields (s : string) : list string := fields_go "" (chunks s).

(** What [go version] prints is of Go 1.25.12 or later; [Atoi] reads as [ParseInt] does. *)
Definition supportedGoVersion (output : string) : bool :=
  match Fields output with
  | _ :: _ :: third :: _ =>
      if negb (has_prefix "go" third) then false
      else match split_on "." (trim_prefix "go" third) with
           | major :: minor :: patch :: _ =>
               match Evidence.ParseInt major, Evidence.ParseInt minor, Evidence.ParseInt patch with
               | Some major, Some minor, Some patch =>
                   (1 <? major)%Z || ((major =? 1)%Z && ((25 <? minor)%Z || ((minor =? 25)%Z && (12 <=? patch)%Z)))
               | _, _, _ => false
               end
           | _ => false
           end
  | _ => false
  end.

(** What starting a server meets: whether there is a [go], what [go version] prints, whether a directory
    can be made and the server of a checkout built into it, and the tools that a command lists. *)
Record Probe := mkProbe {
  pr_go : bool;
  pr_version : option string;
  pr_temporary : option string;
  pr_builds : string -> string -> bool;
  pr_tools : string -> list string -> string -> option (list string)
}.

Definition required_tools : list string :=
  ["improve_prompt"; "create_goal_prompt"; "create_review_fix_prompt"; "lint_prompt"; "get_checkpoint"; "audit_session";
   "audit_project"; "render_governance_report"].

(** The command that is started: of a checkout, the server that was built from it. *)
Definition probe_command (su : Surroundings) (probe : Probe) (value : registration) : option (string * list string) :=
  if rg_Command value =s "go" then
    match rg_arguments value with
    | "-C" :: root :: "run" :: "./cmd/prompt-better-mcp" :: rest =>
        if negb (pr_go probe) then None
        else match regularDirectory su root, su_stat su (path_join (path_join root "cmd") "prompt-better-mcp"), pr_version probe, pr_temporary probe with
             | Some _, Some info, Some version, Some temporary =>
                 let command := path_join temporary "prompt-better-mcp" in
                 if st_dir info && supportedGoVersion version && pr_builds probe root command then Some (command, rest) else None
             | _, _, _, _ => None
             end
    | _ => None
    end
  else
    match regularFile su (rg_Command value) with
    | Some path => match su_stat su path with
                   | Some info => if st_executable info then Some (path, rg_arguments value) else None
                   | None => None
                   end
    | None => None
    end.

Definition serverReadiness (su : Surroundings) (probe : Probe) (value : registration) : string :=
  match probe_command su probe value with
  | None => "unavailable"
  | Some (command, args) =>
      match pr_tools probe command args (rg_Cwd value) with
      | Some tools => if (length tools =? 8)%nat && forallb (contains tools) required_tools then "ready" else "unavailable"
      | None => "unavailable"
      end
  end.

Record doctorCheck := mkDoctorCheck { dc_Name : string; dc_State : string }.

Definition platformState (goos : string) : string := if one_of goos ["darwin"; "linux"; "windows"] then "supported" else "unknown".

(** The database behind [PROMPT_BETTER_DATABASE_URL]: whether it is set, opens, is ready, has the
    collectors of some kinds, and the problems it reports. *)
Record Database := mkDatabase {
  db_configured : bool;
  db_opens : bool;
  db_ready : bool;
  db_problems : list string;
  db_collectors : list string -> option bool
}.

(** The states of the database and of the collectors. *)
Definition database_checks (database : Database) (configState : string) (kinds : list string) : string * string :=
  let '(databaseState, collectorState) :=
    if negb (db_configured database) then ("not_configured", "unknown")
    else if negb (db_opens database) then ("unavailable", "unknown")
    else if db_ready database then
      ("ready", if configState =s "ready" then match db_collectors database kinds with Some true => "ready" | _ => "missing" end else "unknown")
    else if contains (db_problems database) "schema_version_mismatch_backup_reset_required" then ("reset_required", "unknown")
    else ("unavailable", "unknown") in
  (databaseState, if (configState =s "ready") && (collectorState =s "unknown") then "missing" else collectorState).

Definition doctorChecks (su : Surroundings) (goos : string) (database : Database) (probe : Probe) (home configPath : string) : Io (list doctorCheck) :=
  io! configData := readBounded configPath in
  let config := match configData with Bytes data => cd_read_config codec data | _ => None end in
  let configState := match configData with
                     | Bytes _ => match config with
                                  | Some config => if validateStoredConfig config then "ready" else "invalid"
                                  | None => "invalid"
                                  end
                     | BoundedMissing => "missing"
                     | BoundedFailed => "unavailable"
                     end in
  io! manifestData := readBounded (path_join home manifestRel) in
  let manifest := match manifestData with Bytes data => cd_read_manifest codec data | _ => None end in
  io! ownership :=
    match manifestData with
    | Bytes _ =>
        match manifest with
        | Some manifest =>
            if manifest_valid manifest then
              io! skillData := readBounded (path_join home skillRel) in
              io_ret ("ready", match skillData with
                               | Bytes data => if digest data =s default "" (om_Files manifest !! skillRel) then "ready" else "modified_or_missing"
                               | _ => "modified_or_missing"
                               end)
            else io_ret ("invalid", "unknown")
        | None => io_ret ("invalid", "unknown")
        end
    | _ => io_ret ("missing", "unknown")
    end in
  let '(manifestState, skillState) := ownership in
  io! current := getRegistration in
  let registrationState := match current with
                           | Registered r =>
                               match manifest with
                               | Some manifest => if registrationDigest r =s om_RegistrationHash manifest then "ready" else "present"
                               | None => "present"
                               end
                           | QueryFailed => "unknown"
                           | QueryMissing => "missing"
                           end in
  let serverState := match current with Registered r => if registrationState =s "ready" then serverReadiness su probe r else "unknown" | _ => "unknown" end in
  let '(databaseState, collectorState) :=
    database_checks database configState (match config with Some config => ic_SourceKinds config | None => [] end) in
  io_ret [mkDoctorCheck "platform" (platformState goos); mkDoctorCheck "config" configState; mkDoctorCheck "ownership" manifestState;
          mkDoctorCheck "skill" skillState; mkDoctorCheck "mcp_registration" registrationState; mkDoctorCheck "server" serverState;
          mkDoctorCheck "database" databaseState; mkDoctorCheck "collectors" collectorState; mkDoctorCheck "host_capabilities" "unknown"].

Definition check_ready (check : doctorCheck) : bool :=
  if dc_Name check =s "platform" then dc_State check =s "supported"
  else if dc_Name check =s "host_capabilities" then true
  else dc_State check =s "ready".

Definition allReady (checks : list doctorCheck) : bool := forallb check_ready checks.

Definition doctor_flags (name : string) : option FlagKind :=
  if one_of name ["format"; "codex-home"; "config"] then Some StringFlag else None.

Definition check_line (check : doctorCheck) : string := dc_Name check +:+ ": " +:+ dc_State check +:+ LF.

Definition check_json (check : doctorCheck) : string :=
  json_object [json_field "name" (json_string (dc_Name check)); json_field "state" (json_string (dc_State check))].

Definition checks_json (checks : list doctorCheck) : string :=
  json_object [json_field "ready" (bool_text (allReady checks)); json_field "checks" (json_array (check_json <$> checks))] +:+ LF.

(** The writes of [RunDoctor] to its output, and its code when all of them succeed; or what it
    refuses with. *)
Definition RunDoctor (su : Surroundings) (goos : string) (database : Database) (probe : Probe) (args : list string)
    : Io (list string * Z + Verdict) :=
  let p := flag_parse doctor_flags args in
  let format := flag_string "format" "text" p in
  if negb (pd_ok p) || negb (length (pd_args p) =? 0)%nat || negb (one_of format ["text"; "json"]) then io_ret (inr (Refuses "invalid command flags"))
  else match resolveCodexHome su (flag_string "codex-home" "" p) with
       | None => io_ret (inr (Refuses "invalid Codex home"))
       | Some home =>
           let config := flag_string "config" "" p in
           if negb (config =s "") && negb (is_abs config) then io_ret (inr (Refuses "config path must be absolute"))
           else
             io! checks := doctorChecks su goos database probe home (if config =s "" then path_join home defaultConfigRel else config) in
             io_ret (inl (if format =s "json" then [checks_json checks] else check_line <$> checks,
                          if allReady checks then 0%Z else 1%Z))
       end.

(** ** Codex behind its interface *)

(** What [codex mcp] documents, [registered c] being the server that it would start, and [base c] the
    one that a plugin provides: [get] prints what is registered and changes nothing, and [remove]
    takes away what was added. *)
Class LawfulCodex (registered base : C -> option registration) : Prop := {
  codex_get : forall c data document r c',
    run ["mcp"; "get"; serverName; "--json"] c = ((data, true), c') ->
    cd_read_document codec data = Some document -> document_registration document = Registered r -> registered c = Some r;
  codex_missing : forall c data c',
    run ["mcp"; "get"; serverName; "--json"] c = ((data, false), c') ->
    str_contains "not found" (to_lower data) || str_contains "no mcp" (to_lower data) = true -> registered c = None;
  codex_get_same : forall c answer c',
    run ["mcp"; "get"; serverName; "--json"] c = (answer, c') -> registered c' = registered c /\ base c' = base c;
  codex_add_base : forall c command args answer c',
    run (["mcp"; "add"; serverName; "--"; command] ++ args) c = (answer, c') -> base c' = base c;
  codex_remove : forall c out ok c',
    run ["mcp"; "remove"; serverName] c = ((out, ok), c') -> base c' = base c /\ (ok = true -> registered c' = base c)
}.
End Setup.
