(* ===== verification/Installed.v ===== *)
(** * Theorems about setup

    What an installation and its removal do to the files and to Codex, whatever operation fails. *)
From Stdlib Require Import Ascii.
From S2P Require Import Contracts GoString GoInt GoFmt Utf8 Unicode GoPath Policy Textutil GoFlag Setup.

(** ** Paths below a directory *)

Lemma split_on_both c s t : split_on c (s +:+ String c t) = split_on c s ++ split_on c t.
Proof.
  induction s as [|a s IH]; [by rewrite str_app_nil_l; cbn [split_on]; rewrite Ascii.eqb_refl|].
  rewrite str_app_cons. cbn [split_on]. destruct (Ascii.eqb a c); rewrite IH; [done|].
  by destruct (split_on_cons c s) as (x & l & ->).
Qed.

Lemma clean_plain_rooted names : Forall plain names -> clean_elements true ("/" +:+ str_join "/" names) = names.
Proof.
  intros Hn. unfold clean_elements. change ("/" +:+ str_join "/" names) with ("" +:+ String slash (str_join "/" names)).
  rewrite split_on_both. cbn [split_on app foldl].
  destruct (decide (str_join "/" names = "")) as [E|E].
  - apply join_empty in E; [|done]. by subst.
  - rewrite split_confined by done. cbn [foldl]. unfold clean_step at 2. rewrite bool_decide_eq_true_2 by done. cbn [orb].
    rewrite plain_step by done. by rewrite app_nil_r, rev_involutive.
Qed.

Lemma clean_rooted names : Forall plain names -> path_clean ("/" +:+ str_join "/" names) = "/" +:+ str_join "/" names.
Proof. intros Hn. unfold path_clean. change (is_abs ("/" +:+ str_join "/" names)) with true. cbn iota. by rewrite clean_plain_rooted. Qed.

Lemma rooted_inj l1 l2 : Forall plain l1 -> Forall plain l2 -> "/" +:+ str_join "/" l1 = "/" +:+ str_join "/" l2 -> l1 = l2.
Proof. intros H1 H2 H. rewrite <- (clean_plain_rooted l1), <- (clean_plain_rooted l2) by done. by rewrite H. Qed.

Lemma clean_elements_below home names :
  is_abs home = true -> Forall plain names -> names <> [] ->
  clean_elements true (home +:+ "/" +:+ str_join "/" names) = clean_elements true home ++ names.
Proof.
  intros Ha Hn Hne. unfold clean_elements. change ("/" +:+ str_join "/" names) with (String slash (str_join "/" names)).
  rewrite split_on_both, foldl_app, split_confined; [|done|by intros E%join_empty].
  by rewrite plain_step, rev_app_distr, rev_involutive.
Qed.

Lemma strip_common_prefix l1 l2 : strip_common l1 (l1 ++ l2) = ([], l2).
Proof. induction l1 as [|x l1 IH]; cbn; [by destruct l2|]. by rewrite str_eqb_refl. Qed.

Lemma path_join_below home names E :
  is_abs home = true -> Forall plain names -> names <> [] -> clean_elements true home = E ->
  path_join home (str_join "/" names) = "/" +:+ str_join "/" (E ++ names).
Proof.
  intros Ha Hn Hne HE. unfold path_join. rewrite bool_decide_eq_false_2 by by intros ->. unfold path_clean.
  replace (is_abs (home +:+ "/" +:+ str_join "/" names)) with true by (symmetry; unfold is_abs in *; destruct home; [done|]; exact Ha).
  cbn iota. by rewrite clean_elements_below, HE.
Qed.

(** [filepath.Rel] undoes [filepath.Join]. *)
Lemma path_rel_join home names :
  is_abs home = true -> Forall plain names -> names <> [] ->
  path_rel home (path_join home (str_join "/" names)) = Some (str_join "/" names).
Proof.
  intros Ha Hn Hne. destruct (clean_elements_ok true home) as (E & ups & HE & Hp & Hups). rewrite (Hups eq_refl) in HE. cbn in HE.
  assert (Forall plain (E ++ names)) as Hp' by by apply Forall_app.
  rewrite (path_join_below home names E) by done.
  unfold path_rel. assert (path_clean home = "/" +:+ str_join "/" E) as ->.
  { unfold path_clean. rewrite Ha. by rewrite HE. }
  rewrite (clean_rooted (E ++ names)) by done.
  destruct (_ =s _) eqn:Es.
  { apply str_eqb_eq, rooted_inj in Es; [|done..]. exfalso. apply Hne. apply (f_equal length) in Es. rewrite length_app in Es. destruct names; [done|]. cbn in Es. lia. }
  change (is_abs ("/" +:+ str_join "/" E)) with true. change (is_abs ("/" +:+ str_join "/" (E ++ names))) with true. cbn [Bool.eqb negb].
  rewrite !clean_plain_rooted by done. by rewrite strip_common_prefix.
Qed.

Lemma path_rel_ext base target target' : path_clean target = path_clean target' -> path_rel base target = path_rel base target'.
Proof. intros H. unfold path_rel. by rewrite H. Qed.

Lemma join_plain_clean home names :
  is_abs home = true -> Forall plain names -> names <> [] -> path_clean (path_join home (str_join "/" names)) = path_join home (str_join "/" names).
Proof.
  intros Ha Hn Hne. destruct (clean_elements_ok true home) as (E & ups & HE & Hp & Hups). rewrite (Hups eq_refl) in HE. cbn in HE.
  rewrite (path_join_below home names E) by done. apply clean_rooted. by apply Forall_app.
Qed.

Section Installed.
Context {C : Type} (run : list string -> C -> (string * bool) * C) (fate : Fate) (place : string -> string) (codec : Codec)
  (ranges : Ranges).

Abbreviation Io := (@Setup.Io C) (only parsing).

(** ** Reasoning about a sequence of operations *)

Definition wp {A} (c : Io A) (Q : A -> Machine C -> Prop) (m : Machine C) : Prop := Q (c m).1 (c m).2.

Lemma wp_ret {A} (x : A) Q m : Q x m -> wp (io_ret x) Q m.
Proof. done. Qed.

Lemma wp_bind {A B} (c : Io A) (k : A -> Io B) Q m : wp c (fun x => wp (k x) Q) m -> wp (io_bind c k) Q m.
Proof. unfold wp, io_bind. by destruct (c m). Qed.

Lemma wp_mono {A} (c : Io A) (P Q : A -> Machine C -> Prop) m : (forall x m', P x m' -> Q x m') -> wp c P m -> wp c Q m.
Proof. unfold wp. eauto. Qed.

Lemma wp_use {A} (c : Io A) Q m x m' : wp c Q m -> c m = (x, m') -> Q x m'.
Proof. unfold wp. intros H E. by rewrite E in H. Qed.

(** The files and the state of Codex are what they were. *)
Definition untouched (m m' : Machine C) : Prop := ma_tree m' = ma_tree m /\ ma_codex m' = ma_codex m.

Lemma untouched_refl m : untouched m m.
Proof. done. Qed.

Lemma untouched_trans m1 m2 m3 : untouched m1 m2 -> untouched m2 m3 -> untouched m1 m3.
Proof. intros [H1 H2] [H3 H4]. split; congruence. Qed.

Lemma untouched_stepped m : untouched m (stepped m (ma_tree m)).
Proof. done. Qed.

#[local] Hint Resolve untouched_refl untouched_stepped : core.

Definition loose : Prop := forall n, fa_stuck fate n = false.

Lemma wp_quiet Q m : (forall ok, Q ok (stepped m (ma_tree m))) -> wp (quiet fate) Q m.
Proof. intros H. unfold wp, quiet, attempt. case_goal; apply H. Qed.

Lemma wp_lstat path Q m :
  Q LookFailed (stepped m (ma_tree m)) ->
  Q (match ma_tree m !! place path with Some e => Found e | None => LookMissing end) (stepped m (ma_tree m)) ->
  wp (lstat fate place path) Q m.
Proof. intros H1 H2. unfold wp, lstat. cbn [fst snd]. by destruct (fa_fails _ _). Qed.

Lemma wp_remove path Q m :
  (is_Some (ma_tree m !! place path) -> Q true (stepped m (delete (place path) (ma_tree m)))) ->
  ((loose -> ma_tree m !! place path = None) -> Q false (stepped m (ma_tree m))) ->
  wp (os_remove fate place path) Q m.
Proof.
  intros H1 H2. unfold wp, os_remove, attempt. destruct (fa_stuck _ _) eqn:Es.
  - apply H2. intros Hl. by rewrite Hl in Es.
  - destruct (_ !! _) eqn:E; [apply H1; eauto|by apply H2].
Qed.

Lemma wp_remove_if_any path Q m :
  Q true (stepped m (delete (place path) (ma_tree m))) -> (~ loose -> Q false (stepped m (ma_tree m))) ->
  wp (os_remove_if_any fate place path) Q m.
Proof.
  intros H1 H2. unfold wp, os_remove_if_any, attempt. destruct (fa_stuck _ _) eqn:Es; [|done].
  apply H2. intros Hl. by rewrite Hl in Es.
Qed.

Lemma wp_rename from to Q m :
  (forall e, ma_tree m !! place from = Some e -> Q true (stepped m (<[place to := e]> (delete (place from) (ma_tree m))))) ->
  ((loose -> ma_tree m !! place from = None) -> Q false (stepped m (ma_tree m))) ->
  wp (os_rename fate place from to) Q m.
Proof.
  intros H1 H2. unfold wp, os_rename, attempt. destruct (fa_stuck _ _) eqn:Es.
  - apply H2. intros Hl. by rewrite Hl in Es.
  - destruct (_ !! _) eqn:E; [by apply H1|by apply H2].
Qed.

Lemma wp_link from to Q m :
  (forall e, ma_tree m !! place from = Some e -> ma_tree m !! place to = None -> Q true (stepped m (<[place to := e]> (ma_tree m)))) ->
  Q false (stepped m (ma_tree m)) ->
  wp (os_link fate place from to) Q m.
Proof.
  intros H1 H2. unfold wp, os_link, attempt. destruct (fa_fails _ _); [done|].
  destruct (ma_tree m !! place from) eqn:E1; [|done]. destruct (ma_tree m !! place to) eqn:E2; [done|]. by apply H1.
Qed.

Lemma wp_create_temp dir pattern Q m :
  Q None (stepped m (ma_tree m)) ->
  (forall name, ma_tree m !! place name = None -> Q (Some name) (stepped m (<[place name := mkEntry "" true true]> (ma_tree m)))) ->
  wp (create_temp fate place dir pattern) Q m.
Proof.
  intros H1 H2. unfold wp, create_temp. destruct (fa_fails _ _); [done|]. case_goal; [done|]. by apply H2.
Qed.

Lemma wp_write path data Q m :
  (forall torn, Q false (stepped m (alter (with_data torn) (place path) (ma_tree m)))) ->
  Q true (stepped m (alter (with_data data) (place path) (ma_tree m))) ->
  wp (write_bytes fate place path data) Q m.
Proof. intros H1 H2. unfold wp, write_bytes. destruct (fa_fails _ _); [apply H1|done]. Qed.

Arguments wp : simpl never.

(** A test of the code: its branches. *)
Lemma wp_if {A} (b : bool) (c1 c2 : Io A) Q m :
  (b = true -> wp c1 Q m) -> (b = false -> wp c2 Q m) -> wp (if b then c1 else c2) Q m.
Proof. destruct b; eauto. Qed.

(** ** Reading *)

Lemma readBounded_spec path m :
  wp (readBounded fate place path) (fun r m' => untouched m m' /\ match r with
    | Bytes data => exists e, ma_tree m !! place path = Some e /\ en_regular e = true /\ en_data e = data /\ (str_len data <= maxFileBytes)%Z
    | BoundedMissing => ma_tree m !! place path = None
    | BoundedFailed => True
    end) m.
Proof.
  unfold readBounded. apply wp_bind, wp_lstat; [by apply wp_ret|].
  destruct (ma_tree m !! place path) as [e|] eqn:E; [|by apply wp_ret].
  apply wp_if; intros Hb; [by apply wp_ret|]. bool_facts.
  apply wp_bind, wp_quiet. intros [|]; apply wp_ret; [|done]. split; [done|]. eauto 10.
Qed.

Lemma fileState_spec path expected m :
  wp (fileState fate place path expected) (fun r m' => untouched m m' /\ match r with
    | Some Missing => ma_tree m !! place path = None
    | Some Same => ma_tree m !! place path = Some (mkEntry expected true true)
    | _ => True
    end) m.
Proof.
  unfold fileState. apply wp_bind, wp_lstat; [by apply wp_ret|].
  destruct (ma_tree m !! place path) as [e|] eqn:E; [|by apply wp_ret].
  apply wp_if; intros Hb; [by apply wp_ret|].
  apply wp_bind. eapply wp_mono; [|apply readBounded_spec]. cbn. intros r m' [Hu Hr].
  destruct r; apply wp_ret; split; try done; try by eapply untouched_trans.
  destruct Hr as (e' & He & Hreg & <- & _). rewrite E in He. injection He as <-.
  destruct (_ =s _) eqn:Ed; [|done]. apply str_eqb_eq in Ed. subst. destruct e as [d r p]. cbn in *. subst.
  by destruct p.
Qed.

(** ** Writing *)

Definition written (data : string) : Entry := mkEntry data true true.

Lemma alter_insert_data (tree : gmap string Entry) p data e : alter (with_data data) p (<[p := e]> tree) = <[p := with_data data e]> tree.
Proof. apply map_eq. intros q. destruct (decide (p = q)) as [->|]; simplify_map_eq; done. Qed.

(** What is on the disk once there is a temporary file at [tp], before it is removed. *)
Definition halfway (tree : gmap string Entry) (tp p : string) (data : string) (t : gmap string Entry) : Prop :=
  (exists e, t = <[tp := e]> tree) \/
  (p <> tp /\ tree !! p = None /\ (t = <[p := written data]> tree \/ exists e, t = <[tp := e]> (<[p := written data]> tree))).

Lemma atomic_steps_spec temporary path data m tree :
  tree !! place temporary = None -> ma_tree m = <[place temporary := mkEntry "" true true]> tree ->
  wp (atomic_steps fate place temporary path data) (fun ok m' =>
    ma_codex m' = ma_codex m /\ halfway tree (place temporary) (place path) data (ma_tree m') /\
    (ok = true -> place path <> place temporary /\ tree !! place path = None /\ ma_tree m' = <[place path := written data]> tree)) m.
Proof.
  intros Hfresh Hm. set (tp := place temporary) in *. set (p := place path).
  assert (forall e m', ma_codex m' = ma_codex m -> ma_tree m' = <[tp := e]> tree ->
    ma_codex m' = ma_codex m /\ halfway tree tp p data (ma_tree m') /\
    (false = true -> p <> tp /\ tree !! p = None /\ ma_tree m' = <[p := written data]> tree)) as Hno.
  { intros e m' Hc Ht. split_and!; [done| |done]. left. eauto. }
  unfold atomic_steps. apply wp_bind, wp_quiet. intros [|]; [|by eapply wp_ret, Hno]. cbn [negb].
  apply wp_bind, wp_write; [intros torn|]; cbn [negb stepped ma_tree]; rewrite Hm, alter_insert_data;
    [by eapply wp_ret, Hno|].
  do 2 (apply wp_bind, wp_quiet; intros [|]; [|by eapply wp_ret, Hno]; cbn [negb]).
  apply wp_bind, wp_link; cbn [stepped ma_tree]; [|by eapply wp_ret, Hno].
  fold tp p. intros e He Hp. rewrite lookup_insert_eq in He. injection He as <-. cbn [negb].
  assert (p <> tp) as Hne by (intros Heq; rewrite Heq, lookup_insert_eq in Hp; done).
  rewrite lookup_insert_ne in Hp by done.
  apply wp_bind, wp_remove; cbn [stepped ma_tree]; fold tp.
  2:{ intros _. apply wp_ret. split_and!; [done| |done]. right. split_and!; [done..|]. right.
      eexists. by apply insert_insert_ne. }
  intros _. cbn [negb].
  assert (delete tp (<[p:=written data]> (<[tp:=with_data data (mkEntry "" true true)]> tree)) = <[p := written data]> tree) as Ht.
  { rewrite delete_insert_ne by done. by rewrite delete_insert_id. }
  change (with_data data {| en_data := ""; en_regular := true; en_private := true |}) with (written data) in *.
  assert (forall ok m', ma_codex m' = ma_codex m -> ma_tree m' = <[p := written data]> tree ->
    ma_codex m' = ma_codex m /\ halfway tree tp p data (ma_tree m') /\
    (ok = true -> p <> tp /\ tree !! p = None /\ ma_tree m' = <[p := written data]> tree)) as Hyes.
  { intros ok m' Hc Hm'. split_and!; [done| |done]. right. split_and!; [done..|]. by left. }
  apply wp_bind, wp_quiet. intros [|]; [|by apply wp_ret, Hyes]. apply wp_quiet. intros ok. by apply Hyes.
Qed.
(** The deferred removal of the temporary file. *)
Lemma halfway_removed tree tp p data t :
  tree !! tp = None -> halfway tree tp p data t ->
  delete tp t = tree \/ (tree !! p = None /\ delete tp t = <[p := written data]> tree).
Proof.
  intros Hf [[e ->]|(Hne & Hp & [->|[e ->]])].
  - left. by rewrite delete_insert_id.
  - right. split; [done|]. rewrite delete_insert_ne by done. by rewrite delete_id.
  - right. split; [done|]. rewrite delete_insert_id; [done|]. by rewrite lookup_insert_ne.
Qed.

Lemma halfway_keeps tree tp p data t : tree !! tp = None -> halfway tree tp p data t -> tree ⊆ t.
Proof.
  intros Hf [[e ->]|(Hne & Hp & [->|[e ->]])]; [by apply insert_subseteq..|].
  etrans; [by apply insert_subseteq|]. apply insert_subseteq. by rewrite lookup_insert_ne.
Qed.

(** What [atomicWrite] makes of the files. *)
Lemma atomicWrite_spec path data m :
  wp (atomicWrite fate place path data) (fun ok m' =>
    ma_codex m' = ma_codex m /\ ma_tree m ⊆ ma_tree m' /\
    (ok = true -> ma_tree m !! place path = None /\ ma_tree m' = <[place path := written data]> (ma_tree m)) /\
    (loose -> ma_tree m' = ma_tree m \/
       (ma_tree m !! place path = None /\ ma_tree m' = <[place path := written data]> (ma_tree m)))) m.
Proof.
  unfold atomicWrite. apply wp_bind, wp_quiet. intros [|]; [|apply wp_ret; naive_solver]. cbn [negb].
  apply wp_bind, wp_create_temp; [apply wp_ret; cbn; naive_solver|].
  cbn [stepped ma_tree]. intros temporary Hfresh. set (tp := place temporary) in *.
  apply wp_bind. eapply wp_mono; [|eapply (atomic_steps_spec temporary path data _ (ma_tree m)); [done|done]].
  cbn [stepped ma_codex]. intros ok m' (Hc & Hh & Hok). apply wp_bind, wp_remove_if_any; [|intros Hs]; apply wp_ret; cbn [stepped ma_codex ma_tree].
  - pose proof (halfway_removed _ _ _ _ _ Hfresh Hh) as Hd. fold tp. split_and!; [done| | |intros _; exact Hd].
    + destruct Hd as [->|[Hp ->]]; [done|]. by apply insert_subseteq.
    + intros (Hne & Hp & ->)%Hok. split; [done|]. rewrite delete_insert_ne by done. by rewrite delete_id.
  - split_and!; [done|by eapply halfway_keeps|naive_solver|done].
Qed.

(** ** The files of an installation *)

(** [t] differs from [t0] at the places of some paths only. *)
Definition only_at (paths : list string) (t0 t : gmap string Entry) : Prop :=
  forall q, q ∉ place <$> paths -> t !! q = t0 !! q.

Lemma only_at_insert paths t0 t path data :
  path ∈ paths -> only_at paths t0 t -> only_at paths t0 (<[place path := written data]> t).
Proof.
  intros Hin Ho q Hq. rewrite lookup_insert_ne; [by apply Ho|]. intros <-. apply Hq. by apply list_elem_of_fmap_2.
Qed.

Lemma check_files_spec files missing m :
  wp (check_files fate place files missing) (fun r m' => untouched m m' /\ match r with
    | Some missing' =>
        (forall path, path ∈ missing' -> path ∈ missing \/ (path ∈ files.*1 /\ ma_tree m !! place path = None)) /\
        (forall path, path ∈ missing -> path ∈ missing') /\
        (forall path data, (path, data) ∈ files -> path ∈ missing' \/ ma_tree m !! place path = Some (written data))
    | None => True
    end) m.
Proof.
  revert missing m. induction files as [|[path data] files IH]; intros missing m; cbn [check_files].
  { apply wp_ret. split; [done|]. split_and!; [by left|done|]. intros p d Hin. by apply elem_of_nil in Hin. }
  apply wp_bind. eapply wp_mono; [|apply fileState_spec]. cbn. intros state m1 [Hu1 Hst]. destruct (Hu1) as [Ht Hc].
  destruct state as [[| |]|]; try by apply wp_ret.
  - eapply wp_mono; [|apply IH]. cbn. rewrite Ht. intros r m' [Hu Hr]. split; [exact (untouched_trans _ _ _ Hu1 Hu)|].
    destruct r as [missing'|]; [|done]. destruct Hr as (H1 & H2 & H3). split_and!.
    + intros q Hq%H1. rewrite elem_of_app, list_elem_of_singleton in Hq. rewrite elem_of_cons. naive_solver.
    + intros q Hq. apply H2. set_solver.
    + intros q d [[= -> ->]|Hin]%elem_of_cons; [|by apply H3]. left. apply H2. set_solver.
  - eapply wp_mono; [|apply IH]. cbn. rewrite Ht. intros r m' [Hu Hr]. split; [exact (untouched_trans _ _ _ Hu1 Hu)|].
    destruct r as [missing'|]; [|done]. destruct Hr as (H1 & H2 & H3). split_and!; [|done|].
    + intros q Hq%H1. rewrite elem_of_cons. naive_solver.
    + intros q d [[= -> ->]|Hin]%elem_of_cons; [by right|by apply H3].
Qed.

(** While the files are written from [t0]. *)
Record writing (missing : list string) (t0 t : gmap string Entry) : Prop := {
  wr_keeps : t0 ⊆ t;
  wr_only : loose -> only_at missing t0 t
}.

Lemma write_one missing t0 path data m :
  writing missing t0 (ma_tree m) -> path ∈ missing ->
  wp (atomicWrite fate place path data) (fun ok m' =>
    ma_codex m' = ma_codex m /\ writing missing t0 (ma_tree m') /\ ma_tree m ⊆ ma_tree m' /\
    (ok = true -> ma_tree m' = <[place path := written data]> (ma_tree m))) m.
Proof.
  intros [Hk Ho] Hin. eapply wp_mono; [|apply atomicWrite_spec]. cbn. intros ok m' (Hc & Hs & Hok & Hl).
  split_and!; [done| |done|naive_solver]. split; [by etrans|]. intros Hloose.
  destruct (Hl Hloose) as [->|[_ ->]]; [by apply Ho|]. apply only_at_insert; [done|by apply Ho].
Qed.

Lemma write_files_spec missing t0 files m :
  writing missing t0 (ma_tree m) ->
  wp (write_files fate place files missing) (fun ok m' =>
    ma_codex m' = ma_codex m /\ writing missing t0 (ma_tree m') /\ ma_tree m ⊆ ma_tree m' /\
    (ok = true -> only_at missing (ma_tree m) (ma_tree m') /\
       forall path data, (path, data) ∈ files -> path ∈ missing -> ma_tree m' !! place path = Some (written data))) m.
Proof.
  revert m. induction files as [|[path data] files IH]; intros m Hw; cbn [write_files].
  { apply wp_ret. split_and!; [done..|]. intros _. split; [by intros q|]. intros p d Hin. by apply elem_of_nil in Hin. }
  apply wp_if; intros Hb; bool_facts.
  { eapply wp_mono; [|by apply IH]. cbn. intros ok m' (H1 & H2 & H3 & H4). split_and!; [done..|].
    intros [Ho Hf]%H4. split; [done|]. intros q d [[= -> ->]|Hin]%elem_of_cons Hq; [|by eapply Hf].
    apply contains_spec in Hq. congruence. }
  apply contains_spec in Hb. apply wp_bind. eapply wp_mono; [|by apply write_one]. cbn. intros [|] m1 (Hc & Hw1 & Hs1 & Hok).
  2:{ apply wp_ret. by split_and!. }
  specialize (Hok eq_refl). eapply wp_mono; [|by apply IH]. cbn. intros ok m' (H1 & H2 & H3 & H4).
  split_and!; [congruence|done|by etrans|]. intros [Ho Hf]%H4. split.
  - intros q Hq. rewrite Ho by done. rewrite Hok. apply lookup_insert_ne. intros <-. apply Hq. by apply list_elem_of_fmap_2.
  - intros q d [[= -> ->]|Hin]%elem_of_cons Hq; [|by eapply Hf]. eapply lookup_weaken; [|exact H3]. rewrite Hok. apply lookup_insert_eq.
Qed.

Context (Hranges : fair ranges).

Lemma remove_each_spec t0 paths m :
  t0 ⊆ ma_tree m -> (forall path, path ∈ paths -> t0 !! place path = None) ->
  wp (remove_each fate place paths) (fun _ m' =>
    ma_codex m' = ma_codex m /\ t0 ⊆ ma_tree m' /\
    (loose -> only_at paths (ma_tree m) (ma_tree m') /\ forall path, path ∈ paths -> ma_tree m' !! place path = None)) m.
Proof.
  revert m. induction paths as [|path paths IH]; intros m Hk Hn; cbn [remove_each].
  { apply wp_ret. split_and!; [done..|]. intros _. split; [by intros q|]. intros p Hp. by apply elem_of_nil in Hp. }
  assert (forall q, q ∈ paths -> t0 !! place q = None) as Hn' by (intros q Hq; apply Hn; by right).
  assert (t0 !! place path = None) as Hp by (apply Hn; by left).
  apply wp_bind, wp_remove.
  - intros _. eapply wp_mono; [|apply IH; [|done]]; cbn [stepped ma_tree ma_codex].
    2:{ apply map_subseteq_spec. intros q e Hq. rewrite lookup_delete_ne; [by eapply lookup_weaken|]. intros <-. congruence. }
    intros _ m' (Hc & Hs & Hl). split_and!; [done..|]. intros [Ho Hg]%Hl. split.
    + intros q Hq. rewrite Ho by (intros H; apply Hq; cbn; by right). rewrite lookup_delete_ne; [done|]. intros <-. apply Hq. by left.
    + intros q [->|Hq]%elem_of_cons; [|by apply Hg]. destruct (decide (place path ∈ place <$> paths)) as [(q & Hpq & Hq)%list_elem_of_fmap|Hq].
      * rewrite Hpq. by apply Hg.
      * rewrite Ho by done. apply lookup_delete_eq.
  - intros Hgone. eapply wp_mono; [|by apply IH]. cbn [stepped ma_tree ma_codex].
    intros _ m' (Hc & Hs & Hl). split_and!; [done..|]. intros Hloose. destruct (Hl Hloose) as [Ho Hg]. split.
    + intros q Hq. apply Ho. intros H. apply Hq. cbn. by right.
    + intros q [->|Hq]%elem_of_cons; [|by apply Hg]. destruct (decide (place path ∈ place <$> paths)) as [(q & Hpq & Hq)%list_elem_of_fmap|Hq].
      * rewrite Hpq. by apply Hg.
      * rewrite Ho by done. by apply Hgone.
Qed.

(** What was written is taken back. *)
Lemma removeNewFiles_spec missing t0 m :
  writing missing t0 (ma_tree m) -> (forall path, path ∈ missing -> t0 !! place path = None) ->
  wp (removeNewFiles fate place ranges missing) (fun _ m' =>
    ma_codex m' = ma_codex m /\ t0 ⊆ ma_tree m' /\ (loose -> ma_tree m' = t0)) m.
Proof.
  intros [Hk Ho] Hn. destruct Hranges as (Hperm & _ & _). unfold removeNewFiles.
  eapply wp_mono; [|apply remove_each_spec; [exact Hk|intros q Hq; apply Hn; by rewrite Hperm in Hq]].
  cbn. intros _ m' (Hc & Hs & Hl). split_and!; [done..|]. intros Hloose. destruct (Hl Hloose) as [Ho' Hg].
  apply map_eq. intros q. destruct (decide (q ∈ place <$> missing)) as [(p & -> & Hp)%list_elem_of_fmap|Hq].
  - rewrite Hg by (by rewrite Hperm). symmetry. by apply Hn.
  - rewrite Ho'; [by apply Ho|]. by rewrite Hperm.
Qed.

(** ** Codex *)

Context (registered base : C -> option registration) `{LC : !LawfulCodex run codec registered base}.

(** Codex has the same servers. *)
Definition same_servers (m m' : Machine C) : Prop :=
  registered (ma_codex m') = registered (ma_codex m) /\ base (ma_codex m') = base (ma_codex m).

Lemma same_codex m m' : ma_codex m' = ma_codex m -> same_servers m m'.
Proof. intros H. unfold same_servers. by rewrite H. Qed.

Lemma getRegistration_spec m :
  wp (getRegistration run codec) (fun r m' => ma_tree m' = ma_tree m /\ same_servers m m' /\ match r with
    | Registered r => registered (ma_codex m) = Some r
    | QueryMissing => registered (ma_codex m) = None
    | QueryFailed => True
    end) m.
Proof.
  unfold getRegistration. apply wp_bind. unfold wp, codex. destruct (run _ _) as [[data ok] c'] eqn:E. cbn [fst snd].
  assert (same_servers m (mkMachine (ma_tree m) c' (ma_steps m))) as Hsame by (unfold same_servers; eapply codex_get_same; eassumption).
  destruct ok; cbn [negb].
  - apply wp_ret. split_and!; [done..|]. destruct (cd_read_document codec data) as [document|] eqn:Ed; [|done].
    destruct (document_registration document) eqn:Er; [done| |eapply codex_get; eassumption].
    unfold document_registration in Er. repeat case_hyp Er; done.
  - apply wp_ret. split_and!; [done..|]. destruct (_ || _) eqn:Ef; [|done]. eapply codex_missing; eassumption.
Qed.

Lemma isPluginRegistration_spec r m : wp (isPluginRegistration fate place codec r) (fun _ m' => untouched m m') m.
Proof.
  unfold isPluginRegistration. apply wp_if; intros _; [by apply wp_ret|].
  apply wp_bind. eapply wp_mono; [|apply readBounded_spec]. cbn. intros b1 m1 [H1 _].
  apply wp_bind. eapply wp_mono; [|apply readBounded_spec]. cbn. intros b2 m2 [H2 _].
  pose proof (untouched_trans _ _ _ H1 H2). destruct b1, b2; by apply wp_ret.
Qed.

(** Two registrations with arguments that the code takes for the same are the same. *)
Lemma same_registration r r' : rg_arguments r' <> [] -> sameRegistration r r' = true -> r = r'.
Proof.
  destruct r as [c a d], r' as [c' a' d']. unfold sameRegistration, rg_arguments. cbn. intros Ha.
  rewrite !andb_true_iff, bool_decide_eq_true, !str_eqb_eq. intros [[-> E] ->].
  destruct a as [a|], a' as [a'|]; cbn in *; naive_solver.
Qed.

Lemma with_args_some expected configPath : rg_arguments (with_args expected configPath) <> [].
Proof. cbn. by destruct (rg_arguments expected). Qed.

(** ** Installation *)

(** [register] registers, or takes the files back. *)
Lemma register_spec expected missing t0 m :
  rg_arguments expected <> [] ->
  writing missing t0 (ma_tree m) -> (forall path, path ∈ missing -> t0 !! place path = None) ->
  wp (register run fate place codec ranges expected missing) (fun r m' =>
    t0 ⊆ ma_tree m' /\ base (ma_codex m') = base (ma_codex m) /\ match r with
    | None => ma_tree m' = ma_tree m /\ registered (ma_codex m') = Some expected
    | Some message => message = "Codex MCP registration failed" /\ (loose -> ma_tree m' = t0)
    end) m.
Proof.
  intros Harg Hw Hn.
  assert (forall m1, ma_tree m1 = ma_tree m -> base (ma_codex m1) = base (ma_codex m) ->
    wp (io_bind (removeNewFiles fate place ranges missing) (fun _ => io_ret (Some "Codex MCP registration failed"))) (fun r m' =>
      t0 ⊆ ma_tree m' /\ base (ma_codex m') = base (ma_codex m) /\ match r with
      | None => ma_tree m' = ma_tree m /\ registered (ma_codex m') = Some expected
      | Some message => message = "Codex MCP registration failed" /\ (loose -> ma_tree m' = t0)
      end) m1) as Hfail.
  { intros m1 Ht Hb. apply wp_bind. eapply wp_mono; [|apply (removeNewFiles_spec missing t0); [by rewrite Ht|done]].
    cbn. intros _ m' (Hc & Hs & Hl). apply wp_ret. split_and!; [done|by rewrite Hc|done..]. }
  unfold register. apply wp_bind. unfold wp at 1, codex. destruct (run _ _) as [[out ok] c1] eqn:E1. cbn [fst snd].
  assert (base c1 = base (ma_codex m)) as Hb1 by (eapply codex_add_base; eassumption).
  apply wp_if; intros _; [by apply Hfail|].
  apply wp_bind. eapply wp_mono; [|apply getRegistration_spec]. cbn. intros current m2 (Ht2 & [Hr2 Hb2] & Hcur). cbn in Ht2, Hr2, Hb2.
  assert (forall m1, ma_tree m1 = ma_tree m -> base (ma_codex m1) = base (ma_codex m) ->
    wp (io_bind (codex run ["mcp"; "remove"; serverName])
          (fun _ => io_bind (removeNewFiles fate place ranges missing) (fun _ => io_ret (Some "Codex MCP registration failed")))) (fun r m' =>
      t0 ⊆ ma_tree m' /\ base (ma_codex m') = base (ma_codex m) /\ match r with
      | None => ma_tree m' = ma_tree m /\ registered (ma_codex m') = Some expected
      | Some message => message = "Codex MCP registration failed" /\ (loose -> ma_tree m' = t0)
      end) m1) as Hundo.
  { intros m1 Ht Hb. apply wp_bind. unfold wp at 1, codex. destruct (run _ (ma_codex m1)) as [[out' ok'] c'] eqn:E'. cbn [fst snd].
    apply Hfail; [done|]. cbn. rewrite <- Hb. edestruct @codex_remove as [? _]; [exact LC|exact E'|done]. }
  destruct current as [| |r]; [apply Hundo; congruence..|].
  apply wp_if; intros Hsame; [|apply Hundo; congruence].
  apply wp_ret. rewrite Ht2. split_and!; [by destruct Hw|congruence|done|].
  rewrite Hr2, Hcur. by rewrite (same_registration _ _ Harg Hsame).
Qed.

Lemma install_files_elem first1 first2 home configPath data pd :
  pd ∈ install_files codec first1 home configPath data -> pd ∈ install_files codec first2 home configPath data.
Proof. unfold install_files. destruct (_ =s _); [done|]. destruct first1, first2; set_solver. Qed.

Lemma apply_install_spec files written_files manifestPath manifestData missing expected unregistered t0 m :
  rg_arguments expected <> [] ->
  writing missing t0 (ma_tree m) -> (forall path, path ∈ missing -> t0 !! place path = None) ->
  (forall pd, pd ∈ files -> pd ∈ written_files) ->
  (unregistered = false -> registered (ma_codex m) = Some expected) ->
  wp (apply_install run fate place codec ranges written_files manifestPath manifestData missing expected unregistered) (fun v m' =>
    t0 ⊆ ma_tree m' /\ base (ma_codex m') = base (ma_codex m) /\ match v with
    | States state _ =>
        state = "applied" /\ registered (ma_codex m') = Some expected /\ only_at missing (ma_tree m) (ma_tree m') /\
        ma_tree m ⊆ ma_tree m' /\
        forall path data, (path, data) ∈ files ++ [(manifestPath, manifestData)] -> path ∈ missing -> ma_tree m' !! place path = Some (written data)
    | Refuses message =>
        (loose -> ma_tree m' = t0) /\ (message <> "Codex MCP registration failed" -> registered (ma_codex m') = registered (ma_codex m))
    end) m.
Proof.
  intros Harg Hw Hn Hfiles Hreg. unfold apply_install.
  assert (forall m1, ma_codex m1 = ma_codex m -> writing missing t0 (ma_tree m1) ->
    wp (io_bind (removeNewFiles fate place ranges missing) (fun _ => io_ret (Refuses "integration write failed"))) (fun v m' =>
      t0 ⊆ ma_tree m' /\ base (ma_codex m') = base (ma_codex m) /\ match v with
      | States state _ => False
      | Refuses message =>
          (loose -> ma_tree m' = t0) /\ (message <> "Codex MCP registration failed" -> registered (ma_codex m') = registered (ma_codex m))
      end) m1) as Hfail.
  { intros m1 Hc1 Hw1. apply wp_bind. eapply wp_mono; [|by apply (removeNewFiles_spec missing t0)].
    cbn. intros _ m' (Hc & Hs & Hl). apply wp_ret. rewrite Hc, Hc1. by split_and!. }
  apply wp_bind. eapply wp_mono; [|by apply (write_files_spec missing t0)]. cbn. intros ok m1 (Hc1 & Hw1 & Hs1 & Hok1).
  apply wp_if; intros Hb; bool_facts.
  { eapply wp_mono; [|by apply Hfail]. cbn. intros [] m'; naive_solver. }
  destruct (Hok1 Hb) as [Ho1 Hf1]. apply wp_bind.
  apply (wp_mono _ (fun ok m2 => ma_codex m2 = ma_codex m /\ writing missing t0 (ma_tree m2) /\
    (ok = true -> only_at missing (ma_tree m) (ma_tree m2) /\ ma_tree m ⊆ ma_tree m2 /\
       forall path data, (path, data) ∈ files ++ [(manifestPath, manifestData)] -> path ∈ missing -> ma_tree m2 !! place path = Some (written data)))).
  2:{ apply wp_if; intros Hm.
      - apply contains_spec in Hm. eapply wp_mono; [|by apply (write_one missing t0)]. cbn. intros ok' m2 (Hc2 & Hw2 & Hs2 & Hok2).
        split_and!; [congruence|done|]. intros Hk. specialize (Hok2 Hk). split_and!; [|by etrans|].
        + intros q Hq. rewrite Hok2, lookup_insert_ne; [by apply Ho1|]. intros <-. apply Hq. by apply list_elem_of_fmap_2.
        + intros q d [Hin|[= -> ->]%list_elem_of_singleton]%elem_of_app Hq; [|by rewrite Hok2, lookup_insert_eq].
          eapply lookup_weaken; [|exact Hs2]. by apply Hf1, Hq; apply Hfiles.
      - apply wp_ret. split_and!; [done..|]. intros _. split_and!; [done..|].
        intros q d [Hin|[= -> ->]%list_elem_of_singleton]%elem_of_app Hq; [by apply Hf1, Hq; apply Hfiles|].
        apply contains_spec in Hq. congruence. }
  cbn. intros ok2 m2 (Hc2 & Hw2 & Hok2). apply wp_if; intros Hb2; bool_facts.
  { eapply wp_mono; [|by apply Hfail]. cbn. intros [] m'; naive_solver. }
  destruct (Hok2 Hb2) as (Ho2 & Hs2 & Hf2). destruct unregistered.
  - apply wp_bind. eapply wp_mono; [|by apply (register_spec expected missing t0)]. cbn. intros r m3 (Hs3 & Hb3 & Hr3).
    destruct r as [message|]; apply wp_ret; (split; [done|split; [congruence|]]).
    + destruct Hr3 as [-> Hr3]. by split.
    + destruct Hr3 as [Ht3 Hr3]. rewrite Ht3. by split_and!.
  - apply wp_ret. split; [by destruct Hw2|]. rewrite Hc2. split_and!; auto.
Qed.

(** The files of an installation, with the manifest that owns the others. *)
Definition owned_manifest (home configPath : string) (config : IntegrationConfig) (expected : registration) : ownershipManifest :=
  manifest_of codec home configPath (install_files codec (ra_check ranges) home configPath (config_text config)) (with_args expected configPath).

Definition installed_files (home configPath : string) (config : IntegrationConfig) (expected : registration) : list (string * string) :=
  install_files codec (ra_check ranges) home configPath (config_text config)
  ++ [(path_join home manifestRel, manifest_text (owned_manifest home configPath config expected))].

(** What is reported of an installation, and what it means. *)
Definition install_outcome (home configPath : string) (config : IntegrationConfig) (expected : registration) (apply : bool)
    (v : Verdict) (m m' : Machine C) : Prop :=
  let files := installed_files home configPath config expected in
  match v with
  | States "applied" _ =>
      apply = true /\ registered (ma_codex m') = Some (with_args expected configPath) /\
      (forall path data, (path, data) ∈ files -> ma_tree m' !! place path = Some (written data)) /\
      only_at files.*1 (ma_tree m) (ma_tree m')
  | States state _ => state = "preview" /\ apply = false /\ ma_tree m' = ma_tree m /\ registered (ma_codex m') = registered (ma_codex m)
  | Refuses message =>
      (loose -> ma_tree m' = ma_tree m) /\
      (message <> "Codex MCP registration failed" -> registered (ma_codex m') = registered (ma_codex m))
  end.

Lemma runInstall_spec home configPath config expected apply m :
  wp (runInstall run fate place codec ranges home configPath config expected apply) (fun v m' =>
    ma_tree m ⊆ ma_tree m' /\ base (ma_codex m') = base (ma_codex m) /\
    install_outcome home configPath config expected apply v m m') m.
Proof.
  unfold runInstall.
  set (manifestPath := path_join home manifestRel). set (expected' := with_args expected configPath).
  set (files := install_files codec (ra_check ranges) home configPath (config_text config)).
  set (manifestData := manifest_text _).
  assert (forall message m1, ma_tree m1 = ma_tree m -> same_servers m m1 ->
    wp (io_ret (Refuses message)) (fun v m' => ma_tree m ⊆ ma_tree m' /\ base (ma_codex m') = base (ma_codex m) /\
      install_outcome home configPath config expected apply v m m') m1) as Hrefuse.
  { intros message m1 Ht [Hr Hb]. apply wp_ret. rewrite Ht. by split_and!. }
  apply wp_bind. eapply wp_mono; [|apply check_files_spec]. cbn. intros checked m1 [[Ht1 Hc1] Hchk].
  destruct checked as [missing|]; [|by apply Hrefuse, same_codex]. destruct Hchk as (Hm1 & _ & Hm3).
  apply wp_bind. eapply wp_mono; [|apply fileState_spec]. cbn. intros state m2 [[Ht2 Hc2] Hst]. rewrite Ht1 in Hst.
  destruct state as [state|]; [|apply Hrefuse; [|apply same_codex]; congruence].
  set (missing' := match state with Missing => missing ++ [manifestPath] | _ => missing end).
  assert (state <> Conflict ->
    (forall path, path ∈ missing' -> ma_tree m !! place path = None /\ path ∈ (files ++ [(manifestPath, manifestData)]).*1) /\
    (forall path data, (path, data) ∈ files ++ [(manifestPath, manifestData)] -> path ∈ missing' \/ ma_tree m !! place path = Some (written data)))
    as Hmissing.
  { intros Hnc. assert (forall path, path ∈ missing' -> path ∈ missing \/ path = manifestPath /\ ma_tree m !! place path = None) as Hin.
    { intros q. subst missing'. destruct state; [|by left..]. rewrite elem_of_app, list_elem_of_singleton. naive_solver. }
    split.
    - intros q [Hq|[-> Hq]]%Hin; (split; [|rewrite fmap_app, elem_of_app; cbn; rewrite list_elem_of_singleton]); [| |done|by right].
      + apply Hm1 in Hq as [Hq|[_ Hq]]; [by apply elem_of_nil in Hq|done].
      + apply Hm1 in Hq as [Hq|[Hq _]]; [by apply elem_of_nil in Hq|by left].
    - intros q d [Hin'|[= -> ->]%list_elem_of_singleton]%elem_of_app.
      + apply Hm3 in Hin' as [Hq|Hq]; [left|by right]. subst missing'. destruct state; [|done..]. rewrite elem_of_app. by left.
      + subst missing'. destruct state; [left; rewrite elem_of_app, list_elem_of_singleton; by right|by right|done]. }
  assert (forall m3 unregistered, state <> Conflict -> ma_tree m3 = ma_tree m -> same_servers m m3 ->
    (unregistered = false -> registered (ma_codex m3) = Some expected') ->
    wp (if negb apply then io_ret (States "preview" "install")
        else apply_install run fate place codec ranges (install_files codec (ra_write ranges) home configPath (config_text config))
               manifestPath manifestData missing' expected' unregistered)
      (fun v m' => ma_tree m ⊆ ma_tree m' /\ base (ma_codex m') = base (ma_codex m) /\
         install_outcome home configPath config expected apply v m m') m3) as Hgo.
  { intros m3 unregistered Hnc Ht3 [Hr3 Hb3] Hun. destruct (Hmissing Hnc) as [Hmi1 Hmi2].
    apply wp_if; intros Ha; bool_facts; subst apply; [apply wp_ret; rewrite Ht3; by split_and!|].
    eapply wp_mono; [|apply (apply_install_spec files _ _ _ _ _ _ (ma_tree m)); [apply with_args_some|..]].
    - cbn. intros v m' (Hs & Hb & Hv). split_and!; [done|congruence|]. destruct v as [message|state' action].
      + destruct Hv as [Hv1 Hv2]. split; [done|]. intros Hne. rewrite Hv2 by done. done.
      + destruct Hv as (-> & Hr & Ho & Hs' & Hf). cbn. split_and!; [done|done| |].
        * intros q d Hin. destruct (Hmi2 q d Hin) as [Hq|Hq]; [by eapply Hf|]. by eapply lookup_weaken.
        * intros q Hq. rewrite Ho, Ht3; [done|]. intros (p & -> & Hp)%list_elem_of_fmap. apply Hq.
          apply list_elem_of_fmap_2. by apply Hmi1.
    - rewrite Ht3. split; [done|]. by intros _ q.
    - intros q Hq. by apply Hmi1.
    - intros pd. apply install_files_elem.
    - done. }
  destruct state as [| |].
  3:{ apply Hrefuse; [|apply same_codex]; congruence. }
  all: apply wp_bind; (eapply wp_mono; [|apply getRegistration_spec]); cbn; intros current m3 (Ht3 & [Hr3 Hb3] & Hcur);
    assert (ma_tree m3 = ma_tree m) as Ht by congruence;
    assert (same_servers m m3) as Hss by (split; congruence);
    (destruct current as [| |r]; [by apply Hrefuse|by apply (Hgo m3 true)|]);
    apply wp_bind; (eapply wp_mono; [|apply isPluginRegistration_spec]); cbn; intros plugin m4 [Ht4 Hc4];
    assert (ma_tree m4 = ma_tree m) as Ht' by congruence;
    assert (same_servers m m4) as Hss' by (unfold same_servers in *; by rewrite Hc4);
    apply wp_if; intros Hp; [by apply Hrefuse|];
    apply Hgo; [done..|]; intros ->; rewrite andb_true_r in Hp; bool_facts;
    rewrite (proj1 Hss'), <- (same_registration _ expected' (with_args_some _ _) Hp); rewrite <- Hcur; congruence.
Qed.

(** ** Removal *)

Lemma check_owned_spec home configPath files m :
  wp (check_owned fate place codec home configPath files) (fun r m' => untouched m m' /\ match r with
    | None => forall name hash, (name, hash) ∈ files -> exists path e,
        owned_path home configPath name = Some path /\ ma_tree m !! place path = Some e /\
        (str_len (en_data e) <= maxFileBytes)%Z /\ digest codec (en_data e) = hash
    | Some message => message ∈ ["ownership invalid"; "source_conflict"]
    end) m.
Proof.
  revert m. induction files as [|[name hash] files IH]; intros m; cbn [check_owned].
  { apply wp_ret. split; [done|]. intros ?? Hin. by apply elem_of_nil in Hin. }
  destruct (owned_path home configPath name) as [path|] eqn:Ep; [|apply wp_ret; split; [done|set_solver]].
  apply wp_bind. eapply wp_mono; [|apply readBounded_spec]. cbn. intros content m1 [Hu1 Hr].
  destruct content as [| |content]; [apply wp_ret; split; [done|set_solver]..|]. destruct Hr as (e & He & _ & <- & Hsize).
  apply wp_if; intros Hd; [|apply wp_ret; split; [done|set_solver]]. apply str_eqb_eq in Hd.
  eapply wp_mono; [|apply IH]. cbn. intros r m' [Hu Hr]. split; [exact (untouched_trans _ _ _ Hu1 Hu)|].
  destruct r; [done|]. intros n h [[= -> ->]|Hin]%elem_of_cons; [by eauto 10|].
  destruct (Hr n h Hin) as (p & e' & ? & He' & ? & ?). exists p, e'. by rewrite <- (proj1 Hu1).
Qed.

(** A file moved aside, and back. *)
Definition aside (o s : string) (e : Entry) (t : gmap string Entry) : gmap string Entry := <[s := e]> (delete o t).

Lemma aside_back o s e t : t !! o = Some e -> t !! s = None -> <[o := e]> (delete s (aside o s e t)) = t.
Proof.
  intros Ho Hs. unfold aside. rewrite delete_insert_id by (rewrite lookup_delete_ne by congruence; done).
  rewrite insert_delete_eq. by apply insert_id.
Qed.

(** Entries that stay: [kept] has none at a place. *)
Lemma keeps_delete (kept t : gmap string Entry) q : kept ⊆ t -> kept !! q = None -> kept ⊆ delete q t.
Proof.
  intros Hs Hq. apply map_subseteq_spec. intros p e Hp. rewrite lookup_delete_ne; [by eapply lookup_weaken|]. intros <-. congruence.
Qed.

Lemma keeps_insert (kept t : gmap string Entry) q e : kept ⊆ t -> kept !! q = None -> kept ⊆ <[q := e]> t.
Proof.
  intros Hs Hq. apply map_subseteq_spec. intros p e' Hp. rewrite lookup_insert_ne; [by eapply lookup_weaken|]. intros <-. congruence.
Qed.

Lemma keeps_none (kept t : gmap string Entry) q : kept ⊆ t -> t !! q = None -> kept !! q = None.
Proof. intros. by eapply lookup_weaken_None. Qed.

Section Kept.
Context (kept : gmap string Entry).

Lemma stageOwnedFile_spec path hash m :
  kept ⊆ ma_tree m -> kept !! place path = None ->
  wp (stageOwnedFile fate place codec path hash) (fun r m' =>
    ma_codex m' = ma_codex m /\ kept ⊆ ma_tree m' /\ match r with
    | Some file => sf_original file = path /\ exists e, ma_tree m !! place path = Some e /\
        ma_tree m !! place (sf_staged file) = None /\ ma_tree m' = aside (place path) (place (sf_staged file)) e (ma_tree m)
    | None => loose -> ma_tree m' = ma_tree m
    end) m.
Proof.
  intros Hk Hp. unfold stageOwnedFile. apply wp_bind, wp_create_temp; [by apply wp_ret|].
  intros staged Hfresh. pose proof (keeps_none _ _ _ Hk Hfresh) as Hks.
  apply wp_bind, wp_quiet. cbn [stepped ma_tree ma_codex].
  assert (delete (place staged) (<[place staged := mkEntry "" true true]> (ma_tree m)) = ma_tree m) as Hdel by by rewrite delete_insert_id.
  intros [|]; cbn [negb].
  2:{ apply wp_bind, wp_remove; cbn [stepped ma_tree ma_codex]; intros Hs; apply wp_ret; cbn [stepped ma_tree ma_codex].
      - by rewrite Hdel.
      - split_and!; [done|by apply keeps_insert|]. intros Hl%Hs. by rewrite lookup_insert_eq in Hl. }
  apply wp_bind, wp_remove; cbn [stepped ma_tree ma_codex negb]; intros Hs.
  2:{ apply wp_ret. cbn [stepped ma_tree ma_codex]. split_and!; [done|by apply keeps_insert|].
      intros Hl%Hs. by rewrite lookup_insert_eq in Hl. }
  rewrite Hdel. apply wp_bind, wp_rename; cbn [stepped ma_tree ma_codex negb]; [|by intros _; apply wp_ret].
  intros e He. fold (aside (place path) (place staged) e (ma_tree m)). set (t := aside _ _ _ _).
  assert (kept ⊆ t) as Hkt by (apply keeps_insert; [by apply keeps_delete|done]).
  apply wp_bind. eapply wp_mono; [|apply readBounded_spec]. cbn. intros content m1 [[Ht1 Hc1] _]. cbn in Ht1, Hc1.
  assert (wp (io_bind (os_rename fate place staged path) (fun _ => io_ret None)) (fun r m' =>
    ma_codex m' = ma_codex m /\ kept ⊆ ma_tree m' /\ match r with
    | Some file => sf_original file = path /\ exists e, ma_tree m !! place path = Some e /\
        ma_tree m !! place (sf_staged file) = None /\ ma_tree m' = aside (place path) (place (sf_staged file)) e (ma_tree m)
    | None => loose -> ma_tree m' = ma_tree m
    end) m1) as Hback.
  { apply wp_bind, wp_rename; rewrite Ht1.
    - intros e' He'. apply wp_ret. cbn [stepped ma_tree ma_codex].
      unfold t, aside in He'. rewrite lookup_insert_eq in He'. injection He' as <-. unfold t. by rewrite aside_back.
    - intros Hl. apply wp_ret. cbn [stepped ma_tree ma_codex]. split_and!; [done..|]. intros Hloose%Hl.
      unfold t, aside in Hloose. by rewrite lookup_insert_eq in Hloose. }
  destruct content; [done..|]. apply wp_if; intros _; [|done]. apply wp_ret. rewrite Ht1. split_and!; [done..|]. cbn. eauto.
Qed.

(** The files moved aside so far, the last one first. *)
Inductive moved (t0 : gmap string Entry) : list stagedOwnedFile -> gmap string Entry -> Prop :=
  | moved_nil : moved t0 [] t0
  | moved_cons file l t e :
      moved t0 l t -> t !! place (sf_original file) = Some e -> t !! place (sf_staged file) = None ->
      moved t0 (file :: l) (aside (place (sf_original file)) (place (sf_staged file)) e t).

(** The staged files stand apart from what is kept. *)
Definition apart (l : list stagedOwnedFile) : Prop :=
  Forall (fun file => kept !! place (sf_original file) = None /\ kept !! place (sf_staged file) = None) l.

Lemma restoreStagedFiles_spec t0 l m :
  kept ⊆ ma_tree m -> apart l -> (loose -> moved t0 l (ma_tree m)) ->
  wp (restoreStagedFiles fate place l) (fun _ m' => ma_codex m' = ma_codex m /\ kept ⊆ ma_tree m' /\ (loose -> ma_tree m' = t0)) m.
Proof.
  intros Hk Ha Hm. revert m Hk Hm. induction Ha as [|file l [Ho Hs] Ha IH]; intros m Hk Hm; cbn [restoreStagedFiles].
  { apply wp_ret. split_and!; [done..|]. intros Hl%Hm. by inversion Hl. }
  apply wp_bind, wp_rename.
  - intros e He. eapply wp_mono; [|apply IH]; [done| |]; cbn [stepped ma_tree ma_codex].
    + apply keeps_insert; [by apply keeps_delete|done].
    + intros Hl%Hm. inversion Hl as [|? ? t e' Hmv Hto Hts Heq Ht]. subst.
      rewrite <- Ht in He. unfold aside in He. rewrite lookup_insert_eq in He. injection He as <-. by rewrite aside_back.
  - intros Hgone. eapply wp_mono; [|apply IH]; [done|done|]. cbn [stepped ma_tree].
    intros Hl. pose proof (Hgone Hl) as Hn. apply Hm in Hl. inversion Hl as [|? ? t e' Hmv Hto Hts Heq Ht]. subst.
    rewrite <- Ht in Hn. unfold aside in Hn. by rewrite lookup_insert_eq in Hn.
Qed.

Lemma stage_owned_spec home configPath files staged t0 m :
  kept ⊆ ma_tree m -> apart staged -> moved t0 staged (ma_tree m) ->
  (forall name hash, (name, hash) ∈ files -> exists path, owned_path home configPath name = Some path /\ kept !! place path = None) ->
  wp (stage_owned fate place codec home configPath files staged) (fun r m' =>
    ma_codex m' = ma_codex m /\ kept ⊆ ma_tree m' /\ match r with
    | Some staged' => apart staged' /\ moved t0 staged' (ma_tree m') /\
        forall path, path ∈ sf_original <$> staged' <-> path ∈ sf_original <$> staged \/ exists name hash, (name, hash) ∈ files /\ owned_path home configPath name = Some path
    | None => loose -> ma_tree m' = t0
    end) m.
Proof.
  revert staged m. induction files as [|[name hash] files IH]; intros staged m Hk Ha Hm Hf; cbn [stage_owned].
  { apply wp_ret. split_and!; [done..|]. intros p. split; [by left|]. intros [?|(? & ? & Hin & _)]; [done|]. by apply elem_of_nil in Hin. }
  destruct (Hf name hash) as (path & Ep & Hp); [by left|]. rewrite Ep. cbn [default from_option].
  apply wp_bind. eapply wp_mono; [|by apply stageOwnedFile_spec]. cbn. intros file m1 (Hc1 & Hk1 & Hr1).
  destruct file as [file|].
  - destruct Hr1 as (Hfo & e & He & Hs & Ht). eapply wp_mono; [|apply IH].
    + cbn. intros r m' (Hc & Hk' & Hr). split_and!; [congruence|done|]. destruct r; [|done]. destruct Hr as (Ha' & Hm' & Hin).
      split_and!; [done..|]. intros p. rewrite Hin. cbn. rewrite elem_of_cons, Hfo. setoid_rewrite elem_of_cons.
      split; [intros [[->|?]|(n & h & ? & ?)]|intros [?|(n & h & [[= -> ->]|?] & Hn)]]; eauto 10; rewrite Ep in Hn; injection Hn as ->; by left; left.
    + done.
    + constructor; [|done]. rewrite Hfo. split; [done|eapply keeps_none; [exact Hk|done]].
    + rewrite Ht, <- Hfo. econstructor; [done| |done]. by rewrite Hfo.
    + intros n h Hin. apply (Hf n h). by right.
  - apply wp_bind. eapply wp_mono; [|apply (restoreStagedFiles_spec t0); [done|done|]].
    + cbn. intros _ m' (Hc & Hk' & Hl). apply wp_ret. split_and!; [congruence|done..].
    + intros Hl. by rewrite (Hr1 Hl).
Qed.

Lemma remove_staged_spec l m :
  kept ⊆ ma_tree m -> apart l ->
  wp (remove_staged fate place l) (fun ok m' => ma_codex m' = ma_codex m /\ kept ⊆ ma_tree m' /\ (loose -> ok = true) /\
    (ok = true -> forall q, ma_tree m' !! q = if bool_decide (q ∈ place <$> (sf_staged <$> l)) then None else ma_tree m !! q)) m.
Proof.
  intros Hk Ha. revert m Hk. induction Ha as [|file l [Ho Hs] Ha IH]; intros m Hk; cbn [remove_staged].
  { apply wp_ret. split_and!; [done..|]. intros _ q. by rewrite bool_decide_eq_false_2 by apply not_elem_of_nil. }
  apply wp_bind, wp_remove_if_any; cbn [stepped ma_tree ma_codex].
  - eapply wp_mono; [|apply IH; by apply keeps_delete]. cbn. intros ok m' (Hc & Hk' & Hl & Hok). split_and!; [done..|].
    intros Hk1 q. rewrite (Hok Hk1). destruct (decide (q = place (sf_staged file))) as [->|Hne].
    + rewrite (bool_decide_eq_true_2 (_ ∈ _ :: _)) by by left. case_bool_decide; [done|]. apply lookup_delete_eq.
    + rewrite lookup_delete_ne by done. rewrite (bool_decide_ext (q ∈ _ :: _) (q ∈ place <$> (sf_staged <$> l))); [done|].
      rewrite elem_of_cons. tauto.
  - intros Hl. apply wp_ret. by split_and!.
Qed.
End Kept.

Lemma moved_trace (t0 : gmap string Entry) l t q :
  moved t0 l t ->
  (q ∉ place <$> (sf_original <$> l) -> q ∉ place <$> (sf_staged <$> l) -> t !! q = t0 !! q) /\
  (q ∈ place <$> (sf_original <$> l) -> q ∉ place <$> (sf_staged <$> l) -> t !! q = None) /\
  (q ∉ place <$> (sf_original <$> l) -> q ∈ place <$> (sf_staged <$> l) -> t0 !! q = None).
Proof.
  induction 1 as [|file l t e Hm [IH1 [IH2 IH3]] Ho Hs].
  { split_and!; [done|by intros ?%elem_of_nil|by intros _ ?%elem_of_nil]. }
  cbn. rewrite !not_elem_of_cons, !elem_of_cons. unfold aside. split_and!.
  - intros [??] [??]. rewrite lookup_insert_ne, lookup_delete_ne by done. auto.
  - intros Hq [Hne ?]. rewrite lookup_insert_ne by done. destruct (decide (q = place (sf_original file))) as [->|Hne'].
    + apply lookup_delete_eq.
    + rewrite lookup_delete_ne by done. destruct Hq; [done|auto].
  - intros [??] Hq. destruct (decide (q ∈ place <$> (sf_staged <$> l))); [auto|].
    destruct Hq as [->|?]; [|done]. rewrite <- IH1; auto.
Qed.

(** Moved aside and then removed: the originals are gone, and all else is as it was. *)
Lemma moved_removed (t0 : gmap string Entry) l t t' :
  moved t0 l t -> (forall q, (t' : gmap string Entry) !! q = if bool_decide (q ∈ place <$> (sf_staged <$> l)) then None else t !! q) ->
  forall q, t' !! q = if bool_decide (q ∈ place <$> (sf_original <$> l)) then None else t0 !! q.
Proof.
  intros Hm Ht q. rewrite Ht. destruct (moved_trace t0 l t q Hm) as (H1 & H2 & H3). repeat case_bool_decide; auto. symmetry. auto.
Qed.

(** The paths of what a manifest owns, and of the manifest. *)
Definition owned_paths (home configPath : string) (files : list (string * string)) : list string :=
  path_join home manifestRel :: omap (fun nh => owned_path home configPath nh.1) files.

Lemma owned_paths_elem home configPath files path :
  path ∈ owned_paths home configPath files <->
  path = path_join home manifestRel \/ exists name hash, (name, hash) ∈ files /\ owned_path home configPath name = Some path.
Proof.
  unfold owned_paths. rewrite elem_of_cons, list_elem_of_omap. split.
  - intros [?|([n h] & ? & ?)]; [by left|right; eauto].
  - intros [?|(n & h & ? & ?)]; [by left|right; exists (n, h); eauto].
Qed.

(** The refusals after which something was moved. *)
Definition late_refusals : list string := ["owned file removal failed"; "Codex MCP removal failed"; "ownership removal failed"].

Lemma apply_uninstall_spec kept home configPath files found m :
  kept ⊆ ma_tree m ->
  (forall path, path ∈ owned_paths home configPath files -> kept !! place path = None) ->
  (forall name hash, (name, hash) ∈ files -> is_Some (owned_path home configPath name)) ->
  wp (apply_uninstall run fate place codec home configPath (path_join home manifestRel) files found) (fun v m' =>
    kept ⊆ ma_tree m' /\ match v with
    | States state action =>
        state = "applied" /\ action = "uninstall" /\
        registered (ma_codex m') = (if found then base (ma_codex m) else registered (ma_codex m)) /\
        (forall path, path ∈ owned_paths home configPath files -> ma_tree m' !! place path = None) /\
        only_at (owned_paths home configPath files) (ma_tree m) (ma_tree m')
    | Refuses message => message ∈ late_refusals /\ (loose -> ma_tree m' = ma_tree m)
    end) m.
Proof.
  intros Hk Hpaths Hnamed. unfold apply_uninstall.
  assert (forall name hash, (name, hash) ∈ files -> exists path, owned_path home configPath name = Some path /\ kept !! place path = None) as Hf.
  { intros n h Hin. destruct (Hnamed n h Hin) as [path Hp]. exists path. split; [done|]. apply Hpaths, owned_paths_elem. eauto. }
  apply wp_bind. eapply wp_mono; [|apply (stage_owned_spec kept home configPath files [] (ma_tree m)); [done|by constructor|by constructor|done]].
  cbn. intros staged m1 (Hc1 & Hk1 & Hr1). destruct staged as [staged|]; [|apply wp_ret; split; [done|split; [set_solver|done]]].
  destruct Hr1 as (Ha & Hm & Hin).
  apply wp_bind. apply (wp_mono _ (fun ok m2 => ma_tree m2 = ma_tree m1 /\
    (ok = true -> registered (ma_codex m2) = if found then base (ma_codex m) else registered (ma_codex m)))).
  2:{ apply wp_if; intros ->; [|apply wp_ret; by rewrite Hc1].
      apply wp_bind. unfold wp, codex. destruct (run _ _) as [[out ok] c] eqn:E. cbn. split; [done|]. intros ->.
      rewrite Hc1 in E. edestruct @codex_remove as [_ Hr]; [exact LC|exact E|auto]. }
  cbn. intros ok m2 [Ht2 Hr2]. apply wp_if; intros Hb; bool_facts.
  { apply wp_bind. eapply wp_mono; [|apply (restoreStagedFiles_spec kept (ma_tree m) staged); rewrite ?Ht2; done].
    cbn. intros _ m3 (_ & Hk3 & Hl). apply wp_ret. split; [done|]. split; [set_solver|done]. }
  apply wp_bind. eapply wp_mono; [|apply (remove_staged_spec kept (rev staged)); [by rewrite Ht2|]].
  2:{ apply Forall_rev. exact Ha. }
  cbn. intros ok3 m3 (Hc3 & Hk3 & Hl3 & Hok3). apply wp_if; intros Hb3; bool_facts.
  { apply wp_ret. split; [done|]. split; [set_solver|]. intros Hl%Hl3. congruence. }
  assert (forall q, ma_tree m3 !! q = if bool_decide (q ∈ place <$> (sf_original <$> staged)) then None else ma_tree m !! q) as Ht3.
  { apply (moved_removed _ _ (ma_tree m1)); [done|]. intros q. rewrite (Hok3 Hb3), Ht2.
    erewrite bool_decide_ext; [done|]. by rewrite (Permutation_rev staged) at 2. }
  apply wp_bind, wp_remove_if_any; cbn [stepped ma_tree ma_codex]; [|intros Hl; apply wp_ret; split; [done|split; [set_solver|done]]].
  apply wp_ret. cbn [stepped ma_tree ma_codex]. split; [apply keeps_delete; [done|apply Hpaths; by left]|].
  assert (forall path, path ∈ owned_paths home configPath files <-> path = path_join home manifestRel \/ path ∈ sf_original <$> staged) as Hown.
  { intros path. rewrite owned_paths_elem, Hin, elem_of_nil. tauto. }
  split_and!; [done|done|rewrite Hc3; auto| |].
  - intros path [->|Hp]%Hown; [apply lookup_delete_eq|]. apply lookup_delete_None. right. rewrite Ht3.
    rewrite bool_decide_eq_true_2; [done|]. by apply list_elem_of_fmap_2.
  - intros q Hq. rewrite lookup_delete_ne.
    + rewrite Ht3, bool_decide_eq_false_2; [done|]. intros (p & -> & Hp)%list_elem_of_fmap. apply Hq. apply list_elem_of_fmap_2, Hown. by right.
    + intros <-. apply Hq. apply list_elem_of_fmap_2, Hown. by left.
Qed.

(** The manifest that is on the disk. *)
Definition manifest_on (home : string) (tree : gmap string Entry) (manifest : ownershipManifest) : Prop :=
  exists e, tree !! place (path_join home manifestRel) = Some e /\ cd_read_manifest codec (en_data e) = Some manifest /\
    manifest_valid manifest = true.

(** What a manifest owns, as it is on the disk. *)
Definition owns_entry (home configPath : string) (tree : gmap string Entry) (manifest : ownershipManifest) (path : string) : Prop :=
  exists name hash e, om_Files manifest !! name = Some hash /\ owned_path home configPath name = Some path /\
    tree !! place path = Some e /\ (str_len (en_data e) <= maxFileBytes)%Z /\ digest codec (en_data e) = hash.

(** What is reported of a removal, and what it means. *)
Definition uninstall_outcome (home configPath : string) (apply : bool) (v : Verdict) (m m' : Machine C) : Prop :=
  match v with
  | States state action =>
      state = (if apply then "applied" else "preview") /\
      ((action = "uninstall_noop" /\ ma_tree m !! place (path_join home manifestRel) = None /\
        ma_tree m' = ma_tree m /\ registered (ma_codex m') = registered (ma_codex m)) \/
       (action = "uninstall" /\ exists manifest,
         let paths := owned_paths home configPath (map_to_list (om_Files manifest)) in
         manifest_on home (ma_tree m) manifest /\
         (forall name hash, om_Files manifest !! name = Some hash -> exists path,
            owned_path home configPath name = Some path /\ owns_entry home configPath (ma_tree m) manifest path) /\
         (forall r, registered (ma_codex m) = Some r -> registrationDigest codec r = om_RegistrationHash manifest) /\
         if apply
         then (forall path, path ∈ paths -> ma_tree m' !! place path = None) /\ only_at paths (ma_tree m) (ma_tree m') /\
              registered (ma_codex m') = match registered (ma_codex m) with Some _ => base (ma_codex m) | None => None end
         else ma_tree m' = ma_tree m /\ registered (ma_codex m') = registered (ma_codex m)))
  | Refuses message =>
      (loose -> ma_tree m' = ma_tree m) /\
      (message ∉ late_refusals -> ma_tree m' = ma_tree m /\ registered (ma_codex m') = registered (ma_codex m)) /\
      (message ∈ late_refusals -> apply = true /\ exists manifest,
         manifest_on home (ma_tree m) manifest /\
         forall name hash, om_Files manifest !! name = Some hash -> exists path,
           owned_path home configPath name = Some path /\ owns_entry home configPath (ma_tree m) manifest path)
  end.

Lemma runUninstall_spec kept home configPath apply m :
  kept ⊆ ma_tree m ->
  kept !! place (path_join home manifestRel) = None ->
  (forall manifest path, manifest_on home (ma_tree m) manifest -> owns_entry home configPath (ma_tree m) manifest path ->
     kept !! place path = None) ->
  wp (runUninstall run fate place codec ranges home configPath apply) (fun v m' =>
    kept ⊆ ma_tree m' /\ uninstall_outcome home configPath apply v m m') m.
Proof.
  intros Hk Hkm Hko. unfold runUninstall.
  assert (forall message m1, message ∉ late_refusals -> ma_tree m1 = ma_tree m -> registered (ma_codex m1) = registered (ma_codex m) ->
    wp (io_ret (Refuses message)) (fun v m' => kept ⊆ ma_tree m' /\ uninstall_outcome home configPath apply v m m') m1) as Hrefuse.
  { intros message m1 Hearly Ht Hr. apply wp_ret. rewrite Ht. split; [done|]. by split_and!. }
  apply wp_bind. eapply wp_mono; [|apply readBounded_spec]. cbn. intros data m1 [[Ht1 Hc1] Hd].
  destruct data as [| |data]; [apply Hrefuse; [set_solver|done|by rewrite Hc1]| |].
  { apply wp_ret. rewrite Ht1. split; [done|]. split; [done|]. left. by rewrite Hc1. }
  destruct Hd as (e & He & _ & <- & _). destruct (cd_read_manifest codec (en_data e)) as [manifest|] eqn:Em;
    [|apply Hrefuse; [set_solver|done|by rewrite Hc1]].
  apply wp_if; intros Hv; bool_facts; [apply Hrefuse; [set_solver|done|by rewrite Hc1]|].
  assert (manifest_on home (ma_tree m) manifest) as Hon by (exists e; eauto).
  destruct Hranges as (_ & Howned & Hstage).
  apply wp_bind. eapply wp_mono; [|apply check_owned_spec]. cbn. intros trouble m2 [[Ht2 Hc2] Hck].
  destruct trouble as [message|]; [apply Hrefuse; [unfold late_refusals; set_solver|congruence|congruence]|].
  assert (forall name hash, om_Files manifest !! name = Some hash -> exists path,
    owned_path home configPath name = Some path /\ owns_entry home configPath (ma_tree m) manifest path) as Hall.
  { intros n h Hn. destruct (Hck n h) as (path & f & Hp & Hf & Hsize & Hh).
    - rewrite Howned. by apply elem_of_map_to_list.
    - exists path. split; [done|]. exists n, h, f. by rewrite <- Ht1. }
  apply wp_bind. eapply wp_mono; [|apply getRegistration_spec]. cbn. intros current m3 (Ht3 & [Hr3 Hb3] & Hcur).
  assert (forall found,
    (found = true -> exists r, registered (ma_codex m) = Some r /\ registrationDigest codec r = om_RegistrationHash manifest) ->
    (found = false -> registered (ma_codex m) = None) ->
    wp (if negb apply then io_ret (States "preview" "uninstall")
        else apply_uninstall run fate place codec home configPath (path_join home manifestRel) (ra_stage ranges (om_Files manifest)) found)
      (fun v m' => kept ⊆ ma_tree m' /\ uninstall_outcome home configPath apply v m m') m3) as Hgo.
  { intros found Hf1 Hf2. assert (ma_tree m3 = ma_tree m) as Ht by congruence.
    assert (forall r, registered (ma_codex m) = Some r -> registrationDigest codec r = om_RegistrationHash manifest) as Hdig.
    { intros r Hr. destruct found; [destruct (Hf1 eq_refl) as (r' & ? & ?); congruence|by rewrite (Hf2 eq_refl) in Hr]. }
    apply wp_if; intros Ha; bool_facts; subst apply.
    { apply wp_ret. rewrite Ht. split; [done|]. split; [done|]. right. split; [done|]. exists manifest. cbn.
      split_and!; [done|done|done|done|congruence]. }
    assert (forall path, path ∈ owned_paths home configPath (ra_stage ranges (om_Files manifest)) <->
      path ∈ owned_paths home configPath (map_to_list (om_Files manifest))) as Heq.
    { intros path. rewrite !owned_paths_elem. by setoid_rewrite Hstage. }
    eapply wp_mono; [|apply (apply_uninstall_spec kept)].
    - cbn. intros v m' [Hk' Hv']. split; [done|]. destruct v as [message|state action].
      + destruct Hv' as [Hl Hv']. split_and!; [intros Hl'; rewrite <- Ht; auto|done|]. intros _. split; [done|]. by exists manifest.
      + destruct Hv' as (-> & -> & Hr & Hgone & Ho). split; [done|]. right. split; [done|]. exists manifest.
        cbn. split_and!; [done|done|done| | |].
        * intros path Hp%Heq. auto.
        * intros q Hq. rewrite <- Ht. apply Ho. intros (p & -> & Hp%Heq)%list_elem_of_fmap. apply Hq. by apply list_elem_of_fmap_2.
        * rewrite Hr. destruct found; [|rewrite Hr3, Hc2, Hc1, (Hf2 eq_refl); done].
          destruct (Hf1 eq_refl) as (r & Hreg & _). rewrite Hreg. congruence.
    - by rewrite Ht.
    - intros path [->|(n & h & Hin & Hp)]%owned_paths_elem; [done|]. rewrite Hstage, elem_of_map_to_list in Hin.
      destruct (Hall n h Hin) as (path' & Hp' & Hown). rewrite Hp in Hp'. injection Hp' as <-. by eapply Hko.
    - intros n h Hin. rewrite Hstage, elem_of_map_to_list in Hin. destruct (Hall n h Hin) as (? & -> & _). done. }
  destruct current as [| |r].
  - apply Hrefuse; [set_solver|congruence|congruence].
  - apply (Hgo false); [done|]. intros _. congruence.
  - apply wp_if; intros Hdig; bool_facts; [apply Hrefuse; [set_solver|congruence|congruence]|].
    apply (Hgo true); [|done]. intros _. exists r. apply str_eqb_eq in Hdig. split; [congruence|done].
Qed.

(** ** An installation and its removal *)

(** C11: an installation overwrites nothing and is all or nothing. Whatever operation fails, no file that
    was there changes. When it is reported as applied, the configuration, the skill and the manifest
    are on the disk with mode 0600, nothing else changed, and Codex starts the server that was asked
    for. When it is refused, the files are what they were, if what was written can be removed; and the
    registration is what it was, unless it was the registration that failed. A preview changes
    nothing. *)
Theorem install_exact home configPath config expected apply m v m' :
  runInstall run fate place codec ranges home configPath config expected apply m = (v, m') ->
  ma_tree m ⊆ ma_tree m' /\ base (ma_codex m') = base (ma_codex m) /\
  install_outcome home configPath config expected apply v m m'.
Proof. intros H. exact (wp_use _ _ _ _ _ (runInstall_spec home configPath config expected apply m) H). Qed.


Section Owned.
Context (home configPath : string) (config : IntegrationConfig) (expected : registration).
(** Setup refuses a home that is not absolute; the configuration may be given as any path, and the
    manifest keeps it cleaned. *)
Context (Hhome : is_abs home = true) (Hplace : place (path_clean configPath) = place configPath).

#[local] Abbreviation manifest := (owned_manifest home configPath config expected) (only parsing).

Lemma rel_names (rel : string) (names : list string) : rel = str_join "/" names -> Forall plain names -> names <> [] ->
  path_rel home (path_join home rel) = Some rel /\ path_clean (path_join home rel) = path_join home rel.
Proof. intros -> ??. split; [by apply path_rel_join|by apply join_plain_clean]. Qed.

Lemma config_plain : Forall plain ["prompt-better"; "integration.json"].
Proof. repeat constructor; discriminate. Qed.

Lemma skill_plain : Forall plain ["skills"; "prompt-better"; "SKILL.md"].
Proof. repeat constructor; discriminate. Qed.

(** The name of a file in the manifest leads back to the file. *)
Lemma owned_path_of path :
  path ∈ [configPath; path_join home skillRel] ->
  exists path', owned_path home configPath (ownedName home configPath path) = Some path' /\ place path' = place path.
Proof.
  destruct (rel_names defaultConfigRel ["prompt-better"; "integration.json"] eq_refl config_plain ltac:(done)) as [Hd Hdc].
  destruct (rel_names skillRel ["skills"; "prompt-better"; "SKILL.md"] eq_refl skill_plain ltac:(done)) as [Hs _].
  intros Hin. unfold ownedName. destruct (path =s configPath) eqn:Ep; cbn [andb].
  - apply str_eqb_eq in Ep. subst path. destruct (path_clean configPath =s _) eqn:Ec; cbn [negb]; [|by exists configPath].
    apply str_eqb_eq in Ec. rewrite (path_rel_ext home configPath (path_join home defaultConfigRel)), Hd by (by rewrite Hdc).
    exists (path_clean configPath). rewrite Ec. split; [done|]. by rewrite <- Ec.
  - assert (path = path_join home skillRel) as ->.
    { apply elem_of_cons in Hin as [->|Hin]; [by rewrite str_eqb_refl in Ep|]. by apply list_elem_of_singleton in Hin. }
    rewrite Hs. by exists (path_join home skillRel).
Qed.

Lemma install_files_path first path data :
  (path, data) ∈ install_files codec first home configPath (config_text config) -> path ∈ [configPath; path_join home skillRel].
Proof. unfold install_files. destruct (_ =s _); [|destruct first]; set_solver. Qed.

(** What the manifest owns is what was installed. *)
Lemma owned_places q :
  q ∈ place <$> owned_paths home configPath (map_to_list (om_Files manifest)) <->
  q ∈ place <$> (installed_files home configPath config expected).*1.
Proof.
  unfold installed_files. set (files := install_files _ _ _ _ _).
  rewrite !list_elem_of_fmap. split.
  - intros (path & -> & [->|(name & hash & Hin & Hp)]%owned_paths_elem).
    { exists (path_join home manifestRel). split; [done|]. rewrite fmap_app, elem_of_app. right. by left. }
    rewrite elem_of_map_to_list in Hin. apply elem_of_list_to_map_2 in Hin.
    apply list_elem_of_fmap in Hin as ([p d] & [= -> ->] & Hpd). cbn in Hp.
    destruct (owned_path_of p) as (path' & Hp' & Hpl); [by eapply install_files_path|].
    rewrite Hp in Hp'. injection Hp' as <-. exists p. split; [done|]. rewrite fmap_app, elem_of_app. left. by apply (list_elem_of_fmap_2 fst _ (p, d)).
  - intros (path & -> & Hin). rewrite fmap_app, elem_of_app in Hin. destruct Hin as [([p d] & -> & Hpd)%list_elem_of_fmap|Hin].
    + cbn. destruct (owned_path_of p) as (path' & Hp' & Hpl); [by eapply install_files_path|]. exists path'. split; [done|].
      apply owned_paths_elem. right. destruct (om_Files manifest !! ownedName home configPath p) as [hash|] eqn:E.
      * exists (ownedName home configPath p), hash. by rewrite elem_of_map_to_list.
      * exfalso. apply not_elem_of_list_to_map_2 in E. apply E. rewrite <- list_fmap_compose. cbn.
        apply list_elem_of_fmap. by exists (p, d).
    + exists path. split; [done|]. apply owned_paths_elem. left. by apply list_elem_of_singleton in Hin.
Qed.

(** The manifest that an installation leaves. *)
Lemma installed_manifest (m : Machine C) found :
  cd_read_manifest codec (manifest_text (owned_manifest home configPath config expected)) =
    Some (owned_manifest home configPath config expected) ->
  (forall path data, (path, data) ∈ installed_files home configPath config expected -> ma_tree m !! place path = Some (written data)) ->
  manifest_on home (ma_tree m) found -> found = manifest.
Proof.
  intros Hread Hfiles (e & He & Hr & _). rewrite (Hfiles (path_join home manifestRel) (manifest_text manifest)) in He.
  - injection He as <-. cbn in Hr. congruence.
  - unfold installed_files. apply elem_of_app. right. by left.
Qed.

(** C13: a removal undoes an installation. When nothing of it was there before and Codex had no server of
    its own, an installation that is reported as applied and then a removal that is reported as applied
    leave the files exactly as they were, and Codex with what its plugins provide.  The home is
    absolute, the path of the configuration names the same file when it is cleaned (which fails only
    when it goes up from a symbolic link), and the manifest can be read back as it was written. *)
Theorem uninstall_restores m m1 m2 :
  cd_read_manifest codec (manifest_text (owned_manifest home configPath config expected)) =
    Some (owned_manifest home configPath config expected) ->
  (forall path, path ∈ (installed_files home configPath config expected).*1 -> ma_tree m !! place path = None) ->
  runInstall run fate place codec ranges home configPath config expected true m = (States "applied" "install", m1) ->
  runUninstall run fate place codec ranges home configPath true m1 = (States "applied" "uninstall", m2) ->
  ma_tree m2 = ma_tree m /\ registered (ma_codex m2) = base (ma_codex m).
Proof.
  intros Hread Hnone H1 H2.
  pose proof (wp_use _ _ _ _ _ (runInstall_spec home configPath config expected true m) H1) as (_ & Hb & _ & Hreg & Hfiles & Honly).
  pose proof (wp_use _ _ _ _ _ (runUninstall_spec ∅ home configPath true m1 ltac:(apply map_empty_subseteq) ltac:(done) ltac:(done)) H2)
    as (_ & _ & [(_ & Hno & _)|(_ & found & Hon & _ & _ & Hgone & Ho & Hreg')]).
  { rewrite (Hfiles (path_join home manifestRel) (manifest_text manifest)) in Hno; [done|].
    unfold installed_files. apply elem_of_app. right. by left. }
  assert (found = manifest) as -> by by eapply installed_manifest.
  split; [|rewrite Hreg', Hreg; congruence].
  apply map_eq. intros q. destruct (decide (q ∈ place <$> owned_paths home configPath (map_to_list (om_Files manifest)))) as [Hq|Hq].
  - pose proof Hq as Hq'. apply list_elem_of_fmap in Hq as (path & -> & Hp). rewrite (Hgone path Hp).
    apply owned_places, list_elem_of_fmap in Hq' as (path' & -> & Hp'). symmetry. by apply Hnone.
  - rewrite (Ho q Hq). apply Honly. by rewrite <- owned_places.
Qed.

(** A configuration that is too long to be read is not found to be owned. *)
Lemma long_not_owned (m : Machine C) :
  configPath <> path_join home skillRel -> (maxFileBytes < str_len (config_text config))%Z ->
  (forall path data, (path, data) ∈ installed_files home configPath config expected -> ma_tree m !! place path = Some (written data)) ->
  (forall name hash, om_Files manifest !! name = Some hash -> exists path,
     owned_path home configPath name = Some path /\ owns_entry home configPath (ma_tree m) manifest path) -> False.
Proof.
  intros Hne Hlong Hfiles Hall.
  assert ((configPath, config_text config) ∈ install_files codec (ra_check ranges) home configPath (config_text config)) as Hin.
  { unfold install_files. destruct (_ =s _) eqn:E; [by apply str_eqb_eq in E|]. destruct (ra_check ranges); set_solver. }
  destruct (owned_path_of configPath) as (path & Hp & Hpl); [by left|].
  destruct (om_Files manifest !! ownedName home configPath configPath) as [hash|] eqn:E.
  - destruct (Hall _ _ E) as (path' & Hp' & (name & hash' & e & _ & _ & He & Hsize & _)). rewrite Hp in Hp'. injection Hp' as <-.
    rewrite Hpl, (Hfiles configPath (config_text config)) in He; [|unfold installed_files; apply elem_of_app; by left].
    injection He as <-. cbn in Hsize. lia.
  - apply not_elem_of_list_to_map_2 in E. apply E. rewrite <- list_fmap_compose. apply list_elem_of_fmap. by exists (configPath, config_text config).
Qed.

(** C38: a configuration that is too long cannot be removed. [init] takes a purpose of any length, but reads
    files of at most 64 KiB. When an installation wrote a longer configuration, every run of
    [init --uninstall] after it is refused, with or without [--apply], and changes no file.  As above,
    the home is absolute, the cleaned path of the configuration names the same file, and the manifest
    can be read back; and the configuration is not written over the skill. *)
Theorem long_configuration_stays m m1 m2 apply v :
  configPath <> path_join home skillRel ->
  (maxFileBytes < str_len (config_text config))%Z ->
  cd_read_manifest codec (manifest_text (owned_manifest home configPath config expected)) =
    Some (owned_manifest home configPath config expected) ->
  runInstall run fate place codec ranges home configPath config expected true m = (States "applied" "install", m1) ->
  runUninstall run fate place codec ranges home configPath apply m1 = (v, m2) ->
  (exists message, v = Refuses message) /\ ma_tree m2 = ma_tree m1.
Proof.
  intros Hne Hlong Hread H1 H2.
  pose proof (wp_use _ _ _ _ _ (runInstall_spec home configPath config expected true m) H1) as (_ & _ & _ & _ & Hfiles & _).
  pose proof (wp_use _ _ _ _ _ (runUninstall_spec ∅ home configPath apply m1 ltac:(apply map_empty_subseteq) ltac:(done) ltac:(done)) H2)
    as [_ Hv].
  assert (~ exists found, manifest_on home (ma_tree m1) found /\ forall name hash, om_Files found !! name = Some hash -> exists path,
    owned_path home configPath name = Some path /\ owns_entry home configPath (ma_tree m1) found path) as Hno.
  { intros (found & Hon & Hall). assert (found = manifest) as -> by by eapply installed_manifest.
    by eapply (long_not_owned m1). }
  destruct v as [message|state act]; [split; [by eexists|]|exfalso].
  - destruct Hv as (_ & Hearly & Hlate). destruct (decide (message ∈ late_refusals)) as [Hin|Hin]; [|by apply Hearly].
    exfalso. apply Hno. by apply Hlate.
  - destruct Hv as [_ [(_ & Hnone & _)|(_ & found & Hon & Hall & _)]]; [|apply Hno; eauto].
    rewrite (Hfiles (path_join home manifestRel) (manifest_text manifest)) in Hnone; [done|].
    unfold installed_files. apply elem_of_app. right. by left.
Qed.
End Owned.
End Installed.

(** ** What is installed is valid *)

Lemma sources_valid_spec sources seen :
  sources_valid sources seen = true <->
  NoDup sources /\ (forall kind, kind ∈ sources -> kind ∈ sourceKinds /\ kind ∉ seen).
Proof.
  revert seen. induction sources as [|kind sources IH]; intros seen; cbn [sources_valid].
  { split; [|done]. intros _. split; [constructor|]. by intros ? ?%elem_of_nil. }
  rewrite !andb_true_iff, negb_true_iff, IH, contains_spec, NoDup_cons.
  assert (contains seen kind = false <-> kind ∉ seen) as -> by (rewrite <- contains_spec; destruct (contains seen kind); naive_solver).
  setoid_rewrite elem_of_cons. split.
  - intros [[H1 H2] [H3 H4]]. split_and!; [|done|].
    + intros Hin. apply H4 in Hin as [_ Hin]. apply Hin. by left.
    + intros k [->|Hk]; [done|]. apply H4 in Hk as [? Hk]. split; [done|]. intros ?. apply Hk. by right.
  - intros [[H1 H2] H3]. split_and!; [by apply H3; left|by apply H3; left|done|].
    intros k Hk. split; [by apply H3; right|]. intros [->|Hs]; [done|]. by eapply H3; [right|].
Qed.

(** A configuration that [init] writes is one that [doctor] and the server accept. *)
Lemma validateInstall_stored su policyText sources purpose sourceRoot serverBinary config expected :
  validateInstall su policyText sources purpose sourceRoot serverBinary = Ok (config, expected) -> validateStoredConfig config = true.
Proof.
  unfold validateInstall. do 5 (case_goal; [done|]).
  match goal with |- match ?server with _ => _ end = _ -> _ => destruct server; [|done] end. intros [= <- _]. bool_facts.
  unfold validateStoredConfig. cbn [ic_SchemaVersion ic_ExecutionPolicy ic_RawPromptRetention ic_Telemetry ic_DatabaseEnv ic_SourceKinds ic_ProcessPurpose].
  assert (sort_strings sources ≡ₚ sources) as Hp by apply sort_strings_perm.
  assert (sources_valid (sort_strings sources) [] = true) as ->.
  { pose proof E1 as Hv. apply sources_valid_spec in Hv as [Hn Hk]. apply sources_valid_spec.
    split; [by rewrite Hp|]. intros kind. rewrite Hp. apply Hk. }
  assert (contains (sort_strings sources) "process" = contains sources "process") as ->.
  { apply eq_true_iff_eq. rewrite !contains_spec. by rewrite Hp. }
  rewrite !str_eqb_refl, (Permutation_length Hp), E, E2. destruct (_ =? _)%nat eqn:El; [by apply Nat.eqb_eq in El|done].
Qed.

(** ** A machine for examples *)

Definition toy_home : string := "/h".
Definition toy_config_path : string := "/h/prompt-better/integration.json".
Definition toy_expected : registration := mkRegistration "/bin/server" None "".
Definition toy_registration : registration := with_args toy_expected toy_config_path.

Definition toy_config (purpose : string) : IntegrationConfig :=
  mkIntegrationConfig configVersion "no_delegate" ["process"] purpose false false databaseEnv.

Definition toy_ranges : Ranges := mkRanges (fun l => l) true false map_to_list map_to_list.

(** Nothing fails; Codex knows one server. *)
Definition toy_fate : Fate := mkFate (fun _ => false) (fun _ => false) (fun _ => "") (fun _ => "x").

Definition toy_codex (args : list string) (c : bool) : (string * bool) * bool :=
  match args with
  | _ :: verb :: _ =>
      if verb =s "get" then (if c then ("{}", true) else ("not found", false), c)
      else if verb =s "add" then (("", true), true)
      else (("", true), false)
  | _ => (("", false), c)
  end.

Definition toy_document (s : string) : option Document :=
  if s =s "{}" then Some (mkDocument (rg_Command toy_registration) (rg_Args toy_registration) "" "" "" None "") else None.

(** The manifest is read back by whoever reads it. *)
Definition toy_blind : Codec := mkCodec (fun _ => None) (fun _ => None) toy_document (fun _ => None) (fun _ => None) (str_take 4) "skill".

Definition toy_manifest (purpose : string) : ownershipManifest :=
  owned_manifest toy_blind toy_ranges toy_home toy_config_path (toy_config purpose) toy_expected.

Definition toy_codec (purpose : string) : Codec :=
  mkCodec (fun _ => None) (fun s => if s =s manifest_text (toy_manifest purpose) then Some (toy_manifest purpose) else None)
    toy_document (fun _ => None) (fun _ => None) (str_take 4) "skill".

Definition toy_registered (c : bool) : option registration := if c then Some toy_registration else None.

Definition toy_base (_ : bool) : option registration := None.

#[export] Instance toy_codex_lawful purpose : LawfulCodex toy_codex (toy_codec purpose) toy_registered toy_base.
Proof.
  split; try done.
  - intros [] data document r c' [= <- <-] [= <-] [= <-]. done.
  - intros [] data c' [= <- <-] _; done.
  - intros [] answer c' [= _ <-]; done.
  - intros c out ok c' [= <- <- <-]. done.
Qed.

Lemma toy_ranges_fair : fair toy_ranges.
Proof. done. Qed.

Definition toy_install purpose := runInstall toy_codex toy_fate path_clean (toy_codec purpose) toy_ranges toy_home toy_config_path (toy_config purpose) toy_expected true.
Definition toy_uninstall purpose := runUninstall toy_codex toy_fate path_clean (toy_codec purpose) toy_ranges toy_home toy_config_path true.
Definition toy_start : Machine bool := mkMachine {["/h/notes" := mkEntry "mine" true false]} false 0.
Definition toy_purpose : string := "tests".

Definition toy_installed purpose : Machine bool := (toy_install purpose toy_start).2.

Lemma toy_installs : (toy_install toy_purpose toy_start).1 = States "applied" "install".
Proof. by vm_compute. Qed.

Lemma toy_uninstalls : (toy_uninstall toy_purpose (toy_installed toy_purpose)).1 = States "applied" "uninstall".
Proof. by vm_compute. Qed.

(** A purpose of 64 KiB. *)
Fixpoint letters (n : nat) : string := match n with O => "" | S n => String "a" (letters n) end.
Definition long_purpose : string := letters (Z.to_nat maxFileBytes).

Lemma long_installs : (toy_install long_purpose toy_start).1 = States "applied" "install".
Proof. by vm_compute. Qed.

Lemma long_config : (maxFileBytes < str_len (config_text (toy_config long_purpose)))%Z.
Proof. by vm_compute. Qed.

Lemma toy_reads purpose : cd_read_manifest (toy_codec purpose) (manifest_text (toy_manifest purpose)) = Some (toy_manifest purpose).
Proof. cbn [cd_read_manifest toy_codec]. by rewrite str_eqb_refl. Qed.

Lemma install_exact_witness :
  exists v m', toy_install toy_purpose toy_start = (v, m') /\ v = States "applied" "install" /\
    ma_tree toy_start ⊆ ma_tree m' /\ toy_base (ma_codex m') = toy_base (ma_codex toy_start) /\
    install_outcome toy_fate path_clean (toy_codec toy_purpose) toy_ranges toy_registered toy_home toy_config_path (toy_config toy_purpose)
      toy_expected true v toy_start m'.
Proof.
  exists (toy_install toy_purpose toy_start).1, (toy_installed toy_purpose). split; [apply surjective_pairing|].
  split; [exact toy_installs|].
  apply (install_exact toy_codex toy_fate path_clean (toy_codec toy_purpose) toy_ranges toy_ranges_fair toy_registered toy_base).
  apply surjective_pairing.
Defined.


(** The files of the example are new. *)
Lemma toy_new path :
  path ∈ (installed_files (toy_codec toy_purpose) toy_ranges toy_home toy_config_path (toy_config toy_purpose) toy_expected).*1 ->
  ma_tree toy_start !! path_clean path = None.
Proof.
  unfold installed_files. rewrite fmap_app, elem_of_app. cbn [fmap list_fmap install_files].
  intros Hin. assert (path ∈ [toy_config_path; path_join toy_home skillRel; path_join toy_home manifestRel]) as Hp.
  { destruct Hin as [([p d] & -> & Hpd)%list_elem_of_fmap|Hin].
    - unfold install_files in Hpd. cbn. destruct (_ =s _) in Hpd; cbn in Hpd; set_solver.
    - set_solver. }
  repeat (apply elem_of_cons in Hp as [->|Hp]; [by vm_compute|]). by apply elem_of_nil in Hp.
Qed.

Lemma uninstall_restores_witness :
  exists m1 m2, toy_install toy_purpose toy_start = (States "applied" "install", m1) /\
    toy_uninstall toy_purpose m1 = (States "applied" "uninstall", m2) /\
    ma_tree m2 = ma_tree toy_start /\ toy_registered (ma_codex m2) = toy_base (ma_codex toy_start).
Proof.
  assert (toy_install toy_purpose toy_start = (States "applied" "install", toy_installed toy_purpose)) as H1
    by (rewrite <- toy_installs; apply surjective_pairing).
  assert (toy_uninstall toy_purpose (toy_installed toy_purpose) =
    (States "applied" "uninstall", (toy_uninstall toy_purpose (toy_installed toy_purpose)).2)) as H2
    by (rewrite <- toy_uninstalls; apply surjective_pairing).
  exists (toy_installed toy_purpose), (toy_uninstall toy_purpose (toy_installed toy_purpose)).2. split; [exact H1|]. split; [exact H2|].
  apply (uninstall_restores toy_codex toy_fate path_clean (toy_codec toy_purpose) toy_ranges toy_ranges_fair toy_registered toy_base
    toy_home toy_config_path (toy_config toy_purpose) toy_expected eq_refl eq_refl toy_start (toy_installed toy_purpose)).
  - apply toy_reads.
  - exact toy_new.
  - exact H1.
  - exact H2.
Defined.

Lemma long_configuration_stays_witness :
  exists m1 v m2, toy_install long_purpose toy_start = (States "applied" "install", m1) /\
    toy_uninstall long_purpose m1 = (v, m2) /\ (exists message, v = Refuses message) /\ ma_tree m2 = ma_tree m1.
Proof.
  assert (toy_install long_purpose toy_start = (States "applied" "install", toy_installed long_purpose)) as H1
    by (rewrite <- long_installs; apply surjective_pairing).
  exists (toy_installed long_purpose), (toy_uninstall long_purpose (toy_installed long_purpose)).1,
    (toy_uninstall long_purpose (toy_installed long_purpose)).2.
  split; [exact H1|]. split; [apply surjective_pairing|].
  apply (long_configuration_stays toy_codex toy_fate path_clean (toy_codec long_purpose) toy_ranges toy_ranges_fair toy_registered toy_base
    toy_home toy_config_path (toy_config long_purpose) toy_expected eq_refl eq_refl toy_start (toy_installed long_purpose) _ true).
  - discriminate.
  - exact long_config.
  - apply toy_reads.
  - exact H1.
  - apply surjective_pairing.
Defined.
