(* ===== verification/Adapters.v ===== *)
(** * Source adapters (internal/adapters/adapter.go, sources.go)

    A JSON Lines source is read from the start at every collection, sanitized, and delivered in
    batches after a cursor; a keyed digest of the delivered prefix tells a source that has grown
    from one that has been replaced.

    Arguments: [hmac_hex] (HMAC-SHA-256 in hexadecimal, as in [Evidence]); [unmarshal] and
    [canonical_json] ([json.Unmarshal] into the source record, [json.Marshal] of the sanitized
    one); [parse_time] ([time.Parse] with RFC 3339 and nanoseconds); [ctx_err] (what the context
    reports at the n-th line).  The map of a record is visited in the order of its keys, which
    does not matter ([Evidence.Sanitize_safe]). *)
From Stdlib Require Import Ascii.
From S2P Require Import Contracts GoInt Evidence.

Inductive AdapterError :=
  | ErrDisabled
  | ErrUnsupported
  | ErrMalformed
  | ErrTruncated
  | ErrEvidence (error : EvidenceError)
  | ErrContext (message : string).

Record Request := mkRequest {
  rq_Cursor : Z;
  rq_CursorGeneration : string;
  rq_CursorDigest : string;
  rq_Limit : Z;
  rq_ObservedAt : Z;
  rq_MonotonicNanos : Z
}.

Record CollectResult := mkCollectResult {
  cr_Records : list EvidenceRecord;
  cr_NextCursor : Z;
  cr_Generation : string;
  cr_CursorDigest : string;
  cr_Coverage : Coverage;
  cr_Reason : string
}.

(** The zero value of a result, which the collector also returns. *)
Definition no_result : CollectResult := mkCollectResult [] 0 "" "" "" "".

Record SourceRecord := mkSourceRecord {
  sr_Version : string;
  sr_ObservedAt : string;
  sr_Attributes : gmap string string
}.

Record ParsedRecord := mkParsedRecord {
  pr_version : string;
  pr_canonical : string;
  pr_observedAt : Z;
  pr_eventAt : option Z;
  pr_attributes : gmap string string;
  pr_redacted : list string
}.

Record JSONL := mkJSONL {
  js_kind : string;
  js_data : string;
  js_key : string;
  js_identity : string;
  js_enabled : bool;
  js_supported : bool;
  js_maxRecordBytes : Z
}.

Definition DefaultMaxRecordBytes : Z := 256 * 1024.

(** What the reader gives: nothing without a reader, and at most 64 MiB and one byte. *)
Definition NewJSONLWithIdentity (kind identity : string) (reader : option string) (key : string)
    (enabled supported : bool) : JSONL :=
  let data := match reader with
              | Some content => str_take (Z.to_nat (64 * 1024 * 1024 + 1)) content
              | None => ""
              end in
  mkJSONL kind data key identity enabled supported DefaultMaxRecordBytes.

Definition unavailable (coverage : Coverage) (reason : string) : CollectResult :=
  mkCollectResult [] 0 "" "" coverage reason.

Definition partial (r : CollectResult) (reason : string) : CollectResult :=
  mkCollectResult (cr_Records r) (cr_NextCursor r) (cr_Generation r) (cr_CursorDigest r) CoveragePartial reason.

Definition surface (kind : string) : string :=
  if one_of kind ["codex_jsonl"; "codex_state_sqlite"; "rollout_summary"] then "codex_subscription" else "local".

(** ** Lines: [bufio.Scanner] with [ScanLines] *)

Definition newline : ascii := "010".

Definition drop_cr (line : string) : string := trim_suffix (String "013" "") line.

(** The text between newlines; nothing after the last one. *)
Definition raw_lines (data : string) : list string :=
  let pieces := split_on newline data in
  match last pieces with
  | Some "" => removelast pieces
  | _ => pieces
  end.

(** The lines that are scanned, and whether the scanner then stopped at one whose bytes, with its
    newline, do not fit the buffer of [max] bytes. *)
Fixpoint scan_lines (max : Z) (lines : list string) : list string * bool :=
  match lines with
  | [] => ([], false)
  | line :: rest =>
      if (max <=? str_len line)%Z then ([], true)
      else let '(tokens, too_long) := scan_lines max rest in (drop_cr line :: tokens, too_long)
  end.

Section JsonLines.
Context (hmac_hex : string -> string -> string) (unmarshal : string -> option SourceRecord)
        (canonical_json : SourceRecord -> string) (parse_time : string -> option Z)
        (ctx_err : nat -> option string).

(** One line: a parsed record, or the reason and the error with which the collection ends. *)
Definition parse_line (a : JSONL) (observedAt : Z) (line : string)
    : result (string * AdapterError) ParsedRecord :=
  match unmarshal line with
  | None => Err ("malformed", ErrMalformed)
  | Some source =>
      let! eventAt :=
        if sr_ObservedAt source =s "" then Ok None
        else match parse_time (sr_ObservedAt source) with
             | Some t => Ok (Some t)
             | None => Err ("malformed_time", ErrMalformed)
             end in
      match Sanitize hmac_hex (js_kind a) (js_key a) (map_to_list (sr_Attributes source)) with
      | Err e => Err ("sensitive", ErrEvidence e)
      | Ok (clean, fields) =>
          Ok (mkParsedRecord (sr_Version source)
                (canonical_json (mkSourceRecord (sr_Version source) (sr_ObservedAt source) clean))
                (default observedAt eventAt) eventAt clean fields)
      end
  end.

(** The scanning loop; a reported context error ends it without a reason. *)
Fixpoint parse_lines (a : JSONL) (observedAt : Z) (n : nat) (lines : list string)
    : result (option string * AdapterError) (list ParsedRecord) :=
  match lines with
  | [] => Ok []
  | line :: rest =>
      match ctx_err n with
      | Some message => Err (None, ErrContext message)
      | None =>
          match parse_line a observedAt line with
          | Err (reason, e) => Err (Some reason, e)
          | Ok record =>
              let! records := parse_lines a observedAt (S n) rest in Ok (record :: records)
          end
      end
  end.

(** The whole source: an error of a line comes before that of the scanner. *)
Definition parse_source (a : JSONL) (observedAt : Z)
    : result (option string * AdapterError) (list ParsedRecord) :=
  let '(lines, too_long) := scan_lines (js_maxRecordBytes a) (raw_lines (js_data a)) in
  let! records := parse_lines a observedAt 0 lines in
  if too_long then Err (Some "truncated_or_oversized", ErrTruncated) else Ok records.

Definition nul : string := String "000" "".

Definition base_generation (a : JSONL) : string :=
  hmac_hex (js_key a) (IdentityVersion +:+ nul +:+ js_kind a +:+ nul +:+ js_identity a).

Definition digestPrefix (key : string) (records : list ParsedRecord) (cursor : Z) : string :=
  let cursor := Z.min cursor (Z.of_nat (length records)) in
  hmac_hex key (IdentityVersion +:+ nul
    +:+ str_concat ((fun r => pr_canonical r +:+ nul) <$> take (Z.to_nat cursor) records)).

(** The record of an item before its coverage is judged. *)
Definition base_record (a : JSONL) (request : Request) (rotated : bool) (id : string) (sequence : Z)
    (item : ParsedRecord) : EvidenceRecord :=
  {| er_ID := id; er_SourceKind := js_kind a; er_SourceVersion := pr_version item;
     er_Sequence := sequence; er_EventAt := pr_eventAt item; er_IngestedAt := rq_ObservedAt request;
     er_ObservedAt := pr_observedAt item; er_MonotonicNanos := rq_MonotonicNanos request;
     er_Classification := "internal"; er_Coverage := CoverageComplete; er_CoverageReason := "";
     er_ProductSurface := surface (js_kind a);
     er_ContentSHA256 := hmac_hex (js_key a) (pr_canonical item);
     er_RedactedFields := Some (pr_redacted item); er_Attributes := Some (pr_attributes item);
     er_LateRevision := rotated; er_OrderingUncertain := false;
     er_GovernanceOverhead := attribute (pr_attributes item) "activity_class" =s "governance_overhead";
     er_Lineage := ParseLineage (pr_attributes item) |}.

Definition lineage_partial (r : EvidenceRecord) : EvidenceRecord :=
  {| er_ID := er_ID r; er_SourceKind := er_SourceKind r; er_SourceVersion := er_SourceVersion r;
     er_Sequence := er_Sequence r; er_EventAt := er_EventAt r; er_IngestedAt := er_IngestedAt r;
     er_ObservedAt := er_ObservedAt r; er_MonotonicNanos := er_MonotonicNanos r;
     er_Classification := er_Classification r; er_Coverage := CoveragePartial;
     er_CoverageReason := "lineage_incomplete"; er_ProductSurface := er_ProductSurface r;
     er_ContentSHA256 := er_ContentSHA256 r; er_RedactedFields := er_RedactedFields r;
     er_Attributes := er_Attributes r; er_LateRevision := er_LateRevision r;
     er_OrderingUncertain := er_OrderingUncertain r; er_GovernanceOverhead := er_GovernanceOverhead r;
     er_Lineage := er_Lineage r |}.

(** The attributes of a record of governance overhead get one more entry. *)
Definition suppress_trigger (r : EvidenceRecord) : EvidenceRecord :=
  if er_GovernanceOverhead r then
    {| er_ID := er_ID r; er_SourceKind := er_SourceKind r; er_SourceVersion := er_SourceVersion r;
       er_Sequence := er_Sequence r; er_EventAt := er_EventAt r; er_IngestedAt := er_IngestedAt r;
       er_ObservedAt := er_ObservedAt r; er_MonotonicNanos := er_MonotonicNanos r;
       er_Classification := er_Classification r; er_Coverage := er_Coverage r;
       er_CoverageReason := er_CoverageReason r; er_ProductSurface := er_ProductSurface r;
       er_ContentSHA256 := er_ContentSHA256 r; er_RedactedFields := er_RedactedFields r;
       er_Attributes := (fun m => <["collection_trigger" := "suppressed"]> m) <$> er_Attributes r;
       er_LateRevision := er_LateRevision r; er_OrderingUncertain := er_OrderingUncertain r;
       er_GovernanceOverhead := true; er_Lineage := er_Lineage r |}
  else r.

Definition incomplete_item (item : ParsedRecord) : bool := Incomplete (ParseLineage (pr_attributes item)).

Definition make_record (a : JSONL) (request : Request) (rotated : bool) (id : string) (sequence : Z)
    (item : ParsedRecord) : EvidenceRecord :=
  let record := base_record a request rotated id sequence item in
  suppress_trigger (if incomplete_item item then lineage_partial record else record).

(** The delivery loop from the item with number [sequence] on.  [request] has the cursor after
    which records are delivered. *)
Fixpoint deliver (a : JSONL) (request : Request) (rotated : bool) (sequence : Z)
    (items : list ParsedRecord) (r : CollectResult) : CollectResult * option AdapterError :=
  match items with
  | [] => (r, None)
  | item :: rest =>
      if (sequence <=? rq_Cursor request)%Z then deliver a request rotated (sequence + 1) rest r
      else
        match OpaqueID hmac_hex (js_key a) [js_kind a; cr_Generation r; fmt_d sequence] with
        | Err e => (r, Some (ErrEvidence e))
        | Ok id =>
            let record := make_record a request rotated id sequence item in
            let r := if incomplete_item item then partial r "lineage_incomplete" else r in
            match Validate record with
            | Some e => (partial r "invalid", Some (ErrEvidence e))
            | None =>
                let r := mkCollectResult (cr_Records r ++ [record]) sequence (cr_Generation r)
                           (cr_CursorDigest r) (cr_Coverage r) (cr_Reason r) in
                if (Z.of_nat (length (cr_Records r)) =? rq_Limit request)%Z then (r, None)
                else deliver a request rotated (sequence + 1) rest r
            end
        end
  end.

Definition with_cursor (request : Request) (cursor : Z) : Request :=
  mkRequest cursor (rq_CursorGeneration request) (rq_CursorDigest request) (rq_Limit request)
    (rq_ObservedAt request) (rq_MonotonicNanos request).

(** The part of [Collect] after the source has been parsed. *)
Definition collect_parsed (a : JSONL) (request : Request) (parsed : list ParsedRecord)
    : CollectResult * option AdapterError :=
  let count := Z.of_nat (length parsed) in
  let base := base_generation a in
  let prefixMatches :=
    (rq_CursorDigest request =s "")
    || (rq_CursorDigest request =s digestPrefix (js_key a) parsed (rq_Cursor request)) in
  let rotated := negb prefixMatches || (count <? rq_Cursor request)%Z in
  let generation :=
    if rotated then hmac_hex (js_key a) (base +:+ nul +:+ digestPrefix (js_key a) parsed count)
    else if negb (rq_CursorGeneration request =s "") && prefixMatches && (rq_Cursor request <=? count)%Z
    then rq_CursorGeneration request else base in
  let start := mkCollectResult [] (rq_Cursor request) generation ""
                 (if rotated then CoveragePartial else CoverageComplete)
                 (if rotated then "source_replaced" else "") in
  let request := if rotated then with_cursor request 0 else request in
  let '(r, error) := deliver a request rotated 1 parsed start in
  match error with
  | Some e => (r, Some e)
  | None => (mkCollectResult (cr_Records r) (cr_NextCursor r) (cr_Generation r)
               (digestPrefix (js_key a) parsed (cr_NextCursor r)) (cr_Coverage r) (cr_Reason r), None)
  end.

Definition Collect (a : JSONL) (request : Request) : CollectResult * option AdapterError :=
  if negb (js_enabled a) then (unavailable CoverageMissing "disabled", Some ErrDisabled)
  else if negb (js_supported a) then (unavailable CoverageUnknown "unsupported", Some ErrUnsupported)
  else if (str_len (js_data a) =? 0)%Z || (rq_Limit request <? 1)%Z
  then (unavailable CoverageMissing "missing", None)
  else
    let start := mkCollectResult [] (rq_Cursor request) "" "" CoverageComplete "" in
    match parse_source a (rq_ObservedAt request) with
    | Err (Some reason, e) => (partial start reason, Some e)
    | Err (None, e) => (start, Some e)
    | Ok parsed => collect_parsed a request parsed
    end.
End JsonLines.

(** ** The adapters of each source: some attribute must be there *)

Record contractAdapter := mkContractAdapter {
  ct_base : JSONL;
  ct_requiredAny : list string
}.

Record SourceOptions := mkSourceOptions {
  so_Reader : option string;
  so_Key : string;
  so_Enabled : bool;
  so_Supported : bool;
  so_Purpose : string;
  so_Identity : string
}.

Definition matches_contract (requiredAny : list string) (record : EvidenceRecord) : bool :=
  (length requiredAny =? 0)%nat
  || existsb (fun field => negb (attribute (default ∅ (er_Attributes record)) field =s "")) requiredAny.

Definition contract_collect hmac_hex unmarshal canonical_json parse_time ctx_err
    (a : contractAdapter) (request : Request) : CollectResult * option AdapterError :=
  match Collect hmac_hex unmarshal canonical_json parse_time ctx_err (ct_base a) request with
  | (r, Some e) => (r, Some e)
  | (r, None) =>
      if forallb (matches_contract (ct_requiredAny a)) (cr_Records r) then (r, None)
      else (partial r "schema_drift", Some ErrMalformed)
  end.

Definition source (kind : string) (options : SourceOptions) (requiredAny : list string) : contractAdapter :=
  let identity := if so_Identity options =s "" then kind else so_Identity options in
  mkContractAdapter (NewJSONLWithIdentity kind identity (so_Reader options) (so_Key options)
                       (so_Enabled options) (so_Supported options)) requiredAny.

Definition Configuration options := source "configuration" options ["execution_policy"; "activity_class"].
Definition Git options := source "git" options ["repository_alias"; "worktree_alias"].
Definition GitHub options := source "github" options ["event_kind"; "repository_alias"].
Definition CodexJSONL options := source "codex_jsonl" options ["phase"; "response_lineage"].
Definition CodexState options := source "codex_state_sqlite" options ["thread_alias"; "state"].
Definition Rollout options := source "rollout_summary" options ["trajectory_alias"; "compaction_state"].
Definition Process (options : SourceOptions) : option contractAdapter :=
  if so_Enabled options && (so_Purpose options =s "") then None
  else Some (source "process" options ["purpose"]).

(** ** What is delivered *)

Section Delivery.
Context (hmac_hex : string -> string -> string) (a : JSONL).
Hypothesis hmac_hexadecimal : forall key message, hexadecimal (hmac_hex key message).
Hypothesis hmac_nonempty : forall key message, hmac_hex key message <> "".
Hypothesis long_key : (32 <= str_len (js_key a))%Z.
Hypothesis some_kind : js_kind a <> "".

(** An item that parsing a line can give, with a time. *)
Definition good_item (item : ParsedRecord) : Prop :=
  pr_observedAt item <> zero_time
  /\ forall f v, pr_attributes item !! f = Some v -> sensitiveKey f = false /\ secretLike v = false.

Definition record_id (generation : string) (sequence : Z) : string :=
  hmac_hex (js_key a) (opaque_message [js_kind a; generation; fmt_d sequence]).

Lemma record_id_ok generation sequence :
  OpaqueID hmac_hex (js_key a) [js_kind a; generation; fmt_d sequence] = Ok (record_id generation sequence).
Proof. unfold OpaqueID. by rewrite (proj2 (Z.ltb_ge _ _) long_key). Qed.

Lemma make_record_valid request rotated id sequence item :
  good_item item -> id <> "" -> rq_ObservedAt request <> zero_time ->
  Validate (make_record hmac_hex a request rotated id sequence item) = None.
Proof.
  intros [Ht Hc] Hid Hr. unfold make_record.
  assert (forall r attributes, er_ID r <> "" -> er_SourceKind r <> "" -> er_IngestedAt r <> zero_time ->
            er_ObservedAt r <> zero_time -> er_Attributes r = Some attributes ->
            is_Some (er_RedactedFields r) ->
            (forall f v, attributes !! f = Some v -> sensitiveKey f = false /\ secretLike v = false) ->
            Validate (suppress_trigger r) = None) as H.
  { intros r attributes H1 H2 H3 H4 HA HR HC. unfold suppress_trigger.
    destruct (er_GovernanceOverhead r); [|by apply (Validate_clean r attributes)].
    apply (Validate_clean _ (<["collection_trigger" := "suppressed"]> attributes)); cbn; try done.
    - by rewrite HA.
    - intros f v [[<- <-]|[_ Hf]]%lookup_insert_Some; [split; vm_compute; reflexivity|by apply HC]. }
  destruct (incomplete_item item); apply (H _ (pr_attributes item)); try assumption; by try eexists.
Qed.

(** Items before the cursor are skipped. *)
Lemma deliver_skip request rotated sequence items1 items2 r :
  (sequence + Z.of_nat (length items1) - 1 <= rq_Cursor request)%Z ->
  deliver hmac_hex a request rotated sequence (items1 ++ items2) r
  = deliver hmac_hex a request rotated (sequence + Z.of_nat (length items1)) items2 r.
Proof.
  revert sequence. induction items1 as [|item items1 IH]; intros sequence H; cbn [app length].
  - by rewrite Z.add_0_r.
  - cbn [deliver length] in *. rewrite (proj2 (Z.leb_le _ _)) by lia. rewrite IH by lia. f_equal. lia.
Qed.

(** The records of consecutive items. *)
Fixpoint make_records (request : Request) (rotated : bool) (generation : string) (sequence : Z)
    (items : list ParsedRecord) : list EvidenceRecord :=
  match items with
  | [] => []
  | item :: rest =>
      make_record hmac_hex a request rotated (record_id generation sequence) sequence item
      :: make_records request rotated generation (sequence + 1) rest
  end.

(** Coverage and reason of a result after some items. *)
Definition covered (items : list ParsedRecord) (r : CollectResult) : Coverage * string :=
  if existsb incomplete_item items then (CoveragePartial, "lineage_incomplete")
  else (cr_Coverage r, cr_Reason r).

Lemma deliver_rest request rotated sequence items r :
  Forall good_item items -> rq_ObservedAt request <> zero_time ->
  (rq_Cursor request < sequence)%Z ->
  (Z.of_nat (length (cr_Records r)) < rq_Limit request)%Z ->
  let batch := take (Z.to_nat (rq_Limit request) - length (cr_Records r)) items in
  deliver hmac_hex a request rotated sequence items r
  = (mkCollectResult (cr_Records r ++ make_records request rotated (cr_Generation r) sequence batch)
       (if (length items =? 0)%nat then cr_NextCursor r else sequence + Z.of_nat (length batch) - 1)
       (cr_Generation r) (cr_CursorDigest r) (covered batch r).1 (covered batch r).2, None).
Proof.
  intros HG Ht. revert sequence r. induction HG as [|item items Hi HG IH]; intros sequence r Hs Hn; cbn zeta.
  { rewrite take_nil. cbn. rewrite app_nil_r. by destruct r. }
  cbn [deliver]. rewrite (proj2 (Z.leb_gt _ _) Hs), record_id_ok.
  rewrite make_record_valid by (done || apply hmac_nonempty).
  destruct (Z.to_nat (rq_Limit request) - length (cr_Records r))%nat as [|m] eqn:Em; [lia|].
  cbn [take make_records length Nat.eqb].
  set (r1 := if incomplete_item item then partial r "lineage_incomplete" else r).
  assert (cr_Records r1 = cr_Records r /\ cr_Generation r1 = cr_Generation r
          /\ cr_CursorDigest r1 = cr_CursorDigest r) as (HR & HGen & HD)
    by (unfold r1; by destruct (incomplete_item item)).
  assert (forall batch, covered batch (mkCollectResult (cr_Records r ++ [make_record hmac_hex a request rotated
                          (record_id (cr_Generation r) sequence) sequence item]) sequence (cr_Generation r)
                          (cr_CursorDigest r) (cr_Coverage r1) (cr_Reason r1))
                        = covered (item :: batch) r) as Hcov.
  { intros batch. unfold covered, r1. cbn. by destruct (incomplete_item item), (existsb _ batch). }
  cbn [cr_Records]. rewrite HR, HGen, HD, length_app. cbn [length].
  destruct (_ =? _)%Z eqn:El.
  - apply Z.eqb_eq in El. assert (m = 0%nat) as -> by lia. cbn [take make_records length].
    rewrite take_0, <- (Hcov []). cbn. do 2 f_equal. lia.
  - apply Z.eqb_neq in El. rewrite IH by (cbn [cr_Records]; rewrite ?length_app; cbn [length]; lia).
    cbn [cr_Records cr_Generation cr_CursorDigest cr_NextCursor]. rewrite length_app. cbn [length].
    replace (Z.to_nat (rq_Limit request) - (length (cr_Records r) + 1))%nat with m by lia.
    rewrite Hcov, <- (assoc_L (++)). cbn [app]. do 2 f_equal.
    destruct items as [|i2 items]; [by rewrite take_nil; cbn; lia|].
    destruct m as [|m]; [lia|]. cbn [length Nat.eqb take]. lia.
Qed.

Lemma make_records_length request rotated generation sequence items :
  length (make_records request rotated generation sequence items) = length items.
Proof. revert sequence. induction items as [|item items IH]; intros sequence; cbn; auto. Qed.

(** ** Batches *)

(** The source no longer starts with what was delivered. *)
Definition replaced (request : Request) (parsed : list ParsedRecord) : bool :=
  negb ((rq_CursorDigest request =s "")
        || (rq_CursorDigest request =s digestPrefix hmac_hex (js_key a) parsed (rq_Cursor request)))
  || (Z.of_nat (length parsed) <? rq_Cursor request)%Z.

(** Where delivery starts, and the identity under which records are numbered. *)
Definition start_cursor (request : Request) (parsed : list ParsedRecord) : Z :=
  if replaced request parsed then 0 else rq_Cursor request.

Definition delivery_generation (request : Request) (parsed : list ParsedRecord) : string :=
  if replaced request parsed
  then hmac_hex (js_key a) (base_generation hmac_hex a +:+ nul
         +:+ digestPrefix hmac_hex (js_key a) parsed (Z.of_nat (length parsed)))
  else if rq_CursorGeneration request =s "" then base_generation hmac_hex a
  else rq_CursorGeneration request.

Definition batch_of (request : Request) (parsed : list ParsedRecord) : list ParsedRecord :=
  take (Z.to_nat (rq_Limit request)) (drop (Z.to_nat (start_cursor request parsed)) parsed).

Definition batch_result (request : Request) (parsed : list ParsedRecord) : CollectResult :=
  let cursor := start_cursor request parsed in
  let batch := batch_of request parsed in
  let next := (cursor + Z.of_nat (length batch))%Z in
  let rotated := replaced request parsed in
  let coverage :=
    covered batch (mkCollectResult [] 0 "" "" (if rotated then CoveragePartial else CoverageComplete)
                     (if rotated then "source_replaced" else "")) in
  mkCollectResult (make_records (with_cursor request cursor) rotated (delivery_generation request parsed)
                     (cursor + 1) batch)
    next (delivery_generation request parsed) (digestPrefix hmac_hex (js_key a) parsed next)
    coverage.1 coverage.2.

Lemma make_records_cursor request cursor rotated generation sequence items :
  make_records (with_cursor request cursor) rotated generation sequence items
  = make_records request rotated generation sequence items.
Proof. revert sequence. induction items as [|item items IH]; intros sequence; cbn; [done|]. by rewrite IH. Qed.

Lemma deliver_batch request rotated parsed r cursor :
  Forall good_item parsed -> rq_ObservedAt request <> zero_time -> (1 <= rq_Limit request)%Z ->
  rq_Cursor request = cursor -> (0 <= cursor <= Z.of_nat (length parsed))%Z ->
  cr_Records r = [] -> cr_NextCursor r = cursor \/ parsed <> [] /\ cursor = 0%Z ->
  let batch := take (Z.to_nat (rq_Limit request)) (drop (Z.to_nat cursor) parsed) in
  deliver hmac_hex a request rotated 1 parsed r
  = (mkCollectResult (make_records request rotated (cr_Generation r) (cursor + 1) batch)
       (cursor + Z.of_nat (length batch)) (cr_Generation r) (cr_CursorDigest r)
       (covered batch r).1 (covered batch r).2, None).
Proof.
  intros HG Ht HL Hc Hr HR HN. cbn zeta.
  rewrite <- (take_drop (Z.to_nat cursor) parsed) at 1.
  assert (Z.of_nat (length (take (Z.to_nat cursor) parsed)) = cursor) as Hlen by (rewrite length_take; lia).
  rewrite deliver_skip by lia.
  rewrite deliver_rest; [|by apply Forall_drop|done|lia|rewrite HR; cbn; lia].
  rewrite HR, Hlen. cbn [app length]. rewrite Nat.sub_0_r, (Z.add_comm 1).
  do 2 f_equal. destruct (drop (Z.to_nat cursor) parsed) as [|item rest] eqn:E; cbn [length Nat.eqb].
  - rewrite take_nil. cbn. destruct HN as [->|[Hp ->]]; [lia|]. cbn in E. done.
  - lia.
Qed.

Lemma collect_parsed_batch request parsed :
  Forall good_item parsed -> parsed <> [] -> rq_ObservedAt request <> zero_time ->
  (1 <= rq_Limit request)%Z -> (0 <= rq_Cursor request)%Z ->
  collect_parsed hmac_hex a request parsed = (batch_result request parsed, None).
Proof.
  intros HG Hne Ht HL Hc. unfold collect_parsed, batch_result, batch_of, delivery_generation, start_cursor.
  fold (replaced request parsed). destruct (replaced request parsed) eqn:Hrot.
  - rewrite (deliver_batch _ _ _ _ 0); try done; [lia|by right].
  - pose proof Hrot as [Hm Hlen]%orb_false_iff. apply negb_false_iff in Hm. apply Z.ltb_ge in Hlen.
    rewrite Hm, (proj2 (Z.leb_le _ _) Hlen), andb_true_r, andb_true_r.
    rewrite (deliver_batch _ _ _ _ (rq_Cursor request)); try done; [|cbn; by left].
    rewrite make_records_cursor. cbn [cr_Generation cr_CursorDigest cr_NextCursor cr_Records].
    by destruct (rq_CursorGeneration request =s "").
Qed.

Lemma digestPrefix_app key p q c :
  (c <= Z.of_nat (length p))%Z -> digestPrefix hmac_hex key (p ++ q) c = digestPrefix hmac_hex key p c.
Proof.
  intros H. unfold digestPrefix. rewrite length_app, !Z.min_l by lia. rewrite take_app_le by lia. done.
Qed.
End Delivery.

(** ** From the text of the source *)

Lemma raw_lines_nonempty data : data <> "" -> raw_lines data <> [].
Proof.
  intros Hd. unfold raw_lines. pose proof (join_split newline data) as HJ.
  destruct (split_on newline data) as [|x [|y l]] eqn:E; cbn [last].
  - cbn in HJ. congruence.
  - cbn in HJ. by destruct x.
  - by repeat case_match.
Qed.

Lemma scan_lines_length max lines tokens : scan_lines max lines = (tokens, false) -> length tokens = length lines.
Proof.
  revert tokens. induction lines as [|line lines IH]; intros tokens; cbn; [by intros [= <-]|].
  destruct (_ <=? _)%Z; [done|]. destruct (scan_lines max lines) as [l b]. intros [= <- ->]. cbn. by rewrite IH.
Qed.

Section Source.
Context (hmac_hex : string -> string -> string) (unmarshal : string -> option SourceRecord)
        (canonical_json : SourceRecord -> string) (parse_time : string -> option Z)
        (ctx_err : nat -> option string) (a : JSONL).
Hypothesis hmac_hexadecimal : forall key message, hexadecimal (hmac_hex key message).

Definition timed (item : ParsedRecord) : Prop := pr_observedAt item <> zero_time.

Lemma parse_line_sanitized observedAt line item :
  parse_line hmac_hex unmarshal canonical_json parse_time a observedAt line = Ok item ->
  forall f v, pr_attributes item !! f = Some v -> sensitiveKey f = false /\ secretLike v = false.
Proof.
  unfold parse_line. destruct (unmarshal line) as [src|]; [|done].
  destruct (if sr_ObservedAt src =s "" then _ else _) as [t|e]; [|done].
  destruct (Sanitize _ _ _ _) as [[clean fields]|e] eqn:HS; [|done]. intros [= <-].
  exact (Sanitize_clean _ _ _ _ _ _ _ hmac_hexadecimal (reflexivity _) HS).
Qed.

Lemma parse_lines_good observedAt n lines parsed :
  parse_lines hmac_hex unmarshal canonical_json parse_time ctx_err a observedAt n lines = Ok parsed ->
  Forall timed parsed -> Forall good_item parsed /\ length parsed = length lines.
Proof.
  revert n parsed. induction lines as [|line lines IH]; intros n parsed; cbn [parse_lines].
  - intros [= <-] _. by split.
  - destruct (ctx_err n); [done|].
    destruct (parse_line _ _ _ _ _ _ line) as [item|[? ?]] eqn:Hl; [|done].
    destruct (parse_lines _ _ _ _ _ _ _ _ lines) as [l|] eqn:Hr; [|done].
    intros [= <-] [Ht Hts]%Forall_cons. destruct (IH _ _ Hr Hts) as [IHg IHl]. split; [|cbn; by rewrite IHl].
    constructor; [|done]. split; [done|]. exact (parse_line_sanitized _ _ _ Hl).
Qed.

Lemma parse_source_good observedAt parsed :
  js_data a <> "" ->
  parse_source hmac_hex unmarshal canonical_json parse_time ctx_err a observedAt = Ok parsed ->
  Forall timed parsed -> Forall good_item parsed /\ parsed <> [].
Proof.
  intros Hd. unfold parse_source. destruct (scan_lines _ _) as [tokens too_long] eqn:Hs.
  destruct (parse_lines _ _ _ _ _ _ _ _ tokens) as [l|] eqn:Hl; [|done].
  destruct too_long; [done|]. intros [= <-] Ht. destruct (parse_lines_good _ _ _ _ Hl Ht) as [Hg Hlen].
  split; [done|]. intros ->. apply scan_lines_length in Hs. rewrite <- Hlen in Hs. cbn in Hs.
  apply raw_lines_nonempty in Hd. by destruct (raw_lines (js_data a)).
Qed.

Lemma Collect_parsed request parsed :
  (forall key message, hmac_hex key message <> "") ->
  (32 <= str_len (js_key a))%Z -> js_kind a <> "" -> js_enabled a = true -> js_supported a = true ->
  js_data a <> "" -> (1 <= rq_Limit request)%Z -> (0 <= rq_Cursor request)%Z ->
  rq_ObservedAt request <> zero_time ->
  parse_source hmac_hex unmarshal canonical_json parse_time ctx_err a (rq_ObservedAt request) = Ok parsed ->
  Forall timed parsed ->
  Collect hmac_hex unmarshal canonical_json parse_time ctx_err a request
  = (batch_result hmac_hex a request parsed, None).
Proof.
  intros Hne Hk Hkind He Hsup Hd HL Hc Ht HP Htimed. unfold Collect. rewrite He, Hsup. cbn [negb].
  assert (str_len (js_data a) =? 0 = false)%Z as ->.
  { apply Z.eqb_neq. destruct (js_data a); [done|]. rewrite str_len_cons. pose proof (str_len_nonneg s). lia. }
  rewrite (proj2 (Z.ltb_ge _ _) HL), HP. cbn [orb].
  destruct (parse_source_good _ _ Hd HP Htimed) as [Hg Hnil]. by apply collect_parsed_batch.
Qed.
End Source.
