(* ===== verification/Collector.v ===== *)
(** * The collector (internal/collector/collector.go)

    One run takes the lease of a source, reads where collection stopped, collects a batch with
    bounded retries and commits it with the new position.  The store and the leases are an
    interface, [Backend]: every call may fail and may change the state.  [Run] itself is a
    function of that state and of the quarantine list. *)
From Stdlib Require Import Ascii.
From S2P Require Import Contracts GoInt Evidence Adapters.

Inductive CollectorError :=
  | ErrLeaseHeld
  | ErrFailed (message : string)
  | ErrWaiting (message : string)
  | ErrSource (error : AdapterError)
  | ErrIdentity (error : EvidenceError)
  | ErrCommit (message : string).

Record Commit := mkCommit {
  cm_BatchID : string;
  cm_SourceKind : string;
  cm_Cursor : Z;
  cm_Generation : string;
  cm_CursorDigest : string;
  cm_Fence : string;
  cm_Records : list EvidenceRecord
}.

Record QuarantineEntry := mkQuarantineEntry {
  qe_SourceKind : string;
  qe_Code : string;
  qe_Attempt : Z;
  qe_At : Z
}.

Record Options := mkOptions {
  op_Owner : string;
  op_BatchLimit : Z;
  op_MaxAttempts : Z;
  op_LeaseDuration : Z;
  op_BaseBackoff : Z
}.

(** [New] without its defaults for the clock and the wait. *)
Definition valid_options (options : Options) : bool :=
  negb ((op_Owner options =s "") || (op_BatchLimit options <? 1)%Z || (op_MaxAttempts options <? 1)%Z
        || (op_LeaseDuration options <=? 0)%Z || (op_BaseBackoff options <? 0)%Z).

(** A call of the store: a result or an error, and the state after it. *)
Definition Call (S A : Type) : Type := S -> result string A * S.

(** [Store], [LeaseStore], and the two optional interfaces. *)
Record Backend (S : Type) := mkBackend {
  bk_Cursor : string -> Call S Z;
  bk_Generation : option (string -> Call S string);
  bk_Digest : option (string -> Call S string);
  bk_Commit : Commit -> Call S bool;
  bk_Acquire : string -> string -> Z -> Z -> Call S (string * bool);
  bk_Renew : string -> string -> string -> Z -> Z -> Call S bool;
  bk_Release : string -> string -> string -> Call S unit
}.
Arguments bk_Cursor {S}. Arguments bk_Generation {S}. Arguments bk_Digest {S}.
Arguments bk_Commit {S}. Arguments bk_Acquire {S}. Arguments bk_Renew {S}. Arguments bk_Release {S}.

Definition permanent (e : AdapterError) : bool :=
  match e with
  | ErrMalformed | ErrTruncated | ErrEvidence ErrSensitive => true
  | _ => false
  end.

Definition errorCode (e : AdapterError) : string :=
  match e with
  | ErrMalformed => "malformed"
  | ErrTruncated => "truncated"
  | ErrEvidence ErrSensitive => "sensitive"
  | _ => "adapter_failure"
  end.

Definition unavailable_error (e : AdapterError) : bool :=
  match e with ErrDisabled | ErrUnsupported => true | _ => false end.

(** [BaseBackoff * time.Duration(1 << (attempt-1))], in 64 bits. *)
Definition backoff (base attempt : Z) : Z := i64 (base * i64 (Z.shiftl 1 (attempt - 1))).

Section Run.
Context {S : Type} (backend : Backend S) (options : Options)
        (hmac_hex : string -> string -> string)
        (kind : string) (collect : Z -> Request -> CollectResult * option AdapterError)
        (wait : Z -> option string).

(** What a failed optional call reports. *)
Definition optional_call (call : option (string -> Call S string)) (s : S) : result string string * S :=
  match call with
  | Some call => call kind s
  | None => (Ok "", s)
  end.

(** The outcome of the attempts: the result to go on with, or the one to return; and what was
    put into quarantine. *)
Inductive Attempted :=
  | Collected (r : CollectResult) (e : option AdapterError)
  | Stopped (r : CollectResult) (e : CollectorError) (quarantined : option QuarantineEntry).

(** The attempts from [attempt] on, [left] of them. *)
Fixpoint attempts (now : Z) (request : Request) (left : nat) (attempt : Z) : Attempted :=
  match left with
  | O => Collected no_result None
  | Datatypes.S left' =>
      let '(r, error) := collect attempt request in
      match error with
      | None => Collected r None
      | Some e =>
          if unavailable_error e then Collected r (Some e)
          else
            let entry := mkQuarantineEntry kind (errorCode e) attempt now in
            if permanent e || (attempt =? op_MaxAttempts options)%Z
            then Stopped r (ErrFailed "source collection failed") (Some entry)
            else match wait (backoff (op_BaseBackoff options) attempt) with
                 | Some message => Stopped r (ErrWaiting message) None
                 | None => attempts now request left' (attempt + 1)
                 end
      end
  end.

Definition batch_id (cursor : Z) (r : CollectResult) : result EvidenceError string :=
  OpaqueID hmac_hex "collector-batch-identity-key-32!!"
    [kind; cr_Generation r; cr_CursorDigest r; fmt_d cursor; fmt_d (cr_NextCursor r)].

(** The result of a run, the state and the quarantine list after it. *)
Definition Outcome : Type := CollectResult * option CollectorError * S * list QuarantineEntry.

(** Renewing the lease and committing a collected batch. *)
Definition commit_batch (now2 : Z) (fence : string) (cursor : Z) (r : CollectResult)
    (e : option AdapterError) (s : S) : CollectResult * option CollectorError * S :=
  match bk_Renew backend kind (op_Owner options) fence now2 (op_LeaseDuration options) s with
  | (Err _, s) => (r, Some (ErrFailed "renew source lease"), s)
  | (Ok false, s) => (r, Some ErrLeaseHeld, s)
  | (Ok true, s) =>
      match batch_id cursor r with
      | Err e => (r, Some (ErrIdentity e), s)
      | Ok id =>
          match bk_Commit backend (mkCommit id kind (cr_NextCursor r) (cr_Generation r)
                                     (cr_CursorDigest r) fence (cr_Records r)) s with
          | (Err message, s) => (r, Some (ErrCommit message), s)
          | (Ok _, s) => (r, ErrSource <$> e, s)
          end
      end
  end.

(** The run between taking and releasing the lease. *)
Definition run_leased (now now2 : Z) (fence : string) (s : S) (quarantine : list QuarantineEntry) : Outcome :=
  match bk_Cursor backend kind s with
  | (Err _, s) => (no_result, Some (ErrFailed "read source cursor"), s, quarantine)
  | (Ok cursor, s) =>
      match optional_call (bk_Generation backend) s with
      | (Err _, s) => (no_result, Some (ErrFailed "read source generation"), s, quarantine)
      | (Ok generation, s) =>
          match optional_call (bk_Digest backend) s with
          | (Err _, s) => (no_result, Some (ErrFailed "read source cursor digest"), s, quarantine)
          | (Ok digest, s) =>
              let request := mkRequest cursor generation digest (op_BatchLimit options) now now in
              match attempts now request (Z.to_nat (op_MaxAttempts options)) 1 with
              | Stopped r e entry => (r, Some e, s, quarantine ++ option_list entry)
              | Collected r e =>
                  if (length (cr_Records r) =? 0)%nat then (r, ErrSource <$> e, s, quarantine)
                  else
                    let '(r, error, s) := commit_batch now2 fence cursor r e s in
                    (r, error, s, quarantine)
              end
          end
      end
  end.

(** [Run], with the times of its two readings of the clock. *)
Definition Run (now now2 : Z) (s : S) (quarantine : list QuarantineEntry) : Outcome :=
  match bk_Acquire backend kind (op_Owner options) now (op_LeaseDuration options) s with
  | (Err _, s) => (no_result, Some (ErrFailed "acquire source lease"), s, quarantine)
  | (Ok (_, false), s) => (no_result, Some ErrLeaseHeld, s, quarantine)
  | (Ok (fence, true), s) =>
      let '(r, error, s, quarantine) := run_leased now now2 fence s quarantine in
      let '(_, s) := bk_Release backend kind (op_Owner options) fence s in
      (r, error, s, quarantine)
  end.
End Run.

(** ** What the store promises *)

(** A batch whose position can be written as the text of a cursor. *)
Definition encodable (generation digest : string) (cursor : Z) : Prop :=
  generation <> "" /\ no_char ":"%char generation /\ no_char ":"%char digest /\ u64_range cursor.

(** The position of a source and the records delivered so far, as the store has them.  Reading
    and leasing change neither; a commit applies its batch entirely, or not at all, whatever it
    then reports. *)
Class LawfulBackend {S : Type} (backend : Backend S) (kind : string) : Type := {
  sane : S -> Prop;
  position : S -> Z * string * string;
  delivered : S -> list EvidenceRecord;
  kept (s s' : S) : Prop := sane s' /\ position s' = position s /\ delivered s' = delivered s;
  cursor_law s : sane s -> kept s (bk_Cursor backend kind s).2
                 /\ forall c, (bk_Cursor backend kind s).1 = Ok c -> c = (position s).1.1;
  generation_law s : sane s -> exists call, bk_Generation backend = Some call /\ kept s (call kind s).2
                     /\ forall g, (call kind s).1 = Ok g -> g = (position s).1.2;
  digest_law s : sane s -> exists call, bk_Digest backend = Some call /\ kept s (call kind s).2
                 /\ forall d, (call kind s).1 = Ok d -> d = (position s).2;
  acquire_law owner now duration s : sane s -> kept s (bk_Acquire backend kind owner now duration s).2;
  renew_law owner fence now duration s : sane s -> kept s (bk_Renew backend kind owner fence now duration s).2;
  release_law owner fence s : sane s -> kept s (bk_Release backend kind owner fence s).2;
  commit_law c s :
    sane s -> cm_SourceKind c = kind -> encodable (cm_Generation c) (cm_CursorDigest c) (cm_Cursor c) ->
    let s' := (bk_Commit backend c s).2 in
    (sane s' /\ position s' = (cm_Cursor c, cm_Generation c, cm_CursorDigest c)
     /\ delivered s' = delivered s ++ cm_Records c)
    \/ kept s s'
}.

Section Lawful.
Context {S : Type} (backend : Backend S) (kind : string) `{!LawfulBackend backend kind}
        (options : Options) (hmac_hex : string -> string -> string)
        (collect : Z -> Request -> CollectResult * option AdapterError) (wait : Z -> option string).

(** The request that a run makes at a position. *)
Definition request_at (p : Z * string * string) (now : Z) : Request :=
  mkRequest p.1.1 p.1.2 p.2 (op_BatchLimit options) now now.

Lemma attempts_collected now request left attempt r e :
  attempts options kind collect wait now request left attempt = Collected r e ->
  cr_Records r <> [] ->
  exists n, collect n request = (r, e) /\ (e = None \/ exists e', e = Some e' /\ unavailable_error e' = true).
Proof.
  revert attempt. induction left as [|left IH]; intros attempt; cbn [attempts].
  { intros [= <- <-]. done. }
  destruct (collect attempt request) as [r' [e'|]] eqn:Hc; [|intros [= <- <-] _; eauto].
  destruct (unavailable_error e') eqn:Hu; [intros [= <- <-] _; eauto 6|].
  destruct (_ || _); [done|]. destruct (wait _); [done|]. apply IH.
Qed.

(** A batch that an attempt at a position can give. *)
Definition batch_at (now : Z) (p : Z * string * string) (r : CollectResult) : Prop :=
  cr_Records r <> []
  /\ exists n e, collect n (request_at p now) = (r, e) /\ (e = None \/ exists e', e = Some e' /\ unavailable_error e' = true).

(** Every such batch has a position that the store can keep. *)
Definition writes_encodable (now : Z) (p : Z * string * string) : Prop :=
  forall r, batch_at now p r -> encodable (cr_Generation r) (cr_CursorDigest r) (cr_NextCursor r).

(** A run leaves the store as it was, or commits a batch that was collected at its position. *)
Definition run_effect (now : Z) (s s' : S) : Prop :=
  kept s s'
  \/ exists r, batch_at now (position s) r
       /\ sane s' /\ position s' = (cr_NextCursor r, cr_Generation r, cr_CursorDigest r)
       /\ delivered s' = delivered s ++ cr_Records r.

Lemma kept_trans s1 s2 s3 : kept s1 s2 -> kept s2 s3 -> kept s1 s3.
Proof. unfold kept. intros (_ & -> & ->) (H & -> & ->). done. Qed.

Lemma run_effect_after now s1 s2 s3 : kept s1 s2 -> run_effect now s2 s3 -> run_effect now s1 s3.
Proof.
  intros H1 [H2|(r & Hb & Hs & Hp & Hd)]; [left; eauto using kept_trans|].
  right. exists r. destruct H1 as (_ & HP1 & HD1). by rewrite <- HP1, <- HD1.
Qed.

Lemma run_effect_before now s1 s2 s3 : run_effect now s1 s2 -> kept s2 s3 -> run_effect now s1 s3.
Proof.
  intros [H1|(r & Hb & Hs & Hp & Hd)] H2; [left; eauto using kept_trans|].
  right. exists r. destruct H2 as (H2 & -> & ->). done.
Qed.

Lemma run_effect_sane now s s' : run_effect now s s' -> sane s'.
Proof. intros [[H _]|(r & _ & H & _)]; exact H. Qed.

Lemma commit_batch_effect now now2 fence r e s :
  sane s -> writes_encodable now (position s) -> batch_at now (position s) r ->
  run_effect now s (commit_batch backend options hmac_hex kind now2 fence (position s).1.1 r e s).2.
Proof.
  intros HS HE Hb. unfold commit_batch.
  pose proof (renew_law (op_Owner options) fence now2 (op_LeaseDuration options) s HS) as Hn.
  destruct (bk_Renew _ _ _ _ _ _ s) as [[[|]|] s1]; cbn [snd] in Hn |- *; [|by left..].
  destruct (batch_id _ _ _ _) as [id|]; [|by left].
  pose proof (commit_law (mkCommit id kind (cr_NextCursor r) (cr_Generation r) (cr_CursorDigest r) fence
                            (cr_Records r)) s1 (proj1 Hn) eq_refl (HE r Hb)) as Hcm.
  destruct (bk_Commit _ _ s1) as [out s2]. cbn in Hcm.
  assert (run_effect now s s2) as H; [|by destruct out].
  apply (run_effect_after now s s1 s2 Hn). destruct Hcm as [Hc|Hk]; [|by left].
  right. exists r. split; [|exact Hc]. destruct Hn as (_ & -> & _). exact Hb.
Qed.

Lemma run_leased_effect now now2 fence s quarantine :
  sane s -> writes_encodable now (position s) ->
  run_effect now s (run_leased backend options hmac_hex kind collect wait now now2 fence s quarantine).1.2.
Proof.
  intros HS HE. unfold run_leased. destruct (cursor_law s HS) as [Hk Hv].
  destruct (bk_Cursor _ _ s) as [[c|] s1]; cbn [fst snd] in *; [|by left]. specialize (Hv c eq_refl).
  destruct (generation_law s1 (proj1 Hk)) as (gen & Eg & Hk2 & Hv2). rewrite Eg. cbn [optional_call].
  destruct (gen kind s1) as [[g|] s2]; cbn [fst snd] in *; [|left; eauto using kept_trans]. specialize (Hv2 g eq_refl).
  destruct (digest_law s2 (proj1 Hk2)) as (dig & Ed & Hk3 & Hv3). rewrite Ed. cbn [optional_call].
  assert (kept s s2) as Hk12 by eauto using kept_trans.
  destruct (dig kind s2) as [[d|] s3]; cbn [fst snd] in *; [|left; eauto using kept_trans]. specialize (Hv3 d eq_refl).
  assert (kept s s3) as Hk13 by eauto using kept_trans. pose proof Hk13 as (HS3 & HP3 & HD3).
  assert (mkRequest c g d (op_BatchLimit options) now now = request_at (position s3) now) as ->.
  { unfold request_at. destruct Hk as (_ & E1 & _), Hk12 as (_ & E2 & _).
    rewrite E1 in Hv2. rewrite E2 in Hv3. rewrite HP3. by subst. }
  assert (c = (position s3).1.1) as Hc3 by by rewrite HP3.
  destruct (attempts _ _ _ _ _ _ _ _) as [r e|r e entry] eqn:Ha; [|by left].
  destruct (length (cr_Records r) =? 0)%nat eqn:El; [by left|].
  assert (cr_Records r <> []) as Hr by (intros E; by rewrite E in El).
  assert (batch_at now (position s3) r) as Hb.
  { split; [done|]. destruct (attempts_collected _ _ _ _ _ _ Ha Hr) as (n & Hn & He). eauto. }
  rewrite <- HP3 in HE. pose proof (commit_batch_effect now now2 fence r e s3 HS3 HE Hb) as He. rewrite <- Hc3 in He.
  destruct (commit_batch _ _ _ _ _ _ _ _ _ s3) as [[r' e'] s4]. cbn in He |- *.
  by apply (run_effect_after _ _ _ _ Hk13 He).
Qed.

Lemma Run_effect now now2 s quarantine :
  sane s -> writes_encodable now (position s) ->
  run_effect now s (Run backend options hmac_hex kind collect wait now now2 s quarantine).1.2.
Proof.
  intros HS HE. unfold Run. pose proof (acquire_law (op_Owner options) now (op_LeaseDuration options) s HS) as Ha.
  destruct (bk_Acquire _ _ _ _ _ s) as [[[fence [|]]|] s1]; cbn [snd] in Ha; [|by left..].
  rewrite <- (proj1 (proj2 Ha)) in HE.
  pose proof (run_leased_effect now now2 fence s1 quarantine (proj1 Ha) HE) as Hl.
  destruct (run_leased _ _ _ _ _ _ _ _ _ s1 _) as [[[r e] s2] q]. cbn [fst snd] in Hl.
  pose proof (release_law (op_Owner options) fence s2 (run_effect_sane _ _ _ Hl)) as Hr.
  destruct (bk_Release _ _ _ _ s2) as [u s3]. cbn [fst snd] in *.
  apply (run_effect_after _ _ _ _ Ha), (run_effect_before _ _ _ _ Hl Hr).
Qed.
End Lawful.

(** A store that works: from a state that is [ready] a lease is granted, and while it is held every
    call succeeds; a batch that moves the position forward is applied.  Outside of those states it
    may fail as it likes. *)
Class ReliableBackend {S : Type} (backend : Backend S) (kind : string) `{!LawfulBackend backend kind} : Type := {
  ready : S -> Prop;
  held : string -> string -> S -> Prop;
  ready_acquire owner now duration s :
    sane s -> ready s -> owner <> "" -> (0 < duration)%Z ->
    exists fence s', bk_Acquire backend kind owner now duration s = (Ok (fence, true), s') /\ held owner fence s';
  held_cursor owner fence s :
    sane s -> held owner fence s -> exists c s', bk_Cursor backend kind s = (Ok c, s') /\ held owner fence s';
  held_generation owner fence s call :
    sane s -> held owner fence s -> bk_Generation backend = Some call ->
    exists g s', call kind s = (Ok g, s') /\ held owner fence s';
  held_digest owner fence s call :
    sane s -> held owner fence s -> bk_Digest backend = Some call ->
    exists d s', call kind s = (Ok d, s') /\ held owner fence s';
  held_renew owner fence now duration s :
    sane s -> held owner fence s -> (0 < duration)%Z ->
    exists s', bk_Renew backend kind owner fence now duration s = (Ok true, s') /\ held owner fence s';
  held_commit owner fence c s :
    sane s -> held owner fence s -> cm_SourceKind c = kind -> cm_Fence c = fence ->
    encodable (cm_Generation c) (cm_CursorDigest c) (cm_Cursor c) ->
    ((position s).1.1 < cm_Cursor c)%Z -> cm_Records c <> [] ->
    exists b s', bk_Commit backend c s = (Ok b, s') /\ sane s' /\ held owner fence s'
      /\ position s' = (cm_Cursor c, cm_Generation c, cm_CursorDigest c)
      /\ delivered s' = delivered s ++ cm_Records c;
  held_release owner fence s :
    sane s -> held owner fence s -> exists u s', bk_Release backend kind owner fence s = (u, s') /\ ready s'
}.

(** ** Exactly once *)

(** What identifies a delivered record: its opaque identifier, its number and its digest. *)
Definition identity (r : EvidenceRecord) : string * Z * string := (er_ID r, er_Sequence r, er_ContentSHA256 r).

Section Exactly.
Context (hmac_hex : string -> string -> string) (a : JSONL).
Hypothesis hmac_hexadecimal : forall key message, hexadecimal (hmac_hex key message).
Hypothesis hmac_nonempty : forall key message, hmac_hex key message <> "".
Hypothesis long_key : (32 <= str_len (js_key a))%Z.
Hypothesis some_kind : js_kind a <> "".

(** The identities of consecutive items, given by their canonical forms. *)
Fixpoint identities (generation : string) (sequence : Z) (canonicals : list string) : list (string * Z * string) :=
  match canonicals with
  | [] => []
  | c :: rest =>
      (record_id hmac_hex a generation sequence, sequence, hmac_hex (js_key a) c)
      :: identities generation (sequence + 1) rest
  end.

Lemma identities_app generation sequence l1 l2 :
  identities generation sequence (l1 ++ l2)
  = identities generation sequence l1 ++ identities generation (sequence + Z.of_nat (length l1)) l2.
Proof.
  revert sequence. induction l1 as [|c l1 IH]; intros sequence; cbn [app identities length].
  - by rewrite Z.add_0_r.
  - rewrite IH. do 3 f_equal. lia.
Qed.

Lemma identities_take generation sequence n l :
  identities generation sequence (take n l) = take n (identities generation sequence l).
Proof. revert n sequence. induction l as [|c l IH]; intros [|n] sequence; cbn; by rewrite ?IH. Qed.

Lemma make_record_identity request rotated id sequence item :
  identity (make_record hmac_hex a request rotated id sequence item)
  = (id, sequence, hmac_hex (js_key a) (pr_canonical item)).
Proof. unfold make_record, suppress_trigger. by destruct (incomplete_item item); cbn; case_match. Qed.

Lemma make_records_identities request rotated generation sequence items :
  identity <$> make_records hmac_hex a request rotated generation sequence items
  = identities generation sequence (pr_canonical <$> items).
Proof.
  revert sequence. induction items as [|item items IH]; intros sequence; cbn; [done|].
  by rewrite make_record_identity, IH.
Qed.

Definition prefix_digest (canonicals : list string) : string :=
  hmac_hex (js_key a) (IdentityVersion +:+ nul +:+ str_concat ((fun c => c +:+ nul) <$> canonicals)).

Lemma digestPrefix_canonicals parsed cursor :
  (0 <= cursor <= Z.of_nat (length parsed))%Z ->
  digestPrefix hmac_hex (js_key a) parsed cursor
  = prefix_digest (take (Z.to_nat cursor) (pr_canonical <$> parsed)).
Proof.
  intros H. unfold digestPrefix, prefix_digest. rewrite Z.min_l by lia.
  by rewrite <- fmap_take, <- list_fmap_compose.
Qed.

(** The store is in step with a source: it has delivered some of its items, from the first on and
    once each, and knows where it stopped. *)
Definition in_step (canonicals : list string) (p : Z * string * string) (records : list EvidenceRecord) : Prop :=
  exists n, (n <= length canonicals)%nat
    /\ (n = 0%nat /\ p = (0%Z, "", "")
        \/ p = (Z.of_nat n, base_generation hmac_hex a, prefix_digest (take n canonicals)))
    /\ identity <$> records = identities (base_generation hmac_hex a) 1 (take n canonicals).

Lemma in_step_grow canonicals canonicals' p records :
  canonicals `prefix_of` canonicals' -> in_step canonicals p records -> in_step canonicals' p records.
Proof.
  intros [rest ->] (n & Hn & Hp & Hr). exists n. rewrite length_app, take_app_le by done.
  split; [lia|]. done.
Qed.

Lemma take_length_take {A} k (l : list A) : take (length (take k l)) l = take k l.
Proof. revert k. induction l as [|x l IH]; intros [|k]; cbn; by rewrite ?IH. Qed.

(** A batch collected in step is the next one. *)
Lemma in_step_batch parsed p records options now :
  in_step (pr_canonical <$> parsed) p records -> (1 <= op_BatchLimit options)%Z ->
  let r := batch_result hmac_hex a (request_at options p now) parsed in
  in_step (pr_canonical <$> parsed) (cr_NextCursor r, cr_Generation r, cr_CursorDigest r)
    (records ++ cr_Records r)
  /\ Z.of_nat (length (cr_Records r)) = Z.min (op_BatchLimit options) (Z.of_nat (length parsed) - p.1.1).
Proof.
  intros (n & Hn & Hp & Hr) HL. cbn zeta. rewrite length_fmap in Hn.
  assert (rq_Cursor (request_at options p now) = Z.of_nat n) as Hc.
  { destruct Hp as [[-> ->]| ->]; done. }
  assert (replaced hmac_hex a (request_at options p now) parsed = false) as Hrep.
  { unfold replaced. apply orb_false_iff. rewrite Hc. split; [|apply Z.ltb_ge; lia]. apply negb_false_iff.
    destruct Hp as [[-> ->]| ->]; [done|]. apply orb_true_iff. right. apply str_eqb_eq. cbn.
    by rewrite digestPrefix_canonicals, Nat2Z.id by lia. }
  unfold batch_result, batch_of, start_cursor, delivery_generation. rewrite Hrep, Hc, Nat2Z.id.
  cbn [cr_NextCursor cr_Generation cr_CursorDigest cr_Records rq_Limit request_at].
  assert ((if rq_CursorGeneration (request_at options p now) =s "" then base_generation hmac_hex a
           else rq_CursorGeneration (request_at options p now)) = base_generation hmac_hex a) as ->.
  { destruct Hp as [[_ ->]| ->]; [done|]. cbn. by destruct (_ =s ""). }
  set (batch := take (Z.to_nat (op_BatchLimit options)) (drop n parsed)).
  assert (length batch <= length parsed - n)%nat as Hb.
  { unfold batch. rewrite length_take, length_drop. lia. }
  assert (take (n + length batch) (pr_canonical <$> parsed)
          = take n (pr_canonical <$> parsed) ++ (pr_canonical <$> batch)) as Ht.
  { rewrite <- take_take_drop, <- fmap_drop. f_equal. rewrite <- fmap_take. f_equal. apply take_length_take. }
  split.
  - exists (n + length batch)%nat. rewrite length_fmap. split; [lia|]. split.
    + right. rewrite digestPrefix_canonicals, Nat2Z.inj_add by lia. do 2 f_equal.
      f_equal. lia.
    + rewrite fmap_app, Hr, make_records_identities, Ht, identities_app. do 2 f_equal.
      rewrite length_take, length_fmap. lia.
  - rewrite make_records_length. unfold batch. rewrite length_take, length_drop.
    assert (p.1.1 = Z.of_nat n) as -> by exact Hc. lia.
Qed.

Lemma identities_length generation sequence l : length (identities generation sequence l) = length l.
Proof. revert sequence. induction l as [|c l IH]; intros sequence; cbn; auto. Qed.

Lemma in_step_length cs p records : in_step cs p records -> p.1.1 = Z.of_nat (length records).
Proof.
  intros (n & Hn & Hp & Hr). apply (f_equal length) in Hr.
  rewrite length_fmap, identities_length, length_take, Nat.min_l in Hr by done. rewrite Hr.
  by destruct Hp as [[-> ->]| ->].
Qed.

(** The position of a store in step can be written. *)
Lemma in_step_encodable cs p records :
  in_step cs p records -> records <> [] -> u64_range (Z.of_nat (length cs)) -> encodable p.1.2 p.2 p.1.1.
Proof.
  intros H Hr Hu. pose proof (in_step_length _ _ _ H) as Hl. destruct H as (n & Hn & [[-> ->]|Hp] & _).
  - destruct records; done.
  - subst p. cbn in *. split; [apply hmac_nonempty|].
    split; [apply hex_no_char; [done|apply hmac_hexadecimal]|].
    split; [apply hex_no_char; [done|apply hmac_hexadecimal]|]. unfold u64_range in *. lia.
Qed.

(** One visit to the source: its text at that time, and how the run went. *)
Record Visit := mkVisit {
  vi_source : JSONL;
  vi_parsed : list ParsedRecord;
  vi_options : Options;
  vi_collect : Z -> Request -> CollectResult * option AdapterError;
  vi_wait : Z -> option string;
  vi_now : Z;
  vi_now2 : Z
}.

Definition canonicals (v : Visit) : list string := pr_canonical <$> vi_parsed v.

(** The source of a visit is the same source; its text parses; an attempt to collect gives what
    the source gives, or fails. *)
Record good_visit unmarshal canonical_json parse_time ctx_err (v : Visit) : Prop := {
  gv_kind : js_kind (vi_source v) = js_kind a;
  gv_key : js_key (vi_source v) = js_key a;
  gv_identity : js_identity (vi_source v) = js_identity a;
  gv_enabled : js_enabled (vi_source v) = true;
  gv_supported : js_supported (vi_source v) = true;
  gv_data : js_data (vi_source v) <> "";
  gv_limit : (1 <= op_BatchLimit (vi_options v))%Z;
  gv_length : u64_range (Z.of_nat (length (vi_parsed v)));
  gv_now : vi_now v <> zero_time;
  gv_parsed : parse_source hmac_hex unmarshal canonical_json parse_time ctx_err (vi_source v) (vi_now v)
              = Ok (vi_parsed v);
  gv_timed : Forall timed (vi_parsed v);
  gv_collect n request :
    vi_collect v n request
    = Collect hmac_hex unmarshal canonical_json parse_time ctx_err (vi_source v) request
    \/ exists r e, vi_collect v n request = (r, Some e) /\ unavailable_error e = false
}.

(** Two sources of the same name deliver the same batches from the same items. *)
Lemma batch_result_source (a' : JSONL) request parsed :
  js_kind a' = js_kind a -> js_key a' = js_key a -> js_identity a' = js_identity a ->
  batch_result hmac_hex a' request parsed = batch_result hmac_hex a request parsed.
Proof.
  destruct a as [k d y i e sup m], a' as [k' d' y' i' e' sup' m']. cbn. intros -> -> ->.
  reflexivity.
Qed.

Context {S : Type} (backend : Backend S) `{!LawfulBackend backend (js_kind a)}
        (unmarshal : string -> option SourceRecord) (canonical_json : SourceRecord -> string)
        (parse_time : string -> option Z) (ctx_err : nat -> option string).

(** The visits one after the other, from a state and a quarantine list. *)
Definition visit (st : S * list QuarantineEntry) (v : Visit) : S * list QuarantineEntry :=
  let out := Run backend (vi_options v) hmac_hex (js_kind a) (vi_collect v) (vi_wait v) (vi_now v) (vi_now2 v)
               st.1 st.2 in (out.1.2, out.2).

Definition visits (st : S * list QuarantineEntry) (vs : list Visit) : S * list QuarantineEntry :=
  foldl visit st vs.

Lemma collect_visit v request n r e :
  good_visit unmarshal canonical_json parse_time ctx_err v ->
  rq_ObservedAt request = vi_now v -> (0 <= rq_Cursor request)%Z -> (1 <= rq_Limit request)%Z ->
  vi_collect v n request = (r, e) ->
  (e = None \/ exists e', e = Some e' /\ unavailable_error e' = true) ->
  r = batch_result hmac_hex a request (vi_parsed v).
Proof.
  intros H Hn Hc HL Hv He. destruct (gv_collect _ _ _ _ _ H n request) as [E|(r' & e' & E & Hu)].
  - rewrite E, (Collect_parsed hmac_hex unmarshal canonical_json parse_time ctx_err (vi_source v)
                  hmac_hexadecimal request (vi_parsed v)) in Hv; try assumption.
    + injection Hv as <- <-. apply batch_result_source; apply H.
    + by rewrite (gv_key _ _ _ _ _ H).
    + by rewrite (gv_kind _ _ _ _ _ H).
    + apply H.
    + apply H.
    + apply H.
    + rewrite Hn. apply H.
    + rewrite Hn. apply H.
    + apply H.
  - rewrite E in Hv. injection Hv as <- <-. destruct He as [He|(e2 & [= <-] & He)]; [done|congruence].
Qed.

(** What a visit can collect is the next batch. *)
Lemma batch_at_visit v cs p records r :
  good_visit unmarshal canonical_json parse_time ctx_err v ->
  in_step cs p records -> cs = canonicals v ->
  batch_at (vi_options v) (vi_collect v) (vi_now v) p r ->
  in_step (canonicals v) (cr_NextCursor r, cr_Generation r, cr_CursorDigest r) (records ++ cr_Records r).
Proof.
  intros Hv Hs -> (_ & n & e & Hc & He).
  assert (r = batch_result hmac_hex a (request_at (vi_options v) p (vi_now v)) (vi_parsed v)) as ->.
  { apply (collect_visit v _ n _ e); try done; [|apply Hv].
    destruct Hs as (m & _ & [[_ ->]| ->] & _); cbn; lia. }
  apply in_step_batch; [done|apply Hv].
Qed.

Lemma visit_encodable v p records :
  good_visit unmarshal canonical_json parse_time ctx_err v -> in_step (canonicals v) p records ->
  writes_encodable (vi_options v) (vi_collect v) (vi_now v) p.
Proof.
  intros Hv Hs r Hb. pose proof (batch_at_visit v _ p records r Hv Hs eq_refl Hb) as H.
  apply in_step_encodable in H; [exact H| |unfold canonicals; rewrite length_fmap; apply Hv].
  destruct Hb as [Hb _]. by destruct records.
Qed.

Lemma visit_in_step v st :
  good_visit unmarshal canonical_json parse_time ctx_err v -> sane st.1 ->
  in_step (canonicals v) (position st.1) (delivered st.1) ->
  sane (visit st v).1 /\ in_step (canonicals v) (position (visit st v).1) (delivered (visit st v).1).
Proof.
  intros Hv HS Hs.
  pose proof (Run_effect backend (js_kind a) (vi_options v) hmac_hex (vi_collect v) (vi_wait v) (vi_now v)
                (vi_now2 v) st.1 st.2 HS (visit_encodable v _ _ Hv Hs)) as H.
  change (run_effect backend (js_kind a) (vi_options v) (vi_collect v) (vi_now v) st.1 (visit st v).1) in H.
  split; [exact (run_effect_sane _ _ _ _ _ _ _ H)|].
  destruct H as [(_ & HP & HD)|(r & Hb & _ & HP & HD)]; rewrite HP, HD; [done|].
  exact (batch_at_visit v _ _ _ r Hv Hs eq_refl Hb).
Qed.

Lemma visits_in_step cs vs st :
  sane st.1 -> in_step cs (position st.1) (delivered st.1) ->
  Forall (good_visit unmarshal canonical_json parse_time ctx_err) vs ->
  StronglySorted prefix (cs :: (canonicals <$> vs)) ->
  sane (visits st vs).1
  /\ in_step (default cs (last (canonicals <$> vs))) (position (visits st vs).1) (delivered (visits st vs).1).
Proof.
  revert cs st. induction vs as [|v vs IH]; intros cs st HI Hs HG HS; [done|].
  apply Forall_cons in HG as [Hv HG]. apply StronglySorted_inv in HS as [HS [Hle _]%Forall_cons].
  destruct (visit_in_step v st Hv HI (in_step_grow _ _ _ _ Hle Hs)) as [HI' Hs'].
  specialize (IH (canonicals v) (visit st v) HI' Hs' HG HS).
  cbn [fmap list_fmap]. rewrite last_cons. by destruct (last (canonicals <$> vs)).
Qed.

(** C15: collection is exactly once.  Whatever fails on the way - leases, reads, attempts, waits,
    commits - and however large the batches are, as long as the text of the source only grows
    between visits, the store has received a prefix of the source: every item once, in order,
    under an identifier and a digest that depend only on the item and its number. *)
Theorem exactly_once st vs v :
  sane st.1 -> position st.1 = (0%Z, "", "") -> delivered st.1 = [] ->
  Forall (good_visit unmarshal canonical_json parse_time ctx_err) (vs ++ [v]) ->
  StronglySorted prefix (canonicals <$> (vs ++ [v])) ->
  exists n, (n <= length (vi_parsed v))%nat
    /\ identity <$> delivered (visits st (vs ++ [v])).1
       = take n (identities (base_generation hmac_hex a) 1 (canonicals v)).
Proof.
  intros HI HP HD HG HS.
  destruct (visits_in_step [] (vs ++ [v]) st HI) as (_ & n & Hn & _ & Hr); [|done|constructor; [done|]|].
  - exists 0%nat. rewrite HP, HD. split; [done|]. split; [by left|done].
  - apply Forall_forall. intros cs _. apply prefix_nil.
  - rewrite fmap_app in Hn, Hr. cbn [fmap list_fmap] in Hn, Hr. rewrite last_snoc in Hn, Hr. cbn [from_option id] in Hn, Hr.
    exists n. split; [by unfold canonicals in Hn; rewrite length_fmap in Hn|].
    rewrite Hr. apply identities_take.
Qed.
End Exactly.

(** ** Catching up *)

(** The last text of a list that grows to [cs]. *)
Lemma sorted_last (l : list (list string)) cs : StronglySorted prefix (l ++ [cs]) -> default [] (last l) `prefix_of` cs.
Proof.
  intros H. destruct l as [|x l _] using rev_ind; [apply prefix_nil|]. rewrite last_snoc. cbn [default].
  eapply StronglySorted_app_1_elem_of; [exact H|apply elem_of_app; right; left|left].
Qed.

Section Progress.
Context (hmac_hex : string -> string -> string) (a : JSONL).
Hypothesis hmac_hexadecimal : forall key message, hexadecimal (hmac_hex key message).
Hypothesis hmac_nonempty : forall key message, hmac_hex key message <> "".
Hypothesis long_key : (32 <= str_len (js_key a))%Z.
Hypothesis some_kind : js_kind a <> "".
Context (unmarshal : string -> option SourceRecord) (canonical_json : SourceRecord -> string)
        (parse_time : string -> option Z) (ctx_err : nat -> option string).

Context {S : Type} (backend : Backend S) `{!LawfulBackend backend (js_kind a)} `{!ReliableBackend backend (js_kind a)}.

Abbreviation good := (good_visit hmac_hex a unmarshal canonical_json parse_time ctx_err).

(** A visit on which nothing goes wrong, with the options that [New] accepts and a clock of its own,
    to a source whose items are [cs]. *)
Record smooth_visit (cs : list string) (v : Visit) : Prop := {
  sv_good : good v;
  sv_options : valid_options (vi_options v) = true;
  sv_collect n request :
    vi_collect v n request = Collect hmac_hex unmarshal canonical_json parse_time ctx_err (vi_source v) request;
  sv_items : canonicals v = cs
}.

Lemma valid_options_inv o : valid_options o = true ->
  op_Owner o <> "" /\ (1 <= op_BatchLimit o)%Z /\ (1 <= op_MaxAttempts o)%Z /\ (0 < op_LeaseDuration o)%Z.
Proof.
  unfold valid_options. rewrite negb_true_iff, !orb_false_iff, str_eqb_neq, !Z.ltb_ge, Z.leb_gt. tauto.
Qed.

Lemma batch_id_ok kind cursor r : exists id, batch_id hmac_hex kind cursor r = Ok id.
Proof. unfold batch_id, OpaqueID. destruct (_ <? 32)%Z eqn:E; [vm_compute in E; discriminate E|]. cbn. eauto. Qed.

(** Under a lease, a batch that moves the position forward is committed. *)
Lemma reliable_commit o now2 fence cursor r s :
  sane s -> held (op_Owner o) fence s -> (0 < op_LeaseDuration o)%Z ->
  encodable (cr_Generation r) (cr_CursorDigest r) (cr_NextCursor r) ->
  ((position s).1.1 < cr_NextCursor r)%Z -> cr_Records r <> [] ->
  exists s', commit_batch backend o hmac_hex (js_kind a) now2 fence cursor r None s = (r, None, s')
    /\ sane s' /\ held (op_Owner o) fence s' /\ delivered s' = delivered s ++ cr_Records r.
Proof.
  intros HS HH HD HE HP HR. unfold commit_batch.
  destruct (held_renew (op_Owner o) fence now2 (op_LeaseDuration o) s HS HH HD) as (s1 & E1 & HH1).
  pose proof (renew_law (op_Owner o) fence now2 (op_LeaseDuration o) s HS) as Hk. rewrite E1 in Hk |- *.
  destruct Hk as (HS1 & HP1 & HD1). cbn [snd] in *. destruct (batch_id_ok (js_kind a) cursor r) as [id ->].
  set (c := mkCommit _ _ _ _ _ _ _).
  destruct (held_commit (op_Owner o) fence c s1) as (b & s2 & E2 & HS2 & HH2 & _ & HD2); try done; [by rewrite HP1|].
  rewrite E2. exists s2. by rewrite HD2, HD1.
Qed.

(** What an attempt of a smooth visit collects. *)
Lemma smooth_collect cs v p records n :
  smooth_visit cs v -> in_step hmac_hex a cs p records ->
  vi_collect v n (request_at (vi_options v) p (vi_now v))
  = (batch_result hmac_hex a (request_at (vi_options v) p (vi_now v)) (vi_parsed v), None).
Proof.
  intros [Hv _ HC Hcs] Hs. pose proof (in_step_length _ _ _ _ _ Hs) as Hl.
  rewrite HC, (Collect_parsed hmac_hex unmarshal canonical_json parse_time ctx_err (vi_source v)
                 hmac_hexadecimal _ (vi_parsed v)); try assumption; try apply Hv.
  - by rewrite (batch_result_source hmac_hex a long_key some_kind (vi_source v)) by apply Hv.
  - by rewrite (gv_key _ _ _ _ _ _ _ Hv).
  - by rewrite (gv_kind _ _ _ _ _ _ _ Hv).
  - cbn. rewrite Hl. lia.
Qed.

(** Between taking and releasing the lease, the next batch is delivered. *)
Lemma smooth_leased cs v fence s quarantine :
  smooth_visit cs v -> sane s -> held (op_Owner (vi_options v)) fence s ->
  in_step hmac_hex a cs (position s) (delivered s) ->
  let r := batch_result hmac_hex a (request_at (vi_options v) (position s) (vi_now v)) (vi_parsed v) in
  exists s', run_leased backend (vi_options v) hmac_hex (js_kind a) (vi_collect v) (vi_wait v) (vi_now v) (vi_now2 v)
               fence s quarantine = (r, None, s', quarantine)
    /\ sane s' /\ held (op_Owner (vi_options v)) fence s' /\ delivered s' = delivered s ++ cr_Records r.
Proof.
  intros Hv HS HH Hs r. destruct (valid_options_inv _ (sv_options _ _ Hv)) as (Ho & HL & HM & HD). unfold run_leased.
  destruct (held_cursor _ _ s HS HH) as (c & s1 & E1 & HH1). destruct (cursor_law s HS) as [K1 V1].
  rewrite E1 in K1, V1 |- *. cbn [fst snd] in *. rewrite (V1 c eq_refl).
  destruct (generation_law s1 (proj1 K1)) as (gen & Eg & K2 & V2).
  destruct (held_generation _ _ s1 gen (proj1 K1) HH1 Eg) as (g & s2 & E2 & HH2). rewrite Eg. cbn [optional_call].
  rewrite E2 in K2, V2 |- *. cbn [fst snd] in *. rewrite (V2 g eq_refl). pose proof (kept_trans _ _ _ _ _ K1 K2) as K12.
  destruct (digest_law s2 (proj1 K2)) as (dig & Ed & K3 & V3).
  destruct (held_digest _ _ s2 dig (proj1 K2) HH2 Ed) as (d & s3 & E3 & HH3). rewrite Ed. cbn [optional_call].
  rewrite E3 in K3, V3 |- *. cbn [fst snd] in *. rewrite (V3 d eq_refl). pose proof (kept_trans _ _ _ _ _ K12 K3) as K13.
  destruct K1 as (_ & -> & _), K12 as (_ & -> & _). fold (request_at (vi_options v) (position s) (vi_now v)).
  destruct (Z.to_nat (op_MaxAttempts (vi_options v))) as [|m] eqn:Em; [lia|]. cbn [attempts].
  rewrite (smooth_collect cs v _ _ _ Hv Hs). fold r. destruct K13 as (HS3 & HP3 & HD3).
  destruct (length (cr_Records r) =? 0)%nat eqn:E0.
  { apply Nat.eqb_eq, nil_length_inv in E0. exists s3. by rewrite E0, app_nil_r. }
  apply Nat.eqb_neq in E0. assert (cr_Records r <> []) as Hr by (intros E; by rewrite E in E0).
  rewrite <- (sv_items _ _ Hv) in Hs.
  destruct (in_step_batch hmac_hex a _ _ _ (vi_options v) (vi_now v) Hs HL) as [Hs' _]. fold r in Hs'.
  destruct (reliable_commit (vi_options v) (vi_now2 v) fence (position s).1.1 r s3) as (s4 & E4 & HS4 & HH4 & HD4); try done.
  - apply (in_step_encodable hmac_hex a hmac_hexadecimal hmac_nonempty _ _ _ Hs');
      [by destruct (delivered s)|rewrite length_fmap; apply (sv_good _ _ Hv)].
  - pose proof (in_step_length _ _ _ _ _ Hs' : cr_NextCursor r = _) as ->.
    apply in_step_length in Hs. rewrite HP3, Hs, length_app. destruct (cr_Records r); [done|]. cbn [length]. lia.
  - rewrite E4. exists s4. by rewrite HD4, HD3.
Qed.

(** A smooth visit delivers as much as its limit allows, and leaves the store ready. *)
Lemma smooth_visit_delivers cs v st :
  smooth_visit cs v -> sane st.1 -> ready st.1 -> in_step hmac_hex a cs (position st.1) (delivered st.1) ->
  let st' := visit hmac_hex a backend st v in
  sane st'.1 /\ ready st'.1 /\ in_step hmac_hex a cs (position st'.1) (delivered st'.1)
  /\ Z.of_nat (length (delivered st'.1))
     = Z.min (Z.of_nat (length cs)) (Z.of_nat (length (delivered st.1)) + op_BatchLimit (vi_options v)).
Proof.
  intros Hv HS HR Hs st'. destruct (valid_options_inv _ (sv_options _ _ Hv)) as (Ho & HL & _ & HD).
  pose proof (sv_items _ _ Hv) as Hcs. pose proof Hs as Hs0. rewrite <- Hcs in Hs0.
  destruct (visit_in_step hmac_hex a hmac_hexadecimal hmac_nonempty long_key some_kind backend
              unmarshal canonical_json parse_time ctx_err v st (sv_good _ _ Hv) HS Hs0) as [HS' Hs'].
  rewrite Hcs in Hs'. fold st' in HS', Hs'. split; [done|].
  destruct (ready_acquire (op_Owner (vi_options v)) (vi_now v) (op_LeaseDuration (vi_options v)) st.1 HS HR Ho HD)
    as (fence & s1 & E1 & HH1).
  pose proof (acquire_law (op_Owner (vi_options v)) (vi_now v) (op_LeaseDuration (vi_options v)) st.1 HS) as K1.
  rewrite E1 in K1. cbn [snd] in K1. destruct K1 as (HS1 & HP1 & HD1).
  destruct (smooth_leased cs v fence s1 st.2 Hv HS1 HH1) as (s2 & E2 & HS2 & HH2 & HD2); [by rewrite HP1, HD1|].
  destruct (held_release _ _ s2 HS2 HH2) as (u & s3 & E3 & HR3).
  pose proof (release_law (op_Owner (vi_options v)) fence s2 HS2) as K3. rewrite E3 in K3. destruct K3 as (_ & _ & HD3).
  assert (st'.1 = s3) as Es by (unfold st', visit, Run; by rewrite E1, E2, E3).
  rewrite Es in *. split; [done|]. split; [done|].
  cbn [snd] in HD3. rewrite HD3, HD2, HD1, HP1, length_app, Nat2Z.inj_add. unfold canonicals in Hs0, Hcs.
  destruct (in_step_batch hmac_hex a _ _ _ (vi_options v) (vi_now v) Hs0 HL) as [_ ->].
  rewrite (in_step_length _ _ _ _ _ Hs), <- Hcs, length_fmap. destruct Hs as (n & Hn & _ & Hr).
  apply (f_equal length) in Hr. rewrite length_fmap, identities_length, length_take, <- Hcs, length_fmap in Hr. lia.
Qed.

(** How much a list of visits may deliver. *)
Definition batch_limits (vs : list Visit) : nat := sum_list_with (fun v => Z.to_nat (op_BatchLimit (vi_options v))) vs.

Lemma smooth_visits cs vs st :
  Forall (smooth_visit cs) vs -> sane st.1 -> ready st.1 -> in_step hmac_hex a cs (position st.1) (delivered st.1) ->
  let st' := visits hmac_hex a backend st vs in
  in_step hmac_hex a cs (position st'.1) (delivered st'.1)
  /\ length (delivered st'.1) = min (length cs) (length (delivered st.1) + batch_limits vs).
Proof.
  intros HV. revert st. induction HV as [|v vs Hv HV IH]; intros st HS HR Hs; cbn zeta.
  { split; [done|]. cbn. destruct Hs as (n & Hn & _ & Hr). apply (f_equal length) in Hr.
    rewrite length_fmap, identities_length, length_take in Hr. lia. }
  destruct (smooth_visit_delivers cs v st Hv HS HR Hs) as (HS1 & HR1 & Hs1 & Hl1).
  destruct (IH (visit hmac_hex a backend st v) HS1 HR1 Hs1) as [H1 H2]. split; [exact H1|].
  change (visits hmac_hex a backend st (v :: vs)) with (visits hmac_hex a backend (visit hmac_hex a backend st v) vs).
  rewrite H2. destruct (valid_options_inv _ (sv_options _ _ Hv)) as (_ & HL & _). cbn [batch_limits sum_list_with].
  unfold batch_limits. lia.
Qed.

(** C16: collection catches up.  Whatever failed in earlier visits, and however the text grew until
    it stayed: once the store works again - it is ready, and it is any store that then grants the
    lease and does not fail - every visit on which nothing goes wrong, whenever it is and whatever
    its options, delivers its batch limit, or what is left.  After some such visits the store has
    received exactly what it had and the next items of the source, as many as the limits of the
    visits add up to, and all items of the source once that is enough. *)
Theorem catches_up st before after cs :
  sane st.1 -> position st.1 = (0%Z, "", "") -> delivered st.1 = [] ->
  Forall good before -> StronglySorted prefix ((canonicals <$> before) ++ [cs]) ->
  let st1 := visits hmac_hex a backend st before in
  ready st1.1 -> Forall (smooth_visit cs) after ->
  identity <$> delivered (visits hmac_hex a backend st (before ++ after)).1
  = take (length (delivered st1.1) + batch_limits after)
      (identities hmac_hex a (base_generation hmac_hex a) 1 cs).
Proof.
  intros HI HP HD HG HS st1 HR HA.
  destruct (visits_in_step hmac_hex a hmac_hexadecimal hmac_nonempty long_key some_kind backend
              unmarshal canonical_json parse_time ctx_err [] before st HI) as [HI1 Hs1]; [|done| |].
  - exists 0%nat. rewrite HP, HD. split; [done|]. split; [by left|done].
  - apply StronglySorted_app_1_l in HS. constructor; [done|]. apply Forall_forall. intros ? _. apply prefix_nil.
  - fold st1 in HI1, Hs1. apply (in_step_grow _ _ _ cs) in Hs1; [|by apply sorted_last].
    destruct (smooth_visits cs after st1 HA HI1 HR Hs1) as [(n & Hn & _ & Hr) Hl].
    unfold visits in *. rewrite foldl_app. fold st1. fold st1 in Hr, Hl. rewrite Hr, identities_take.
    apply (f_equal length) in Hr. rewrite length_fmap, identities_length, length_take, Nat.min_l in Hr by done.
    rewrite Hr in Hl. destruct (Nat.le_ge_cases (length (delivered st1.1) + batch_limits after) (length cs)).
    + f_equal. lia.
    + rewrite !take_ge; [done|rewrite identities_length; lia..].
Qed.
End Progress.

(** ** A store in memory, for examples *)

(** It has no content at first, a lease that is free or held under a fence, and some calls to fail. *)
Record Memory := mkMemory {
  me_position : Z * string * string;
  me_delivered : list EvidenceRecord;
  me_lease : option string;
  me_failures : nat
}.

Definition memory_call {A} (f : Memory -> result string A * Memory) (s : Memory) : result string A * Memory :=
  match me_failures s with
  | O => f s
  | S n => (Err "unavailable", mkMemory (me_position s) (me_delivered s) (me_lease s) n)
  end.

Definition with_lease (lease : option string) (s : Memory) : Memory :=
  mkMemory (me_position s) (me_delivered s) lease (me_failures s).

Definition memory : Backend Memory :=
  mkBackend Memory
    (fun _ => memory_call (fun s => (Ok (me_position s).1.1, s)))
    (Some (fun _ => memory_call (fun s => (Ok (me_position s).1.2, s))))
    (Some (fun _ => memory_call (fun s => (Ok (me_position s).2, s))))
    (fun c => memory_call (fun s =>
       if bool_decide (me_lease s = Some (cm_Fence c))
       then (Ok true, mkMemory (cm_Cursor c, cm_Generation c, cm_CursorDigest c) (me_delivered s ++ cm_Records c) (me_lease s)
                        (me_failures s))
       else (Err "lease fence rejected", s)))
    (fun _ owner _ _ => memory_call (fun s =>
       match me_lease s with None => (Ok (owner, true), with_lease (Some owner) s) | Some _ => (Ok ("", false), s) end))
    (fun _ _ fence _ _ => memory_call (fun s => (Ok (bool_decide (me_lease s = Some fence)), s)))
    (fun _ _ _ => memory_call (fun s => (Ok tt, with_lease None s))).

#[export] Instance memory_lawful kind : LawfulBackend memory kind.
Proof.
  refine {| sane _ := True; position := me_position; delivered := me_delivered |}; cbn; unfold memory_call.
  - intros s _. destruct (me_failures s); (split; [done|]); [by intros c [= <-]|by intros c [=]].
  - intros s _. eexists. split; [reflexivity|]. cbn beta. destruct (me_failures s); (split; [done|]); cbn [fst snd]; [by intros g [= <-]|by intros g [=]].
  - intros s _. eexists. split; [reflexivity|]. cbn beta. destruct (me_failures s); (split; [done|]); cbn [fst snd]; [by intros d [= <-]|by intros d [=]].
  - intros owner now duration s _. destruct (me_failures s); [by destruct (me_lease s)|done].
  - intros owner fence now duration s _. by destruct (me_failures s).
  - intros owner fence s _. by destruct (me_failures s).
  - intros c s _ _ _. destruct (me_failures s); [|by right]. destruct (bool_decide _); [by left|by right].
Defined.

#[export] Instance memory_reliable kind : ReliableBackend memory kind.
Proof.
  refine {| ready (s : Memory) := me_lease s = None /\ me_failures s = 0%nat;
            held (owner fence : string) (s : Memory) := me_lease s = Some fence /\ me_failures s = 0%nat |};
    cbn; unfold memory_call.
  - intros owner now duration s _ [Hl Hf] _ _. rewrite Hl, Hf. by eexists _, _.
  - intros owner fence s _ [Hl Hf]. rewrite Hf. by eexists _, _.
  - intros owner fence s call _ [Hl Hf] [= <-]. rewrite Hf. by eexists _, _.
  - intros owner fence s call _ [Hl Hf] [= <-]. rewrite Hf. by eexists _, _.
  - intros owner fence now duration s _ [Hl Hf] _. rewrite Hf, bool_decide_eq_true_2 by done. by eexists.
  - intros owner fence c s _ [Hl Hf] _ <- _ _ _. rewrite Hf, bool_decide_eq_true_2 by done. by eexists _, _.
  - intros owner fence s _ [Hl Hf]. rewrite Hf. eexists _, _. split; [reflexivity|]. by cbn.
Defined.

Definition empty_memory (failures : nat) : Memory := mkMemory (0%Z, "", "") [] None failures.

(** ** A concrete source of three lines, read two at a time *)

Definition fake_hmac (key message : string) : string := "a" +:+ example_hmac key message.

Lemma fake_hmac_hex key message : hexadecimal (fake_hmac key message).
Proof. constructor; [reflexivity|apply example_hmac_hex]. Qed.

Definition fake_unmarshal (line : string) : option SourceRecord :=
  Some (mkSourceRecord "1" "" {["phase" := line]}).

Definition fake_json (r : SourceRecord) : string := attribute (sr_Attributes r) "phase".

Definition no_time (_ : string) : option Z := None.
Definition no_ctx (_ : nat) : option string := None.

Definition lines_source (lines : list string) : JSONL :=
  mkJSONL "codex_jsonl" (str_join (String newline "") lines) example_key "log" true true DefaultMaxRecordBytes.

Definition parsed_lines (lines : list string) (now : Z) : list ParsedRecord :=
  match parse_source fake_hmac fake_unmarshal fake_json no_time no_ctx (lines_source lines) now with
  | Ok l => l
  | Err _ => []
  end.

Definition example_options : Options := mkOptions "owner" 2 3 60 1.

Definition example_visit (lines : list string) (now : Z) : Visit :=
  mkVisit (lines_source lines) (parsed_lines lines now) example_options
    (fun _ => Collect fake_hmac fake_unmarshal fake_json no_time no_ctx (lines_source lines))
    (fun _ => None) now now.

Definition three_lines : list string := ["a"; "b"; "c"].

Lemma example_visit_good lines now :
  lines = ["a"] \/ lines = three_lines -> now = 1%Z \/ now = 2%Z ->
  good_visit fake_hmac (lines_source three_lines) fake_unmarshal fake_json no_time no_ctx
    (example_visit lines now).
Proof.
  intros HL HN.
  assert (parse_source fake_hmac fake_unmarshal fake_json no_time no_ctx (lines_source lines) now
          = Ok (parsed_lines lines now) /\ Forall timed (parsed_lines lines now)
          /\ js_data (lines_source lines) <> "" /\ now <> zero_time
          /\ u64_range (Z.of_nat (length (parsed_lines lines now)))) as (HP & HT & HD & HZ & HU).
  { destruct HL as [-> | ->], HN as [-> | ->];
      (split; [vm_compute; reflexivity|]; split;
       [vm_compute; repeat constructor; discriminate|]; split; [vm_compute; discriminate|];
       split; [vm_compute; discriminate|]; split; vm_compute; done). }
  split; try assumption; try reflexivity; [vm_compute; discriminate|]. intros n request. by left.
Qed.

Example exactly_once_witness :
  let st := visits fake_hmac (lines_source three_lines) memory (empty_memory 0, [])
              ([example_visit ["a"] 1] ++ [example_visit three_lines 2]) in
  length (me_delivered st.1) = 3%nat
  /\ exists n, identity <$> me_delivered st.1
     = take n (identities fake_hmac (lines_source three_lines) (base_generation fake_hmac (lines_source three_lines)) 1
                 (canonicals (example_visit three_lines 2))).
Proof.
  cbn zeta. split; [vm_compute; reflexivity|].
  destruct (exactly_once fake_hmac (lines_source three_lines) fake_hmac_hex ltac:(done) ltac:(done) ltac:(done)
              memory fake_unmarshal fake_json no_time no_ctx (empty_memory 0, [])
              [example_visit ["a"] 1] (example_visit three_lines 2)) as (n & _ & H).
  - exact I.
  - reflexivity.
  - reflexivity.
  - constructor; [apply example_visit_good; auto|]. constructor; [apply example_visit_good; auto|constructor].
  - constructor; [repeat constructor|]. constructor; [|constructor]. exists ["b"; "c"]. vm_compute. reflexivity.
  - exists n. exact H.
Defined.

Lemma example_visit_smooth now : now = 1%Z \/ now = 2%Z ->
  smooth_visit fake_hmac (lines_source three_lines) fake_unmarshal fake_json no_time no_ctx three_lines
    (example_visit three_lines now).
Proof.
  intros H. split; [by apply example_visit_good; auto|reflexivity|reflexivity|].
  destruct H as [-> | ->]; vm_compute; reflexivity.
Qed.

#[local] Abbreviation first_failed :=
  (visits fake_hmac (lines_source three_lines) memory (empty_memory 1, []) [example_visit ["a"] 1]).1.

(** The first visit finds the store unavailable; the next two, at other times, deliver all. *)
Example catches_up_witness :
  identity <$> me_delivered (visits fake_hmac (lines_source three_lines) memory (empty_memory 1, [])
                  ([example_visit ["a"] 1] ++ [example_visit three_lines 1; example_visit three_lines 2])).1
  = identities fake_hmac (lines_source three_lines) (base_generation fake_hmac (lines_source three_lines)) 1
      three_lines.
Proof.
  assert (Forall (good_visit fake_hmac (lines_source three_lines) fake_unmarshal fake_json no_time no_ctx)
            [example_visit ["a"] 1]) as HG.
  { constructor; [apply example_visit_good; auto|constructor]. }
  assert (Forall (smooth_visit fake_hmac (lines_source three_lines) fake_unmarshal fake_json no_time no_ctx three_lines)
            [example_visit three_lines 1; example_visit three_lines 2]) as HV.
  { constructor; [apply example_visit_smooth; auto|]. constructor; [apply example_visit_smooth; auto|constructor]. }
  assert (StronglySorted prefix ((canonicals <$> [example_visit ["a"] 1]) ++ [three_lines])) as HS.
  { constructor; [repeat constructor|]. constructor; [|constructor]. exists ["b"; "c"]. vm_compute. reflexivity. }
  assert (me_lease first_failed = None /\ me_failures first_failed = 0%nat) as HR by (vm_compute; done).
  pose proof (catches_up fake_hmac (lines_source three_lines) fake_hmac_hex ltac:(done) ltac:(done) ltac:(done)
             fake_unmarshal fake_json no_time no_ctx memory (empty_memory 1, []) [example_visit ["a"] 1]
             [example_visit three_lines 1; example_visit three_lines 2] three_lines I eq_refl eq_refl HG HS HR HV) as H.
  refine (eq_trans H _). vm_compute. reflexivity.
Defined.
