(* ===== verification/Replay.v ===== *)
(** * Replay and evaluation of audits (internal/replay/replay.go, internal/eval)

    Two immutable audit revisions are compared metric by metric; an evaluation turns the
    comparison into a decision to promote, hold or roll back.

    [marshal] is [json.Marshal] of a value, [sha256_hex] SHA-256 in hexadecimal and
    [format_time] the RFC 3339 text of an instant: arguments. *)
From S2P Require Import Contracts Metrics.

Definition Version : string := "replay-v1".

Record Manifest := mkManifest {
  mf_AuditRevisionHash : string;
  mf_InputHash : string;
  mf_ProjectVersions : list string;
  mf_SourceVersions : list string;
  mf_MetricVersions : list string;
  mf_PolicyVersions : list string;
  mf_AsOf : string
}.

Definition sortedCopy (values : list string) : list string := sort_strings values.

Definition NewManifest {A} (marshal : A -> option string) (sha256_hex : string -> string)
    (format_time : Z -> string) (r : AuditProjectResult) (input : A)
    (projectVersions sourceVersions policyVersions : list string) : result string Manifest :=
  if (apr_RevisionHash r =s "") || is_zero_time (aw_AsOf (apr_Window r))
  then Err "replay revision provenance required"
  else match marshal input with
       | None => Err "encode replay input"
       | Some encoded =>
           Ok (mkManifest (apr_RevisionHash r) (sha256_hex encoded)
                 (sortedCopy projectVersions) (sortedCopy sourceVersions)
                 (sort_strings ((fun m => mr_Name m +:+ ":" +:+ mr_Version m) <$> apr_Metrics r))
                 (sortedCopy policyVersions) (format_time (aw_AsOf (apr_Window r))))
       end.

Definition VerifyImmutable (marshal : Manifest -> option string) (before after : Manifest) : option string :=
  match marshal before, marshal after with
  | Some beforeJSON, Some afterJSON =>
      if beforeJSON =s afterJSON then None else Some "replay source or version manifest changed"
  | _, _ => Some "encode replay manifest"
  end.

Record Comparison := mkComparison {
  cp_BaselineHash : string;
  cp_CandidateHash : string;
  cp_Statuses : gmap string MetricStatus;
  cp_Outcome : string;
  cp_QualityGateState : string
}.

Definition mergeOutcome (outcome : string) (status : MetricStatus) : string :=
  if status =s MetricStatusWorsened then "regressed"
  else if one_of status [MetricStatusMixed; MetricStatusInsufficient]
       then if outcome =s "regressed" then outcome else "mixed"
  else if status =s MetricStatusImproved then if outcome =s "unchanged" then "improved" else outcome
  else outcome.

Fixpoint gate_state (state : string) (guardrails : list GuardrailResult) : string :=
  match guardrails with
  | [] => state
  | guardrail :: rest =>
      if gr_State guardrail =s "fail" then "fail"
      else gate_state (if gr_State guardrail =s "pass" then state else "unknown") rest
  end.

Definition qualityGateState (guardrails : list GuardrailResult) : string :=
  match guardrails with
  | [] => "unknown"
  | _ => gate_state "pass" guardrails
  end.

(** The number behind the pointer, if it is one. *)
Definition finiteMetricValue (value : option float64) : option float64 :=
  match value with
  | Some v => if finite v then Some v else None
  | None => None
  end.

(** Whether a larger value is better. *)
Definition higher_is_better (d : MetricDefinition) (name : string) : bool :=
  (de_Polarity d =s PolarityHigherBetter)
  || ((de_Polarity d =s PolarityGuardrail) && negb (name =s "tool_error_rate")).

(** [prior] and [d] are there when the metric was found in the baseline and in the registry. *)
Definition compareMetric (found : option (MetricResult * MetricDefinition)) (current : MetricResult)
    : MetricStatus :=
  match found with
  | None => MetricStatusInsufficient
  | Some (prior, d) =>
      match finiteMetricValue (mr_NativeValue prior), finiteMetricValue (mr_NativeValue current) with
      | Some before, Some after =>
          if negb (mr_Version prior =s mr_Version current)
             || negb (mr_Coverage prior =s CoverageStateComplete)
             || negb (mr_Coverage current =s CoverageStateComplete)
          then MetricStatusInsufficient
          else if feq before after then MetricStatusFlat
          else if de_Polarity d =s PolarityContextual then MetricStatusMixed
          else if (if higher_is_better d (mr_Name current) then flt before after else flt after before)
               then MetricStatusImproved
               else MetricStatusWorsened
      | _, _ => MetricStatusInsufficient
      end
  end.

(** The baseline by name, unless a name occurs twice. *)
Fixpoint index_baseline (seen : gmap string MetricResult) (l : list MetricResult)
    : result string (gmap string MetricResult) :=
  match l with
  | [] => Ok seen
  | m :: rest =>
      match seen !! mr_Name m with
      | Some _ => Err "baseline metric names must be unique"
      | None => index_baseline (<[mr_Name m := m]> seen) rest
      end
  end.

Definition definition_index : gmap string MetricDefinition :=
  foldl (fun m d => <[de_Name d := d]> m) ∅ Definitions.

(** The state of the comparison: the baseline metrics not yet matched, the candidate's names, the
    statuses and the outcome so far. *)
Record Comparing := mkComparing {
  cg_baseline : gmap string MetricResult;
  cg_names : gset string;
  cg_statuses : gmap string MetricStatus;
  cg_outcome : string
}.

Definition compare_one (st : Comparing) (current : MetricResult) : result string Comparing :=
  if bool_decide (mr_Name current ∈ cg_names st) then Err "candidate metric names must be unique"
  else
    let found :=
      match cg_baseline st !! mr_Name current, definition_index !! mr_Name current with
      | Some prior, Some d => Some (prior, d)
      | _, _ => None
      end in
    let status := compareMetric found current in
    Ok (mkComparing (delete (mr_Name current) (cg_baseline st)) ({[mr_Name current]} ∪ cg_names st)
          (<[mr_Name current := status]> (cg_statuses st)) (mergeOutcome (cg_outcome st) status)).

Fixpoint compare_all (st : Comparing) (l : list MetricResult) : result string Comparing :=
  match l with
  | [] => Ok st
  | current :: rest => let! st := compare_one st current in compare_all st rest
  end.

(** A baseline metric that the candidate does not have. *)
Definition compare_missing (st : gmap string MetricStatus * string) (name : string)
    : gmap string MetricStatus * string :=
  (<[name := MetricStatusInsufficient]> st.1, mergeOutcome st.2 MetricStatusInsufficient).

Definition Compare (baseline candidate : AuditProjectResult) : result string Comparison :=
  if (apr_RevisionHash baseline =s "") || (apr_RevisionHash candidate =s "")
  then Err "replay revisions required"
  else
    let! baselineMetrics := index_baseline ∅ (apr_Metrics baseline) in
    let! st := compare_all (mkComparing baselineMetrics ∅ ∅ "unchanged") (apr_Metrics candidate) in
    let '(statuses, outcome) :=
      foldl compare_missing (cg_statuses st, cg_outcome st) (map_to_list (cg_baseline st)).*1 in
    Ok (mkComparison (apr_RevisionHash baseline) (apr_RevisionHash candidate) statuses outcome
          (qualityGateState (apr_Guardrails candidate))).

(** ** Evaluation runs (internal/eval/eval.go) *)

Record EvalRun := mkEvalRun {
  ev_Version : string;
  ev_FixtureHash : string;
  ev_ConfigHash : string;
  ev_ModelHash : string;
  ev_CompilerHash : string;
  ev_PolicyHash : string;
  ev_MetricHash : string;
  ev_Comparison : Comparison;
  ev_Decision : string;
  ev_RunHash : string
}.

Definition decision_of (comparison : Comparison) : string :=
  let decision :=
    if (cp_Outcome comparison =s "improved") && (cp_QualityGateState comparison =s "pass")
    then "promote" else "hold" in
  if (cp_Outcome comparison =s "regressed") || (cp_QualityGateState comparison =s "fail")
  then "rollback" else decision.

Section Evaluation.
Context {A : Type} (marshal : A -> option string) (marshal_run : EvalRun -> option string)
        (sha256_hex : string -> string).

Definition digest (value : A) : result string string :=
  match marshal value with
  | Some data => Ok (sha256_hex data)
  | None => Err "encode evaluation input"
  end.

(** The run, whose own digest is computed before it is set; a run that cannot be encoded is an
    error here (the code also returns the run without its hash). *)
Definition NewRun (version : string) (fixture config model compiler policy metric : A)
    (comparison : Comparison) : result string EvalRun :=
  if version =s "" then Err "evaluation version required"
  else
    let! fixtureHash := digest fixture in
    let! configHash := digest config in
    let! modelHash := digest model in
    let! compilerHash := digest compiler in
    let! policyHash := digest policy in
    let! metricHash := digest metric in
    let run hash := mkEvalRun version fixtureHash configHash modelHash compilerHash policyHash metricHash
                      comparison (decision_of comparison) hash in
    match marshal_run (run "") with
    | Some data => Ok (run (sha256_hex data))
    | None => Err "encode evaluation input"
    end.
End Evaluation.

(** ** Migration cases (internal/eval/matrix.go) *)

Record MigrationVariant := mkMigrationVariant {
  mv_ModelSnapshot : string;
  mv_ReasoningEffort : string;
  mv_ReasoningMode : string;
  mv_Verbosity : string;
  mv_PromptContract : string;
  mv_ToolSet : string;
  mv_CacheMode : string;
  mv_RuntimeRoute : string;
  mv_DelegationPolicy : string;
  mv_RetrievalBudget : string
}.

Record MigrationCase := mkMigrationCase {
  mc_ID : string;
  mc_Baseline : MigrationVariant;
  mc_Candidate : MigrationVariant
}.

Definition controls (v : MigrationVariant) : list string :=
  [mv_ModelSnapshot v; mv_ReasoningEffort v; mv_ReasoningMode v; mv_Verbosity v; mv_PromptContract v;
   mv_ToolSet v; mv_CacheMode v; mv_RuntimeRoute v; mv_DelegationPolicy v; mv_RetrievalBudget v].

Definition ValidateMigrationCase (test : MigrationCase) : option string :=
  if mc_ID test =s "" then Some "migration case id required"
  else
    let changes := length (filter (fun p => p.1 <> p.2)
                             (zip (controls (mc_Baseline test)) (controls (mc_Candidate test)))) in
    if negb (changes =? 1)%nat then Some "migration case must change exactly one control" else None.

(** ** Statuses and outcomes *)

Definition known_status (s : MetricStatus) : Prop :=
  s ∈ [MetricStatusImproved; MetricStatusWorsened; MetricStatusFlat; MetricStatusMixed; MetricStatusInsufficient].

Lemma compareMetric_known found current : known_status (compareMetric found current).
Proof. unfold known_status, compareMetric. repeat case_goal; set_solver. Qed.

(** The outcome as a function of which statuses occur. *)
Definition outcome_of (statuses : list MetricStatus) : string :=
  if contains statuses MetricStatusWorsened then "regressed"
  else if contains statuses MetricStatusMixed || contains statuses MetricStatusInsufficient then "mixed"
  else if contains statuses MetricStatusImproved then "improved"
  else "unchanged".

Lemma contains_snoc l x y : contains (l ++ [x]) y = contains l y || bool_decide (x = y).
Proof. induction l as [|z l IH]; cbn; [by case_match|]. rewrite IH. by case_match. Qed.

Lemma merge_outcome_of l s : known_status s -> mergeOutcome (outcome_of l) s = outcome_of (l ++ [s]).
Proof.
  intros Hs. unfold outcome_of. rewrite !contains_snoc. unfold known_status in Hs.
  rewrite !elem_of_cons, elem_of_nil in Hs. unfold mergeOutcome.
  destruct (contains l MetricStatusWorsened), (contains l MetricStatusMixed),
    (contains l MetricStatusInsufficient), (contains l MetricStatusImproved);
    destruct Hs as [->|[->|[->|[->|[->|[]]]]]]; vm_compute; reflexivity.
Qed.

Lemma outcome_of_ext l1 l2 : (forall s, s ∈ l1 <-> s ∈ l2) -> outcome_of l1 = outcome_of l2.
Proof.
  intros H. assert (forall s, contains l1 s = contains l2 s) as Hc.
  { intros s. apply eq_iff_eq_true. by rewrite !contains_spec. }
  unfold outcome_of. by rewrite !Hc.
Qed.

(** ** What a comparison holds *)

Definition names_of (l : list MetricResult) : list string := mr_Name <$> l.

(** The metrics of a list, by name. *)
Definition holds (m : gmap string MetricResult) (l : list MetricResult) : Prop :=
  forall n x, m !! n = Some x <-> x ∈ l /\ mr_Name x = n.

Lemma index_baseline_holds l seen m :
  index_baseline seen l = Ok m ->
  NoDup (names_of l) /\ (forall x, x ∈ l -> seen !! mr_Name x = None)
  /\ forall n x, m !! n = Some x <-> seen !! n = Some x \/ x ∈ l /\ mr_Name x = n.
Proof.
  revert seen. induction l as [|y l IH]; intros seen; cbn [index_baseline].
  { intros [= <-]. split; [constructor|]. split; [set_solver|]. intros n x. set_solver. }
  destruct (seen !! mr_Name y) as [z|] eqn:Hy; [done|]. intros H.
  destruct (IH _ H) as (HN & Hd & Hm). split_and!.
  - constructor; [|done]. intros (x & Ex & Hx)%list_elem_of_fmap. specialize (Hd x Hx).
    rewrite <- Ex, lookup_insert_eq in Hd. done.
  - intros x [->|Hx]%elem_of_cons; [done|]. specialize (Hd x Hx). by apply lookup_insert_None in Hd as [? _].
  - intros n x. rewrite Hm, lookup_insert_Some, elem_of_cons. split.
    + intros [[[<- <-]|[_ Hs]]|[Hx Hn]]; auto.
    + intros [Hs|[[->|Hx] Hn]]; [left; right|by auto|by auto]. split; [|done]. intros E. by rewrite E, Hs in Hy.
Qed.

Lemma index_baseline_ok l seen :
  NoDup (names_of l) -> (forall x, x ∈ l -> seen !! mr_Name x = None) -> is_ok (index_baseline seen l) = true.
Proof.
  revert seen. induction l as [|y l IH]; intros seen HN Hs; cbn [index_baseline]; [done|].
  apply NoDup_cons in HN as [Hy HN]. rewrite Hs by left. apply IH; [done|]. intros x Hx.
  apply lookup_insert_None. split; [apply Hs; by right|]. intros E. apply Hy. rewrite E. by apply list_elem_of_fmap_2.
Qed.

(** What [compare_all] finds for a name. *)
Definition found_for (baseline : list MetricResult) (name : string) : option (MetricResult * MetricDefinition) :=
  match find (fun m => mr_Name m =s name) baseline, definition_index !! name with
  | Some prior, Some d => Some (prior, d)
  | _, _ => None
  end.

Lemma find_unique (l : list MetricResult) x n :
  NoDup (names_of l) -> find (fun m => mr_Name m =s n) l = Some x <-> x ∈ l /\ mr_Name x = n.
Proof.
  intros HN. split.
  - intros H%find_some. destruct H as [Hin E]. apply list_elem_of_In in Hin. by apply str_eqb_eq in E.
  - intros [Hin Hn]. induction l as [|y l IH]; [by apply elem_of_nil in Hin|].
    apply NoDup_cons in HN as [Hy HN]. cbn. destruct (mr_Name y =s n) eqn:E.
    + apply str_eqb_eq in E. apply elem_of_cons in Hin as [->|Hin]; [done|]. exfalso. apply Hy.
      rewrite E, <- Hn. by apply list_elem_of_fmap_2.
    + apply elem_of_cons in Hin as [->|Hin]; [by apply str_eqb_neq in E|]. by apply IH.
Qed.

(** The status of each candidate metric, with its name, in order. *)
Definition candidate_statuses (baseline candidate : list MetricResult) : list (string * MetricStatus) :=
  (fun m => (mr_Name m, compareMetric (found_for baseline (mr_Name m)) m)) <$> candidate.

(** The state while the candidate is compared: [done] are the metrics compared so far. *)
Record comparing (baseline done : list MetricResult) (st : Comparing) : Prop := {
  ci_baseline n x : cg_baseline st !! n = Some x <-> (x ∈ baseline /\ mr_Name x = n) /\ ~ n ∈ names_of done;
  ci_names n : n ∈ cg_names st <-> n ∈ names_of done;
  ci_statuses : cg_statuses st = list_to_map (candidate_statuses baseline done);
  ci_outcome : cg_outcome st = outcome_of (candidate_statuses baseline done).*2;
  ci_nodup : NoDup (names_of done)
}.

Lemma candidate_statuses_names baseline l : (candidate_statuses baseline l).*1 = names_of l.
Proof. unfold candidate_statuses, names_of. by rewrite <- list_fmap_compose. Qed.

Lemma compare_one_step baseline done st current :
  NoDup (names_of baseline) -> comparing baseline done st ->
  match compare_one st current with
  | Ok st' => comparing baseline (done ++ [current]) st'
  | Err _ => mr_Name current ∈ names_of done
  end.
Proof.
  intros HNb [HB HNm HS HO HND]. unfold compare_one. case_bool_decide as Hin; [by apply HNm|].
  rewrite HNm in Hin.
  assert (match cg_baseline st !! mr_Name current, definition_index !! mr_Name current with
          | Some prior, Some d => Some (prior, d)
          | _, _ => None
          end = found_for baseline (mr_Name current)) as ->.
  { unfold found_for.
    assert (cg_baseline st !! mr_Name current = find (fun m => mr_Name m =s mr_Name current) baseline) as ->; [|done].
    apply option_eq. intros x. rewrite HB, find_unique by done. tauto. }
  assert (names_of (done ++ [current]) = names_of done ++ [mr_Name current]) as Hnames
    by (unfold names_of; by rewrite fmap_app).
  split; cbn [cg_baseline cg_names cg_statuses cg_outcome].
  - intros n x. rewrite lookup_delete_Some, HB, Hnames, elem_of_app, list_elem_of_singleton. naive_solver.
  - intros n. rewrite Hnames, elem_of_app, elem_of_union, HNm, elem_of_singleton, list_elem_of_singleton. tauto.
  - unfold candidate_statuses. rewrite fmap_app. fold (candidate_statuses baseline done). cbn [fmap list_fmap].
    rewrite list_to_map_snoc; [by rewrite HS|]. by rewrite candidate_statuses_names.
  - unfold candidate_statuses. rewrite !fmap_app. fold (candidate_statuses baseline done). cbn [fmap list_fmap snd].
    rewrite HO. apply merge_outcome_of, compareMetric_known.
  - rewrite Hnames. apply NoDup_app. split_and!; [done| |apply NoDup_singleton]. set_solver.
Qed.

Lemma compare_all_exact baseline done st l :
  NoDup (names_of baseline) -> comparing baseline done st ->
  match compare_all st l with
  | Ok st' => comparing baseline (done ++ l) st'
  | Err _ => ~ NoDup (names_of (done ++ l))
  end.
Proof.
  intros HNb. revert done st. induction l as [|current l IH]; intros done st Hst; cbn [compare_all].
  { by rewrite app_nil_r. }
  pose proof (compare_one_step baseline done st current HNb Hst) as H1.
  destruct (compare_one st current) as [st'|e].
  - specialize (IH (done ++ [current]) st' H1). by rewrite <- (assoc_L (++)) in IH.
  - intros HN. unfold names_of in *. rewrite fmap_app in HN. apply NoDup_app in HN as (_ & HN & _).
    by apply (HN _ H1); left.
Qed.

Lemma compare_missing_all names statuses l :
  l = outcome_of statuses ->
  forall m, foldl compare_missing (m, l) names
  = (foldl (fun m n => <[n := MetricStatusInsufficient]> m) m names,
     outcome_of (statuses ++ ((fun _ => MetricStatusInsufficient) <$> names))).
Proof.
  intros ->. revert statuses. induction names as [|n names IH]; intros statuses m; cbn [foldl fmap list_fmap].
  - by rewrite app_nil_r.
  - unfold compare_missing at 2. cbn [fst snd]. rewrite merge_outcome_of by (unfold known_status; set_solver).
    rewrite IH, <- (assoc_L (++)). done.
Qed.

Lemma foldl_insufficient names (m : gmap string MetricStatus) n :
  foldl (fun m n => <[n := MetricStatusInsufficient]> m) m names !! n
  = if contains names n then Some MetricStatusInsufficient else m !! n.
Proof.
  revert m. induction names as [|k names IH]; intros m; cbn [foldl contains]; [done|]. rewrite IH.
  case_bool_decide as E; [subst; rewrite lookup_insert_eq; by case_match|by rewrite lookup_insert_ne].
Qed.

Lemma comparing_start baseline m :
  (forall n x, m !! n = Some x <-> (∅ : gmap string MetricResult) !! n = Some x \/ x ∈ baseline /\ mr_Name x = n) ->
  comparing baseline [] (mkComparing m ∅ ∅ "unchanged").
Proof.
  intros Hm. split; unfold names_of; cbn [cg_baseline cg_names cg_statuses cg_outcome fmap list_fmap].
  - intros n x. rewrite Hm, lookup_empty, elem_of_nil. naive_solver.
  - set_solver.
  - done.
  - done.
  - constructor.
Qed.

(** ** Comparing *)

(** The status of a metric of either revision. *)
Definition status_for (baseline candidate : list MetricResult) (name : string) : option MetricStatus :=
  match find (fun m => mr_Name m =s name) candidate with
  | Some current => Some (compareMetric (found_for baseline name) current)
  | None => if contains (names_of baseline) name then Some MetricStatusInsufficient else None
  end.

Definition comparable (baseline candidate : AuditProjectResult) : Prop :=
  apr_RevisionHash baseline <> "" /\ apr_RevisionHash candidate <> ""
  /\ NoDup (names_of (apr_Metrics baseline)) /\ NoDup (names_of (apr_Metrics candidate)).

Section Final.
Context (baseline candidate : list MetricResult) (st : Comparing).
Hypothesis compared : comparing baseline candidate st.

Lemma left_over n :
  n ∈ (map_to_list (cg_baseline st)).*1 <-> n ∈ names_of baseline /\ ~ n ∈ names_of candidate.
Proof.
  destruct compared as [HB _ _ _ _]. rewrite list_elem_of_fmap. split.
  - intros ([k x] & -> & [[Hx Hk] Hn]%elem_of_map_to_list%HB). split; [|done]. cbn. rewrite <- Hk.
    by apply list_elem_of_fmap_2.
  - intros [(x & -> & Hx)%list_elem_of_fmap Hn]. exists (mr_Name x, x). split; [done|].
    by apply elem_of_map_to_list, HB.
Qed.

Lemma final_status n :
  foldl (fun m n => <[n := MetricStatusInsufficient]> m) (cg_statuses st) (map_to_list (cg_baseline st)).*1 !! n
  = status_for baseline candidate n.
Proof.
  destruct compared as [_ _ HS _ HND]. rewrite foldl_insufficient. unfold status_for.
  destruct (find (fun m => mr_Name m =s n) candidate) as [current|] eqn:Hc.
  - apply find_unique in Hc as [Hc Hn]; [|done].
    assert (contains (map_to_list (cg_baseline st)).*1 n = false) as ->.
    { apply not_true_iff_false. rewrite contains_spec, left_over. intros [_ Hno]. apply Hno. rewrite <- Hn.
      by apply list_elem_of_fmap_2. }
    rewrite HS. apply elem_of_list_to_map; [by rewrite candidate_statuses_names|].
    apply list_elem_of_fmap. exists current. by rewrite Hn.
  - assert (~ n ∈ names_of candidate) as Hno.
    { intros (x & -> & Hx)%list_elem_of_fmap. apply list_elem_of_In, (find_none _ _ Hc) in Hx.
      by rewrite str_eqb_refl in Hx. }
    assert (cg_statuses st !! n = None) as ->.
    { rewrite HS. apply not_elem_of_list_to_map_1. by rewrite candidate_statuses_names. }
    assert (contains (map_to_list (cg_baseline st)).*1 n = contains (names_of baseline) n) as ->; [|done].
    apply eq_iff_eq_true. rewrite !contains_spec, left_over. tauto.
Qed.

(** The statuses that the outcome was merged from are those of the final map. *)
Lemma merged_statuses s :
  s ∈ (candidate_statuses baseline candidate).*2
      ++ ((fun _ => MetricStatusInsufficient) <$> (map_to_list (cg_baseline st)).*1)
  <-> exists n, status_for baseline candidate n = Some s.
Proof.
  pose proof (ci_statuses _ _ _ compared) as HS. pose proof (ci_nodup _ _ _ compared) as HND.
  setoid_rewrite <- final_status. setoid_rewrite foldl_insufficient. rewrite elem_of_app. split.
  - intros [Hs|Hs].
    + apply list_elem_of_fmap in Hs as ([n s'] & -> & Hs). exists n. rewrite <- foldl_insufficient, final_status.
      apply list_elem_of_fmap in Hs as (current & [= -> ->] & Hc).
      unfold status_for. by rewrite (proj2 (find_unique _ current _ HND) (conj Hc eq_refl)).
    + apply list_elem_of_fmap in Hs as (n & -> & Hn). exists n. by rewrite (proj2 (contains_spec _ _) Hn).
  - intros [n Hn]. destruct (contains _ n) eqn:E.
    + injection Hn as <-. right. apply contains_spec in E. apply list_elem_of_fmap. by exists n.
    + left. rewrite HS in Hn. apply elem_of_list_to_map in Hn; [|by rewrite candidate_statuses_names].
      apply list_elem_of_fmap. by exists (n, s).
Qed.
End Final.

Lemma Compare_all baseline candidate :
  match Compare baseline candidate with
  | Ok c =>
      comparable baseline candidate
      /\ (forall n, cp_Statuses c !! n = status_for (apr_Metrics baseline) (apr_Metrics candidate) n)
      /\ (exists statuses, cp_Outcome c = outcome_of statuses
            /\ forall s, s ∈ statuses <-> exists n, status_for (apr_Metrics baseline) (apr_Metrics candidate) n = Some s)
      /\ cp_QualityGateState c = qualityGateState (apr_Guardrails candidate)
  | Err _ => ~ comparable baseline candidate
  end.
Proof.
  unfold Compare. destruct (apr_RevisionHash baseline =s "") eqn:E1; cbn [orb].
  { apply str_eqb_eq in E1. by intros (H & _). }
  destruct (apr_RevisionHash candidate =s "") eqn:E2.
  { apply str_eqb_eq in E2. by intros (_ & H & _). }
  apply str_eqb_neq in E1, E2.
  destruct (index_baseline ∅ (apr_Metrics baseline)) as [m|e] eqn:Hi.
  2: { intros (_ & _ & HN & _). pose proof (index_baseline_ok (apr_Metrics baseline) ∅ HN) as Hok.
       rewrite Hi in Hok. discriminate Hok. intros x _. apply lookup_empty. }
  destruct (index_baseline_holds _ _ _ Hi) as (HNb & _ & Hm).
  pose proof (compare_all_exact (apr_Metrics baseline) [] (mkComparing m ∅ ∅ "unchanged") (apr_Metrics candidate) HNb) as H.
  destruct (compare_all _ (apr_Metrics candidate)) as [st|e].
  2: { intros (_ & _ & _ & HN). exact (H (comparing_start _ _ Hm) HN). }
  pose proof (H (comparing_start _ _ Hm)) as Hst. cbn [app] in Hst.
  destruct (foldl compare_missing _ _) as [statuses outcome] eqn:Hf.
  rewrite (compare_missing_all _ _ _ (ci_outcome _ _ _ Hst)) in Hf. injection Hf as <- <-.
  split; [repeat split; try done; exact (ci_nodup _ _ _ Hst)|]. split; [apply final_status, Hst|].
  split; [|done]. eexists. split; [reflexivity|]. intros s. by apply merged_statuses.
Qed.

(** ** Decisions *)

Lemma gate_state_exact guardrails state :
  state = "pass" \/ state = "unknown" ->
  gate_state state guardrails
  = if existsb (fun g => gr_State g =s "fail") guardrails then "fail"
    else if forallb (fun g => gr_State g =s "pass") guardrails then state else "unknown".
Proof.
  revert state. induction guardrails as [|g l IH]; intros state Hs; cbn [gate_state existsb forallb]; [done|].
  destruct (gr_State g =s "fail"); [done|]. cbn [orb]. destruct (gr_State g =s "pass"); cbn [andb]; rewrite IH by auto.
  - done.
  - by repeat case_match.
Qed.

Lemma gate_pass guardrails :
  qualityGateState guardrails = "pass" <-> guardrails <> [] /\ Forall (fun g => gr_State g = "pass") guardrails.
Proof.
  unfold qualityGateState. destruct guardrails as [|g l]; [naive_solver|]. rewrite gate_state_exact by auto.
  destruct (existsb _ _) eqn:E; [|destruct (forallb _ _) eqn:F].
  - split; [done|]. intros [_ H]. apply existsb_spec in E. exfalso. revert E. apply Forall_not_Exists.
    eapply Forall_impl; [exact H|]. intros x Hx. cbn. by rewrite Hx.
  - split; [|done]. intros _. split; [done|]. apply forallb_spec in F.
    eapply Forall_impl; [exact F|]. by intros x ?%str_eqb_eq.
  - split; [done|]. intros [_ H]. exfalso. apply not_true_iff_false in F. apply F, forallb_spec.
    eapply Forall_impl; [exact H|]. intros x Hx. cbn. by rewrite Hx.
Qed.

Lemma gate_fail guardrails :
  qualityGateState guardrails = "fail" <-> Exists (fun g => gr_State g = "fail") guardrails.
Proof.
  assert (existsb (fun g => gr_State g =s "fail") guardrails = true <-> Exists (fun g => gr_State g = "fail") guardrails) as <-.
  { rewrite existsb_spec. split; intros H; (eapply Exists_impl; [exact H|]); intros x; apply str_eqb_eq. }
  unfold qualityGateState. destruct guardrails as [|g l]; [done|]. rewrite gate_state_exact by auto.
  destruct (existsb _ _); [done|]. by destruct (forallb _ _).
Qed.

Lemma outcome_improved l :
  Forall known_status l ->
  outcome_of l = "improved"
  <-> MetricStatusImproved ∈ l /\ forall s, s ∈ l -> s = MetricStatusImproved \/ s = MetricStatusFlat.
Proof.
  intros HK. rewrite Forall_forall in HK. rewrite <- contains_spec. unfold outcome_of.
  pose proof (contains_spec l MetricStatusWorsened) as HW.
  pose proof (contains_spec l MetricStatusMixed) as HM.
  pose proof (contains_spec l MetricStatusInsufficient) as HI.
  destruct (contains l MetricStatusWorsened).
  { split; [done|]. intros [_ H]. by destruct (H _ (proj1 HW eq_refl)). }
  destruct (contains l MetricStatusMixed).
  { split; [done|]. intros [_ H]. by destruct (H _ (proj1 HM eq_refl)). }
  destruct (contains l MetricStatusInsufficient).
  { split; [done|]. intros [_ H]. by destruct (H _ (proj1 HI eq_refl)). }
  destruct (contains l MetricStatusImproved); [|naive_solver]. split; [|done]. intros _. split; [done|].
  intros s Hs. specialize (HK s Hs). unfold known_status in HK. rewrite !elem_of_cons, elem_of_nil in HK.
  naive_solver.
Qed.

Lemma outcome_regressed l : outcome_of l = "regressed" <-> MetricStatusWorsened ∈ l.
Proof.
  rewrite <- contains_spec. unfold outcome_of. destruct (contains l MetricStatusWorsened); [done|].
  by repeat case_match.
Qed.

Lemma status_for_known baseline candidate n s : status_for baseline candidate n = Some s -> known_status s.
Proof.
  unfold status_for. case_match; [intros [= <-]; apply compareMetric_known|]. case_match; [|done].
  intros [= <-]. unfold known_status. set_solver.
Qed.

Lemma decision_of_exact c :
  (decision_of c = "promote" <-> cp_Outcome c = "improved" /\ cp_QualityGateState c = "pass")
  /\ (decision_of c = "rollback" <-> cp_Outcome c = "regressed" \/ cp_QualityGateState c = "fail")
  /\ decision_of c ∈ ["promote"; "hold"; "rollback"].
Proof.
  unfold decision_of.
  destruct (cp_Outcome c =s "regressed") eqn:E1; [apply str_eqb_eq in E1; rewrite E1|apply str_eqb_neq in E1];
    (destruct (cp_QualityGateState c =s "fail") eqn:E2;
       [apply str_eqb_eq in E2; rewrite E2|apply str_eqb_neq in E2]); cbn [orb];
    [repeat split; naive_solver (set_solver)..|].
  destruct (cp_Outcome c =s "improved") eqn:E3; [apply str_eqb_eq in E3|apply str_eqb_neq in E3];
    (destruct (cp_QualityGateState c =s "pass") eqn:E4; [apply str_eqb_eq in E4|apply str_eqb_neq in E4]);
    cbn [andb]; repeat split; naive_solver (set_solver).
Qed.

(** Promotion is safe.  An evaluation of a candidate is promoted exactly when some metric
    improved, every metric of either revision improved or stayed the same - none worsened, was
    contextual, or could not be compared - and there are guardrails and all of them pass; it is
    rolled back exactly when a metric worsened or a guardrail fails; otherwise it is held. *)
Theorem promotion_exact baseline candidate comparison :
  Compare baseline candidate = Ok comparison ->
  let status := status_for (apr_Metrics baseline) (apr_Metrics candidate) in
  let guardrails := apr_Guardrails candidate in
  (decision_of comparison = "promote"
   <-> (exists n, status n = Some MetricStatusImproved)
       /\ (forall n s, status n = Some s -> s = MetricStatusImproved \/ s = MetricStatusFlat)
       /\ guardrails <> [] /\ Forall (fun g => gr_State g = "pass") guardrails)
  /\ (decision_of comparison = "rollback"
      <-> (exists n, status n = Some MetricStatusWorsened)
          \/ Exists (fun g => gr_State g = "fail") guardrails)
  /\ decision_of comparison ∈ ["promote"; "hold"; "rollback"].
Proof.
  intros HC. cbn zeta. pose proof (Compare_all baseline candidate) as H. rewrite HC in H.
  destruct H as (_ & _ & (statuses & HO & Hs) & HG).
  assert (Forall known_status statuses) as HK.
  { apply Forall_forall. intros s [n Hn]%Hs. by eapply status_for_known. }
  rewrite <- gate_pass, <- gate_fail, <- HG, <- (Hs MetricStatusImproved), <- (Hs MetricStatusWorsened).
  assert ((forall n s, status_for (apr_Metrics baseline) (apr_Metrics candidate) n = Some s ->
             s = MetricStatusImproved \/ s = MetricStatusFlat)
          <-> forall s, s ∈ statuses -> s = MetricStatusImproved \/ s = MetricStatusFlat) as ->.
  { split; [intros H s [n Hn]%Hs; eauto|]. intros H n s Hn. apply H, Hs. eauto. }
  pose proof (outcome_improved statuses HK) as HI. pose proof (outcome_regressed statuses) as HR.
  rewrite <- HO in HI, HR. rewrite <- HR.
  destruct (decision_of_exact comparison) as (HP & HB & HD). split_and!; [|exact HB|exact HD].
  rewrite HP, HI. tauto.
Qed.

(** ** Comparing the other way round *)

Definition mirror (s : MetricStatus) : MetricStatus :=
  if s =s MetricStatusImproved then MetricStatusWorsened
  else if s =s MetricStatusWorsened then MetricStatusImproved
  else s.

Lemma finite_flip x y :
  finite x = true -> finite y = true -> feq x y = feq y x /\ (feq x y = false -> flt x y = negb (flt y x)).
Proof.
  intros Hx%finite_not_nan Hy%finite_not_nan. rewrite !feq_float_less, !flt_float_less by done. split.
  - apply andb_comm.
  - pose proof (sw_asym (less := float_less) x y). destruct (float_less x y), (float_less y x); cbn; naive_solver.
Qed.

Lemma compareMetric_mirror prior current d :
  mr_Name prior = mr_Name current ->
  compareMetric (Some (current, d)) prior = mirror (compareMetric (Some (prior, d)) current).
Proof.
  intros HN. unfold compareMetric, finiteMetricValue. rewrite HN.
  rewrite (str_eqb_sym (mr_Version current)).
  destruct (mr_NativeValue prior) as [x|]; [destruct (finite x) eqn:Hx|];
    (destruct (mr_NativeValue current) as [y|]; [destruct (finite y) eqn:Hy|]); try (vm_compute; reflexivity).
  destruct (finite_flip x y Hx Hy) as [He Hl]. rewrite <- He.
  destruct (mr_Version prior =s _), (mr_Coverage prior =s _), (mr_Coverage current =s _); cbn [negb orb];
    try (vm_compute; reflexivity).
  destruct (feq x y); [vm_compute; reflexivity|]. specialize (Hl eq_refl).
  destruct (de_Polarity d =s _); [vm_compute; reflexivity|]. rewrite Hl.
  destruct (higher_is_better d _), (flt y x); vm_compute; reflexivity.
Qed.

Lemma status_for_mirror baseline candidate n :
  NoDup (names_of baseline) -> NoDup (names_of candidate) ->
  status_for candidate baseline n = mirror <$> status_for baseline candidate n.
Proof.
  intros HB HC. unfold status_for, found_for.
  assert (forall l, NoDup (names_of l) -> find (fun m => mr_Name m =s n) l = None -> contains (names_of l) n = false)
    as Hnone.
  { intros l _ Hl. apply not_true_iff_false. rewrite contains_spec. intros (x & -> & Hx)%list_elem_of_fmap.
    apply list_elem_of_In, (find_none _ _ Hl) in Hx. by rewrite str_eqb_refl in Hx. }
  assert (forall l x, NoDup (names_of l) -> find (fun m => mr_Name m =s n) l = Some x -> contains (names_of l) n = true)
    as Hsome.
  { intros l x Hl [Hx <-]%find_unique; [|done]. apply contains_spec. by apply list_elem_of_fmap_2. }
  destruct (find (fun m => mr_Name m =s n) baseline) as [prior|] eqn:Hp;
    destruct (find (fun m => mr_Name m =s n) candidate) as [current|] eqn:Hc.
  - apply find_unique in Hp as [_ Hp]; [|done]. apply find_unique in Hc as [_ Hc]; [|done].
    destruct (definition_index !! n) as [d|]; cbn; [|by vm_compute]. f_equal. apply compareMetric_mirror. congruence.
  - rewrite (Hsome _ _ HB Hp). by vm_compute.
  - rewrite (Hsome _ _ HC Hc). by vm_compute.
  - by rewrite (Hnone _ HB Hp), (Hnone _ HC Hc).
Qed.

(** A comparison read backwards is its mirror image.  If two revisions can be compared, they
    can be compared the other way round, and then exactly the improved metrics have worsened and
    the worsened ones improved, while every other status stays. *)
Theorem Compare_mirror baseline candidate comparison :
  Compare baseline candidate = Ok comparison ->
  exists mirrored, Compare candidate baseline = Ok mirrored
    /\ forall n, cp_Statuses mirrored !! n = mirror <$> cp_Statuses comparison !! n.
Proof.
  intros HC. pose proof (Compare_all baseline candidate) as H. rewrite HC in H.
  destruct H as ((H1 & H2 & HB & HN) & Hs & _). pose proof (Compare_all candidate baseline) as H'.
  destruct (Compare candidate baseline) as [m|e].
  - exists m. split; [done|]. intros n. destruct H' as (_ & Hs' & _). rewrite Hs', Hs. by apply status_for_mirror.
  - destruct H'. by repeat split.
Qed.

(** ** A concrete pair of revisions *)

Definition sample_metric (value : Z) : MetricResult :=
  mkMetricResult "checkpoint_completeness" DefinitionVersion (Some (float_of_Z value)) "ratio" None None 1
    None None None 0 None None None None None fzero CoverageStateComplete MetricStatusFlat "" "" "none" [] [].

Definition sample_revision (hash : string) (value : Z) : AuditProjectResult :=
  mkAuditProjectResult SchemaVersion "audit" "all" AuditScopePortfolio 1 hash CoverageStateComplete
    [sample_metric value] [] [] [] (mkAuditWindowProvenance 0 1 1 "" "" "" "" [] 0 false) [] []
    (mkInvocationCounts 0 0 0 0 0) [] [] [mkGuardrailResult "privacy" "pass" CoverageStateComplete []] "" 0 None.

Definition sample_comparison : Comparison :=
  match Compare (sample_revision "a" 1) (sample_revision "b" 2) with
  | Ok c => c
  | Err _ => mkComparison "" "" ∅ "" ""
  end.

Lemma sample_compared : Compare (sample_revision "a" 1) (sample_revision "b" 2) = Ok sample_comparison.
Proof. vm_compute. reflexivity. Qed.

Example promotion_exact_witness : decision_of sample_comparison = "promote".
Proof.
  apply (promotion_exact _ _ _ sample_compared). split_and!.
  - exists "checkpoint_completeness". vm_compute. reflexivity.
  - intros n s. unfold status_for. cbn [find apr_Metrics sample_revision].
    destruct (mr_Name (sample_metric 2) =s n) eqn:E.
    + apply str_eqb_eq in E. rewrite <- E. vm_compute. intros [= <-]. by left.
    + apply str_eqb_neq in E. cbn [contains names_of fmap list_fmap]. rewrite bool_decide_eq_false_2 by exact E. done.
  - done.
  - by repeat constructor.
Defined.

Example Compare_mirror_witness :
  exists mirrored, Compare (sample_revision "b" 2) (sample_revision "a" 1) = Ok mirrored
    /\ cp_Statuses mirrored !! "checkpoint_completeness" = Some MetricStatusWorsened.
Proof.
  destruct (Compare_mirror _ _ _ sample_compared) as (m & Hm & Hs). exists m. split; [exact Hm|].
  rewrite Hs. vm_compute. reflexivity.
Defined.
