(* ===== verification/Transactions.v ===== *)
(** * Transactions of the store (internal/store/postgres/repository.go, [withSerializable])

    A call of the database is a function of a connection: the contents of the database and the
    number of statements sent so far.  What the program cannot know is given by an [Outside]:
    which statement fails and with which code, what [statement_timestamp()] and
    [pg_database_size] are at a statement, what the server answers to a COMMIT, and what other
    connections have committed before a statement.  Theorems hold for every [Outside]. *)
From S2P Require Import Contracts GoInt.

Inductive StoreError :=
  | ErrNotFound
  | ErrStaleCursor
  | ErrSourceConflict
  | ErrInvalidEffectiveTime
  | ErrStorageBudgetExceeded
  | ErrContract (e : StableError)
  | ErrMessage (message : string)
  | ErrDatabase (operation code : string).

(** The answer to a COMMIT: done, refused with a code, or none, the transaction being applied or
    not. *)
Inductive CommitReply :=
  | Committed
  | Refused (code : string)
  | Unanswered (applied : bool).

Record Outside (D : Type) := mkOutside {
  ou_fails : nat -> option string;
  ou_clock : nat -> Z;
  ou_bytes : nat -> Z;
  ou_commit : nat -> CommitReply;
  ou_others : nat -> D -> D
}.
Arguments mkOutside {D}. Arguments ou_fails {D}. Arguments ou_clock {D}. Arguments ou_bytes {D}.
Arguments ou_commit {D}. Arguments ou_others {D}.

Record Conn (D : Type) := mkConn { cn_db : D; cn_sent : nat }.
Arguments mkConn {D}. Arguments cn_db {D}. Arguments cn_sent {D}.

Definition Tx (D A : Type) : Type := Conn D -> result StoreError A * Conn D.

Definition tx_ret {D A} (a : A) : Tx D A := fun c => (Ok a, c).
Definition tx_err {D A} (e : StoreError) : Tx D A := fun c => (Err e, c).
Definition tx_bind {D A B} (m : Tx D A) (k : A -> Tx D B) : Tx D B :=
  fun c => match m c with
           | (Ok a, c) => k a c
           | (Err e, c) => (Err e, c)
           end.

Declare Scope tx_scope.
Delimit Scope tx_scope with tx.
Open Scope tx_scope.

Notation "'do!' x := m 'in' k" := (tx_bind m (fun x => k))
  (at level 10, x pattern, m at level 200, k at level 200) : tx_scope.

(** [if cond { return err }] *)
Notation "'fail_if!' b 'with' e 'in' k" := (if b then tx_err e else k)
  (at level 10, b at level 200, e at level 200, k at level 200) : tx_scope.

(** [for _, x := range l { if err := f(x); err != nil { return err } }] *)
Fixpoint tx_each {D A} (f : A -> Tx D unit) (l : list A) : Tx D unit :=
  match l with
  | [] => tx_ret tt
  | x :: rest => do! _ := f x in tx_each f rest
  end.

Definition maxTransactionAttempts : nat := 3.

Definition retryableTransactionFailure (e : StoreError) : bool :=
  match e with
  | ErrDatabase _ code => (code =s "40001") || (code =s "40P01")
  | _ => false
  end.

Section Calls.
Context {D : Type} (world : Outside D).

(** One statement: [f] gives the code of a violated constraint, or what the statement returns
    and the database after it. *)
Definition statement {A} (error : string -> StoreError) (f : nat -> D -> result string (A * D)) : Tx D A :=
  fun c =>
    let n := cn_sent c in
    match ou_fails world n with
    | Some code => (Err (error code), mkConn (cn_db c) (S n))
    | None =>
        match f n (cn_db c) with
        | Err code => (Err (error code), mkConn (cn_db c) (S n))
        | Ok (a, d) => (Ok a, mkConn d (S n))
        end
    end.

Definition exec {A} (operation : string) (f : nat -> D -> result string (A * D)) : Tx D A :=
  statement (ErrDatabase operation) f.

Definition query {A} (operation : string) (f : nat -> D -> A) : Tx D A :=
  exec operation (fun n d => Ok (f n d, d)).

(** A statement on the pool: a transaction of its own. *)
Definition pool {A} (message : string) (f : nat -> D -> result string (A * D)) : Tx D A :=
  fun c => statement (fun _ => ErrMessage message) f
             (mkConn (ou_others world (cn_sent c) (cn_db c)) (cn_sent c)).

Definition pool_query {A} (message : string) (f : nat -> D -> A) : Tx D A :=
  pool message (fun n d => Ok (f n d, d)).

(** One attempt of [withSerializable]; a rollback gives the snapshot back. *)
Definition attempt {A} (fn : Tx D A) : Tx D A :=
  fun c =>
    let n := cn_sent c in
    let snapshot := ou_others world n (cn_db c) in
    match ou_fails world n with
    | Some code => (Err (ErrDatabase "begin database transaction" code), mkConn snapshot (S n))
    | None =>
        match fn (mkConn snapshot (S n)) with
        | (Err e, c') => (Err e, mkConn snapshot (S (cn_sent c')))
        | (Ok a, c') =>
            let lost code := ErrDatabase "commit database transaction" code in
            match ou_commit world (cn_sent c') with
            | Committed => (Ok a, mkConn (cn_db c') (S (cn_sent c')))
            | Refused code => (Err (lost code), mkConn snapshot (S (cn_sent c')))
            | Unanswered applied =>
                (Err (lost ""), mkConn (if applied then cn_db c' else snapshot) (S (cn_sent c')))
            end
        end
    end.

(** Beginning a transaction fails at once; other failures are tried again when they are of the
    two retryable codes. *)
Definition begins (c : Conn D) : bool := bool_decide (ou_fails world (cn_sent c) = None).

Fixpoint attempts_from {A} (left : nat) (fn : Tx D A) : Tx D A :=
  match left with
  | O => tx_err (ErrMessage "database transaction retry exhausted")
  | S left' =>
      fun c =>
        match attempt fn c with
        | (Ok a, c') => (Ok a, c')
        | (Err e, c') =>
            if negb (begins c) || negb (retryableTransactionFailure e) || (left' =? 0)%nat
            then (Err e, c')
            else attempts_from left' fn c'
        end
  end.

Definition withSerializable {A} (fn : option (Tx D A)) : Tx D A :=
  match fn with
  | None => tx_err (ErrMessage "transaction callback is required")
  | Some fn => attempts_from maxTransactionAttempts fn
  end.
End Calls.

(** ** What a serializable call does *)

Section Atomic.
Context {D : Type} (world : Outside D).

(** [d'] can be the database after [fn] was run, as a whole, at [d]. *)
Definition ran {A} (fn : Tx D A) (r : option A) (d d' : D) : Prop :=
  exists n a n', fn (mkConn d n) = (Ok a, mkConn d' n') /\ (r = Some a \/ r = None).

(** [e] is the error of a call at [d]: a failure of the server, or what [fn] reports there. *)
Definition reports {A} (fn : Tx D A) (e : StoreError) (d : D) : Prop :=
  (exists operation code, e = ErrDatabase operation code)
  \/ exists n c', fn (mkConn d n) = (Err e, c').

(** The database that the last attempt starts from: what other connections made of it. *)
Inductive reached : D -> D -> Prop :=
  | reached_here d : reached d d
  | reached_others n d d' : reached (ou_others world n d) d' -> reached d d'.

Lemma reached_step n d : reached d (ou_others world n d).
Proof. apply (reached_others n). constructor. Qed.

Lemma reached_trans d1 d2 d3 : reached d1 d2 -> reached d2 d3 -> reached d1 d3.
Proof. induction 1 as [|n d d' H IH]; [done|]. intros H3. apply (reached_others n). auto. Qed.

Lemma statement_exact {A} error (f : nat -> D -> result string (A * D)) c r c' :
  statement world error f c = (r, c') ->
  (exists a, r = Ok a /\ f (cn_sent c) (cn_db c) = Ok (a, cn_db c'))
  \/ (exists code, r = Err (error code) /\ cn_db c' = cn_db c).
Proof.
  unfold statement. destruct (ou_fails world _) as [code|]; [intros [= <- <-]; eauto|].
  destruct (f _ _) as [[a d]|code]; intros [= <- <-]; eauto.
Qed.

Lemma attempt_exact {A} (fn : Tx D A) c r c' :
  attempt world fn c = (r, c') ->
  let snapshot := ou_others world (cn_sent c) (cn_db c) in
  match r with
  | Ok a => ran fn (Some a) snapshot (cn_db c')
  | Err e => cn_db c' = snapshot /\ reports fn e snapshot
             \/ e = ErrDatabase "commit database transaction" "" /\ ran fn None snapshot (cn_db c')
  end.
Proof.
  unfold attempt, ran, reports. destruct (ou_fails world _) as [code|]; [intros [= <- <-]; left; eauto|].
  destruct (fn _) as [[a|e] [d n]] eqn:Hf; cbn [cn_db cn_sent]; [|intros [= <- <-]; left; eauto].
  destruct (ou_commit world n) as [|code|applied]; intros [= <- <-]; cbn [cn_db]; [eauto 8|left; eauto|].
  destruct applied; [right|left; eauto]. eauto 8.
Qed.

Lemma attempts_step {A} left (fn : Tx D A) c :
  attempts_from world (S left) fn c
  = match attempt world fn c with
    | (Ok a, c') => (Ok a, c')
    | (Err e, c') =>
        if negb (begins world c) || negb (retryableTransactionFailure e) || (left =? 0)%nat
        then (Err e, c')
        else attempts_from world left fn c'
    end.
Proof. reflexivity. Qed.

(** Success: the callback ran as a whole on what others had made of the database.  Failure: the
    database is as others made it, unless the answer to the last COMMIT was lost. *)
Lemma withSerializable_atomic {A} (fn : Tx D A) c r c' :
  withSerializable world (Some fn) c = (r, c') ->
  exists snapshot, reached (cn_db c) snapshot
    /\ match r with
       | Ok a => ran fn (Some a) snapshot (cn_db c')
       | Err e => cn_db c' = snapshot /\ reports fn e snapshot
                  \/ e = ErrDatabase "commit database transaction" "" /\ ran fn None snapshot (cn_db c')
       end.
Proof.
  unfold withSerializable, maxTransactionAttempts. generalize 2%nat as left. intros left. revert c.
  induction left as [|left IH]; intros c; rewrite attempts_step;
    destruct (attempt world fn c) as [[a|e] c1] eqn:Ha; apply attempt_exact in Ha; cbn zeta in Ha.
  1, 3: intros [= <- <-]; eexists; split; [apply reached_step|done].
  - rewrite orb_true_r. intros [= <- <-]. eexists. split; [apply reached_step|done].
  - destruct (_ || _ || _) eqn:Hg.
    + intros [= <- <-]. eexists. split; [apply reached_step|done].
    + apply orb_false_iff in Hg as [[_ Hg%negb_false_iff]%orb_false_iff _].
      destruct Ha as [[Ha _]|[-> _]]; [|discriminate Hg].
      intros (s & Hs & Hr)%IH. exists s. split; [|done].
      apply (reached_others (cn_sent c)). by rewrite <- Ha.
Qed.
End Atomic.

(** A server that never fails, with nobody else connected. *)
Definition calm {D : Type} : Outside D :=
  mkOutside (fun _ => None) (fun n => Z.of_nat n) (fun _ => 0%Z) (fun _ => Committed) (fun _ d => d).

(** ** What a call keeps *)

Section Keeps.
Context {D : Type} (world : Outside D) (R : relation D) `{!PreOrder R}.

(** The database after a call, successful or not, is related to the one before. *)
Definition keeps {A} (m : Tx D A) : Prop := forall c r c', m c = (r, c') -> R (cn_db c) (cn_db c').

Lemma keeps_ret {A} (a : A) : keeps (tx_ret a).
Proof. intros c r c' [= <- <-]. done. Qed.

Lemma keeps_err {A} e : keeps (tx_err (A := A) e).
Proof. intros c r c' [= <- <-]. done. Qed.

Lemma keeps_bind {A B} (m : Tx D A) (k : A -> Tx D B) : keeps m -> (forall a, keeps (k a)) -> keeps (tx_bind m k).
Proof.
  intros Hm Hk c r c'. unfold tx_bind. destruct (m c) as [[a|e] c1] eqn:E; apply Hm in E.
  - intros H. apply Hk in H. by etrans.
  - by intros [= <- <-].
Qed.

(** The continuation only has to keep the relation for the values that the call returns. *)
Lemma keeps_bind_value {A B} (Q : A -> Prop) (m : Tx D A) (k : A -> Tx D B) :
  keeps m -> (forall a c c1, m c = (Ok a, c1) -> Q a) -> (forall a, Q a -> keeps (k a)) -> keeps (tx_bind m k).
Proof.
  intros Hm HQ Hk c r c'. unfold tx_bind. destruct (m c) as [[a|e] c1] eqn:E.
  - pose proof (HQ _ _ _ E) as Ha. apply Hm in E. intros H. apply (Hk a Ha) in H. by etrans.
  - apply Hm in E. by intros [= <- <-].
Qed.

Lemma keeps_statement {A} error (f : nat -> D -> result string (A * D)) :
  (forall n d a d', f n d = Ok (a, d') -> R d d') -> keeps (statement world error f).
Proof.
  intros H c r c' E. apply statement_exact in E as [(a & -> & E)|(code & -> & E)]; [by apply H in E|by rewrite E].
Qed.

Lemma keeps_query {A} operation (f : nat -> D -> A) : keeps (query world operation f).
Proof. apply keeps_statement. by intros n d a d' [= _ <-]. Qed.

Lemma keeps_each {A} (f : A -> Tx D unit) l : (forall x, x ∈ l -> keeps (f x)) -> keeps (tx_each f l).
Proof.
  induction l as [|x l IH]; intros H; [apply keeps_ret|]. apply keeps_bind; [apply H; left|].
  intros _. apply IH. intros y Hy. apply H. by right.
Qed.
End Keeps.

Lemma bind_ok {D A B} (m : Tx D A) (k : A -> Tx D B) c b c' :
  tx_bind m k c = (Ok b, c') -> exists a c1, m c = (Ok a, c1) /\ k a c1 = (Ok b, c').
Proof. unfold tx_bind. destruct (m c) as [[a|e] c1]; [eauto|done]. Qed.

Lemma fail_if_ok {D A} (b : bool) e (k : Tx D A) c a c' :
  (fail_if! b with e in k) c = (Ok a, c') -> b = false /\ k c = (Ok a, c').
Proof. by destruct b. Qed.

Lemma statement_ok {D A} (world : Outside D) error (f : nat -> D -> result string (A * D)) c a c' :
  statement world error f c = (Ok a, c') -> f (cn_sent c) (cn_db c) = Ok (a, cn_db c').
Proof. intros H. apply statement_exact in H as [(a' & [= ->] & H)|(code & [=] & _)]; done. Qed.

Lemma query_ok {D A} (world : Outside D) operation (f : nat -> D -> A) c a c' :
  query world operation f c = (Ok a, c') -> a = f (cn_sent c) (cn_db c) /\ cn_db c' = cn_db c.
Proof. intros H. apply statement_ok in H. by injection H as <- <-. Qed.

(** After a loop, what every turn establishes holds of every element, if the later turns keep it. *)
Lemma each_ok {D A} (f : A -> Tx D unit) (P : A -> D -> Prop) l c c' :
  (forall x d d', x ∈ l -> (exists y n n' r, y ∈ l /\ f y (mkConn d n) = (r, mkConn d' n')) -> P x d -> P x d') ->
  (forall x c c', x ∈ l -> f x c = (Ok tt, c') -> P x (cn_db c')) ->
  tx_each f l c = (Ok tt, c') -> forall x, x ∈ l -> P x (cn_db c').
Proof.
  revert c. induction l as [|x l IH]; intros c HK HP; cbn [tx_each]; [by intros _ ? ?%not_elem_of_nil|].
  intros ([] & c1 & H1 & H2)%bind_ok y Hy.
  assert (forall z, z ∈ l -> P z (cn_db c')) as Hrest.
  { apply (IH c1); [| |done].
    - intros z d d' Hz (w & n & n' & r & Hw & E). apply HK; [by right|]. exists w, n, n', r. split; [by right|done].
    - intros z c2 c3 Hz. apply HP. by right. }
  apply elem_of_cons in Hy as [->|Hy]; [|by apply Hrest].
  apply HP in H1; [|left]. clear IH HP Hrest. revert c1 H1 H2. 
  assert (forall k, k ⊆ l -> forall c1, P x (cn_db c1) -> tx_each f k c1 = (Ok tt, c') -> P x (cn_db c')) as H; [|by apply H].
  induction k as [|z k IH]; intros Hk c1 H1; cbn [tx_each]; [by intros [= <-]|].
  intros ([] & c2 & E & E2)%bind_ok. apply (IH ltac:(set_solver) c2); [|done].
  apply (HK x (cn_db c1)); [left| |done]. destruct c1 as [d1 n1], c2 as [d2 n2].
  exists z, n1, n2, (Ok tt). split; [right; set_solver|done].
Qed.
