(* ===== verification/Tables.v ===== *)
(** * The tables of the store (migrations/00002_tables.sql, 00004_constraints.sql)

    A table is a finite map from its primary key to a row; a row has the columns that
    internal/store/postgres writes or reads, [None] being NULL.  The tables that
    are only ever appended to (events, observations, links) keep a row as a map from column names
    to values, a NULL column being absent.  Primary and foreign keys are checked by the
    statements; the other constraints of the schema can make a statement fail, which any
    statement can for reasons of the server ([Transactions.ou_fails]). *)
From S2P Require Import Contracts GoInt Transactions Snapshots.

(** A value of a column. *)
Inductive SqlValue :=
  | VText (s : string)
  | VInt (z : Z)
  | VFloat (f : float64)
  | VBool (b : bool)
  | VTime (t : Z)
  | VJson (object : list (string * option SqlValue)).

Definition Columns : Type := gmap string SqlValue.

(** The columns of an INSERT with their arguments; a nil argument is NULL. *)
Definition columns (l : list (string * option SqlValue)) : Columns :=
  list_to_map (omap (fun '(name, v) => (fun v => (name, v)) <$> v) l).

(** [nullableString], as an argument. *)
Definition nullableString (value : string) : option string := if value =s "" then None else Some value.

(** A version of a dimension: half-open, from [ve_From] to [ve_To]. *)
Record Version (A : Type) := mkVersion {
  ve_Owner : string;
  ve_Number : Z;
  ve_Value : A;
  ve_Hash : string;
  ve_From : Z;
  ve_To : option Z
}.
Arguments mkVersion {A}. Arguments ve_Owner {A}. Arguments ve_Number {A}. Arguments ve_Value {A}.
Arguments ve_Hash {A}. Arguments ve_From {A}. Arguments ve_To {A}.

Record ProjectAttributes := mkProjectAttributes {
  pa_Classification : string;
  pa_LifecycleState : string
}.

Record SourceAttributes := mkSourceAttributes {
  sa_AdapterVersion : option string;
  sa_ProductSurface : string;
  sa_CoverageState : string;
  sa_Enabled : bool
}.

Record SourceRow := mkSourceRow { so_Kind : string; so_CreatedAt : Z }.

(** The policy of a window is a version, a hash, raw retention and telemetry. *)
Record WindowRow := mkWindowRow {
  wi_Project : option string; wi_Kind : string; wi_StartsAt : Z; wi_EndsAt : Z; wi_AsOf : Z;
  wi_Policy : option (string * string * bool * bool)
}.

Record RevisionRow := mkRevisionRow {
  rv_Window : string; rv_Number : Z; rv_Watermark : Z; rv_Coverage : string; rv_Hash : string;
  rv_CreatedAt : Z; rv_Prior : option string; rv_Engine : string
}.

Record MetricDefinitionRow := mkMetricDefinitionRow {
  md_Name : string; md_Version : string; md_Hash : string; md_Columns : Columns; md_CreatedAt : Z
}.

Record MetricResultRow := mkMetricResultRow {
  ms_Revision : string; ms_Evaluation : string; ms_Definition : string; ms_Name : string;
  ms_Version : string; ms_Columns : Columns
}.

Record FindingRow := mkFindingRow { fg_Revision : string; fg_Columns : Columns }.

Record RecommendationRow := mkRecommendationRow {
  rc_Revision : string; rc_Finding : option string; rc_Project : option string; rc_Columns : Columns
}.

(** The program only ever reads and deletes these. *)
Record RecommendationEventRow := mkRecommendationEventRow {
  rn_Recommendation : string; rn_Kind : string; rn_ObservedAt : Z; rn_Evidence : option string
}.

Record EvaluationRow := mkEvaluationRow { ev_Revision : string; ev_Columns : Columns }.

Record KeyVersionRow := mkKeyVersionRow {
  kv_Reference : string; kv_State : string; kv_CreatedAt : Z; kv_ActivatedAt : option Z;
  kv_RetiredAt : option Z; kv_DeletedAt : option Z
}.

Record AliasRow := mkAliasRow {
  al_Project : string; al_Source : string; al_Key : string; al_Kind : string; al_Digest : string;
  al_CreatedAt : Z
}.

Record PolicyRow := mkPolicyRow {
  po_Project : string; po_Version : string; po_Classification : string; po_Seconds : Z;
  po_LegalHold : bool; po_CreatedAt : Z
}.

Record ActionRow := mkActionRow {
  ac_Policy : string; ac_Project : string; ac_Key : string; ac_Cutoff : Z; ac_Planned : Z;
  ac_Applied : Z; ac_Status : string; ac_StartedAt : Z; ac_CompletedAt : option Z
}.

Record ArchiveRow := mkArchiveRow {
  av_Project : string; av_Action : string; av_Reference : string; av_Columns : Columns
}.

Record ActionEntityRow := mkActionEntityRow { an_Action : string; an_Batch : string; an_Columns : Columns }.

(** The row of a source in collection_cursors; the only kind of cursor is a sequence. *)
Record CursorRow := mkCursorRow {
  cu_Value : string; cu_State : string; cu_ObservedAt : Z; cu_LeaseExpires : option Z;
  cu_UpdatedAt : Z
}.

Record SessionRow := mkSessionRow {
  se_Project : option string; se_Source : string; se_StartedAt : Z; se_Coverage : string;
  se_Knowledge : string
}.

Record TrajectoryRow := mkTrajectoryRow {
  tr_Session : string; tr_Source : string; tr_Alias : string; tr_Parent : option string;
  tr_StartedAt : Z; tr_Knowledge : string
}.

Record TaskRow := mkTaskRow {
  ta_Project : option string; ta_Source : string; ta_Alias : string; ta_Kind : string;
  ta_Attribution : string; ta_Confidence : option Z; ta_Algorithm : string; ta_ObservedAt : Z;
  ta_Knowledge : string
}.

Record TurnRow := mkTurnRow {
  tu_Trajectory : string; tu_Source : string; tu_Alias : string; tu_Task : option string;
  tu_Ordinal : Z; tu_ObservedAt : Z; tu_Knowledge : string
}.

Record ResponseRow := mkResponseRow {
  re_Turn : string; re_Source : string; re_Alias : string; re_Parent : option string;
  re_ModelVariant : option string; re_ReasoningEffort : option string;
  re_ReasoningMode : option string; re_Verbosity : option string;
  re_ServiceMode : option string; re_Safeguard : option string; re_StartedAt : Z;
  re_CompletedAt : option Z; re_Knowledge : string
}.

Record PhaseRow := mkPhaseRow {
  ph_Trajectory : string; ph_Response : option string; ph_Kind : string; ph_Ordinal : Z;
  ph_StartedAt : Z; ph_EndedAt : option Z; ph_Knowledge : string
}.

Record ItemRow := mkItemRow {
  it_Response : string; it_Source : string; it_Alias : string; it_Kind : string;
  it_Phase : option string; it_Ordinal : Z; it_ImageDetail : option string;
  it_ContentHash : string; it_ContentLength : option Z; it_ObservedAt : Z; it_Knowledge : string
}.

Record EpochRow := mkEpochRow {
  ep_Trajectory : string; ep_Source : string; ep_Hash : option string; ep_Mutation : string;
  ep_StartedAt : Z; ep_Knowledge : string
}.

Record ToolCallRow := mkToolCallRow {
  tc_Response : string; tc_Phase : option string; tc_Source : string; tc_Alias : string;
  tc_Caller : option string; tc_CallPath : string; tc_ToolKind : string; tc_StartedAt : Z;
  tc_Outcome : option string; tc_Knowledge : string; tc_Epoch : option string;
  tc_CallHash : option string; tc_ResultState : option string; tc_Modality : option string;
  tc_OutputSize : option Z; tc_WaitState : option string
}.

Record ArtifactRow := mkArtifactRow {
  ea_Source : string; ea_Project : option string; ea_Session : option string;
  ea_Alias : option string; ea_Schema : string; ea_Hash : string; ea_Length : Z;
  ea_Class : string; ea_Redaction : string; ea_Coverage : string; ea_Provenance : string;
  ea_Surface : string; ea_ObservedAt : Z; ea_RetainedUntil : option Z
}.

#[export] Instance ArtifactRow_eq_dec : EqDecision ArtifactRow.
Proof. solve_decision. Defined.

Record DB := mkDB {
  db_projects : gmap string Z;
  db_project_versions : gmap string (Version ProjectAttributes);
  db_sources : gmap string SourceRow;
  db_source_versions : gmap string (Version SourceAttributes);
  db_cursors : gmap string CursorRow;
  db_sessions : gmap string SessionRow;
  db_trajectories : gmap string TrajectoryRow;
  db_tasks : gmap string TaskRow;
  db_turns : gmap string TurnRow;
  db_responses : gmap string ResponseRow;
  db_phases : gmap string PhaseRow;
  db_items : gmap string ItemRow;
  db_epochs : gmap string EpochRow;
  db_tool_calls : gmap string ToolCallRow;
  db_artifacts : gmap string ArtifactRow;
  db_events : gmap string Columns;
  db_links : gmap string Columns;
  db_observations : gmap string Columns;
  db_windows : gmap string WindowRow;
  db_revisions : gmap string RevisionRow;
  db_evaluations : gmap string EvaluationRow;
  db_definitions : gmap string MetricDefinitionRow;
  db_results : gmap string MetricResultRow;
  db_findings : gmap string FindingRow;
  db_recommendations : gmap string RecommendationRow;
  db_recommendation_events : gmap string RecommendationEventRow;
  db_keys : gmap string KeyVersionRow;
  db_aliases : gmap string AliasRow;
  db_policies : gmap string PolicyRow;
  db_actions : gmap string ActionRow;
  db_archives : gmap string ArchiveRow;
  db_action_entities : gmap string ActionEntityRow
}.

Definition empty_db : DB :=
  mkDB ∅ ∅ ∅ ∅ ∅ ∅ ∅ ∅ ∅ ∅ ∅ ∅ ∅ ∅ ∅ ∅ ∅ ∅ ∅ ∅ ∅ ∅ ∅ ∅ ∅ ∅ ∅ ∅ ∅ ∅ ∅ ∅.

Definition set_projects (t : gmap string Z) (d : DB) : DB :=
  mkDB t (db_project_versions d) (db_sources d) (db_source_versions d) (db_cursors d)
    (db_sessions d) (db_trajectories d) (db_tasks d) (db_turns d) (db_responses d) (db_phases d)
    (db_items d) (db_epochs d) (db_tool_calls d) (db_artifacts d) (db_events d) (db_links d)
    (db_observations d) (db_windows d) (db_revisions d) (db_evaluations d) (db_definitions d)
    (db_results d) (db_findings d) (db_recommendations d) (db_recommendation_events d) (db_keys d)
    (db_aliases d) (db_policies d) (db_actions d) (db_archives d) (db_action_entities d).

Definition set_project_versions (t : gmap string (Version ProjectAttributes)) (d : DB) : DB :=
  mkDB (db_projects d) t (db_sources d) (db_source_versions d) (db_cursors d) (db_sessions d)
    (db_trajectories d) (db_tasks d) (db_turns d) (db_responses d) (db_phases d) (db_items d)
    (db_epochs d) (db_tool_calls d) (db_artifacts d) (db_events d) (db_links d) (db_observations d)
    (db_windows d) (db_revisions d) (db_evaluations d) (db_definitions d) (db_results d)
    (db_findings d) (db_recommendations d) (db_recommendation_events d) (db_keys d) (db_aliases d)
    (db_policies d) (db_actions d) (db_archives d) (db_action_entities d).

Definition set_sources (t : gmap string SourceRow) (d : DB) : DB :=
  mkDB (db_projects d) (db_project_versions d) t (db_source_versions d) (db_cursors d)
    (db_sessions d) (db_trajectories d) (db_tasks d) (db_turns d) (db_responses d) (db_phases d)
    (db_items d) (db_epochs d) (db_tool_calls d) (db_artifacts d) (db_events d) (db_links d)
    (db_observations d) (db_windows d) (db_revisions d) (db_evaluations d) (db_definitions d)
    (db_results d) (db_findings d) (db_recommendations d) (db_recommendation_events d) (db_keys d)
    (db_aliases d) (db_policies d) (db_actions d) (db_archives d) (db_action_entities d).

Definition set_source_versions (t : gmap string (Version SourceAttributes)) (d : DB) : DB :=
  mkDB (db_projects d) (db_project_versions d) (db_sources d) t (db_cursors d) (db_sessions d)
    (db_trajectories d) (db_tasks d) (db_turns d) (db_responses d) (db_phases d) (db_items d)
    (db_epochs d) (db_tool_calls d) (db_artifacts d) (db_events d) (db_links d) (db_observations d)
    (db_windows d) (db_revisions d) (db_evaluations d) (db_definitions d) (db_results d)
    (db_findings d) (db_recommendations d) (db_recommendation_events d) (db_keys d) (db_aliases d)
    (db_policies d) (db_actions d) (db_archives d) (db_action_entities d).

Definition set_cursors (t : gmap string CursorRow) (d : DB) : DB :=
  mkDB (db_projects d) (db_project_versions d) (db_sources d) (db_source_versions d) t
    (db_sessions d) (db_trajectories d) (db_tasks d) (db_turns d) (db_responses d) (db_phases d)
    (db_items d) (db_epochs d) (db_tool_calls d) (db_artifacts d) (db_events d) (db_links d)
    (db_observations d) (db_windows d) (db_revisions d) (db_evaluations d) (db_definitions d)
    (db_results d) (db_findings d) (db_recommendations d) (db_recommendation_events d) (db_keys d)
    (db_aliases d) (db_policies d) (db_actions d) (db_archives d) (db_action_entities d).

Definition set_sessions (t : gmap string SessionRow) (d : DB) : DB :=
  mkDB (db_projects d) (db_project_versions d) (db_sources d) (db_source_versions d) (db_cursors d)
    t (db_trajectories d) (db_tasks d) (db_turns d) (db_responses d) (db_phases d) (db_items d)
    (db_epochs d) (db_tool_calls d) (db_artifacts d) (db_events d) (db_links d) (db_observations d)
    (db_windows d) (db_revisions d) (db_evaluations d) (db_definitions d) (db_results d)
    (db_findings d) (db_recommendations d) (db_recommendation_events d) (db_keys d) (db_aliases d)
    (db_policies d) (db_actions d) (db_archives d) (db_action_entities d).

Definition set_trajectories (t : gmap string TrajectoryRow) (d : DB) : DB :=
  mkDB (db_projects d) (db_project_versions d) (db_sources d) (db_source_versions d) (db_cursors d)
    (db_sessions d) t (db_tasks d) (db_turns d) (db_responses d) (db_phases d) (db_items d)
    (db_epochs d) (db_tool_calls d) (db_artifacts d) (db_events d) (db_links d) (db_observations d)
    (db_windows d) (db_revisions d) (db_evaluations d) (db_definitions d) (db_results d)
    (db_findings d) (db_recommendations d) (db_recommendation_events d) (db_keys d) (db_aliases d)
    (db_policies d) (db_actions d) (db_archives d) (db_action_entities d).

Definition set_tasks (t : gmap string TaskRow) (d : DB) : DB :=
  mkDB (db_projects d) (db_project_versions d) (db_sources d) (db_source_versions d) (db_cursors d)
    (db_sessions d) (db_trajectories d) t (db_turns d) (db_responses d) (db_phases d) (db_items d)
    (db_epochs d) (db_tool_calls d) (db_artifacts d) (db_events d) (db_links d) (db_observations d)
    (db_windows d) (db_revisions d) (db_evaluations d) (db_definitions d) (db_results d)
    (db_findings d) (db_recommendations d) (db_recommendation_events d) (db_keys d) (db_aliases d)
    (db_policies d) (db_actions d) (db_archives d) (db_action_entities d).

Definition set_turns (t : gmap string TurnRow) (d : DB) : DB :=
  mkDB (db_projects d) (db_project_versions d) (db_sources d) (db_source_versions d) (db_cursors d)
    (db_sessions d) (db_trajectories d) (db_tasks d) t (db_responses d) (db_phases d) (db_items d)
    (db_epochs d) (db_tool_calls d) (db_artifacts d) (db_events d) (db_links d) (db_observations d)
    (db_windows d) (db_revisions d) (db_evaluations d) (db_definitions d) (db_results d)
    (db_findings d) (db_recommendations d) (db_recommendation_events d) (db_keys d) (db_aliases d)
    (db_policies d) (db_actions d) (db_archives d) (db_action_entities d).

Definition set_responses (t : gmap string ResponseRow) (d : DB) : DB :=
  mkDB (db_projects d) (db_project_versions d) (db_sources d) (db_source_versions d) (db_cursors d)
    (db_sessions d) (db_trajectories d) (db_tasks d) (db_turns d) t (db_phases d) (db_items d)
    (db_epochs d) (db_tool_calls d) (db_artifacts d) (db_events d) (db_links d) (db_observations d)
    (db_windows d) (db_revisions d) (db_evaluations d) (db_definitions d) (db_results d)
    (db_findings d) (db_recommendations d) (db_recommendation_events d) (db_keys d) (db_aliases d)
    (db_policies d) (db_actions d) (db_archives d) (db_action_entities d).

Definition set_phases (t : gmap string PhaseRow) (d : DB) : DB :=
  mkDB (db_projects d) (db_project_versions d) (db_sources d) (db_source_versions d) (db_cursors d)
    (db_sessions d) (db_trajectories d) (db_tasks d) (db_turns d) (db_responses d) t (db_items d)
    (db_epochs d) (db_tool_calls d) (db_artifacts d) (db_events d) (db_links d) (db_observations d)
    (db_windows d) (db_revisions d) (db_evaluations d) (db_definitions d) (db_results d)
    (db_findings d) (db_recommendations d) (db_recommendation_events d) (db_keys d) (db_aliases d)
    (db_policies d) (db_actions d) (db_archives d) (db_action_entities d).

Definition set_items (t : gmap string ItemRow) (d : DB) : DB :=
  mkDB (db_projects d) (db_project_versions d) (db_sources d) (db_source_versions d) (db_cursors d)
    (db_sessions d) (db_trajectories d) (db_tasks d) (db_turns d) (db_responses d) (db_phases d) t
    (db_epochs d) (db_tool_calls d) (db_artifacts d) (db_events d) (db_links d) (db_observations d)
    (db_windows d) (db_revisions d) (db_evaluations d) (db_definitions d) (db_results d)
    (db_findings d) (db_recommendations d) (db_recommendation_events d) (db_keys d) (db_aliases d)
    (db_policies d) (db_actions d) (db_archives d) (db_action_entities d).

Definition set_epochs (t : gmap string EpochRow) (d : DB) : DB :=
  mkDB (db_projects d) (db_project_versions d) (db_sources d) (db_source_versions d) (db_cursors d)
    (db_sessions d) (db_trajectories d) (db_tasks d) (db_turns d) (db_responses d) (db_phases d)
    (db_items d) t (db_tool_calls d) (db_artifacts d) (db_events d) (db_links d) (db_observations d)
    (db_windows d) (db_revisions d) (db_evaluations d) (db_definitions d) (db_results d)
    (db_findings d) (db_recommendations d) (db_recommendation_events d) (db_keys d) (db_aliases d)
    (db_policies d) (db_actions d) (db_archives d) (db_action_entities d).

Definition set_tool_calls (t : gmap string ToolCallRow) (d : DB) : DB :=
  mkDB (db_projects d) (db_project_versions d) (db_sources d) (db_source_versions d) (db_cursors d)
    (db_sessions d) (db_trajectories d) (db_tasks d) (db_turns d) (db_responses d) (db_phases d)
    (db_items d) (db_epochs d) t (db_artifacts d) (db_events d) (db_links d) (db_observations d)
    (db_windows d) (db_revisions d) (db_evaluations d) (db_definitions d) (db_results d)
    (db_findings d) (db_recommendations d) (db_recommendation_events d) (db_keys d) (db_aliases d)
    (db_policies d) (db_actions d) (db_archives d) (db_action_entities d).

Definition set_artifacts (t : gmap string ArtifactRow) (d : DB) : DB :=
  mkDB (db_projects d) (db_project_versions d) (db_sources d) (db_source_versions d) (db_cursors d)
    (db_sessions d) (db_trajectories d) (db_tasks d) (db_turns d) (db_responses d) (db_phases d)
    (db_items d) (db_epochs d) (db_tool_calls d) t (db_events d) (db_links d) (db_observations d)
    (db_windows d) (db_revisions d) (db_evaluations d) (db_definitions d) (db_results d)
    (db_findings d) (db_recommendations d) (db_recommendation_events d) (db_keys d) (db_aliases d)
    (db_policies d) (db_actions d) (db_archives d) (db_action_entities d).

Definition set_events (t : gmap string Columns) (d : DB) : DB :=
  mkDB (db_projects d) (db_project_versions d) (db_sources d) (db_source_versions d) (db_cursors d)
    (db_sessions d) (db_trajectories d) (db_tasks d) (db_turns d) (db_responses d) (db_phases d)
    (db_items d) (db_epochs d) (db_tool_calls d) (db_artifacts d) t (db_links d) (db_observations d)
    (db_windows d) (db_revisions d) (db_evaluations d) (db_definitions d) (db_results d)
    (db_findings d) (db_recommendations d) (db_recommendation_events d) (db_keys d) (db_aliases d)
    (db_policies d) (db_actions d) (db_archives d) (db_action_entities d).

Definition set_links (t : gmap string Columns) (d : DB) : DB :=
  mkDB (db_projects d) (db_project_versions d) (db_sources d) (db_source_versions d) (db_cursors d)
    (db_sessions d) (db_trajectories d) (db_tasks d) (db_turns d) (db_responses d) (db_phases d)
    (db_items d) (db_epochs d) (db_tool_calls d) (db_artifacts d) (db_events d) t
    (db_observations d) (db_windows d) (db_revisions d) (db_evaluations d) (db_definitions d)
    (db_results d) (db_findings d) (db_recommendations d) (db_recommendation_events d) (db_keys d)
    (db_aliases d) (db_policies d) (db_actions d) (db_archives d) (db_action_entities d).

Definition set_observations (t : gmap string Columns) (d : DB) : DB :=
  mkDB (db_projects d) (db_project_versions d) (db_sources d) (db_source_versions d) (db_cursors d)
    (db_sessions d) (db_trajectories d) (db_tasks d) (db_turns d) (db_responses d) (db_phases d)
    (db_items d) (db_epochs d) (db_tool_calls d) (db_artifacts d) (db_events d) (db_links d) t
    (db_windows d) (db_revisions d) (db_evaluations d) (db_definitions d) (db_results d)
    (db_findings d) (db_recommendations d) (db_recommendation_events d) (db_keys d) (db_aliases d)
    (db_policies d) (db_actions d) (db_archives d) (db_action_entities d).

Definition set_windows (t : gmap string WindowRow) (d : DB) : DB :=
  mkDB (db_projects d) (db_project_versions d) (db_sources d) (db_source_versions d) (db_cursors d)
    (db_sessions d) (db_trajectories d) (db_tasks d) (db_turns d) (db_responses d) (db_phases d)
    (db_items d) (db_epochs d) (db_tool_calls d) (db_artifacts d) (db_events d) (db_links d)
    (db_observations d) t (db_revisions d) (db_evaluations d) (db_definitions d) (db_results d)
    (db_findings d) (db_recommendations d) (db_recommendation_events d) (db_keys d) (db_aliases d)
    (db_policies d) (db_actions d) (db_archives d) (db_action_entities d).

Definition set_revisions (t : gmap string RevisionRow) (d : DB) : DB :=
  mkDB (db_projects d) (db_project_versions d) (db_sources d) (db_source_versions d) (db_cursors d)
    (db_sessions d) (db_trajectories d) (db_tasks d) (db_turns d) (db_responses d) (db_phases d)
    (db_items d) (db_epochs d) (db_tool_calls d) (db_artifacts d) (db_events d) (db_links d)
    (db_observations d) (db_windows d) t (db_evaluations d) (db_definitions d) (db_results d)
    (db_findings d) (db_recommendations d) (db_recommendation_events d) (db_keys d) (db_aliases d)
    (db_policies d) (db_actions d) (db_archives d) (db_action_entities d).

Definition set_evaluations (t : gmap string EvaluationRow) (d : DB) : DB :=
  mkDB (db_projects d) (db_project_versions d) (db_sources d) (db_source_versions d) (db_cursors d)
    (db_sessions d) (db_trajectories d) (db_tasks d) (db_turns d) (db_responses d) (db_phases d)
    (db_items d) (db_epochs d) (db_tool_calls d) (db_artifacts d) (db_events d) (db_links d)
    (db_observations d) (db_windows d) (db_revisions d) t (db_definitions d) (db_results d)
    (db_findings d) (db_recommendations d) (db_recommendation_events d) (db_keys d) (db_aliases d)
    (db_policies d) (db_actions d) (db_archives d) (db_action_entities d).

Definition set_definitions (t : gmap string MetricDefinitionRow) (d : DB) : DB :=
  mkDB (db_projects d) (db_project_versions d) (db_sources d) (db_source_versions d) (db_cursors d)
    (db_sessions d) (db_trajectories d) (db_tasks d) (db_turns d) (db_responses d) (db_phases d)
    (db_items d) (db_epochs d) (db_tool_calls d) (db_artifacts d) (db_events d) (db_links d)
    (db_observations d) (db_windows d) (db_revisions d) (db_evaluations d) t (db_results d)
    (db_findings d) (db_recommendations d) (db_recommendation_events d) (db_keys d) (db_aliases d)
    (db_policies d) (db_actions d) (db_archives d) (db_action_entities d).

Definition set_results (t : gmap string MetricResultRow) (d : DB) : DB :=
  mkDB (db_projects d) (db_project_versions d) (db_sources d) (db_source_versions d) (db_cursors d)
    (db_sessions d) (db_trajectories d) (db_tasks d) (db_turns d) (db_responses d) (db_phases d)
    (db_items d) (db_epochs d) (db_tool_calls d) (db_artifacts d) (db_events d) (db_links d)
    (db_observations d) (db_windows d) (db_revisions d) (db_evaluations d) (db_definitions d) t
    (db_findings d) (db_recommendations d) (db_recommendation_events d) (db_keys d) (db_aliases d)
    (db_policies d) (db_actions d) (db_archives d) (db_action_entities d).

Definition set_findings (t : gmap string FindingRow) (d : DB) : DB :=
  mkDB (db_projects d) (db_project_versions d) (db_sources d) (db_source_versions d) (db_cursors d)
    (db_sessions d) (db_trajectories d) (db_tasks d) (db_turns d) (db_responses d) (db_phases d)
    (db_items d) (db_epochs d) (db_tool_calls d) (db_artifacts d) (db_events d) (db_links d)
    (db_observations d) (db_windows d) (db_revisions d) (db_evaluations d) (db_definitions d)
    (db_results d) t (db_recommendations d) (db_recommendation_events d) (db_keys d) (db_aliases d)
    (db_policies d) (db_actions d) (db_archives d) (db_action_entities d).

Definition set_recommendations (t : gmap string RecommendationRow) (d : DB) : DB :=
  mkDB (db_projects d) (db_project_versions d) (db_sources d) (db_source_versions d) (db_cursors d)
    (db_sessions d) (db_trajectories d) (db_tasks d) (db_turns d) (db_responses d) (db_phases d)
    (db_items d) (db_epochs d) (db_tool_calls d) (db_artifacts d) (db_events d) (db_links d)
    (db_observations d) (db_windows d) (db_revisions d) (db_evaluations d) (db_definitions d)
    (db_results d) (db_findings d) t (db_recommendation_events d) (db_keys d) (db_aliases d)
    (db_policies d) (db_actions d) (db_archives d) (db_action_entities d).

Definition set_recommendation_events (t : gmap string RecommendationEventRow) (d : DB) : DB :=
  mkDB (db_projects d) (db_project_versions d) (db_sources d) (db_source_versions d) (db_cursors d)
    (db_sessions d) (db_trajectories d) (db_tasks d) (db_turns d) (db_responses d) (db_phases d)
    (db_items d) (db_epochs d) (db_tool_calls d) (db_artifacts d) (db_events d) (db_links d)
    (db_observations d) (db_windows d) (db_revisions d) (db_evaluations d) (db_definitions d)
    (db_results d) (db_findings d) (db_recommendations d) t (db_keys d) (db_aliases d)
    (db_policies d) (db_actions d) (db_archives d) (db_action_entities d).

Definition set_keys (t : gmap string KeyVersionRow) (d : DB) : DB :=
  mkDB (db_projects d) (db_project_versions d) (db_sources d) (db_source_versions d) (db_cursors d)
    (db_sessions d) (db_trajectories d) (db_tasks d) (db_turns d) (db_responses d) (db_phases d)
    (db_items d) (db_epochs d) (db_tool_calls d) (db_artifacts d) (db_events d) (db_links d)
    (db_observations d) (db_windows d) (db_revisions d) (db_evaluations d) (db_definitions d)
    (db_results d) (db_findings d) (db_recommendations d) (db_recommendation_events d) t
    (db_aliases d) (db_policies d) (db_actions d) (db_archives d) (db_action_entities d).

Definition set_aliases (t : gmap string AliasRow) (d : DB) : DB :=
  mkDB (db_projects d) (db_project_versions d) (db_sources d) (db_source_versions d) (db_cursors d)
    (db_sessions d) (db_trajectories d) (db_tasks d) (db_turns d) (db_responses d) (db_phases d)
    (db_items d) (db_epochs d) (db_tool_calls d) (db_artifacts d) (db_events d) (db_links d)
    (db_observations d) (db_windows d) (db_revisions d) (db_evaluations d) (db_definitions d)
    (db_results d) (db_findings d) (db_recommendations d) (db_recommendation_events d) (db_keys d) t
    (db_policies d) (db_actions d) (db_archives d) (db_action_entities d).

Definition set_policies (t : gmap string PolicyRow) (d : DB) : DB :=
  mkDB (db_projects d) (db_project_versions d) (db_sources d) (db_source_versions d) (db_cursors d)
    (db_sessions d) (db_trajectories d) (db_tasks d) (db_turns d) (db_responses d) (db_phases d)
    (db_items d) (db_epochs d) (db_tool_calls d) (db_artifacts d) (db_events d) (db_links d)
    (db_observations d) (db_windows d) (db_revisions d) (db_evaluations d) (db_definitions d)
    (db_results d) (db_findings d) (db_recommendations d) (db_recommendation_events d) (db_keys d)
    (db_aliases d) t (db_actions d) (db_archives d) (db_action_entities d).

Definition set_actions (t : gmap string ActionRow) (d : DB) : DB :=
  mkDB (db_projects d) (db_project_versions d) (db_sources d) (db_source_versions d) (db_cursors d)
    (db_sessions d) (db_trajectories d) (db_tasks d) (db_turns d) (db_responses d) (db_phases d)
    (db_items d) (db_epochs d) (db_tool_calls d) (db_artifacts d) (db_events d) (db_links d)
    (db_observations d) (db_windows d) (db_revisions d) (db_evaluations d) (db_definitions d)
    (db_results d) (db_findings d) (db_recommendations d) (db_recommendation_events d) (db_keys d)
    (db_aliases d) (db_policies d) t (db_archives d) (db_action_entities d).

Definition set_archives (t : gmap string ArchiveRow) (d : DB) : DB :=
  mkDB (db_projects d) (db_project_versions d) (db_sources d) (db_source_versions d) (db_cursors d)
    (db_sessions d) (db_trajectories d) (db_tasks d) (db_turns d) (db_responses d) (db_phases d)
    (db_items d) (db_epochs d) (db_tool_calls d) (db_artifacts d) (db_events d) (db_links d)
    (db_observations d) (db_windows d) (db_revisions d) (db_evaluations d) (db_definitions d)
    (db_results d) (db_findings d) (db_recommendations d) (db_recommendation_events d) (db_keys d)
    (db_aliases d) (db_policies d) (db_actions d) t (db_action_entities d).

Definition set_action_entities (t : gmap string ActionEntityRow) (d : DB) : DB :=
  mkDB (db_projects d) (db_project_versions d) (db_sources d) (db_source_versions d) (db_cursors d)
    (db_sessions d) (db_trajectories d) (db_tasks d) (db_turns d) (db_responses d) (db_phases d)
    (db_items d) (db_epochs d) (db_tool_calls d) (db_artifacts d) (db_events d) (db_links d)
    (db_observations d) (db_windows d) (db_revisions d) (db_evaluations d) (db_definitions d)
    (db_results d) (db_findings d) (db_recommendations d) (db_recommendation_events d) (db_keys d)
    (db_aliases d) (db_policies d) (db_actions d) (db_archives d) t.

(** ** Statements *)

(** A table of the database: its rows and their replacement. *)
Class Table {R : Type} (get : DB -> gmap string R) : Type := {
  put_rows : gmap string R -> DB -> DB;
  get_put t d : get (put_rows t d) = t
}.

#[export] Instance projects_table : Table db_projects :=
  {| put_rows := set_projects; get_put _ _ := eq_refl |}.
#[export] Instance project_versions_table : Table db_project_versions :=
  {| put_rows := set_project_versions; get_put _ _ := eq_refl |}.
#[export] Instance sources_table : Table db_sources :=
  {| put_rows := set_sources; get_put _ _ := eq_refl |}.
#[export] Instance source_versions_table : Table db_source_versions :=
  {| put_rows := set_source_versions; get_put _ _ := eq_refl |}.
#[export] Instance cursors_table : Table db_cursors :=
  {| put_rows := set_cursors; get_put _ _ := eq_refl |}.
#[export] Instance sessions_table : Table db_sessions :=
  {| put_rows := set_sessions; get_put _ _ := eq_refl |}.
#[export] Instance trajectories_table : Table db_trajectories :=
  {| put_rows := set_trajectories; get_put _ _ := eq_refl |}.
#[export] Instance tasks_table : Table db_tasks :=
  {| put_rows := set_tasks; get_put _ _ := eq_refl |}.
#[export] Instance turns_table : Table db_turns :=
  {| put_rows := set_turns; get_put _ _ := eq_refl |}.
#[export] Instance responses_table : Table db_responses :=
  {| put_rows := set_responses; get_put _ _ := eq_refl |}.
#[export] Instance phases_table : Table db_phases :=
  {| put_rows := set_phases; get_put _ _ := eq_refl |}.
#[export] Instance items_table : Table db_items :=
  {| put_rows := set_items; get_put _ _ := eq_refl |}.
#[export] Instance epochs_table : Table db_epochs :=
  {| put_rows := set_epochs; get_put _ _ := eq_refl |}.
#[export] Instance tool_calls_table : Table db_tool_calls :=
  {| put_rows := set_tool_calls; get_put _ _ := eq_refl |}.
#[export] Instance artifacts_table : Table db_artifacts :=
  {| put_rows := set_artifacts; get_put _ _ := eq_refl |}.
#[export] Instance events_table : Table db_events :=
  {| put_rows := set_events; get_put _ _ := eq_refl |}.
#[export] Instance links_table : Table db_links :=
  {| put_rows := set_links; get_put _ _ := eq_refl |}.
#[export] Instance observations_table : Table db_observations :=
  {| put_rows := set_observations; get_put _ _ := eq_refl |}.
#[export] Instance windows_table : Table db_windows :=
  {| put_rows := set_windows; get_put _ _ := eq_refl |}.
#[export] Instance revisions_table : Table db_revisions :=
  {| put_rows := set_revisions; get_put _ _ := eq_refl |}.
#[export] Instance evaluations_table : Table db_evaluations :=
  {| put_rows := set_evaluations; get_put _ _ := eq_refl |}.
#[export] Instance definitions_table : Table db_definitions :=
  {| put_rows := set_definitions; get_put _ _ := eq_refl |}.
#[export] Instance results_table : Table db_results :=
  {| put_rows := set_results; get_put _ _ := eq_refl |}.
#[export] Instance findings_table : Table db_findings :=
  {| put_rows := set_findings; get_put _ _ := eq_refl |}.
#[export] Instance recommendations_table : Table db_recommendations :=
  {| put_rows := set_recommendations; get_put _ _ := eq_refl |}.
#[export] Instance recommendation_events_table : Table db_recommendation_events :=
  {| put_rows := set_recommendation_events; get_put _ _ := eq_refl |}.
#[export] Instance keys_table : Table db_keys :=
  {| put_rows := set_keys; get_put _ _ := eq_refl |}.
#[export] Instance aliases_table : Table db_aliases :=
  {| put_rows := set_aliases; get_put _ _ := eq_refl |}.
#[export] Instance policies_table : Table db_policies :=
  {| put_rows := set_policies; get_put _ _ := eq_refl |}.
#[export] Instance actions_table : Table db_actions :=
  {| put_rows := set_actions; get_put _ _ := eq_refl |}.
#[export] Instance archives_table : Table db_archives :=
  {| put_rows := set_archives; get_put _ _ := eq_refl |}.
#[export] Instance action_entities_table : Table db_action_entities :=
  {| put_rows := set_action_entities; get_put _ _ := eq_refl |}.

Definition unique_violation : string := "23505".
Definition foreign_key_violation : string := "23503".

Section Statements.
Context {R : Type} (get : DB -> gmap string R) `{!Table get}.

Definition set_row (id : string) (row : R) (d : DB) : DB := put_rows (<[id := row]> (get d)) d.

(** INSERT of a row whose references have to exist. *)
Definition insert_row (id : string) (row : R) (references : DB -> bool) (d : DB) : result string (unit * DB) :=
  match get d !! id with
  | Some _ => Err unique_violation
  | None => if references d then Ok (tt, set_row id row d) else Err foreign_key_violation
  end.

(** INSERT ON CONFLICT (the primary key) DO UPDATE: [merge] gives the row from the old one. *)
Definition upsert (id : string) (row : R) (merge : R -> R) (references : R -> DB -> bool) (d : DB)
    : result string (unit * DB) :=
  let row := match get d !! id with None => row | Some old => merge old end in
  if references row d then Ok (tt, set_row id row d) else Err foreign_key_violation.

(** INSERT ON CONFLICT DO NOTHING. *)
Definition insert_once (id : string) (row : R) (references : DB -> bool) (d : DB) : result string (unit * DB) :=
  match get d !! id with
  | Some _ => Ok (tt, d)
  | None => if references d then Ok (tt, set_row id row d) else Err foreign_key_violation
  end.

(** A foreign key: the referenced row exists; NULL refers to nothing. *)
Definition refers (id : string) (d : DB) : bool := bool_decide (is_Some (get d !! id)).
Definition refers_opt (id : option string) (d : DB) : bool :=
  match id with None => true | Some id => refers id d end.

Lemma get_set_row id row d : get (set_row id row d) = <[id := row]> (get d).
Proof. apply get_put. Qed.

Lemma insert_row_ok id row references d u d' :
  insert_row id row references d = Ok (u, d') ->
  get d !! id = None /\ references d = true /\ d' = set_row id row d.
Proof.
  unfold insert_row. destruct (get d !! id); [done|]. destruct (references d); [|done]. by intros [= <- <-].
Qed.

Lemma upsert_ok id row merge references d u d' :
  upsert id row merge references d = Ok (u, d') ->
  let row' := match get d !! id with None => row | Some old => merge old end in
  references row' d = true /\ d' = set_row id row' d.
Proof. unfold upsert. destruct (references _ d) eqn:H; [|done]. by intros [= <- <-]. Qed.

Lemma insert_once_ok id row references d u d' :
  insert_once id row references d = Ok (u, d') ->
  (d' = d /\ is_Some (get d !! id)) \/ (get d !! id = None /\ references d = true /\ d' = set_row id row d).
Proof.
  unfold insert_once. destruct (get d !! id) eqn:H; [intros [= <- <-]; left; eauto|].
  destruct (references d); [|done]. intros [= <- <-]. by right.
Qed.
End Statements.

(** ** Deletion

    Deleting rows deletes the rows that refer to them by a foreign key ON DELETE CASCADE, and
    clears the columns that refer to them by one ON DELETE SET NULL. *)

Section Deletion.
Context {R : Type} (get : DB -> gmap string R) `{!Table get}.

Definition in_gone (id : option string) (gone : gset string) : bool :=
  match id with None => false | Some id => bool_decide (id ∈ gone) end.

(** The rows that refer to deleted ones by a column. *)
Definition referring (column : R -> option string) (gone : gset string) (d : DB) : gset string :=
  dom (filter (fun kv => in_gone (column kv.2) gone = true) (get d)).

Definition remove_rows (gone : gset string) (d : DB) : DB :=
  put_rows (filter (fun kv => kv.1 ∉ gone) (get d)) d.

(** Clearing a column where it refers to a deleted row. *)
Definition clear_column (column : R -> option string) (clear : R -> R) (gone : gset string) (d : DB) : DB :=
  put_rows ((fun r => if in_gone (column r) gone then clear r else r) <$> get d) d.

Lemma get_remove_rows gone d : get (remove_rows gone d) = filter (fun kv => kv.1 ∉ gone) (get d).
Proof. apply get_put. Qed.
End Deletion.

(** ORDER BY observed_at, evidence_artifact_id. *)
Definition observed_first (a b : string * ArtifactRow) : bool :=
  (ea_ObservedAt a.2 <? ea_ObservedAt b.2)%Z
  || (ea_ObservedAt a.2 =? ea_ObservedAt b.2)%Z && str_lt a.1 b.1.
