(* ===== verification/Retention.v ===== *)
(** * Retention (internal/store/postgres/retention.go)

    Evidence that is past its time is planned for deletion, archived by the caller, and deleted
    only with the proof of a verified archive of exactly that plan.

    Arguments: [sha256] (32 bytes), [encode] ([EncodeArchive], [None] when [json.Marshal] fails)
    and [match_encodes] (whether the records that are matched again can be encoded).  Instants
    and durations are in nanoseconds. *)
From Stdlib Require Import Ascii.
From S2P Require Import Contracts GoInt Utf8 GoFmt Snapshots Transactions Tables.

(** ** Deletion with its cascades (migrations/00004_constraints.sql)

    One definition per table that the program deletes from, directly or by a cascade. *)

(** A column of a row that is kept as a map. *)
Definition text_column (name : string) (row : Columns) : option string :=
  match row !! name with
  | Some (VText s) => Some s
  | _ => None
  end.

Definition clear_text (name : string) (gone : gset string) (row : Columns) : Columns :=
  if in_gone (text_column name row) gone then delete name row else row.

(** Rows of tables of columns that refer to deleted rows are deleted, or lose the column. *)
Definition cascade_columns (get : DB -> gmap string Columns) `{!Table get} (name : string) (gone : gset string) (d : DB) : DB :=
  remove_rows get (referring get (text_column name) gone d) d.

Definition clear_columns (get : DB -> gmap string Columns) `{!Table get} (name : string) (gone : gset string) (d : DB) : DB :=
  put_rows (clear_text name gone <$> get d) d.

Definition delete_events (gone : gset string) (d : DB) : DB :=
  clear_columns db_events "related_event_id" gone (remove_rows db_events gone d).

Definition cascade_events (name : string) (gone : gset string) (d : DB) : DB :=
  delete_events (referring db_events (text_column name) gone d) d.

Definition delete_artifacts (gone : gset string) (d : DB) : DB :=
  let d := cascade_events "evidence_artifact_id" gone d in
  let d := cascade_columns db_links "evidence_artifact_id" gone d in
  let d := cascade_columns db_observations "evidence_artifact_id" gone d in
  let d := clear_column db_recommendation_events rn_Evidence
             (fun r => mkRecommendationEventRow (rn_Recommendation r) (rn_Kind r) (rn_ObservedAt r) None) gone d in
  remove_rows db_artifacts gone d.

Definition unphased (r : ToolCallRow) : ToolCallRow :=
  mkToolCallRow (tc_Response r) None (tc_Source r) (tc_Alias r) (tc_Caller r) (tc_CallPath r) (tc_ToolKind r)
    (tc_StartedAt r) (tc_Outcome r) (tc_Knowledge r) (tc_Epoch r) (tc_CallHash r) (tc_ResultState r)
    (tc_Modality r) (tc_OutputSize r) (tc_WaitState r).

Definition unepoched (r : ToolCallRow) : ToolCallRow :=
  mkToolCallRow (tc_Response r) (tc_Phase r) (tc_Source r) (tc_Alias r) (tc_Caller r) (tc_CallPath r) (tc_ToolKind r)
    (tc_StartedAt r) (tc_Outcome r) (tc_Knowledge r) None (tc_CallHash r) (tc_ResultState r)
    (tc_Modality r) (tc_OutputSize r) (tc_WaitState r).

Definition unparented_response (r : ResponseRow) : ResponseRow :=
  mkResponseRow (re_Turn r) (re_Source r) (re_Alias r) None (re_ModelVariant r) (re_ReasoningEffort r)
    (re_ReasoningMode r) (re_Verbosity r) (re_ServiceMode r) (re_Safeguard r) (re_StartedAt r) (re_CompletedAt r)
    (re_Knowledge r).

Definition delete_responses (gone : gset string) (d : DB) : DB :=
  let d := remove_rows db_items (referring db_items (fun r => Some (it_Response r)) gone d) d in
  let d := remove_rows db_tool_calls (referring db_tool_calls (fun r => Some (tc_Response r)) gone d) d in
  let d := cascade_columns db_observations "response_id" gone d in
  let d := clear_column db_phases ph_Response
             (fun r => mkPhaseRow (ph_Trajectory r) None (ph_Kind r) (ph_Ordinal r) (ph_StartedAt r) (ph_EndedAt r)
                         (ph_Knowledge r)) gone d in
  let d := clear_columns db_events "response_id" gone d in
  let d := clear_column db_responses re_Parent unparented_response gone d in
  remove_rows db_responses gone d.

Definition delete_turns (gone : gset string) (d : DB) : DB :=
  let d := delete_responses (referring db_responses (fun r => Some (re_Turn r)) gone d) d in
  remove_rows db_turns gone d.

Definition delete_phases (gone : gset string) (d : DB) : DB :=
  let d := clear_column db_tool_calls tc_Phase unphased gone d in
  let d := clear_columns db_events "phase_id" gone d in
  remove_rows db_phases gone d.

Definition delete_epochs (gone : gset string) (d : DB) : DB :=
  let d := clear_column db_tool_calls tc_Epoch unepoched gone d in
  remove_rows db_epochs gone d.

Definition delete_trajectories (gone : gset string) (d : DB) : DB :=
  let d := delete_turns (referring db_turns (fun r => Some (tu_Trajectory r)) gone d) d in
  let d := delete_phases (referring db_phases (fun r => Some (ph_Trajectory r)) gone d) d in
  let d := delete_epochs (referring db_epochs (fun r => Some (ep_Trajectory r)) gone d) d in
  let d := cascade_events "trajectory_id" gone d in
  let d := clear_columns db_events "parent_trajectory_id" gone d in
  let d := cascade_columns db_observations "trajectory_id" gone d in
  let d := clear_column db_trajectories tr_Parent
             (fun r => mkTrajectoryRow (tr_Session r) (tr_Source r) (tr_Alias r) None (tr_StartedAt r) (tr_Knowledge r))
             gone d in
  remove_rows db_trajectories gone d.

Definition delete_sessions (gone : gset string) (d : DB) : DB :=
  let d := delete_trajectories (referring db_trajectories (fun r => Some (tr_Session r)) gone d) d in
  let d := cascade_events "session_id" gone d in
  let d := delete_artifacts (referring db_artifacts ea_Session gone d) d in
  remove_rows db_sessions gone d.

Definition delete_tasks (gone : gset string) (d : DB) : DB :=
  let d := clear_column db_turns tu_Task
             (fun r => mkTurnRow (tu_Trajectory r) (tu_Source r) (tu_Alias r) None (tu_Ordinal r) (tu_ObservedAt r)
                         (tu_Knowledge r)) gone d in
  remove_rows db_tasks gone d.

Definition delete_recommendations (gone : gset string) (d : DB) : DB :=
  let d := remove_rows db_recommendation_events
             (referring db_recommendation_events (fun r => Some (rn_Recommendation r)) gone d) d in
  remove_rows db_recommendations gone d.

Definition delete_findings (gone : gset string) (d : DB) : DB :=
  let d := delete_recommendations (referring db_recommendations rc_Finding gone d) d in
  remove_rows db_findings gone d.

Definition delete_evaluations (gone : gset string) (d : DB) : DB :=
  let d := remove_rows db_results (referring db_results (fun r => Some (ms_Evaluation r)) gone d) d in
  remove_rows db_evaluations gone d.

Definition delete_revisions (gone : gset string) (d : DB) : DB :=
  let d := delete_evaluations (referring db_evaluations (fun r => Some (ev_Revision r)) gone d) d in
  let d := remove_rows db_results (referring db_results (fun r => Some (ms_Revision r)) gone d) d in
  let d := delete_findings (referring db_findings (fun r => Some (fg_Revision r)) gone d) d in
  let d := delete_recommendations (referring db_recommendations (fun r => Some (rc_Revision r)) gone d) d in
  let d := cascade_columns db_observations "audit_revision_id" gone d in
  let d := clear_column db_revisions rv_Prior
             (fun r => mkRevisionRow (rv_Window r) (rv_Number r) (rv_Watermark r) (rv_Coverage r) (rv_Hash r)
                         (rv_CreatedAt r) None (rv_Engine r)) gone d in
  remove_rows db_revisions gone d.

(** ** What a deletion leaves alone *)

(** The tables that no deletion of audits or lineage touches. *)
Definition same_evidence (d d' : DB) : Prop :=
  db_artifacts d' = db_artifacts d /\ db_policies d' = db_policies d /\ db_actions d' = db_actions d
  /\ db_projects d' = db_projects d /\ db_sources d' = db_sources d /\ db_cursors d' = db_cursors d.

#[export] Instance same_evidence_preorder : PreOrder same_evidence.
Proof.
  split; [by intros d|]. unfold same_evidence. intros d1 d2 d3 (? & ? & ? & ? & ? & ?) (? & ? & ? & ? & ? & ?).
  split_and!; congruence.
Qed.

Lemma delete_revisions_evidence gone d : same_evidence d (delete_revisions gone d).
Proof. done. Qed.

Lemma delete_trajectories_evidence gone d : same_evidence d (delete_trajectories gone d).
Proof. done. Qed.

Lemma delete_tasks_evidence gone d : same_evidence d (delete_tasks gone d).
Proof. done. Qed.

Lemma delete_artifacts_rows gone d :
  db_artifacts (delete_artifacts gone d) = filter (fun kv => kv.1 ∉ gone) (db_artifacts d)
  /\ db_actions (delete_artifacts gone d) = db_actions d /\ db_policies (delete_artifacts gone d) = db_policies d.
Proof. done. Qed.

Lemma delete_artifacts_others gone d :
  db_revisions (delete_artifacts gone d) = db_revisions d /\ db_sessions (delete_artifacts gone d) = db_sessions d.
Proof. done. Qed.

Lemma delete_revisions_sessions gone d : db_sessions (delete_revisions gone d) = db_sessions d.
Proof. done. Qed.

Lemma delete_sessions_rows gone d :
  db_artifacts (delete_sessions gone d)
  = filter (fun kv => kv.1 ∉ referring db_artifacts ea_Session gone d) (db_artifacts d)
  /\ db_actions (delete_sessions gone d) = db_actions d /\ db_policies (delete_sessions gone d) = db_policies d.
Proof. done. Qed.

(** ** Policies and plans *)

Definition second : Z := 1000000000.
Definition microsecond : Z := 1000.
Definition DefaultRetention : Z := 30 * 24 * 3600 * second.
Definition maxRetentionBatch : Z := 1000.

Record RetentionPolicy := mkRetentionPolicy {
  rp_ID : string;
  rp_ProjectID : string;
  rp_Version : string;
  rp_Classification : string;
  rp_RetainFor : Z;
  rp_LegalHold : bool;
  rp_CreatedAt : Z
}.

Record ArchiveRecord := mkArchiveRecord {
  ar_EvidenceID : string;
  ar_SourceID : string;
  ar_ProjectID : string;
  ar_SessionID : option string;
  ar_ExternalAliasID : option string;
  ar_SchemaVersion : string;
  ar_ContentHash : string;
  ar_ContentLength : Z;
  ar_Classification : string;
  ar_RedactionState : string;
  ar_CoverageState : string;
  ar_Provenance : string;
  ar_ProductSurface : string;
  ar_ObservedAt : Z;
  ar_RetainedUntil : option Z
}.

Record RetentionPlan := mkRetentionPlan {
  rl_PolicyID : string;
  rl_ProjectID : string;
  rl_AsOf : Z;
  rl_Records : list ArchiveRecord;
  rl_Digest : string
}.

Record ArchiveReceipt := mkArchiveReceipt {
  at_BatchID : string;
  at_ArchiveReference : string;
  at_EncryptionKeyReference : string;
  at_EncryptedDigest : string;
  at_PlaintextDigest : string;
  at_VerifiedAt : Z
}.

Record RetentionApply := mkRetentionApply {
  ra_ActionID : string;
  ra_ActionEntityID : string;
  ra_Plan : RetentionPlan;
  ra_Receipt : ArchiveReceipt
}.

(** The row of a record, and back. *)
Definition record_row (r : ArchiveRecord) : ArtifactRow :=
  mkArtifactRow (ar_SourceID r) (Some (ar_ProjectID r)) (ar_SessionID r) (ar_ExternalAliasID r) (ar_SchemaVersion r)
    (ar_ContentHash r) (ar_ContentLength r) (ar_Classification r) (ar_RedactionState r) (ar_CoverageState r)
    (ar_Provenance r) (ar_ProductSurface r) (ar_ObservedAt r) (ar_RetainedUntil r).

Definition archive_record (project : string) (kv : string * ArtifactRow) : ArchiveRecord :=
  let r := kv.2 in
  mkArchiveRecord kv.1 (ea_Source r) project (ea_Session r) (ea_Alias r) (ea_Schema r) (ea_Hash r) (ea_Length r)
    (ea_Class r) (ea_Redaction r) (ea_Coverage r) (ea_Provenance r) (ea_Surface r) (ea_ObservedAt r)
    (ea_RetainedUntil r).

(** The row is under the policy, which holds nothing back, and its time is over. *)
Definition due (policy : PolicyRow) (asOf : Z) (row : ArtifactRow) : bool :=
  bool_decide (ea_Project row = Some (po_Project policy)) && (ea_Class row =s po_Classification policy)
  && negb (po_LegalHold policy)
  && (default (ea_ObservedAt row + po_Seconds policy * second)%Z (ea_RetainedUntil row) <=? asOf)%Z.

Definition due_rows (policyID : string) (asOf : Z) (d : DB) : list (string * ArtifactRow) :=
  match db_policies d !! policyID with
  | None => []
  | Some policy =>
      go_sort observed_first (filter (fun kv => due policy asOf kv.2 = true) (map_to_list (db_artifacts d)))
  end.

Section Calls.
Context (sha256 : string -> string)
        (encode : string -> string -> Z -> list ArchiveRecord -> option string)
        (match_encodes : list ArchiveRecord -> bool) (world : Outside DB).

(** The current policy of a project and a classification is updated, or a new one inserted. *)
Definition put_policy (policy : RetentionPolicy) (d : DB) : result string (unit * DB) :=
  let seconds := (rp_RetainFor policy `quot` second)%Z in
  match find_first (fun kv => (po_Project kv.2 =s rp_ProjectID policy)
                              && (po_Classification kv.2 =s rp_Classification policy))
          (map_to_list (db_policies d)) with
  | Some (id, old) =>
      Ok (tt, set_row db_policies id
                (mkPolicyRow (po_Project old) (rp_Version policy) (po_Classification old) seconds
                   (rp_LegalHold policy) (po_CreatedAt old)) d)
  | None =>
      insert_row db_policies (rp_ID policy)
        (mkPolicyRow (rp_ProjectID policy) (rp_Version policy) (rp_Classification policy) seconds
           (rp_LegalHold policy) (rp_CreatedAt policy)) (refers db_projects (rp_ProjectID policy)) d
  end.

Definition PutRetentionPolicy (policy : RetentionPolicy) : Tx DB unit :=
  fail_if! (rp_RetainFor policy <? 0)%Z with ErrMessage "retention duration must not be negative" in
  pool world "persist retention policy" (fun _ => put_policy policy).

Definition EncodeArchive (plan : RetentionPlan) : result StoreError string :=
  match encode (rl_PolicyID plan) (rl_ProjectID plan) (rl_AsOf plan) (rl_Records plan) with
  | None => Err (ErrMessage "encode normalized archive")
  | Some encoded => Ok encoded
  end.

Definition PlanRetention (policyID : string) (asOf limit : Z) : Tx DB RetentionPlan :=
  fail_if! (policyID =s "") || (limit <? 1)%Z || (maxRetentionBatch <? limit)%Z
    with ErrMessage "invalid retention plan request" in
  do! policy := pool_query world "read retention policy" (fun _ d => po_Project <$> db_policies d !! policyID) in
  match policy with
  | None => tx_err ErrNotFound
  | Some projectID =>
      do! rows := pool_query world "plan retention" (fun _ d => take (Z.to_nat limit) (due_rows policyID asOf d)) in
      let records := (fun kv => archive_record (default "" (ea_Project kv.2)) kv) <$> rows in
      match EncodeArchive (mkRetentionPlan policyID projectID asOf records "") with
      | Err e => tx_err e
      | Ok encoded => tx_ret (mkRetentionPlan policyID projectID asOf records (sha256 encoded))
      end
  end.

Definition zero_digest : string := str_concat (replicate 32 (String "000"%char "")).

Definition verified (plan : RetentionPlan) (receipt : ArchiveReceipt) (planDigest : string) : bool :=
  negb ((length (rl_Records plan) =? 0)%nat || negb (rl_Digest plan =s planDigest)
        || is_zero_time (at_VerifiedAt receipt) || negb (at_PlaintextDigest receipt =s planDigest)
        || (at_BatchID receipt =s "") || (at_EncryptionKeyReference receipt =s "")
        || (at_EncryptedDigest receipt =s zero_digest)
        || negb (at_ArchiveReference receipt =s "sha256:" +:+ hex_encode (at_EncryptedDigest receipt))).

Fixpoint distinct (l : list string) (seen : gset string) : list string :=
  match l with
  | [] => []
  | x :: rest => if bool_decide (x ∈ seen) then distinct rest seen else x :: distinct rest ({[x]} ∪ seen)
  end.

Definition archiveSessionIDs (records : list ArchiveRecord) : list string := distinct (omap ar_SessionID records) ∅.

(** A record matches when its row is still what it was and still due. *)
Definition still_due (plan : RetentionPlan) (d : DB) (r : ArchiveRecord) : bool :=
  match db_policies d !! rl_PolicyID plan with
  | None => false
  | Some policy =>
      bool_decide (db_artifacts d !! ar_EvidenceID r = Some (record_row r))
      && (ar_ProjectID r =s rl_ProjectID plan) && due policy (rl_AsOf plan) (record_row r)
  end.

Definition validateArchivedPlan (plan : RetentionPlan) : Tx DB unit :=
  do! matched := query world "recheck archived retention plan"
                   (fun _ d => length (filter (fun r => still_due plan d r = true) (rl_Records plan))) in
  fail_if! negb (matched =? length (rl_Records plan))%nat with ErrMessage "retention plan changed before apply" in
  tx_ret tt.

(** The tasks of the turns of some sessions. *)
Definition tasks_of (sessions : list string) (d : DB) : list string :=
  let of_session := fun turn =>
    match db_trajectories d !! tu_Trajectory turn with
    | Some t => bool_decide (tr_Session t ∈ sessions)
    | None => false
    end in
  elements (list_to_set (C := gset string)
              (omap (fun kv => if of_session kv.2 then tu_Task kv.2 else None) (map_to_list (db_turns d)))).

Definition retentionTaskIDs (sessionIDs : list string) : Tx DB (list string) :=
  if (length sessionIDs =? 0)%nat then tx_ret []
  else query world "select expired task candidates" (fun _ => tasks_of sessionIDs).

(** ** Audits that rest on deleted evidence *)

Definition link_kind_is (kind : string) (link : Columns) : bool := bool_decide (text_column "target_kind" link = Some kind).

(** A link supports a revision: directly, or through one of its metrics or findings. *)
Definition supports (d : DB) (revision : string) (link : Columns) : bool :=
  match text_column "target_id" link with
  | None => false
  | Some target =>
      link_kind_is "audit_revision" link && (target =s revision)
      || link_kind_is "metric_result" link && bool_decide (ms_Revision <$> db_results d !! target = Some revision)
      || link_kind_is "finding" link && bool_decide (fg_Revision <$> db_findings d !! target = Some revision)
  end.

Definition has_row {R} (get : DB -> gmap string R) (p : R -> bool) (d : DB) : bool :=
  existsb (fun kv => p kv.2) (map_to_list (get d)).

(** Evidence of a row, among some artifacts or not. *)
Definition evidence_in (among : bool) (ids : gset string) (evidence : option string) : bool :=
  match evidence with None => false | Some e => Bool.eqb among (bool_decide (e ∈ ids)) end.

Definition rests_on (among : bool) (ids : gset string) (d : DB) (revision : string) : bool :=
  has_row db_links (fun l => supports d revision l && evidence_in among ids (text_column "evidence_artifact_id" l)) d
  || has_row db_observations (fun o => bool_decide (text_column "audit_revision_id" o = Some revision)
                                       && evidence_in among ids (text_column "evidence_artifact_id" o)) d
  || has_row db_recommendation_events
       (fun e => bool_decide (rc_Revision <$> db_recommendations d !! rn_Recommendation e = Some revision)
                 && evidence_in among ids (rn_Evidence e)) d.

(** The revisions that rest on deleted evidence and on nothing else. *)
Definition expired_revisions (ids : gset string) (d : DB) : gset string :=
  dom (filter (fun kv => rests_on true ids d kv.1 && negb (rests_on false ids d kv.1) = true) (db_revisions d)).

Definition deleteExpiredAuditRevisions (ids : gset string) : Tx DB unit :=
  exec world "delete expired audit revisions" (fun _ d => Ok (tt, delete_revisions (expired_revisions ids d) d)).

(** DELETE with the number of rows. *)
Definition delete_retained (ids : gset string) : Tx DB Z :=
  exec world "delete retained evidence"
    (fun _ d => Ok (Z.of_nat (size (filter (fun kv => kv.1 ∈ ids) (db_artifacts d))), delete_artifacts ids d)).

Definition delete_project_aliases (project : string) : Tx DB unit :=
  exec world "delete unreferenced keyed aliases"
    (fun _ d =>
       if has_row db_artifacts (fun r => bool_decide (ea_Project r = Some project)) d then Ok (tt, d)
       else Ok (tt, remove_rows db_aliases (dom (filter (fun kv => al_Project kv.2 = project) (db_aliases d))) d)).

Definition delete_session_rows (sessions : list string) (d : DB) : DB :=
  let expired := dom (filter (fun kv => kv.1 ∈ sessions
                                /\ has_row db_artifacts (fun r => bool_decide (ea_Session r = Some kv.1)) d = false)
                        (db_sessions d)) in
  delete_sessions expired d.

Definition delete_task_rows (tasks : list string) (d : DB) : DB :=
  let expired := dom (filter (fun kv => kv.1 ∈ tasks
                                /\ has_row db_turns (fun r => bool_decide (tu_Task r = Some kv.1)) d = false)
                        (db_tasks d)) in
  delete_tasks expired d.

Definition deleteExpiredExecutionLineage (sessionIDs taskIDs : list string) : Tx DB unit :=
  do! _ := (if (length sessionIDs =? 0)%nat then tx_ret tt
            else exec world "delete expired execution sessions" (fun _ d => Ok (tt, delete_session_rows sessionIDs d))) in
  if (length taskIDs =? 0)%nat then tx_ret tt
  else exec world "delete expired task identities" (fun _ d => Ok (tt, delete_task_rows taskIDs d)).

Definition delete_empty_windows (project : string) : Tx DB unit :=
  exec world "delete empty audit windows"
    (fun _ d =>
       Ok (tt, remove_rows db_windows
                 (dom (filter (fun kv => wi_Project kv.2 = Some project
                                 /\ has_row db_revisions (fun r => rv_Window r =s kv.1) d = false)
                         (db_windows d))) d)).

(** ** Applying a plan *)

(** The range of an archive, never empty. *)
Definition archive_range (records : list ArchiveRecord) : Z * Z :=
  match records with
  | [] => (0%Z, 0%Z)
  | r :: rest =>
      let first := foldl (fun t r => Z.min t (ar_ObservedAt r)) (ar_ObservedAt r) rest in
      let last := foldl (fun t r => Z.max t (ar_ObservedAt r)) (ar_ObservedAt r) rest in
      (first, if (first <? last)%Z then last else (first + microsecond)%Z)
  end.

Definition record_action (apply : RetentionApply) : Tx DB unit :=
  let plan := ra_Plan apply in
  exec world "record retention action"
    (fun n d =>
       if has_row db_actions (fun a => ac_Key a =s rl_Digest plan) d then Err unique_violation
       else insert_row db_actions (ra_ActionID apply)
              (mkActionRow (rl_PolicyID plan) (rl_ProjectID plan) (rl_Digest plan) (rl_AsOf plan)
                 (Z.of_nat (length (rl_Records plan))) 0 "running" (ou_clock world n) None)
              (fun d => refers db_policies (rl_PolicyID plan) d && refers db_projects (rl_ProjectID plan) d) d).

Definition int_column (z : Z) : option SqlValue := Some (VInt z).
Definition text_value (s : string) : option SqlValue := Some (VText s).

Definition record_archive (apply : RetentionApply) : Tx DB unit :=
  let plan := ra_Plan apply in
  let receipt := ra_Receipt apply in
  let '(first, last) := archive_range (rl_Records plan) in
  exec world "record archive batch"
    (fun n d =>
       if has_row db_archives (fun a => av_Reference a =s at_ArchiveReference receipt) d then Err unique_violation
       else insert_row db_archives (at_BatchID receipt)
              (mkArchiveRow (rl_ProjectID plan) (ra_ActionID apply) (at_ArchiveReference receipt)
                 (columns [("encryption_key_reference", text_value (at_EncryptionKeyReference receipt));
                           ("format_version", text_value "2.0.0"); ("range_start", Some (VTime first));
                           ("range_end", Some (VTime last));
                           ("entity_count", int_column (Z.of_nat (length (rl_Records plan))));
                           ("plaintext_digest", text_value (at_PlaintextDigest receipt));
                           ("encrypted_digest", text_value (at_EncryptedDigest receipt)); ("status", text_value "verified");
                           ("created_at", Some (VTime (ou_clock world n))); ("verified_at", Some (VTime (at_VerifiedAt receipt)))]))
              (fun d => refers db_projects (rl_ProjectID plan) d && refers db_actions (ra_ActionID apply) d) d).

Definition record_entity (apply : RetentionApply) (applied : Z) : Tx DB unit :=
  let plan := ra_Plan apply in
  let planned := int_column (Z.of_nat (length (rl_Records plan))) in
  exec world "record retention action entities"
    (fun n => insert_row db_action_entities (ra_ActionEntityID apply)
       (mkActionEntityRow (ra_ActionID apply) (at_BatchID (ra_Receipt apply))
          (columns [("entity_kind", text_value "evidence_artifact"); ("planned_count", planned); ("archived_count", planned);
                    ("deleted_count", int_column applied); ("archive_digest", text_value (rl_Digest plan));
                    ("deletion_digest", text_value (rl_Digest plan)); ("recorded_at", Some (VTime (ou_clock world n)))]))
       (fun d => refers db_actions (ra_ActionID apply) d && refers db_archives (at_BatchID (ra_Receipt apply)) d)).

Definition complete_row (applied t : Z) (a : ActionRow) : ActionRow :=
  mkActionRow (ac_Policy a) (ac_Project a) (ac_Key a) (ac_Cutoff a) (ac_Planned a) applied "complete" (ac_StartedAt a) (Some t).

Definition complete_action (action : string) (applied : Z) : Tx DB unit :=
  exec world "complete retention action"
    (fun n d => Ok (tt, put_rows (get := db_actions) (alter (complete_row applied (ou_clock world n)) action (db_actions d)) d)).

(** The count of a plan that was applied before. *)
Definition completed (digest : string) (d : DB) : option Z :=
  (fun kv => ac_Applied kv.2)
    <$> find_first (fun kv => (ac_Key kv.2 =s digest) && (ac_Status kv.2 =s "complete")) (map_to_list (db_actions d)).

Definition plan_ids (plan : RetentionPlan) : list string := ar_EvidenceID <$> rl_Records plan.

Definition apply_tx (apply : RetentionApply) : Tx DB Z :=
  let plan := ra_Plan apply in
  let ids := list_to_set (C := gset string) (plan_ids plan) in
  let sessionIDs := archiveSessionIDs (rl_Records plan) in
  do! _ := query world "lock retention action" (fun _ _ => tt) in
  do! done := query world "read retention action" (fun _ => completed (rl_Digest plan)) in
  match done with
  | Some applied => tx_ret applied
  | None =>
      do! _ := validateArchivedPlan plan in
      do! taskIDs := retentionTaskIDs sessionIDs in
      do! _ := record_action apply in
      do! _ := record_archive apply in
      do! _ := deleteExpiredAuditRevisions ids in
      do! applied := delete_retained ids in
      fail_if! negb (applied =? Z.of_nat (length (plan_ids plan)))%Z with ErrMessage "retention apply count mismatch" in
      do! _ := delete_project_aliases (rl_ProjectID plan) in
      do! _ := deleteExpiredExecutionLineage sessionIDs taskIDs in
      do! _ := delete_empty_windows (rl_ProjectID plan) in
      do! _ := record_entity apply applied in
      do! _ := complete_action (ra_ActionID apply) applied in
      tx_ret applied
  end.

Definition ApplyRetention (apply : RetentionApply) : Tx DB Z :=
  match EncodeArchive (ra_Plan apply) with
  | Err e => tx_err e
  | Ok encodedPlan =>
      fail_if! negb (verified (ra_Plan apply) (ra_Receipt apply) (sha256 encodedPlan))
        with ErrMessage "verified archive does not match retention plan" in
      fail_if! negb (match_encodes (rl_Records (ra_Plan apply))) with ErrMessage "encode retention match records" in
      withSerializable world (Some (apply_tx apply))
  end.

(** VACUUM changes nothing that can be read. *)
Definition MaintainAfterRetention : Tx DB unit :=
  tx_each (fun _ : string => pool world "maintain retained evidence tables" (fun _ d => Ok (tt, d)))
    ["evidence_artifacts"; "evidence_links"; "observations"].
End Calls.

(** ** What applying a plan does *)

Lemma has_row_false {R} (get : DB -> gmap string R) p d id row :
  has_row get p d = false -> get d !! id = Some row -> p row = false.
Proof.
  intros H Hr. destruct (p row) eqn:E; [|done]. apply not_true_iff_false in H. destruct H.
  apply existsb_spec, Exists_exists. exists (id, row). split; [by apply elem_of_map_to_list|done].
Qed.

Lemma delete_revisions_kept gone d id :
  is_Some (db_revisions (delete_revisions gone d) !! id) <-> is_Some (db_revisions d !! id) /\ id ∉ gone.
Proof.
  set (clear := fun r => if in_gone (rv_Prior r) gone
                         then mkRevisionRow (rv_Window r) (rv_Number r) (rv_Watermark r) (rv_Coverage r) (rv_Hash r)
                                (rv_CreatedAt r) None (rv_Engine r) else r).
  change (db_revisions (delete_revisions gone d))
    with (filter (fun kv : string * RevisionRow => kv.1 ∉ gone) (clear <$> db_revisions d)).
  unfold is_Some. setoid_rewrite map_lookup_filter_Some. setoid_rewrite lookup_fmap_Some. split.
  - intros (x & (y & _ & Hy) & Hg). split; [by exists y|exact Hg].
  - intros ((y & Hy) & Hg). exists (clear y). split; [by exists y|exact Hg].
Qed.

Lemma size_list_to_set_le (l : list string) : (size (list_to_set (C := gset string) l) <= length l)%nat.
Proof.
  induction l as [|y l IH]; cbn [list_to_set length]; [done|].
  rewrite size_union_alt, size_singleton.
  pose proof (subseteq_size (C := gset string) (list_to_set l ∖ {[y]}) (list_to_set l) ltac:(set_solver)). lia.
Qed.

Lemma size_list_to_set_NoDup (l : list string) : size (list_to_set (C := gset string) l) = length l -> NoDup l.
Proof.
  induction l as [|x l IH]; cbn [list_to_set length]; intros H; [constructor|].
  pose proof (size_list_to_set_le l) as Hle.
  destruct (decide (x ∈ l)) as [Hx|Hx].
  - rewrite (subseteq_union_1_L {[x]} (list_to_set l)) in H by set_solver. lia.
  - constructor; [done|]. apply IH. rewrite size_union, size_singleton in H by set_solver. lia.
Qed.

Lemma deleted_all {R} (m : gmap string R) (l : list string) :
  size (filter (fun kv => kv.1 ∈ list_to_set (C := gset string) l) m) = length l -> NoDup l.
Proof.
  intros H. apply size_list_to_set_NoDup.
  pose proof (size_list_to_set_le l) as Hle.
  rewrite <- (size_dom (D := gset string)) in H.
  pose proof (subseteq_size (C := gset string) (dom (filter (fun kv => kv.1 ∈ list_to_set (C := gset string) l) m))
                (list_to_set l)) as Hs. rewrite H in Hs. apply Nat.le_antisymm; [done|]. apply Hs.
  intros id Hid. apply elem_of_dom in Hid as [x Hx]. by apply map_lookup_filter_Some in Hx as [_ Hx].
Qed.

(** Deleting the sessions that have no evidence left deletes no evidence. *)
Lemma delete_session_rows_evidence sessions d :
  same_evidence d (delete_session_rows sessions d)
  /\ forall id row, db_sessions d !! id = Some row ->
       db_sessions (delete_session_rows sessions d) !! id = Some row
       \/ id ∈ sessions /\ forall a x, db_artifacts d !! a = Some x -> ea_Session x <> Some id.
Proof.
  unfold delete_session_rows.
  set (expired := dom (filter (fun kv => kv.1 ∈ sessions
                                /\ has_row db_artifacts (fun r => bool_decide (ea_Session r = Some kv.1)) d = false)
                        (db_sessions d))).
  assert (forall s, s ∈ expired -> s ∈ sessions /\ forall a x, db_artifacts d !! a = Some x -> ea_Session x <> Some s) as He.
  { intros s Hs. apply elem_of_dom in Hs as [x Hx]. apply map_lookup_filter_Some in Hx as [_ [Hin Hno]].
    split; [done|]. intros a y Hy E. apply (has_row_false _ _ _ _ _ Hno) in Hy. by rewrite E, bool_decide_true in Hy. }
  split.
  - unfold same_evidence. split; [|done]. rewrite (proj1 (delete_sessions_rows expired d)). apply map_filter_id.
    intros a x Hx. cbn [fst]. unfold referring. intros [y Hy]%elem_of_dom. apply map_lookup_filter_Some in Hy as [Hy1 Hy].
    assert (y = x) as -> by congruence. cbn in Hy. unfold in_gone in Hy. destruct (ea_Session x) as [s|] eqn:Es; [|done].
    apply bool_decide_eq_true in Hy. by destruct (proj2 (He s Hy) a x Hx).
  - intros id row Hr. change (db_sessions (delete_sessions expired d))
      with (filter (fun kv : string * SessionRow => kv.1 ∉ expired) (db_sessions d)).
    destruct (decide (id ∈ expired)) as [Hin|Hn]; [right; by apply He|left]. by apply map_lookup_filter_Some.
Qed.

Section Applied.
Context (apply : RetentionApply).
Abbreviation plan := (ra_Plan apply).

(** Every record of the plan is a row as it is, under the policy, past its time and not held. *)
Definition all_due (d : DB) : Prop :=
  exists policy, db_policies d !! rl_PolicyID plan = Some policy /\ po_LegalHold policy = false
    /\ forall r, r ∈ rl_Records plan ->
         db_artifacts d !! ar_EvidenceID r = Some (record_row r) /\ ar_ProjectID r = rl_ProjectID plan
         /\ due policy (rl_AsOf plan) (record_row r) = true.

(** A plan was applied: its records, and no other evidence, are gone; audits are gone only when
    they rested on it alone, sessions only when they have no evidence left; and the action is on
    record. *)
Record purged (n : Z) (d d' : DB) : Prop := mkPurged {
  pu_due : all_due d;
  pu_distinct : NoDup (plan_ids plan);
  pu_count : n = Z.of_nat (length (rl_Records plan));
  pu_artifacts : db_artifacts d' = filter (fun kv => kv.1 ∉ plan_ids plan) (db_artifacts d);
  pu_policies : db_policies d' = db_policies d;
  pu_completed : completed (rl_Digest plan) d' = Some n;
  pu_revisions : forall id, is_Some (db_revisions d !! id) ->
    is_Some (db_revisions d' !! id)
    \/ rests_on true (list_to_set (plan_ids plan)) d id = true /\ rests_on false (list_to_set (plan_ids plan)) d id = false;
  pu_sessions : forall id row, db_sessions d !! id = Some row ->
    db_sessions d' !! id = Some row
    \/ Some id ∈ ar_SessionID <$> rl_Records plan
       /\ forall a x, db_artifacts d' !! a = Some x -> ea_Session x <> Some id
}.

Definition retention_effect (n : Z) (d d' : DB) : Prop :=
  d' = d /\ completed (rl_Digest plan) d = Some n \/ completed (rl_Digest plan) d = None /\ purged n d d'.
End Applied.

(** The steps of the transaction, each by what it does to the tables that matter. *)
Section Steps.
Context (world : Outside DB) (apply : RetentionApply).
Abbreviation plan := (ra_Plan apply).
Abbreviation ids := (list_to_set (C := gset string) (plan_ids plan)).

Lemma filter_all {A} (P : A -> Prop) `{!forall x, Decision (P x)} l :
  length (filter P l) = length l -> forall x, x ∈ l -> P x.
Proof.
  induction l as [|y l IH]; [by intros _ x ?%not_elem_of_nil|]. rewrite filter_cons.
  pose proof (length_filter P l) as Hl. destruct (decide (P y)) as [Hy|Hy]; cbn [length]; intros Hlen; [|lia].
  intros x [->|Hx]%elem_of_cons; [done|]. apply IH; [lia|done].
Qed.

Lemma validate_ok c c' :
  rl_Records plan <> [] -> validateArchivedPlan world plan c = (Ok tt, c') -> cn_db c' = cn_db c /\ all_due apply (cn_db c).
Proof.
  intros Hne (m & c1 & [-> D1]%query_ok & [Hm%negb_false_iff%Nat.eqb_eq [= <-]]%fail_if_ok)%bind_ok.
  split; [done|]. pose proof (filter_all _ _ Hm) as H. cbn beta in H. unfold still_due in H.
  destruct (rl_Records plan) as [|r0 l] eqn:El; [done|]. unfold all_due. rewrite El.
  destruct (db_policies (cn_db c) !! rl_PolicyID plan) as [policy|]; [|by specialize (H r0 ltac:(left))].
  assert (forall r, r ∈ r0 :: l -> db_artifacts (cn_db c) !! ar_EvidenceID r = Some (record_row r)
            /\ ar_ProjectID r = rl_ProjectID plan /\ due policy (rl_AsOf plan) (record_row r) = true) as HA.
  { intros r Hr. specialize (H r Hr). apply andb_true_iff in H as [[H1%bool_decide_eq_true H2%str_eqb_eq]%andb_true_iff H3]. done. }
  exists policy. split; [done|]. split; [|exact HA].
  destruct (HA r0 ltac:(left)) as (_ & _ & Hd). unfold due in Hd.
  apply andb_true_iff in Hd as [[_ Hd%negb_true_iff]%andb_true_iff _]. exact Hd.
Qed.

Lemma task_ids_ok sessions c l c' : retentionTaskIDs world sessions c = (Ok l, c') -> cn_db c' = cn_db c.
Proof. unfold retentionTaskIDs. destruct (_ =? 0)%nat; [by intros [= _ <-]|]. by intros [_ H]%query_ok. Qed.

Lemma record_action_ok c c' :
  record_action world apply c = (Ok tt, c') ->
  exists row, cn_db c' = set_row db_actions (ra_ActionID apply) row (cn_db c)
    /\ ac_Key row = rl_Digest plan /\ db_actions (cn_db c) !! ra_ActionID apply = None
    /\ has_row db_actions (fun a => ac_Key a =s rl_Digest plan) (cn_db c) = false.
Proof.
  intros E%statement_ok. destruct (has_row _ _ _) eqn:Hh; [discriminate E|].
  apply insert_row_ok in E as (Hn & _ & E). eexists. split; [exact E|]. done.
Qed.

Lemma record_archive_ok c c' :
  record_archive world apply c = (Ok tt, c') -> exists row, cn_db c' = set_row db_archives (at_BatchID (ra_Receipt apply)) row (cn_db c).
Proof.
  unfold record_archive. destruct (archive_range _) as [first last]. intros E%statement_ok.
  destruct (has_row _ _ _); [discriminate E|]. apply insert_row_ok in E as (_ & _ & E). by eexists.
Qed.

Lemma aliases_ok project c c' :
  delete_project_aliases world project c = (Ok tt, c') -> exists gone, cn_db c' = remove_rows db_aliases gone (cn_db c) \/ cn_db c' = cn_db c.
Proof.
  intros E%statement_ok. destruct (has_row _ _ _); injection E as E; [exists ∅; by right|]. eexists. left. by rewrite <- E.
Qed.

Lemma lineage_ok sessions tasks c c' :
  deleteExpiredExecutionLineage world sessions tasks c = (Ok tt, c') ->
  same_evidence (cn_db c) (cn_db c') /\ db_revisions (cn_db c') = db_revisions (cn_db c)
  /\ forall id row, db_sessions (cn_db c) !! id = Some row ->
       db_sessions (cn_db c') !! id = Some row
       \/ id ∈ sessions /\ forall a x, db_artifacts (cn_db c') !! a = Some x -> ea_Session x <> Some id.
Proof.
  intros ([] & c1 & E1 & E2)%bind_ok.
  assert (same_evidence (cn_db c) (cn_db c1) /\ db_revisions (cn_db c1) = db_revisions (cn_db c)
          /\ forall id row, db_sessions (cn_db c) !! id = Some row ->
               db_sessions (cn_db c1) !! id = Some row
               \/ id ∈ sessions /\ forall a x, db_artifacts (cn_db c1) !! a = Some x -> ea_Session x <> Some id) as (H1 & R1 & S1).
  { destruct (length sessions =? 0)%nat; [injection E1 as <-; split; [done|]; split; [done|]; by left|].
    apply statement_ok in E1. injection E1 as E1. rewrite <- E1.
    pose proof (delete_session_rows_evidence sessions (cn_db c)) as [HE HS]. split; [exact HE|]. split; [done|].
    intros id row Hr. destruct (HS id row Hr) as [?|[? Hno]]; [by left|right]. split; [done|].
    intros a x. rewrite (proj1 HE). apply Hno. }
  assert (same_evidence (cn_db c1) (cn_db c') /\ db_revisions (cn_db c') = db_revisions (cn_db c1)
          /\ db_sessions (cn_db c') = db_sessions (cn_db c1)) as (H2 & R2 & S2).
  { destruct (length tasks =? 0)%nat; [injection E2 as <-; done|].
    apply statement_ok in E2. injection E2 as E2. rewrite <- E2. done. }
  split; [by etransitivity|]. split; [congruence|]. intros id row Hr. rewrite S2. destruct (S1 id row Hr) as [?|[? Hno]]; [by left|right].
  split; [done|]. intros a x. rewrite (proj1 H2). apply Hno.
Qed.

Lemma completed_insert row t n d :
  ac_Key row = rl_Digest plan -> db_actions d !! ra_ActionID apply = Some row ->
  (forall id a, db_actions d !! id = Some a -> id <> ra_ActionID apply -> ac_Key a <> rl_Digest plan) ->
  completed (rl_Digest plan) (put_rows (get := db_actions) (alter (complete_row n t) (ra_ActionID apply) (db_actions d)) d) = Some n.
Proof.
  intros Hk Hrow Hno. unfold completed. rewrite (get_put (get := db_actions)).
  destruct (find_first _ _) as [[id a]|] eqn:E.
  - apply find_first_Some in E as [Hin Hp]. apply elem_of_map_to_list in Hin. cbn in Hp.
    apply andb_true_iff in Hp as [Hp%str_eqb_eq _]. destruct (decide (id = ra_ActionID apply)) as [->|Hne].
    + rewrite lookup_alter_eq, Hrow in Hin. by injection Hin as <-.
    + rewrite lookup_alter_ne in Hin by done. by destruct (Hno id a Hin Hne).
  - exfalso. apply (find_first_None _ _ (ra_ActionID apply, complete_row n t row)) in E.
    + cbn in E. by rewrite Hk, str_eqb_refl in E.
    + apply elem_of_map_to_list. by rewrite lookup_alter_eq, Hrow.
Qed.
End Steps.

Section Effect.
Context (sha256 : string -> string)
        (encode : string -> string -> Z -> list ArchiveRecord -> option string)
        (match_encodes : list ArchiveRecord -> bool) (world : Outside DB).

Lemma distinct_elem l seen x : x ∈ distinct l seen -> x ∈ l.
Proof.
  revert seen. induction l as [|y l IH]; intros seen; cbn [distinct]; [done|].
  destruct (bool_decide _); [intros H; right; by eapply IH|]. intros [->|H]%elem_of_cons; [left|right; by eapply IH].
Qed.

Lemma plan_session id records : id ∈ archiveSessionIDs records -> Some id ∈ ar_SessionID <$> records.
Proof.
  intros H%distinct_elem. apply list_elem_of_omap in H as (r & Hr & E). apply list_elem_of_fmap. by exists r.
Qed.

Lemma apply_tx_effect apply c n c' :
  rl_Records (ra_Plan apply) <> [] -> apply_tx world apply c = (Ok n, c') ->
  retention_effect apply n (cn_db c) (cn_db c').
Proof.
  intros Hne E. unfold apply_tx in E. apply bind_ok in E as ([] & c1 & [_ D1]%query_ok & E).
  apply bind_ok in E as (known & c2 & [-> D2]%query_ok & E). rewrite D1 in D2, E.
  destruct (completed (rl_Digest (ra_Plan apply)) (cn_db c)) as [k|] eqn:Hk.
  { injection E as <- <-. left. by rewrite D2. }
  right. split; [done|].
  apply bind_ok in E as ([] & c3 & E3 & E). apply (validate_ok world apply _ _ Hne) in E3 as [D3 Hdue]. rewrite D2 in D3, Hdue.
  apply bind_ok in E as (tasks & c4 & E4%task_ids_ok & E). rewrite D3 in E4.
  apply bind_ok in E as ([] & c5 & E5%record_action_ok & E). rewrite E4 in E5. destruct E5 as (action & D5 & Hkey & Hnew & Hkeys).
  apply bind_ok in E as ([] & c6 & E6%record_archive_ok & E). destruct E6 as (archive & D6).
  apply bind_ok in E as ([] & c7 & E7%statement_ok & E). injection E7 as D7.
  apply bind_ok in E as (applied & c8 & E8%statement_ok & E). injection E8 as Ha D8.
  apply fail_if_ok in E as [Hcount%negb_false_iff%Z.eqb_eq E].
  apply bind_ok in E as ([] & c9 & E9%aliases_ok & E). destruct E9 as (gone & D9).
  apply bind_ok in E as ([] & c10 & E10%lineage_ok & E). destruct E10 as (HE & HR & HS).
  apply bind_ok in E as ([] & c11 & E11%statement_ok & E). injection E11 as D11.
  apply bind_ok in E as ([] & c12 & E12%statement_ok & E). apply insert_row_ok in E12 as (_ & _ & D12).
  apply bind_ok in E as ([] & c13 & E13%statement_ok & E). injection E13 as D13. injection E as <- <-.
  set (ids := list_to_set (C := gset string) (plan_ids (ra_Plan apply))) in *.
  (* the tables of evidence, sessions and audits *)
  assert (db_artifacts (cn_db c8) = filter (fun kv => kv.1 ∉ ids) (db_artifacts (cn_db c))) as A8.
  { rewrite <- D8, <- D7, D6, D5. reflexivity. }
  assert (db_artifacts (cn_db c9) = db_artifacts (cn_db c8) /\ db_actions (cn_db c9) = db_actions (cn_db c8)
          /\ db_policies (cn_db c9) = db_policies (cn_db c8) /\ db_sessions (cn_db c9) = db_sessions (cn_db c8)
          /\ db_revisions (cn_db c9) = db_revisions (cn_db c8)) as (A9 & C9 & P9 & S9 & R9).
  { destruct D9 as [-> | ->]; done. }
  destruct HE as (A10 & P10 & C10 & _).
  assert (db_artifacts (cn_db c13) = db_artifacts (cn_db c10) /\ db_policies (cn_db c13) = db_policies (cn_db c10)
          /\ db_sessions (cn_db c13) = db_sessions (cn_db c10) /\ db_revisions (cn_db c13) = db_revisions (cn_db c10)
          /\ db_actions (cn_db c12) = db_actions (cn_db c10)) as (A13 & P13 & S13 & R13 & C12).
  { rewrite <- D13, D12, <- D11. done. }
  assert (db_actions (cn_db c8) = <[ra_ActionID apply := action]> (db_actions (cn_db c))) as C8.
  { rewrite <- D8, <- D7, D6, D5. reflexivity. }
  assert (db_artifacts (cn_db c7) = db_artifacts (cn_db c)) as A7 by (rewrite <- D7, D6, D5; reflexivity).
  assert (NoDup (plan_ids (ra_Plan apply))) as Hnd.
  { apply (deleted_all (db_artifacts (cn_db c))). rewrite A7 in Ha. fold ids. lia. }
  split.
  - exact Hdue.
  - exact Hnd.
  - rewrite Hcount. unfold plan_ids. by rewrite length_fmap.
  - rewrite A13, A10, A9, A8. apply map_filter_ext. intros a x _. cbn. unfold ids. by rewrite elem_of_list_to_set.
  - rewrite P13, P10, P9. rewrite <- D8, <- D7, D6, D5. reflexivity.
  - rewrite <- D13. apply (completed_insert apply action); [done| |].
    + by rewrite C12, C10, C9, C8, lookup_insert_eq.
    + intros id a. rewrite C12, C10, C9, C8. intros H Hid. rewrite lookup_insert_ne in H by done.
      pose proof (has_row_false _ _ _ _ _ Hkeys H) as Hn. by apply str_eqb_neq in Hn.
  - intros id Hid. rewrite R13, HR, R9.
    assert (db_revisions (cn_db c8) = db_revisions (delete_revisions (expired_revisions ids (cn_db c6)) (cn_db c6))) as R8.
    { rewrite <- D8, (proj1 (delete_artifacts_others _ _)), <- D7. reflexivity. }
    rewrite R8. destruct (decide (id ∈ expired_revisions ids (cn_db c6))) as [Hin|Hn].
    + right. unfold expired_revisions in Hin. apply elem_of_dom in Hin as [x Hx].
      apply map_lookup_filter_Some in Hx as [_ Hx]. cbn [fst] in Hx. rewrite D6, D5 in Hx.
      apply andb_true_iff in Hx as [Hx1 Hx2%negb_true_iff]. split; [exact Hx1|exact Hx2].
    + left. apply delete_revisions_kept. split; [|done]. rewrite D6, D5. exact Hid.
  - intros id row Hr. rewrite S13, A13.
    assert (db_sessions (cn_db c9) = db_sessions (cn_db c)) as S0 
      by (rewrite S9, <- D8, (proj2 (delete_artifacts_others _ _)), <- D7, delete_revisions_sessions, D6, D5; reflexivity).
    rewrite <- S0 in Hr. destruct (HS id row Hr) as [H|[H1 H2]]; [by left|right]. split; [by apply plan_session|done].
Qed.

(** C5: retention deletes exactly what was planned, archived and is still due.  Whatever fails and
    whatever others do before it: on success the receipt was that of a verified archive of this
    very plan, and either the plan was applied before, with the same count, and nothing changes,
    or its records and no other evidence are deleted, each of them as planned, past its time and
    not under a legal hold, no audit goes that rests on other evidence, no session that has
    evidence left, and applying the plan again will change nothing; an error leaves the store as
    it was, unless the answer to the COMMIT was lost. *)
Theorem ApplyRetention_exact apply c r c' :
  ApplyRetention sha256 encode match_encodes world apply c = (r, c') ->
  exists snapshot, reached world (cn_db c) snapshot
    /\ match r with
       | Ok n =>
           (exists encoded, EncodeArchive encode (ra_Plan apply) = Ok encoded
              /\ verified (ra_Plan apply) (ra_Receipt apply) (sha256 encoded) = true)
           /\ retention_effect apply n snapshot (cn_db c')
       | Err e =>
           cn_db c' = snapshot
           \/ e = ErrDatabase "commit database transaction" "" /\ exists n, retention_effect apply n snapshot (cn_db c')
       end.
Proof.
  unfold ApplyRetention. destruct (EncodeArchive encode (ra_Plan apply)) as [encoded|e];
    [|intros [= <- <-]; exists (cn_db c); split; [constructor|by left]].
  destruct (negb (verified _ _ _)) eqn:Hv; [intros [= <- <-]; exists (cn_db c); split; [constructor|by left]|].
  destruct (negb (match_encodes _)); [intros [= <- <-]; exists (cn_db c); split; [constructor|by left]|].
  apply negb_false_iff in Hv.
  assert (rl_Records (ra_Plan apply) <> []) as Hne.
  { intros E. unfold verified in Hv. by rewrite E in Hv. }
  intros (s & Hs & Hr)%withSerializable_atomic. exists s. split; [done|].
  assert (forall o d', ran (apply_tx world apply) o s d' -> exists n, (o = Some n \/ o = None) /\ retention_effect apply n s d') as Hran.
  { intros o d' (k & n & k' & E & Ho). exists n. split; [done|]. exact (apply_tx_effect apply (mkConn s k) n (mkConn d' k') Hne E). }
  destruct r as [n|e].
  - apply Hran in Hr as (m & [[= ->]|[=]] & Hr). split; [by exists encoded|done].
  - destruct Hr as [[-> _]|[-> (n & _ & Hr)%Hran]]; [by left|right; eauto].
Qed.
End Effect.

Section Planned.
Context (sha256 : string -> string) (encode : string -> string -> Z -> list ArchiveRecord -> option string)
        (world : Outside DB).

Lemma due_row policyID asOf d kv :
  kv ∈ due_rows policyID asOf d <->
  db_artifacts d !! kv.1 = Some kv.2
  /\ exists policy, db_policies d !! policyID = Some policy /\ due policy asOf kv.2 = true.
Proof.
  unfold due_rows. destruct (db_policies d !! policyID) as [policy|]; [|split; [by intros ?%not_elem_of_nil|by intros (_ & ? & ? & _)]].
  rewrite elem_of_go_sort, list_elem_of_filter, elem_of_map_to_list'. split.
  - intros [H1 H2]. split; [done|]. by exists policy.
  - intros [H1 (p & [= <-] & H2)]. done.
Qed.

Lemma archive_row project kv :
  ea_Project kv.2 = Some project -> record_row (archive_record (default "" (ea_Project kv.2)) kv) = kv.2.
Proof. destruct kv as [id r]. cbn. intros H. unfold record_row. cbn. rewrite H. cbn. rewrite <- H. by destruct r. Qed.

Lemma records_rows project (l : list (string * ArtifactRow)) :
  (forall kv, kv ∈ l -> ea_Project kv.2 = Some project) ->
  (fun r => (ar_EvidenceID r, record_row r)) <$> ((fun kv => archive_record (default "" (ea_Project kv.2)) kv) <$> l) = l.
Proof.
  induction l as [|kv l IH]; intros H; [done|]. cbn [fmap list_fmap].
  rewrite (archive_row project) by (apply H; left). f_equal; [by destruct kv|]. apply IH. intros x Hx. apply H. by right.
Qed.

(** A plan is the next batch that is due, and it can be applied as it stands.  As long as
    others do not move a policy to another project, a plan has, oldest first, the rows that are
    due, as many as were asked for; reading it changes nothing; its digest is that of its archive;
    and every record is still due in the store that was read. *)
Theorem PlanRetention_exact policyID asOf limit c plan c' :
  (forall n d id, po_Project <$> db_policies (ou_others world n d) !! id = po_Project <$> db_policies d !! id) ->
  PlanRetention sha256 encode world policyID asOf limit c = (Ok plan, c') ->
  reached world (cn_db c) (cn_db c')
  /\ (1 <= limit <= 1000)%Z
  /\ (fun r => (ar_EvidenceID r, record_row r)) <$> rl_Records plan = take (Z.to_nat limit) (due_rows policyID asOf (cn_db c'))
  /\ (exists encoded, EncodeArchive encode plan = Ok encoded /\ rl_Digest plan = sha256 encoded)
  /\ forall r, r ∈ rl_Records plan -> still_due plan (cn_db c') r = true.
Proof.
  intros HO [Hb E]%fail_if_ok. apply orb_false_iff in Hb as [[_ H1%Z.ltb_ge]%orb_false_iff H2%Z.ltb_ge]. unfold maxRetentionBatch in H2.
  apply bind_ok in E as (project & c1 & E1 & E). unfold pool_query, pool in E1. apply statement_ok in E1. injection E1 as <- D1.
  cbn [cn_db cn_sent] in E, D1.
  destruct (db_policies (ou_others world (cn_sent c) (cn_db c)) !! policyID) as [policy0|] eqn:Hp0; [|discriminate E]. cbn in E.
  apply bind_ok in E as (rows & c2 & E2 & E). unfold pool_query, pool in E2. apply statement_ok in E2. injection E2 as E2 D2.
  cbn [cn_db cn_sent] in E2, D2. set (d := ou_others world (cn_sent c1) (cn_db c1)) in *. subst rows.
  destruct (EncodeArchive _ _) as [encoded|e] eqn:He; [|discriminate E]. injection E as <- <-. rewrite <- D2.
  assert (forall kv, kv ∈ take (Z.to_nat limit) (due_rows policyID asOf d) ->
            db_artifacts d !! kv.1 = Some kv.2 /\ exists policy, db_policies d !! policyID = Some policy
              /\ due policy asOf kv.2 = true /\ po_Project policy = po_Project policy0 /\ ea_Project kv.2 = Some (po_Project policy0)) as Hrow.
  { intros kv Hkv%elem_of_take. destruct Hkv as (i & Hkv & _). apply list_elem_of_lookup_2 in Hkv.
    apply due_row in Hkv as [Hr (policy & Hp & Hd)]. split; [done|]. exists policy. split; [done|]. split; [done|].
    assert (po_Project policy = po_Project policy0) as Hpp.
    { pose proof (HO (cn_sent c1) (cn_db c1) policyID) as H. unfold d in Hp. rewrite Hp, <- D1, Hp0 in H. by injection H. }
    split; [done|]. rewrite <- Hpp. unfold due in Hd. apply andb_true_iff in Hd as [[[Hd%bool_decide_eq_true _]%andb_true_iff _]%andb_true_iff _]. done. }
  split; [|split; [lia|]]; [|split; [|split]].
  - apply (reached_others world (cn_sent c)). rewrite D1. apply reached_step.
  - cbn [rl_Records]. apply records_rows with (project := po_Project policy0). intros kv Hkv.
    by destruct (Hrow kv Hkv) as (_ & _ & _ & _ & _ & Hp).
  - exists encoded. done.
  - cbn [rl_Records]. intros r (kv & -> & Hkv)%list_elem_of_fmap. destruct (Hrow kv Hkv) as (Hr & policy & Hp & Hd & Hpp & He').
    unfold still_due. cbn [rl_PolicyID rl_ProjectID rl_AsOf]. rewrite Hp, (archive_row _ _ He').
    cbn. rewrite Hr, He', Hd, bool_decide_true, str_eqb_refl by done. done.
Qed.
End Planned.

(** ** A concrete run *)

Definition toy_digest (s : string) : string := str_take 32 (s +:+ "................................").

Definition toy_encode (policy project : string) (asOf : Z) (records : list ArchiveRecord) : option string :=
  Some (policy +:+ ":" +:+ project +:+ ":" +:+ str_concat (ar_EvidenceID <$> records)).

Definition old_evidence (t : Z) : ArtifactRow :=
  mkArtifactRow "source" (Some "project") (Some "session") None "1" (toy_digest "") 0 "internal" "not_needed" "complete"
    "runtime_observed" "local" t None.

(** Two rows are due at 100, one is not. *)
Definition retention_db : DB :=
  set_row db_artifacts "a" (old_evidence 1) (set_row db_artifacts "b" (old_evidence 2)
    (set_row db_artifacts "c" (old_evidence 101)
      (set_row db_sessions "session" (mkSessionRow (Some "project") "source" 1 "complete" "observed")
        (set_row db_policies "policy" (mkPolicyRow "project" "1" "internal" 0 false 0)
          (set_row db_sources "source" (mkSourceRow "codex_jsonl" 0) (set_row db_projects "project" 0%Z empty_db)))))).

Definition toy_plan : RetentionPlan :=
  mkRetentionPlan "policy" "project" 100 [archive_record "project" ("a", old_evidence 1); archive_record "project" ("b", old_evidence 2)]
    (toy_digest "policy:project:ab").

Example PlanRetention_exact_witness :
  PlanRetention toy_digest toy_encode calm "policy" 100 10 (mkConn retention_db 0) = (Ok toy_plan, mkConn retention_db 2)
  /\ forall r, r ∈ rl_Records toy_plan -> still_due toy_plan retention_db r = true.
Proof.
  assert (PlanRetention toy_digest toy_encode calm "policy" 100 10 (mkConn retention_db 0) = (Ok toy_plan, mkConn retention_db 2)) as E
    by (vm_compute; reflexivity). split; [exact E|].
  exact (proj2 (proj2 (proj2 (proj2 (PlanRetention_exact toy_digest toy_encode calm "policy" 100 10 (mkConn retention_db 0) toy_plan
           (mkConn retention_db 2) (fun _ _ _ => eq_refl) E))))).
Defined.

Definition toy_apply : RetentionApply :=
  mkRetentionApply "action" "entity" toy_plan
    (mkArchiveReceipt "batch" ("sha256:" +:+ hex_encode (toy_digest "cipher")) "key" (toy_digest "cipher")
       (toy_digest "policy:project:ab") 1).

Definition applied_plan : result StoreError Z * Conn DB :=
  ApplyRetention toy_digest toy_encode (fun _ => true) calm toy_apply (mkConn retention_db 0).

Example ApplyRetention_exact_witness :
  applied_plan.1 = Ok 2%Z
  /\ exists snapshot, reached calm retention_db snapshot
     /\ (exists encoded, EncodeArchive toy_encode toy_plan = Ok encoded
           /\ verified toy_plan (ra_Receipt toy_apply) (toy_digest encoded) = true)
     /\ retention_effect toy_apply 2 snapshot (cn_db applied_plan.2).
Proof.
  assert (applied_plan.1 = Ok 2%Z) as E by (vm_compute; reflexivity). split; [exact E|].
  pose proof (ApplyRetention_exact toy_digest toy_encode (fun _ => true) calm toy_apply (mkConn retention_db 0)
                applied_plan.1 applied_plan.2 (surjective_pairing applied_plan)) as H.
  rewrite E in H. exact H.
Defined.

(** The row that is not due, its session and nothing else stay; a second time nothing happens. *)
Example applied_twice :
  dom (db_artifacts (cn_db applied_plan.2)) = {["c"]} /\ dom (db_sessions (cn_db applied_plan.2)) = {["session"]}
  /\ (ApplyRetention toy_digest toy_encode (fun _ => true) calm toy_apply applied_plan.2).1 = Ok 2%Z.
Proof. split_and!; vm_compute; reflexivity. Qed.
