(* ===== verification/Archive.v ===== *)
(** * Encrypted archives (internal/retention/archive.go)

    Before evidence is deleted its plan is written to an encrypted file, named by its digest, read
    again and compared; the receipt of that is what [ApplyRetention] asks for.

    Arguments: [sha256] (32 bytes), [encode] as in [Retention], the AEAD of the archiver's key
    ([aes.NewCipher], [cipher.NewGCM]) and the host with its disk and clock ([GoHost]). *)
From Stdlib Require Import Ascii.
From S2P Require Import Contracts GoInt GoFmt GoPath GoHost Snapshots Transactions Tables Retention.

Definition archiveVersion : string := String "001" "".

Record FileArchiver := mkFileArchiver { fa_directory : string; fa_keyRef : string; fa_aead : AEAD }.

Definition NewFileArchiver {Block : Type} (new_cipher : string -> option Block) (new_gcm : Block -> option AEAD)
    (directory keyReference key : string) : result string FileArchiver :=
  if (directory =s "") || (keyReference =s "") || negb (String.length key =? 32)%nat
  then Err "invalid archive encryption configuration"
  else match new_cipher key with
       | None => Err "initialize archive encryption"
       | Some block => match new_gcm block with
                       | None => Err "initialize archive authentication"
                       | Some aead => Ok (mkFileArchiver directory keyReference aead)
                       end
       end.

Inductive ArchiveError := ArchiveCancelled | ArchiveStore (e : StoreError) | ArchiveFailed (message : string).

Section Archive.
Context (sha256 : string -> string) (encode : string -> string -> Z -> list ArchiveRecord -> option string).
Context (host : Host) (a : FileArchiver).

(** The plaintext of an archive, or the error that is reported. *)
Definition open_archive (data : string) : result string string :=
  let n := ad_NonceSize (fa_aead a) in
  if (String.length data <? 1 + n)%nat || negb (str_take 1 data =s archiveVersion) then Err "invalid encrypted archive"
  else
    let rest := str_drop 1 data in
    match ad_Open (fa_aead a) (str_take n rest) (str_drop n rest) archiveVersion with
    | None => Err "verify encrypted archive"
    | Some plaintext => Ok plaintext
    end.

Definition verify (path expected : string) : File (option string) :=
  fun d =>
    match ReadFile host path d with
    | (NotExist, d) | (ReadFailed, d) => (Some "read encrypted archive", d)
    | (Contents data, d) =>
        (match open_archive data with
         | Err e => Some e
         | Ok plaintext => if sha256 plaintext =s expected then None else Some "archive integrity mismatch"
         end, d)
    end.

Definition archive_path (encryptedDigest : string) : string := path_join (fa_directory a) (hex_encode encryptedDigest +:+ ".pba").

(** The file, once it is encrypted: written beside its place, moved there and read again. *)
Definition write_archive (data path plaintextDigest : string) : File (option string) :=
  fun d =>
    let '(ok, d) := MkdirAll host d in
    if negb ok then (Some "create archive directory", d)
    else
      let temporary := path +:+ ".tmp" in
      let '(ok, d) := WriteFile host temporary data d in
      if negb ok then (Some "write encrypted archive", d)
      else
        let '(ok, d) := Rename host temporary path d in
        if negb ok then let '(_, d) := Remove host temporary d in (Some "replace encrypted archive", d)
        else verify path plaintextDigest d.

Definition seal_archive (nonce plaintext : string) : string :=
  archiveVersion +:+ nonce +:+ ad_Seal (fa_aead a) nonce plaintext archiveVersion.

Definition Archive (cancelled : bool) (batchID : string) (plan : RetentionPlan) : File (result ArchiveError ArchiveReceipt) :=
  fun d =>
    if cancelled then (Err ArchiveCancelled, d)
    else if (batchID =s "") || (length (rl_Records plan) =? 0)%nat then (Err (ArchiveFailed "invalid archive request"), d)
    else match EncodeArchive encode plan with
         | Err e => (Err (ArchiveStore e), d)
         | Ok plaintext =>
             let plaintextDigest := sha256 plaintext in
             if negb (plaintextDigest =s rl_Digest plan) then (Err (ArchiveFailed "archive plan digest mismatch"), d)
             else match Random host (ad_NonceSize (fa_aead a)) d with
                  | (None, d) => (Err (ArchiveFailed "create archive nonce"), d)
                  | (Some nonce, d) =>
                      let data := seal_archive nonce plaintext in
                      let encryptedDigest := sha256 data in
                      match write_archive data (archive_path encryptedDigest) plaintextDigest d with
                      | (Some e, d) => (Err (ArchiveFailed e), d)
                      | (None, d) =>
                          (Ok (mkArchiveReceipt batchID ("sha256:" +:+ hex_encode encryptedDigest) (fa_keyRef a) encryptedDigest
                                 plaintextDigest (ho_now host (dk_done d))), d)
                      end
                  end
         end.

(** ** What a receipt proves *)

(** The file of the receipt has the plan: it opens, under the archiver's key, to its encoding. *)
Definition archived (plan : RetentionPlan) (receipt : ArchiveReceipt) (d : Disk) : Prop :=
  exists data encoded, dk_files d !! archive_path (at_EncryptedDigest receipt) = Some data
    /\ sha256 data = at_EncryptedDigest receipt
    /\ open_archive data = Ok encoded /\ EncodeArchive encode plan = Ok encoded /\ rl_Digest plan = sha256 encoded.

Lemma open_seal {HL : LawfulAEAD (fa_aead a)} nonce plaintext :
  String.length nonce = ad_NonceSize (fa_aead a) -> open_archive (seal_archive nonce plaintext) = Ok plaintext.
Proof.
  intros Hn. unfold open_archive, seal_archive. rewrite str_take_exact, str_drop_exact by done.
  rewrite str_take_exact, str_drop_exact by done. rewrite aead_open, !length_str_app, Hn.
  rewrite (proj2 (Nat.ltb_ge _ _)) by (cbn; lia). by rewrite str_eqb_refl.
Qed.

(** What is written is read again; nothing else is touched. *)
Lemma write_archive_spec data path digest d r d' :
  write_archive data path digest d = (r, d') ->
  (forall p, p <> path -> p <> path +:+ ".tmp" -> dk_files d' !! p = dk_files d !! p)
  /\ (r = None -> dk_files d' !! path = Some data /\ exists plaintext, open_archive data = Ok plaintext /\ sha256 plaintext = digest).
Proof.
  unfold write_archive, MkdirAll, WriteFile, Rename, Remove, verify, ReadFile, ticked. cbn [dk_files dk_done].
  destruct (ho_fails host (dk_done d)); cbn [negb]; [by intros [= <- <-]|].
  destruct (ho_fails host (S (dk_done d))); cbn [negb dk_files dk_done].
  { intros [= <- <-]. split; [|done]. intros p H1 H2. cbn [dk_files]. destruct (ho_torn host _); [by rewrite lookup_insert_ne|done]. }
  rewrite lookup_insert_eq. destruct (ho_fails host (S (S (dk_done d)))); cbn [negb dk_files dk_done].
  { destruct (ho_fails host _); intros [= <- <-]; (split; [|done]); intros p H1 H2; cbn [dk_files];
      rewrite ?lookup_delete_ne, lookup_insert_ne by done; done. }
  assert (forall p, p <> path -> p <> path +:+ ".tmp" ->
    <[path:=data]> (delete (path +:+ ".tmp") (<[path +:+ ".tmp":=data]> (dk_files d))) !! p = dk_files d !! p) as H.
  { intros p H1 H2. by rewrite lookup_insert_ne, lookup_delete_ne, lookup_insert_ne. }
  destruct (ho_fails host (S (S (S (dk_done d))))); [intros [= <- <-]; split; [exact H|done]|].
  rewrite lookup_insert_eq. destruct (open_archive data) as [plaintext|e]; intros [= <- <-]; (split; [exact H|]); [|done].
  destruct (sha256 plaintext =s digest) eqn:E; [|done]. intros _. apply str_eqb_eq in E. cbn [dk_files]. rewrite lookup_insert_eq. eauto.
Qed.
End Archive.

(** C10: a receipt is proof of an archive that holds the plan.  When [Archive] succeeds, the file of
    the receipt is on the disk, has the digest of the receipt, and opens under the key to exactly
    the encoding of the plan, whose digest is that of the plan; and the receipt is one that
    [ApplyRetention] takes, unless the digest or the clock is zero.  Whether it succeeds or fails,
    no other archive is touched. *)
Theorem Archive_receipt sha256 encode host a (HL : LawfulAEAD (fa_aead a)) (Hrandom : random_sized host) batchID plan d r d' :
  fa_keyRef a <> "" -> Archive sha256 encode host a false batchID plan d = (r, d') ->
  (exists digest, forall p, p <> archive_path a digest -> p <> archive_path a digest +:+ ".tmp" -> dk_files d' !! p = dk_files d !! p)
  /\ forall receipt, r = Ok receipt ->
       archived sha256 encode a plan receipt d'
       /\ verified plan receipt (rl_Digest plan)
          = negb (is_zero_time (at_VerifiedAt receipt)) && negb (at_EncryptedDigest receipt =s zero_digest).
Proof.
  intros Hk. unfold Archive. destruct (_ || _) eqn:Hv; [intros [= <- <-]; by split; [exists ""|]|].
  apply orb_false_iff in Hv as [Hb Hl]. destruct (EncodeArchive encode plan) as [encoded|e] eqn:He; [|intros [= <- <-]; by split; [exists ""|]].
  destruct (sha256 encoded =s rl_Digest plan) eqn:Hd; cbn [negb]; [apply str_eqb_eq in Hd|intros [= <- <-]; by split; [exists ""|]].
  unfold Random. destruct (if ho_fails host (dk_done d) then _ else _) as [nonce|] eqn:Er; [|intros [= <- <-]; by split; [exists ""|]].
  assert (String.length nonce = ad_NonceSize (fa_aead a)) as Hn by (destruct (ho_fails host (dk_done d)); [done|by apply Hrandom in Er]).
  set (data := seal_archive a nonce encoded). destruct (write_archive _ _ _ _ _ _ _) as [o d1] eqn:E.
  apply write_archive_spec in E as [H1 H2]. destruct o as [e|]; intros [= <- <-]; (split; [eexists; exact H1|]); [done|].
  intros receipt [= <-]. destruct (H2 eq_refl) as (Hf & _). unfold archived, verified. cbn.
  split; [exists data, encoded; split_and!; [done|done|by apply open_seal|done|done]|].
  rewrite Hl, <- Hd, str_eqb_refl, Hb, (proj2 (str_eqb_neq _ _) Hk), str_eqb_refl. cbn [negb orb].
  rewrite !orb_false_r. by rewrite negb_orb.
Qed.

(** ** Examples *)

Definition toy_digest (data : string) : string := big_endian 32 (1 + big_endian_value data).
Definition toy_encode (policy project : string) (asOf : Z) (records : list ArchiveRecord) : option string :=
  Some (policy +:+ project +:+ str_concat (ar_EvidenceID <$> records)).
Definition sample_archiver : FileArchiver := mkFileArchiver "archives" "key-1" toy_aead.
Definition sample_record : ArchiveRecord :=
  mkArchiveRecord "evidence" "source" "project" None None "1" "hash" 4 "standard" "redacted" "complete" "local" "cli" 5 None.
Definition sample_plan : RetentionPlan :=
  mkRetentionPlan "policy" "project" 9 [sample_record] (toy_digest "policyprojectevidence").

#[local] Abbreviation sample_archive := (Archive toy_digest toy_encode steady sample_archiver false "batch" sample_plan (mkDisk ∅ 0)).

Example Archive_receipt_witness :
  exists receipt, sample_archive.1 = Ok receipt /\ archived toy_digest toy_encode sample_archiver sample_plan receipt sample_archive.2
    /\ verified sample_plan receipt (rl_Digest sample_plan) = true.
Proof.
  destruct sample_archive as [r d'] eqn:E. cbn [fst snd].
  destruct (Archive_receipt toy_digest toy_encode steady sample_archiver toy_lawful steady_sized "batch" sample_plan (mkDisk ∅ 0) r d'
    ltac:(discriminate) E) as [_ H].
  destruct r as [receipt|e]; [|apply (f_equal fst) in E; vm_compute in E; discriminate E].
  exists receipt. split; [reflexivity|]. destruct (H receipt eq_refl) as [H1 H2]. split; [exact H1|]. rewrite H2.
  apply (f_equal fst) in E. cbn [fst] in E.
  assert (match sample_archive.1 with
          | Ok receipt => negb (is_zero_time (at_VerifiedAt receipt)) && negb (at_EncryptedDigest receipt =s zero_digest)
          | Err _ => false
          end = true) as Hv by (vm_compute; reflexivity).
  rewrite E in Hv. exact Hv.
Defined.
