(* ===== verification/Keys.v ===== *)
(** * Keys and keyed aliases (internal/store/postgres/identity.go)

    A project is known to a source by digests under a key; the key itself is kept elsewhere.
    What is stored is the life of each key and the digests made with it. *)
From S2P Require Import Contracts GoInt Transactions Tables.

Record KeyVersion := mkKeyVersion {
  ky_ID : string;
  ky_Reference : string;
  ky_State : string;
  ky_CreatedAt : Z;
  ky_ActivatedAt : option Z
}.

Record ProjectAlias := mkProjectAlias {
  pl_ID : string;
  pl_ProjectID : string;
  pl_SourceID : string;
  pl_KeyVersionID : string;
  pl_Kind : string;
  pl_Digest : string;
  pl_CreatedAt : Z
}.

Definition alias_row (a : ProjectAlias) : AliasRow :=
  mkAliasRow (pl_ProjectID a) (pl_SourceID a) (pl_KeyVersionID a) (pl_Kind a) (pl_Digest a) (pl_CreatedAt a).

(** What is unique about an alias. *)
Definition alias_identity (r : AliasRow) : string * string * string * string :=
  (al_Source r, al_Key r, al_Kind r, al_Digest r).

Definition identity_taken (row : AliasRow) (d : DB) : bool :=
  existsb (fun kv => bool_decide (alias_identity kv.2 = alias_identity row)) (map_to_list (db_aliases d)).

Definition alias_references (row : AliasRow) (d : DB) : bool :=
  refers db_projects (al_Project row) d && refers db_sources (al_Source row) d && refers db_keys (al_Key row) d.

(** INSERT ON CONFLICT (key_version_id) DO UPDATE of the state and the activation; references to
    keys are unique. *)
Definition put_key (v : KeyVersion) (d : DB) : result string (unit * DB) :=
  match db_keys d !! ky_ID v with
  | Some old =>
      Ok (tt, set_row db_keys (ky_ID v)
                (mkKeyVersionRow (kv_Reference old) (ky_State v) (kv_CreatedAt old) (ky_ActivatedAt v) (kv_RetiredAt old)
                   (kv_DeletedAt old)) d)
  | None =>
      if existsb (fun kv => kv_Reference kv.2 =s ky_Reference v) (map_to_list (db_keys d)) then Err unique_violation
      else Ok (tt, set_row db_keys (ky_ID v)
                     (mkKeyVersionRow (ky_Reference v) (ky_State v) (ky_CreatedAt v) (ky_ActivatedAt v) None None) d)
  end.

(** INSERT ON CONFLICT (the identity) DO NOTHING. *)
Definition put_alias (a : ProjectAlias) (d : DB) : result string (unit * DB) :=
  if identity_taken (alias_row a) d then Ok (tt, d)
  else insert_row db_aliases (pl_ID a) (alias_row a) (alias_references (alias_row a)) d.

(** The same without ON CONFLICT. *)
Definition insert_alias (a : ProjectAlias) (d : DB) : result string (unit * DB) :=
  if identity_taken (alias_row a) d then Err unique_violation
  else insert_row db_aliases (pl_ID a) (alias_row a) (alias_references (alias_row a)) d.

Definition lose_key (id : string) (at_ : Z) (d : DB) : bool * DB :=
  match db_keys d !! id with
  | Some old =>
      if kv_State old =s "deleted" then (false, d)
      else (true, set_row db_keys id
                    (mkKeyVersionRow (kv_Reference old) "lost" (kv_CreatedAt old) (kv_ActivatedAt old) (Some at_) (kv_DeletedAt old)) d)
  | None => (false, d)
  end.

Definition delete_key (id : string) (at_ : Z) (d : DB) : bool * DB :=
  match db_keys d !! id with
  | Some old =>
      (true, set_row db_keys id
               (mkKeyVersionRow (kv_Reference old) "deleted" (kv_CreatedAt old) (kv_ActivatedAt old) (kv_RetiredAt old) (Some at_)) d)
  | None => (false, d)
  end.

Definition delete_alias_rows (p : AliasRow -> bool) (d : DB) : DB :=
  put_rows (get := db_aliases) (filter (fun kv => p kv.2 = false) (db_aliases d)) d.

Section Calls.
Context (world : Outside DB).

Definition PutKeyVersion (v : KeyVersion) : Tx DB unit := pool world "persist key version metadata" (fun _ => put_key v).

Definition PutProjectAlias (a : ProjectAlias) : Tx DB unit := pool world "persist keyed project alias" (fun _ => put_alias a).

Definition rekey_tx (oldAliasID : string) (replacement : ProjectAlias) : Tx DB unit :=
  do! old := query world "read keyed project alias" (fun _ d => db_aliases d !! oldAliasID) in
  match old with
  | None => tx_err ErrNotFound
  | Some row =>
      fail_if! negb (al_Project row =s pl_ProjectID replacement) || negb (al_Source row =s pl_SourceID replacement)
        with ErrMessage "rekey scope mismatch" in
      do! _ := exec world "persist replacement project alias" (fun _ => insert_alias replacement) in
      exec world "delete replaced project alias" (fun _ d => Ok (tt, remove_rows db_aliases {[oldAliasID]} d))
  end.

Definition RekeyProjectAlias (oldAliasID : string) (replacement : ProjectAlias) : Tx DB unit :=
  withSerializable world (Some (rekey_tx oldAliasID replacement)).

Definition MarkKeyLost (keyVersionID : string) (at_ : Z) : Tx DB unit :=
  do! found := pool world "mark identity key lost" (fun _ d => Ok (lose_key keyVersionID at_ d)) in
  fail_if! negb found with ErrNotFound in tx_ret tt.

Definition delete_key_tx (keyVersionID : string) (at_ : Z) : Tx DB unit :=
  do! _ := exec world "delete keyed aliases" (fun _ d => Ok (tt, delete_alias_rows (fun r => al_Key r =s keyVersionID) d)) in
  do! found := exec world "delete key version metadata" (fun _ d => Ok (delete_key keyVersionID at_ d)) in
  fail_if! negb found with ErrNotFound in tx_ret tt.

Definition DeleteKeyVersion (keyVersionID : string) (at_ : Z) : Tx DB unit :=
  withSerializable world (Some (delete_key_tx keyVersionID at_)).
End Calls.

(** ** Aliases stay unambiguous *)

(** Under a key, a digest of a source belongs to one row of each kind: two kinds may share it. *)
Definition unambiguous (d : DB) : Prop := forall id1 id2 r1 r2,
  db_aliases d !! id1 = Some r1 -> db_aliases d !! id2 = Some r2 -> alias_identity r1 = alias_identity r2 -> id1 = id2.

Lemma identity_taken_false row d id r :
  identity_taken row d = false -> db_aliases d !! id = Some r -> alias_identity r <> alias_identity row.
Proof.
  intros H Hr E. apply not_true_iff_false in H. apply H, existsb_spec, Exists_exists.
  exists (id, r). split; [by apply elem_of_map_to_list|]. cbn. by apply bool_decide_eq_true.
Qed.

Lemma fresh_alias a d :
  identity_taken (alias_row a) d = false -> db_aliases d !! pl_ID a = None -> unambiguous d ->
  unambiguous (set_row db_aliases (pl_ID a) (alias_row a) d).
Proof.
  intros Hf Hn HU id1 id2 r1 r2. rewrite !(get_set_row db_aliases), !lookup_insert_Some.
  intros [[<- <-]|[N1 H1]] [[<- <-]|[N2 H2]] E; [done| | |by apply (HU id1 id2 r1 r2)].
  - by destruct (identity_taken_false _ _ _ _ Hf H2).
  - by destruct (identity_taken_false _ _ _ _ Hf H1).
Qed.

Lemma fewer_aliases (P : string * AliasRow -> Prop) `{!forall x, Decision (P x)} d d' :
  db_aliases d' = filter P (db_aliases d) -> unambiguous d -> unambiguous d'.
Proof.
  intros E HU id1 id2 r1 r2. rewrite E, !map_lookup_filter_Some. intros [H1 _] [H2 _]. by apply (HU id1 id2 r1 r2).
Qed.

(** What each of the calls may do to keys and aliases. *)
Definition rekeyed (oldAliasID : string) (replacement : ProjectAlias) (d d' : DB) : Prop :=
  exists old, db_aliases d !! oldAliasID = Some old
    /\ al_Project old = pl_ProjectID replacement /\ al_Source old = pl_SourceID replacement
    /\ db_aliases d !! pl_ID replacement = None
    /\ db_aliases d' = delete oldAliasID (<[pl_ID replacement := alias_row replacement]> (db_aliases d))
    /\ db_keys d' = db_keys d.

Definition key_deleted (keyVersionID : string) (d d' : DB) : Prop :=
  (exists row, db_keys d' !! keyVersionID = Some row /\ kv_State row = "deleted")
  /\ (forall id, id <> keyVersionID -> db_keys d' !! id = db_keys d !! id)
  /\ forall id row, db_aliases d' !! id = Some row <-> db_aliases d !! id = Some row /\ al_Key row <> keyVersionID.

Definition key_lost (keyVersionID : string) (at_ : Z) (d d' : DB) : Prop :=
  db_aliases d' = db_aliases d
  /\ (forall id, id <> keyVersionID -> db_keys d' !! id = db_keys d !! id)
  /\ exists old, db_keys d !! keyVersionID = Some old /\ kv_State old <> "deleted"
       /\ db_keys d' !! keyVersionID
          = Some (mkKeyVersionRow (kv_Reference old) "lost" (kv_CreatedAt old) (kv_ActivatedAt old) (Some at_) (kv_DeletedAt old)).

(** There is no such key, or it was deleted. *)
Definition key_gone (keyVersionID : string) (d : DB) : Prop :=
  forall old, db_keys d !! keyVersionID = Some old -> kv_State old = "deleted".

Lemma lose_key_effect id at_ d : 
  match lose_key id at_ d with
  | (true, d') => key_lost id at_ d d'
  | (false, d') => d' = d /\ key_gone id d
  end.
Proof.
  unfold lose_key, key_gone, key_lost. destruct (db_keys d !! id) as [old|] eqn:Hold; [|done].
  destruct (kv_State old =s "deleted") eqn:E.
  { apply str_eqb_eq in E. split; [done|]. by intros ? [= <-]. }
  apply str_eqb_neq in E. split; [done|]. rewrite (get_set_row db_keys). split; [by intros other H; apply lookup_insert_ne|].
  exists old. by rewrite lookup_insert_eq.
Qed.

Lemma rekey_effect world oldAliasID replacement c u c' :
  unambiguous (cn_db c) -> rekey_tx world oldAliasID replacement c = (Ok u, c') ->
  rekeyed oldAliasID replacement (cn_db c) (cn_db c') /\ unambiguous (cn_db c').
Proof.
  intros HU (old & c1 & [-> D1]%query_ok & E)%bind_ok.
  destruct (db_aliases (cn_db c) !! oldAliasID) as [old|] eqn:Hold; [|discriminate E].
  apply fail_if_ok in E as [[H1%negb_false_iff%str_eqb_eq H2%negb_false_iff%str_eqb_eq]%orb_false_iff E].
  apply bind_ok in E as ([] & c2 & E2%statement_ok & E3%statement_ok). injection E3 as _ E3.
  unfold insert_alias in E2. rewrite D1 in E2. destruct (identity_taken _ _) eqn:Hf; [discriminate E2|].
  apply insert_row_ok in E2 as (Hn & _ & E2).
  assert (db_aliases (cn_db c') = filter (fun kv : string * AliasRow => kv.1 ∉ ({[oldAliasID]} : gset string))
            (<[pl_ID replacement := alias_row replacement]> (db_aliases (cn_db c)))) as HA by (rewrite <- E3, E2; reflexivity).
  split.
  - exists old. split; [done|]. split; [done|]. split; [done|]. split; [done|]. split.
    + rewrite HA. apply map_eq. intros id. destruct (decide (id = oldAliasID)) as [->|Hne].
      * rewrite lookup_delete_eq. apply map_lookup_filter_None. right. intros x _. cbn. set_solver.
      * rewrite lookup_delete_ne by done. destruct (<[_ := _]> (db_aliases (cn_db c)) !! id) as [x|] eqn:Hx.
        -- apply map_lookup_filter_Some. split; [done|]. cbn. set_solver.
        -- apply map_lookup_filter_None. by left.
    + rewrite <- E3, E2. reflexivity.
  - apply (fewer_aliases (fun kv : string * AliasRow => kv.1 ∉ ({[oldAliasID]} : gset string)) (set_row db_aliases (pl_ID replacement) (alias_row replacement) (cn_db c)));
      [exact HA|by apply fresh_alias].
Qed.

Lemma delete_key_effect world id at_ c u c' :
  delete_key_tx world id at_ c = (Ok u, c') -> key_deleted id (cn_db c) (cn_db c') /\ (unambiguous (cn_db c) -> unambiguous (cn_db c')).
Proof.
  intros ([] & c1 & E1%statement_ok & E)%bind_ok. injection E1 as D1.
  apply bind_ok in E as (found & c2 & E2%statement_ok & E). apply fail_if_ok in E as [Hf%negb_false_iff [= _ <-]]. subst found.
  unfold delete_key in E2. rewrite <- D1 in E2. 
  change (db_keys (delete_alias_rows (fun r => al_Key r =s id) (cn_db c))) with (db_keys (cn_db c)) in E2.
  destruct (db_keys (cn_db c) !! id) as [old|] eqn:Hold; [|discriminate E2]. injection E2 as E2.
  assert (db_aliases (cn_db c2) = filter (fun kv : string * AliasRow => (al_Key kv.2 =s id) = false) (db_aliases (cn_db c))) as HA
    by (rewrite <- E2; reflexivity).
  assert (db_keys (cn_db c2) = <[id := mkKeyVersionRow (kv_Reference old) "deleted" (kv_CreatedAt old) (kv_ActivatedAt old)
                                         (kv_RetiredAt old) (Some at_)]> (db_keys (cn_db c))) as HK by (rewrite <- E2; reflexivity).
  split; [split; [|split]|].
  - eexists. rewrite HK, lookup_insert_eq. split; [reflexivity|done].
  - intros other Hne. by rewrite HK, lookup_insert_ne.
  - intros other row. rewrite HA, map_lookup_filter_Some. cbn. by rewrite str_eqb_neq.
  - by apply (fewer_aliases (fun kv : string * AliasRow => (al_Key kv.2 =s id) = false)).
Qed.

Lemma put_alias_effect a d u d' : put_alias a d = Ok (u, d') -> unambiguous d -> unambiguous d' /\ db_keys d' = db_keys d.
Proof.
  unfold put_alias. destruct (identity_taken _ _) eqn:Hf; [by intros [= _ <-]|].
  intros (Hn & _ & ->)%insert_row_ok HU. split; [by apply fresh_alias|done].
Qed.

(** C26: rekeying replaces an alias as a whole, deleting a key takes its aliases with it, and losing
    a key keeps them.  Whatever fails and whatever others do before them: a rekeyed project has its
    new alias and not the old one, of the same project and source, and every other alias as it was;
    a deleted key has no alias left and is marked so, other keys and their aliases are as they were;
    a lost key is marked so, unless it is missing or was deleted, and no alias changes; an error
    leaves the store as it was, unless the answer to the COMMIT was lost; and no two rows ever share
    kind and digest of one source under one key. *)
Theorem aliases_exact world c :
  (forall n d, unambiguous d -> unambiguous (ou_others world n d)) -> unambiguous (cn_db c) ->
  (forall oldAliasID replacement r c', RekeyProjectAlias world oldAliasID replacement c = (r, c') ->
     unambiguous (cn_db c')
     /\ exists s, reached world (cn_db c) s
        /\ match r with
           | Ok _ => rekeyed oldAliasID replacement s (cn_db c')
           | Err e => cn_db c' = s \/ e = ErrDatabase "commit database transaction" "" /\ rekeyed oldAliasID replacement s (cn_db c')
           end)
  /\ (forall id at_ r c', DeleteKeyVersion world id at_ c = (r, c') ->
     unambiguous (cn_db c')
     /\ exists s, reached world (cn_db c) s
        /\ match r with
           | Ok _ => key_deleted id s (cn_db c')
           | Err e => cn_db c' = s \/ e = ErrDatabase "commit database transaction" "" /\ key_deleted id s (cn_db c')
           end)
  /\ (forall id at_ r c', MarkKeyLost world id at_ c = (r, c') ->
     unambiguous (cn_db c')
     /\ exists s, reached world (cn_db c) s
        /\ match r with
           | Ok _ => key_lost id at_ s (cn_db c')
           | Err e => cn_db c' = s /\ (e = ErrMessage "mark identity key lost" \/ e = ErrNotFound /\ key_gone id s)
           end)
  /\ (forall a r c', PutProjectAlias world a c = (r, c') -> unambiguous (cn_db c')).
Proof.
  intros HO HU.
  assert (forall s, reached world (cn_db c) s -> unambiguous s) as HR.
  { intros s Hs. revert HU. induction Hs as [|n d d' _ IH]; [done|]. intros H. by apply IH, HO. }
  split_and!.
  - intros old rep r c' (s & Hs & Hr)%withSerializable_atomic. specialize (HR s Hs).
    assert (forall o d', ran (rekey_tx world old rep) o s d' -> rekeyed old rep s d' /\ unambiguous d') as Hran.
    { intros o d' (n & u & n' & E & _). exact (rekey_effect world old rep (mkConn s n) u (mkConn d' n') HR E). }
    destruct r as [u|e].
    + apply Hran in Hr as [H1 H2]. split; [done|]. by exists s.
    + destruct Hr as [[-> _]|[-> [H1 H2]%Hran]]; (split; [done|]; exists s; split; [done|]); [by left|by right].
  - intros id at_ r c' (s & Hs & Hr)%withSerializable_atomic. specialize (HR s Hs).
    assert (forall o d', ran (delete_key_tx world id at_) o s d' -> key_deleted id s d' /\ unambiguous d') as Hran.
    { intros o d' (n & u & n' & E & _).
      destruct (delete_key_effect world id at_ (mkConn s n) u (mkConn d' n') E) as [H1 H2]. split; [done|by apply H2]. }
    destruct r as [u|e].
    + apply Hran in Hr as [H1 H2]. split; [done|]. by exists s.
    + destruct Hr as [[-> _]|[-> [H1 H2]%Hran]]; (split; [done|]; exists s; split; [done|]); [by left|by right].
  - intros id at_ r c' E. pose proof (reached_step world (cn_sent c) (cn_db c)) as Hs. specialize (HR _ Hs).
    set (s := ou_others world (cn_sent c) (cn_db c)) in *. unfold MarkKeyLost, tx_bind in E.
    destruct (pool _ _ _ c) as [r1 c1] eqn:E1. unfold pool in E1. fold s in E1.
    pose proof (lose_key_effect id at_ s) as HL.
    apply statement_exact in E1 as [(found & -> & E1)|(code & -> & E1)]; cbn [cn_db] in E1.
    + injection E1 as E1. rewrite E1 in HL. destruct found; injection E as <- <-.
      * split; [|by exists s]. destruct HL as [HA _]. intros id1 id2. rewrite HA. apply HR.
      * destruct HL as [-> Hg]. split; [done|]. exists s. auto.
    + injection E as <- <-. rewrite E1. split; [done|]. exists s. auto.
  - intros a r c' E. unfold PutProjectAlias, pool in E. apply statement_exact in E as [(u & -> & E)|(code & -> & ->)].
    + apply put_alias_effect in E; [apply E|]. cbn. by apply HO.
    + cbn. by apply HO.
Qed.

(** ** A concrete rekeying *)

Definition keyed (id key digest : string) : ProjectAlias := mkProjectAlias id "project" "source" key "path" digest 1.

Definition keyed_db : DB :=
  set_row db_aliases "old" (alias_row (keyed "old" "k1" "d1"))
    (set_row db_keys "k1" (mkKeyVersionRow "vault:1" "active" 0 (Some 0%Z) None None)
      (set_row db_keys "k2" (mkKeyVersionRow "vault:2" "active" 1 (Some 1%Z) None None)
        (set_row db_sources "source" (mkSourceRow "codex_jsonl" 0) (set_row db_projects "project" 0%Z empty_db)))).

Lemma keyed_db_unambiguous : unambiguous keyed_db.
Proof.
  intros id1 id2 r1 r2 H1 H2 _.
  assert (forall id r, db_aliases keyed_db !! id = Some r -> id = "old") as H.
  { intros id r. unfold keyed_db. rewrite (get_set_row db_aliases), lookup_insert_Some. intros [[<- _]|[_ H]]; [done|].
    vm_compute in H. by destruct id. }
  by rewrite (H _ _ H1), (H _ _ H2).
Qed.

#[local] Abbreviation rekeyed_run := (RekeyProjectAlias calm "old" (keyed "new" "k2" "d2") (mkConn keyed_db 0)).

Example aliases_exact_witness :
  rekeyed_run.1 = Ok tt /\ unambiguous (cn_db rekeyed_run.2)
  /\ exists s, reached calm keyed_db s /\ rekeyed "old" (keyed "new" "k2" "d2") s (cn_db rekeyed_run.2).
Proof.
  assert (rekeyed_run.1 = Ok tt) as E by (vm_compute; reflexivity). split; [exact E|].
  pose proof (proj1 (aliases_exact calm (mkConn keyed_db 0) (fun _ _ H => H) keyed_db_unambiguous) "old"
                (keyed "new" "k2" "d2") _ _ (surjective_pairing _)) as H.
  rewrite E in H. exact H.
Defined.

(** Only the new alias is left; losing the key keeps it, deleting the key removes it; another
    project is refused. *)
Example after_rekeying :
  dom (db_aliases (cn_db rekeyed_run.2)) = {["new"]}
  /\ dom (db_aliases (cn_db (MarkKeyLost calm "k2" 9 rekeyed_run.2).2)) = {["new"]}
  /\ dom (db_aliases (cn_db (DeleteKeyVersion calm "k2" 9 rekeyed_run.2).2)) = ∅
  /\ (RekeyProjectAlias calm "old" (mkProjectAlias "new" "other" "source" "k2" "path" "d2" 1) (mkConn keyed_db 0)).1
     = Err (ErrMessage "rekey scope mismatch").
Proof. split_and!; vm_compute; reflexivity. Qed.

(** A digest of one source under one key in two rows, of two kinds. *)
Example two_kinds :
  dom (db_aliases (cn_db (PutProjectAlias calm (mkProjectAlias "other" "project" "source" "k1" "remote" "d1" 2) (mkConn keyed_db 0)).2))
  = {["old"; "other"]}.
Proof. vm_compute. reflexivity. Qed.
