(* ===== verification/Versions.v ===== *)
(** * Versioned dimensions (internal/store/postgres/repository.go, internal/dimensions)

    Projects and sources have a history of versions, each valid from an instant until the next
    one.  The definitions are the statements of [PutProject], [PutSource], [projectVersion] and
    [sourceVersion]; the specification is a timeline, the list of changes in order.

    Instants are in nanoseconds; a timestamptz has microseconds, and [micros] is what is sent of an
    instant, while the code compares the instant itself.

    [sha256] is SHA-256: an argument. *)
From Stdlib Require Import Ascii.
From S2P Require Import Contracts GoInt Transactions Tables.

(** What is hashed: every part after its length. *)
Fixpoint dimension_bytes (parts : list string) : string :=
  match parts with
  | [] => ""
  | part :: rest => big_endian 8 (u64 (str_len part)) +:+ part +:+ dimension_bytes rest
  end.

Record Project := mkProject {
  pj_ID : string; pj_VersionID : string; pj_CreatedAt : Z; pj_EffectiveAt : Z;
  pj_Classification : string; pj_LifecycleState : string
}.

Record Source := mkSource {
  so_ID : string; so_VersionID : string; so_SourceKind : string; so_AdapterVersion : option string;
  so_ProductSurface : string; so_CoverageState : string; so_Enabled : bool; so_Created : Z; so_EffectiveAt : Z
}.

(** An instant as the driver sends it to a timestamptz: what is finer than a microsecond is cut off. *)
Definition micros (t : Z) : Z := (t / 1000 * 1000)%Z.

Definition check_violation : string := "23514".

Section Dimensions.
Context (sha256 : string -> string) (world : Outside DB).

Definition dimensionHash (parts : list string) : string := sha256 (dimension_bytes parts).

Section Generic.
Context {A : Type} (get : DB -> gmap string (Version A)) `{!Table get} (noun : string)
        (known : string -> DB -> bool).

(** WHERE the owner is [owner] and valid_to IS NULL. *)
Definition is_current (owner : string) (v : Version A) : bool :=
  (ve_Owner v =s owner) && bool_decide (ve_To v = None).

(** WHERE valid_from <= t AND (valid_to > t OR valid_to IS NULL). *)
Definition is_valid_at (owner : string) (t : Z) (v : Version A) : bool :=
  (ve_Owner v =s owner) && (ve_From v <=? t)%Z
  && match ve_To v with None => true | Some e => (t <? e)%Z end.

(** The first row that a query gives. *)
Definition select (p : Version A -> bool) (d : DB) : option (string * Version A) :=
  find_first (fun kv => p kv.2) (map_to_list (get d)).

Definition close_version (id : string) (at_ : Z) (d : DB) : DB :=
  match get d !! id with
  | None => d
  | Some v => set_row get id (mkVersion (ve_Owner v) (ve_Number v) (ve_Value v) (ve_Hash v) (ve_From v) (Some at_)) d
  end.

(** The transaction of [PutProject] and [PutSource] after the identity is there.  The range of the
    version that is closed must not be empty (the CHECK of migrations/00004_constraints.sql), which
    it would be if the two instants are in one microsecond. *)
Definition put_version (owner versionID : string) (value : A) (hash : string) (effectiveAt : Z) : Tx DB unit :=
  let persist number :=
    exec world ("persist " +:+ noun +:+ " dimension")
      (fun _ => insert_row get versionID (mkVersion owner number value hash (micros effectiveAt) None) (known owner)) in
  do! current := query world ("read current " +:+ noun +:+ " dimension") (fun _ => select (is_current owner)) in
  match current with
  | None => persist 1%Z
  | Some (currentID, v) =>
      if ve_Hash v =s hash then tx_ret tt
      else
        fail_if! negb (ve_From v <? effectiveAt)%Z with ErrInvalidEffectiveTime in
        do! _ := exec world ("close " +:+ noun +:+ " dimension")
                   (fun _ d => if (ve_From v <? micros effectiveAt)%Z
                               then Ok (tt, close_version currentID (micros effectiveAt) d) else Err check_violation) in
        persist (i64_add (ve_Number v) 1)
  end.

Definition read_version (message : string) (p : Version A -> bool) : Tx DB (string * Version A) :=
  do! found := pool_query world message (fun _ => select p) in
  match found with
  | None => tx_err ErrNotFound
  | Some row => tx_ret row
  end.
End Generic.

Definition project_known (id : string) (d : DB) : bool := refers db_projects id d.
Definition source_known (id : string) (d : DB) : bool := refers db_sources id d.

Definition project_attributes (p : Project) : ProjectAttributes :=
  mkProjectAttributes (pj_Classification p) (pj_LifecycleState p).

Definition project_hash (a : ProjectAttributes) : string :=
  dimensionHash [pa_Classification a; pa_LifecycleState a].

Definition put_project_tx (p : Project) : Tx DB unit :=
  do! _ := exec world "persist project identity"
             (fun _ => insert_once db_projects (pj_ID p) (pj_CreatedAt p) (fun _ => true)) in
  put_version db_project_versions "project" project_known (pj_ID p) (pj_VersionID p) (project_attributes p)
    (project_hash (project_attributes p)) (pj_EffectiveAt p).

Definition PutProject (p : Project) : Tx DB unit := withSerializable world (Some (put_project_tx p)).

Definition source_attributes (s : Source) : SourceAttributes :=
  mkSourceAttributes (so_AdapterVersion s) (so_ProductSurface s) (so_CoverageState s) (so_Enabled s).

Definition source_hash (a : SourceAttributes) : string :=
  dimensionHash [default "" (sa_AdapterVersion a); sa_ProductSurface a; sa_CoverageState a; fmt_t (sa_Enabled a)].

Definition put_source_tx (s : Source) : Tx DB unit :=
  do! _ := exec world "persist source identity"
             (fun _ => insert_once db_sources (so_ID s) (mkSourceRow (so_SourceKind s) (so_Created s)) (fun _ => true)) in
  put_version db_source_versions "source" source_known (so_ID s) (so_VersionID s) (source_attributes s)
    (source_hash (source_attributes s)) (so_EffectiveAt s).

Definition PutSource (s : Source) : Tx DB unit := withSerializable world (Some (put_source_tx s)).

(** [projectVersion]: the open version, or the one in effect at an instant. *)
Definition projectVersion (projectID : string) (eventAt : option Z) : Tx DB (string * Version ProjectAttributes) :=
  read_version db_project_versions "read project version"
    (match eventAt with None => is_current projectID | Some t => is_valid_at projectID (micros t) end).

Definition CurrentProject (projectID : string) := projectVersion projectID None.
Definition ProjectAsOf (projectID : string) (eventAt : Z) := projectVersion projectID (Some eventAt).

Definition sourceVersion (sourceID : string) (eventAt : option Z) : Tx DB (string * Version SourceAttributes) :=
  read_version db_source_versions "read source version"
    (match eventAt with None => is_current sourceID | Some t => is_valid_at sourceID (micros t) end).

Definition CurrentSource (sourceID : string) := sourceVersion sourceID None.
Definition SourceAsOf (sourceID : string) (eventAt : Z) := sourceVersion sourceID (Some eventAt).
End Dimensions.

(** ** The specification: a timeline of changes *)

Section Timeline.
Context {A : Type} (hash : A -> string).

(** The changes of a dimension, oldest first: when, and to what. *)
Abbreviation Timeline := (list (Z * A)).

(** What an observation does to a timeline: nothing when nothing changes, one more change when it
    is later than the last, by microseconds, and it is refused otherwise. *)
Definition advance (tl : Timeline) (t : Z) (a : A) : option Timeline :=
  match last tl with
  | None => Some [(micros t, a)]
  | Some (last_t, b) =>
      if hash b =s hash a then Some tl
      else if (last_t <? micros t)%Z then Some (tl ++ [(micros t, a)]) else None
  end.

(** The change in effect at an instant: the last one that is not later. *)
Definition as_of (tl : Timeline) (t : Z) : option (Z * A) := last (filter (fun c => (c.1 <= t)%Z) tl).

Definition next_number (n : Z) : Z := i64_add n 1.

(** The versions of a timeline, numbered from [n], the last one ending at [final]. *)
Fixpoint history (owner : string) (n : Z) (tl : Timeline) (final : option Z) : list (Version A) :=
  match tl with
  | [] => []
  | (t, a) :: rest =>
      mkVersion owner n a (hash a) t (match rest with [] => final | (t', _) :: _ => Some t' end)
      :: history owner (next_number n) rest final
  end.

Definition chronological (tl : Timeline) : Prop := StronglySorted Z.lt (fst <$> tl).

Lemma history_snoc owner n tl t a final :
  history owner n (tl ++ [(t, a)]) final
  = history owner n tl (Some t) ++ [mkVersion owner (Nat.iter (length tl) next_number n) a (hash a) t final].
Proof.
  revert n. induction tl as [|[t0 a0] tl IH]; intros n; [done|].
  cbn [history app length]. rewrite IH. cbn [app]. rewrite <- Nat.iter_succ_r. f_equal.
  destruct tl as [|[t1 a1] tl]; done.
Qed.

Lemma history_owner owner n tl final v : v ∈ history owner n tl final -> ve_Owner v = owner.
Proof.
  revert n. induction tl as [|[t a] tl IH]; intros n; cbn [history]; [by intros H%not_elem_of_nil|].
  intros [-> |H]%elem_of_cons; [done|]. by apply IH in H.
Qed.

Lemma history_from owner n tl final v :
  v ∈ history owner n tl final -> (ve_From v, ve_Value v) ∈ tl /\ ve_Hash v = hash (ve_Value v).
Proof.
  revert n. induction tl as [|[t a] tl IH]; intros n; cbn [history]; [by intros H%not_elem_of_nil|].
  intros [-> |H]%elem_of_cons; [split; [left|done]|]. apply IH in H as [? ?]. split; [by right|done].
Qed.

Lemma chronological_snoc tl t a : chronological (tl ++ [(t, a)]) <-> chronological tl /\ Forall (fun c => (c.1 < t)%Z) tl.
Proof.
  unfold chronological. rewrite fmap_app. cbn [fmap list_fmap fst]. split.
  - intros (H3 & H1 & _)%StronglySorted_app. split; [done|]. apply Forall_forall. intros c Hc.
    apply (H3 c.1 t); [by apply list_elem_of_fmap_2|left].
  - intros [H1 H2]. apply StronglySorted_app. split; [|by repeat constructor].
    intros x y (c & -> & Hc)%list_elem_of_fmap ->%list_elem_of_singleton. by apply (proj1 (Forall_forall _ _) H2).
Qed.

(** Every version but the last one is closed, by a change of the timeline. *)
Lemma history_closed owner n tl t v :
  chronological tl -> Forall (fun c => (c.1 < t)%Z) tl ->
  v ∈ history owner n tl (Some t) -> exists e, ve_To v = Some e /\ (ve_From v < e)%Z /\ (e <= t)%Z.
Proof.
  intros HC HF. revert n t HF. induction tl as [|[t0 a0] tl IH] using rev_ind; intros n t HF.
  { cbn. by intros ?%not_elem_of_nil. }
  apply chronological_snoc in HC as [HC HL]. apply Forall_app in HF as [_ [HF _]%Forall_cons].
  rewrite history_snoc. intros [H| ->%list_elem_of_singleton]%elem_of_app; cbn in *.
  - destruct (IH HC n t0 HL H) as (e & He & Hlt & Hle). exists e. repeat split; [done|done|]. lia.
  - by exists t.
Qed.
End Timeline.

(** ** The table of versions holds timelines *)

Section Represents.
Context {A : Type} (hash : A -> string) (get : DB -> gmap string (Version A)) `{!Table get}.

Definition owned (owner : string) (d : DB) : list (Version A) :=
  snd <$> filter (fun kv => ve_Owner kv.2 = owner) (map_to_list (get d)).

(** The rows of every owner are the versions of its timeline. *)
Definition holds_timelines (d : DB) (T : string -> list (Z * A)) : Prop :=
  forall owner, owned owner d ≡ₚ history hash owner 1 (T owner) None /\ chronological (T owner).

Lemma elem_of_owned owner d v : v ∈ owned owner d <-> ve_Owner v = owner /\ exists id, get d !! id = Some v.
Proof.
  unfold owned. rewrite list_elem_of_fmap. split.
  - intros ([id v'] & -> & [HP H]%list_elem_of_filter). split; [done|]. exists id. by apply elem_of_map_to_list.
  - intros [HP [id H]]. exists (id, v). split; [done|]. apply list_elem_of_filter. split; [done|].
    by apply elem_of_map_to_list.
Qed.

Lemma holds_elem d T owner v :
  holds_timelines d T ->
  v ∈ history hash owner 1 (T owner) None <-> ve_Owner v = owner /\ exists id, get d !! id = Some v.
Proof. intros H. destruct (H owner) as [HP _]. by rewrite <- HP, elem_of_owned. Qed.

Lemma holds_row d T id v : holds_timelines d T -> get d !! id = Some v ->
  v ∈ history hash (ve_Owner v) 1 (T (ve_Owner v)) None.
Proof. intros H Hv. apply (holds_elem d T _ v H). eauto. Qed.

(** What a query for rows of an owner gives: a row of the table that satisfies it, or none of the
    versions does. *)
Lemma select_spec d T owner (p : Version A -> bool) :
  holds_timelines d T -> (forall v, p v = true -> ve_Owner v = owner) ->
  match select get p d with
  | Some (id, v) => get d !! id = Some v /\ p v = true /\ v ∈ history hash owner 1 (T owner) None
  | None => forall v, v ∈ history hash owner 1 (T owner) None -> p v = false
  end.
Proof.
  intros H Hp. unfold select.
  destruct (find_first _ _) as [[id v]|] eqn:E.
  - apply find_first_Some in E as [Hin Hpv]. apply elem_of_map_to_list in Hin. cbn in Hpv.
    split; [done|]. split; [done|]. apply (holds_elem d T owner v H). eauto.
  - intros v [Ho [id Hid]]%(holds_elem d T owner v H).
    apply (find_first_None _ _ (id, v) E). by apply elem_of_map_to_list.
Qed.

Lemma owned_lookup owner d id v :
  get d !! id = Some v ->
  owned owner d
  ≡ₚ (if decide (ve_Owner v = owner) then [v] else [])
     ++ (snd <$> filter (fun kv => ve_Owner kv.2 = owner) (map_to_list (base.delete id (get d)))).
Proof.
  intros H. unfold owned. rewrite <- (map_to_list_delete (get d) id v H), filter_cons. cbn.
  by destruct (decide _).
Qed.

(** A row put under a new key, or in the place of another one of the same owner. *)
Lemma owned_set_row owner d id v :
  owned owner (set_row get id v d)
  ≡ₚ (if decide (ve_Owner v = owner) then [v] else [])
     ++ (snd <$> filter (fun kv => ve_Owner kv.2 = owner) (map_to_list (base.delete id (get d)))).
Proof.
  rewrite (owned_lookup owner _ id v) by (rewrite get_set_row; apply lookup_insert_eq).
  by rewrite get_set_row, delete_insert_eq.
Qed.

Lemma owned_fresh owner d id v :
  get d !! id = None ->
  owned owner (set_row get id v d) ≡ₚ (if decide (ve_Owner v = owner) then [v] else []) ++ owned owner d.
Proof. intros H. by rewrite owned_set_row, delete_id. Qed.

(** The open version is the last one. *)
Lemma current_spec d T owner :
  holds_timelines d T ->
  match select get (is_current owner) d with
  | Some (id, v) =>
      get d !! id = Some v
      /\ exists tl t a, T owner = tl ++ [(t, a)]
           /\ v = mkVersion owner (Nat.iter (length tl) next_number 1%Z) a (hash a) t None
  | None => T owner = []
  end.
Proof.
  intros H. assert (forall v, is_current (A:=A) owner v = true -> ve_Owner v = owner) as Hp.
  { intros v. unfold is_current, str_eqb. intros [?%bool_decide_eq_true _]%andb_true_iff. done. }
  pose proof (select_spec d T owner _ H Hp) as HS. destruct (H owner) as [_ HC]. clear H.
  destruct (T owner) as [|[t a] tl _] eqn:ET using rev_ind.
  - destruct (select _ _ _) as [[id v]|]; [|done]. destruct HS as (_ & _ & ?%not_elem_of_nil). done.
  - apply chronological_snoc in HC as [HC HF]. rewrite history_snoc in HS.
    destruct (select _ _ _) as [[id v]|].
    + destruct HS as (Hid & Hv & HI). split; [done|]. exists tl, t, a. split; [done|].
      apply elem_of_app in HI as [HI|HI%list_elem_of_singleton]; [|done]. exfalso.
      destruct (history_closed hash owner 1 tl t v HC HF HI) as (e & He & _).
      unfold is_current in Hv. rewrite He in Hv. apply andb_true_iff in Hv as [_ Hv]. done.
    + exfalso. specialize (HS _ ltac:(apply elem_of_app; right; left)). unfold is_current, str_eqb in HS.
      cbn in HS. rewrite !bool_decide_true in HS by done. done.
Qed.

Definition with_timeline (T : string -> list (Z * A)) (owner : string) (tl : list (Z * A)) : string -> list (Z * A) :=
  fun o => if decide (o = owner) then tl else T o.

Lemma holds_first d T owner id t a :
  holds_timelines d T -> T owner = [] -> get d !! id = None ->
  holds_timelines (set_row get id (mkVersion owner 1 a (hash a) t None) d) (with_timeline T owner [(t, a)]).
Proof.
  intros H HT Hid o. rewrite owned_fresh by done. unfold with_timeline. cbn [ve_Owner].
  destruct (H o) as [HP HC]. destruct (decide (o = owner)) as [-> |Ho].
  - rewrite decide_True, HP, HT by done. split; [done|repeat constructor].
  - by rewrite decide_False by congruence.
Qed.

(** Closing the open version and adding the next one. *)
Lemma holds_append d T owner tl t a id id' t' a' :
  let v := mkVersion owner (Nat.iter (length tl) next_number 1%Z) a (hash a) t None in
  let d1 := close_version get id t' d in
  holds_timelines d T -> T owner = tl ++ [(t, a)] -> get d !! id = Some v -> (t < t')%Z ->
  get d1 !! id' = None ->
  holds_timelines (set_row get id' (mkVersion owner (next_number (ve_Number v)) a' (hash a') t' None) d1)
    (with_timeline T owner (tl ++ [(t, a)] ++ [(t', a')])).
Proof.
  cbn zeta. set (v := mkVersion _ _ a _ _ _). intros H HT Hid Hlt Hid' o. rewrite owned_fresh by done.
  unfold close_version. rewrite Hid, owned_set_row. cbn [ve_Owner v].
  destruct (H o) as [HP HC]. rewrite (owned_lookup o d id v Hid) in HP. unfold with_timeline.
  destruct (decide (o = owner)) as [-> |Ho]; cbn [ve_Owner v] in HP.
  - rewrite HT in HP, HC. rewrite history_snoc, Permutation_app_comm in HP.
    rewrite !decide_True in * by done. apply (Permutation_app_inv_r [v]) in HP. split.
    + rewrite (app_assoc tl), !history_snoc. cbn [app ve_Number]. rewrite HP, length_app. cbn [length].
      rewrite Nat.add_1_r. cbn [Nat.iter nat_rect]. solve_Permutation.
    + rewrite (app_assoc tl). apply chronological_snoc. split; [done|].
      apply chronological_snoc in HC as [_ HF]. apply Forall_app. split; [|by repeat constructor].
      eapply Forall_impl; [exact HF|]. cbn. lia.
  - by rewrite !decide_False in * by congruence.
Qed.

Lemma holds_ext d d' T : get d' = get d -> holds_timelines d T -> holds_timelines d' T.
Proof. intros E H o. unfold owned. rewrite E. apply H. Qed.

Lemma holds_same d T owner : holds_timelines d T -> holds_timelines d (with_timeline T owner (T owner)).
Proof. intros H o. unfold with_timeline. destruct (decide (o = owner)) as [-> |_]; apply H. Qed.

Lemma micros_le t : (micros t <= t)%Z.
Proof. unfold micros. pose proof (Z.mod_pos_bound t 1000 ltac:(lia)). pose proof (Z.div_mod t 1000 ltac:(lia)). lia. Qed.

(** What one run of the statements does to the timelines. *)
Lemma put_version_spec (world : Outside DB) noun known owner id a t c r c' T :
  holds_timelines (cn_db c) T ->
  put_version world get noun known owner id a (hash a) t c = (r, c') ->
  match r with
  | Ok _ => exists tl, advance hash (T owner) t a = Some tl
            /\ holds_timelines (cn_db c') (with_timeline T owner tl)
  | Err ErrInvalidEffectiveTime => advance hash (T owner) t a = None
  | Err e => exists operation code, e = ErrDatabase operation code
  end.
Proof.
  intros H. unfold put_version, tx_bind, query, exec.
  destruct (statement _ _ _ c) as [r1 c1] eqn:E1. apply statement_exact in E1 as [(cur & -> & [= <- Hc1])|(code & -> & _)];
    [|intros [= <- <-]; eauto]. rewrite Hc1 in H |- *. clear Hc1 c.
  pose proof (current_spec (cn_db c1) T owner H) as HS.
  destruct (select _ _ _) as [[cid v]|].
  - destruct HS as (Hid & tl & t0 & a0 & HT & ->). cbn [ve_Hash ve_From ve_Number].
    unfold advance. rewrite HT, last_snoc. destruct (hash a0 =s hash a) eqn:Hh.
    { intros [= <- <-]. eexists. split; [done|]. rewrite <- HT. by apply holds_same. }
    pose proof (micros_le t) as Hm. destruct (t0 <? t)%Z eqn:Hlt; cbn [negb].
    2:{ intros [= <- <-]. apply Z.ltb_ge in Hlt. by rewrite (proj2 (Z.ltb_ge _ _)) by lia. }
    destruct (statement _ _ _ c1) as [r2 c2] eqn:E2.
    apply statement_exact in E2 as [(u & -> & E2)|(code & -> & _)]; [|intros [= <- <-]; eauto].
    destruct (t0 <? micros t)%Z eqn:Hlt2; [injection E2 as _ Hc2|discriminate E2]. apply Z.ltb_lt in Hlt2.
    destruct (statement _ _ _ c2) as [r3 c3] eqn:E3. intros [= <- <-].
    apply statement_exact in E3 as [(u' & -> & H3)|(code & -> & _)]; [|eauto].
    apply insert_row_ok in H3 as (Hfresh & _ & ->). rewrite <- Hc2 in Hfresh |- *. eexists. split; [done|].
    rewrite <- (app_assoc tl). by apply (holds_append (cn_db c1) T owner tl t0 a0 cid id (micros t) a).
  - unfold advance. rewrite HS. cbn [last].
    destruct (statement _ _ _ c1) as [r2 c2] eqn:E2. intros [= <- <-].
    apply statement_exact in E2 as [(u & -> & H2)|(code & -> & _)]; [|eauto].
    apply insert_row_ok in H2 as (Hfresh & _ & ->). eexists. split; [done|]. by apply holds_first.
Qed.
End Represents.

(** ** Reading a version as of an instant *)

Section AsOf.
Context {A : Type} (hash : A -> string).

Lemma as_of_snoc (tl : list (Z * A)) c t :
  as_of (tl ++ [c]) t = if (c.1 <=? t)%Z then Some c else as_of tl t.
Proof.
  unfold as_of. rewrite filter_app, filter_cons, filter_nil.
  destruct (Z.leb_spec c.1 t); [rewrite decide_True by done; by rewrite last_snoc|].
  rewrite decide_False by lia. by rewrite app_nil_r.
Qed.

Definition valid_at (t : Z) (v : Version A) : Prop :=
  (ve_From v <= t)%Z /\ match ve_To v with None => True | Some e => (t < e)%Z end.

Lemma is_valid_at_spec owner t v : is_valid_at owner t v = true <-> ve_Owner v = owner /\ valid_at t v.
Proof.
  unfold is_valid_at, valid_at. rewrite !andb_true_iff, str_eqb_eq, Z.leb_le.
  destruct (ve_To v); rewrite ?Z.ltb_lt; naive_solver.
Qed.

(** The ranges of the versions of a timeline do not overlap: one that is valid at an instant is
    the change in effect then. *)
Lemma history_valid owner n tl final t v :
  chronological tl -> v ∈ history hash owner n tl final -> valid_at t v -> as_of tl t = Some (ve_From v, ve_Value v).
Proof.
  revert final. induction tl as [|[t0 a0] tl IH] using rev_ind; intros final HC.
  { cbn. by intros ?%not_elem_of_nil. }
  apply chronological_snoc in HC as [HC HF]. rewrite history_snoc, as_of_snoc. cbn [fst].
  intros [HI| ->%list_elem_of_singleton]%elem_of_app [Hf Ht].
  - destruct (history_closed hash owner n tl t0 v HC HF HI) as (e & He & Hlt & Hle).
    pose proof Ht as Ht'. rewrite He in Ht'. destruct (Z.leb_spec t0 t); [lia|]. by apply (IH (Some t0)).
  - cbn in *. by destruct (Z.leb_spec t0 t); [|lia].
Qed.

Lemma valid_history owner n tl final t c :
  as_of tl t = Some c -> match final with None => True | Some e => (t < e)%Z end ->
  exists v, v ∈ history hash owner n tl final /\ valid_at t v.
Proof.
  revert final. induction tl as [|[t0 a0] tl IH] using rev_ind; intros final; [done|].
  rewrite history_snoc, as_of_snoc. cbn [fst]. destruct (Z.leb_spec t0 t) as [Hle|Hlt]; intros Ha Hf.
  - eexists. split; [apply elem_of_app; right; left|]. by split.
  - destruct (IH (Some t0) Ha Hlt) as (v & Hv & Hvt). exists v. split; [|done]. apply elem_of_app. by left.
Qed.

Context (get : DB -> gmap string (Version A)) `{!Table get}.

Definition extends (T T' : string -> list (Z * A)) : Prop := forall o, T o `prefix_of` T' o.

#[export] Instance extends_preorder : PreOrder extends.
Proof. split; [intros T o; reflexivity|]. intros T1 T2 T3 H1 H2 o. etrans; [apply H1|apply H2]. Qed.

(** Other connections keep timelines and only add to them. *)
Definition keeps_timelines (world : Outside DB) : Prop :=
  forall n d T, holds_timelines hash get d T ->
  exists T', holds_timelines hash get (ou_others world n d) T' /\ extends T T'.

Lemma reached_timelines world d d' T :
  keeps_timelines world -> reached world d d' -> holds_timelines hash get d T ->
  exists T', holds_timelines hash get d' T' /\ extends T T'.
Proof.
  intros HK HR. revert T. induction HR as [|n d d' HR IH]; intros T H; [by exists T|].
  destruct (HK n d T H) as (T1 & H1 & E1). destruct (IH T1 H1) as (T2 & H2 & E2).
  exists T2. split; [done|by etrans].
Qed.

Lemma read_version_spec world message (p : Version A -> bool) owner c r c' T :
  keeps_timelines world -> holds_timelines hash get (cn_db c) T ->
  (forall v, p v = true -> ve_Owner v = owner) ->
  read_version world get message p c = (r, c') ->
  exists T', extends T T' /\ holds_timelines hash get (cn_db c') T' /\
  match r with
  | Ok (id, v) => get (cn_db c') !! id = Some v /\ p v = true /\ v ∈ history hash owner 1 (T' owner) None
  | Err ErrNotFound => forall v, v ∈ history hash owner 1 (T' owner) None -> p v = false
  | Err e => e = ErrMessage message
  end.
Proof.
  intros HK H Hp. unfold read_version, tx_bind, pool_query, pool.
  destruct (statement _ _ _ _) as [r1 c1] eqn:E1.
  destruct (HK (cn_sent c) (cn_db c) T H) as (T' & H' & HE).
  apply statement_exact in E1 as [(found & -> & [= <- Hc])|(code & -> & Hc)].
  - cbn [cn_db] in Hc. rewrite Hc in H' |- *. pose proof (select_spec hash get _ T' owner p H' Hp) as HS.
    destruct (select _ _ _) as [[id v]|]; intros [= <- <-]; exists T'; (split; [done|]; split; [done|exact HS]).
  - cbn [cn_db] in Hc. intros [= <- <-]. exists T'. by rewrite Hc.
Qed.

(** The version of an owner at an instant is the change in effect then. *)
Lemma read_as_of world message owner t c r c' T :
  keeps_timelines world -> holds_timelines hash get (cn_db c) T ->
  read_version world get message (is_valid_at owner t) c = (r, c') ->
  exists T', extends T T' /\ holds_timelines hash get (cn_db c') T' /\
  match r with
  | Ok (id, v) => as_of (T' owner) t = Some (ve_From v, ve_Value v)
  | Err ErrNotFound => as_of (T' owner) t = None
  | Err e => e = ErrMessage message
  end.
Proof.
  intros HK H HR.
  assert (forall v, is_valid_at (A:=A) owner t v = true -> ve_Owner v = owner) as Hp by (by intros v [? _]%is_valid_at_spec).
  destruct (read_version_spec world message _ owner c r c' T HK H Hp HR) as (T' & HE & H' & Hr).
  exists T'. split; [done|]. split; [done|]. destruct (H' owner) as [_ HC].
  destruct r as [[id v]|e].
  - destruct Hr as (_ & [_ Hv]%is_valid_at_spec & HI). by apply (history_valid owner 1 (T' owner) None).
  - destruct e; try done. destruct (as_of (T' owner) t) as [c1|] eqn:E; [|done]. exfalso.
    destruct (valid_history owner 1 (T' owner) None t c1 E I) as (v & HI & Hv).
    specialize (Hr v HI). apply not_true_iff_false in Hr. apply Hr, is_valid_at_spec.
    split; [by apply history_owner in HI|done].
Qed.
End AsOf.

(** ** The calls *)

Section Puts.
Context {A : Type} (hash : A -> string) (get : DB -> gmap string (Version A)) `{!Table get} (world : Outside DB).

(** The outcomes of a call that puts one observation: the timeline advances, the observation is
    refused and nothing changes, or the server failed and the observation was taken or not. *)
Definition put_outcome (owner : string) (t : Z) (a : A) (T : string -> list (Z * A))
    (r : result StoreError unit) (d' : DB) : Prop :=
  let advanced tl := advance hash (T owner) t a = Some tl /\ holds_timelines hash get d' (with_timeline T owner tl) in
  match r with
  | Ok _ => exists tl, advanced tl
  | Err ErrInvalidEffectiveTime => advance hash (T owner) t a = None /\ holds_timelines hash get d' T
  | Err e => (exists operation code, e = ErrDatabase operation code)
             /\ (holds_timelines hash get d' T \/ exists tl, advanced tl)
  end.

Lemma put_call_spec (identify : nat -> DB -> result string (unit * DB)) operation noun known owner id t a c r c' T :
  keeps_timelines hash get world ->
  (forall n d u d', identify n d = Ok (u, d') -> get d' = get d) ->
  holds_timelines hash get (cn_db c) T ->
  withSerializable world
    (Some (do! _ := exec world operation identify in
           put_version world get noun known owner id a (hash a) t)) c = (r, c') ->
  exists T', extends T T' /\ put_outcome owner t a T' r (cn_db c').
Proof.
  intros HK HI H (s & Hs & Hr)%withSerializable_atomic.
  destruct (reached_timelines hash get world _ _ T HK Hs H) as (T' & H' & HE). exists T'. split; [done|].
  assert (forall u d1, ran (do! _ := exec world operation identify in
            put_version world get noun known owner id a (hash a) t) u s d1 ->
          exists tl, advance hash (T' owner) t a = Some tl
            /\ holds_timelines hash get d1 (with_timeline T' owner tl)) as Hran.
  { intros u d1 (n & x & n' & HR & _). unfold tx_bind, exec in HR.
    destruct (statement _ _ _ _) as [r1 c1] eqn:E1.
    apply statement_exact in E1 as [(y & -> & E1)|(code & -> & _)]; [|done].
    apply HI in E1. cbn [cn_db] in E1. apply (holds_ext hash get _ _ _ E1) in H'.
    by apply (put_version_spec hash get world noun known owner id a t c1 _ _ T' H') in HR. }
  unfold put_outcome. destruct r as [u|e]; [by apply (Hran (Some u))|].
  assert (e = ErrInvalidEffectiveTime /\ advance hash (T' owner) t a = None
            /\ holds_timelines hash get (cn_db c') T'
          \/ (exists operation code, e = ErrDatabase operation code)
             /\ (holds_timelines hash get (cn_db c') T'
                 \/ exists tl, advance hash (T' owner) t a = Some tl
                      /\ holds_timelines hash get (cn_db c') (with_timeline T' owner tl))) as HE'.
  { destruct Hr as [[-> Hrep]|[-> Hr]]; [|right; split; [eauto|right; by apply (Hran None)]].
    destruct Hrep as [Hd|(n & c1 & HR)]; [right; eauto|]. unfold tx_bind, exec in HR.
    destruct (statement _ _ _ _) as [r1 c2] eqn:E1.
    apply statement_exact in E1 as [(y & -> & E1)|(code & -> & _)]; [|right; injection HR as <-; eauto].
    apply HI in E1. cbn [cn_db] in E1. pose proof (holds_ext hash get _ _ _ E1 H') as H2.
    pose proof (put_version_spec hash get world noun known owner id a t c2 _ _ T' H2 HR) as Hp.
    destruct e; try (by destruct Hp as (? & ? & ?)); [by left|right; eauto]. }
  destruct HE' as [(-> & ? & ?)|[(op & code & ->) ?]]; [done|]. eauto.
Qed.
End Puts.

(** ** Observations (internal/dimensions/dimensions.go) *)

Record ProjectObservation := mkProjectObservation {
  pob_ID : string; pob_VersionID : string; pob_CreatedAt : Z; pob_EventAt : option Z; pob_IngestedAt : Z;
  pob_Classification : string; pob_LifecycleState : string
}.

Record SourceObservation := mkSourceObservation {
  sob_ID : string; sob_VersionID : string; sob_Kind : string; sob_AdapterVersion : option string;
  sob_ProductSurface : string; sob_CoverageState : string; sob_Enabled : bool; sob_CreatedAt : Z;
  sob_EventAt : option Z; sob_IngestedAt : Z
}.

Record Outcome := mkOutcome {
  oc_State : string; oc_Reason : string; oc_EventAt : option Z; oc_IngestedAt : Z
}.

Inductive DimensionError :=
  | ErrUnknownEventTime
  | ErrRepository (error : StoreError).

(** The common part of [PutProject] and [PutSource] of the package: [put] is the call of the
    repository at the time of the event. *)
Definition observe {S : Type} (eventAt : option Z) (ingestedAt : Z)
    (put : Z -> S -> result StoreError unit * S) (s : S) : Outcome * option DimensionError * S :=
  let outcome state reason := mkOutcome state reason eventAt ingestedAt in
  match eventAt with
  | None => (outcome "quarantined" "unknown_event_time", Some ErrUnknownEventTime, s)
  | Some at_ =>
      match put at_ s with
      | (Err ErrInvalidEffectiveTime, s) =>
          (outcome "quarantined" "late_or_out_of_order", Some (ErrRepository ErrInvalidEffectiveTime), s)
      | (Err e, s) => (outcome "quarantined" "repository_failure", Some (ErrRepository e), s)
      | (Ok _, s) => (outcome "applied_or_identical" "", None, s)
      end
  end.

Definition observed_project (o : ProjectObservation) (at_ : Z) : Project :=
  mkProject (pob_ID o) (pob_VersionID o) (pob_CreatedAt o) at_ (pob_Classification o) (pob_LifecycleState o).

Definition observed_source (o : SourceObservation) (at_ : Z) : Source :=
  mkSource (sob_ID o) (sob_VersionID o) (sob_Kind o) (sob_AdapterVersion o) (sob_ProductSurface o)
    (sob_CoverageState o) (sob_Enabled o) (sob_CreatedAt o) at_.

Definition observe_project {S : Type} (repository : Project -> S -> result StoreError unit * S)
    (o : ProjectObservation) (s : S) : Outcome * option DimensionError * S :=
  observe (pob_EventAt o) (pob_IngestedAt o) (fun at_ => repository (observed_project o at_)) s.

Definition observe_source {S : Type} (repository : Source -> S -> result StoreError unit * S)
    (o : SourceObservation) (s : S) : Outcome * option DimensionError * S :=
  observe (sob_EventAt o) (sob_IngestedAt o) (fun at_ => repository (observed_source o at_)) s.

(** What an observation of an owner means for its timeline. *)
Definition observation_outcome {A} (hash : A -> string) (get : DB -> gmap string (Version A)) `{!Table get}
    (owner : string) (eventAt : option Z) (a : A) (T : string -> list (Z * A))
    (o : Outcome) (d' : DB) : Prop :=
  match eventAt with
  | None => oc_State o = "quarantined" /\ holds_timelines hash get d' T
  | Some t =>
      let advanced tl := advance hash (T owner) t a = Some tl /\ holds_timelines hash get d' (with_timeline T owner tl) in
      oc_State o = "applied_or_identical" /\ (exists tl, advanced tl)
      \/ oc_State o = "quarantined"
         /\ (oc_Reason o = "late_or_out_of_order" /\ advance hash (T owner) t a = None /\ holds_timelines hash get d' T
             \/ oc_Reason o = "repository_failure"
                /\ (holds_timelines hash get d' T \/ exists tl, advanced tl))
  end.

Section Observations.
Context (sha256 : string -> string) (world : Outside DB).

Lemma observe_outcome {A} (hash : A -> string) (get : DB -> gmap string (Version A)) `{!Table get}
    owner a eventAt ingestedAt (put : Z -> Conn DB -> result StoreError unit * Conn DB) c T :
  holds_timelines hash get (cn_db c) T ->
  (forall t r c', put t c = (r, c') ->
     exists T', extends T T' /\ put_outcome hash get owner t a T' r (cn_db c')) ->
  let '(o, error, c') := observe eventAt ingestedAt put c in
  (error = None <-> oc_State o = "applied_or_identical")
  /\ exists T', extends T T' /\ observation_outcome hash get owner eventAt a T' o (cn_db c').
Proof.
  intros H Hput. unfold observe, observation_outcome. destruct eventAt as [t|].
  - destruct (put t c) as [r c'] eqn:E. destruct (Hput t r c' E) as (T' & HE & Hr). unfold put_outcome in Hr.
    destruct r as [u|e]; [|destruct e]; cbn [oc_State oc_Reason];
      (split; [split; intros; discriminate || done|]); exists T'; (split; [done|]).
    all: try (by left). all: right; (split; [done|]). all: try (right; split; [done|apply Hr]). by left.
  - split; [split; discriminate|]. exists T. split; [intros o; reflexivity|done].
Qed.

Lemma PutProject_outcome p c r c' T :
  keeps_timelines (project_hash sha256) db_project_versions world ->
  holds_timelines (project_hash sha256) db_project_versions (cn_db c) T ->
  PutProject sha256 world p c = (r, c') ->
  exists T', extends T T'
    /\ put_outcome (project_hash sha256) db_project_versions (pj_ID p) (pj_EffectiveAt p) (project_attributes p)
         T' r (cn_db c').
Proof.
  intros HK H. apply put_call_spec; [done| |done].
  intros n d u d' [[-> _]|(_ & _ & ->)]%insert_once_ok; reflexivity.
Qed.

Lemma PutSource_outcome s c r c' T :
  keeps_timelines (source_hash sha256) db_source_versions world ->
  holds_timelines (source_hash sha256) db_source_versions (cn_db c) T ->
  PutSource sha256 world s c = (r, c') ->
  exists T', extends T T'
    /\ put_outcome (source_hash sha256) db_source_versions (so_ID s) (so_EffectiveAt s) (source_attributes s)
         T' r (cn_db c').
Proof.
  intros HK H. apply put_call_spec; [done| |done].
  intros n d u d' [[-> _]|(_ & _ & ->)]%insert_once_ok; reflexivity.
Qed.

(** C14: the store of projects refines a timeline of changes.  If its rows are the versions of
    timelines - ranges that do not overlap, numbered, the last one open - then, whatever fails and
    whatever other connections do in between, an observation either advances the timeline of its
    project and is reported as applied, or is quarantined: without a time, when it is not later
    than the last change and differs from it, or because the server failed, in which case it was
    taken as a whole or not at all.  Changes are told apart by microseconds, as the store keeps them:
    a change in the microsecond of the last one is quarantined. *)
Theorem observe_project_refines o c T :
  keeps_timelines (project_hash sha256) db_project_versions world ->
  holds_timelines (project_hash sha256) db_project_versions (cn_db c) T ->
  let '(outcome, error, c') := observe_project (PutProject sha256 world) o c in
  (error = None <-> oc_State outcome = "applied_or_identical")
  /\ exists T', extends T T'
       /\ observation_outcome (project_hash sha256) db_project_versions (pob_ID o) (pob_EventAt o)
            (mkProjectAttributes (pob_Classification o) (pob_LifecycleState o)) T' outcome (cn_db c').
Proof.
  intros HK H. unfold observe_project. apply observe_outcome; [done|].
  intros t r c' HP. by apply (PutProject_outcome (observed_project o t) c).
Qed.

(** The same of sources. *)
Theorem observe_source_refines o c T :
  keeps_timelines (source_hash sha256) db_source_versions world ->
  holds_timelines (source_hash sha256) db_source_versions (cn_db c) T ->
  let '(outcome, error, c') := observe_source (PutSource sha256 world) o c in
  (error = None <-> oc_State outcome = "applied_or_identical")
  /\ exists T', extends T T'
       /\ observation_outcome (source_hash sha256) db_source_versions (sob_ID o) (sob_EventAt o)
            (mkSourceAttributes (sob_AdapterVersion o) (sob_ProductSurface o) (sob_CoverageState o) (sob_Enabled o))
            T' outcome (cn_db c').
Proof.
  intros HK H. unfold observe_source. apply observe_outcome; [done|].
  intros t r c' HP. by apply (PutSource_outcome (observed_source o t) c).
Qed.

(** Reading a project as of an instant gives the change of its timeline in effect then, or
    reports that there is none; there is never more than one. *)
Theorem ProjectAsOf_exact projectID t c r c' T :
  keeps_timelines (project_hash sha256) db_project_versions world ->
  holds_timelines (project_hash sha256) db_project_versions (cn_db c) T ->
  ProjectAsOf world projectID t c = (r, c') ->
  exists T', extends T T' /\ holds_timelines (project_hash sha256) db_project_versions (cn_db c') T' /\
  match r with
  | Ok (_, v) => as_of (T' projectID) (micros t) = Some (ve_From v, ve_Value v)
  | Err ErrNotFound => as_of (T' projectID) (micros t) = None
  | Err e => e = ErrMessage "read project version"
  end.
Proof. intros HK H HR. exact (read_as_of _ _ world _ projectID (micros t) c r c' T HK H HR). Qed.
End Observations.

(** ** A project that changes twice *)

Lemma calm_keeps_timelines {A} (hash : A -> string) (get : DB -> gmap string (Version A)) `{!Table get} :
  keeps_timelines hash get calm.
Proof. intros n d T H. exists T. split; [done|]. intros o. reflexivity. Qed.

Lemma empty_timelines {A} (hash : A -> string) (get : DB -> gmap string (Version A)) `{!Table get} :
  get empty_db = ∅ -> holds_timelines hash get empty_db (fun _ => []).
Proof. intros H o. unfold owned. rewrite H, map_to_list_empty. split; [done|constructor]. Qed.

Definition no_hash (s : string) : string := s.

Definition sample_observation (version : string) (at_ : option Z) (state : string) : ProjectObservation :=
  mkProjectObservation "p" version 1 at_ 20 "internal" state.

Definition sample_conn : Conn DB := mkConn empty_db 0.

Definition observed_conn (o : ProjectObservation) (c : Conn DB) : Conn DB :=
  (observe_project (PutProject no_hash calm) o c).2.

Example observe_project_refines_witness :
  let '(outcome, error, c') := observe_project (PutProject no_hash calm) (sample_observation "v1" (Some 5000%Z) "active") sample_conn in
  oc_State outcome = "applied_or_identical" /\ error = None
  /\ exists T', observation_outcome (project_hash no_hash) db_project_versions "p" (Some 5000%Z)
          (mkProjectAttributes "internal" "active") T' outcome (cn_db c').
Proof.
  pose proof (observe_project_refines no_hash calm (sample_observation "v1" (Some 5000%Z) "active") sample_conn
                (fun _ => []) (calm_keeps_timelines _ _) (empty_timelines _ _ eq_refl)) as H.
  destruct (observe_project _ _ _) as [[outcome error] c'] eqn:E. destruct H as [H1 (T' & _ & H2)].
  assert (error = None) as He.
  { assert ((observe_project (PutProject no_hash calm) (sample_observation "v1" (Some 5000%Z) "active") sample_conn).1.2 = None)
      as H by (vm_compute; reflexivity). by rewrite E in H. }
  split; [by apply H1|]. split; [done|]. by exists T'.
Defined.

Definition sample_source : SourceObservation :=
  mkSourceObservation "s" "v1" "git" None "local" "complete" true 1 (Some 5000%Z) 20.

Example observe_source_refines_witness :
  let '(outcome, error, c') := observe_source (PutSource no_hash calm) sample_source sample_conn in
  oc_State outcome = "applied_or_identical"
  /\ exists T', observation_outcome (source_hash no_hash) db_source_versions "s" (Some 5000%Z)
          (mkSourceAttributes None "local" "complete" true) T' outcome (cn_db c').
Proof.
  pose proof (observe_source_refines no_hash calm sample_source sample_conn
                (fun _ => []) (calm_keeps_timelines _ _) (empty_timelines _ _ eq_refl)) as H.
  destruct (observe_source _ _ _) as [[outcome error] c'] eqn:E. destruct H as [H1 (T' & _ & H2)].
  split; [|by exists T']. apply H1.
  assert ((observe_source (PutSource no_hash calm) sample_source sample_conn).1.2 = None) as H
    by (vm_compute; reflexivity). by rewrite E in H.
Defined.

(** Reading between and after the changes; a change that is late is refused, and one in the
    microsecond of the last fails. *)
Example project_history :
  let c := observed_conn (sample_observation "v2" (Some 9000%Z) "disabled")
             (observed_conn (sample_observation "v1" (Some 5000%Z) "active") sample_conn) in
  let read t := match (ProjectAsOf calm "p" t c).1 with
                | Ok (_, v) => Some (ve_Number v, pa_LifecycleState (ve_Value v))
                | Err _ => None
                end in
  (read 4999%Z, read 5000%Z, read 8999%Z, read 9999%Z) = (None, Some (1%Z, "active"), Some (1%Z, "active"), Some (2%Z, "disabled"))
  /\ (observe_project (PutProject no_hash calm) (sample_observation "v3" (Some 7000%Z) "active") c).1
     = (mkOutcome "quarantined" "late_or_out_of_order" (Some 7000%Z) 20, Some (ErrRepository ErrInvalidEffectiveTime))
  /\ (observe_project (PutProject no_hash calm) (sample_observation "v3" (Some 9500%Z) "active") c).1
     = (mkOutcome "quarantined" "repository_failure" (Some 9500%Z) 20,
        Some (ErrRepository (ErrDatabase "close project dimension" check_violation))).
Proof. vm_compute. split_and!; reflexivity. Qed.

Example ProjectAsOf_exact_witness :
  exists T', as_of (T' "p") (micros 4) = None
    /\ (ProjectAsOf calm "p" 4 sample_conn).1 = Err ErrNotFound
    /\ holds_timelines (project_hash no_hash) db_project_versions empty_db T'.
Proof.
  destruct (ProjectAsOf_exact no_hash calm "p" 4 sample_conn _ _ (fun _ => [])
              (calm_keeps_timelines _ _) (empty_timelines _ _ eq_refl) (surjective_pairing _)) as (T' & _ & H & Hr).
  exists T'. assert ((ProjectAsOf calm "p" 4 sample_conn).1 = Err ErrNotFound) as E by (vm_compute; reflexivity).
  rewrite E in Hr. done.
Defined.

(** ** The hash tells dimensions apart *)

(** The bytes that are hashed determine the parts: equal hashes of different attributes are a
    collision of SHA-256. *)
Lemma dimension_bytes_inj parts parts' :
  Forall (fun s => (str_len s < 2 ^ 64)%Z) parts -> Forall (fun s => (str_len s < 2 ^ 64)%Z) parts' ->
  dimension_bytes parts = dimension_bytes parts' -> parts = parts'.
Proof.
  intros H. revert parts'. induction H as [|s parts Hs _ IH]; intros [|s' parts'] H' E; [done|..];
    try (cbn [dimension_bytes big_endian] in E; discriminate E).
  apply Forall_cons in H' as [Hs' H']. cbn [dimension_bytes] in E.
  pose proof (str_len_nonneg s). pose proof (str_len_nonneg s').
  apply str_app_inj_length in E as [E1 E2]; [|by rewrite !big_endian_length].
  rewrite !u64_id in E1 by (unfold u64_range; lia). apply big_endian_inj in E1; [|lia..].
  apply str_app_inj_length in E2 as [-> E2]; [|unfold str_len in E1; lia]. by rewrite (IH parts' H' E2).
Qed.
