(* ===== verification/SessionAudit.v ===== *)
(** * The audit of a session (internal/store/postgres/audit.go)

    What the [audit_session] tool reads from the store: at most a hundred rows of evidence of one
    session, of the configured sources only, with what is left out counted.  Every read is a
    transaction of its own, so others may write in between. *)
From S2P Require Import Contracts GoInt GoFmt Policy Regex Service Transactions Tables Versions.

(** A call that answers with an error of the contracts. *)
Definition Audited (A : Type) : Type := Conn DB -> result StableError A * Conn DB.

Definition answer {A} (a : A) : Audited A := fun c => (Ok a, c).
Definition refuse {A} (e : StableError) : Audited A := fun c => (Err e, c).
Definition and_then {A B} (m : Audited A) (k : A -> Audited B) : Audited B :=
  fun c => match m c with
           | (Ok a, c) => k a c
           | (Err e, c) => (Err e, c)
           end.

Notation "'await' x := m 'in' k" := (and_then m (fun x => k))
  (at level 10, x pattern, m at level 200, k at level 200) : tx_scope.

(** [if err != nil { return e }] after a call of the store. *)
Definition or_else {A} (e : StableError) (m : Tx DB A) : Audited A :=
  fun c => match m c with
           | (Ok a, c) => (Ok a, c)
           | (Err _, c) => (Err e, c)
           end.

(** Only whether a call failed matters. *)
Definition failed {A} (m : Tx DB A) : Audited bool :=
  fun c => match m c with
           | (Ok _, c) => (Ok false, c)
           | (Err _, c) => (Ok true, c)
           end.

Definition provenanceLabel (value : string) : ProvenanceLabel :=
  if bool_decide (value ∈ [ProvenanceOfficialCurrent; ProvenanceStaffClarification; ProvenancePractitionerHypothesis;
                           ProvenanceRuntimeObserved; ProvenanceDerived])
  then value else ProvenanceUnknown.

(** The kind of a source of the store. *)
Definition kind_of (d : DB) (sourceID : string) : option string := so_Kind <$> db_sources d !! sourceID.

(** WHERE the session is [sessionID], joined with the sources; the kind is of the configured ones
    ([wanted]), or is not. *)
Definition evidence_of (sessionID : string) (sources : list string) (wanted : bool) (d : DB) : list (string * ArtifactRow) :=
  filter (fun kv => (bool_decide (ea_Session kv.2 = Some sessionID)
                     && match kind_of d (ea_Source kv.2) with
                        | Some kind => Bool.eqb (bool_decide (kind ∈ sources)) wanted
                        | None => false
                        end) = true)
    (map_to_list (db_artifacts d)).

Definition audit_rows (sessionID : string) (sources : list string) (d : DB) : list (string * ArtifactRow) :=
  take 100 (go_sort observed_first (evidence_of sessionID sources true d)).

(** The variables of the loop; [rd_Validated] is [validatedSources] and [rd_Labels] is [provenance],
    with which [seenProvenance] goes. *)
Record Reading := mkReading {
  rd_Coverage : CoverageState;
  rd_Incomplete : bool;
  rd_Refs : list string;
  rd_Labels : list ProvenanceLabel;
  rd_Redaction : bool;
  rd_Validated : gset string
}.

Section Calls.
Context (world : Outside DB).

Definition validateAuditDimensions (sourceID : string) (projectID : option string) (asOf : option Z) : Tx DB unit :=
  do! _ := (match asOf with None => CurrentSource world sourceID | Some t => SourceAsOf world sourceID t end) in
  match projectID with
  | None => tx_ret tt
  | Some projectID =>
      do! _ := (match asOf with None => CurrentProject world projectID | Some t => ProjectAsOf world projectID t end) in
      tx_ret tt
  end.

(** A row once its source is validated. *)
Definition read_row (kv : string * ArtifactRow) (incomplete : bool) (s : Reading) : Reading :=
  let parsed := provenanceLabel (ea_Provenance kv.2) in
  mkReading
    (if incomplete || negb (ea_Coverage kv.2 =s "complete") then CoverageStatePartial else rd_Coverage s)
    (rd_Incomplete s || incomplete)
    (rd_Refs s ++ [kv.1])
    (if negb (bool_decide (parsed ∈ rd_Labels s)) && (length (rd_Labels s) <? 20)%nat
     then rd_Labels s ++ [parsed] else rd_Labels s)
    (rd_Redaction s || (ea_Redaction kv.2 =s "applied"))
    ({[ea_Source kv.2]} ∪ rd_Validated s).

Fixpoint read_rows (rows : list (string * ArtifactRow)) (asOf : option Z) (s : Reading) : Audited Reading :=
  match rows with
  | [] => answer s
  | kv :: rest =>
      await incomplete :=
        (if bool_decide (ea_Source kv.2 ∈ rd_Validated s) then answer false
         else failed (validateAuditDimensions (ea_Source kv.2) None asOf)) in
      read_rows rest asOf (read_row kv incomplete s)
  end.

Definition audit_findings (refs : nat) (asOf : option Z) (filtered : nat) (incomplete : bool) (omitted : Z) : list string :=
  ["evidence_count:" +:+ fmt_d (Z.of_nat refs);
   match asOf with None => "dimension_semantics:current" | Some _ => "dimension_semantics:as_of" end]
  ++ (if (0 <? filtered)%nat then ["source_filtered:" +:+ fmt_d (Z.of_nat filtered)] else [])
  ++ (if incomplete then ["dimension_coverage:incomplete"] else [])
  ++ (if (0 <? omitted)%Z then ["evidence_omitted:" +:+ fmt_d omitted] else []).

Definition session_source (sessionID : string) (d : DB) : option (SessionRow * string) :=
  match db_sessions d !! sessionID with
  | Some se => (fun kind => (se, kind)) <$> kind_of d (se_Source se)
  | None => None
  end.

Definition audit_failure (what : string) : StableError := NewError ErrorCodeInternal what "reference" true.

Definition AuditSession (sessionID : string) (sources : list string) (asOf : option Z)
    : Audited (AuditSessionResult * list ProvenanceLabel) :=
  await found := or_else (audit_failure "audit session read failed") (pool_query world "" (fun _ => session_source sessionID)) in
  match found with
  | None => refuse (NewError ErrorCodeNotFound "audit session unavailable" "reference" false)
  | Some (se, sourceKind) =>
      if negb (bool_decide (sourceKind ∈ sources))
      then refuse (NewError ErrorCodePermissionDenied "session source is not configured for audit" "configured_sources" false)
      else
        await incomplete := failed (validateAuditDimensions (se_Source se) (se_Project se) asOf) in
        await rows := or_else (audit_failure "audit evidence read failed")
                        (pool_query world "" (fun _ => audit_rows sessionID sources)) in
        await s := read_rows rows asOf
                     (mkReading (if incomplete then CoverageStatePartial else se_Coverage se) incomplete [] [] false
                        {[se_Source se]}) in
        await _ := or_else (audit_failure "audit evidence iteration failed") (pool_query world "" (fun _ _ => tt)) in
        await eligible := or_else (audit_failure "audit evidence count failed")
                            (pool_query world "" (fun _ d => length (evidence_of sessionID sources true d))) in
        await filtered := or_else (audit_failure "audit evidence count failed")
                            (pool_query world "" (fun _ d => length (evidence_of sessionID sources false d))) in
        answer
          (mkAuditSessionResult SchemaVersion "result"
             (if (length (rd_Refs s) =? 0)%nat then CoverageStateMissing else rd_Coverage s)
             (rd_Refs s)
             (audit_findings (length (rd_Refs s)) asOf filtered (rd_Incomplete s)
                (Z.of_nat eligible - Z.of_nat (length (rd_Refs s))))
             (rd_Redaction s),
           rd_Labels s)
  end.

(** The store of [Service], as it is at a connection. *)
Definition postgres_audits (c : Conn DB) (sessionID : string) (sources : list string) (asOf : option Z)
    : result ToolError (AuditSessionResult * list ProvenanceLabel) :=
  stable (AuditSession sessionID sources asOf c).1.
End Calls.

(** ** What an audit reports *)

(** A row of versions that a condition holds of. *)
Definition has_version {A} (get : DB -> gmap string (Version A)) (p : Version A -> bool) (d : DB) : Prop :=
  exists id v, get d !! id = Some v /\ p v = true.

(** A source, or a project, has a version for the audit: an open one, or one valid at the instant. *)
Definition source_versioned (asOf : option Z) (sourceID : string) : DB -> Prop :=
  has_version db_source_versions (match asOf with None => is_current sourceID | Some t => is_valid_at sourceID (micros t) end).

Definition project_versioned (asOf : option Z) (projectID : string) : DB -> Prop :=
  has_version db_project_versions (match asOf with None => is_current projectID | Some t => is_valid_at projectID (micros t) end).

(** What was there between two states of a connection: the store changed as others change it, a
    statement failed, [P] held at some time, or a read of [P] failed or did not find it. *)
Definition later (world : Outside DB) (c c' : Conn DB) : Prop :=
  reached world (cn_db c) (cn_db c') /\ (cn_sent c <= cn_sent c')%nat.

Definition a_failure (world : Outside DB) (c c' : Conn DB) : Prop :=
  exists n, (cn_sent c <= n < cn_sent c')%nat /\ is_Some (ou_fails world n).

Definition found (world : Outside DB) (c c' : Conn DB) (P : DB -> Prop) : Prop :=
  exists c1, later world c c1 /\ later world c1 c' /\ P (cn_db c1).

Definition not_found (world : Outside DB) (c c' : Conn DB) (P : DB -> Prop) : Prop :=
  a_failure world c c' \/ exists c1, later world c c1 /\ later world c1 c' /\ ~ P (cn_db c1).

Definition listed_partial (rows : list (string * ArtifactRow)) : bool := existsb (fun kv => negb (ea_Coverage kv.2 =s "complete")) rows.
Definition listed_redacted (rows : list (string * ArtifactRow)) : bool := existsb (fun kv => ea_Redaction kv.2 =s "applied") rows.
Definition listed_labels (rows : list (string * ArtifactRow)) : list ProvenanceLabel := (fun kv => provenanceLabel (ea_Provenance kv.2)) <$> rows.

Section Exact.
Context (world : Outside DB).

Lemma and_then_inv {A B} (m : Audited A) (k : A -> Audited B) c r c' :
  and_then m k c = (r, c') ->
  (exists a c1, m c = (Ok a, c1) /\ k a c1 = (r, c')) \/ (exists e, m c = (Err e, c') /\ r = Err e).
Proof. unfold and_then. destruct (m c) as [[a|e] c1]; [eauto|]. intros [= <- <-]. eauto. Qed.

Lemma later_refl c : later world c c.
Proof. split; [constructor|done]. Qed.

Lemma later_trans c1 c2 c3 : later world c1 c2 -> later world c2 c3 -> later world c1 c3.
Proof. intros [H1 L1] [H2 L2]. split; [by apply (reached_trans _ _ _ _ H1)|lia]. Qed.

Lemma failure_within c0 c1 c2 c3 : later world c0 c1 -> a_failure world c1 c2 -> later world c2 c3 -> a_failure world c0 c3.
Proof. intros [_ L1] (n & Hn & Hf) [_ L3]. exists n. split; [lia|done]. Qed.

Lemma found_within c0 c1 c2 c3 P : later world c0 c1 -> found world c1 c2 P -> later world c2 c3 -> found world c0 c3 P.
Proof. intros L1 (d & H1 & H2 & HP) L3. exists d. split_and!; [by apply (later_trans _ c1)|by apply (later_trans _ c2)|done]. Qed.

Lemma not_found_within c0 c1 c2 c3 P :
  later world c0 c1 -> not_found world c1 c2 P -> later world c2 c3 -> not_found world c0 c3 P.
Proof.
  intros L1 [Hf|(d & H1 & H2 & HP)] L3; [left; by apply (failure_within _ c1 c2)|right].
  exists d. split_and!; [by apply (later_trans _ c1)|by apply (later_trans _ c2)|done].
Qed.

(** A query on the pool fails only when its statement does. *)
Lemma pool_query_inv {A} message (f : nat -> DB -> A) c r c' :
  pool_query world message f c = (r, c') ->
  later world c c' /\ match r with Ok x => exists n, x = f n (cn_db c') | Err _ => a_failure world c c' end.
Proof.
  unfold pool_query, pool, statement. cbn [cn_sent cn_db]. destruct (ou_fails world (cn_sent c)) as [code|] eqn:Hf;
    intros [= <- <-]; (split; [split; [apply reached_step|cbn; lia]|]); [|by eexists].
  exists (cn_sent c). split; [cbn; lia|by eexists].
Qed.

Lemma read_inv {A} e (f : nat -> DB -> A) c r c' :
  or_else e (pool_query world "" f) c = (r, c') ->
  later world c c' /\ (r = Err e /\ a_failure world c c' \/ exists n, r = Ok (f n (cn_db c'))).
Proof.
  unfold or_else. destruct (pool_query _ _ _ c) as [r1 c1] eqn:E. apply pool_query_inv in E as [H1 H2].
  destruct r1 as [x|]; intros [= <- <-]; (split; [done|]); [right|by left]. destruct H2 as [n ->]. eauto.
Qed.

Lemma read_version_inv {A} (get : DB -> gmap string (Version A)) message p c r c' :
  read_version world get message p c = (r, c') ->
  later world c c'
  /\ match r with Ok _ => found world c c' (has_version get p) | Err _ => not_found world c c' (has_version get p) end.
Proof.
  unfold read_version, tx_bind. destruct (pool_query _ _ _ c) as [r1 c1] eqn:E. apply pool_query_inv in E as [H1 H2].
  destruct r1 as [[[id v]|]|e].
  - intros [= <- <-]. split; [done|]. destruct H2 as [n H2]. symmetry in H2. unfold select in H2.
    apply find_first_Some in H2 as [Hin Hp]. apply elem_of_map_to_list in Hin.
    exists c1. split_and!; [done|apply later_refl|by exists id, v].
  - intros [= <- <-]. split; [done|]. right. exists c1. split_and!; [done|apply later_refl|]. intros (id & v & Hv & Hp).
    destruct H2 as [n H2]. symmetry in H2. unfold select in H2. apply elem_of_map_to_list in Hv.
    apply (find_first_None _ _ _ H2) in Hv. cbn in Hv. congruence.
  - intros [= <- <-]. split; [done|by left].
Qed.

Lemma source_read sourceID asOf c r c' :
  (match asOf with None => CurrentSource world sourceID | Some t => SourceAsOf world sourceID t end) c = (r, c') ->
  later world c c'
  /\ match r with Ok _ => found world c c' (source_versioned asOf sourceID)
     | Err _ => not_found world c c' (source_versioned asOf sourceID) end.
Proof. destruct asOf; apply read_version_inv. Qed.

Lemma project_read projectID asOf c r c' :
  (match asOf with None => CurrentProject world projectID | Some t => ProjectAsOf world projectID t end) c = (r, c') ->
  later world c c'
  /\ match r with Ok _ => found world c c' (project_versioned asOf projectID)
     | Err _ => not_found world c c' (project_versioned asOf projectID) end.
Proof. destruct asOf; apply read_version_inv. Qed.

(** The dimensions of some sources, and of a project if there is one, as they were between [c] and
    [c']: all had their version, or one had not. *)
Definition dimensions_read (asOf : option Z) (source : string -> Prop) (projectID : option string) (c c' : Conn DB)
    (incomplete : bool) : Prop :=
  if incomplete
  then (exists sourceID, source sourceID /\ not_found world c c' (source_versioned asOf sourceID))
       \/ (exists p, projectID = Some p /\ not_found world c c' (project_versioned asOf p))
  else (forall sourceID, source sourceID -> found world c c' (source_versioned asOf sourceID))
       /\ (forall p, projectID = Some p -> found world c c' (project_versioned asOf p)).

Lemma dimensions_within asOf source projectID c0 c1 c2 c3 b :
  later world c0 c1 -> dimensions_read asOf source projectID c1 c2 b -> later world c2 c3 ->
  dimensions_read asOf source projectID c0 c3 b.
Proof.
  intros L1 H L3. destruct b; cbn in *.
  - destruct H as [(x & Hx & H)|(p & Hp & H)]; [left; exists x|right; exists p]; (split; [done|]);
      by apply (not_found_within _ c1 c2).
  - destruct H as [H1 H2]. split; intros x Hx; apply (found_within _ c1 c2); auto.
Qed.

Lemma dimensions_or asOf (S1 S2 S : string -> Prop) projectID c0 c1 c2 b1 b2 :
  later world c0 c1 -> dimensions_read asOf S1 projectID c0 c1 b1 ->
  later world c1 c2 -> dimensions_read asOf S2 None c1 c2 b2 ->
  (forall x, S x <-> S1 x \/ S2 x) -> dimensions_read asOf S projectID c0 c2 (b1 || b2).
Proof.
  intros L1 H1 L2 H2 HS. apply (dimensions_within _ _ _ c0 c0 c1 c2 _ (later_refl _)) in H1; [|done].
  apply (dimensions_within _ _ _ c0 c1 c2 c2 _ L1) in H2; [|apply later_refl].
  destruct b1, b2; cbn in *.
  - destruct H1 as [(x & Hx & H)|H]; [left; exists x; split; [apply HS; by left|done]|by right].
  - destruct H1 as [(x & Hx & H)|H]; [left; exists x; split; [apply HS; by left|done]|by right].
  - destruct H2 as [(x & Hx & H)|(p & [=] & _)]. left. exists x. split; [apply HS; by right|done].
  - destruct H1 as [H1 Hp], H2 as [H2 _]. split; [|done]. intros x [Hx|Hx]%HS; auto.
Qed.

Lemma validate_inv sourceID projectID asOf c b c' :
  failed (validateAuditDimensions world sourceID projectID asOf) c = (b, c') ->
  later world c c'
  /\ exists incomplete, b = Ok incomplete /\ dimensions_read asOf (eq sourceID) projectID c c' incomplete.
Proof.
  unfold failed, validateAuditDimensions, tx_bind.
  destruct ((match asOf with None => CurrentSource world sourceID | Some t => _ end) c) as [[row|e] c1] eqn:E1;
    apply source_read in E1 as [L1 H1]; [|intros [= <- <-]; split; [done|]; exists true; split; [done|left; eauto]].
  destruct projectID as [projectID|].
  2:{ intros [= <- <-]. split; [done|]. exists false. split; [done|]. split; [by intros ? <-|done]. }
  destruct ((match asOf with None => CurrentProject world projectID | Some t => _ end) c1) as [r2 c2] eqn:E2.
  apply project_read in E2 as [L2 H2]. pose proof (later_trans _ _ _ L1 L2) as L.
  destruct r2; intros [= <- <-]; (split; [done|]); eexists; (split; [reflexivity|]).
  - split; [intros ? <-; exact (found_within _ c c1 _ _ (later_refl _) H1 L2)|].
    intros ? [= <-]. exact (found_within _ c1 c2 _ _ L1 H2 (later_refl _)).
  - right. exists projectID. split; [done|]. exact (not_found_within _ c1 c2 _ _ L1 H2 (later_refl _)).
Qed.

Lemma provenanceLabel_known value :
  provenanceLabel value ∈ [ProvenanceOfficialCurrent; ProvenanceStaffClarification; ProvenancePractitionerHypothesis;
                           ProvenanceRuntimeObserved; ProvenanceDerived; ProvenanceUnknown].
Proof. unfold provenanceLabel. case_bool_decide; set_solver. Qed.

(** The labels of the loop: every one is one of six, once. *)
Definition labelled (s : Reading) : Prop := NoDup (rd_Labels s) /\ forall l, l ∈ rd_Labels s -> exists value, l = provenanceLabel value.

Lemma labelled_few s : labelled s -> (length (rd_Labels s) < 20)%nat.
Proof.
  intros [HN HK].
  apply (Nat.le_lt_trans _ (length [ProvenanceOfficialCurrent; ProvenanceStaffClarification; ProvenancePractitionerHypothesis;
                           ProvenanceRuntimeObserved; ProvenanceDerived; ProvenanceUnknown])); [|cbn; lia].
  apply submseteq_length, NoDup_submseteq; [done|]. intros l (value & ->)%HK. apply provenanceLabel_known.
Qed.

Lemma read_row_labels kv incomplete s : labelled s ->
  labelled (read_row kv incomplete s)
  /\ forall l, l ∈ rd_Labels (read_row kv incomplete s) <-> l ∈ rd_Labels s \/ l = provenanceLabel (ea_Provenance kv.2).
Proof.
  intros HL. pose proof (labelled_few s HL) as Hlt%Nat.ltb_lt. destruct HL as [HN HK]. unfold labelled, read_row. cbn [rd_Labels].
  rewrite Hlt, andb_true_r. case_bool_decide as Hin; cbn [negb].
  - split; [done|]. set_solver.
  - split; [split|].
    + apply NoDup_app. split; [done|]. split; [set_solver|]. apply NoDup_singleton.
    + intros l [?| ->%list_elem_of_singleton]%elem_of_app; [auto|eauto].
    + intros l. rewrite elem_of_app, list_elem_of_singleton. done.
Qed.

Lemma read_rows_inv rows asOf s c r c' :
  labelled s -> read_rows world rows asOf s c = (r, c') ->
  later world c c'
  /\ exists s' incomplete, r = Ok s'
     /\ rd_Refs s' = rd_Refs s ++ (fst <$> rows)
     /\ rd_Incomplete s' = rd_Incomplete s || incomplete
     /\ rd_Coverage s' = (if incomplete || listed_partial rows then CoverageStatePartial else rd_Coverage s)
     /\ rd_Redaction s' = rd_Redaction s || listed_redacted rows
     /\ NoDup (rd_Labels s')
     /\ (forall l, l ∈ rd_Labels s' <-> l ∈ rd_Labels s \/ l ∈ listed_labels rows)
     /\ dimensions_read asOf (fun x => x ∈ (fun kv => ea_Source kv.2) <$> rows /\ x ∉ rd_Validated s) None c c' incomplete.
Proof.
  revert s c. induction rows as [|kv rows IH]; intros s c HL; cbn [read_rows].
  { intros [= <- <-]. split; [apply later_refl|]. exists s, false. destruct HL as [HN _]. rewrite app_nil_r, !orb_false_r.
    split_and!; try done; [set_solver|]. split; [|done]. by intros x [Hx%elem_of_nil _]. }
  intros [(incomplete & c1 & E1 & E)|(e & E1 & _)]%and_then_inv.
  2:{ exfalso. destruct (bool_decide _); [done|]. by apply validate_inv in E1 as (_ & b & [=] & _). }
  assert (later world c c1
    /\ dimensions_read asOf (fun x => x = ea_Source kv.2 /\ x ∉ rd_Validated s) None c c1 incomplete) as [H1 HV].
  { case_bool_decide as Hd; [injection E1 as <- <-; split; [apply later_refl|]; split; [|done]; by intros x [-> ?]|].
    apply validate_inv in E1 as (H1 & b & [= <-] & Hb). split; [done|]. destruct incomplete; cbn in *.
    - destruct Hb as [(x & <- & Hb)|(p & [=] & _)]. left. by exists (ea_Source kv.2).
    - destruct Hb as [Hb _]. split; [|done]. intros x [-> _]. by apply Hb. }
  destruct (read_row_labels kv incomplete s HL) as [HL' Hl].
  apply IH in E as (H2 & s' & inc & -> & Hrefs & Hinc & Hcov & Hred & HN & Hlab & Hval); [|done].
  split; [by apply (later_trans _ c1)|]. exists s', (incomplete || inc).
  rewrite Hrefs, Hinc, Hcov, Hred. cbn [read_row rd_Refs rd_Incomplete rd_Coverage rd_Redaction rd_Validated listed_partial
    listed_redacted existsb fmap list_fmap] in *.
  split_and!; try done.
  - by rewrite <- app_assoc.
  - by rewrite orb_assoc.
  - fold (listed_partial rows). destruct inc, incomplete, (listed_partial rows), (ea_Coverage kv.2 =s _); done.
  - by rewrite orb_assoc.
  - intros l. rewrite Hlab, Hl. unfold listed_labels. cbn [fmap list_fmap]. rewrite elem_of_cons. tauto.
  - apply (dimensions_or _ _ _ _ _ _ _ _ _ _ H1 HV H2 Hval). intros x.
    destruct (decide (x = ea_Source kv.2)) as [->|Hne]; set_solver.
Qed.
End Exact.

Lemma take_rows_facts sessionID sources d kv :
  kv ∈ audit_rows sessionID sources d ->
  db_artifacts d !! kv.1 = Some kv.2 /\ ea_Session kv.2 = Some sessionID
  /\ exists kind, kind_of d (ea_Source kv.2) = Some kind /\ kind ∈ sources.
Proof.
  intros (i & Hkv & _)%elem_of_take. apply list_elem_of_lookup_2 in Hkv.
  rewrite elem_of_go_sort in Hkv. apply list_elem_of_filter in Hkv as [[H1%bool_decide_eq_true H2]%andb_true_iff Hkv].
  apply elem_of_map_to_list' in Hkv. split; [done|]. split; [done|].
  destruct (kind_of d (ea_Source kv.2)) as [kind|]; [|done]. exists kind. split; [done|].
  apply eqb_prop in H2. by apply bool_decide_eq_true in H2.
Qed.

(** What the result says of the session [se], the listed [rows], whether the dimensions were
    [incomplete], and the numbers of rows that are [eligible] and of other sources. *)
Definition audit_of (se : SessionRow) (rows : list (string * ArtifactRow)) (asOf : option Z) (incomplete : bool)
    (eligible filtered : nat) : AuditSessionResult :=
  mkAuditSessionResult SchemaVersion "result"
    (if (length rows =? 0)%nat then CoverageStateMissing
     else if incomplete || listed_partial rows then CoverageStatePartial else se_Coverage se)
    (fst <$> rows)
    (audit_findings (length rows) asOf filtered incomplete (Z.of_nat eligible - Z.of_nat (length rows)))
    (listed_redacted rows).

(** What an answer says of the store, from [c] to [c']: a result is that of a session of a configured
    source, from its rows, each read at its time, and it is incomplete exactly as the dimensions
    were; a refusal is that there is no such session, or that it is of another source, nothing being
    read after that, or that a statement failed. *)
Definition audit_answer (world : Outside DB) (sessionID : string) (sources : list string) (asOf : option Z)
    (c : Conn DB) (r : result StableError (AuditSessionResult * list ProvenanceLabel)) (c' : Conn DB) : Prop :=
  match r with
  | Ok (res, labels) =>
      exists c0 c1 c2 c3 se kind incomplete,
        later world c c0 /\ later world c0 c1 /\ later world c1 c2 /\ later world c2 c3 /\ later world c3 c'
        /\ session_source sessionID (cn_db c0) = Some (se, kind) /\ kind ∈ sources
        /\ let rows := audit_rows sessionID sources (cn_db c1) in
           res = audit_of se rows asOf incomplete (length (evidence_of sessionID sources true (cn_db c2)))
                   (length (evidence_of sessionID sources false (cn_db c3)))
           /\ NoDup labels /\ (forall l, l ∈ labels <-> l ∈ listed_labels rows)
           /\ dimensions_read world asOf (fun x => x = se_Source se \/ x ∈ (fun kv => ea_Source kv.2) <$> rows)
                (se_Project se) c0 c2 incomplete
  | Err e =>
      (exists c0, later world c c0 /\ session_source sessionID (cn_db c0) = None /\ se_Code e = ErrorCodeNotFound /\ c' = c0)
      \/ (exists c0 se kind, later world c c0 /\ session_source sessionID (cn_db c0) = Some (se, kind) /\ kind ∉ sources
          /\ se_Code e = ErrorCodePermissionDenied /\ c' = c0)
      \/ se_Code e = ErrorCodeInternal /\ se_Retryable e = true /\ a_failure world c c'
  end.

(** The end of an audit: one of its later reads failed. *)
Lemma audit_failed world sessionID sources asOf c c1 c' what :
  later world c c1 -> later world c1 c' -> a_failure world c1 c' ->
  later world c c' /\ audit_answer world sessionID sources asOf c (Err (audit_failure what)) c'.
Proof.
  intros L1 L2 HF. split; [by apply (later_trans _ _ c1)|]. right; right. split_and!; [done..|].
  exact (failure_within _ _ c1 c' _ L1 HF (later_refl _ _)).
Qed.

Lemma AuditSession_report world sessionID sources asOf c r c' :
  AuditSession world sessionID sources asOf c = (r, c') ->
  later world c c' /\ audit_answer world sessionID sources asOf c r c'.
Proof.
  unfold AuditSession.
  intros [(found & c0 & [R0 [[[=] _]|[n0 [= ->]]]]%read_inv & E)|(e & [R0 [[[= ->] F]|[n [=]]]]%read_inv & ->)]%and_then_inv;
    [|by apply (audit_failed _ _ _ _ c c); [apply later_refl|..]].
  destruct (session_source sessionID (cn_db c0)) as [[se kind]|] eqn:Hse;
    [|injection E as <- <-; split; [done|]; left; exists c0; by split_and!].
  case_bool_decide as Hk; cbn [negb] in E; [|injection E as <- <-; split; [done|]; right; left; exists c0, se, kind; by split_and!].
  apply and_then_inv in E as [(incomplete & c1 & E1 & E)|(e & E1 & ->)];
    apply validate_inv in E1 as (R1 & b & Hb & HV); [injection Hb as <-|done].
  pose proof (later_trans _ _ _ _ R0 R1) as R01.
  apply and_then_inv in E as [(rows & c2 & [R2 [[[=] _]|[n2 [= ->]]]]%read_inv & E)|(e & [R2 [[[= ->] F]|[n [=]]]]%read_inv & ->)];
    [|by apply (audit_failed _ _ _ _ c c1)].
  pose proof (later_trans _ _ _ _ R01 R2) as R02.
  apply and_then_inv in E as [(s & c3 & E3 & E)|(e & E3 & ->)];
    (apply read_rows_inv in E3 as (R3 & s' & inc & Hs & Hrefs & Hinc & Hcov & Hred & HN & Hlab & Hval);
      [|split; [constructor|set_solver]]); [injection Hs as <-|done].
  pose proof (later_trans _ _ _ _ R02 R3) as R03. cbn [rd_Refs rd_Incomplete rd_Coverage rd_Redaction rd_Labels rd_Validated app] in *.
  apply and_then_inv in E as [(u & c4 & [R4 _]%read_inv & E)|(e & [R4 [[[= ->] F]|[n [=]]]]%read_inv & ->)];
    [|by apply (audit_failed _ _ _ _ c c3)].
  pose proof (later_trans _ _ _ _ R03 R4) as R04.
  apply and_then_inv in E as [(eligible & c5 & [R5 [[[=] _]|[n5 [= ->]]]]%read_inv & E)|(e & [R5 [[[= ->] F]|[n [=]]]]%read_inv & ->)];
    [|by apply (audit_failed _ _ _ _ c c4)].
  pose proof (later_trans _ _ _ _ R04 R5) as R05.
  apply and_then_inv in E as [(filtered & c6 & [R6 [[[=] _]|[n6 [= ->]]]]%read_inv & E)|(e & [R6 [[[= ->] F]|[n [=]]]]%read_inv & ->)];
    [injection E as <- <-|by apply (audit_failed _ _ _ _ c c5)].
  split; [by apply (later_trans _ _ c5)|].
  exists c0, c2, c5, c6, se, kind, (incomplete || inc). cbv zeta.
  split_and!; try done.
  - by apply (later_trans _ _ c1).
  - by apply (later_trans _ _ c3), (later_trans _ _ c4).
  - apply later_refl.
  - unfold audit_of. rewrite Hrefs, Hinc, Hcov, Hred, length_fmap.
    destruct incomplete, inc, (listed_partial _); done.
  - intros l. rewrite Hlab, elem_of_nil. tauto.
  - apply (dimensions_or _ _ _ _ _ _ c0 c1 c5 _ _ R1 HV (later_trans _ _ _ _ R2 (later_trans _ _ _ _ R3 (later_trans _ _ _ _ R4 R5)))
             (dimensions_within _ _ _ _ _ _ _ _ _ R2 Hval (later_trans _ _ _ _ R4 R5))).
    intros x. destruct (decide (x = se_Source se)) as [->|Hne]; set_solver.
Qed.

(** C25: the audit of a session, whatever fails and whatever others write in between.  It writes
    nothing.  Its evidence is the first hundred rows, in order of observation, that the session has
    of the configured sources, and no other; the labels are those of the listed rows, each once;
    what is left out is counted.  Its coverage is that of the session unless a listed row is not
    complete, the dimensions are incomplete, or there is no evidence.  The dimensions are those of
    the session's source, of its project if it has one, and of the sources of the listed rows: they
    are reported complete only if each had a version when it was looked at, and incomplete only if
    one of them had none at some time of the audit, or a statement of the audit failed.  The audit is
    refused only when there is no such session, when the session is of another source, with nothing
    read of the evidence, or when one of its statements failed. *)
Theorem AuditSession_exact world sessionID sources asOf c r c' :
  AuditSession world sessionID sources asOf c = (r, c') ->
  reached world (cn_db c) (cn_db c') /\ audit_answer world sessionID sources asOf c r c'.
Proof. intros [[H _] HA]%AuditSession_report. done. Qed.

(** ** The tool over the store *)

Definition over_postgres (world : Outside DB) (c : Conn DB) (service : Service) : Service :=
  mkService (sv_executionPolicy service) (sv_allowedSources service) (sv_processEnabled service)
    (mkStores (Some (postgres_audits world c)) (st_projectAudits (sv_stores service))).

Lemma check_sources_allowed service allowed sources :
  check_sources service allowed sources = None -> forall s, s ∈ sources -> s ∈ allowed.
Proof.
  induction sources as [|x l IH]; cbn [check_sources]; [by intros _ s ?%not_elem_of_nil|].
  case_bool_decide as Hx; [|done]. cbn [negb]. destruct (_ && _); [done|].
  intros H s [->|Hs]%elem_of_cons; [done|]. exact (IH H s Hs).
Qed.

Lemma audit_session_query_ok service parse_time request q :
  audit_session_query service parse_time request = Ok q ->
  asq_Consent request = AuditConsentGranted
  /\ (forall allowed, sv_allowedSources service = Some allowed -> forall s, s ∈ asq_ConfiguredSources request -> s ∈ allowed).
Proof.
  unfold audit_session_query. destruct (_ || _ || _); [done|]. destruct (_ =s AuditConsentDenied); [done|].
  destruct (asq_Consent request =s AuditConsentGranted) eqn:Hc; [|done]. cbn [negb]. apply str_eqb_eq in Hc.
  destruct (validateSources _); [done|]. unfold sources_allowed.
  intros H. split; [done|]. intros allowed Ha. rewrite Ha in H.
  destruct (check_sources _ _ _) eqn:E; [done|]. exact (check_sources_allowed _ _ _ E).
Qed.

Lemma query_over_postgres world c service parse_time request :
  audit_session_query (over_postgres world c service) parse_time request = audit_session_query service parse_time request.
Proof.
  assert (forall allowed l, check_sources (over_postgres world c service) allowed l = check_sources service allowed l) as H.
  { induction l as [|x l IH]; cbn [check_sources]; [done|]. by rewrite IH. }
  unfold audit_session_query, sources_allowed. cbn [over_postgres sv_allowedSources].
  destruct (sv_allowedSources service); [|done]. by rewrite H.
Qed.

(** What the [audit_session] tool can reveal.  Over the store, whatever fails and whatever
    others write: with a result, consent was granted, there are at most a hundred references, and
    every one of them is a row that the store had, of the session that was asked for, from a source
    that the request and the configuration of the service both allow. *)
Theorem audit_tool_scope world c service parse_time active session request state res state' :
  auditSession (over_postgres world c service) parse_time active session request state = (Ok res, state') ->
  asq_Consent request = AuditConsentGranted
  /\ (length (asr_EvidenceRefs res) <= 100)%nat
  /\ exists sessionID asOf, audit_session_query service parse_time request = Ok (sessionID, asOf)
     /\ forall ref, ref ∈ asr_EvidenceRefs res ->
          exists d row kind, reached world (cn_db c) d
            /\ db_artifacts d !! ref = Some row /\ ea_Session row = Some sessionID
            /\ kind_of d (ea_Source row) = Some kind /\ kind ∈ asq_ConfiguredSources request
            /\ forall allowed, sv_allowedSources service = Some allowed -> kind ∈ allowed.
Proof.
  unfold auditSession. rewrite query_over_postgres.
  destruct (audit_session_query service parse_time request) as [[sessionID asOf]|e] eqn:Hq; [|done].
  cbn [over_postgres sv_stores st_audits]. unfold postgres_audits.
  destruct (AuditSession world sessionID _ asOf c) as [r c'] eqn:E. apply AuditSession_report in E as [_ E].
  destruct r as [[r labels]|e]; cbn [stable fst]; [|done]. intros [= <- _].
  destruct E as (c0 & c1 & c2 & c3 & se & kind & incomplete & [R0 _] & [R1 _] & _ & _ & _ & _ & _ & -> & _).
  apply audit_session_query_ok in Hq as [Hc Ha]. split; [done|]. cbn [audit_of asr_EvidenceRefs]. split.
  { rewrite length_fmap. unfold audit_rows. rewrite length_take. lia. }
  exists sessionID, asOf. split; [done|].
  intros ref (kv & -> & (Hr & Hs & k & Hk & Hks)%take_rows_facts)%list_elem_of_fmap.
  exists (cn_db c1), kv.2, k. split; [by apply (reached_trans _ _ _ _ R0)|]. split_and!; try done.
  intros allowed Hal. by apply (Ha allowed Hal k).
Qed.

(** ** A concrete audit *)

Definition audit_session_id : string := "11111111-1111-4111-8111-111111111111".

Definition seen (source coverage redaction : string) (t : Z) : ArtifactRow :=
  mkArtifactRow source (Some "project") (Some audit_session_id) None "1" "" 0 "internal" redaction coverage
    "runtime_observed" "local" t None.

(** A session with two rows of its source, and one of git. *)
Definition audited_db : DB :=
  set_row db_artifacts "a" (seen "source" "complete" "applied" 2) (set_row db_artifacts "b" (seen "source" "complete" "not_needed" 1)
    (set_row db_artifacts "c" (seen "git" "partial" "not_needed" 0)
      (set_row db_sessions audit_session_id (mkSessionRow (Some "project") "source" 1 "complete" "observed")
        (set_row db_source_versions "v1" (mkVersion "source" 1 (mkSourceAttributes None "local" "complete" true) "" 0 None)
          (set_row db_source_versions "v2" (mkVersion "git" 1 (mkSourceAttributes None "local" "complete" true) "" 0 None)
            (set_row db_project_versions "v3" (mkVersion "project" 1 (mkProjectAttributes "internal" "active") "" 0 None)
              (set_row db_sources "git" (mkSourceRow "git" 0)
                (set_row db_sources "source" (mkSourceRow "codex_jsonl" 0) (set_row db_projects "project" 0%Z empty_db))))))))).

Definition session_audit (sources : list string) : AuditSessionRequest :=
  mkAuditSessionRequest SchemaVersion "request" ("current:" +:+ audit_session_id) AuditConsentGranted sources.

Definition audit_service : Service :=
  mkService ExecutionPolicyAskBeforeExecute (Some {["codex_jsonl"; "git"]}) false (mkStores None None).

Definition tool_answer (sources : list string) : result ToolError AuditSessionResult :=
  (auditSession (over_postgres calm (mkConn audited_db 0) audit_service) (fun _ => None) [] "s1" (session_audit sources) ∅).1.

Example audits_answered :
  tool_answer ["codex_jsonl"] = Ok (mkAuditSessionResult SchemaVersion "result" "complete" ["b"; "a"]
                                      ["evidence_count:2"; "dimension_semantics:current"; "source_filtered:1"] true)
  /\ tool_answer ["codex_jsonl"; "git"] = Ok (mkAuditSessionResult SchemaVersion "result" "partial" ["c"; "b"; "a"]
                                                ["evidence_count:3"; "dimension_semantics:current"] true)
  /\ (exists e, tool_answer ["git"] = Err (Stable e) /\ se_Code e = ErrorCodePermissionDenied).
Proof. split_and!; [vm_compute; reflexivity..|]. eexists. split; [vm_compute; reflexivity|done]. Qed.

Example AuditSession_exact_witness :
  exists res labels c', AuditSession calm audit_session_id ["codex_jsonl"] None (mkConn audited_db 0) = (Ok (res, labels), c')
    /\ asr_EvidenceRefs res = ["b"; "a"]
    /\ audit_answer calm audit_session_id ["codex_jsonl"] None (mkConn audited_db 0) (Ok (res, labels)) c'.
Proof.
  destruct (AuditSession calm audit_session_id ["codex_jsonl"] None (mkConn audited_db 0)) as [r c'] eqn:E.
  assert (exists res labels, r = Ok (res, labels) /\ asr_EvidenceRefs res = ["b"; "a"]) as (res & labels & -> & Hr).
  { replace r with (AuditSession calm audit_session_id ["codex_jsonl"] None (mkConn audited_db 0)).1 by (rewrite E; reflexivity).
    eexists _, _. split; vm_compute; reflexivity. }
  exists res, labels, c'. split; [reflexivity|]. split; [exact Hr|].
  exact (proj2 (AuditSession_exact calm audit_session_id ["codex_jsonl"] None (mkConn audited_db 0) (Ok (res, labels)) c' E)).
Defined.

Example audit_tool_scope_witness :
  exists res state', auditSession (over_postgres calm (mkConn audited_db 0) audit_service) (fun _ => None) [] "s1"
                       (session_audit ["codex_jsonl"]) ∅ = (Ok res, state')
    /\ asr_EvidenceRefs res = ["b"; "a"] /\ (length (asr_EvidenceRefs res) <= 100)%nat.
Proof.
  destruct (auditSession (over_postgres calm (mkConn audited_db 0) audit_service) (fun _ => None) [] "s1"
              (session_audit ["codex_jsonl"]) ∅) as [r state'] eqn:E.
  assert (exists res, r = Ok res /\ asr_EvidenceRefs res = ["b"; "a"]) as (res & -> & Hr).
  { replace r with (tool_answer ["codex_jsonl"]) by (unfold tool_answer; rewrite E; reflexivity).
    eexists. split; vm_compute; reflexivity. }
  exists res, state'. split; [reflexivity|]. split; [exact Hr|].
  exact (proj1 (proj2 (audit_tool_scope calm (mkConn audited_db 0) audit_service (fun _ => None) [] "s1"
                         (session_audit ["codex_jsonl"]) ∅ res state' E))).
Defined.
