(* ===== verification/Leases.v ===== *)
(** * Cursors and leases (internal/store/postgres/repository.go)

    A source has one row: where collection stopped, as text, and who may continue.  A lease is
    the text leased:fence in the state of the row and an expiry.  Taking, renewing and releasing a
    lease and committing under it check them; AdvanceSequenceCursor checks neither, and is in the
    protocol below with the others.

    [sha256] is SHA-256 (32 bytes): an argument.  Instants and durations are in nanoseconds. *)
From Stdlib Require Import Ascii.
From S2P Require Import Contracts GoInt Utf8 GoFmt Snapshots Transactions Tables.

(** ** The text of a cursor *)

Definition colon : ascii := ":".

Definition encodeCollectionCursor (generation digest : string) (sequence : Z) : string :=
  if generation =s "" then fmt_d sequence
  else generation +:+ ":" +:+ digest +:+ ":" +:+ fmt_d sequence.

Definition is_digit (c : ascii) : bool := in_range 48 57 (byte c).

Fixpoint take_digits (s : string) : string :=
  match s with
  | String c rest => if is_digit c then String c (take_digits rest) else ""
  | EmptyString => ""
  end.

(** [fmt.Sscanf(s, "%d", &next)] with an unsigned [next]: white space but no newline, digits of a
    64-bit number, and anything after them. *)
Definition scan_uint (s : string) : option Z :=
  let rest := trim_left_func is_space s in
  let skipped := str_take (String.length s - String.length rest) s in
  let digits := take_digits rest in
  if str_contains (String "010" "") skipped || (digits =s "") then None
  else
    let n := parse_digits 0 digits in
    if (n <=? max_u64)%Z then Some n else None.

Definition decodeCollectionCursor (value : string) : option (string * string * Z) :=
  let '(generation, digest, sequence) :=
    match split_on colon value with
    | [generation; digest; sequence] => (generation, digest, sequence)
    | [generation; sequence] => (generation, "", sequence)
    | _ => ("", "", value)
    end in
  (fun next => (generation, digest, next)) <$> scan_uint sequence.

(** ** Statements on the row of a source *)

Definition leased (fence : string) : string := "leased:" +:+ fence.

Definition lease_over (row : CursorRow) (t : Z) : bool :=
  match cu_LeaseExpires row with None => true | Some e => (e <=? t)%Z end.

Definition lease_running (row : CursorRow) (t : Z) : bool :=
  match cu_LeaseExpires row with None => false | Some e => (t <? e)%Z end.

(** [time.Format] with RFC 3339 and nanoseconds: the fraction without its trailing zeros. *)
Definition fmt_time_nano (ns : Z) : string :=
  let digits := (fun k => String (digit_char (ns / 10 ^ Z.of_nat k mod 10)) "") <$> reverse (seq 0 9) in
  let fraction := trim_right "0" (str_concat digits) in
  trim_suffix "Z" (fmt_time ns) +:+ (if fraction =s "" then "" else "." +:+ fraction) +:+ "Z".

Example fmt_time_nano_examples :
  fmt_time_nano <$> [0; 1500000000; 1000000001]%Z
  = ["1970-01-01T00:00:00Z"; "1970-01-01T00:00:01.5Z"; "1970-01-01T00:00:01.000000001Z"].
Proof. vm_compute. reflexivity. Qed.

(** What [AcquireCollectionLease] makes of the row, if it takes the lease. *)
Definition acquire_row (fence : string) (t duration : Z) (row : option CursorRow) : option CursorRow :=
  match row with
  | None => Some (mkCursorRow "0" (leased fence) t (Some (t + duration)%Z) t)
  | Some r =>
      if lease_over r t
      then Some (mkCursorRow (cu_Value r) (leased fence) (cu_ObservedAt r) (Some (t + duration)%Z) t)
      else None
  end.

Definition renew_row (fence : string) (t duration : Z) (row : option CursorRow) : option CursorRow :=
  match row with
  | Some r =>
      if (cu_State r =s leased fence) && lease_running r t
      then Some (mkCursorRow (cu_Value r) (cu_State r) (cu_ObservedAt r) (Some (t + duration)%Z) t)
      else None
  | None => None
  end.

Definition release_row (fence : string) (t : Z) (row : option CursorRow) : option CursorRow :=
  match row with
  | Some r =>
      if cu_State r =s leased fence
      then Some (mkCursorRow (cu_Value r) "active" (cu_ObservedAt r) None t)
      else None
  | None => None
  end.

(** The last statement of [CommitCollection]: the row of a source without one is inserted. *)
Definition advance_row (fence value : string) (observedAt t : Z) (row : option CursorRow) : option CursorRow :=
  match row with
  | None => Some (mkCursorRow value (leased fence) observedAt None observedAt)
  | Some r =>
      if (cu_State r =s leased fence) && lease_running r t
      then Some (mkCursorRow value (leased fence) observedAt (cu_LeaseExpires r) observedAt)
      else None
  end.

(** [x::numeric] of a text that the store wrote; an error of the server for others. *)
Definition numeric_text (s : string) : option Z :=
  if negb (s =s "") && (take_digits s =s s) then Some (parse_digits 0 s) else None.

(** The statement of [AdvanceSequenceCursor]: it looks at no fence, and it overwrites the state.
    The comparison of the two cursors as numbers fails for a cursor with a generation. *)
Definition sequence_row (next observedAt : Z) (row : option CursorRow) : result string (option CursorRow) :=
  match row with
  | None => Ok (Some (mkCursorRow (fmt_d next) "active" observedAt None observedAt))
  | Some r =>
      match numeric_text (cu_Value r) with
      | None => Err "22P02"
      | Some current =>
          Ok (if (current <? next)%Z
              then Some (mkCursorRow (fmt_d next) "active" observedAt (cu_LeaseExpires r) observedAt)
              else None)
      end
  end.

Section Calls.
Context (sha256 : string -> string) (world : Outside DB).

(** An INSERT or UPDATE of the row of a source: whether a row was affected. *)
Definition change_row (source : string) (change : Z -> option CursorRow -> option CursorRow) (n : nat) (d : DB)
    : result string (bool * DB) :=
  match change (ou_clock world n) (db_cursors d !! source) with
  | None => Ok (false, d)
  | Some row =>
      if bool_decide (db_cursors d !! source = None) && negb (refers db_sources source d)
      then Err foreign_key_violation
      else Ok (true, set_row db_cursors source row d)
  end.

Definition fence_of (owner : string) (now : Z) : string :=
  hex_encode (str_take 16 (sha256 (owner +:+ fmt_time_nano now))).

Definition AcquireCollectionLease (source owner : string) (now duration : Z) : Tx DB (string * bool) :=
  let fence := fence_of owner now in
  do! taken := pool world "acquire collection lease"
                 (change_row source (fun t => acquire_row fence t duration)) in
  tx_ret (fence, taken).

Definition RenewCollectionLease (source fence : string) (now duration : Z) : Tx DB bool :=
  pool world "renew collection lease" (change_row source (fun t => renew_row fence t duration)).

Definition ReleaseCollectionLease (source fence : string) : Tx DB unit :=
  do! _ := pool world "release collection lease" (change_row source (release_row fence)) in
  tx_ret tt.

(** The cursor of a source as it was read. *)
Definition read_cursor {A} (message : string) (absent : A) (part : string * string * Z -> A) (source : string)
    : Tx DB A :=
  do! value := pool_query world message (fun _ d => cu_Value <$> db_cursors d !! source) in
  match value with
  | None => tx_ret absent
  | Some value =>
      match decodeCollectionCursor value with
      | None => tx_err (ErrMessage "invalid collection cursor")
      | Some parts => tx_ret (part parts)
      end
  end.

Definition CollectionCursor (source : string) : Tx DB Z :=
  read_cursor "read collection cursor" 0%Z (fun '(_, _, next) => next) source.

Definition CollectionGeneration (source : string) : Tx DB string :=
  read_cursor "read collection generation" "" (fun '(generation, _, _) => generation) source.

Definition CollectionDigest (source : string) : Tx DB string :=
  read_cursor "read collection digest" "" (fun '(_, digest, _) => digest) source.

Definition advance_sequence (source : string) (next observedAt : Z) (d : DB) : result string (bool * DB) :=
  match sequence_row next observedAt (db_cursors d !! source) with
  | Err e => Err e
  | Ok None => Ok (false, d)
  | Ok (Some row) =>
      if bool_decide (db_cursors d !! source = None) && negb (refers db_sources source d)
      then Err foreign_key_violation
      else Ok (true, set_row db_cursors source row d)
  end.

Definition AdvanceSequenceCursor (source : string) (next observedAt : Z) : Tx DB unit :=
  do! advanced := pool world "advance collection cursor" (fun _ => advance_sequence source next observedAt) in
  fail_if! negb advanced with ErrStaleCursor in tx_ret tt.
End Calls.

(** ** Cursors are read back *)

Lemma digits_go_digits fuel n acc :
  (0 <= n)%Z -> take_digits acc = acc -> take_digits (digits_go fuel n acc) = digits_go fuel n acc.
Proof.
  revert n acc. induction fuel as [|fuel IH]; intros n acc Hn Ha; cbn [digits_go]; [done|].
  pose proof (Z.mod_pos_bound n 10 ltac:(lia)).
  assert (take_digits (String (digit_char (n mod 10)) acc) = String (digit_char (n mod 10)) acc) as Hd.
  { cbn [take_digits]. unfold is_digit, in_range. rewrite byte_digit_char by done.
    rewrite (proj2 (Z.leb_le 48 _)), (proj2 (Z.leb_le _ 57)) by lia. cbn. by rewrite Ha. }
  destruct (n <? 10)%Z; [done|]. apply IH; [apply Z.div_pos; lia|done].
Qed.

Lemma digits_go_head fuel n acc : (0 <= n)%Z -> (0 < fuel)%nat ->
  exists c s, digits_go fuel n acc = String c s /\ is_digit c = true.
Proof.
  intros Hn Hf. assert (forall f m a, (0 <= m)%Z ->
      (exists c s, a = String c s /\ is_digit c = true) \/ (0 < f)%nat ->
      exists c s, digits_go f m a = String c s /\ is_digit c = true) as H; [|apply H; auto].
  clear. intros f. induction f as [|f IH]; intros m a Hm [Ha|Hf]; cbn [digits_go]; [done|lia|..];
    pose proof (Z.mod_pos_bound m 10 ltac:(lia));
    (assert (is_digit (digit_char (m mod 10)) = true) as Hd;
      [unfold is_digit, in_range; rewrite byte_digit_char by done; apply andb_true_iff; rewrite !Z.leb_le; lia|]);
    (destruct (m <? 10)%Z; [eauto|]); (apply IH; [apply Z.div_pos; lia|left; eauto]).
Qed.

Lemma fmt_d_digits n : (0 <= n)%Z ->
  take_digits (fmt_d n) = fmt_d n /\ exists c s, fmt_d n = String c s /\ is_digit c = true.
Proof.
  intros Hn. unfold fmt_d. rewrite (proj2 (Z.ltb_ge n 0)) by done. split; [by apply digits_go_digits|].
  apply digits_go_head; [done|lia].
Qed.

Lemma parse_fmt_d n : (0 <= n < 10 ^ 20)%Z -> parse_digits 0 (fmt_d n) = n.
Proof.
  intros Hn. unfold fmt_d. rewrite (proj2 (Z.ltb_ge n 0)) by lia. by rewrite parse_digits_go by (done || lia).
Qed.

Lemma digit_not_space c s : is_digit c = true -> starts_outside is_space (String c s).
Proof.
  unfold is_digit, in_range, starts_outside. rewrite andb_true_iff, !Z.leb_le. intros H.
  rewrite chunks_ascii by lia. cbn. intros x [= <-]. cbn. unfold is_space, in_range.
  repeat (apply orb_false_iff; split); bool_cases; lia.
Qed.

Lemma scan_fmt_d n : u64_range n -> scan_uint (fmt_d n) = Some n.
Proof.
  intros Hn. unfold u64_range in Hn. destruct (fmt_d_digits n) as (Ht & c & s & E & Hc); [lia|].
  unfold scan_uint. rewrite trim_left_id by (rewrite E; by apply digit_not_space).
  rewrite Ht, Nat.sub_diag, parse_fmt_d by lia. rewrite E. cbn [str_take].
  rewrite (proj2 (Z.leb_le n max_u64)) by (unfold max_u64; lia). done.
Qed.

Lemma split_three a b c : no_char colon a -> no_char colon b -> no_char colon c ->
  split_on colon (a +:+ ":" +:+ b +:+ ":" +:+ c) = [a; b; c].
Proof.
  intros Ha Hb Hc. change (a +:+ ":" +:+ b +:+ ":" +:+ c) with (a +:+ String colon (b +:+ String colon c)).
  rewrite split_on_app by done. by rewrite split_on_app, split_on_single.
Qed.

Lemma digits_no_colon s : take_digits s = s -> no_char colon s.
Proof.
  induction s as [|c s IH]; intros H; [constructor|]. cbn in H. destruct (is_digit c) eqn:Hc; [|discriminate H].
  injection H as H. constructor; [|by apply IH]. intros ->. vm_compute in Hc. discriminate Hc.
Qed.

Lemma decode_encode generation digest next :
  no_char colon generation -> no_char colon digest -> u64_range next ->
  decodeCollectionCursor (encodeCollectionCursor generation digest next)
  = Some (generation, if generation =s "" then "" else digest, next).
Proof.
  intros Hg Hd Hn. destruct (fmt_d_digits next) as [Ht _]; [unfold u64_range in Hn; lia|].
  apply digits_no_colon in Ht. unfold encodeCollectionCursor, decodeCollectionCursor.
  destruct (generation =s "") eqn:E.
  - apply str_eqb_eq in E as ->. rewrite split_on_single, scan_fmt_d by done. done.
  - rewrite split_three, scan_fmt_d by done. done.
Qed.

(** A cursor survives its text.  The generation and the digest of a cursor have no colon, and
    the number has 64 bits: what is encoded is decoded, except that a cursor without a generation
    loses its digest; two cursors with a generation have the same text only if they are equal. *)
Theorem cursor_roundtrip generation digest next :
  no_char colon generation -> no_char colon digest -> u64_range next ->
  decodeCollectionCursor (encodeCollectionCursor generation digest next)
  = Some (generation, if generation =s "" then "" else digest, next)
  /\ forall generation' digest' next',
       no_char colon generation' -> no_char colon digest' -> u64_range next' -> generation <> "" ->
       encodeCollectionCursor generation digest next = encodeCollectionCursor generation' digest' next' ->
       generation' = generation /\ digest' = digest /\ next' = next.
Proof.
  intros Hg Hd Hn. pose proof (decode_encode _ _ _ Hg Hd Hn) as E. split; [exact E|].
  intros g d n Hg' Hd' Hn' Hne HE. rewrite HE, (decode_encode _ _ _ Hg' Hd' Hn') in E.
  injection E as -> E ->. apply str_eqb_neq in Hne. rewrite Hne in E. done.
Qed.

Example cursor_roundtrip_witness :
  decodeCollectionCursor (encodeCollectionCursor "0a" "ff" max_u64) = Some ("0a", "ff", max_u64).
Proof.
  apply (cursor_roundtrip "0a" "ff" max_u64); [repeat constructor; discriminate..|].
  unfold u64_range, max_u64. lia.
Defined.

(** Texts that the code has to read as well: a number alone, a generation and a number; anything
    after the number is ignored. *)
Example decode_examples :
  decodeCollectionCursor <$> ["0"; "g:7"; "g:d:7"; " 7"; "7x"; ""; "g:d:"; "18446744073709551616"; "a:b:c:7"]
  = [Some ("", "", 0); Some ("g", "", 7); Some ("g", "d", 7); Some ("", "", 7); Some ("", "", 7); None; None;
     None; None]%Z.
Proof. vm_compute. reflexivity. Qed.

(** ** The protocol of leases *)

(** The statements that change the row of a source: a grant is an acquisition or a renewal. *)
Inductive LeaseEvent :=
  | Granted (fence : string) (expires : Z)
  | Released (fence : string)
  | Advanced (fence value : string)
  | Sequenced (next : Z).

(** One statement of any connection on the row of a source, with the time that the statement has
    of the server ([statement_timestamp]).  [CommitCollection] reaches its statement only with a row:
    it has locked the row and read the state. *)
Inductive lease_step (t : Z) : option CursorRow -> LeaseEvent -> option CursorRow -> Prop :=
  | step_acquire fence duration row row' :
      acquire_row fence t duration row = Some row' ->
      lease_step t row (Granted fence (t + duration)) (Some row')
  | step_renew fence duration row row' :
      renew_row fence t duration row = Some row' ->
      lease_step t row (Granted fence (t + duration)) (Some row')
  | step_release fence row row' :
      release_row fence t row = Some row' ->
      lease_step t row (Released fence) (Some row')
  | step_advance fence value observedAt r row' :
      advance_row fence value observedAt t (Some r) = Some row' ->
      lease_step t (Some r) (Advanced fence value) (Some row')
  | step_sequence next observedAt row row' :
      sequence_row next observedAt row = Ok (Some row') ->
      lease_step t row (Sequenced next) (Some row').

(** What the statements that changed the row of a source made of no row: in the order in which the
    server ran them, each with its time.  Nothing is said about the order of the times. *)
Inductive lease_run : list (Z * LeaseEvent) -> option CursorRow -> Prop :=
  | run_nil : lease_run [] None
  | run_event events row t e row' :
      lease_run events row -> lease_step t row e row' -> lease_run (events ++ [(t, e)]) row'.

(** What ends a grant of [fence], or replaces it. *)
Definition concerns (fence : string) (e : LeaseEvent) : bool :=
  match e with
  | Granted f _ | Released f => f =s fence
  | Advanced _ _ | Sequenced _ => false
  end.

Definition undisturbed (fence : string) (events : list (Z * LeaseEvent)) : Prop :=
  Forall (fun e => concerns fence e.2 = false) events.

Definition grants (e : LeaseEvent) : bool := match e with Granted _ _ => true | _ => false end.
Definition sequences (e : LeaseEvent) : bool := match e with Sequenced _ => true | _ => false end.

Definition ungranted (events : list (Z * LeaseEvent)) : Prop := Forall (fun e => grants e.2 = false) events.
Definition unsequenced (events : list (Z * LeaseEvent)) : Prop := Forall (fun e => sequences e.2 = false) events.

(** The cursor after a statement that changed the row. *)
Definition moved (value : option string) (e : LeaseEvent) : option string :=
  match e with
  | Granted _ _ => Some (default "0" value)
  | Released _ => value
  | Advanced _ v => Some v
  | Sequenced next => Some (fmt_d next)
  end.

Definition cursor_after (events : list (Z * LeaseEvent)) : option string :=
  foldl (fun value e => moved value e.2) None events.

Lemma leased_inj a b : leased a = leased b -> a = b.
Proof. unfold leased. intros H. by injection H. Qed.

(** The row says who holds the lease until when. *)
Definition held_row (fence : string) (expires : Z) (row : option CursorRow) : Prop :=
  exists r, row = Some r /\ cu_State r = leased fence /\ cu_LeaseExpires r = Some expires.

(** The row keeps others out until then: after [AdvanceSequenceCursor], its owner as well. *)
Definition reserved (fence : string) (expires : Z) (row : option CursorRow) : Prop :=
  exists r, row = Some r /\ (cu_State r = leased fence \/ cu_State r = "active") /\ cu_LeaseExpires r = Some expires.

Lemma acquired fence t duration row row' :
  acquire_row fence t duration row = Some row' ->
  held_row fence (t + duration) (Some row') /\ (row = None \/ exists r, row = Some r /\ lease_over r t = true)
  /\ Some (cu_Value row') = Some (default "0" (cu_Value <$> row)).
Proof.
  unfold acquire_row. destruct row as [r|]; [destruct (lease_over r t) eqn:E; [|discriminate]|]; intros [= <-];
    (split; [by eexists|split; [|done]]); [right; by exists r|by left].
Qed.

Lemma renewed fence t duration row row' :
  renew_row fence t duration row = Some row' ->
  exists r, row = Some r /\ cu_State r = leased fence /\ held_row fence (t + duration) (Some row')
    /\ cu_Value row' = cu_Value r.
Proof.
  unfold renew_row. destruct row as [r|]; [|discriminate]. destruct (_ && _) eqn:E; [|discriminate].
  apply andb_true_iff in E as [E%str_eqb_eq _]. intros [= <-]. exists r. split_and!; [done..|by eexists|done].
Qed.

Lemma released fence t row row' :
  release_row fence t row = Some row' ->
  exists r, row = Some r /\ cu_State r = leased fence /\ cu_LeaseExpires row' = None /\ cu_Value row' = cu_Value r.
Proof.
  unfold release_row. destruct row as [r|]; [|discriminate]. destruct (_ =s _) eqn:E; [|discriminate].
  apply str_eqb_eq in E. intros [= <-]. by exists r.
Qed.

Lemma advanced fence value observedAt t r row' :
  advance_row fence value observedAt t (Some r) = Some row' ->
  cu_State r = leased fence /\ (exists x, cu_LeaseExpires r = Some x /\ (t < x)%Z)
  /\ cu_State row' = leased fence /\ cu_LeaseExpires row' = cu_LeaseExpires r /\ cu_Value row' = value.
Proof.
  cbn. destruct (_ && _) eqn:E; [|discriminate]. apply andb_true_iff in E as [E%str_eqb_eq Hr]. intros [= <-].
  unfold lease_running in Hr. destruct (cu_LeaseExpires r) as [x|] eqn:Hx; [|discriminate Hr].
  apply Z.ltb_lt in Hr. split_and!; [done|by exists x|done..].
Qed.

Lemma sequenced next observedAt row row' :
  sequence_row next observedAt row = Ok (Some row') ->
  cu_State row' = "active" /\ cu_Value row' = fmt_d next /\ cu_LeaseExpires row' = r ← row; cu_LeaseExpires r.
Proof.
  unfold sequence_row. destruct row as [r|]; [|by intros [= <-]].
  destruct (numeric_text _) as [c|]; [|discriminate]. destruct (c <? next)%Z; [|discriminate]. by intros [= <-].
Qed.

Lemma held_reserved fence expires row : held_row fence expires row -> reserved fence expires row.
Proof. intros (r & ? & ? & ?). exists r. auto. Qed.

(** A reserved row stays reserved, until a grant to another after the expiry. *)
Lemma reserved_step fence expires t row e row' :
  reserved fence expires row -> lease_step t row e row' -> concerns fence e = false ->
  if grants e then (expires <= t)%Z else reserved fence expires row'.
Proof.
  intros (r & -> & Hs & He) HS. remember (Some r) as row eqn:Hrow.
  destruct HS as [f d row row' Hr|f d row row' Hr|f row row' Hr|f v o r' row' Hr|next o row row' Hr];
    subst; cbn [grants concerns]; intros Hc.
  - apply acquired in Hr as (_ & [Hr|(r0 & [= <-] & Hr)] & _); [discriminate|].
    unfold lease_over in Hr. rewrite He in Hr. by apply Z.leb_le.
  - apply renewed in Hr as (r0 & [= <-] & Hf & _). destruct Hs as [Hs|Hs]; [|by rewrite Hs in Hf].
    rewrite Hs in Hf. apply leased_inj in Hf as ->. by rewrite str_eqb_refl in Hc.
  - apply released in Hr as (r0 & [= <-] & Hf & _). destruct Hs as [Hs|Hs]; [|by rewrite Hs in Hf].
    rewrite Hs in Hf. apply leased_inj in Hf as ->. by rewrite str_eqb_refl in Hc.
  - injection Hrow as ->. apply advanced in Hr as (Hf & _ & Hs' & He' & _).
    exists row'. rewrite He', Hs'. split_and!; [done| |done]. destruct Hs as [Hs|Hs]; [left|by rewrite Hs in Hf].
    by rewrite <- Hf.
  - apply sequenced in Hr as (Hs' & _ & He'). exists row'. rewrite He'. auto.
Qed.

(** Every row under a lease is covered by the last grant of its fence. *)
Definition covered (events : list (Z * LeaseEvent)) (row : option CursorRow) : Prop :=
  forall fence expires, held_row fence expires row ->
  exists before t after, events = before ++ [(t, Granted fence expires)] ++ after
    /\ undisturbed fence after /\ ungranted after /\ unsequenced after.

Lemma held_unique f x fence expires row : held_row f x row -> held_row fence expires row -> fence = f /\ expires = x.
Proof.
  intros (r & -> & Hs & He) (r' & [= <-] & Hs' & He'). rewrite Hs in Hs'. rewrite He in He'.
  injection He' as ->. by apply leased_inj in Hs' as ->.
Qed.

Lemma covered_grant events t f x row : held_row f x row -> covered (events ++ [(t, Granted f x)]) row.
Proof.
  intros H fence expires [-> ->]%(held_unique _ _ _ _ _ H). exists events, t, []. by repeat constructor.
Qed.

Lemma covered_step events t row e row' :
  covered events row -> lease_step t row e row' -> covered (events ++ [(t, e)]) row'.
Proof.
  intros H HS. destruct HS as [f d row row' Hr|f d row row' Hr|f row row' Hr|f v o r row' Hr|next o row row' Hr].
  - by apply covered_grant, (acquired _ _ _ _ _ Hr).
  - apply renewed in Hr as (_ & _ & _ & Hr & _). by apply covered_grant.
  - apply released in Hr as (_ & _ & _ & Hr & _). intros fence expires (r0 & [= <-] & _ & He).
    by rewrite Hr in He.
  - apply advanced in Hr as (Hf & _ & Hs & Hx & _). intros fence expires (r0 & [= <-] & Hs' & He).
    destruct (H fence expires) as (before & t0 & after & -> & Hu & Hg & Hq).
    { exists r. rewrite <- Hx, Hf, <- Hs. done. }
    exists before, t0, (after ++ [(t, Advanced f v)]). rewrite <- !app_assoc. split; [done|].
    split_and!; (apply Forall_app; split; [done|by repeat constructor]).
  - apply sequenced in Hr as (Hs & _). intros fence expires (r0 & [= <-] & Hs' & _). by rewrite Hs in Hs'.
Qed.

Lemma run_covered events row : lease_run events row -> covered events row.
Proof.
  induction 1 as [|events row t e row' _ IH HS]; [by intros f x (r & ? & _)|]. exact (covered_step _ _ _ _ _ IH HS).
Qed.

Lemma run_snoc_inv events t e row :
  lease_run (events ++ [(t, e)]) row -> exists row0, lease_run events row0 /\ lease_step t row0 e row.
Proof.
  inversion 1 as [E|events' row0 t' e' row' HR HS E]; [by destruct events|].
  apply app_inj_tail in E as [-> [= -> ->]]. by exists row0.
Qed.

Lemma run_prefix events after row : lease_run (events ++ after) row -> exists row0, lease_run events row0.
Proof.
  revert row. induction after as [|[t e] after IH] using rev_ind; intros row HR; [rewrite app_nil_r in HR; eauto|].
  rewrite app_assoc in HR. apply run_snoc_inv in HR as (row0 & HR & _). by apply (IH row0).
Qed.

(** From a grant on, as long as its owner does nothing and nobody else is granted it, the row is
    reserved. *)
Lemma run_reserved before t fence expires between row :
  lease_run (before ++ [(t, Granted fence expires)] ++ between) row ->
  undisturbed fence between -> ungranted between -> reserved fence expires row.
Proof.
  revert row. induction between as [|[t' e] between IH] using rev_ind; intros row HR Hu Hg.
  - rewrite app_nil_r in HR. apply run_snoc_inv in HR as (row0 & _ & HS). apply held_reserved.
    inversion HS as [? ? ? ? Hr|? ? ? ? Hr| | |]; subst; [apply (acquired _ _ _ _ _ Hr)|].
    apply renewed in Hr as (_ & _ & _ & Hr & _). exact Hr.
  - rewrite !app_assoc in HR. apply run_snoc_inv in HR as (row0 & HR & HS). rewrite <- app_assoc in HR.
    apply Forall_app in Hu as [Hu [Hc _]%Forall_cons]. apply Forall_app in Hg as [Hg [Hn _]%Forall_cons].
    pose proof (reserved_step _ _ _ _ _ _ (IH _ HR Hu Hg) HS Hc) as H. cbn [snd] in Hn. by rewrite Hn in H.
Qed.

Lemma next_grant_after before t fence expires between t' f x after row :
  lease_run (before ++ [(t, Granted fence expires)] ++ between ++ [(t', Granted f x)] ++ after) row ->
  undisturbed fence between -> ungranted between -> f <> fence -> (expires <= t')%Z.
Proof.
  intros HR Hu Hg Hf. rewrite !app_assoc in HR. apply run_prefix in HR as [row1 HR].
  apply run_snoc_inv in HR as (row0 & HR & HS). rewrite <- app_assoc in HR.
  pose proof (run_reserved _ _ _ _ _ _ HR Hu Hg) as H.
  refine (reserved_step _ _ _ _ (Granted f x) _ H HS _). by apply str_eqb_neq.
Qed.

(** The first grant of a list that has one. *)
Lemma first_grant (events : list (Z * LeaseEvent)) t f x :
  (t, Granted f x) ∈ events ->
  exists between t' f' x' after, events = between ++ [(t', Granted f' x')] ++ after /\ ungranted between
    /\ (t, Granted f x) ∈ (t', Granted f' x') :: after.
Proof.
  induction events as [|[t0 e0] events IH]; [by intros ?%not_elem_of_nil|]. intros Hin.
  destruct (grants e0) eqn:Hg.
  - destruct e0 as [f0 x0|?|? ?|?]; try discriminate Hg. exists [], t0, f0, x0, events. split_and!; [done|constructor|done].
  - apply elem_of_cons in Hin as [[= <- <-]|Hin]; [discriminate Hg|].
    destruct (IH Hin) as (b & t' & f' & x' & a & -> & Hb & Hi). exists ((t0, e0) :: b), t', f', x', a.
    split_and!; [done| |done]. by constructor.
Qed.

Lemma grant_after_expiry before t fence expires after t' f x row :
  lease_run (before ++ [(t, Granted fence expires)] ++ after) row ->
  undisturbed fence after -> StronglySorted Z.le (fst <$> after) -> (t', Granted f x) ∈ after -> (expires <= t')%Z.
Proof.
  intros HR Hu Hsort Hin. destruct (first_grant _ _ _ _ Hin) as (b & t1 & f1 & x1 & a & -> & Hb & Hi).
  apply Forall_app in Hu as [Hu [Hc _]%Forall_cons]. cbn in Hc. apply str_eqb_neq in Hc.
  pose proof (next_grant_after _ _ _ _ _ _ _ _ _ _ HR Hu Hb Hc) as Ht.
  apply elem_of_cons in Hi as [[= -> _ _]|Hi]; [done|].
  rewrite fmap_app in Hsort. apply StronglySorted_app_1_r in Hsort. cbn in Hsort.
  apply StronglySorted_inv in Hsort as [_ Hall]. rewrite Forall_forall in Hall.
  enough (t1 <= t')%Z by lia. apply Hall. apply (list_elem_of_fmap_2 fst) in Hi. exact Hi.
Qed.

Lemma run_cursor events row : lease_run events row -> cu_Value <$> row = cursor_after events.
Proof.
  unfold cursor_after. induction 1 as [|events row t e row' _ IH HS]; [done|]. rewrite foldl_snoc, <- IH. cbn [snd].
  destruct HS as [f d row row' Hr|f d row row' Hr|f row row' Hr|f v o r row' Hr|next o row row' Hr]; cbn.
  - by apply acquired in Hr as (_ & _ & ?).
  - apply renewed in Hr as (r & -> & _ & _ & ->). done.
  - apply released in Hr as (r & -> & _ & _ & ->). done.
  - apply advanced in Hr as (_ & _ & _ & _ & ->). done.
  - apply sequenced in Hr as (_ & -> & _). done.
Qed.

(** C6: leases exclude each other and fence commits.  For every sequence of the successful
    statements of all connections on the row of a source:
    - after a grant that its owner neither releases nor renews, the next grant is not before the
      expiry; if in addition the time of the server does not go back, no later grant is;
    - [CommitCollection] moves the cursor only under a fence whose last grant has not expired,
      with no other grant, no release of it and no [AdvanceSequenceCursor] since;
    - the cursor is what the last commit or the last [AdvanceSequenceCursor] wrote (0 when a grant
      made the row).  [AdvanceSequenceCursor] takes no fence: it moves the cursor of a source that
      another connection has leased, and by the second part it ends the fence of that owner, who
      commits nothing until there is a next grant. *)
Theorem leases_fence events row :
  lease_run events row ->
  (forall before t fence expires after,
     events = before ++ [(t, Granted fence expires)] ++ after -> undisturbed fence after ->
     (forall between t' f x later, after = between ++ [(t', Granted f x)] ++ later -> ungranted between ->
        (expires <= t')%Z)
     /\ (forall t' f x, StronglySorted Z.le (fst <$> after) -> (t', Granted f x) ∈ after -> (expires <= t')%Z))
  /\ (forall before t fence value after,
        events = before ++ [(t, Advanced fence value)] ++ after ->
        exists before' t' expires between,
          before = before' ++ [(t', Granted fence expires)] ++ between
          /\ (t < expires)%Z /\ undisturbed fence between /\ ungranted between /\ unsequenced between)
  /\ cu_Value <$> row = cursor_after events.
Proof.
  intros HR. split_and!.
  - intros before t fence expires after -> Hu. split.
    + intros between t' f x later -> Hb. apply Forall_app in Hu as [Hu [Hc _]%Forall_cons]. cbn in Hc.
      by apply (next_grant_after _ _ _ _ _ _ _ _ _ _ HR Hu Hb), str_eqb_neq.
    + intros t' f x Hs. exact (grant_after_expiry _ _ _ _ _ _ _ _ _ HR Hu Hs).
  - intros before t fence value after ->. rewrite app_assoc in HR. apply run_prefix in HR as [row1 HR].
    apply run_snoc_inv in HR as (row0 & HR & HS). inversion HS as [| | |? ? ? r row' Hr|]; subst.
    apply advanced in Hr as (Hs & (x & Hx & Ht) & _).
    destruct (run_covered _ _ HR fence x) as (b & t3 & bt & -> & Hu & Hg & Hq); [by exists r|].
    by exists b, t3, x, bt.
  - by apply run_cursor.
Qed.

(** A lease of [f] for 10 at 1 and an advance under it at 5; [AdvanceSequenceCursor] of somebody at
    6, with no fence, and a lease of [g] once that of [f] is over. *)
Definition example_events : list (Z * LeaseEvent) :=
  [(1, Granted "f" 11); (5, Advanced "f" "3"); (6, Sequenced 8); (11, Granted "g" 21)]%Z.

Lemma example_run : exists row, lease_run example_events row.
Proof.
  eexists. change example_events with ((([] ++ [(1, Granted "f" 11)]) ++ [(5, Advanced "f" "3")]) ++ [(6, Sequenced 8)]
                              ++ [(11, Granted "g" 21)])%Z. rewrite app_assoc.
  eapply run_event; [eapply run_event; [eapply run_event; [eapply run_event; [apply run_nil|]|]|]|].
  - apply (step_acquire 1 "f" 10). reflexivity.
  - apply (step_advance 5 "f" "3" 4). reflexivity.
  - apply (step_sequence 6 8 4). reflexivity.
  - apply (step_acquire 11 "g" 10). reflexivity.
Qed.

Lemma leases_fence_witness : exists row, lease_run example_events row /\ (11 <= 11)%Z
  /\ (exists before' t' expires between,
       [(1, Granted "f" 11)]%Z = before' ++ [(t', Granted "f" expires)] ++ between /\ (5 < expires)%Z)
  /\ cu_Value <$> row = Some "8".
Proof.
  destruct example_run as [row HR]. exists row. split; [exact HR|].
  destruct (leases_fence example_events row HR) as (H1 & H2 & H3). split_and!.
  - destruct (H1 [] 1%Z "f" 11%Z [(5, Advanced "f" "3"); (6, Sequenced 8); (11, Granted "g" 21)]%Z eq_refl) as [H _];
      [by repeat constructor|].
    apply (H [(5, Advanced "f" "3"); (6, Sequenced 8)]%Z 11%Z "g" 21%Z [] eq_refl). by repeat constructor.
  - destruct (H2 [(1, Granted "f" 11)]%Z 5%Z "f" "3" [(6, Sequenced 8); (11, Granted "g" 21)]%Z eq_refl)
      as (b & t & e & bt & E & He & _).
    by exists b, t, e, bt.
  - rewrite H3. reflexivity.
Defined.
