(* ===== verification/LineageRows.v ===== *)
(** * Rows of a piece of evidence (internal/store/postgres/repository.go)

    What is written for one piece of evidence besides itself: the session, trajectory, task, turn,
    response, phases, item, state epoch and tool call that it belongs to, the events it reports
    and the observations it makes.  All identifiers are derived from the evidence, so that writing
    it again finds the rows of the first time.

    [sha256] is SHA-256 (32 bytes): an argument. *)
From Stdlib Require Import Ascii.
From S2P Require Import Contracts GoInt Snapshots Transactions Tables.

Definition defaultString (value fallback : string) : string := if value =s "" then fallback else value.

Definition normalizedAttributionState (value : string) : string :=
  if one_of value ["attributed"; "ambiguous"; "multi_project"; "unattributed"] then value else "unknown".

Definition present (s : string) : bool := negb (s =s "").

Section Rows.
Context (sha256 : string -> string) (world : Outside DB).

Definition collectionBatchUUID (batchID : string) : string := deterministicUUID sha256 batchID.

(** The first eight bytes without the sign bit. *)
Definition normalizedOrdinal (identity : string) : Z :=
  Z.land (big_endian_value (str_take 8 (sha256 identity))) max_i64.

Definition when (b : bool) (m : Tx DB unit) : Tx DB unit := if b then m else tx_ret tt.

(** [existingLineageID]: the identifier if there is such a row. *)
Definition existingLineageID {R} (get : DB -> gmap string R) `{!Table get} (id : string) : Tx DB (option string) :=
  if id =s "" then tx_ret None
  else query world "resolve collection parent lineage" (fun _ d => if refers get id d then Some id else None).

(** COALESCE of a column and its new value, the old one first or the new one first. *)
Definition coalesce {A} (a b : option A) : option A := match a with Some _ => a | None => b end.

(** ** Sessions, trajectories, tasks, turns *)

Definition session_row (item : PersistedEvidence) : SessionRow :=
  mkSessionRow (pe_ProjectID item) (pe_SourceID item) (pe_ObservedAt item) (pe_CoverageState item) "observed".

Definition merge_session (new old : SessionRow) : SessionRow :=
  mkSessionRow (se_Project old) (se_Source old) (se_StartedAt old)
    (if (se_Coverage old =s "complete") && negb (se_Coverage new =s "complete") then se_Coverage new else se_Coverage old)
    (se_Knowledge old).

Definition put_session (item : PersistedEvidence) : Tx DB unit :=
  exec world "persist collection session"
    (fun _ => upsert db_sessions (el_SessionID (pe_Lineage item)) (session_row item) (merge_session (session_row item))
       (fun row d => refers_opt db_projects (se_Project row) d && refers db_sources (se_Source row) d)).

Definition trajectory_row (item : PersistedEvidence) (parent : option string) : TrajectoryRow :=
  let l := pe_Lineage item in
  mkTrajectoryRow (el_SessionID l) (pe_SourceID item) (el_TrajectoryID l) parent (pe_ObservedAt item) "observed".

Definition merge_trajectory (new old : TrajectoryRow) : TrajectoryRow :=
  mkTrajectoryRow (tr_Session old) (tr_Source old) (tr_Alias old) (coalesce (tr_Parent old) (tr_Parent new))
    (tr_StartedAt old) (tr_Knowledge old).

Definition put_trajectory (item : PersistedEvidence) (parent : option string) : Tx DB unit :=
  exec world "persist collection trajectory"
    (fun _ => upsert db_trajectories (el_TrajectoryID (pe_Lineage item)) (trajectory_row item parent)
       (merge_trajectory (trajectory_row item parent))
       (fun row d => refers db_sessions (tr_Session row) d && refers db_sources (tr_Source row) d
                     && refers_opt db_trajectories (tr_Parent row) d)).

Definition task_row (item : PersistedEvidence) : TaskRow :=
  let state := normalizedAttributionState (ro_TaskAttribution (pe_Runtime item)) in
  mkTaskRow (pe_ProjectID item) (pe_SourceID item) (el_TaskID (pe_Lineage item)) "codex_task" state
    (if state =s "attributed" then Some 1%Z else None) "attribution-v1" (pe_ObservedAt item) "observed".

Definition merge_task (new old : TaskRow) : TaskRow :=
  mkTaskRow (coalesce (ta_Project old) (ta_Project new)) (ta_Source old) (ta_Alias old) (ta_Kind old)
    (ta_Attribution new) (ta_Confidence new) (ta_Algorithm old) (ta_ObservedAt old) (ta_Knowledge old).

Definition put_task (item : PersistedEvidence) : Tx DB unit :=
  exec world "persist collection task"
    (fun _ => upsert db_tasks (el_TaskID (pe_Lineage item)) (task_row item) (merge_task (task_row item))
       (fun row d => refers_opt db_projects (ta_Project row) d && refers db_sources (ta_Source row) d)).

Definition turn_row (item : PersistedEvidence) (ordinal : Z) : TurnRow :=
  let l := pe_Lineage item in
  mkTurnRow (el_TrajectoryID l) (pe_SourceID item) (el_TurnID l) (nullableString (el_TaskID l)) ordinal
    (pe_ObservedAt item) "observed".

Definition merge_turn (new old : TurnRow) : TurnRow :=
  mkTurnRow (tu_Trajectory old) (tu_Source old) (tu_Alias old) (coalesce (tu_Task old) (tu_Task new)) (tu_Ordinal old)
    (tu_ObservedAt old) (tu_Knowledge old).

Definition put_turn (item : PersistedEvidence) (ordinal : Z) : Tx DB unit :=
  exec world "persist collection turn"
    (fun _ => upsert db_turns (el_TurnID (pe_Lineage item)) (turn_row item ordinal) (merge_turn (turn_row item ordinal))
       (fun row d => refers db_trajectories (tu_Trajectory row) d && refers db_sources (tu_Source row) d
                     && refers_opt db_tasks (tu_Task row) d)).

(** ** Responses, phases, items *)

Definition response_row (item : PersistedEvidence) (parent : option string) : ResponseRow :=
  let l := pe_Lineage item in
  let r := pe_Runtime item in
  mkResponseRow (el_TurnID l) (pe_SourceID item) (el_ResponseID l) parent (nullableString (ro_ModelVariant r))
    (nullableString (ro_ReasoningEffort r)) (nullableString (ro_ReasoningMode r)) (nullableString (ro_Verbosity r))
    (nullableString (ro_ServiceMode r)) (nullableString (ro_SafeguardOutcome r)) (pe_ObservedAt item)
    (if ro_ResponseEvent r =s "completed" then Some (pe_ObservedAt item) else None) "observed".

Definition merge_response (new old : ResponseRow) : ResponseRow :=
  mkResponseRow (re_Turn old) (re_Source old) (re_Alias old) (coalesce (re_Parent old) (re_Parent new))
    (coalesce (re_ModelVariant new) (re_ModelVariant old)) (coalesce (re_ReasoningEffort new) (re_ReasoningEffort old))
    (coalesce (re_ReasoningMode new) (re_ReasoningMode old)) (coalesce (re_Verbosity new) (re_Verbosity old))
    (coalesce (re_ServiceMode new) (re_ServiceMode old)) (coalesce (re_Safeguard new) (re_Safeguard old))
    (re_StartedAt old) (coalesce (re_CompletedAt new) (re_CompletedAt old)) (re_Knowledge old).

Definition put_response (item : PersistedEvidence) (parent : option string) : Tx DB unit :=
  exec world "persist collection response"
    (fun _ => upsert db_responses (el_ResponseID (pe_Lineage item)) (response_row item parent)
       (merge_response (response_row item parent))
       (fun row d => refers db_turns (re_Turn row) d && refers db_sources (re_Source row) d
                     && refers_opt db_responses (re_Parent row) d)).

Definition runtime_phase_id (item : PersistedEvidence) : string :=
  collectionBatchUUID (pe_ID item +:+ ":phase:" +:+ ro_Phase (pe_Runtime item)).

Definition phase_references (row : PhaseRow) (d : DB) : bool :=
  refers db_trajectories (ph_Trajectory row) d && refers_opt db_responses (ph_Response row) d.

Definition merge_phase (ended : option Z) (old : PhaseRow) : PhaseRow :=
  mkPhaseRow (ph_Trajectory old) (ph_Response old) (ph_Kind old) (ph_Ordinal old) (ph_StartedAt old) ended
    (ph_Knowledge old).

Definition put_phase (item : PersistedEvidence) : Tx DB unit :=
  let l := pe_Lineage item in
  let phase := ro_Phase (pe_Runtime item) in
  let ended := if ro_PhaseEvent (pe_Runtime item) =s "completed" then Some (pe_ObservedAt item) else None in
  exec world "persist collection phase"
    (fun _ => upsert db_phases (runtime_phase_id item)
       (mkPhaseRow (el_TrajectoryID l) (nullableString (el_ResponseID l)) phase
          (normalizedOrdinal (pe_ID item +:+ ":phase:" +:+ phase)) (pe_ObservedAt item) ended "observed")
       (fun old => merge_phase (coalesce ended (ph_EndedAt old)) old) phase_references).

Definition tool_phase_id (item : PersistedEvidence) : string :=
  collectionBatchUUID (el_ResponseID (pe_Lineage item) +:+ ":tool-phase").

(** GREATEST ignores NULL. *)
Definition greatest (a : option Z) (b : Z) : option Z := match a with None => Some b | Some a => Some (Z.max a b) end.

Definition put_tool_phase (item : PersistedEvidence) : Tx DB unit :=
  let l := pe_Lineage item in
  exec world "persist collection tool phase"
    (fun _ => upsert db_phases (tool_phase_id item)
       (mkPhaseRow (el_TrajectoryID l) (Some (el_ResponseID l)) "tool"
          (normalizedOrdinal (el_ResponseID l +:+ ":tool-phase")) (pe_ObservedAt item) (Some (pe_ObservedAt item))
          "observed")
       (fun old => merge_phase (greatest (ph_EndedAt old) (pe_ObservedAt item)) old) phase_references).

(** The column image_detail gets the modality of the output. *)
Definition item_row (item : PersistedEvidence) : ItemRow :=
  let r := pe_Runtime item in
  mkItemRow (el_ResponseID (pe_Lineage item)) (pe_SourceID item) (collectionBatchUUID (pe_ID item +:+ ":item"))
    (if present (ro_ResultState r) then "tool_result" else "assistant_output") (nullableString (ro_Phase r))
    (normalizedOrdinal (pe_ID item +:+ ":item")) (nullableString (ro_OutputModality r)) (pe_ContentHash item)
    (ro_OutputSizeBytes r) (pe_ObservedAt item) "observed".

Definition merge_item (new old : ItemRow) : ItemRow :=
  mkItemRow (it_Response old) (it_Source old) (it_Alias old) (it_Kind old) (it_Phase old) (it_Ordinal old)
    (it_ImageDetail old) (it_ContentHash old) (coalesce (it_ContentLength new) (it_ContentLength old))
    (it_ObservedAt old) (it_Knowledge old).

Definition put_item (item : PersistedEvidence) : Tx DB unit :=
  exec world "persist collection item"
    (fun _ => upsert db_items (collectionBatchUUID (pe_ID item +:+ ":item")) (item_row item) (merge_item (item_row item))
       (fun row d => refers db_responses (it_Response row) d && refers db_sources (it_Source row) d)).

(** ** State epochs and tool calls *)

Definition put_epoch (item : PersistedEvidence) : Tx DB unit :=
  let r := pe_Runtime item in
  let mutation := defaultString (ro_MutationState r) "unknown" in
  exec world "persist collection state epoch"
    (fun _ => upsert db_epochs (ro_StateEpochID r)
       (mkEpochRow (el_TrajectoryID (pe_Lineage item)) (pe_SourceID item) (ro_StateEpochHash r) mutation
          (pe_ObservedAt item) "observed")
       (fun old => mkEpochRow (ep_Trajectory old) (ep_Source old) (ep_Hash old) mutation (ep_StartedAt old)
                     (ep_Knowledge old))
       (fun row d => refers db_trajectories (ep_Trajectory row) d && refers db_sources (ep_Source row) d)).

Definition tool_call_row (item : PersistedEvidence) (toolPhaseID : string) : ToolCallRow :=
  let l := pe_Lineage item in
  let r := pe_Runtime item in
  mkToolCallRow (el_ResponseID l) (nullableString toolPhaseID) (pe_SourceID item) (el_ToolCallID l)
    (nullableString (el_CallerToolCallID l))
    (if one_of (el_CallPath l) ["direct"; "programmatic"] then el_CallPath l else "unknown")
    (defaultString (el_ToolKind l) "unknown") (pe_ObservedAt item) (nullableString (ro_ToolOutcome r)) "observed"
    (nullableString (ro_StateEpochID r)) (ro_CanonicalCallHash r) (nullableString (ro_ResultState r))
    (nullableString (ro_OutputModality r)) (ro_OutputSizeBytes r) (nullableString (ro_WaitState r)).

Definition merge_tool_call (new old : ToolCallRow) : ToolCallRow :=
  mkToolCallRow (tc_Response old) (coalesce (tc_Phase new) (tc_Phase old)) (tc_Source old) (tc_Alias old) (tc_Caller old)
    (tc_CallPath old) (tc_ToolKind old) (tc_StartedAt old) (coalesce (tc_Outcome new) (tc_Outcome old))
    (tc_Knowledge old) (coalesce (tc_Epoch new) (tc_Epoch old)) (coalesce (tc_CallHash new) (tc_CallHash old))
    (coalesce (tc_ResultState new) (tc_ResultState old)) (coalesce (tc_Modality new) (tc_Modality old))
    (coalesce (tc_OutputSize new) (tc_OutputSize old)) (coalesce (tc_WaitState new) (tc_WaitState old)).

Definition put_tool_call (item : PersistedEvidence) (toolPhaseID : string) : Tx DB unit :=
  exec world "persist collection tool call"
    (fun _ => upsert db_tool_calls (el_ToolCallID (pe_Lineage item)) (tool_call_row item toolPhaseID)
       (merge_tool_call (tool_call_row item toolPhaseID))
       (fun row d => refers db_responses (tc_Response row) d && refers_opt db_phases (tc_Phase row) d
                     && refers db_sources (tc_Source row) d && refers_opt db_epochs (tc_Epoch row) d)).

(** ** Events *)

Definition text (s : string) : option SqlValue := Some (VText s).
Definition text_opt (s : option string) : option SqlValue := VText <$> s.
Definition nullable (s : string) : option SqlValue := text_opt (nullableString s).

Definition column_text (row : Columns) (name : string) : option string :=
  match row !! name with Some (VText s) => Some s | _ => None end.

(** The foreign keys of execution_events that are checked at once; the one to the evidence is
    deferred to the commit. *)
Definition event_references (row : Columns) (d : DB) : bool :=
  let column := column_text row in
  refers_opt db_projects (column "project_id") d && refers_opt db_sessions (column "session_id") d
  && refers_opt db_trajectories (column "trajectory_id") d
  && refers_opt db_trajectories (column "parent_trajectory_id") d
  && refers_opt db_responses (column "response_id") d && refers_opt db_phases (column "phase_id") d
  && refers_opt db_sources (column "source_id") d && refers_opt db_events (column "related_event_id") d.

Definition put_event (operation id : string) (row : Columns) : Tx DB unit :=
  exec world operation (fun _ => insert_once db_events id row (event_references row)).

(** The columns that every event has. *)
Definition event_base (kind : string) (item : PersistedEvidence) : list (string * option SqlValue) :=
  [("event_kind", text kind); ("schema_version", text (pe_SchemaVersion item));
   ("observed_at", Some (VTime (pe_ObservedAt item))); ("knowledge_state", text "observed");
   ("evidence_artifact_id", text (pe_ID item))].

Definition put_delegation (item : PersistedEvidence) : Tx DB unit :=
  let l := pe_Lineage item in
  let id := collectionBatchUUID (pe_ID item +:+ ":delegation") in
  put_event "persist delegation event" id
    (columns (event_base "delegation" item
       ++ [("event_name", text (ro_DelegationEvent (pe_Runtime item))); ("trajectory_id", text (el_TrajectoryID l));
           ("parent_trajectory_id", nullable (el_ParentTrajectoryID l)); ("source_id", text (pe_SourceID item));
           ("external_alias_id", text id)])).

Definition put_compaction (item : PersistedEvidence) : Tx DB unit :=
  let l := pe_Lineage item in
  let id := collectionBatchUUID (pe_ID item +:+ ":compaction") in
  put_event "persist compaction event" id
    (columns (event_base "compaction" item
       ++ [("event_name", text (ro_CompactionEvent (pe_Runtime item))); ("trajectory_id", text (el_TrajectoryID l));
           ("response_id", nullable (el_ResponseID l)); ("source_id", text (pe_SourceID item));
           ("external_alias_id", text id)])).

Definition put_stop (item : PersistedEvidence) (toolPhaseID runtimePhaseID : string) : Tx DB unit :=
  put_event "persist stop event" (collectionBatchUUID (pe_ID item +:+ ":stop"))
    (columns (event_base "stop" item
       ++ [("event_name", text (ro_StopEvent (pe_Runtime item)));
           ("trajectory_id", text (el_TrajectoryID (pe_Lineage item)));
           ("phase_id", nullable (defaultString toolPhaseID runtimePhaseID)); ("outcome", text "observed")])).

Definition put_checkpoint (item : PersistedEvidence) : Tx DB unit :=
  let event := ro_CheckpointEvent (pe_Runtime item) in
  put_event "persist checkpoint event" (collectionBatchUUID (pe_ID item +:+ ":checkpoint"))
    (columns (event_base "checkpoint" item
       ++ [("event_name", text event); ("session_id", text (el_SessionID (pe_Lineage item)));
           ("content_hash", text (sha256 event))])).

Definition put_boundary (item : PersistedEvidence) : Tx DB unit :=
  put_event "persist boundary event" (collectionBatchUUID (pe_ID item +:+ ":boundary"))
    (columns (event_base "boundary" item
       ++ [("event_name", text "runtime"); ("project_id", text_opt (pe_ProjectID item));
           ("session_id", nullable (el_SessionID (pe_Lineage item)));
           ("outcome", text (ro_BoundaryEvent (pe_Runtime item)))])).

(** The columns of the snapshots. *)
Definition snapshot_base (kind : string) (item : PersistedEvidence) : list (string * option SqlValue) :=
  event_base kind item
  ++ [("project_id", text_opt (pe_ProjectID item)); ("session_id", nullable (el_SessionID (pe_Lineage item)));
      ("source_id", text (pe_SourceID item))].

(** [jsonb_strip_nulls]. *)
Definition strip_nulls (object : list (string * option SqlValue)) : list (string * option SqlValue) :=
  filter (fun kv => kv.2 <> None) object.

Definition int_opt (z : option Z) : option SqlValue := VInt <$> z.

Definition put_plan_snapshot (item : PersistedEvidence) (planID : string) (plan : PlanSnapshot) : Tx DB unit :=
  put_event "persist plan snapshot" planID
    (columns (snapshot_base "plan_snapshot" item
       ++ [("event_name", text (ps_PhaseScope plan)); ("outcome", text (ps_ApprovalBoundary plan));
           ("content_hash", text (ps_Hash plan))])).

Definition put_budget_snapshot (item : PersistedEvidence) (planID : string) (budget : BudgetSnapshot) : Tx DB unit :=
  put_event "persist budget snapshot" (collectionBatchUUID (pe_ID item +:+ ":budget"))
    (columns (snapshot_base "budget_snapshot" item
       ++ [("event_name", text (bs_Enforcement budget)); ("related_event_id", text planID);
           ("state_value", text (bs_DelegationPolicy budget)); ("outcome", text (bs_ExhaustionOutcome budget));
           ("attributes", Some (VJson (strip_nulls
              [("max_tool_loops", int_opt (bs_MaxToolLoops budget)); ("max_retries", int_opt (bs_MaxRetries budget));
               ("max_retrieval_expansions", int_opt (bs_MaxRetrievalExpansions budget));
               ("max_agent_depth", int_opt (bs_MaxAgentDepth budget));
               ("max_concurrency", int_opt (bs_MaxConcurrency budget));
               ("context_mode", nullable (bs_ContextMode budget))])))])).

Definition put_policy_snapshot (item : PersistedEvidence) (policy : PolicySnapshot) : Tx DB unit :=
  put_event "persist policy snapshot" (collectionBatchUUID (pe_ID item +:+ ":policy"))
    (columns (snapshot_base "policy_snapshot" item
       ++ [("event_name", text (pos_SchemaVersion policy)); ("content_hash", text (pos_Hash policy));
           ("attributes", Some (VJson [("raw_retention_enabled", Some (VBool (pos_RawRetentionEnabled policy)));
                                       ("telemetry_enabled", Some (VBool (pos_TelemetryEnabled policy)))]))])).

(** The session is not nullable here. *)
Definition put_host_capability (item : PersistedEvidence) (host : HostCapabilitySnapshot) : Tx DB unit :=
  put_event "persist host capability snapshot"
    (collectionBatchUUID (pe_ID item +:+ ":host-capability:" +:+ hs_CapabilityName host))
    (columns (event_base "host_capability" item
       ++ [("event_name", text (hs_CapabilityName host)); ("project_id", text_opt (pe_ProjectID item));
           ("session_id", text (el_SessionID (pe_Lineage item))); ("source_id", text (pe_SourceID item));
           ("state_value", text (hs_CapabilityState host)); ("outcome", nullable (hs_HostKind host));
           ("attributes", Some (VJson (strip_nulls [("host_version", nullable (hs_HostVersion host))])))])).

Definition when_some {A} (o : option A) (m : A -> Tx DB unit) : Tx DB unit :=
  match o with Some a => m a | None => tx_ret tt end.

Definition persistReplaySnapshots (item : PersistedEvidence) : Tx DB unit :=
  let r := pe_Runtime item in
  let planID := match ro_Plan r with Some _ => collectionBatchUUID (pe_ID item +:+ ":plan") | None => "" end in
  do! _ := when_some (ro_Plan r) (put_plan_snapshot item planID) in
  do! _ := when_some (ro_Budget r) (put_budget_snapshot item planID) in
  do! _ := when_some (ro_Policy r) (put_policy_snapshot item) in
  when_some (ro_HostCapability r) (put_host_capability item).

Definition persistEvidenceLineage (item : PersistedEvidence) : Tx DB unit :=
  let l := pe_Lineage item in
  let r := pe_Runtime item in
  let trajectory := present (el_TrajectoryID l) in
  if el_SessionID l =s "" then tx_ret tt
  else
    fail_if! negb (bool_decide (pe_SessionID item = Some (el_SessionID l)))
      with ErrMessage "collection lineage mismatch" in
    do! _ := put_session item in
    do! parentTrajectoryID := existingLineageID db_trajectories (el_ParentTrajectoryID l) in
    do! _ := when trajectory (put_trajectory item parentTrajectoryID) in
    do! _ := when (present (el_TaskID l)) (put_task item) in
    do! _ := when_some (el_TurnOrdinal l)
               (fun ordinal => when (present (el_TurnID l) && trajectory) (put_turn item ordinal)) in
    do! parentResponseID := existingLineageID db_responses (el_ParentResponseID l) in
    do! _ := when (present (el_ResponseID l) && present (el_TurnID l)) (put_response item parentResponseID) in
    let runtimePhaseID := if present (ro_Phase r) && trajectory then runtime_phase_id item else "" in
    do! _ := when (present (ro_Phase r) && trajectory) (put_phase item) in
    let tool_phase := present (el_ToolCallID l) && present (el_ResponseID l) && trajectory in
    let toolPhaseID := if tool_phase then tool_phase_id item else "" in
    do! _ := when tool_phase (put_tool_phase item) in
    do! _ := when (present (el_ResponseID l) && present (ro_OutputModality r)) (put_item item) in
    do! _ := when (present (ro_StateEpochID r) && trajectory) (put_epoch item) in
    do! _ := when (present (el_ToolCallID l) && present (el_ResponseID l)) (put_tool_call item toolPhaseID) in
    do! _ := when (present (ro_DelegationEvent r) && trajectory) (put_delegation item) in
    do! _ := when (present (ro_CompactionEvent r) && trajectory) (put_compaction item) in
    do! _ := when (present (ro_StopEvent r) && trajectory) (put_stop item toolPhaseID runtimePhaseID) in
    do! _ := when (present (ro_CheckpointEvent r) && present (el_SessionID l)) (put_checkpoint item) in
    do! _ := when (present (ro_BoundaryEvent r)) (put_boundary item) in
    persistReplaySnapshots item.

(** ** Observations *)

Definition observation_references (row : Columns) (d : DB) : bool :=
  let column := column_text row in
  refers_opt db_projects (column "project_id") d && refers_opt db_sources (column "source_id") d
  && refers_opt db_trajectories (column "trajectory_id") d && refers_opt db_responses (column "response_id") d
  && refers_opt db_artifacts (column "evidence_artifact_id") d
  && refers_opt db_revisions (column "audit_revision_id") d.

Definition put_observation (operation id : string) (row : Columns) : Tx DB unit :=
  exec world operation (fun _ => insert_once db_observations id row (observation_references row)).

Definition observation_base (kind : string) (item : PersistedEvidence) : list (string * option SqlValue) :=
  [("observation_kind", text kind); ("schema_version", text (pe_SchemaVersion item));
   ("project_id", text_opt (pe_ProjectID item)); ("source_id", text (pe_SourceID item));
   ("provenance", text (pe_Provenance item)); ("observed_at", Some (VTime (pe_ObservedAt item)));
   ("knowledge_state", text "observed")].

Definition source_version (item : PersistedEvidence) : string :=
  defaultString (pe_SourceVersion item) (pe_SchemaVersion item).

Definition one : float64 := float_of_Z 1.

Definition put_source_assertion (item : PersistedEvidence) : Tx DB unit :=
  put_observation "persist evidence source assertion" (collectionBatchUUID (pe_ID item +:+ ":source-assertion"))
    (columns (observation_base "source_assertion" item
       ++ [("evidence_artifact_id", text (pe_ID item)); ("metric_kind", text "evidence_record");
           ("state_value", text (pe_CoverageState item)); ("source_version", text (source_version item));
           ("confidence", Some (VFloat one)); ("valid_from", Some (VTime (pe_ObservedAt item)))])).

Definition put_project_attribution (item : PersistedEvidence) : Tx DB unit :=
  let r := pe_Runtime item in
  let state := normalizedAttributionState (ro_TaskAttribution r) in
  let confidence := match ro_AttributionConfidence r with
                    | Some c => Some c
                    | None => if state =s "attributed" then Some one else None
                    end in
  put_observation "persist project attribution" (collectionBatchUUID (pe_ID item +:+ ":project-attribution"))
    (columns (observation_base "project_attribution" item
       ++ [("evidence_artifact_id", text (pe_ID item)); ("metric_kind", text "project"); ("state_value", text state);
           ("source_version", text (source_version item)); ("confidence", VFloat <$> confidence);
           ("valid_from", Some (VTime (pe_ObservedAt item))); ("valid_to", VTime <$> ro_AttributionValidTo r)])).

(** The columns that usage and cache measurements share. *)
Definition measurement_base (kind metric : string) (value : float64) (item : PersistedEvidence)
    : list (string * option SqlValue) :=
  observation_base kind item
  ++ [("trajectory_id", nullable (el_TrajectoryID (pe_Lineage item)));
      ("response_id", nullable (el_ResponseID (pe_Lineage item))); ("evidence_artifact_id", text (pe_ID item));
      ("metric_kind", text metric); ("value_numeric", Some (VFloat value));
      ("native_unit", text (defaultString (ro_UsageUnit (pe_Runtime item)) "unknown"));
      ("source_adapter", text "collector"); ("source_version", text (source_version item))].

Definition put_usage (item : PersistedEvidence) (value : float64) : Tx DB unit :=
  let r := pe_Runtime item in
  put_observation "persist collection usage" (collectionBatchUUID (pe_ID item +:+ ":usage:" +:+ ro_UsageKind r))
    (columns (measurement_base "usage" (ro_UsageKind r) value item
       ++ [("product_surface", text (pe_ProductSurface item));
           ("accounting_regime", text (defaultString (ro_AccountingRegime r) "unknown"))])).

Definition put_cache (item : PersistedEvidence) (value : float64) : Tx DB unit :=
  let r := pe_Runtime item in
  put_observation "persist collection cache" (collectionBatchUUID (pe_ID item +:+ ":cache:" +:+ ro_CacheKind r))
    (columns (measurement_base "cache" (ro_CacheKind r) value item
       ++ [("attributes", Some (VJson [("cache_mode", nullable (ro_CacheMode r));
                                       ("cache_ttl_seconds", int_opt (ro_CacheTTLSeconds r))]))])).

Definition of_project (project : option string) (d : DB) (revision : RevisionRow) : bool :=
  match project, db_windows d !! rv_Window revision with
  | Some p, Some window => bool_decide (wi_Project window = Some p)
  | _, _ => false
  end.

(** The revisions of the audits of a project, the latest first; rows with the same time have no
    order. *)
Definition project_revisions (project : option string) (d : DB) : list (string * RevisionRow) :=
  go_sort (fun a b => rv_CreatedAt b.2 <? rv_CreatedAt a.2)%Z
    (filter (fun kv => of_project project d kv.2 = true)
       (map_to_list (db_revisions d))).

(** INSERT of what a SELECT gives: nothing without an audit of the project. *)
Definition put_governance (item : PersistedEvidence) : Tx DB unit :=
  exec world "persist governance overhead"
    (fun _ d =>
       match project_revisions (pe_ProjectID item) d with
       | [] => Ok (tt, d)
       | (revision, _) :: _ =>
           let row := columns (observation_base "governance_overhead" item
             ++ [("trajectory_id", text (el_TrajectoryID (pe_Lineage item))); ("audit_revision_id", text revision);
                 ("metric_kind", text "collector"); ("state_value", text "necessary"); ("native_unit", text "events")]) in
           insert_once db_observations (collectionBatchUUID (pe_ID item +:+ ":governance")) row
             (observation_references row) d
       end).

Definition persistRuntimeObservations (item : PersistedEvidence) : Tx DB unit :=
  let r := pe_Runtime item in
  do! _ := put_source_assertion item in
  do! _ := when (bool_decide (is_Some (pe_ProjectID item)) && present (ro_TaskAttribution r))
             (put_project_attribution item) in
  do! _ := when (present (ro_UsageKind r)) (when_some (ro_UsageValue r) (put_usage item)) in
  do! _ := when (present (ro_CacheKind r)) (when_some (ro_CacheValue r) (put_cache item)) in
  when (ro_GovernanceOverhead r && present (el_TrajectoryID (pe_Lineage item))) (put_governance item).
End Rows.
