(* ===== verification/CommitStore.v ===== *)
(** * The commit of a batch (internal/store/postgres/repository.go, [CommitCollection])

    One serializable transaction checks the storage budget and the lease, writes the rows of the
    evidence and advances the cursor; a batch that was committed before is recognised and checked
    instead.

    Arguments: [sha256] (32 bytes) and [marshal] ([json.Marshal] of the evidence). *)
From S2P Require Import Contracts GoInt Snapshots Transactions Tables.
From S2P Require Import Leases LineageRows.

Definition maxLocalDatabaseBytes : Z := 1536 * 1024 * 1024.
Definition estimatedEvidenceBytes : Z := 64 * 1024.
Definition collectionBudgetReserve : Z := 16 * 1024 * 1024.
Definition maxUsageBatch : nat := 5000.

Record CollectionBatch := mkCollectionBatch {
  cb_BatchID : string;
  cb_CursorID : string;
  cb_SourceID : string;
  cb_Next : Z;
  cb_Generation : string;
  cb_CursorDigest : string;
  cb_Fence : string;
  cb_ObservedAt : Z;
  cb_Evidence : list PersistedEvidence
}.

Definition estimatedCollectionBytes (evidence : list PersistedEvidence) : Z :=
  if (length evidence =? 0)%nat then 0%Z
  else i64_add collectionBudgetReserve (i64 (Z.of_nat (length evidence) * estimatedEvidenceBytes)).

(** The difference is of 64 bits and is only formed when it cannot overflow. *)
Definition storageBudgetAvailable (current estimated maximum : Z) : bool :=
  (0 <=? current)%Z && (0 <=? estimated)%Z && (current <? maximum)%Z && (estimated <? i64 (maximum - current))%Z.

Definition validOptionalNonnegative (value : option Z) : bool :=
  match value with None => true | Some v => (0 <=? v)%Z end.

Definition is_nil {A} (o : option A) : bool := match o with None => true | Some _ => false end.

Definition incomplete_plan (item : PersistedEvidence) : bool :=
  match ro_Plan (pe_Runtime item) with
  | None => false
  | Some plan => is_nil (pe_ProjectID item) || negb (str_len (ps_Hash plan) =? 32)%Z
                 || (ps_PhaseScope plan =s "") || (ps_ApprovalBoundary plan =s "")
  end.

Definition incomplete_budget (item : PersistedEvidence) : bool :=
  match ro_Budget (pe_Runtime item) with
  | None => false
  | Some b => is_nil (ro_Plan (pe_Runtime item)) || (bs_Enforcement b =s "") || (bs_DelegationPolicy b =s "")
              || (bs_ExhaustionOutcome b =s "") || negb (validOptionalNonnegative (bs_MaxToolLoops b))
              || negb (validOptionalNonnegative (bs_MaxRetries b))
              || negb (validOptionalNonnegative (bs_MaxRetrievalExpansions b))
              || negb (validOptionalNonnegative (bs_MaxAgentDepth b))
              || match bs_MaxConcurrency b with None => false | Some n => (n <? 1)%Z end
  end.

Definition incomplete_policy (item : PersistedEvidence) : bool :=
  match ro_Policy (pe_Runtime item) with
  | None => false
  | Some p => is_nil (pe_ProjectID item) || negb (str_len (pos_Hash p) =? 32)%Z || (pos_SchemaVersion p =s "")
  end.

Definition incomplete_host (item : PersistedEvidence) : bool :=
  match ro_HostCapability (pe_Runtime item) with
  | None => false
  | Some h => (el_SessionID (pe_Lineage item) =s "") || (hs_CapabilityName h =s "") || (hs_CapabilityState h =s "")
  end.

Definition invalid_confidence (item : PersistedEvidence) : bool :=
  match ro_AttributionConfidence (pe_Runtime item) with
  | None => false
  | Some c => flt c fzero || flt (float_of_Z 1) c || is_nan c || is_inf c
  end.

Definition invalid_valid_to (item : PersistedEvidence) : bool :=
  match ro_AttributionValidTo (pe_Runtime item) with
  | None => false
  | Some t => negb (pe_ObservedAt item <? t)%Z
  end.

Definition validateCollectionEvidence (item : PersistedEvidence) : option StoreError :=
  if negb (str_len (pe_ContentHash item) =? 32)%Z || (pe_SchemaVersion item =s "") || (pe_SourceID item =s "")
     || (pe_ObservedAt item =? zero_time)%Z
  then Some (ErrMessage "collection evidence is incomplete")
  else if incomplete_plan item then Some (ErrMessage "plan snapshot is incomplete")
  else if incomplete_budget item then Some (ErrMessage "budget snapshot is incomplete")
  else if incomplete_policy item then Some (ErrMessage "policy snapshot is incomplete")
  else if incomplete_host item then Some (ErrMessage "host capability snapshot is incomplete")
  else if invalid_confidence item || invalid_valid_to item then Some (ErrMessage "project attribution is invalid")
  else None.

Fixpoint first_invalid (items : list PersistedEvidence) : option StoreError :=
  match items with
  | [] => None
  | item :: rest => first! validateCollectionEvidence item else first_invalid rest
  end.

(** The row with an external alias of a source. *)
Definition artifact_of (source alias : string) (d : DB) : option (string * ArtifactRow) :=
  find_first (fun kv => (ea_Source kv.2 =s source) && bool_decide (ea_Alias kv.2 = Some alias))
    (map_to_list (db_artifacts d)).

Definition artifact_row (item : PersistedEvidence) : ArtifactRow :=
  mkArtifactRow (pe_SourceID item) (pe_ProjectID item) (pe_SessionID item) (pe_ExternalAliasID item)
    (pe_SchemaVersion item) (pe_ContentHash item) (pe_ContentLength item) (pe_Classification item)
    (pe_RedactionState item) (pe_CoverageState item) (pe_Provenance item) (pe_ProductSurface item)
    (pe_ObservedAt item) (pe_RetainedUntil item).

Definition refresh_artifact (item : PersistedEvidence) (old : ArtifactRow) : ArtifactRow :=
  mkArtifactRow (ea_Source old) (ea_Project old) (ea_Session old) (ea_Alias old) (ea_Schema old) (ea_Hash old)
    (ea_Length old) (ea_Class old) (ea_Redaction old) (ea_Coverage old) (ea_Provenance old) (ea_Surface old)
    (pe_ObservedAt item) (pe_RetainedUntil item).

Definition artifact_references (row : ArtifactRow) (d : DB) : bool :=
  refers db_sources (ea_Source row) d && refers_opt db_projects (ea_Project row) d
  && refers_opt db_sessions (ea_Session row) d.

(** INSERT ON CONFLICT (source_id, external_alias_id) DO UPDATE WHERE the hashes are equal:
    whether a row was affected. *)
Definition upsert_artifact (item : PersistedEvidence) (d : DB) : result string (bool * DB) :=
  let fresh := let! r := insert_row db_artifacts (pe_ID item) (artifact_row item)
                           (artifact_references (artifact_row item)) d in Ok (true, r.2) in
  match pe_ExternalAliasID item with
  | None => fresh
  | Some alias =>
      match artifact_of (pe_SourceID item) alias d with
      | None => fresh
      | Some (id, old) =>
          if ea_Hash old =s pe_ContentHash item
          then Ok (true, set_row db_artifacts id (refresh_artifact item old) d)
          else Ok (false, d)
      end
  end.

Section Commit.
Context (sha256 : string -> string) (marshal : list PersistedEvidence -> option string)
        (world : Outside DB) (maxDatabaseBytes : Z).

Definition normalizedBatchDigest (evidence : list PersistedEvidence) : result StoreError string :=
  match marshal evidence with
  | None => Err (ErrMessage "encode normalized collection batch")
  | Some encoded => Ok (hex_encode (sha256 encoded))
  end.

Definition verifyCommittedStorageBudget : Tx DB unit :=
  do! databaseBytes := query world "verify local storage budget" (fun n _ => ou_bytes world n) in
  fail_if! (maxDatabaseBytes <=? databaseBytes)%Z with ErrStorageBudgetExceeded in tx_ret tt.

Definition put_link (item : PersistedEvidence) : Tx DB unit :=
  exec world "persist trajectory evidence link"
    (fun _ => insert_once db_links (collectionBatchUUID sha256 (pe_ID item +:+ ":trajectory-evidence"))
       (columns [("evidence_artifact_id", text (pe_ID item)); ("target_kind", text "trajectory");
                 ("target_id", text (el_TrajectoryID (pe_Lineage item))); ("link_kind", text "observed_in");
                 ("created_at", Some (VTime (pe_ObservedAt item)))])
       (refers db_artifacts (pe_ID item))).

(** One turn of the last loop: the evidence itself, its link and its observations. *)
Definition persist_evidence (item : PersistedEvidence) : Tx DB unit :=
  do! affected := exec world "persist collection evidence" (fun _ => upsert_artifact item) in
  fail_if! negb affected with ErrSourceConflict in
  do! _ := when (present (el_TrajectoryID (pe_Lineage item))) (put_link item) in
  persistRuntimeObservations sha256 world item.

Definition count_text (evidence : list PersistedEvidence) : string := "count:" +:+ fmt_d (Z.of_nat (length evidence)).

Definition batch_observation (batch : CollectionBatch) (batchVersion : string) : Columns :=
  columns [("observation_kind", text "source_assertion"); ("schema_version", text "1");
           ("source_id", text (cb_SourceID batch)); ("metric_kind", text "collection_batch");
           ("state_value", text (count_text (cb_Evidence batch))); ("provenance", text "runtime_observed");
           ("source_version", text batchVersion); ("confidence", Some (VFloat one));
           ("valid_from", Some (VTime (cb_ObservedAt batch))); ("observed_at", Some (VTime (cb_ObservedAt batch)));
           ("knowledge_state", text "observed")].

Definition put_batch_observation (batch : CollectionBatch) (batchVersion : string) : Tx DB unit :=
  let row := batch_observation batch batchVersion in
  exec world "persist collection batch identity"
    (fun _ => insert_row db_observations (collectionBatchUUID sha256 (cb_BatchID batch)) row
       (observation_references row)).

(** The observation of a committed batch: its version and its count. *)
Definition stored_batch (batch : CollectionBatch) (d : DB) : option (string * string) :=
  match db_observations d !! collectionBatchUUID sha256 (cb_BatchID batch) with
  | None => None
  | Some row =>
      let column := column_text row in
      if bool_decide (column "source_id" = Some (cb_SourceID batch))
         && bool_decide (column "observation_kind" = Some "source_assertion")
         && bool_decide (column "metric_kind" = Some "collection_batch")
      then match column "source_version", column "state_value" with
           | Some version, Some count => Some (version, count)
           | _, _ => None
           end
      else None
  end.

Definition stored_hash (item : PersistedEvidence) (d : DB) : option string :=
  match pe_ExternalAliasID item with
  | None => None
  | Some alias => (fun row => ea_Hash row.2) <$> artifact_of (pe_SourceID item) alias d
  end.

(** A query whose failure is reported as a conflict. *)
Definition lookup {A} (f : DB -> A) : Tx DB A := statement world (fun _ => ErrSourceConflict) (fun _ d => Ok (f d, d)).

(** A batch that ends where the cursor is has to be the batch that was committed there. *)
Definition check_replay (batch : CollectionBatch) (storedDigest batchVersion : string) : Tx DB bool :=
  fail_if! negb (storedDigest =s cb_CursorDigest batch) with ErrSourceConflict in
  do! stored := lookup (stored_batch batch) in
  match stored with
  | None => tx_err ErrSourceConflict
  | Some (version, count) =>
      fail_if! (negb (version =s cb_CursorDigest batch) && negb (version =s batchVersion))
               || negb (count =s count_text (cb_Evidence batch)) with ErrSourceConflict in
      do! _ := tx_each (fun item =>
                 do! hash := lookup (stored_hash item) in
                 fail_if! negb (bool_decide (hash = Some (pe_ContentHash item))) with ErrSourceConflict in
                 tx_ret tt) (cb_Evidence batch) in
      tx_ret false
  end.

(** The rows of a new batch, then the cursor. *)
Definition apply_batch (batch : CollectionBatch) (batchVersion : string) : Tx DB bool :=
  do! _ := tx_each (persistEvidenceLineage sha256 world) (cb_Evidence batch) in
  do! _ := tx_each (persistEvidenceLineage sha256 world) (cb_Evidence batch) in
  do! _ := tx_each persist_evidence (cb_Evidence batch) in
  do! _ := put_batch_observation batch batchVersion in
  do! _ := verifyCommittedStorageBudget in
  let value := encodeCollectionCursor (cb_Generation batch) (cb_CursorDigest batch) (cb_Next batch) in
  do! advanced := exec world "advance collection cursor"
                    (change_row world (cb_SourceID batch)
                       (fun t => advance_row (cb_Fence batch) value (cb_ObservedAt batch) t)) in
  fail_if! negb advanced with ErrMessage "collection lease fence rejected" in tx_ret true.

(** The parts of the cursor of a source, if it has one. *)
Definition parse_cursor (row : option CursorRow) : Tx DB (string * string * Z) :=
  match row with
  | None => tx_ret ("", "", 0%Z)
  | Some row =>
      match decodeCollectionCursor (cu_Value row) with
      | None => tx_err (ErrMessage "invalid collection cursor")
      | Some parts => tx_ret parts
      end
  end.

Definition commit_tx (batch : CollectionBatch) (batchVersion : string) : Tx DB bool :=
  let rejected := ErrMessage "collection lease fence rejected" in
  do! _ := query world "lock local storage budget" (fun _ _ => tt) in
  do! databaseBytes := query world "check local storage budget" (fun n _ => ou_bytes world n) in
  fail_if! negb (storageBudgetAvailable databaseBytes (estimatedCollectionBytes (cb_Evidence batch)) maxDatabaseBytes)
    with ErrStorageBudgetExceeded in
  do! row := query world "lock collection cursor" (fun _ d => db_cursors d !! cb_SourceID batch) in
  do! (storedGeneration, storedDigest, current) := parse_cursor row in
  match row with
  | None => tx_err rejected
  | Some r =>
      match cu_LeaseExpires r with
      | None => tx_err rejected
      | Some expires =>
          fail_if! negb (cu_State r =s leased (cb_Fence batch)) with rejected in
          do! leaseCurrent := query world "validate collection lease fence" (fun n _ => ou_clock world n <? expires)%Z in
          fail_if! negb leaseCurrent with rejected in
          fail_if! existsb (fun item => negb (pe_SourceID item =s cb_SourceID batch)) (cb_Evidence batch)
            with ErrMessage "collection source mismatch" in
          let generationChanged := negb (storedGeneration =s "") && negb (storedGeneration =s cb_Generation batch) in
          fail_if! negb generationChanged && (cb_Next batch <? current)%Z with ErrStaleCursor in
          if negb generationChanged && (cb_Next batch =? current)%Z
          then check_replay batch storedDigest batchVersion
          else apply_batch batch batchVersion
      end
  end.

Definition CommitCollection (batch : CollectionBatch) : Tx DB bool :=
  fail_if! (cb_CursorID batch =s "") || (cb_SourceID batch =s "") || (cb_Next batch =? 0)%Z || (cb_Fence batch =s "")
           || (length (cb_Evidence batch) =? 0)%nat || (maxUsageBatch <? length (cb_Evidence batch))%nat
    with ErrMessage "collection batch is outside bounds" in
  match first_invalid (cb_Evidence batch) with
  | Some e => tx_err e
  | None =>
      match normalizedBatchDigest (cb_Evidence batch) with
      | Err e => tx_err e
      | Ok batchDigest =>
          withSerializable world (Some (commit_tx batch (cb_CursorDigest batch +:+ ":" +:+ batchDigest)))
      end
  end.

Definition PutEvidence (item : PersistedEvidence) : Tx DB unit :=
  do! affected := pool world "persist evidence" (fun _ => upsert_artifact item) in
  fail_if! negb affected with ErrSourceConflict in tx_ret tt.
End Commit.

(** ** Usage in bulk *)

Record UsageObservation := mkUsageObservation {
  uo_ID : string;
  uo_TrajectoryID : option string;
  uo_ResponseID : option string;
  uo_EvidenceID : option string;
  uo_MetricKind : string;
  uo_Value : option float64;
  uo_UsageUnit : string;
  uo_ProductSurface : string;
  uo_AccountingRegime : string;
  uo_Provenance : string;
  uo_SourceAdapter : string;
  uo_SourceVersion : option string;
  uo_ObservedAt : Z;
  uo_KnowledgeState : string
}.

Definition incomplete_usage (o : UsageObservation) : bool :=
  (uo_ID o =s "") || (uo_MetricKind o =s "")
  || match uo_Value o with None => true | Some v => flt v fzero || is_nan v || is_inf v end
  || (uo_UsageUnit o =s "") || (uo_Provenance o =s "") || (uo_SourceAdapter o =s "")
  || match uo_SourceVersion o with None => true | Some v => v =s "" end
  || (uo_ObservedAt o =? zero_time)%Z
  || (is_nil (uo_TrajectoryID o) && is_nil (uo_ResponseID o) && is_nil (uo_EvidenceID o)).

Definition usage_row (o : UsageObservation) : Columns :=
  columns [("observation_kind", text "usage"); ("schema_version", text "1");
           ("trajectory_id", text_opt (uo_TrajectoryID o)); ("response_id", text_opt (uo_ResponseID o));
           ("evidence_artifact_id", text_opt (uo_EvidenceID o)); ("metric_kind", text (uo_MetricKind o));
           ("value_numeric", VFloat <$> uo_Value o); ("native_unit", text (uo_UsageUnit o));
           ("product_surface", text (uo_ProductSurface o)); ("accounting_regime", text (uo_AccountingRegime o));
           ("provenance", text (uo_Provenance o)); ("source_adapter", text (uo_SourceAdapter o));
           ("source_version", text_opt (uo_SourceVersion o)); ("observed_at", Some (VTime (uo_ObservedAt o)));
           ("knowledge_state", text (uo_KnowledgeState o))].

(** COPY: all the rows or none. *)
Fixpoint copy_rows (rows : list (string * Columns)) (d : DB) : result string (unit * DB) :=
  match rows with
  | [] => Ok (tt, d)
  | (id, row) :: rest =>
      let! r := insert_row db_observations id row (observation_references row) d in copy_rows rest r.2
  end.

Definition PutUsageBatch (world : Outside DB) (observations : list UsageObservation) : Tx DB unit :=
  fail_if! (length observations =? 0)%nat || (maxUsageBatch <? length observations)%nat
    with ErrMessage "usage batch size is outside bounds" in
  fail_if! existsb incomplete_usage observations with ErrMessage "usage observation is incomplete" in
  pool world "persist usage batch" (fun _ => copy_rows ((fun o => (uo_ID o, usage_row o)) <$> observations)).

(** ** A concrete store *)

Definition toy_sha256 (s : string) : string := str_take 32 (s +:+ "................................").

Definition toy_marshal (_ : list PersistedEvidence) : option string := Some "[]".

Definition blank_runtime : RuntimeObservation :=
  mkRuntimeObservation "" "" "" "" "" "" "" "" "" "" "" "" None "" None "" "" None "" "" None "" "" "" None "" None
    "" "" "" "" "" None None None None None None false.

Definition blank_lineage : EvidenceLineage := mkEvidenceLineage "" "" "" "" "" None "" "" "" "" "" "".

(** A response in a turn. *)
Definition turn_lineage (ordinal : option Z) : EvidenceLineage :=
  mkEvidenceLineage "session" "trajectory" "" "" "turn" ordinal "response" "" "" "" "" "".

Definition toy_item (l : EvidenceLineage) : PersistedEvidence :=
  mkPersistedEvidence "item" "source" None (nullableString (el_SessionID l)) (Some "item") "1" "1" (toy_sha256 "item")
    0 "internal" "not_needed" "complete" "runtime_observed" "codex_subscription" 1 None l blank_runtime.

Definition toy_batch (l : EvidenceLineage) : CollectionBatch :=
  mkCollectionBatch "batch" "cursor" "source" 1 "0a" "0b" "fence" 1 [toy_item l].

(** A source that was leased for long. *)
Definition toy_db : DB :=
  set_row db_cursors "source" (mkCursorRow "0" (leased "fence") 0 (Some 1000%Z) 0)
    (set_row db_sources "source" (mkSourceRow "codex_jsonl" 0) empty_db).

Definition toy_commit (l : EvidenceLineage) : result StoreError bool * Conn DB :=
  CommitCollection toy_sha256 toy_marshal calm maxLocalDatabaseBytes (toy_batch l) (mkConn toy_db 0).

(** ** The budget of the store *)

(** The arithmetic of the storage budget is exact.  For a batch that is accepted and sizes of
    64 bits nothing overflows: there is room exactly when the size, which is not negative, the
    reserve of 16 MiB and 64 KiB for each piece of evidence stay below the maximum. *)
Theorem storage_budget_exact evidence current maximum :
  evidence <> [] -> (length evidence <= maxUsageBatch)%nat -> i64_range current -> i64_range maximum ->
  storageBudgetAvailable current (estimatedCollectionBytes evidence) maximum = true
  <-> (0 <= current)%Z /\ (current + 16 * 2 ^ 20 + 64 * 2 ^ 10 * Z.of_nat (length evidence) < maximum)%Z.
Proof.
  intros Hne Hlen%inj_le Hc Hm. unfold i64_range in *.
  assert (Z.of_nat maxUsageBatch = 5000)%Z as Hmax by (vm_compute; reflexivity). rewrite Hmax in Hlen.
  assert (estimatedCollectionBytes evidence = 16 * 2 ^ 20 + 64 * 2 ^ 10 * Z.of_nat (length evidence))%Z as ->.
  { unfold estimatedCollectionBytes, collectionBudgetReserve, estimatedEvidenceBytes, i64_add.
    destruct evidence as [|e evidence]; [done|]. cbn [length Nat.eqb].
    cbn [length] in Hlen |- *.
    assert (i64 (Z.of_nat (S (length evidence)) * (64 * 1024)) = Z.of_nat (S (length evidence)) * (64 * 1024))%Z as ->
      by (apply i64_id; unfold i64_range; lia).
    rewrite i64_id by (unfold i64_range; lia). lia. }
  unfold storageBudgetAvailable. rewrite !andb_true_iff, !Z.leb_le, !Z.ltb_lt. split.
  - intros [[[H1 H2] H3] H4]. rewrite i64_id in H4 by (unfold i64_range; lia). lia.
  - intros [H1 H2]. rewrite i64_id by (unfold i64_range; lia). lia.
Qed.

Example storage_budget_exact_witness :
  storageBudgetAvailable (maxLocalDatabaseBytes - 16 * 2 ^ 20 - 2 ^ 16 - 1)
    (estimatedCollectionBytes [toy_item blank_lineage]) maxLocalDatabaseBytes = true.
Proof.
  apply (storage_budget_exact [toy_item blank_lineage]); [done|apply Nat.leb_le; vm_compute; reflexivity|..];
    unfold i64_range, maxLocalDatabaseBytes; cbn; lia.
Defined.
