(* ===== verification/Linked.v ===== *)
(** * What the lineage of a batch becomes in the store

    The rows of a batch are written twice over, so that a parent that comes later in the batch is
    found the second time.  The theorem says that this resolves every parent there is, never
    changes a parent that is known and never invents one. *)
From S2P Require Import Contracts GoInt Snapshots Transactions Tables.
From S2P Require Import LineageRows.

(** ** Tables whose rows have a parent *)

Section Table.
Context {R C : Type} (get : DB -> gmap string R) (parent : R -> option string) (core : R -> C)
        (makes : string -> Prop) (claims : string -> string -> Prop).

(** No row goes and its core stays; a parent that is known stays, one that is not may be set to
    one that is claimed for the row; new rows are those that are made. *)
Definition linked (d d' : DB) : Prop := forall id,
  match get d !! id, get d' !! id with
  | None, None => True
  | None, Some row' => makes id /\ (forall p, parent row' = Some p -> claims id p)
  | Some row, Some row' =>
      core row' = core row
      /\ (parent row' = parent row \/ parent row = None /\ forall p, parent row' = Some p -> claims id p)
  | Some _, None => False
  end.

#[export] Instance linked_preorder : PreOrder linked.
Proof.
  split.
  - intros d id. destruct (get d !! id); [|done]. split; [done|by left].
  - intros d1 d2 d3 H1 H2 id. specialize (H1 id). specialize (H2 id).
    destruct (get d1 !! id) as [r1|], (get d2 !! id) as [r2|], (get d3 !! id) as [r3|]; try done.
    + destruct H1 as [C1 H1], H2 as [C2 H2]. split; [congruence|].
      destruct H1 as [E1|[N1 K1]], H2 as [E2|[N2 K2]].
      * left. congruence.
      * right. split; [congruence|done].
      * right. split; [done|]. intros p Hp. apply K1. congruence.
      * by right.
    + destruct H1 as [M1 K1], H2 as [C2 [E2|[N2 K2]]]; (split; [done|]); intros p Hp; [apply K1; congruence|by apply K2].
Qed.

Lemma linked_frame d d' : get d' = get d -> linked d d'.
Proof. intros E id. rewrite E. destruct (get d !! id); [|done]. split; [done|by left]. Qed.

Lemma linked_lookup d d' id row :
  linked d d' -> get d !! id = Some row ->
  exists row', get d' !! id = Some row' /\ core row' = core row /\ (is_Some (parent row) -> is_Some (parent row')).
Proof.
  intros H Hr. specialize (H id). rewrite Hr in H. destruct (get d' !! id) as [row'|]; [|done].
  destruct H as [HC HP]. exists row'. split; [done|]. split; [done|].
  destruct HP as [->|[-> _]]; [done|]. by intros [? ?].
Qed.

Lemma linked_refers d d' id : linked d d' -> refers get id d = true -> refers get id d' = true.
Proof.
  intros H [row Hr]%bool_decide_eq_true. destruct (linked_lookup d d' id row H Hr) as (row' & Hr' & _).
  apply bool_decide_eq_true. by exists row'.
Qed.

(** An upsert of such a row: the new row, or the old one with its parent if it has one. *)
Lemma linked_upsert `{!Table get} id row (merge : R -> R) references d u d' :
  upsert get id row merge references d = Ok (u, d') ->
  makes id -> (forall p, parent row = Some p -> claims id p) ->
  (forall old, core (merge old) = core old /\ parent (merge old) = coalesce (parent old) (parent row)) ->
  linked d d'
  /\ exists row', get d' !! id = Some row' /\ (is_Some (parent row) -> is_Some (parent row')).
Proof.
  intros (_ & ->)%upsert_ok HM HC Hmerge.
  assert (forall x, get (set_row get id x d) !! id = Some x) as Hx.
  { intros x. rewrite get_set_row. apply lookup_insert_eq. }
  split.
  - intros id'. destruct (decide (id' = id)) as [->|Hne].
    + rewrite Hx. destruct (get d !! id) as [old|]; [|done]. destruct (Hmerge old) as [Hc Hp].
      split; [done|]. rewrite Hp. destruct (parent old) as [p|]; [by left|]. right. done.
    + rewrite get_set_row, lookup_insert_ne by congruence. destruct (get d !! id'); [|done]. split; [done|by left].
  - eexists. split; [apply Hx|]. destruct (get d !! id) as [old|]; [|done].
    destruct (Hmerge old) as [_ ->]. destruct (parent old); [done|]. done.
Qed.
End Table.

(** ** The trajectories and responses of a batch *)

Section Batch.
Context (sha256 : string -> string) (world : Outside DB) (items : list PersistedEvidence).

(** Evidence without a session has no rows of lineage. *)
Definition has_session (item : PersistedEvidence) : Prop := el_SessionID (pe_Lineage item) <> "".

Definition in_trajectory (item : PersistedEvidence) (t : string) : Prop :=
  item ∈ items /\ has_session item /\ t <> "" /\ el_TrajectoryID (pe_Lineage item) = t.

Definition in_response (item : PersistedEvidence) (r : string) : Prop :=
  item ∈ items /\ has_session item /\ r <> "" /\ el_ResponseID (pe_Lineage item) = r /\ el_TurnID (pe_Lineage item) <> "".

Definition trajectory_parent (t p : string) : Prop :=
  exists item, in_trajectory item t /\ el_ParentTrajectoryID (pe_Lineage item) = p.

Definition response_parent (r p : string) : Prop :=
  exists item, in_response item r /\ el_ParentResponseID (pe_Lineage item) = p.

(** What writing the lineage of the batch may do. *)
Record grown (d d' : DB) : Prop := mkGrown {
  gr_trajectories : linked db_trajectories tr_Parent (fun r => (tr_Session r, tr_Source r))
                      (fun t => exists item, in_trajectory item t) trajectory_parent d d';
  gr_responses : linked db_responses re_Parent (fun r => (re_Turn r, re_Source r))
                   (fun r => exists item, in_response item r) response_parent d d';
  gr_artifacts : db_artifacts d' = db_artifacts d;
  gr_cursors : db_cursors d' = db_cursors d;
  gr_observations : db_observations d' = db_observations d;
  gr_turns : forall t, db_turns d !! t = None -> is_Some (db_turns d' !! t) ->
               exists item, item ∈ items /\ el_TurnID (pe_Lineage item) = t /\ el_TurnOrdinal (pe_Lineage item) <> None;
  gr_turns_kept : forall t, is_Some (db_turns d !! t) -> is_Some (db_turns d' !! t);
  gr_response_turns : forall r row', db_responses d' !! r = Some row' -> db_responses d !! r = None ->
    is_Some (db_turns d' !! re_Turn row')
    /\ exists item, in_response item r /\ el_TurnID (pe_Lineage item) = re_Turn row'
}.

#[export] Instance grown_preorder : PreOrder grown.
Proof.
  split.
  - intros d. split; try done; [intros t H [x Hx]; congruence|]. intros r row H Hn. congruence.
  - intros d1 d2 d3 [A1 B1 C1 D1 E1 F1 K1 T1] [A2 B2 C2 D2 E2 F2 K2 T2]. split; try congruence; try (by transitivity d2).
    + intros t Hn Hs. destruct (db_turns d2 !! t) eqn:Ht; [apply F1; eauto|by apply F2].
    + intros t Ht. apply K2, K1, Ht.
    + intros r row3 H3 Hn. destruct (db_responses d2 !! r) as [row2|] eqn:H2; [|by apply T2].
      destruct (T1 r row2 H2 Hn) as [Ht Hi]. specialize (B2 r). rewrite H2, H3 in B2. destruct B2 as [[= -> _] _]. auto.
Qed.

Lemma grown_frame d d' :
  db_trajectories d' = db_trajectories d -> db_responses d' = db_responses d -> db_artifacts d' = db_artifacts d ->
  db_cursors d' = db_cursors d -> db_observations d' = db_observations d -> db_turns d' = db_turns d -> grown d d'.
Proof.
  intros H1 H2 H3 H4 H5 H6. split; try done; [by apply linked_frame..| | |].
  - intros t Hn [x Hx]. congruence.
  - intros t. by rewrite H6.
  - intros r row Hr Hn. congruence.
Qed.

End Batch.

(** ** Sequences of statements that keep a relation *)

Section Sequences.
Context (sha256 : string -> string) (world : Outside DB) (R : relation DB) `{!PreOrder R}.

Lemma keeps_when b m : keeps R m -> keeps R (when b m).
Proof. destruct b; [done|]. intros _. by apply keeps_ret. Qed.

Lemma keeps_when_some {A} (o : option A) m : (forall a, keeps R (m a)) -> keeps R (when_some o m).
Proof. destruct o as [a|]; intros H; [exact (H a)|by apply keeps_ret]. Qed.

Lemma keeps_existing {T} (get : DB -> gmap string T) `{!Table get} id : keeps R (existingLineageID world get id).
Proof. unfold existingLineageID. destruct (id =s ""); [by apply keeps_ret|by apply keeps_query]. Qed.

Lemma keeps_upsert {T} (get : DB -> gmap string T) `{!Table get} operation id row merge references :
  (forall row d, R d (set_row get id row d)) ->
  keeps R (exec world operation (fun _ => upsert get id row merge references)).
Proof. intros H. apply keeps_statement; [done|]. intros n d a d' (_ & ->)%upsert_ok. apply H. Qed.

Lemma keeps_insert_once {T} (get : DB -> gmap string T) `{!Table get} operation id row references :
  (forall row d, R d (set_row get id row d)) ->
  keeps R (exec world operation (fun _ => insert_once get id row references)).
Proof.
  intros H. apply keeps_statement; [done|]. intros n d a d' [[-> _]|(_ & _ & ->)]%insert_once_ok; [done|apply H].
Qed.

(** The relation does not look at the tables that only hang on the others. *)
Definition ignores_details : Prop := forall d d',
  db_trajectories d' = db_trajectories d -> db_responses d' = db_responses d -> db_artifacts d' = db_artifacts d ->
  db_cursors d' = db_cursors d -> db_observations d' = db_observations d -> db_turns d' = db_turns d -> R d d'.
End Sequences.

(** A statement on one of those tables. *)
Ltac keeps_other H := (apply keeps_upsert || apply keeps_insert_once); [apply _|intros; by apply H].

(** Through a sequence of statements. *)
Ltac keeps_sequence :=
  repeat match goal with
  | |- keeps _ (tx_bind _ _) => apply keeps_bind; [apply _| |intros]
  | |- keeps _ (when _ _) => apply keeps_when; [apply _|]
  | |- keeps _ (when_some _ _) => apply keeps_when_some; [apply _|intros]
  | |- keeps _ (tx_ret _) => apply keeps_ret; apply _
  | |- keeps _ (tx_err _) => apply keeps_err; apply _
  | |- keeps _ (existingLineageID _ _ _) => apply keeps_existing; apply _
  end.

(** The statements after the response of [persistEvidenceLineage]. *)
Definition after_response (sha256 : string -> string) (world : Outside DB) (item : PersistedEvidence) : Tx DB unit :=
  let l := pe_Lineage item in
  let r := pe_Runtime item in
  let trajectory := present (el_TrajectoryID l) in
  let runtimePhaseID := if present (ro_Phase r) && trajectory then runtime_phase_id sha256 item else "" in
  do! _ := when (present (ro_Phase r) && trajectory) (put_phase sha256 world item) in
  let tool_phase := present (el_ToolCallID l) && present (el_ResponseID l) && trajectory in
  let toolPhaseID := if tool_phase then tool_phase_id sha256 item else "" in
  do! _ := when tool_phase (put_tool_phase sha256 world item) in
  do! _ := when (present (el_ResponseID l) && present (ro_OutputModality r)) (put_item sha256 world item) in
  do! _ := when (present (ro_StateEpochID r) && trajectory) (put_epoch world item) in
  do! _ := when (present (el_ToolCallID l) && present (el_ResponseID l)) (put_tool_call world item toolPhaseID) in
  do! _ := when (present (ro_DelegationEvent r) && trajectory) (put_delegation sha256 world item) in
  do! _ := when (present (ro_CompactionEvent r) && trajectory) (put_compaction sha256 world item) in
  do! _ := when (present (ro_StopEvent r) && trajectory) (put_stop sha256 world item toolPhaseID runtimePhaseID) in
  do! _ := when (present (ro_CheckpointEvent r) && present (el_SessionID l)) (put_checkpoint sha256 world item) in
  do! _ := when (present (ro_BoundaryEvent r)) (put_boundary sha256 world item) in
  persistReplaySnapshots sha256 world item.

(** Those before it, continued by [k]. *)
Definition with_response (world : Outside DB) (item : PersistedEvidence) (k : Tx DB unit) : Tx DB unit :=
  let l := pe_Lineage item in
  let trajectory := present (el_TrajectoryID l) in
  do! _ := put_session world item in
  do! parentTrajectoryID := existingLineageID world db_trajectories (el_ParentTrajectoryID l) in
  do! _ := when trajectory (put_trajectory world item parentTrajectoryID) in
  do! _ := when (present (el_TaskID l)) (put_task world item) in
  do! _ := when_some (el_TurnOrdinal l)
             (fun ordinal => when (present (el_TurnID l) && trajectory) (put_turn world item ordinal)) in
  do! parentResponseID := existingLineageID world db_responses (el_ParentResponseID l) in
  do! _ := when (present (el_ResponseID l) && present (el_TurnID l)) (put_response world item parentResponseID) in
  k.

Lemma persist_split sha256 world item :
  has_session item ->
  persistEvidenceLineage sha256 world item
  = (fail_if! negb (bool_decide (pe_SessionID item = Some (el_SessionID (pe_Lineage item))))
       with ErrMessage "collection lineage mismatch" in with_response world item (after_response sha256 world item)).
Proof.
  intros Hs. unfold persistEvidenceLineage. rewrite (proj2 (str_eqb_neq _ _) Hs). reflexivity.
Qed.

Lemma keeps_after_response sha256 world R `{!PreOrder R} item :
  ignores_details R -> keeps R (after_response sha256 world item).
Proof. intros H. unfold after_response, persistReplaySnapshots. keeps_sequence; keeps_other H. Qed.

Lemma present_spec s : present s = true <-> s <> "".
Proof. unfold present. by rewrite negb_true_iff, str_eqb_neq. Qed.

Section Written.
Context (sha256 : string -> string) (world : Outside DB) (items : list PersistedEvidence).
Abbreviation G := (grown items).

Lemma grown_details : ignores_details G.
Proof. intros d d'. apply grown_frame. Qed.

Lemma keeps_trajectory item parent :
  item ∈ items -> has_session item -> el_TrajectoryID (pe_Lineage item) <> "" ->
  (forall p, parent = Some p -> p = el_ParentTrajectoryID (pe_Lineage item)) ->
  forall c c' r, put_trajectory world item parent c = (r, c') ->
  G (cn_db c) (cn_db c')
  /\ (r = Ok tt -> exists row, db_trajectories (cn_db c') !! el_TrajectoryID (pe_Lineage item) = Some row
                    /\ (is_Some parent -> is_Some (tr_Parent row))).
Proof.
  intros Hi Hs Ht Hp c c' r E. unfold put_trajectory, exec in E.
  apply statement_exact in E as [([] & -> & E)|(code & -> & E)]; [|by rewrite E].
  assert (in_trajectory items item (el_TrajectoryID (pe_Lineage item))) as Hin by done.
  pose proof (linked_upsert db_trajectories tr_Parent (fun r => (tr_Session r, tr_Source r))
                (fun t => exists item, in_trajectory items item t) (trajectory_parent items) _ _ _ _ _ _ _ E) as [HL Hrow].
  - by exists item.
  - intros p Hp'. exists item. split; [done|]. by rewrite (Hp p Hp').
  - done.
  - split; [|done]. apply upsert_ok in E as [_ E]. split; [exact HL|rewrite E; by apply linked_frame|by rewrite E..| | |].
    + intros t Hn [x Hx]. rewrite E in Hx. change (db_turns (cn_db c) !! t = Some x) in Hx. congruence.
    + intros t. by rewrite E.
    + intros r0 row. rewrite E. intros Hr Hn. change (db_responses (cn_db c) !! r0 = Some row) in Hr. congruence.
Qed.

Lemma keeps_response item parent :
  item ∈ items -> has_session item -> el_ResponseID (pe_Lineage item) <> "" -> el_TurnID (pe_Lineage item) <> "" ->
  (forall p, parent = Some p -> p = el_ParentResponseID (pe_Lineage item)) ->
  forall c c' r, put_response world item parent c = (r, c') ->
  G (cn_db c) (cn_db c')
  /\ (r = Ok tt -> exists row, db_responses (cn_db c') !! el_ResponseID (pe_Lineage item) = Some row
                    /\ (is_Some parent -> is_Some (re_Parent row))).
Proof.
  intros Hi Hs Hr Ht Hp c c' r E. unfold put_response, exec in E.
  apply statement_exact in E as [([] & -> & E)|(code & -> & E)]; [|by rewrite E].
  assert (in_response items item (el_ResponseID (pe_Lineage item))) as Hin by done.
  pose proof (linked_upsert db_responses re_Parent (fun r => (re_Turn r, re_Source r))
                (fun t => exists item, in_response items item t) (response_parent items) _ _ _ _ _ _ _ E) as [HL Hrow].
  - by exists item.
  - intros p Hp'. exists item. split; [done|]. by rewrite (Hp p Hp').
  - done.
  - split; [|done]. apply upsert_ok in E as [Href E]. split; [rewrite E; by apply linked_frame|exact HL|by rewrite E..| | |].
    + intros t Hn [x Hx]. rewrite E in Hx. change (db_turns (cn_db c) !! t = Some x) in Hx. congruence.
    + intros t. by rewrite E.
    + intros r0 row. rewrite E, (get_set_row db_responses), lookup_insert_Some. intros [[<- <-]|[_ H]] Hn; [|congruence].
      rewrite Hn in Href |- *. apply andb_true_iff in Href as [[Hturn%bool_decide_eq_true _]%andb_true_iff _].
      split; [done|]. by exists item.
Qed.

Lemma keeps_turn item ordinal :
  item ∈ items -> el_TurnOrdinal (pe_Lineage item) = Some ordinal -> keeps G (put_turn world item ordinal).
Proof.
  intros Hi Ho. apply keeps_statement; [apply _|]. intros n d u d' (_ & ->)%upsert_ok.
  split; try done; [by apply linked_frame..| | |].
  - intros t Hn [x Hx]. exists item. split; [done|]. rewrite (get_set_row db_turns) in Hx.
    destruct (decide (t = el_TurnID (pe_Lineage item))) as [->|Hne]; [split; [done|by rewrite Ho]|].
    rewrite lookup_insert_ne in Hx by congruence. congruence.
  - intros t [x Hx]. rewrite (get_set_row db_turns).
    destruct (decide (t = el_TurnID (pe_Lineage item))) as [->|Hne]; [rewrite lookup_insert_eq; eauto|].
    rewrite lookup_insert_ne by congruence. eauto.
  - intros r row Hr Hn. change (db_responses d !! r = Some row) in Hr. congruence.
Qed.

Lemma existing_id {R} (get : DB -> gmap string R) `{!Table get} id a c c1 :
  existingLineageID world get id c = (Ok a, c1) ->
  cn_db c1 = cn_db c /\ (forall p, a = Some p -> p = id)
  /\ (id <> "" -> refers get id (cn_db c) = true -> is_Some a).
Proof.
  unfold existingLineageID. destruct (id =s "") eqn:E.
  - intros [= <- <-]. apply str_eqb_eq in E. done.
  - intros [-> Hc]%query_ok. split; [done|]. destruct (refers get id (cn_db c)); [|done].
    split; [by intros p [= <-]|done].
Qed.

Lemma keeps_persist item : item ∈ items -> keeps G (persistEvidenceLineage sha256 world item).
Proof.
  intros Hi. destruct (decide (el_SessionID (pe_Lineage item) = "")) as [Hs|Hs].
  { unfold persistEvidenceLineage. rewrite Hs. apply keeps_ret, _. }
  rewrite (persist_split sha256 world item Hs). destruct (negb _); [apply keeps_err, _|]. unfold with_response.
  apply keeps_bind; [apply _|keeps_other grown_details|intros _].
  apply (keeps_bind_value _ (fun a => forall p, a = Some p -> p = el_ParentTrajectoryID (pe_Lineage item)));
    [apply keeps_existing, _|intros a c c1 H; apply (existing_id _ _ _ _ _ H)|intros parent Hp].
  apply keeps_bind; [apply _| |intros _].
  { destruct (present _) eqn:Ht; [|apply keeps_ret, _]. apply present_spec in Ht.
    intros c r c' E. by apply (keeps_trajectory item parent Hi Hs Ht Hp c c' r). }
  apply keeps_bind; [apply _|apply keeps_when; [apply _|]; keeps_other grown_details|intros _].
  apply keeps_bind; [apply _| |intros _].
  { destruct (el_TurnOrdinal _) eqn:Ho; [|apply keeps_ret, _]. apply keeps_when; [apply _|]. by apply keeps_turn. }
  apply (keeps_bind_value _ (fun a => forall p, a = Some p -> p = el_ParentResponseID (pe_Lineage item)));
    [apply keeps_existing, _|intros a c c1 H; apply (existing_id _ _ _ _ _ H)|intros parent' Hp'].
  apply keeps_bind; [apply _| |intros _; apply keeps_after_response; [apply _|apply grown_details]].
  destruct (_ && _) eqn:Hr; [|apply keeps_ret, _]. apply andb_true_iff in Hr as [Hr%present_spec Ht%present_spec].
  intros c r c' E. by apply (keeps_response item parent' Hi Hs Hr Ht Hp' c c' r).
Qed.

(** The rows of an item are there, with a parent if the item names one that was in [d0]. *)
Definition resolved (d0 : DB) (item : PersistedEvidence) (d : DB) : Prop :=
  let l := pe_Lineage item in
  (el_TrajectoryID l <> "" ->
     exists row, db_trajectories d !! el_TrajectoryID l = Some row
       /\ (el_ParentTrajectoryID l <> "" -> refers db_trajectories (el_ParentTrajectoryID l) d0 = true ->
           is_Some (tr_Parent row)))
  /\ (el_ResponseID l <> "" -> el_TurnID l <> "" ->
     exists row, db_responses d !! el_ResponseID l = Some row
       /\ (el_ParentResponseID l <> "" -> refers db_responses (el_ParentResponseID l) d0 = true ->
           is_Some (re_Parent row))).

Lemma resolved_grown d0 item d d' : G d d' -> resolved d0 item d -> resolved d0 item d'.
Proof.
  intros HG [HT HR]. split.
  - intros Ht. destruct (HT Ht) as (row & Hrow & Hp).
    destruct (linked_lookup _ _ _ _ _ _ _ _ _ (gr_trajectories _ _ _ HG) Hrow) as (row' & Hrow' & _ & Hp').
    exists row'. split; [done|]. auto.
  - intros Hr Ht. destruct (HR Hr Ht) as (row & Hrow & Hp).
    destruct (linked_lookup _ _ _ _ _ _ _ _ _ (gr_responses _ _ _ HG) Hrow) as (row' & Hrow' & _ & Hp').
    exists row'. split; [done|]. auto.
Qed.

Lemma when_trajectory item parent c c' u :
  item ∈ items -> has_session item -> (forall p, parent = Some p -> p = el_ParentTrajectoryID (pe_Lineage item)) ->
  when (present (el_TrajectoryID (pe_Lineage item))) (put_trajectory world item parent) c = (Ok u, c') ->
  G (cn_db c) (cn_db c')
  /\ (el_TrajectoryID (pe_Lineage item) <> "" ->
      exists row, db_trajectories (cn_db c') !! el_TrajectoryID (pe_Lineage item) = Some row
        /\ (is_Some parent -> is_Some (tr_Parent row))).
Proof.
  intros Hi Hs Hp E. destruct (present _) eqn:Ht.
  - apply present_spec in Ht. destruct u. destruct (keeps_trajectory item parent Hi Hs Ht Hp _ _ _ E). auto.
  - injection E as _ <-. split; [done|]. intros Hne%present_spec. by rewrite Hne in Ht.
Qed.

Lemma when_response item parent c c' u :
  item ∈ items -> has_session item -> (forall p, parent = Some p -> p = el_ParentResponseID (pe_Lineage item)) ->
  when (present (el_ResponseID (pe_Lineage item)) && present (el_TurnID (pe_Lineage item)))
    (put_response world item parent) c = (Ok u, c') ->
  G (cn_db c) (cn_db c')
  /\ (el_ResponseID (pe_Lineage item) <> "" -> el_TurnID (pe_Lineage item) <> "" ->
      exists row, db_responses (cn_db c') !! el_ResponseID (pe_Lineage item) = Some row
        /\ (is_Some parent -> is_Some (re_Parent row))).
Proof.
  intros Hi Hs Hp E. destruct (_ && _) eqn:Hc.
  - apply andb_true_iff in Hc as [Hr%present_spec Ht%present_spec]. destruct u.
    destruct (keeps_response item parent Hi Hs Hr Ht Hp _ _ _ E). auto.
  - injection E as _ <-. split; [done|]. intros Hr%present_spec Ht%present_spec. by rewrite Hr, Ht in Hc.
Qed.

Lemma keeps_session item : keeps G (put_session world item).
Proof. unfold put_session. keeps_other grown_details. Qed.

Lemma keeps_task_turn item :
  item ∈ items ->
  keeps G (do! _ := when (present (el_TaskID (pe_Lineage item))) (put_task world item) in
           when_some (el_TurnOrdinal (pe_Lineage item))
             (fun ordinal => when (present (el_TurnID (pe_Lineage item)) && present (el_TrajectoryID (pe_Lineage item)))
                               (put_turn world item ordinal))).
Proof.
  intros Hi. apply keeps_bind; [apply _|apply keeps_when; [apply _|]; keeps_other grown_details|intros _].
  destruct (el_TurnOrdinal _) eqn:Ho; [|apply keeps_ret, _]. apply keeps_when; [apply _|]. by apply keeps_turn.
Qed.

Lemma bind_assoc {A B C} (m : Tx DB A) (k : A -> Tx DB B) (j : B -> Tx DB C) c :
  tx_bind (tx_bind m k) j c = tx_bind m (fun a => tx_bind (k a) j) c.
Proof. unfold tx_bind. by destruct (m c) as [[a|e] c1]. Qed.

Lemma persist_resolves item c c' :
  item ∈ items -> has_session item -> persistEvidenceLineage sha256 world item c = (Ok tt, c') ->
  resolved (cn_db c) item (cn_db c').
Proof.
  intros Hi Hs. rewrite (persist_split sha256 world item Hs). intros [_ E]%fail_if_ok. unfold with_response in E.
  apply bind_ok in E as (u1 & c1 & G1%keeps_session & E).
  apply bind_ok in E as (parent & c2 & (D2 & Hp & Hpar)%existing_id & E).
  apply bind_ok in E as (u3 & c3 & E3 & E).
  destruct (when_trajectory item parent c2 c3 u3 Hi Hs Hp E3) as [G3 H3].
  rewrite <- bind_assoc in E. apply bind_ok in E as (u5 & c5 & G5%keeps_task_turn & E); [|done].
  apply bind_ok in E as (parent' & c6 & (D6 & Hp' & Hpar')%existing_id & E).
  apply bind_ok in E as (u7 & c7 & E7 & E).
  destruct (when_response item parent' c6 c7 u7 Hi Hs Hp' E7) as [G7 H7].
  apply (keeps_after_response sha256 world G item grown_details) in E as G8. apply (resolved_grown _ _ _ _ G8).
  rewrite D2 in G3. rewrite D6 in G7. split.
  - intros Ht. destruct (H3 Ht) as (row & Hrow & Hr).
    assert (G (cn_db c3) (cn_db c7)) as G37 by (by transitivity (cn_db c5)).
    destruct (linked_lookup _ _ _ _ _ _ _ _ _ (gr_trajectories _ _ _ G37) Hrow) as (row' & Hrow' & _ & Hpr).
    exists row'. split; [done|]. intros Hne Href. apply Hpr, Hr, Hpar; [done|].
    exact (linked_refers _ _ _ _ _ _ _ _ (gr_trajectories _ _ _ G1) Href).
  - intros Hr Ht. destruct (H7 Hr Ht) as (row & Hrow & Hrp). exists row. split; [done|].
    intros Hne Href. apply Hrp, Hpar'; [done|].
    assert (G (cn_db c) (cn_db c5)) as G15 by (transitivity (cn_db c1); [done|]; by transitivity (cn_db c3)).
    exact (linked_refers _ _ _ _ _ _ _ _ (gr_responses _ _ _ G15) Href).
Qed.

(** ** Both passes *)

Definition persist_all : Tx DB unit := tx_each (persistEvidenceLineage sha256 world) items.

Lemma keeps_persist_all : keeps G persist_all.
Proof. apply keeps_each; [apply _|]. intros x Hx. by apply keeps_persist. Qed.

Lemma persist_all_resolves d0 c c' :
  G d0 (cn_db c) -> persist_all c = (Ok tt, c') ->
  forall item, item ∈ items -> has_session item -> resolved d0 item (cn_db c').
Proof.
  intros HG HP item Hi. revert item Hi.
  assert (forall l, l ⊆ items -> forall c, G d0 (cn_db c) -> tx_each (persistEvidenceLineage sha256 world) l c = (Ok tt, c') ->
            G (cn_db c) (cn_db c') /\ forall item, item ∈ l -> has_session item -> resolved d0 item (cn_db c')) as H.
  { clear. induction l as [|x l IH]; intros Hl c HG; cbn [tx_each].
    { intros [= <-]. split; [done|]. intros item Hi. by apply not_elem_of_nil in Hi. }
    intros ([] & c1 & E1 & E2)%bind_ok. assert (x ∈ items) as Hx by (apply Hl; left).
    pose proof (keeps_persist x Hx _ _ _ E1) as G1.
    destruct (IH ltac:(set_solver) c1 ltac:(by transitivity (cn_db c)) E2) as [G2 H2].
    split; [by transitivity (cn_db c1)|]. intros item [->|Hi]%elem_of_cons Hs; [|by apply H2].
    apply (resolved_grown _ _ _ _ G2). destruct (persist_resolves x c c1 Hx Hs E1) as [HT HR]. split.
    - intros Ht. destruct (HT Ht) as (row & Hrow & Hp). exists row. split; [done|]. intros Hne Href. apply Hp; [done|].
      exact (linked_refers _ _ _ _ _ _ _ _ (gr_trajectories _ _ _ HG) Href).
    - intros Hr Ht. destruct (HR Hr Ht) as (row & Hrow & Hp). exists row. split; [done|]. intros Hne Href. apply Hp; [done|].
      exact (linked_refers _ _ _ _ _ _ _ _ (gr_responses _ _ _ HG) Href). }
  intros item Hi. by apply (H items ltac:(done) c HG HP).
Qed.
End Written.

(** Both passes over a batch. *)
Definition persist_twice (sha256 : string -> string) (world : Outside DB) (items : list PersistedEvidence) : Tx DB unit :=
  do! _ := persist_all sha256 world items in persist_all sha256 world items.

(** The rows of the evidence of a batch are there, with a parent if the evidence names one that was
    in the store or is anywhere in the batch. *)
Definition lineage_resolved (items : list PersistedEvidence) (d d' : DB) : Prop :=
  forall item, item ∈ items -> has_session item ->
  let l := pe_Lineage item in
  (el_TrajectoryID l <> "" ->
     exists row, db_trajectories d' !! el_TrajectoryID l = Some row
       /\ forall p, el_ParentTrajectoryID l = p -> p <> "" ->
          is_Some (db_trajectories d !! p) \/ (exists other, in_trajectory items other p) ->
          is_Some (tr_Parent row))
  /\ (el_ResponseID l <> "" -> el_TurnID l <> "" ->
     exists row, db_responses d' !! el_ResponseID l = Some row
       /\ forall p, el_ParentResponseID l = p -> p <> "" ->
          is_Some (db_responses d !! p) \/ (exists other, in_response items other p) ->
          is_Some (re_Parent row)).

(** Two passes resolve the lineage of a batch, whatever its order, and invent nothing. *)
Lemma batch_lineage sha256 world items c c' :
  persist_twice sha256 world items c = (Ok tt, c') ->
  grown items (cn_db c) (cn_db c') /\ lineage_resolved items (cn_db c) (cn_db c').
Proof.
  intros ([] & c1 & E1 & E2)%bind_ok.
  pose proof (keeps_persist_all sha256 world items _ _ _ E1) as G1.
  pose proof (keeps_persist_all sha256 world items _ _ _ E2) as G2.
  split; [by transitivity (cn_db c1)|]. intros item Hi Hs.
  pose proof (persist_all_resolves sha256 world items (cn_db c) c c1 (reflexivity _) E1) as H1.
  destruct (persist_all_resolves sha256 world items (cn_db c1) c1 c' (reflexivity _) E2 item Hi Hs) as [HT HR].
  split.
  - intros Ht. destruct (HT Ht) as (row & Hrow & Hp). exists row. split; [done|]. intros p <- Hne Hknown.
    apply Hp; [done|]. apply bool_decide_eq_true. destruct Hknown as [[x Hx]|(other & Ho & Hso & _ & Hto)].
    + destruct (linked_lookup _ _ _ _ _ _ _ _ _ (gr_trajectories _ _ _ G1) Hx) as (y & Hy & _). by exists y.
    + rewrite <- Hto in Hne |- *. destruct (H1 other Ho Hso) as [HT1 _]. destruct (HT1 Hne) as (row' & Hrow' & _). by exists row'.
  - intros Hr Hturn. destruct (HR Hr Hturn) as (row & Hrow & Hp). exists row. split; [done|]. intros p <- Hne Hknown.
    apply Hp; [done|]. apply bool_decide_eq_true. destruct Hknown as [[x Hx]|(other & Ho & Hso & _ & Hro & Hto)].
    + destruct (linked_lookup _ _ _ _ _ _ _ _ _ (gr_responses _ _ _ G1) Hx) as (y & Hy & _). by exists y.
    + rewrite <- Hro in Hne |- *. destruct (H1 other Ho Hso) as [_ HR1]. destruct (HR1 Hne Hto) as (row' & Hrow' & _). by exists row'.
Qed.
