(* ===== verification/Committed.v ===== *)
(** * What a commit does

    The theorems about [CommitStore.CommitCollection]: what a committed batch leaves in the store,
    that nothing else changes, and which batches can never be committed. *)
From S2P Require Import Contracts GoInt Snapshots Transactions Tables.
From S2P Require Import Leases LineageRows CommitStore Linked.

(** ** Evidence in the store *)

(** The unique index of evidence_artifacts. *)
Definition unique_alias (d : DB) : Prop := forall id1 id2 r1 r2,
  db_artifacts d !! id1 = Some r1 -> db_artifacts d !! id2 = Some r2 ->
  ea_Source r1 = ea_Source r2 -> ea_Alias r1 = ea_Alias r2 -> ea_Alias r1 <> None -> id1 = id2.

Lemma artifact_of_Some source alias d id row :
  artifact_of source alias d = Some (id, row) ->
  db_artifacts d !! id = Some row /\ ea_Source row = source /\ ea_Alias row = Some alias.
Proof.
  intros [H1 H2]%find_first_Some. apply elem_of_map_to_list in H1. cbn in H2.
  apply andb_true_iff in H2 as [H2%str_eqb_eq H3%bool_decide_eq_true]. done.
Qed.

Lemma artifact_of_None source alias d id row :
  artifact_of source alias d = None -> db_artifacts d !! id = Some row -> ea_Source row = source ->
  ea_Alias row <> Some alias.
Proof.
  intros H Hr Hs Ha. apply elem_of_map_to_list in Hr. apply (find_first_None _ _ _ H) in Hr. cbn in Hr.
  rewrite Hs, Ha, str_eqb_refl, bool_decide_true in Hr by done. done.
Qed.

Lemma artifact_of_unique source alias d id row :
  unique_alias d -> db_artifacts d !! id = Some row -> ea_Source row = source -> ea_Alias row = Some alias ->
  artifact_of source alias d = Some (id, row).
Proof.
  intros HU Hr Hs Ha. destruct (artifact_of source alias d) as [[id' row']|] eqn:E.
  - apply artifact_of_Some in E as (Hr' & Hs' & Ha').
    assert (id' = id) as -> by (apply (HU id' id row' row); congruence). congruence.
  - by destruct (artifact_of_None _ _ _ id row E Hr Hs).
Qed.

(** All of a row but when it was last seen and how long it is kept. *)
Definition same_artifact (r r' : ArtifactRow) : Prop :=
  r' = mkArtifactRow (ea_Source r) (ea_Project r) (ea_Session r) (ea_Alias r) (ea_Schema r) (ea_Hash r) (ea_Length r)
         (ea_Class r) (ea_Redaction r) (ea_Coverage r) (ea_Provenance r) (ea_Surface r) (ea_ObservedAt r') (ea_RetainedUntil r').

Section Stored.
Context (items : list PersistedEvidence).

(** What writing the evidence of a batch may do: rows are added for its items, rows of its items
    are refreshed. *)
Record stored (d d' : DB) : Prop := mkStored {
  st_cursors : db_cursors d' = db_cursors d;
  st_kept : forall id row, db_artifacts d !! id = Some row ->
    exists row', db_artifacts d' !! id = Some row' /\ same_artifact row row'
      /\ (row' = row \/ exists item, item ∈ items /\ pe_SourceID item = ea_Source row
                         /\ pe_ExternalAliasID item = ea_Alias row /\ pe_ContentHash item = ea_Hash row);
  st_added : forall id row', db_artifacts d' !! id = Some row' -> db_artifacts d !! id = None ->
    exists item, item ∈ items /\ id = pe_ID item /\ same_artifact (artifact_row item) row';
  st_unique : unique_alias d -> unique_alias d'
}.

Lemma same_artifact_refl r : same_artifact r r.
Proof. by destruct r. Qed.

Lemma same_artifact_trans r1 r2 r3 : same_artifact r1 r2 -> same_artifact r2 r3 -> same_artifact r1 r3.
Proof. unfold same_artifact. intros -> H. rewrite H. reflexivity. Qed.

Lemma same_artifact_key r r' : same_artifact r r' ->
  ea_Source r' = ea_Source r /\ ea_Alias r' = ea_Alias r /\ ea_Hash r' = ea_Hash r.
Proof. unfold same_artifact. by intros ->. Qed.

#[export] Instance stored_preorder : PreOrder stored.
Proof.
  split.
  - intros d. split; try done.
    + intros id row H. exists row. split; [done|]. split; [apply same_artifact_refl|by left].
    + congruence.
  - intros d1 d2 d3 [C1 K1 A1 U1] [C2 K2 A2 U2]. split; [congruence| | |auto].
    + intros id row (row1 & H1 & S1 & E1)%K1. destruct (K2 id row1 H1) as (row2 & H2 & S2 & E2).
      exists row2. split; [done|]. split; [by apply (same_artifact_trans row row1)|].
      destruct (same_artifact_key _ _ S1) as (-> & -> & ->) in E2. destruct E2 as [->|E2]; [done|by right].
    + intros id row3 H3 Hn. destruct (db_artifacts d2 !! id) as [row2|] eqn:H2.
      * destruct (A1 id row2 H2 Hn) as (item & Hi & -> & S1). exists item. split; [done|]. split; [done|].
        destruct (K2 _ _ H2) as (row3' & H3' & S2 & _). assert (row3' = row3) as -> by congruence.
        by apply (same_artifact_trans _ row2).
      * by apply A2.
Qed.

Lemma stored_frame d d' : db_artifacts d' = db_artifacts d -> db_cursors d' = db_cursors d -> stored d d'.
Proof.
  intros HA HC. split; [done| | |].
  - intros id row H. exists row. rewrite HA. split; [done|]. split; [apply same_artifact_refl|by left].
  - intros id row' H Hn. rewrite HA in H. congruence.
  - unfold unique_alias. by rewrite HA.
Qed.

Lemma grown_stored d d' : grown items d d' -> stored d d'.
Proof. intros H. apply stored_frame; apply H. Qed.

Lemma artifacts_set t d : db_artifacts (set_artifacts t d) = t.
Proof. reflexivity. Qed.

(** The statement that writes one piece of evidence. *)
Lemma upsert_artifact_stored item d b d' :
  item ∈ items -> upsert_artifact item d = Ok (b, d') -> stored d d'.
Proof.
  intros Hi. unfold upsert_artifact.
  assert (forall r, (pe_ExternalAliasID item = None
                     \/ exists a, pe_ExternalAliasID item = Some a /\ artifact_of (pe_SourceID item) a d = None) ->
          (let! r := insert_row db_artifacts (pe_ID item) (artifact_row item)
                       (artifact_references (artifact_row item)) d in Ok (true, r.2)) = Ok r -> stored d r.2) as Hfresh.
  { intros r Hal. destruct (insert_row _ _ _ _ _) as [[[] d1]|] eqn:E; [|done]. intros [= <-]. cbn [snd].
    apply insert_row_ok in E as (Hn & _ & ->). split; [done| | |].
    - intros id row H. exists row. rewrite get_set_row, lookup_insert_ne by congruence.
      split; [done|]. split; [apply same_artifact_refl|by left].
    - intros id row' H Hn'. rewrite get_set_row in H. destruct (decide (id = pe_ID item)) as [->|Hne].
      + rewrite lookup_insert_eq in H. injection H as <-. exists item. split; [done|]. split; [done|apply same_artifact_refl].
      + rewrite lookup_insert_ne in H by congruence. congruence.
    - intros HU id1 id2 r1 r2. rewrite !(get_set_row db_artifacts). rewrite !lookup_insert_Some.
      assert (forall id row, db_artifacts d !! id = Some row -> ea_Source row = pe_SourceID item ->
              ea_Alias row = pe_ExternalAliasID item -> pe_ExternalAliasID item <> None -> False) as Hno.
      { intros id row Hr Hs Ha Hne. destruct Hal as [Hal|(a & Hal & HN)]; [congruence|].
        apply (artifact_of_None _ _ _ id row HN Hr Hs). congruence. }
      intros [[<- <-]|[Hn1 H1]] [[<- <-]|[Hn2 H2]] Hs Ha Hne; [done|exfalso; eapply Hno; eauto; cbn in *; congruence..|].
      by apply (HU id1 id2 r1 r2). }
  destruct (pe_ExternalAliasID item) as [a|] eqn:Ea.
  - destruct (artifact_of (pe_SourceID item) a d) as [[id old]|] eqn:Ho.
    + destruct (ea_Hash old =s pe_ContentHash item) eqn:Eh; intros [= _ <-]; [|done].
      apply str_eqb_eq in Eh. apply artifact_of_Some in Ho as (Ho & Hs & Ha).
      assert (same_artifact old (refresh_artifact item old)) as HS by done.
      split; [done| | |].
      * intros id' row H. destruct (decide (id' = id)) as [->|Hne].
        -- assert (row = old) as -> by congruence. exists (refresh_artifact item old).
           rewrite artifacts_set, lookup_insert_eq. split; [done|]. split; [done|].
           right. exists item. by rewrite Ea.
        -- exists row. rewrite artifacts_set, lookup_insert_ne by congruence. split; [done|]. split; [apply same_artifact_refl|by left].
      * intros id' row' H Hn. rewrite artifacts_set in H. rewrite lookup_insert_ne in H by congruence. congruence.
      * intros HU id1 id2 r1 r2. rewrite !artifacts_set, !lookup_insert_Some.
        intros [[<- <-]|[Hn1 H1]] [[<- <-]|[Hn2 H2]] Hs' Ha' Hne; [done| | |by apply (HU id1 id2 r1 r2)].
        -- by apply (HU id id2 old r2).
        -- by apply (HU id1 id r1 old).
    + intros H. apply (Hfresh (b, d')); [right; eauto|done].
  - intros H. apply (Hfresh (b, d')); [by left|done].
Qed.
End Stored.

Section Evidence.
Context (sha256 : string -> string) (world : Outside DB) (items : list PersistedEvidence).

(** Relations that what follows a piece of evidence cannot break. *)
Section After.
Context (R : relation DB) `{!PreOrder R}.
Hypothesis details : forall d d',
  db_trajectories d' = db_trajectories d -> db_responses d' = db_responses d -> db_artifacts d' = db_artifacts d ->
  db_cursors d' = db_cursors d -> R d d'.

Lemma keeps_put_observation operation id row : keeps R (put_observation world operation id row).
Proof. unfold put_observation. apply keeps_insert_once; [apply _|]. intros row' d. by apply details. Qed.

Lemma keeps_observations item : keeps R (persistRuntimeObservations sha256 world item).
Proof.
  unfold persistRuntimeObservations. keeps_sequence; try apply keeps_put_observation.
  apply keeps_statement; [apply _|]. intros n d u d'. destruct (project_revisions _ d) as [|[revision r] l].
  - by intros [= _ <-].
  - intros [[-> _]|(_ & _ & ->)]%insert_once_ok; [done|]. by apply details.
Qed.

Lemma keeps_after_artifact item :
  keeps R (do! _ := when (present (el_TrajectoryID (pe_Lineage item))) (put_link sha256 world item) in
           persistRuntimeObservations sha256 world item).
Proof.
  keeps_sequence; [|apply keeps_observations]. apply keeps_insert_once; [apply _|].
  intros row d. by apply details.
Qed.

Lemma keeps_evidence item :
  (forall d b d', upsert_artifact item d = Ok (b, d') -> R d d') -> keeps R (persist_evidence sha256 world item).
Proof.
  intros Hi. unfold persist_evidence. apply keeps_bind; [apply _| |intros b].
  - apply keeps_statement; [apply _|]. intros n d b d'. apply Hi.
  - destruct (negb b); [apply keeps_err, _|apply keeps_after_artifact].
Qed.
End After.

Lemma stored_details d d' :
  db_trajectories d' = db_trajectories d -> db_responses d' = db_responses d -> db_artifacts d' = db_artifacts d ->
  db_cursors d' = db_cursors d -> stored items d d'.
Proof. intros _ _. apply stored_frame. Qed.

Lemma stored_hash_kept item h d d' :
  stored items d d' -> unique_alias d -> stored_hash item d = Some h -> stored_hash item d' = Some h.
Proof.
  intros HS HU. unfold stored_hash. destruct (pe_ExternalAliasID item) as [a|]; [|done].
  destruct (artifact_of _ a d) as [[id row]|] eqn:E; [|done]. intros [= <-]. cbn [snd].
  apply artifact_of_Some in E as (Hr & Hs & Ha). destruct (st_kept _ _ _ HS id row Hr) as (row' & Hr' & HA & _).
  destruct (same_artifact_key _ _ HA) as (Hs' & Ha' & Hh').
  rewrite (artifact_of_unique _ a d' id row'); [|by apply (st_unique _ _ _ HS)|done|congruence..]. cbn. congruence.
Qed.

Lemma upsert_artifact_hash item d d' alias :
  unique_alias d' -> upsert_artifact item d = Ok (true, d') -> pe_ExternalAliasID item = Some alias ->
  stored_hash item d' = Some (pe_ContentHash item).
Proof.
  intros HU H Ha. unfold upsert_artifact in H. rewrite Ha in H. unfold stored_hash. rewrite Ha.
  destruct (artifact_of (pe_SourceID item) alias d) as [[id old]|] eqn:Ho.
  - destruct (ea_Hash old =s pe_ContentHash item) eqn:Eh; [|discriminate H]. injection H as <-.
    apply str_eqb_eq in Eh. apply artifact_of_Some in Ho as (Ho & Hs & Hal).
    rewrite (artifact_of_unique _ alias _ id (refresh_artifact item old)); [cbn; congruence|done| |done..].
    apply lookup_insert_eq.
  - destruct (insert_row _ _ _ _ _) as [[[] d1]|] eqn:E; [|discriminate H]. injection H as <-.
    apply insert_row_ok in E as (_ & _ & ->).
    rewrite (artifact_of_unique _ alias _ (pe_ID item) (artifact_row item)); [done|done| |done..].
    apply lookup_insert_eq.
Qed.

Lemma evidence_hash item c c' alias :
  item ∈ items -> unique_alias (cn_db c) -> persist_evidence sha256 world item c = (Ok tt, c') ->
  pe_ExternalAliasID item = Some alias -> stored_hash item (cn_db c') = Some (pe_ContentHash item).
Proof.
  intros Hi HU E Ha. unfold persist_evidence in E. apply bind_ok in E as (b & c1 & E1 & E).
  apply statement_ok in E1. apply fail_if_ok in E as [Hb E]. apply negb_false_iff in Hb as ->.
  pose proof (upsert_artifact_stored items item _ _ _ Hi E1) as S1. pose proof (st_unique _ _ _ S1 HU) as U1.
  apply (stored_hash_kept item _ (cn_db c1)); [|done|by apply (upsert_artifact_hash item (cn_db c) _ alias)].
  exact (keeps_after_artifact _ stored_details item _ _ _ E).
Qed.

Lemma all_evidence l c c' :
  l ⊆ items -> unique_alias (cn_db c) -> tx_each (persist_evidence sha256 world) l c = (Ok tt, c') ->
  stored items (cn_db c) (cn_db c')
  /\ forall item alias, item ∈ l -> pe_ExternalAliasID item = Some alias ->
     stored_hash item (cn_db c') = Some (pe_ContentHash item).
Proof.
  revert c. induction l as [|x l IH]; intros c Hl HU; cbn [tx_each].
  { intros [= <-]. split; [done|]. by intros item alias ?%not_elem_of_nil. }
  intros ([] & c1 & E1 & E2)%bind_ok. assert (x ∈ items) as Hx by (apply Hl; left).
  pose proof (keeps_evidence _ stored_details x (fun d b d' => upsert_artifact_stored items x d b d' Hx) _ _ _ E1) as S1. pose proof (st_unique _ _ _ S1 HU) as U1.
  destruct (IH c1 ltac:(set_solver) U1 E2) as [S2 H2]. split; [by transitivity (cn_db c1)|].
  intros item alias [->|Hi]%elem_of_cons Ha; [|by apply (H2 item alias)].
  apply (stored_hash_kept x _ (cn_db c1)); [done|done|]. by apply (evidence_hash x c c1 alias).
Qed.
End Evidence.

(** ** The commit *)

Section Commit.
Context (sha256 : string -> string) (marshal : list PersistedEvidence -> option string)
        (world : Outside DB) (maxDatabaseBytes : Z).

(** The lease of the batch is the current one of its source at a statement. *)
Definition fenced (batch : CollectionBatch) (row : CursorRow) : Prop :=
  cu_State row = leased (cb_Fence batch)
  /\ exists expires n, cu_LeaseExpires row = Some expires /\ (ou_clock world n < expires)%Z.

Definition cursor_value (batch : CollectionBatch) : string :=
  encodeCollectionCursor (cb_Generation batch) (cb_CursorDigest batch) (cb_Next batch).

Definition advanced_row (batch : CollectionBatch) (row : CursorRow) : CursorRow :=
  mkCursorRow (cursor_value batch) (leased (cb_Fence batch)) (cb_ObservedAt batch) (cu_LeaseExpires row) (cb_ObservedAt batch).

Definition has_evidence (batch : CollectionBatch) (d : DB) : Prop :=
  forall item alias, item ∈ cb_Evidence batch -> pe_ExternalAliasID item = Some alias ->
  stored_hash item d = Some (pe_ContentHash item).

(** The batch was applied: under the lease of its source, from a cursor that it moves forward or
    of another generation, with all of its evidence, touching only its source. *)
Record applied (batch : CollectionBatch) (d d' : DB) : Prop := mkApplied {
  ap_cursor : exists row generation digest current,
    db_cursors d !! cb_SourceID batch = Some row /\ fenced batch row
    /\ decodeCollectionCursor (cu_Value row) = Some (generation, digest, current)
    /\ (generation <> "" /\ generation <> cb_Generation batch \/ (current < cb_Next batch)%Z)
    /\ db_cursors d' = <[cb_SourceID batch := advanced_row batch row]> (db_cursors d);
  ap_source : Forall (fun item => pe_SourceID item = cb_SourceID batch) (cb_Evidence batch);
  ap_evidence : has_evidence batch d';
  ap_kept : forall id row, db_artifacts d !! id = Some row ->
    exists row', db_artifacts d' !! id = Some row' /\ same_artifact row row'
      /\ (ea_Source row <> cb_SourceID batch -> row' = row);
  ap_added : forall id row', db_artifacts d' !! id = Some row' -> db_artifacts d !! id = None ->
    exists item, item ∈ cb_Evidence batch /\ same_artifact (artifact_row item) row';
  ap_unique : unique_alias d';
  ap_lineage : exists d1, grown (cb_Evidence batch) d d1 /\ lineage_resolved (cb_Evidence batch) d d1
                 /\ db_trajectories d' = db_trajectories d1 /\ db_responses d' = db_responses d1;
  ap_budget : exists n, (ou_bytes world n < maxDatabaseBytes)%Z
}.

(** The batch had been applied: the cursor is where it ends and its evidence is there. *)
Definition replayed (batch : CollectionBatch) (d : DB) : Prop :=
  (exists row generation digest, db_cursors d !! cb_SourceID batch = Some row /\ fenced batch row
     /\ decodeCollectionCursor (cu_Value row) = Some (generation, digest, cb_Next batch)
     /\ (generation = "" \/ generation = cb_Generation batch) /\ digest = cb_CursorDigest batch)
  /\ forall item, item ∈ cb_Evidence batch -> stored_hash item d = Some (pe_ContentHash item).

Definition commit_effect (batch : CollectionBatch) (new : bool) (d d' : DB) : Prop :=
  if new then applied batch d d' else d' = d /\ replayed batch d.

(** The tables of lineage are the same. *)
Definition same_lineage (d d' : DB) : Prop :=
  db_trajectories d' = db_trajectories d /\ db_responses d' = db_responses d.

#[export] Instance same_lineage_preorder : PreOrder same_lineage.
Proof. split; [by intros d|]. intros d1 d2 d3 [? ?] [? ?]. split; congruence. Qed.

Lemma upsert_artifact_lineage item d b d' : upsert_artifact item d = Ok (b, d') -> same_lineage d d'.
Proof.
  unfold upsert_artifact. destruct (pe_ExternalAliasID item) as [a|].
  - destruct (artifact_of _ a d) as [[id old]|].
    + destruct (ea_Hash old =s _); by intros [= _ <-].
    + destruct (insert_row _ _ _ _ _) as [[[] d1]|] eqn:E; [|done]. intros [= _ <-].
      by apply insert_row_ok in E as (_ & _ & ->).
  - destruct (insert_row _ _ _ _ _) as [[[] d1]|] eqn:E; [|done]. intros [= _ <-].
    by apply insert_row_ok in E as (_ & _ & ->).
Qed.

Lemma change_row_ok source change n d d' :
  change_row world source change n d = Ok (true, d') ->
  exists row, change (ou_clock world n) (db_cursors d !! source) = Some row /\ d' = set_row db_cursors source row d.
Proof.
  unfold change_row. destruct (change _ _) as [row|]; [|done]. destruct (_ && _); [done|]. intros [= <-]. eauto.
Qed.

(** The three loops. *)
Lemma evidence_loops (items : list PersistedEvidence) (k : Tx DB bool) c b c' :
  unique_alias (cn_db c) ->
  (do! _ := tx_each (persistEvidenceLineage sha256 world) items in
   do! _ := tx_each (persistEvidenceLineage sha256 world) items in
   do! _ := tx_each (persist_evidence sha256 world) items in k) c = (Ok b, c') ->
  exists c1 c2, grown items (cn_db c) (cn_db c1) /\ lineage_resolved items (cn_db c) (cn_db c1) /\ same_lineage (cn_db c1) (cn_db c2)
    /\ stored items (cn_db c) (cn_db c2)
    /\ (forall item alias, item ∈ items -> pe_ExternalAliasID item = Some alias ->
         stored_hash item (cn_db c2) = Some (pe_ContentHash item))
    /\ k c2 = (Ok b, c').
Proof.
  intros HU ([] & c0 & E0 & ([] & c1 & E1 & ([] & c2 & E2 & E)%bind_ok)%bind_ok)%bind_ok.
  destruct (batch_lineage sha256 world items c c1) as [G HR].
  { unfold persist_twice, persist_all, tx_bind. by rewrite E0. }
  pose proof (grown_stored items _ _ G) as S1. pose proof (st_unique _ _ _ S1 HU) as U1.
  destruct (all_evidence sha256 world items items c1 c2 ltac:(done) U1 E2) as [S2 H2].
  exists c1, c2. split; [done|]. split; [done|]. split; [|split; [by transitivity (cn_db c1)|done]].
  assert (keeps same_lineage (tx_each (persist_evidence sha256 world) items)) as K.
  { apply keeps_each; [apply _|]. intros x _. apply keeps_evidence; [apply _|by intros d d' ? ?|].
    apply upsert_artifact_lineage. }
  exact (K _ _ _ E2).
Qed.

Lemma apply_batch_ok batch version c b c' row :
  unique_alias (cn_db c) -> db_cursors (cn_db c) !! cb_SourceID batch = Some row ->
  apply_batch sha256 world maxDatabaseBytes batch version c = (Ok b, c') ->
  b = true
  /\ exists d1 d2, grown (cb_Evidence batch) (cn_db c) d1 /\ lineage_resolved (cb_Evidence batch) (cn_db c) d1
     /\ same_lineage d1 d2 /\ stored (cb_Evidence batch) (cn_db c) d2
     /\ has_evidence batch d2 /\ same_lineage d2 (cn_db c') /\ db_artifacts (cn_db c') = db_artifacts d2
     /\ db_cursors (cn_db c') = <[cb_SourceID batch := advanced_row batch row]> (db_cursors (cn_db c))
     /\ exists n, (ou_bytes world n < maxDatabaseBytes)%Z.
Proof.
  intros HU Hrow E. unfold apply_batch in E.
  apply evidence_loops in E as (c1 & c2 & HG & HR & HL & HS & HE & E); [|done].
  apply bind_ok in E as (u3 & c3 & E3%statement_ok & E). apply insert_row_ok in E3 as (_ & _ & E3).
  apply bind_ok in E as (u4 & c4 & E4 & E).
  assert (cn_db c4 = cn_db c3 /\ exists n, (ou_bytes world n < maxDatabaseBytes)%Z) as [D4 Hbytes].
  { unfold verifyCommittedStorageBudget in E4. apply bind_ok in E4 as (bytes & c5 & [-> D5]%query_ok & E4).
    apply fail_if_ok in E4 as [Hb%Z.leb_gt [= _ <-]]. eauto. }
  apply bind_ok in E as (advanced & c5 & E5%statement_ok & E). apply fail_if_ok in E as [Ha [= <- <-]].
  apply negb_false_iff in Ha as ->. apply change_row_ok in E5 as (row' & Hadv & D5).
  assert (db_cursors (cn_db c4) = db_cursors (cn_db c)) as HC by (rewrite D4, E3; exact (st_cursors _ _ _ HS)).
  rewrite HC, Hrow in Hadv. cbn [advance_row] in Hadv. destruct (_ && _); [|discriminate Hadv]. injection Hadv as <-.
  split; [done|]. exists (cn_db c1), (cn_db c2). split_and!; try done.
  - rewrite D5, D4, E3. by split.
  - by rewrite D5, D4, E3.
  - rewrite D5, (get_set_row db_cursors), HC. done.
Qed.

Lemma check_replay_ok batch storedDigest version c b c' :
  check_replay sha256 world batch storedDigest version c = (Ok b, c') ->
  b = false /\ cn_db c' = cn_db c /\ storedDigest = cb_CursorDigest batch
  /\ forall item, item ∈ cb_Evidence batch -> stored_hash item (cn_db c) = Some (pe_ContentHash item).
Proof.
  unfold check_replay. intros [Hd E]%fail_if_ok. apply negb_false_iff, str_eqb_eq in Hd.
  apply bind_ok in E as (stored_row & c1 & E1%statement_ok & E). injection E1 as _ D1.
  destruct stored_row as [[v n]|]; [|discriminate E]. apply fail_if_ok in E as [_ E].
  apply bind_ok in E as ([] & c2 & E2 & [= <- <-]). split; [done|].
  assert (forall l c c', tx_each (fun item => do! hash := lookup world (stored_hash item) in
              fail_if! negb (bool_decide (hash = Some (pe_ContentHash item))) with ErrSourceConflict in tx_ret tt) l c
            = (Ok tt, c') ->
            cn_db c' = cn_db c /\ forall item, item ∈ l -> stored_hash item (cn_db c) = Some (pe_ContentHash item)) as H.
  { clear. induction l as [|x l IH]; intros c c'; cbn [tx_each].
    { intros [= <-]. split; [done|]. by intros item ?%not_elem_of_nil. }
    intros ([] & c1 & (h & c2 & E1%statement_ok & [Hh [= <-]]%fail_if_ok)%bind_ok & E2)%bind_ok.
    injection E1 as <- D1. apply negb_false_iff, bool_decide_eq_true in Hh.
    destruct (IH c2 c' E2) as [D2 H2]. rewrite <- D1 in D2, H2. split; [done|].
    intros item [->|Hi]%elem_of_cons; [done|]. by apply H2. }
  destruct (H _ _ _ E2) as [D2 H2]. rewrite D1. done.
Qed.

Lemma sources_agree batch :
  existsb (fun item => negb (pe_SourceID item =s cb_SourceID batch)) (cb_Evidence batch) = false ->
  Forall (fun item => pe_SourceID item = cb_SourceID batch) (cb_Evidence batch).
Proof.
  intros H. apply Forall_forall. intros item Hi. apply str_eqb_eq, negb_false_iff.
  destruct (negb (pe_SourceID item =s _)) eqn:E; [|done]. exfalso.
  apply not_true_iff_false in H. apply H, existsb_spec, Exists_exists. by exists item.
Qed.

(** The checks that a batch passes before anything is written, and which way it then goes. *)
Lemma commit_tx_checks batch version c b c' :
  commit_tx sha256 world maxDatabaseBytes batch version c = (Ok b, c') ->
  exists row generation digest current c1,
    cn_db c1 = cn_db c /\ db_cursors (cn_db c) !! cb_SourceID batch = Some row /\ fenced batch row
    /\ decodeCollectionCursor (cu_Value row) = Some (generation, digest, current)
    /\ Forall (fun item => pe_SourceID item = cb_SourceID batch) (cb_Evidence batch)
    /\ ((generation <> "" /\ generation <> cb_Generation batch \/ (current < cb_Next batch)%Z)
        /\ apply_batch sha256 world maxDatabaseBytes batch version c1 = (Ok b, c')
        \/ (generation = "" \/ generation = cb_Generation batch) /\ current = cb_Next batch
           /\ check_replay sha256 world batch digest version c1 = (Ok b, c')).
Proof.
  intros E. unfold commit_tx in E. apply bind_ok in E as (u1 & c1 & [_ D1]%query_ok & E).
  apply bind_ok in E as (bytes & c2 & [_ D2]%query_ok & E). apply fail_if_ok in E as [_ E].
  apply bind_ok in E as (row & c3 & [-> D3]%query_ok & E). rewrite D2, D1 in E.
  destruct (db_cursors (cn_db c) !! cb_SourceID batch) as [row|] eqn:Hrow; [|by apply bind_ok in E as ([[] ?] & ? & _ & ?)].
  apply bind_ok in E as ([[generation digest] current] & c4 & E4 & E).
  unfold parse_cursor in E4. destruct (decodeCollectionCursor (cu_Value row)) as [parts|] eqn:Hdec; [|done].
  injection E4 as -> <-. destruct (cu_LeaseExpires row) as [expires|] eqn:Hlease; [|done].
  apply fail_if_ok in E as [Hstate%negb_false_iff%str_eqb_eq E].
  apply bind_ok in E as (running & c5 & [-> D5]%query_ok & E). apply fail_if_ok in E as [Hrun%negb_false_iff%Z.ltb_lt E].
  apply fail_if_ok in E as [Hsrc E]. apply fail_if_ok in E as [Hstale E].
  exists row, generation, digest, current, c5. split; [congruence|]. split; [done|].
  split; [split; [done|]; eauto|]. split; [done|]. split; [by apply sources_agree|].
  destruct (negb (generation =s "") && negb (generation =s cb_Generation batch)) eqn:Hg.
  - left. split; [|done]. left. apply andb_true_iff in Hg as [?%negb_true_iff%str_eqb_neq ?%negb_true_iff%str_eqb_neq]. done.
  - assert (generation = "" \/ generation = cb_Generation batch) as Hsame.
    { apply andb_false_iff in Hg as [?%negb_false_iff%str_eqb_eq|?%negb_false_iff%str_eqb_eq]; auto. }
    cbn [negb andb] in Hstale, E. apply Z.ltb_ge in Hstale.
    destruct (Z.eqb_spec (cb_Next batch) current) as [<-|Hne]; [right; done|left]. split; [|done]. right. lia.
Qed.

Lemma commit_tx_effect batch version c b c' :
  unique_alias (cn_db c) -> commit_tx sha256 world maxDatabaseBytes batch version c = (Ok b, c') ->
  commit_effect batch b (cn_db c) (cn_db c').
Proof.
  intros HU E. apply commit_tx_checks in E
    as (row & generation & digest & current & c1 & D1 & Hrow & Hf & Hdec & Hsrc & [[Hmove E]|(Hg & -> & E)]).
  - apply (apply_batch_ok batch version c1 b c' row) in E
      as (-> & d1 & d2 & HG & HR & HL & HS & HE & HL' & HA & HC & Hbytes); [|by rewrite D1|by rewrite D1]. rewrite D1 in HG, HR, HS, HC.
    unfold commit_effect. split.
    + exists row, generation, digest, current. done.
    + done.
    + intros item alias Hi Ha. unfold stored_hash, artifact_of. rewrite HA. by apply (HE item alias).
    + intros id r Hr. rewrite HA. destruct (st_kept _ _ _ HS id r Hr) as (r' & Hr' & HSA & Hcase).
      exists r'. split; [done|]. split; [done|]. intros Hne. destruct Hcase as [->|(item & Hi & Hs & _)]; [done|].
      apply (proj1 (Forall_forall _ _) Hsrc) in Hi. congruence.
    + intros id r' Hr' Hn. rewrite HA in Hr'. destruct (st_added _ _ _ HS id r' Hr' Hn) as (item & Hi & _ & HSA). eauto.
    + unfold unique_alias. rewrite HA. exact (st_unique _ _ _ HS HU).
    + exists d1. split; [done|]. split; [done|]. destruct HL, HL'. split; congruence.
    + done.
  - apply check_replay_ok in E as (-> & D2 & -> & HE). rewrite D1 in D2, HE. split; [done|]. split; [|done].
    exists row, generation, (cb_CursorDigest batch). done.
Qed.

(** A commit checks its argument, then runs its transaction as a whole on what others made of the
    store, or leaves the store to them. *)
Lemma commit_runs batch c r c' :
  CommitCollection sha256 marshal world maxDatabaseBytes batch c = (r, c') ->
  exists snapshot version, reached world (cn_db c) snapshot
    /\ match r with
       | Ok new => ran (commit_tx sha256 world maxDatabaseBytes batch version) (Some new) snapshot (cn_db c')
       | Err e => cn_db c' = snapshot
                  \/ e = ErrDatabase "commit database transaction" ""
                     /\ ran (commit_tx sha256 world maxDatabaseBytes batch version) None snapshot (cn_db c')
       end.
Proof.
  intros E. unfold CommitCollection in E.
  destruct (_ || _) eqn:Hb; [injection E as <- <-; exists (cn_db c), ""; split; [constructor|by left]|].
  destruct (first_invalid _) as [e|]; [injection E as <- <-; exists (cn_db c), ""; split; [constructor|by left]|].
  destruct (normalizedBatchDigest _ _ _) as [digest|e]; [|injection E as <- <-; exists (cn_db c), ""; split; [constructor|by left]].
  apply withSerializable_atomic in E as (s & Hs & Hr). eexists s, _. split; [done|].
  destruct r as [new|e]; [exact Hr|]. destruct Hr as [[-> _]|[-> Hr]]; [by left|by right].
Qed.

Lemma ran_effect batch version o s d' :
  unique_alias s -> ran (commit_tx sha256 world maxDatabaseBytes batch version) o s d' ->
  exists new, (o = Some new \/ o = None) /\ commit_effect batch new s d'.
Proof.
  intros HU (n & b & n' & E & Ho). exists b. split; [done|].
  exact (commit_tx_effect batch version (mkConn s n) b (mkConn d' n') HU E).
Qed.

Lemma reached_keeps (P : DB -> Prop) d d' :
  (forall n d, P d -> P (ou_others world n d)) -> reached world d d' -> P d -> P d'.
Proof. intros HP. induction 1 as [|n d d' _ IH]; [done|]. intros H. by apply IH, HP. Qed.

(** C2: a commit is exact.  Whatever fails and whatever other connections do before it: a batch
    that is reported as new was applied as a whole - under the lease of its source, moving the
    cursor forward or to another generation, with the hash of every piece of evidence stored, no
    row of evidence lost or changed in anything but its times, no row of another source touched,
    and the lineage resolved; a batch that is reported as known was applied before and nothing
    changes; and an error leaves the store as it was, unless the answer to the COMMIT was lost. *)
Theorem CommitCollection_exact batch c r c' :
  (forall n d, unique_alias d -> unique_alias (ou_others world n d)) -> unique_alias (cn_db c) ->
  CommitCollection sha256 marshal world maxDatabaseBytes batch c = (r, c') ->
  exists snapshot, reached world (cn_db c) snapshot
    /\ match r with
       | Ok new => commit_effect batch new snapshot (cn_db c')
       | Err e => cn_db c' = snapshot
                  \/ e = ErrDatabase "commit database transaction" "" /\ exists new, commit_effect batch new snapshot (cn_db c')
       end.
Proof.
  intros HO HU (s & version & Hs & Hr)%commit_runs. exists s. split; [done|].
  pose proof (reached_keeps _ _ _ HO Hs HU) as HUs.
  destruct r as [new|e]; [|destruct Hr as [->|[-> Hr]]; [by left|right; split; [done|]]];
    apply (ran_effect _ _ _ _ _ HUs) in Hr as (b & Ho & Hr); [|by exists b].
  destruct Ho as [[= ->]|[=]]. exact Hr.
Qed.

(** ** Batches that block their source *)

(** The row of a turn is only written for evidence with its ordinal, but the row of a response
    refers to its turn: evidence of a response in a turn without an ordinal. *)
Record unnumbered_turn (batch : CollectionBatch) (item : PersistedEvidence) : Prop := mkUnnumberedTurn {
  ut_item : item ∈ cb_Evidence batch;
  ut_session : has_session item;
  ut_turn : el_TurnID (pe_Lineage item) <> "";
  ut_response : el_ResponseID (pe_Lineage item) <> "";
  ut_ordinal : forall other, other ∈ cb_Evidence batch -> el_TurnID (pe_Lineage other) = el_TurnID (pe_Lineage item) ->
    el_TurnOrdinal (pe_Lineage other) = None;
  ut_same : forall other, other ∈ cb_Evidence batch -> el_ResponseID (pe_Lineage other) = el_ResponseID (pe_Lineage item) ->
    el_TurnID (pe_Lineage other) = el_TurnID (pe_Lineage item)
}.

(** The store has neither the turn nor the response. *)
Definition turn_unknown (item : PersistedEvidence) (d : DB) : Prop :=
  db_turns d !! el_TurnID (pe_Lineage item) = None /\ db_responses d !! el_ResponseID (pe_Lineage item) = None.

Lemma unnumbered_not_applied batch version item c b c' :
  unnumbered_turn batch item -> turn_unknown item (cn_db c) ->
  apply_batch sha256 world maxDatabaseBytes batch version c <> (Ok b, c').
Proof.
  intros [Hi Hs Ht Hr Ho Hsame] [Hnt Hnr] ([] & c0 & E0 & ([] & c1 & E1 & _)%bind_ok)%bind_ok.
  destruct (batch_lineage sha256 world (cb_Evidence batch) c c1) as [G HL].
  { unfold persist_twice, persist_all, tx_bind. by rewrite E0. }
  destruct (HL item Hi Hs) as [_ HR]. destruct (HR Hr Ht) as (row & Hrow & _).
  destruct (gr_response_turns _ _ _ G _ _ Hrow Hnr) as [Hturn (other & (Hio & _ & _ & Hro & _) & Hto)].
  rewrite <- Hto, (Hsame other Hio Hro) in Hturn.
  destruct (gr_turns _ _ _ G _ Hnt Hturn) as (third & Hi3 & Ht3 & Ho3). by rewrite (Ho third Hi3 Ht3) in Ho3.
Qed.

(** Evidence of a response whose turn has no ordinal cannot be committed.  As long as nobody
    else writes the turn or the response, no call ever commits such a batch: each attempt leaves
    the store as others made it. *)
Theorem unnumbered_turn_blocks batch item c r c' :
  unnumbered_turn batch item ->
  (forall n d, turn_unknown item d -> turn_unknown item (ou_others world n d)) -> turn_unknown item (cn_db c) ->
  CommitCollection sha256 marshal world maxDatabaseBytes batch c = (r, c') ->
  r <> Ok true /\ reached world (cn_db c) (cn_db c').
Proof.
  intros HB HO HK (s & version & Hs & Hr)%commit_runs.
  pose proof (reached_keeps _ _ _ HO Hs HK : turn_unknown item s) as HKs.
  assert (forall o d', ran (commit_tx sha256 world maxDatabaseBytes batch version) o s d' ->
          (o = Some false \/ o = None) /\ d' = s) as Hran.
  { intros o d' (n & b & n' & E & Ho). apply commit_tx_checks in E
      as (row & generation & digest & current & c1 & D1 & _ & _ & _ & _ & [[_ E]|(_ & _ & E)]).
    - exfalso. apply (unnumbered_not_applied batch version item c1 b _ HB) in E; [done|by rewrite D1].
    - apply check_replay_ok in E as (-> & D2 & _). cbn in D1, D2. split; [done|]. by rewrite D2. }
  destruct r as [new|e].
  - apply Hran in Hr as [[[= ->]|[=]] ->]. done.
  - split; [done|]. destruct Hr as [->|[_ [_ ->]%Hran]]; done.
Qed.
End Commit.

(** ** The concrete store *)

Lemma toy_unique : unique_alias toy_db.
Proof. intros id1 id2 r1 r2 H. done. Qed.

Example CommitCollection_exact_witness :
  (toy_commit blank_lineage).1 = Ok true
  /\ exists snapshot, reached calm toy_db snapshot
     /\ commit_effect calm maxLocalDatabaseBytes (toy_batch blank_lineage) true snapshot (cn_db (toy_commit blank_lineage).2).
Proof.
  assert ((toy_commit blank_lineage).1 = Ok true) as E by (vm_compute; reflexivity). split; [exact E|].
  pose proof (CommitCollection_exact toy_sha256 toy_marshal calm maxLocalDatabaseBytes (toy_batch blank_lineage)
                (mkConn toy_db 0) (toy_commit blank_lineage).1 (toy_commit blank_lineage).2
                (fun _ _ H => H) toy_unique (surjective_pairing _)) as H.
  rewrite E in H. exact H.
Defined.

(** With its ordinal the response is committed; without it never. *)
Example numbered_turn_commits : (toy_commit (turn_lineage (Some 1%Z))).1 = Ok true.
Proof. vm_compute. reflexivity. Qed.

Example unnumbered_turn_blocks_witness :
  (toy_commit (turn_lineage None)).1 <> Ok true /\ reached calm toy_db (cn_db (toy_commit (turn_lineage None)).2).
Proof.
  apply (unnumbered_turn_blocks toy_sha256 toy_marshal calm maxLocalDatabaseBytes (toy_batch (turn_lineage None))
           (toy_item (turn_lineage None)) (mkConn toy_db 0) (toy_commit (turn_lineage None)).1
           (toy_commit (turn_lineage None)).2).
  - split; [left|done..| |]; intros other ->%list_elem_of_singleton; done.
  - intros n d H. exact H.
  - split; reflexivity.
  - apply surjective_pairing.
Defined.

Example unnumbered_turn_error :
  (toy_commit (turn_lineage None)).1 = Err (ErrDatabase "persist collection response" foreign_key_violation).
Proof. vm_compute. reflexivity. Qed.
