(* ===== verification/PostgresBackend.v ===== *)
(** * The store of the collector (internal/collector/postgres.go)

    The backend that a collector runs on: every kind of source is mapped to a row of the store,
    and every call to one of the repository.  It keeps the promise of [Collector.LawfulBackend],
    so that collection into PostgreSQL is exactly once, down to the rows of evidence.

    Arguments as in [Snapshots] and [CommitStore]; [now] is [time.Now]. *)
From S2P Require Import Contracts GoInt Evidence Adapters Collector Snapshots.
From S2P Require Import Transactions Tables Leases LineageRows CommitStore Linked Committed.

(** [Error()]: the cause of a failed operation is not part of it. *)
Definition error_text (e : StoreError) : string :=
  match e with
  | ErrNotFound => "normalized entity not found"
  | ErrStaleCursor => "cursor did not advance"
  | ErrSourceConflict => "source identity conflicts with retained evidence"
  | ErrInvalidEffectiveTime => "dimension effective time must advance"
  | ErrStorageBudgetExceeded => "local database storage budget reached; run retention or backup and reset"
  | ErrContract e => se_Code e +:+ ": " +:+ se_Message e
  | ErrMessage message => message
  | ErrDatabase operation _ => operation
  end.

Definition NewPostgresBackend (sources : gmap string PersistentSource) : result string (gmap string PersistentSource) :=
  if (size sources =? 0)%nat then Err "persistent collector sources are required" else Ok sources.

Section Backend.
Context (sha256 : string -> string) (marshal : list PersistedEvidence -> option string)
        (parse_float : string -> option float64) (parse_time : string -> option Z)
        (world : Outside DB) (maxDatabaseBytes now : Z) (sources : gmap string PersistentSource).

Definition store_call {A} (m : Tx DB A) : Call (Conn DB) A :=
  fun c => match m c with
           | (Ok a, c) => (Ok a, c)
           | (Err e, c) => (Err (error_text e), c)
           end.

Definition mapped {A} (kind : string) (m : PersistentSource -> Tx DB A) : Call (Conn DB) A :=
  match sources !! kind with
  | None => fun c => (Err "source mapping unavailable", c)
  | Some source => store_call (m source)
  end.

Definition backend_Cursor (kind : string) : Call (Conn DB) Z :=
  mapped kind (fun source => CollectionCursor world (pso_SourceID source)).

Definition backend_Generation (kind : string) : Call (Conn DB) string :=
  mapped kind (fun source => CollectionGeneration world (pso_SourceID source)).

Definition backend_Digest (kind : string) : Call (Conn DB) string :=
  mapped kind (fun source => CollectionDigest world (pso_SourceID source)).

Definition commit_observed (records : list EvidenceRecord) : Z :=
  match records with
  | [] => now
  | record :: _ => er_IngestedAt record
  end.

Definition collection_batch (source : PersistentSource) (commit : Commit) (items : list PersistedEvidence)
    : CollectionBatch :=
  mkCollectionBatch (cm_BatchID commit) (pso_CursorID source) (pso_SourceID source) (cm_Cursor commit)
    (cm_Generation commit) (cm_CursorDigest commit) (cm_Fence commit) (commit_observed (cm_Records commit)) items.

Definition commit_source (commit : Commit) (source : PersistentSource) : Tx DB bool :=
  match persisted_batch sha256 parse_float parse_time source (cm_Records commit) with
  | Err message => tx_err (ErrMessage message)
  | Ok items => CommitCollection sha256 marshal world maxDatabaseBytes (collection_batch source commit items)
  end.

Definition backend_Commit (commit : Commit) : Call (Conn DB) bool :=
  mapped (cm_SourceKind commit) (commit_source commit).

Definition backend_Acquire (kind owner : string) (t duration : Z) : Call (Conn DB) (string * bool) :=
  mapped kind (fun source => AcquireCollectionLease sha256 world (pso_SourceID source) owner t duration).

Definition backend_Renew (kind owner fence : string) (t duration : Z) : Call (Conn DB) bool :=
  mapped kind (fun source => RenewCollectionLease world (pso_SourceID source) fence t duration).

Definition backend_Release (kind owner fence : string) : Call (Conn DB) unit :=
  mapped kind (fun source => ReleaseCollectionLease world (pso_SourceID source) fence).

Definition postgres_backend : Backend (Conn DB) :=
  mkBackend (Conn DB) backend_Cursor (Some backend_Generation) (Some backend_Digest) backend_Commit
    backend_Acquire backend_Renew backend_Release.
End Backend.

(** ** A record of what was delivered

    The store does not keep the records themselves.  A backend whose state has, besides, the list
    of the records that were committed behaves as the backend does. *)

Section Logged.
Context {S P : Type} `{!EqDecision P} (backend : Backend S) (pos : S -> P).

Definition log_call {A} (m : Call S A) : Call (S * list EvidenceRecord) A :=
  fun s => ((m s.1).1, ((m s.1).2, s.2)).

(** The records of a commit are delivered when it moves the position. *)
Definition log_commit (c : Commit) : Call (S * list EvidenceRecord) bool :=
  fun s =>
    let s1 := (bk_Commit backend c s.1).2 in
    ((bk_Commit backend c s.1).1, (s1, if decide (pos s1 = pos s.1) then s.2 else s.2 ++ cm_Records c)).

Definition logged : Backend (S * list EvidenceRecord) :=
  mkBackend (S * list EvidenceRecord) (fun k => log_call (bk_Cursor backend k))
    ((fun call k => log_call (call k)) <$> bk_Generation backend)
    ((fun call k => log_call (call k)) <$> bk_Digest backend) log_commit
    (fun k o t d => log_call (bk_Acquire backend k o t d)) (fun k o f t d => log_call (bk_Renew backend k o f t d))
    (fun k o f => log_call (bk_Release backend k o f)).

Context (options : Options) (hmac_hex : string -> string -> string) (kind : string)
        (collect : Z -> Request -> CollectResult * option AdapterError) (wait : Z -> option string).

Lemma logged_optional call s :
  optional_call kind ((fun call k => log_call (call k)) <$> call) s
  = ((optional_call kind call s.1).1, ((optional_call kind call s.1).2, s.2)).
Proof. destruct call; [done|]. by destruct s. Qed.

(** The same outcome, but for the record. *)
Definition erases (out : CollectResult * option CollectorError * (S * list EvidenceRecord) * list QuarantineEntry)
    (out' : CollectResult * option CollectorError * S * list QuarantineEntry) : Prop :=
  out.1.1 = out'.1.1 /\ out.1.2.1 = out'.1.2 /\ out.2 = out'.2.

Lemma logged_commit_batch now2 fence cursor r e s q :
  erases (commit_batch logged options hmac_hex kind now2 fence cursor r e s, q)
    (commit_batch backend options hmac_hex kind now2 fence cursor r e s.1, q).
Proof.
  unfold commit_batch. cbn [bk_Renew bk_Commit logged]. unfold log_call, log_commit.
  destruct (bk_Renew backend _ _ _ _ _ s.1) as [[[|]|] s1]; cbn [fst snd]; [|done..].
  destruct (batch_id _ _ _ _) as [id|]; [|done].
  destruct (bk_Commit backend _ s1) as [[b|m] s2]; done.
Qed.

Lemma logged_run_leased now now2 fence s quarantine :
  erases (run_leased logged options hmac_hex kind collect wait now now2 fence s quarantine)
    (run_leased backend options hmac_hex kind collect wait now now2 fence s.1 quarantine).
Proof.
  unfold run_leased. cbn [bk_Cursor bk_Generation bk_Digest logged]. unfold log_call at 1.
  destruct (bk_Cursor backend kind s.1) as [[c|] s2]; cbn [fst snd]; [|done].
  rewrite logged_optional. cbn [fst snd].
  destruct (optional_call kind (bk_Generation backend) s2) as [[g|] s3]; cbn [fst snd]; [|done].
  rewrite logged_optional. cbn [fst snd].
  destruct (optional_call kind (bk_Digest backend) s3) as [[d|] s4]; cbn [fst snd]; [|done].
  destruct (attempts _ _ _ _ _ _ _ _) as [r e|r e entry]; [|done].
  destruct (length (cr_Records r) =? 0)%nat; [done|].
  pose proof (logged_commit_batch now2 fence c r e (s4, s.2) quarantine) as H. cbn [fst] in H.
  by destruct (commit_batch logged _ _ _ _ _ _ _ _ _) as [[r1 e1] t1],
    (commit_batch backend _ _ _ _ _ _ _ _ _) as [[r2 e2] t2].
Qed.

Lemma logged_run now now2 s quarantine :
  erases (Run logged options hmac_hex kind collect wait now now2 s quarantine)
    (Run backend options hmac_hex kind collect wait now now2 s.1 quarantine).
Proof.
  unfold Run. cbn [bk_Acquire bk_Release logged]. unfold log_call at 1.
  destruct (bk_Acquire backend _ _ _ _ s.1) as [[[fence [|]]|] s1]; cbn [fst snd]; [|done..].
  pose proof (logged_run_leased now now2 fence (s1, s.2) quarantine) as H. cbn [fst] in H.
  destruct (run_leased logged _ _ _ _ _ _ _ _ _ _) as [[[r e] t] q], (run_leased backend _ _ _ _ _ _ _ _ _ _) as [[[r' e'] t'] q'].
  unfold erases in H. cbn [fst snd] in H. destruct H as ([= -> ->] & <- & ->). unfold log_call.
  by destruct (bk_Release backend kind (op_Owner options) fence t.1).
Qed.
End Logged.

(** ** The repository keeps the promise *)

Section Source.
Context (src : string).

(** Where collection of the source stands: an absent or unreadable cursor is the start. *)
Definition position_of (d : DB) : Z * string * string :=
  match cu_Value <$> db_cursors d !! src with
  | None => (0%Z, "", "")
  | Some value =>
      match decodeCollectionCursor value with
      | None => (0%Z, "", "")
      | Some (generation, digest, next) => (next, generation, digest)
      end
  end.

(** The store has evidence of the source under an alias with a hash. *)
Definition has_artifact (d : DB) (alias : option string) (hash : string) : Prop :=
  exists id row, db_artifacts d !! id = Some row
    /\ ea_Source row = src /\ ea_Alias row = alias /\ ea_Hash row = hash.

(** Nothing of the source changes. *)
Record same_source (d d' : DB) : Prop := mkSameSource {
  ss_position : position_of d' = position_of d;
  ss_artifacts : forall alias hash, has_artifact d' alias hash <-> has_artifact d alias hash;
  ss_unique : unique_alias d -> unique_alias d'
}.

#[export] Instance same_source_preorder : PreOrder same_source.
Proof.
  split; [by intros d; split|]. intros d1 d2 d3 [P1 A1 U1] [P2 A2 U2]. split; [congruence| |auto].
  intros alias hash. by rewrite A2, A1.
Qed.

Context (sha256 : string -> string) (world : Outside DB).

(** Other connections leave the source alone. *)
Hypothesis others : forall n d, same_source d (ou_others world n d).

Lemma keeps_pool {A} message (f : nat -> DB -> result string (A * DB)) :
  (forall n d a d', f n d = Ok (a, d') -> same_source d d') -> keeps same_source (pool world message f).
Proof.
  intros H c r c' E. unfold pool in E. apply (keeps_statement world same_source) in E; [|exact H].
  etransitivity; [apply others|exact E].
Qed.

Lemma keeps_pool_query {A} message (f : nat -> DB -> A) : keeps same_source (pool_query world message f).
Proof. apply keeps_pool. by intros n d a d' [= _ <-]. Qed.

(** Statements that keep the text of the cursor. *)
Lemma keeps_change_row message change :
  (forall t row row', change t row = Some row' ->
     cu_Value row' = default "0" (cu_Value <$> row)) ->
  keeps same_source (pool world message (change_row world src change)).
Proof.
  intros H. apply keeps_pool. intros n d [|] d' E.
  2: { unfold change_row in E. destruct (change _ _); [destruct (_ && _); discriminate E|]. by injection E as <-. }
  apply change_row_ok in E as (row' & Hc%H & ->). split; [|done|done]. unfold position_of. rewrite (get_set_row db_cursors), lookup_insert_eq.
  cbn [fmap option_fmap option_map]. rewrite Hc. by destruct (db_cursors d !! src).
Qed.

Lemma keeps_read {A} message (absent : A) part : keeps same_source (read_cursor world message absent part src).
Proof.
  unfold read_cursor. apply keeps_bind; [apply _|apply keeps_pool_query|]. intros [value|]; [|apply keeps_ret; apply _].
  destruct (decodeCollectionCursor value); [apply keeps_ret|apply keeps_err]; apply _.
Qed.

(** A cursor is read as it stands. *)
Lemma read_value {A} message (absent : A) part c a c' :
  read_cursor world message absent part src c = (Ok a, c') ->
  a = (let '(next, generation, digest) := position_of (cn_db c') in
       if bool_decide (db_cursors (cn_db c') !! src = None) then absent else part (generation, digest, next)).
Proof.
  intros (value & c1 & E1 & E2)%bind_ok. unfold pool_query, pool in E1. apply statement_ok in E1.
  injection E1 as E1 D1. cbn [cn_db cn_sent] in E1, D1.
  destruct (db_cursors (ou_others world (cn_sent c) (cn_db c)) !! src) as [row|] eqn:Hrow; cbn in E1; subst value.
  - destruct (decodeCollectionCursor (cu_Value row)) as [[[g dg] n]|] eqn:Hd; [|discriminate E2]. injection E2 as <- <-.
    unfold position_of. rewrite <- D1, Hrow. cbn. by rewrite Hd.
  - injection E2 as <- <-. unfold position_of. rewrite <- D1, Hrow. reflexivity.
Qed.

Lemma keeps_acquire owner t duration : keeps same_source (AcquireCollectionLease sha256 world src owner t duration).
Proof.
  unfold AcquireCollectionLease. apply keeps_bind; [apply _| |intros; apply keeps_ret; apply _].
  apply keeps_change_row. intros t' [row|] row'; cbn; [|by intros [= <-]].
  destruct (lease_over row t'); [|done]. by intros [= <-].
Qed.

Lemma keeps_renew fence t duration : keeps same_source (RenewCollectionLease world src fence t duration).
Proof.
  apply keeps_change_row. intros t' [row|] row'; cbn; [|done]. destruct (_ && _); [|done]. by intros [= <-].
Qed.

Lemma keeps_release fence : keeps same_source (ReleaseCollectionLease world src fence).
Proof.
  unfold ReleaseCollectionLease. apply keeps_bind; [apply _| |intros; apply keeps_ret; apply _].
  apply keeps_change_row. intros t' [row|] row'; cbn; [|done]. destruct (_ =s _); [|done]. by intros [= <-].
Qed.

Lemma reached_same d d' : reached world d d' -> same_source d d'.
Proof. induction 1 as [|n d d' _ IH]; [done|]. etransitivity; [apply others|exact IH]. Qed.
End Source.

Section Law.
Context (sha256 : string -> string) (marshal : list PersistedEvidence -> option string)
        (parse_float : string -> option float64) (parse_time : string -> option Z)
        (world : Outside DB) (maxDatabaseBytes now : Z) (sources : gmap string PersistentSource)
        (kind : string) (source : PersistentSource).
Hypothesis mapped_source : sources !! kind = Some source.
Hypothesis others : forall n d, same_source (pso_SourceID source) d (ou_others world n d).

Abbreviation src := (pso_SourceID source).
Abbreviation backend := (postgres_backend sha256 marshal parse_float parse_time world maxDatabaseBytes now sources).

(** The evidence that stands for a record. *)
Definition evidence_of (r : EvidenceRecord) (alias : option string) (hash : string) : Prop :=
  alias = Some (deterministicUUID sha256 (er_ID r)) /\ hex_decode (er_ContentSHA256 r) = Some hash.

(** The evidence of the source in the store is that of the records. *)
Definition holds_records (d : DB) (records : list EvidenceRecord) : Prop :=
  forall alias hash, has_artifact src d alias hash <-> exists r, r ∈ records /\ evidence_of r alias hash.

Definition sane_log (s : Conn DB * list EvidenceRecord) : Prop :=
  unique_alias (cn_db s.1) /\ holds_records (cn_db s.1) s.2.

Lemma same_source_sane d d' log :
  same_source src d d' -> unique_alias d /\ holds_records d log ->
  (unique_alias d' /\ holds_records d' log) /\ position_of src d' = position_of src d.
Proof.
  intros [HP HA HU] [H1 H2]. split; [|done]. split; [auto|]. intros alias hash. by rewrite HA.
Qed.

Lemma store_call_eq {A} (m : Tx DB A) c :
  (store_call m c).2 = (m c).2 /\ (forall a, (store_call m c).1 = Ok a -> m c = (Ok a, (m c).2)).
Proof. unfold store_call. destruct (m c) as [[a|e] c']; cbn; split; try done. by intros b [= <-]. Qed.

(** A call that keeps the source, on the state with the record. *)
Lemma log_keeps {A} (m : PersistentSource -> Tx DB A) s :
  keeps (same_source src) (m source) -> sane_log s ->
  let s' := (log_call (mapped sources kind m) s).2 in
  sane_log s' /\ position_of src (cn_db s'.1) = position_of src (cn_db s.1) /\ s'.2 = s.2.
Proof.
  intros K HS. unfold mapped. rewrite mapped_source. cbn [log_call snd fst].
  destruct (store_call_eq (m source) s.1) as [-> _]. destruct (m source s.1) as [r c'] eqn:E. cbn [snd].
  destruct (same_source_sane _ _ _ (K _ _ _ E) HS). done.
Qed.

(** Reading a part of the cursor. *)
Lemma log_reads {A} message (absent : A) part s a :
  (log_call (mapped sources kind (fun source => read_cursor world message absent part (pso_SourceID source))) s).1 = Ok a ->
  a = (let '(next, generation, digest) := position_of src (cn_db s.1) in part (generation, digest, next))
  \/ a = absent /\ position_of src (cn_db s.1) = (0%Z, "", "").
Proof.
  unfold mapped. rewrite mapped_source. cbn [log_call fst].
  destruct (store_call_eq (read_cursor world message absent part src) s.1) as [_ H]. intros E%H.
  pose proof (keeps_read src world others message absent part _ _ _ E) as [HP _ _].
  apply read_value in E. rewrite HP in E. destruct (bool_decide _) eqn:Hb.
  - right. apply bool_decide_eq_true in Hb. unfold position_of in HP. rewrite Hb in HP. cbn in HP.
    unfold position_of. rewrite <- HP. by destruct (position_of src (cn_db s.1)) as [[? ?] ?].
  - left. exact E.
Qed.

Lemma has_artifact_stored item d alias :
  pe_SourceID item = src -> pe_ExternalAliasID item = Some alias -> stored_hash item d = Some (pe_ContentHash item) ->
  has_artifact src d (Some alias) (pe_ContentHash item).
Proof.
  intros Hs Ha H. unfold stored_hash in H. rewrite Ha in H.
  destruct (artifact_of (pe_SourceID item) alias d) as [[id row]|] eqn:E; [|discriminate H]. injection H as H.
  apply artifact_of_Some in E as (Hr & Hs' & Ha'). exists id, row. split_and!; congruence.
Qed.

(** What the items of a converted batch are. *)
Lemma persisted_item r item :
  persisted sha256 parse_float parse_time source r = Ok item ->
  pe_SourceID item = src /\ evidence_of r (pe_ExternalAliasID item) (pe_ContentHash item).
Proof.
  unfold persisted, evidence_of. destruct (hex_decode _) as [hash|]; [|done].
  destruct (runtimeObservation _ _ _ r); [|done]. by intros [= <-].
Qed.

Lemma persisted_items records items :
  persisted_batch sha256 parse_float parse_time source records = Ok items ->
  (forall item, item ∈ items -> exists r, r ∈ records /\ evidence_of r (pe_ExternalAliasID item) (pe_ContentHash item))
  /\ (forall r, r ∈ records -> exists item, item ∈ items /\ pe_SourceID item = src
        /\ evidence_of r (pe_ExternalAliasID item) (pe_ContentHash item)).
Proof.
  intros H%persisted_batch_ok. split.
  - intros item Hi. apply list_elem_of_lookup in Hi as [i Hi].
    destruct (Forall2_lookup_r _ _ _ _ _ H Hi) as (r & Hr & E). exists r.
    split; [by apply list_elem_of_lookup; eauto|]. by apply persisted_item.
  - intros r Hr. apply list_elem_of_lookup in Hr as [i Hr].
    destruct (Forall2_lookup_l _ _ _ _ _ H Hr) as (item & Hi & E). exists item.
    split; [by apply list_elem_of_lookup; eauto|]. by apply persisted_item.
Qed.

Lemma evidence_of_eq r alias hash alias' hash' :
  evidence_of r alias hash -> evidence_of r alias' hash' -> alias' = alias /\ hash' = hash.
Proof. intros [-> E1] [-> E2]. split; congruence. Qed.

(** An applied batch adds the evidence of its records. *)
Lemma applied_records commit items d d' log :
  persisted_batch sha256 parse_float parse_time source (cm_Records commit) = Ok items ->
  applied world maxDatabaseBytes (collection_batch now source commit items) d d' ->
  holds_records d log -> holds_records d' (log ++ cm_Records commit).
Proof.
  intros [HI HR]%persisted_items HA HL alias hash. split.
  - intros (id & row' & Hrow & Hs & Ha & Hh). destruct (db_artifacts d !! id) as [row|] eqn:Hd.
    + destruct (ap_kept _ _ _ _ _ HA id row Hd) as (row2 & Hrow2 & HSA & _).
      assert (row2 = row') as -> by congruence. pose proof (same_artifact_key _ _ HSA) as (K1 & K2 & K3).
      destruct (proj1 (HL alias hash)) as (r & Hr & He); [exists id, row; split_and!; congruence|].
      exists r. split; [apply elem_of_app; by left|done].
    + destruct (ap_added _ _ _ _ _ HA id row' Hrow Hd) as (item & Hi & HSA).
      pose proof (same_artifact_key _ _ HSA) as (K1 & K2 & K3). cbn in K1, K2, K3.
      destruct (HI item Hi) as (r & Hr & He). exists r. split; [apply elem_of_app; by right|]. congruence.
  - intros (r & [Hr|Hr]%elem_of_app & He).
    + destruct (proj2 (HL alias hash)) as (id & row & Hrow & Hs & Ha & Hh); [eauto|].
      destruct (ap_kept _ _ _ _ _ HA id row Hrow) as (row' & Hrow' & HSA & _).
      destruct (same_artifact_key _ _ HSA) as (K1 & K2 & K3). exists id, row'. split_and!; congruence.
    + destruct (HR r Hr) as (item & Hi & Hs & He'). destruct (evidence_of_eq _ _ _ _ _ He' He) as [-> ->].
      pose proof (proj1 He') as Ha. rewrite Ha.
      apply (has_artifact_stored item d' _ Hs Ha). exact (ap_evidence _ _ _ _ _ HA item _ Hi Ha).
Qed.

(** The position after an applied batch is that of the batch, and it was another one before. *)
Lemma applied_position commit items d d' :
  encodable (cm_Generation commit) (cm_CursorDigest commit) (cm_Cursor commit) ->
  applied world maxDatabaseBytes (collection_batch now source commit items) d d' ->
  position_of src d' = (cm_Cursor commit, cm_Generation commit, cm_CursorDigest commit)
  /\ position_of src d' <> position_of src d.
Proof.
  intros (Hne & Hg & Hd & Hu) HA. destruct (ap_cursor _ _ _ _ _ HA) as (row & g & dg & n & Hrow & _ & Hdec & Hmove & HC).
  cbn [cb_SourceID cb_Generation cb_Next collection_batch] in Hrow, Hmove, HC.
  assert (position_of src d' = (cm_Cursor commit, cm_Generation commit, cm_CursorDigest commit)) as E.
  { unfold position_of. rewrite HC, lookup_insert_eq. cbn [fmap option_fmap option_map cu_Value advanced_row].
    unfold cursor_value. cbn [cb_Generation cb_CursorDigest cb_Next collection_batch].
    rewrite decode_encode by done. by rewrite (proj2 (str_eqb_neq _ _) Hne). }
  split; [done|]. rewrite E. unfold position_of. rewrite Hrow. cbn. rewrite Hdec.
  intros [= E1 E2 _]. subst. destruct Hmove as [[_ Hm]|Hm]; [done|lia].
Qed.

Abbreviation pos := (fun c : Conn DB => position_of src (cn_db c)).

Lemma log_commit_law commit s :
  sane_log s -> cm_SourceKind commit = kind ->
  encodable (cm_Generation commit) (cm_CursorDigest commit) (cm_Cursor commit) ->
  let s' := (log_commit backend pos commit s).2 in
  (sane_log s' /\ pos s'.1 = (cm_Cursor commit, cm_Generation commit, cm_CursorDigest commit)
   /\ s'.2 = s.2 ++ cm_Records commit)
  \/ sane_log s' /\ pos s'.1 = pos s.1 /\ s'.2 = s.2.
Proof.
  intros HS Hk HE. cbn [log_commit snd fst bk_Commit postgres_backend]. unfold backend_Commit, mapped.
  rewrite Hk, mapped_source. destruct (store_call_eq (commit_source sha256 marshal parse_float parse_time world maxDatabaseBytes now commit source) s.1) as [-> _].
  unfold commit_source. destruct (persisted_batch _ _ _ _ _) as [items|m] eqn:HI; [|right; cbn; by rewrite decide_True].
  destruct (CommitCollection _ _ _ _ _ s.1) as [r c'] eqn:E. cbn [snd].
  apply commit_runs in E as (d & version & Hd & Hr). pose proof (reached_same src world others _ _ Hd) as HS1.
  destruct (same_source_sane _ _ _ HS1 HS) as [[HU HL] HP].
  assert (forall o, ran (commit_tx sha256 world maxDatabaseBytes (collection_batch now source commit items) version) o d (cn_db c') ->
          cn_db c' = d \/ applied world maxDatabaseBytes (collection_batch now source commit items) d (cn_db c')) as Hran.
  { intros o (new & _ & H)%(ran_effect _ _ _ _ _ _ _ _ HU). destruct new; [by right|left; apply H]. }
  assert (cn_db c' = d \/ applied world maxDatabaseBytes (collection_batch now source commit items) d (cn_db c')) as [Ed|HA].
  { destruct r as [new|e]; [by apply Hran in Hr|]. destruct Hr as [->|[_ Hr]]; [by left|by apply Hran in Hr]. }
  - right. cbn beta. rewrite Ed, decide_True by exact HP. unfold sane_log. cbn [fst snd]. by rewrite Ed.
  - left. destruct (applied_position _ _ _ _ HE HA) as [HP' HN]. rewrite HP in HN.
    cbn beta. rewrite decide_False by exact HN. split; [|done].
    split; [exact (ap_unique _ _ _ _ _ HA)|]. by apply (applied_records commit items d).
Qed.

#[export] Instance postgres_lawful : LawfulBackend (logged backend pos) kind.
Proof.
  refine {| sane := sane_log; position s := pos s.1; delivered := snd |}.
  - intros s HS. split; [by apply log_keeps; [apply keeps_read|]|]. intros c Hc.
    apply log_reads in Hc as [->|[-> ->]]; [|done]. by destruct (position_of src (cn_db s.1)) as [[? ?] ?].
  - intros s HS. eexists. split; [reflexivity|]. split; [by apply log_keeps; [apply keeps_read|]|]. intros c Hc.
    apply log_reads in Hc as [->|[-> ->]]; [|done]. by destruct (position_of src (cn_db s.1)) as [[? ?] ?].
  - intros s HS. eexists. split; [reflexivity|]. split; [by apply log_keeps; [apply keeps_read|]|]. intros c Hc.
    apply log_reads in Hc as [->|[-> ->]]; [|done]. by destruct (position_of src (cn_db s.1)) as [[? ?] ?].
  - intros owner t duration s HS. apply log_keeps; [by apply keeps_acquire|done].
  - intros owner fence t duration s HS. apply log_keeps; [by apply keeps_renew|done].
  - intros owner fence s HS. apply log_keeps; [by apply keeps_release|done].
  - intros c s HS Hk HE. exact (log_commit_law c s HS Hk HE).
Defined.
End Law.

(** ** Collection into PostgreSQL *)

Section Exactly.
Context (hmac_hex : string -> string -> string) (a : JSONL).
Hypothesis hmac_hexadecimal : forall key message, hexadecimal (hmac_hex key message).
Hypothesis hmac_nonempty : forall key message, hmac_hex key message <> "".
Hypothesis long_key : (32 <= str_len (js_key a))%Z.
Hypothesis some_kind : js_kind a <> "".
Context (unmarshal : string -> option SourceRecord) (canonical_json : SourceRecord -> string)
        (parse_source_time : string -> option Z) (ctx_err : nat -> option string).
Context (sha256 : string -> string) (marshal : list PersistedEvidence -> option string)
        (parse_float : string -> option float64) (parse_time : string -> option Z)
        (world : Outside DB) (maxDatabaseBytes now : Z) (sources : gmap string PersistentSource)
        (source : PersistentSource).
Hypothesis mapped_source : sources !! js_kind a = Some source.
Hypothesis others : forall n d, same_source (pso_SourceID source) d (ou_others world n d).

Abbreviation src := (pso_SourceID source).
Abbreviation backend := (postgres_backend sha256 marshal parse_float parse_time world maxDatabaseBytes now sources).
Abbreviation pos := (fun c : Conn DB => position_of src (cn_db c)).

Lemma logged_visits st quarantine vs :
  let out := visits hmac_hex a (logged backend pos) (st, quarantine) vs in
  let out' := visits hmac_hex a backend (st.1, quarantine) vs in
  out.1.1 = out'.1 /\ out.2 = out'.2.
Proof.
  revert st quarantine. induction vs as [|v vs IH]; intros st quarantine; [done|].
  cbn [visits foldl]. unfold visit at 2 4 6 8. cbn [fst snd].
  pose proof (logged_run backend pos (vi_options v) hmac_hex (js_kind a) (vi_collect v) (vi_wait v) (vi_now v) (vi_now2 v)
                st quarantine) as (_ & <- & <-). apply IH.
Qed.

(** C1: collection into the store is exactly once, down to its rows.  A source that the store has
    nothing of is visited any number of times while its text grows; calls fail, transactions are
    tried again, answers to a COMMIT are lost, other connections work on other sources.  Then the
    evidence of the source in the store is that of its first [n] items, [n] being the number in
    its cursor: for each one row, under an alias and a hash that depend only on the item and its
    number, and no other rows. *)
Theorem postgres_exactly_once c quarantine vs v :
  db_cursors (cn_db c) !! src = None ->
  (forall id row, db_artifacts (cn_db c) !! id = Some row -> ea_Source row <> src) -> unique_alias (cn_db c) ->
  Forall (good_visit hmac_hex a unmarshal canonical_json parse_source_time ctx_err) (vs ++ [v]) ->
  StronglySorted prefix (canonicals <$> (vs ++ [v])) ->
  let d := cn_db (visits hmac_hex a backend (c, quarantine) (vs ++ [v])).1 in
  unique_alias d
  /\ exists n, (n <= length (vi_parsed v))%nat /\ (position_of src d).1.1 = Z.of_nat n
     /\ forall alias hash, has_artifact src d alias hash
          <-> exists id sequence digest,
                (id, sequence, digest) ∈ take n (identities hmac_hex a (base_generation hmac_hex a) 1 (canonicals v))
                /\ alias = Some (deterministicUUID sha256 id) /\ hex_decode digest = Some hash.
Proof.
  intros Hnew Hnone HU HG HS. cbn zeta.
  assert (position_of src (cn_db c) = (0%Z, "", "")) as HP by (unfold position_of; by rewrite Hnew).
  set (HL := postgres_lawful sha256 marshal parse_float parse_time world maxDatabaseBytes now sources (js_kind a)
                source mapped_source others).
  destruct (logged_visits (c, []) quarantine (vs ++ [v])) as [E _]. cbn [fst] in E. rewrite <- E.
  assert (@sane _ _ _ HL ((c, []), quarantine).1) as HI.
  { split; [done|]. intros alias hash. cbn [fst snd]. split.
    - intros (id & row & Hr & Hs & _). by destruct (Hnone id row Hr).
    - intros (r & ?%not_elem_of_nil & _). done. }
  destruct (visits_in_step hmac_hex a hmac_hexadecimal hmac_nonempty long_key some_kind
              (logged backend pos) unmarshal canonical_json parse_source_time ctx_err [] (vs ++ [v]) ((c, []), quarantine) HI)
    as [[HU' HR] HIS]; [|done|constructor; [done|]|].
  - exists 0%nat. split; [done|]. split; [left; split; [done|exact HP]|done].
  - apply Forall_forall. intros cs _. apply prefix_nil.
  - split; [exact HU'|]. pose proof (in_step_length _ _ _ _ _ HIS) as Hlen. destruct HIS as (n & Hn & _ & Hr).
    rewrite fmap_app in Hn, Hr. cbn [fmap list_fmap] in Hn, Hr. rewrite last_snoc in Hn, Hr. cbn [from_option id] in Hn, Hr.
    exists n. split; [by unfold canonicals in Hn; rewrite length_fmap in Hn|]. split.
    + assert (length (delivered (visits hmac_hex a (logged backend pos) (c, [], quarantine) (vs ++ [v])).1) = n) as Hln.
      { apply (f_equal length) in Hr. rewrite length_fmap, identities_length, length_take, Nat.min_l in Hr by done. exact Hr. }
      rewrite Hln in Hlen. exact Hlen.
    + intros alias hash. rewrite (HR alias hash), <- identities_take, <- Hr. split.
      * intros (r & Hr' & Ha & Hh). exists (er_ID r), (er_Sequence r), (er_ContentSHA256 r).
        split; [|done]. apply list_elem_of_fmap. by exists r.
      * intros (id & sequence & digest & (r & [= -> -> ->] & Hr')%list_elem_of_fmap & Ha & Hh). by exists r.
Qed.
End Exactly.

(** ** A concrete run: three lines, two at a time *)

(** The last bytes first, so that messages that end differently differ. *)
Definition tail_hmac (key message : string) : string :=
  hex_encode (toy_sha256 (String.string_of_list_ascii (rev (String.list_ascii_of_string message)))).

Definition pg_source (lines : list string) : JSONL := lines_source lines.

Definition pg_parsed (lines : list string) (now : Z) : list ParsedRecord :=
  match parse_source tail_hmac fake_unmarshal fake_json no_time no_ctx (pg_source lines) now with
  | Ok l => l
  | Err _ => []
  end.

Definition pg_visit (lines : list string) (now : Z) : Visit :=
  mkVisit (pg_source lines) (pg_parsed lines now) example_options
    (fun _ => Collect tail_hmac fake_unmarshal fake_json no_time no_ctx (pg_source lines))
    (fun _ => None) now now.

Definition pg_sources : gmap string PersistentSource := {["codex_jsonl" := mkPersistentSource "source" "cursor" ""]}.

Definition pg_start : Conn DB := mkConn (set_row db_sources "source" (mkSourceRow "codex_jsonl" 0) empty_db) 0.

Definition pg_run : Conn DB * list QuarantineEntry :=
  visits tail_hmac (pg_source three_lines)
    (postgres_backend toy_sha256 toy_marshal (fun _ => None) (fun _ => None) calm maxLocalDatabaseBytes 0 pg_sources)
    (pg_start, []) [pg_visit ["a"] 1; pg_visit three_lines 2].

Example pg_run_rows : size (db_artifacts (cn_db pg_run.1)) = 3%nat /\ (position_of "source" (cn_db pg_run.1)).1.1 = 3%Z.
Proof. vm_compute. split; reflexivity. Qed.

Lemma tail_hmac_nonempty key message : tail_hmac key message <> "".
Proof.
  unfold tail_hmac, toy_sha256. destruct (String.string_of_list_ascii _) as [|c s]; cbn; discriminate.
Qed.

Lemma pg_visit_good lines now :
  lines = ["a"] \/ lines = three_lines -> now = 1%Z \/ now = 2%Z ->
  good_visit tail_hmac (pg_source three_lines) fake_unmarshal fake_json no_time no_ctx (pg_visit lines now).
Proof.
  intros HL HN.
  assert (parse_source tail_hmac fake_unmarshal fake_json no_time no_ctx (pg_source lines) now
          = Ok (pg_parsed lines now) /\ Forall timed (pg_parsed lines now)
          /\ js_data (pg_source lines) <> "" /\ now <> zero_time
          /\ u64_range (Z.of_nat (length (pg_parsed lines now)))) as (HP & HT & HD & HZ & HU).
  { destruct HL as [-> | ->], HN as [-> | ->];
      (split; [vm_compute; reflexivity|]; split;
       [vm_compute; repeat constructor; discriminate|]; split; [vm_compute; discriminate|];
       split; [vm_compute; discriminate|]; split; vm_compute; done). }
  split; try assumption; try reflexivity; [vm_compute; discriminate|]. intros n request. by left.
Qed.

Example postgres_exactly_once_witness :
  unique_alias (cn_db pg_run.1)
  /\ exists n, (n <= 3)%nat /\ (position_of "source" (cn_db pg_run.1)).1.1 = Z.of_nat n.
Proof.
  destruct (postgres_exactly_once tail_hmac (pg_source three_lines) (fun _ _ => hex_encode_hex _) tail_hmac_nonempty
              ltac:(done) ltac:(done) fake_unmarshal fake_json no_time no_ctx toy_sha256 toy_marshal (fun _ => None)
              (fun _ => None) calm maxLocalDatabaseBytes 0 pg_sources (mkPersistentSource "source" "cursor" "")
              ltac:(vm_compute; reflexivity) (fun n d => reflexivity d) pg_start [] [pg_visit ["a"] 1]
              (pg_visit three_lines 2)) as [HU (n & Hn & HP & _)].
  - reflexivity.
  - intros id row H. done.
  - intros id1 id2 r1 r2 H. done.
  - constructor; [apply pg_visit_good; auto|]. constructor; [apply pg_visit_good; auto|constructor].
  - constructor; [repeat constructor|]. constructor; [|constructor]. exists ["b"; "c"]. vm_compute. reflexivity.
  - split; [exact HU|]. exists n. split; [exact Hn|exact HP].
Defined.
