(* ===== verification/AuditQueries.v ===== *)
(** * The queries of a project audit: what is selected (internal/store/postgres/governance.go)

    The statements that [projectAuditSource] sends, as functions of the tables.  A query selects
    sessions joined with their trajectories by the scope of the request, and what hangs on them by
    the window and the instant of the audit.  Texts are compared by bytes, as the columns that are
    grouped and ordered (identifiers and short codes) are. *)
From Stdlib Require Import Ascii.
From S2P Require Import Contracts GoInt Snapshots Runtime Metrics Service Transactions Tables LineageRows.

(** ** The scope *)

Inductive Restriction :=
  | Everything
  | OfProject (id : string)
  | OfTask (id : string)
  | OfTrajectory (id : string).

(** What [auditFilter] returns: the condition on sessions and trajectories, that on turns, and the
    arguments. *)
Record AuditFilter := mkAuditFilter {
  fl_StartsAt : Z;
  fl_EndsAt : Z;
  fl_AsOf : Z;
  fl_Sources : list string;
  fl_Where : Restriction
}.

(** The text of a value of type uuid: its hexadecimal digits are small letters. *)
Fixpoint uuid_text (s : string) : string :=
  match s with
  | EmptyString => ""
  | String c rest =>
      let n := byte c in
      String (if (65 <=? n)%Z && (n <=? 70)%Z then byte_char (n + 32) else c) (uuid_text rest)
  end.

Definition auditFilter (request : AuditProjectRequest) : result StableError AuditFilter :=
  let scope := apq_Scope request in
  let filter := mkAuditFilter (apq_StartsAt request) (apq_EndsAt request) (apq_AsOf request) (apq_ConfiguredSources request) in
  let id := uuid_text (apq_Reference request) in
  if scope =s AuditScopePortfolio then
    if negb (apq_Reference request =s "all")
    then Err (NewError ErrorCodeInvalidSchema "portfolio reference must be all" "reference" false)
    else Ok (filter Everything)
  else if scope =s AuditScopeProject then Ok (filter (OfProject id))
  else if scope =s AuditScopeTask then Ok (filter (OfTask id))
  else if scope =s AuditScopeTrajectory then Ok (filter (OfTrajectory id))
  else Err (NewError ErrorCodeUnsupportedCapability "audit scope unavailable" "scope" false).

(** [>= $1 AND < $2 AND <= $3]. *)
Definition in_window (f : AuditFilter) (t : Z) : bool :=
  (fl_StartsAt f <=? t)%Z && (t <? fl_EndsAt f)%Z && (t <=? fl_AsOf f)%Z.

(** Whether a scope is a part of sessions: events of a session are not of it, and evidence only if
    it is linked. *)
Definition partial_scope (f : AuditFilter) : bool :=
  match fl_Where f with OfTask _ | OfTrajectory _ => true | _ => false end.

Definition turn_wanted (f : AuditFilter) (t : TurnRow) : bool :=
  match fl_Where f with OfTask id => bool_decide (tu_Task t = Some id) | _ => true end.

Definition source_wanted (f : AuditFilter) (d : DB) (sourceID : string) : bool :=
  match db_sources d !! sourceID with
  | None => false
  | Some source => bool_decide (so_Kind source ∈ fl_Sources f)
  end.

(** A row with its key, and a session with one of its trajectories, or with none if it has none. *)
Abbreviation Keyed R := (string * R)%type (only parsing).
Abbreviation Lineage := (Keyed SessionRow * option (Keyed TrajectoryRow))%type (only parsing).

Definition rows {R} (get : DB -> gmap string R) (d : DB) : list (Keyed R) := map_to_list (get d).

(** sessions LEFT JOIN trajectories. *)
Definition lineages (d : DB) : list Lineage :=
  rows db_sessions d ≫= fun s =>
    match List.filter (fun t => tr_Session t.2 =s s.1) (rows db_trajectories d) with
    | [] => [(s, None)]
    | l => (fun t => (s, Some t)) <$> l
    end.

Definition task_turn (d : DB) (trajectoryID taskID : string) : bool :=
  existsb (fun t => (tu_Trajectory t.2 =s trajectoryID) && bool_decide (tu_Task t.2 = Some taskID)) (rows db_turns d).

(** The WHERE clause of a scope. *)
Definition in_scope (f : AuditFilter) (d : DB) (l : Lineage) : bool :=
  let '(s, t) := l in
  source_wanted f d (se_Source s.2)
  && match fl_Where f, t with
     | Everything, _ => true
     | OfProject id, _ => bool_decide (se_Project s.2 = Some id)
     | OfTask id, Some t => task_turn d t.1 id
     | OfTrajectory id, Some t => t.1 =s id
     | _, None => false
     end.

Definition selected (f : AuditFilter) (d : DB) : list Lineage := List.filter (in_scope f d) (lineages d).

Definition session_of (l : Lineage) : string := l.1.1.
Definition trajectory_of (l : Lineage) : option string := fst <$> l.2.

Definition sessions_of (ls : list Lineage) : gset string := list_to_set (session_of <$> ls).
Definition trajectories_of (ls : list Lineage) : gset string := list_to_set (omap trajectory_of ls).

Definition member (id : string) (s : gset string) : bool := bool_decide (id ∈ s).

(** JOIN with a table by one of its columns; a trajectory has one session, so it joins once. *)
Definition turns_of (f : AuditFilter) (wanted : TurnRow -> bool) (trajectories : gset string) (d : DB) : list (Keyed TurnRow) :=
  List.filter (fun t => member (tu_Trajectory t.2) trajectories && in_window f (tu_ObservedAt t.2) && wanted t.2) (rows db_turns d).

Definition keys {R} (l : list (Keyed R)) : gset string := list_to_set (fst <$> l).

Definition responses_of (f : AuditFilter) (turns : gset string) (d : DB) : list (Keyed ResponseRow) :=
  List.filter (fun r => member (re_Turn r.2) turns && (re_StartedAt r.2 <=? fl_AsOf f)%Z) (rows db_responses d).

Definition tools_of (f : AuditFilter) (responses : gset string) (d : DB) : list (Keyed ToolCallRow) :=
  List.filter (fun c => member (tc_Response c.2) responses && (tc_StartedAt c.2 <=? fl_AsOf f)%Z) (rows db_tool_calls d).

Definition items_of (f : AuditFilter) (responses : gset string) (d : DB) : list (Keyed ItemRow) :=
  List.filter (fun i => member (it_Response i.2) responses && (it_ObservedAt i.2 <=? fl_AsOf f)%Z) (rows db_items d).

Definition epochs_of (f : AuditFilter) (trajectories : gset string) (d : DB) : list (Keyed EpochRow) :=
  List.filter (fun e => member (ep_Trajectory e.2) trajectories && in_window f (ep_StartedAt e.2)) (rows db_epochs d).

Definition phases_of (f : AuditFilter) (trajectories : gset string) (d : DB) : list (Keyed PhaseRow) :=
  List.filter (fun p => member (ph_Trajectory p.2) trajectories && in_window f (ph_StartedAt p.2)) (rows db_phases d).

(** ** Groups *)

(** GROUP BY: the keys in some order, each with its rows. *)
Definition group_by {A} (key : A -> string) (l : list A) : list (string * list A) :=
  (fun k => (k, List.filter (fun x => key x =s k) l)) <$> elements (list_to_set (key <$> l) : gset string).

(** The aggregates ignore NULL. *)
Definition max_text (l : list (option string)) : option string :=
  foldr (fun o acc => match o, acc with
                      | Some s, Some m => Some (if str_lt m s then s else m)
                      | Some s, None => Some s
                      | None, acc => acc
                      end) None l.

Definition max_int (l : list (option Z)) : option Z :=
  foldr (fun o acc => match o, acc with
                      | Some z, Some m => Some (Z.max z m)
                      | Some z, None => Some z
                      | None, acc => acc
                      end) None l.

Definition text_in (o : option string) (l : list string) : bool :=
  match o with Some s => bool_decide (s ∈ l) | None => false end.

(** A logical tool call: the rows of one alias. *)
Record LogicalTool := mkLogicalTool { lt_Kind : option string; lt_Outcome : string; lt_Epoch : option string }.

Definition logical_tool (g : string * list (Keyed ToolCallRow)) : LogicalTool :=
  let any outcomes := existsb (fun c => text_in (tc_Outcome c.2) outcomes) g.2 in
  mkLogicalTool (max_text ((fun c => Some (tc_ToolKind c.2)) <$> g.2))
    (if any ["error"; "failed"] then "error"
     else if any ["repeated_unchanged"] then "repeated_unchanged"
     else if any ["success"; "completed"] then "success" else "unknown")
    (max_text ((fun c => tc_Epoch c.2) <$> g.2)).

Definition logical_tools (calls : list (Keyed ToolCallRow)) : list LogicalTool :=
  logical_tool <$> group_by (fun c => tc_Alias c.2) calls.

Record LogicalItem := mkLogicalItem {
  li_Kind : option string;
  li_Length : option Z;
  li_Detail : option string;
  li_Phase : option string
}.

Definition logical_item (g : string * list (Keyed ItemRow)) : LogicalItem :=
  mkLogicalItem (max_text ((fun i => Some (it_Kind i.2)) <$> g.2)) (max_int ((fun i => it_ContentLength i.2) <$> g.2))
    (max_text ((fun i => it_ImageDetail i.2) <$> g.2)) (max_text ((fun i => it_Phase i.2) <$> g.2)).

Definition logical_items (items : list (Keyed ItemRow)) : list LogicalItem :=
  logical_item <$> group_by (fun i => it_Alias i.2) items.

(** ** The union of intervals, with window functions *)

Definition earlier_interval (a b : Z * Z) : bool := (a.1 <? b.1)%Z || (a.1 =? b.1)%Z && (a.2 <? b.2)%Z.

(** max(ended_at) OVER (ORDER BY started_at, ended_at ROWS BETWEEN UNBOUNDED PRECEDING AND 1
    PRECEDING), and whether the row opens a group. *)
Fixpoint opening_rows (prior : option Z) (l : list (Z * Z)) : list ((Z * Z) * bool) :=
  match l with
  | [] => []
  | x :: rest =>
      (x, match prior with None => true | Some p => (p <? x.1)%Z end)
      :: opening_rows (greatest prior x.2) rest
  end.

(** sum(...) OVER (ORDER BY started_at, ended_at): of the row, its peers and those before. *)
Definition interval_group (l : list ((Z * Z) * bool)) (x : Z * Z) : nat :=
  length (List.filter (fun y => y.2 && negb (earlier_interval x y.1)) l).

(** min(started_at), max(ended_at) of every group. *)
Definition islands (intervals : list (Z * Z)) : list (Z * Z) :=
  let opened := opening_rows None (go_sort earlier_interval intervals) in
  let numbered := (fun y => (interval_group opened y.1, y.1)) <$> opened in
  (fun g => let members := snd <$> List.filter (fun y => (y.1 =? g)%nat) numbered in
            (foldr (fun x m => Z.min x.1 m) (hd (0, 0)%Z members).1 members,
             foldr (fun x m => Z.max x.2 m) (hd (0, 0)%Z members).2 members))
  <$> elements (list_to_set (fst <$> numbered) : gset nat).

(** sum(ended_at - started_at), in nanoseconds, and extract(epoch FROM ...) as a float64. *)
Definition islands_length (intervals : list (Z * Z)) : Z :=
  foldr (fun x total => (x.2 - x.1 + total)%Z) 0%Z (islands intervals).

Definition epoch_seconds (ns : Z) : float64 := float_lit (ns / 1000) 1000000.

Definition closed_interval (start : Z) (stop : option Z) : option (Z * Z) := (fun e => (start, e)) <$> stop.

(** ** Columns of events and observations *)

Definition column_time (row : Columns) (name : string) : Z :=
  match row !! name with Some (VTime t) => t | _ => 0%Z end.

Definition column_number (row : Columns) (name : string) : option float64 :=
  match row !! name with Some (VFloat v) => Some v | _ => None end.

Definition column_is (row : Columns) (name value : string) : bool := bool_decide (column_text row name = Some value).

(** (attributes->>name)::bigint > 0. *)
Definition positive_attribute (row : Columns) (name : string) : bool :=
  match row !! "attributes" with
  | Some (VJson object) =>
      match find_first (fun kv => kv.1 =s name) object with
      | Some (_, Some (VInt z)) => (0 <? z)%Z
      | _ => false
      end
  | _ => false
  end.

(** Events of a kind of the selected sessions; none when the scope is a part of sessions. *)
Definition events_of (f : AuditFilter) (kind : string) (sessions : gset string) (d : DB) : list (Keyed Columns) :=
  List.filter (fun e => column_is e.2 "event_kind" kind
                        && match column_text e.2 "session_id" with Some s => member s sessions | None => false end
                        && in_window f (column_time e.2 "observed_at") && negb (partial_scope f))
    (rows db_events d).

(** Observations of a kind of the selected trajectories. *)
Definition observations_of (f : AuditFilter) (kind : string) (trajectories : gset string) (d : DB) : list (Keyed Columns) :=
  List.filter (fun o => column_is o.2 "observation_kind" kind
                        && match column_text o.2 "trajectory_id" with Some t => member t trajectories | None => false end
                        && in_window f (column_time o.2 "observed_at"))
    (rows db_observations d).

Definition usage_of (f : AuditFilter) (metric : string) (trajectories : gset string) (d : DB) : list (Keyed Columns) :=
  List.filter (fun o => column_is o.2 "metric_kind" metric) (observations_of f "usage" trajectories d).

Definition values_of (l : list (Keyed Columns)) : list float64 := omap (fun o => column_number o.2 "value_numeric") l.

(** A link from the evidence to a trajectory. *)
Definition linked_to (d : DB) (evidenceID trajectoryID : string) : bool :=
  existsb (fun l => column_is l.2 "evidence_artifact_id" evidenceID && column_is l.2 "target_kind" "trajectory"
                    && column_is l.2 "target_id" trajectoryID) (rows db_links d).

(** [evidenceScopePredicate]. *)
Definition evidence_in_scope (f : AuditFilter) (d : DB) (evidenceID : string) (l : Lineage) : bool :=
  if partial_scope f then match trajectory_of l with Some t => linked_to d evidenceID t | None => false end
  else true.

(** Evidence of the selected sessions in the window, DISTINCT. *)
Definition evidence_of_scope (f : AuditFilter) (d : DB) : list (Keyed ArtifactRow) :=
  List.filter (fun e => in_window f (ea_ObservedAt e.2)
                        && existsb (fun l => bool_decide (ea_Session e.2 = Some (session_of l)) && evidence_in_scope f d e.1 l)
                             (selected f d))
    (rows db_artifacts d).

(** ORDER BY 1 LIMIT 100 of identifiers. *)
Definition first_hundred (ids : list string) : list string := take 100 (sort_strings ids).

(** How many rows satisfy a condition. *)
Definition count {A} (p : A -> bool) (l : list A) : Z := Z.of_nat (length (List.filter p l)).
Definition total {A} (l : list A) : Z := Z.of_nat (length l).

Section Metrics.
(** sum(value_numeric), 0 if there are none, read into a float64. *)
Context (numeric_sum : list float64 -> float64).

Definition text_result (i : LogicalItem) : bool := bool_decide (li_Kind i = Some "tool_result").

Definition oversized (i : LogicalItem) : bool :=
  match li_Length i with Some n => (20480 <? n)%Z | None => false end
  && one_of (default "none" (li_Detail i)) ["none"; "text"].

Definition mutated (e : Keyed EpochRow) : bool := ep_Mutation e.2 =s "mutated".

Definition validated_by (tools : list LogicalTool) (e : Keyed EpochRow) : bool :=
  existsb (fun t => bool_decide (lt_Epoch t = Some e.1) && bool_decide (lt_Kind t = Some "validation")
                    && (lt_Outcome t =s "success")) tools.

(** The statement of [metrics] and what is made of it, before the references. *)
Definition metrics_input (f : AuditFilter) (d : DB) : Input :=
  let scope := selected f d in
  let sessions := sessions_of scope in
  let trajectories := trajectories_of scope in
  let turns := turns_of f (turn_wanted f) trajectories d in
  let responses := responses_of f (keys turns) d in
  let tools := logical_tools (tools_of f (keys responses) d) in
  let items := logical_items (items_of f (keys responses) d) in
  let epochs := epochs_of f trajectories d in
  let phases := phases_of f trajectories d in
  let boundaries := events_of f "boundary" sessions d in
  let checkpoints := events_of f "checkpoint" sessions d in
  let evidence := evidence_of_scope f d in
  let complete := count (fun e => ea_Coverage e.2 =s "complete") evidence in
  {| in_CompletedTurns := total turns;
     in_AttributedTurns := count (fun t => bool_decide (is_Some (tu_Task t.2))) turns;
     in_BoundaryDecisions := total boundaries;
     in_BoundaryViolations := count (fun e => text_in (column_text e.2 "outcome") ["denied"; "violated"]) boundaries;
     in_Checkpoints := total checkpoints;
     in_CompleteCheckpoints :=
       count (fun e => positive_attribute e.2 "completed_count" && positive_attribute e.2 "next_action_count"
                       && positive_attribute e.2 "gate_count") checkpoints;
     in_TotalTokens := numeric_sum (values_of (usage_of f "total_tokens" trajectories d));
     in_NonCachedInputTokens := numeric_sum (values_of (usage_of f "non_cached_input_tokens" trajectories d));
     in_ToolCalls := total tools;
     in_PassiveWaitCalls := count (fun t => bool_decide (lt_Kind t = Some "passive_wait")) tools;
     in_ToolResults := count text_result items;
     in_OversizedResults := count (fun i => text_result i && oversized i) items;
     in_RepeatedCalls := count (fun t => lt_Outcome t =s "repeated_unchanged") tools;
     in_ToolErrors := count (fun t => one_of (lt_Outcome t) ["error"; "failed"]) tools;
     in_ObservableMutations := count mutated epochs;
     in_ValidatedMutations := count (fun e => mutated e && validated_by tools e) epochs;
     in_AcceptedEvidence := total evidence;
     in_RedactedEvidence := count (fun e => one_of (ea_Redaction e.2) ["applied"; "not_needed"]) evidence;
     in_CommentaryMessages := count (fun i => bool_decide (li_Phase i = Some "commentary")) items;
     in_WallClockSeconds :=
       epoch_seconds (islands_length (omap (fun r => closed_interval (re_StartedAt r.2) (re_CompletedAt r.2)) responses));
     in_ActiveSeconds :=
       epoch_seconds (islands_length (omap (fun p => closed_interval (ph_StartedAt p.2) (ph_EndedAt p.2)) phases));
     in_ActiveRuntimeKnown := (0 <? count (fun p => bool_decide (is_Some (ph_EndedAt p.2))) phases)%Z;
     in_Coverage :=
       if (total evidence =? 0)%Z then CoverageStateMissing
       else if negb (complete =? total evidence)%Z then CoverageStatePartial else CoverageStateComplete;
     in_EvidenceRefs := [];
     in_Exclusions := [] |}.
End Metrics.

(** [input.EvidenceRefs = refs; input.Coverage = coverage]. *)
Definition with_refs (refs : list string) (coverage : CoverageState) (i : Input) : Input :=
  mkInput (in_CompletedTurns i) (in_AttributedTurns i) (in_BoundaryDecisions i) (in_BoundaryViolations i)
    (in_Checkpoints i) (in_CompleteCheckpoints i) (in_TotalTokens i) (in_NonCachedInputTokens i) (in_ToolCalls i)
    (in_PassiveWaitCalls i) (in_ToolResults i) (in_OversizedResults i) (in_RepeatedCalls i) (in_ToolErrors i)
    (in_ObservableMutations i) (in_ValidatedMutations i) (in_AcceptedEvidence i) (in_RedactedEvidence i)
    (in_CommentaryMessages i) (in_WallClockSeconds i) (in_ActiveSeconds i) (in_ActiveRuntimeKnown i) coverage refs
    (in_Exclusions i).

Definition evidence_refs (f : AuditFilter) (d : DB) : list string := first_hundred (fst <$> evidence_of_scope f d).

(** ** The counts are consistent *)

Lemma count_part {A} (p : A -> bool) l : part_of (count p l) (total l).
Proof.
  unfold part_of, count, total. pose proof (filter_length_le p l). lia.
Qed.

Lemma count_sub {A} (p q : A -> bool) l : (forall x, p x = true -> q x = true) -> part_of (count p l) (count q l).
Proof.
  intros H. unfold part_of, count. split; [lia|]. apply inj_le.
  induction l as [|x l IH]; cbn; [done|]. specialize (H x). destruct (p x), (q x); cbn; lia.
Qed.

(** What the program takes on trust of the tables: the sums are measurements, less input was not
    cached than there were tokens, and phases took no longer than responses. *)
Definition trusted (input : Input) : Prop :=
  measurement (in_TotalTokens input) /\ measurement (in_NonCachedInputTokens input)
  /\ measurement (in_WallClockSeconds input) /\ measurement (in_ActiveSeconds input)
  /\ flt (in_TotalTokens input) (in_NonCachedInputTokens input) = false
  /\ flt (in_WallClockSeconds input) (in_ActiveSeconds input) = false.

Lemma metrics_input_wf numeric_sum f d :
  input_wf (metrics_input numeric_sum f d) <-> trusted (metrics_input numeric_sum f d).
Proof.
  split; [by intros []|]. intros (H1 & H2 & H3 & H4 & H5 & H6). split; try done; try apply count_part.
  - apply count_sub. by intros x [H _]%andb_true_iff.
  - apply count_sub. by intros x [H _]%andb_true_iff.
Qed.

(** The counts that the store hands to the metrics are never refused: whatever the tables hold
    and whatever the scope, an audit's input is rejected exactly when a sum of tokens or a duration
    is not one of a measurement, when there are more tokens of non-cached input than tokens, or
    when phases took longer than responses. *)
Theorem metrics_rejected_iff numeric_sum f d :
  (exists message, Compute (metrics_input numeric_sum f d) = Some (Err message))
  <-> ~ trusted (metrics_input numeric_sum f d).
Proof.
  rewrite <- metrics_input_wf, <- invalidInput_spec. unfold Compute. split.
  - intros [message H]. destruct (invalidInput _); [done|]. by destruct (mapM _ _).
  - intros H%not_false_is_true. rewrite H. eauto.
Qed.

(** ** A response that is not finished *)

Definition scope_responses (f : AuditFilter) (d : DB) : list (Keyed ResponseRow) :=
  responses_of f (keys (turns_of f (turn_wanted f) (trajectories_of (selected f d)) d)) d.

(** An audit fails while work goes on.  When no response of a scope is finished yet, but phases
    of it took time (a tool phase ends with every call), the input is refused, and with it the
    audit: phases are compared with responses, of which only finished ones count. *)
Theorem unfinished_responses_refused numeric_sum f d :
  (forall r, r ∈ scope_responses f d -> re_CompletedAt r.2 = None) ->
  flt fzero (in_ActiveSeconds (metrics_input numeric_sum f d)) = true ->
  Compute (metrics_input numeric_sum f d) = Some (Err "metric input is inconsistent").
Proof.
  intros Hopen Hactive. unfold Compute. destruct (invalidInput _) eqn:E; [done|]. exfalso.
  apply invalidInput_spec in E. destruct E as [_ _ _ _ _ _ _ _ _ _ _ _ _ _ _ E].
  assert (in_WallClockSeconds (metrics_input numeric_sum f d) = fzero) as Hwall; [|by rewrite Hwall, Hactive in E].
  change (epoch_seconds (islands_length
            (omap (fun r => closed_interval (re_StartedAt r.2) (re_CompletedAt r.2)) (scope_responses f d))) = fzero).
  replace (omap _ (scope_responses f d)) with ([] : list (Z * Z)); [vm_compute; reflexivity|].
  induction (scope_responses f d) as [|r l IH]; [done|]. cbn. rewrite (Hopen r) by left. apply IH. intros x Hx. apply Hopen. by right.
Qed.

(** Two results of one tool call, two seconds apart, as the collector persists them. *)
Definition tool_lineage : EvidenceLineage :=
  mkEvidenceLineage "session" "trajectory" "" "" "turn" (Some 0%Z) "response" "" "call" "" "direct" "shell".

Definition tool_result (t : Z) : PersistedEvidence :=
  mkPersistedEvidence "item" "source" (Some "project") (Some "session") (Some "item") "1" "1" "" 0 "internal" "not_needed"
    "complete" "runtime_observed" "codex_subscription" t None tool_lineage
    (mkRuntimeObservation "" "" "" "" "" "" "" "" "" "" "" "" None "" None "" "" None "" "" None "" "" "" None "" None
       "" "" "" "" "" None None None None None None false).

Definition working_db : DB :=
  let start := set_row db_sources "source" (mkSourceRow "codex_jsonl" 0) (set_row db_projects "project" 0%Z empty_db) in
  cn_db ((do! _ := persistEvidenceLineage (fun s => s) calm (tool_result (2 * 10 ^ 9)) in
          persistEvidenceLineage (fun s => s) calm (tool_result (4 * 10 ^ 9))) (mkConn start 0)).2.

Definition working_scope : AuditFilter := mkAuditFilter (10 ^ 9) (9 * 10 ^ 9) (9 * 10 ^ 9) ["codex_jsonl"] (OfProject "project").

Example unfinished_responses_refused_witness :
  length (scope_responses working_scope working_db) = 1%nat
  /\ Compute (metrics_input (fun _ => fzero) working_scope working_db) = Some (Err "metric input is inconsistent").
Proof.
  split; [vm_compute; reflexivity|]. apply (unfinished_responses_refused (fun _ => fzero) working_scope working_db).
  - assert (List.forallb (fun r => bool_decide (re_CompletedAt r.2 = None)) (scope_responses working_scope working_db) = true) as H
      by (vm_compute; reflexivity).
    intros r Hr. apply list_elem_of_In in Hr. rewrite forallb_forall in H. exact (bool_decide_eq_true_1 _ (H r Hr)).
  - vm_compute. reflexivity.
Defined.
