(* ===== verification/AuditFacts.v ===== *)
(** * The queries of a project audit: facts (internal/store/postgres/governance.go)

    Overhead, references of tools, contributions, confounders, invocations, workload, versions of
    dimensions, sources, counts of the scope and feedback.  A column that is NULL cannot be read
    into a string: then the query gives an error.

    Arguments: [numeric_sum] is the sum of a column of type numeric read into a float64,
    [numeric_shares] that of the products and quotients of [usage.tokens * class.turn_count /
    total.turn_count], [sha256_hex] is SHA-256 in hexadecimal. *)
From S2P Require Import Contracts GoInt Runtime Metrics Diagnosis Workload Transactions Tables LineageRows AuditQueries.

(** A share of the tokens of a trajectory: its usage, the turns of the class and all its turns. *)
Abbreviation Share := (list float64 * Z * Z)%type (only parsing).

Definition opaque_alias (sha256_hex : string -> string) (value : string) : string :=
  "opaque-" +:+ str_take 24 (sha256_hex ("audit-reference:" +:+ value)).

Definition confidenceLabel (value : float64) : string :=
  if fle (float_lit 80 100) value then "high"
  else if fle (float_lit 50 100) value then "medium"
  else if flt fzero value then "low" else "unknown".

(** ** Overhead and references *)

Section Sums.
Context (numeric_sum : list float64 -> float64) (numeric_shares : list Share -> float64).

Definition overhead_input (f : AuditFilter) (d : DB) : Input :=
  let go := observations_of f "governance_overhead" (trajectories_of (selected f d)) d in
  {| in_CompletedTurns := total go; in_AttributedTurns := 0; in_BoundaryDecisions := 0; in_BoundaryViolations := 0;
     in_Checkpoints := 0; in_CompleteCheckpoints := 0;
     in_TotalTokens := numeric_sum (values_of (List.filter (fun o => column_is o.2 "native_unit" "tokens") go));
     in_NonCachedInputTokens := fzero; in_ToolCalls := 0; in_PassiveWaitCalls := 0; in_ToolResults := 0;
     in_OversizedResults := 0; in_RepeatedCalls := 0; in_ToolErrors := 0; in_ObservableMutations := 0;
     in_ValidatedMutations := 0; in_AcceptedEvidence := 0; in_RedactedEvidence := 0; in_CommentaryMessages := 0;
     in_WallClockSeconds := fzero; in_ActiveSeconds := fzero; in_ActiveRuntimeKnown := false;
     in_Coverage := CoverageStateComplete; in_EvidenceRefs := []; in_Exclusions := [] |}.

(** The turns of a scope, and all responses and tool calls of them. *)
Definition scope_turns (f : AuditFilter) (d : DB) : list (Keyed TurnRow) :=
  turns_of f (turn_wanted f) (trajectories_of (selected f d)) d.

Definition all_responses (turns : gset string) (d : DB) : list (Keyed ResponseRow) :=
  List.filter (fun r => member (re_Turn r.2) turns) (rows db_responses d).

Definition all_tools (responses : gset string) (d : DB) : list (Keyed ToolCallRow) :=
  List.filter (fun c => member (tc_Response c.2) responses) (rows db_tool_calls d).

Definition turn_tools (f : AuditFilter) (turns : list (Keyed TurnRow)) (d : DB) : list (Keyed ToolCallRow) :=
  tools_of f (keys (all_responses (keys turns) d)) d.

Definition tool_is (kind : string) (c : ToolCallRow) : bool :=
  if kind =s "repeated_unchanged" then bool_decide (tc_Outcome c = Some kind) else tc_ToolKind c =s kind.

Definition tool_refs (f : AuditFilter) (kind : string) (d : DB) : list string :=
  first_hundred (fst <$> List.filter (fun c => tool_is kind c.2) (turn_tools f (scope_turns f d) d)).

(** ** Workload classes *)

Definition workload_class (d : DB) (t : TurnRow) : string :=
  match tu_Task t ≫= (fun id => db_tasks d !! id) with Some task => ta_Kind task | None => "unknown" end.

(** The usage of a trajectory in the window, if there is any. *)
Definition usage_of_trajectory (f : AuditFilter) (trajectory : string) (d : DB) : option (list float64) :=
  match List.filter (fun o => column_is o.2 "metric_kind" "total_tokens") (observations_of f "usage" {[trajectory]} d) with
  | [] => None
  | l => Some (values_of l)
  end.

(** The turns of a trajectory and a class, class_counts joined with the totals and the usage. *)
Definition class_share (f : AuditFilter) (turns : list (Keyed TurnRow)) (d : DB) (trajectory class : string) : option Share :=
  (fun usage => (usage, count (fun t => (tu_Trajectory t.2 =s trajectory) && (workload_class d t.2 =s class)) turns,
                 count (fun t => tu_Trajectory t.2 =s trajectory) turns))
  <$> usage_of_trajectory f trajectory d.

Definition distinct_of {A} (f : A -> string) (l : list A) : list string := elements (list_to_set (f <$> l) : gset string).

Definition class_shares (f : AuditFilter) (turns : list (Keyed TurnRow)) (d : DB) (class : string) : list Share :=
  omap (fun trajectory => class_share f turns d trajectory class)
    (distinct_of (fun t => tu_Trajectory t.2) (List.filter (fun t => workload_class d t.2 =s class) turns)).

Definition workload_values (f : AuditFilter) (d : DB) : list (@ClassValue float64) :=
  let turns := scope_turns f d in
  (fun class =>
     let n := float_of_Z (count (fun t => workload_class d t.2 =s class) turns) in
     mkClassValue class n (numeric_shares (class_shares f turns d class)) n)
  <$> sort_strings (distinct_of (fun t => workload_class d t.2) turns).

(** ** Contributions of projects *)

Definition project_of_turn (d : DB) (t : TurnRow) : option string :=
  match db_trajectories d !! tu_Trajectory t with
  | None => None
  | Some tr => match db_sessions d !! tr_Session tr with None => None | Some se => se_Project se end
  end.

(** One row: a project and a class. *)
Definition contribution_of (f : AuditFilter) (d : DB) (turns : list (Keyed TurnRow)) (all : float64)
    (project class : string) : ScopeContribution :=
  let own := List.filter (fun t => bool_decide (project_of_turn d t.2 = Some project)) turns in
  let numerator := numeric_shares
    (omap (fun trajectory => class_share f turns d trajectory class)
       (distinct_of (fun t => tu_Trajectory t.2) (List.filter (fun t => workload_class d t.2 =s class) own))) in
  let denominator := count (fun t => workload_class d t.2 =s class) own in
  let suppressed := (denominator <? 3)%Z in
  mkScopeContribution AuditScopeProject project class numerator (float_of_Z denominator)
    (if suppressed then None else if flt fzero all then Some (fdiv numerator all) else None)
    (if suppressed then CoverageStatePartial else CoverageStateComplete)
    (if suppressed then "privacy_suppressed" else "attributed").

(** The rows of the projects in order, those of a project in some order; [None] when a session of
    the scope has no project. *)
Definition contributions_of (f : AuditFilter) (d : DB) : option (list ScopeContribution) :=
  let turns := scope_turns f d in
  let all := numeric_shares (concat (class_shares f turns d <$> distinct_of (fun t => workload_class d t.2) turns)) in
  projects ← mapM (fun t => project_of_turn d t.2) turns;
  Some (sort_strings (elements (list_to_set projects : gset string)) ≫= fun project =>
    contribution_of f d turns all project
    <$> distinct_of (fun t => workload_class d t.2)
          (List.filter (fun t => bool_decide (project_of_turn d t.2 = Some project)) turns)).
End Sums.

(** ** Confounders *)

Definition confounders_in (f : AuditFilter) (d : DB) : list (Keyed Columns) :=
  observations_of f "confounder" (trajectories_of (selected f d)) d.

Definition column (row : Columns) (name : string) : string := default "" (column_text row name).

(** ORDER BY of texts. *)
Fixpoint texts_lt (a b : list string) : bool :=
  match a, b with
  | x :: a', y :: b' => str_lt x y || (x =s y) && texts_lt a' b'
  | _, _ => false
  end.

Definition label_of (o : Keyed Columns) : list string :=
  [column o.2 "metric_kind"; column o.2 "state_value"; column o.2 "provenance"].

Definition confounder_strata (f : AuditFilter) (d : DB) : list ConfounderStratum :=
  (fun o => mkConfounderStratum (column o.2 "metric_kind") (column o.2 "state_value") false
              (confidenceLabel (default fzero (column_number o.2 "confidence"))) (column o.2 "provenance"))
  <$> go_sort (fun a b => texts_lt (label_of a) (label_of b))
        (foldr (fun o l => if bool_decide (Exists (fun o' => label_of o' = label_of o
                                              /\ default fzero (column_number o'.2 "confidence")
                                                 = default fzero (column_number o.2 "confidence")) l)
                           then l else o :: l) [] (confounders_in f d)).

(** kind=state@provenance, each once and in order. *)
Definition confounder_signature (f : AuditFilter) (d : DB) : string :=
  let labels := go_sort texts_lt (elements (list_to_set (label_of <$> confounders_in f d) : gset (list string))) in
  match labels with
  | [] => "unknown"
  | _ => str_join "," ((fun l => match l with
                                 | [kind; state; provenance] => kind +:+ "=" +:+ state +:+ "@" +:+ provenance
                                 | _ => ""
                                 end) <$> labels)
  end.

(** ** Invocations *)

Record LogicalCall := mkLogicalCall { lc_ID : string; lc_Caller : option string; lc_Result : bool }.

Definition logical_calls (tools : list (Keyed ToolCallRow)) : list LogicalCall :=
  (fun g => mkLogicalCall g.1 (max_text ((fun c => tc_Caller c.2) <$> g.2))
              (existsb (fun c => text_in (tc_Outcome c.2) ["success"; "completed"]) g.2))
  <$> group_by (fun c => tc_Alias c.2) tools.

(** No caller among the calls, and no call by it. *)
Definition is_host (calls : list LogicalCall) (c : LogicalCall) : bool :=
  match lc_Caller c with None => true | Some p => negb (existsb (fun q => lc_ID q =s p) calls) end.

Definition is_leaf (calls : list LogicalCall) (c : LogicalCall) : bool :=
  negb (existsb (fun q => bool_decide (lc_Caller q = Some (lc_ID c))) calls).

(** Every tool call of the tables has an alias, so none is unknown. *)
Definition invocation_counts (f : AuditFilter) (d : DB) : InvocationCounts :=
  let calls := logical_calls (all_tools (keys (all_responses (keys (scope_turns f d)) d)) d) in
  mkInvocationCounts (count (is_host calls) calls) (count (is_leaf calls) calls)
    (count (fun c => lc_Result c && is_host calls c) calls) (count (fun c => lc_Result c && is_leaf calls c) calls) 0.

(** ** Versions of dimensions *)

(** valid_from <= t AND (valid_to > t OR valid_to IS NULL). *)
Definition version_at {A} (t : Z) (v : Version A) : bool :=
  (ve_From v <=? t)%Z && match ve_To v with None => true | Some e => (t <? e)%Z end.

Definition versions_of_owner {A} (get : DB -> gmap string (Version A)) (owner : string) (t asOf : Z) (d : DB) : list string :=
  fst <$> List.filter (fun v => (ve_Owner v.2 =s owner) && version_at t v.2 && (ve_From v.2 <=? asOf)%Z) (rows get d).

(** The pairs of versions of the turns of a selected session. *)
Definition version_pairs (f : AuditFilter) (d : DB) (l : Lineage) : list string :=
  match trajectory_of l, se_Project l.1.2 with
  | Some trajectory, Some project =>
      List.filter (fun t => (tu_Trajectory t.2 =s trajectory) && in_window f (tu_ObservedAt t.2)) (rows db_turns d) ≫= fun t =>
        versions_of_owner db_project_versions project (tu_ObservedAt t.2) (fl_AsOf f) d ≫= fun pv =>
          (fun sv => pv +:+ ":" +:+ sv)
          <$> versions_of_owner db_source_versions (se_Source l.1.2) (tu_ObservedAt t.2) (fl_AsOf f) d
  | _, _ => []
  end.

Definition dimension_pairs (f : AuditFilter) (d : DB) : list string :=
  sort_strings (elements (list_to_set (selected f d ≫= version_pairs f d) : gset string)).

(** ** The sources of the report *)

(** A row of the join: the kind, the version if any, the evidence if any. *)
Record SourceFact := mkSourceFact {
  sf_Kind : string;
  sf_Version : option SourceAttributes;
  sf_Evidence : option (Keyed ArtifactRow)
}.

Definition or_null {A} (l : list A) : list (option A) := match l with [] => [None] | _ => Some <$> l end.

Definition source_facts (f : AuditFilter) (d : DB) : list SourceFact :=
  selected f d ≫= fun l =>
    let source := se_Source l.1.2 in
    match db_sources d !! source with
    | None => []
    | Some src =>
        or_null (List.filter (fun v => (ve_Owner v.2 =s source) && version_at (fl_AsOf f) v.2) (rows db_source_versions d)) ≫= fun v =>
          (fun e => mkSourceFact (so_Kind src) ((fun v => ve_Value v.2) <$> v) e)
          <$> or_null (List.filter (fun e => bool_decide (ea_Session e.2 = Some (session_of l)) && (ea_Source e.2 =s source)
                                             && in_window f (ea_ObservedAt e.2) && evidence_in_scope f d e.1 l)
                         (rows db_artifacts d))
    end.

(** The aggregates of a kind and what the loop makes of them. *)
Definition source_fact (sha256_hex : string -> string) (g : string * list SourceFact) : ReportSourceFacts :=
  let versions := omap sf_Version g.2 in
  let evidence := omap sf_Evidence g.2 in
  let covered state := existsb (fun v => sa_CoverageState v =s state) versions in
  let version := match max_text (sa_AdapterVersion <$> versions) with
                 | Some v => if v =s "" then "unknown" else v
                 | None => "unknown"
                 end in
  let redacted := count (fun e => one_of (ea_Redaction e.2) ["applied"; "not_needed"]) evidence in
  let seen := bool_decide (evidence <> []) in
  {| rs_SourceKind := g.1;
     rs_Version := if negb (version =s "unknown") then opaque_alias sha256_hex version else version;
     rs_Freshness := if seen then "current" else "missing";
     rs_Coverage :=
       if covered "missing" then CoverageStateMissing
       else if covered "partial" then CoverageStatePartial
       else if covered "unknown" || bool_decide (versions = []) then CoverageStateUnknown else CoverageStateComplete;
     rs_RedactionState :=
       if (0 <? total evidence)%Z && (redacted =? total evidence)%Z then "complete"
       else if (0 <? redacted)%Z then "partial" else "unknown";
     rs_KnowledgeState := if seen then "observed" else "unknown" |}.

Definition report_sources (sha256_hex : string -> string) (f : AuditFilter) (d : DB) : list ReportSourceFacts :=
  source_fact sha256_hex <$> go_sort (fun a b => str_lt a.1 b.1) (group_by sf_Kind (source_facts f d)).

(** ** The counts of the scope *)

Definition distinct_count {A} (f : A -> string) (l : list A) : Z := total (distinct_of f l).

Definition report_scope_counts (f : AuditFilter) (d : DB) : ReportScopeCounts :=
  let scope := selected f d in
  let sessions := sessions_of scope in
  let included := scope_turns f d in
  let all := List.filter (fun t => member (tr_Session t.2) sessions) (rows db_trajectories d) in
  let candidates := turns_of f (fun _ => true) (keys all) d in
  let trajectories := total (omap trajectory_of scope) in
  let tools turns := distinct_count (fun c => tc_Alias c.2) (turn_tools f turns d) in
  let evidence := total (evidence_of_scope f d) in
  let all_evidence := count (fun e => match ea_Session e.2 with Some s => member s sessions | None => false end
                                      && in_window f (ea_ObservedAt e.2)) (rows db_artifacts d) in
  {| rsc_IncludedTrajectories := trajectories;
     rsc_ExcludedTrajectories := Some (total all - trajectories)%Z;
     rsc_IncludedTurns := total included;
     rsc_ExcludedTurns := Some (total candidates - total included)%Z;
     rsc_IncludedToolCalls := tools included;
     rsc_ExcludedToolCalls := Some (tools candidates - tools included)%Z;
     rsc_IncludedEvidence := evidence;
     rsc_ExcludedEvidence := Some (all_evidence - evidence)%Z |}.

(** ** Feedback on recommendations *)

(** A recommendation with its finding, revision and window. *)
Record Recommended := mkRecommended {
  rd_ID : string;
  rd_Row : RecommendationRow;
  rd_Finding : FindingRow;
  rd_Revision : RevisionRow;
  rd_Window : WindowRow
}.

Definition recommended (d : DB) : list Recommended :=
  omap (fun r =>
    finding ← rc_Finding r.2 ≫= (fun id => db_findings d !! id);
    revision ← db_revisions d !! fg_Revision finding;
    window ← db_windows d !! rv_Window revision;
    Some (mkRecommended r.1 r.2 finding revision window)) (rows db_recommendations d).

(** Columns of a recommendation, which may be NULL. *)
Definition recommendation_time (r : Recommended) (name : string) : Z := column_time (rc_Columns (rd_Row r)) name.

Definition feedback_wanted (project : string) (asOf : Z) (r : Recommended) : bool :=
  let row := rd_Row r in
  bool_decide (rc_Project row = Some project) && (recommendation_time r "created_at" <=? asOf)%Z
  && (Tables.wi_Kind (rd_Window r) =s "project")
  && negb (default (column (rc_Columns row) "recommendation_kind") (column_text (rc_Columns row) "action_code") =s "no_action").

(** ORDER BY updated_at DESC, as_of DESC, revision_number DESC, recommendation_id DESC. *)
Definition later_feedback (a b : Recommended) : bool :=
  let desc (x y : Z) (k : bool) := (y <? x)%Z || (x =? y)%Z && k in
  desc (recommendation_time a "updated_at") (recommendation_time b "updated_at")
    (desc (Tables.wi_AsOf (rd_Window a)) (Tables.wi_AsOf (rd_Window b))
      (desc (rv_Number (rd_Revision a)) (rv_Number (rd_Revision b)) (str_lt (rd_ID b) (rd_ID a)))).

(** The kind of the last event of a recommendation. *)
Definition last_event (recommendation : string) (asOf : Z) (d : DB) : option string :=
  head ((fun e => rn_Kind e.2) <$>
        go_sort (fun a b => (rn_ObservedAt b.2 <? rn_ObservedAt a.2)%Z
                            || (rn_ObservedAt b.2 =? rn_ObservedAt a.2)%Z && str_lt b.1 a.1)
          (List.filter (fun e => (rn_Recommendation e.2 =s recommendation) && (rn_ObservedAt e.2 <=? asOf)%Z)
             (rows db_recommendation_events d))).

Definition feedback_of (asOf : Z) (d : DB) (r : Recommended) : string * Feedback :=
  let row := rc_Columns (rd_Row r) in
  let known := (recommendation_time r "updated_at" <=? asOf)%Z in
  let state := match last_event (rd_ID r) asOf d with
               | Some kind => kind
               | None => if known then column row "lifecycle_state" else "proposed"
               end in
  (column (fg_Columns (rd_Finding r)) "finding_kind",
   mkFeedback state
     (if known then match row !! "cooldown_until" with Some (VTime t) => t | _ => zero_time end else zero_time)
     (column row "evidence_revision")).

(** The first row of a code counts. *)
Definition feedback_step (m : gmap string Feedback) (kv : string * Feedback) : gmap string Feedback :=
  match m !! kv.1 with Some _ => m | None => <[kv.1 := kv.2]> m end.

Definition recommendation_context (request : AuditProjectRequest) (d : DB) : RecommendationContext :=
  let asOf := apq_AsOf request in
  let feedback :=
    if apq_Scope request =s AuditScopeProject then
      foldl feedback_step ∅
        (feedback_of asOf d <$> go_sort later_feedback
           (List.filter (feedback_wanted (uuid_text (apq_Reference request)) asOf) (recommended d)))
    else ∅ in
  mkRecommendationContext asOf ((fun f => fb_State f =s "verified") <$> feedback) feedback "" ∅ false.
