(* ===== verification/AuditSnapshot.v ===== *)
(** * The snapshot of a project audit (internal/store/postgres/governance.go)

    [projectAuditSource] reads the scope, the window and 29 windows before it, in one transaction,
    and puts together what the engine works on.

    Arguments: [numeric_sum] and [numeric_shares] (sums of numeric columns, [AuditFacts]),
    [sha256_hex] (SHA-256 in hexadecimal), [encode_refs] (the JSON of a list of strings). *)
From Stdlib Require Import Ascii.
From S2P Require Import Contracts GoInt Runtime Metrics Baseline Diagnosis Workload AuditRequest Service.
From S2P Require Import AuditEngine Transactions Tables LineageRows AuditQueries AuditFacts.

(** ** Helpers *)

Definition guardrail_names : list string := ["tool_error_rate"; "validation_presence"; "privacy_redaction_coverage"].

Definition metricResultsByName (results : list MetricResult) : gmap string MetricResult :=
  foldl (fun m r => <[mr_Name r := r]> m) ∅ results.

Definition metric_of (m : gmap string MetricResult) (name : string) : MetricResult := default zero_metric (m !! name).

Definition guardrailState (name : string) (r : MetricResult) : string :=
  match mr_NativeValue r with
  | None => "unknown"
  | Some v =>
      if negb (mr_Coverage r =s CoverageStateComplete) then "unknown"
      else if name =s "tool_error_rate" then (if flt (float_lit 5 100) v then "fail" else "pass")
      else if flt v (float_lit 95 100) then "fail" else "pass"
  end.

Definition guardrails_pass (results : gmap string MetricResult) : bool :=
  forallb (fun name => guardrailState name (metric_of results name) =s "pass") guardrail_names.

(** [None] would be a panic of [Compute]. *)
Definition currentGuardrails (input : Input) : list GuardrailResult :=
  match Compute input with
  | Some (Ok results) =>
      let byName := metricResultsByName results in
      (fun name => let metric := metric_of byName name in
         mkGuardrailResult name (guardrailState name metric) (mr_Coverage metric) (mr_EvidenceRefs metric)) <$> guardrail_names
  | _ => []
  end.

Definition compatibleCount (values : list bool) : Z := count id values.

Definition relativeDirection (current prior threshold : float64) : Z :=
  if feq prior fzero then
    if feq current fzero then 0 else if flt fzero current then 1 else -1
  else
    let change := fdiv (fsub current prior) prior in
    if flt threshold change then 1 else if flt change (fsub (S754_zero true) threshold) then -1 else 0.

Definition persistenceState (current previous older : MetricResult) (d : MetricDefinition) : Z * bool :=
  match mr_NativeValue current, mr_NativeValue previous, mr_NativeValue older with
  | Some c, Some p, Some o =>
      if negb (mr_Version current =s mr_Version previous) || negb (mr_Version previous =s mr_Version older) then (0%Z, false)
      else
        let recent := relativeDirection c p (de_PracticalChange d) in
        let prior := relativeDirection p o (de_PracticalChange d) in
        if (recent =? 0)%Z then (0%Z, negb (prior =? 0)%Z)
        else if (recent =? prior)%Z then (2%Z, false)
        else (1%Z, negb (prior =? 0)%Z && negb (prior =? recent)%Z)
  | _, _, _ => (0%Z, false)
  end.

Definition boundedSlice {A} (values : list A) (limit : nat) (omitted : Z) : list A * Z :=
  if (length values <=? limit)%nat then (values, omitted)
  else (take limit values, (omitted + total values - Z.of_nat limit)%Z).

Definition set_window (request : AuditProjectRequest) (starts ends asOf : Z) : AuditProjectRequest :=
  mkAuditProjectRequest (apq_SchemaVersion request) (apq_Kind request) (apq_Scope request) (apq_Reference request)
    (apq_ConfiguredSources request) starts ends asOf (apq_Consent request).

Definition window_duration (request : AuditProjectRequest) : Z := time_sub (apq_EndsAt request) (apq_StartsAt request).

(** The window that ends at [ends], of the same duration; [Add] of a [time.Duration]. *)
Definition window_ending (request : AuditProjectRequest) (ends : Z) : AuditProjectRequest :=
  set_window request (ends + i64 (- window_duration request))%Z ends ends.

Definition previousAuditWindow (request : AuditProjectRequest) : option AuditProjectRequest :=
  if (window_duration request <=? 0)%Z then None else Some (window_ending request (apq_StartsAt request)).

(** The window [offset] windows before. *)
Definition prior_window (request : AuditProjectRequest) (offset : Z) : AuditProjectRequest :=
  window_ending request (apq_StartsAt request + i64 (- (offset - 1) * window_duration request))%Z.

Definition opaqueVersions (sha256_hex : string -> string) (signature : string) : list string :=
  opaque_alias sha256_hex <$> List.filter (fun part => negb (part =s "")) (split_on ","%char signature).

Definition decomposition_of (e : @Effects float64) : WorkloadDecomposition :=
  mkWorkloadDecomposition (ef_Metric e) (ef_Volume e) (ef_Mix e) (ef_Within e) (ef_Residual e)
    (ef_Status e) (ef_Classes e).

Section Source.
Context (numeric_sum : list float64 -> float64) (numeric_shares : list Share -> float64)
        (sha256_hex : string -> string) (encode_refs : list string -> string) (world : Outside DB).

Definition evidenceRevision (refs : list string) : string := sha256_hex (encode_refs (sort_strings refs)).

(** One statement that reads; reading its rows can fail as it can. *)
Definition ask {A} (operation : string) (f : DB -> A) : Tx DB A := query world operation (fun _ => f).

Definition tx_of {A} (r : result StableError A) : Tx DB A :=
  match r with Ok a => tx_ret a | Err e => tx_err (ErrContract e) end.

Definition read_metrics (f : AuditFilter) : Tx DB Input :=
  do! input := ask "query project audit metrics" (metrics_input numeric_sum f) in
  do! refs := ask "query project audit evidence" (evidence_refs f) in
  tx_ret (with_refs refs (in_Coverage input) input).

Definition read_confounder_signature (request : AuditProjectRequest) : Tx DB string :=
  do! f := tx_of (auditFilter request) in
  ask "query audit confounder signature" (confounder_signature f).

Definition versions_unavailable : StableError :=
  NewError ErrorCodeCoverageIncomplete "effective project/source versions unavailable" "as_of" false.

Definition dimensionSignature (request : AuditProjectRequest) : Tx DB string :=
  do! f := tx_of (auditFilter request) in
  do! pairs := ask "query audit dimension versions" (dimension_pairs f) in
  match pairs with
  | [] => tx_err (ErrContract versions_unavailable)
  | _ =>
      do! confounders := read_confounder_signature request in
      tx_ret (str_join "," (sort_strings (pairs ++ ["confounders:" +:+ confounders])))
  end.

(** Whether and what a call returned. *)
Definition tried {A} (m : Tx DB A) : Tx DB (option A) :=
  fun c => match m c with
           | (Ok a, c') => (Ok (Some a), c')
           | (Err _, c') => (Ok None, c')
           end.

(** [metrics.Compute]. *)
Definition tx_compute (input : Input) : Tx DB (list MetricResult) :=
  match Compute input with
  | Some (Ok results) => tx_ret results
  | Some (Err message) => tx_err (ErrMessage message)
  | None => tx_err (ErrMessage "panic")
  end.

(** One turn of the loop over the windows before: the metrics and whether they are comparable. *)
Definition read_window (request : AuditProjectRequest) (signature : string) (offset : Z)
    : Tx DB (gmap string MetricResult * bool) :=
  let prior := prior_window request offset in
  do! f := tx_of (auditFilter prior) in
  do! input := read_metrics f in
  do! results := tx_compute input in
  do! found := tried (dimensionSignature prior) in
  tx_ret (metricResultsByName results, bool_decide (found = Some signature)).

Fixpoint read_windows (request : AuditProjectRequest) (signature : string) (offsets : list Z)
    : Tx DB (list (gmap string MetricResult * bool)) :=
  match offsets with
  | [] => tx_ret []
  | offset :: rest =>
      do! w := read_window request signature offset in
      do! ws := read_windows request signature rest in
      tx_ret (w :: ws)
  end.

Definition baseline_window (name : string) (w : gmap string MetricResult * bool) (passes : bool) : Window :=
  let r := metric_of w.1 name in
  mkWindow (mr_NativeValue r) (mr_Coverage r) (mr_Version r) w.2 passes.

Definition no_window : gmap string MetricResult * bool := (∅, false).

(** The comparison of a metric with the windows before. *)
Definition comparison_of (windows : list (gmap string MetricResult * bool)) (current : gmap string MetricResult)
    (privacySuppressed : bool) (d : MetricDefinition) : Comparison :=
  let name := de_Name d in
  let at_index k := nth k windows no_window in
  let '(persistence, hysteresis) :=
    persistenceState (metric_of current name) (metric_of (at_index 0%nat).1 name) (metric_of (at_index 1%nat).1 name) d in
  {| cm_Previous := baseline_window name (at_index 0%nat) (guardrails_pass (at_index 0%nat).1);
     cm_Rolling := (fun w => baseline_window name w false) <$> take 7 (drop 1 windows);
     cm_Seasonal := (fun w => baseline_window name w false) <$> omap (fun k => windows !! k) [6; 13; 20; 27]%nat;
     cm_WorkloadExpected := None;
     cm_ConfoundersMatched := (at_index 0%nat).2 && (3 <=? compatibleCount (snd <$> drop 1 windows))%Z;
     cm_HysteresisActive := hysteresis;
     cm_PersistenceCount := persistence;
     cm_PrivacySuppressed := privacySuppressed |}.

Definition offsets : list Z := Z.of_nat <$> seq 1 29.

Definition comparisons (request : AuditProjectRequest) (currentInput : Input) (privacySuppressed : bool)
    : Tx DB (gmap string Comparison) :=
  fail_if! (window_duration request <=? 0)%Z with ErrMessage "invalid comparison duration" in
  do! signature := dimensionSignature request in
  do! windows := read_windows request signature offsets in
  do! results := tx_compute currentInput in
  tx_ret (foldl (fun m d => <[de_Name d := comparison_of windows (metricResultsByName results) privacySuppressed d]> m)
            ∅ Definitions).

Definition contributions (request : AuditProjectRequest) : Tx DB (list ScopeContribution) :=
  do! f := tx_of (auditFilter request) in
  do! found := ask "query audit contributions" (contributions_of numeric_shares f) in
  match found with
  | None => tx_err (ErrDatabase "decode audit contributions" "")
  | Some values => tx_ret values
  end.

Definition confounders (request : AuditProjectRequest) : Tx DB (list ConfounderStratum) :=
  do! f := tx_of (auditFilter request) in ask "query audit confounders" (confounder_strata f).

Definition previousConfoundersMatched (request : AuditProjectRequest) : Tx DB bool :=
  match previousAuditWindow request with
  | None => tx_err (ErrMessage "invalid confounder comparison duration")
  | Some previous =>
      do! current := read_confounder_signature request in
      do! before := read_confounder_signature previous in
      tx_ret (negb (current =s "unknown") && (current =s before))
  end.

Definition workloadValues (request : AuditProjectRequest) : Tx DB (list (@ClassValue float64)) :=
  do! f := tx_of (auditFilter request) in ask "query workload strata" (workload_values numeric_shares f).

Definition workloadEffects (request : AuditProjectRequest) : Tx DB (list WorkloadDecomposition) :=
  match previousAuditWindow request with
  | None => tx_err (ErrMessage "invalid workload duration")
  | Some previous =>
      do! current := workloadValues request in
      do! before := workloadValues previous in
      tx_ret [decomposition_of (Decompose "total_tokens" before current)]
  end.

Definition recommendationContext (request : AuditProjectRequest) : Tx DB RecommendationContext :=
  if apq_Scope request =s AuditScopeProject
  then ask "query recommendation feedback" (recommendation_context request)
  else tx_ret (recommendation_context request empty_db).

Definition with_material (revision : string) (c : RecommendationContext) : RecommendationContext :=
  mkRecommendationContext (rc_AsOf c) (rc_ExistingRuleCoverage c) (rc_Feedback c) revision (rc_EvidenceRevisions c)
    (rc_QualityGuardrailsPass c).

Definition with_matched (matched : bool) (s : ConfounderStratum) : ConfounderStratum :=
  mkConfounderStratum (cs_Kind s) (cs_State s) matched (cs_Confidence s) (cs_Provenance s).

Definition suppress_source (s : ReportSourceFacts) : ReportSourceFacts :=
  mkReportSourceFacts (rs_SourceKind s) (rs_Version s) (rs_Freshness s) (rs_Coverage s) "suppressed" "unknown".

Definition small_cohort (request : AuditProjectRequest) (input : Input) : bool :=
  ((apq_Scope request =s AuditScopeTask) || (apq_Scope request =s AuditScopeTrajectory))
  && (in_CompletedTurns input <? 3)%Z.

(** What was read, before it is put together. *)
Record Reads := mkReads {
  rx_Metrics : Input;
  rx_Overhead : Input;
  rx_Passive : list string;
  rx_Repeated : list string;
  rx_Comparisons : gmap string Comparison;
  rx_Contributions : list ScopeContribution;
  rx_Confounders : list ConfounderStratum;
  rx_Signature : string;
  rx_Sources : list ReportSourceFacts;
  rx_Counts : ReportScopeCounts;
  rx_Invocations : InvocationCounts;
  rx_Workload : list WorkloadDecomposition;
  rx_Context : RecommendationContext
}.

(** The end of [Snapshot]: what a small cohort would reveal is left out, what is long is cut. *)
Definition assemble (request : AuditProjectRequest) (suppressed : bool) (r : Reads) : Snapshot :=
  let unless_private {A} (nothing x : A) : A := if suppressed then nothing else x in
  let '(contributions, omitted) := boundedSlice (unless_private [] (rx_Contributions r)) 100 0 in
  let '(confounders, omitted) := boundedSlice (unless_private [] (rx_Confounders r)) 100 omitted in
  let '(workload, omitted) := boundedSlice (unless_private [] (rx_Workload r)) 40 omitted in
  let '(versions, omitted) := boundedSlice (opaqueVersions sha256_hex (rx_Signature r)) 100 omitted in
  {| sn_Reference := unless_private (opaque_alias sha256_hex (apq_Reference request)) (apq_Reference request); sn_Scope := apq_Scope request;
     sn_StartsAt := apq_StartsAt request; sn_EndsAt := apq_EndsAt request; sn_AsOf := apq_AsOf request;
     sn_Coverage := in_Coverage (rx_Metrics r); sn_Metrics := rx_Metrics r;
     sn_GovernanceOverhead := rx_Overhead r;
     sn_PassivePollingRefs := unless_private [] (rx_Passive r);
     sn_RepeatedCallRefs := unless_private [] (rx_Repeated r); sn_NecessaryWorkRefs := [];
     sn_Comparisons := rx_Comparisons r;
     sn_Window := mkAuditWindowProvenance (apq_StartsAt request) (apq_EndsAt request) (apq_AsOf request) "UTC"
                    Baseline.Version "logical-invocation-v1" "workload-v1" versions 1 false;
     sn_Contributions := contributions; sn_ConfounderStrata := confounders;
     sn_Guardrails := currentGuardrails (rx_Metrics r);
     sn_WorkloadEffects := workload;
     sn_InvocationCounts := unless_private (mkInvocationCounts 0 0 0 0 0) (rx_Invocations r);
     sn_ReportScopeCounts := unless_private (mkReportScopeCounts 0 None 0 None 0 None 0 None) (rx_Counts r);
     sn_ReportSources := if suppressed then suppress_source <$> rx_Sources r else rx_Sources r;
     sn_PrivacySuppressed := suppressed; sn_OmittedCount := omitted;
     sn_RecommendationContext := with_material (evidenceRevision (in_EvidenceRefs (rx_Metrics r))) (rx_Context r) |}.

Definition snapshot (request : AuditProjectRequest) : Tx DB Snapshot :=
  do! f := tx_of (auditFilter request) in
  do! input := read_metrics f in
  let suppressed := small_cohort request input in
  let input := if suppressed then with_refs [] CoverageStatePartial input else input in
  do! overhead := ask "query governance overhead" (overhead_input numeric_sum f) in
  do! passive := ask "query audit tool evidence" (tool_refs f "passive_wait") in
  do! repeated := ask "query audit tool evidence" (tool_refs f "repeated_unchanged") in
  do! compared := comparisons request input suppressed in
  do! shares := contributions request in
  do! strata := confounders request in
  do! matched := previousConfoundersMatched request in
  do! signature := dimensionSignature request in
  do! sources := ask "query audit report sources" (report_sources sha256_hex f) in
  do! counts := ask "query audit report scope counts" (report_scope_counts f) in
  do! invocations := ask "query logical invocation counts" (invocation_counts f) in
  do! workload := workloadEffects request in
  do! context := recommendationContext request in
  tx_ret (assemble request suppressed
            (mkReads input overhead passive repeated compared shares (with_matched matched <$> strata) signature sources
               counts invocations workload context)).
End Source.
