(* ===== verification/AuditPersist.v ===== *)
(** * Persisting a project audit (internal/store/postgres/governance.go)

    An audit becomes a revision of its window, numbered after the revisions before it, with its
    metrics, findings and recommendations and links to its evidence; the same audit again finds
    the revision that is there.

    Arguments, besides those of [AuditSnapshot]: [sha256] (32 bytes), [md5_uuid] (the identifier
    that PostgreSQL makes of the MD5 of a text), [encode_definition] and [marshal_evaluated] and
    [marshal_run] (JSON), and those of the engine. *)
From Stdlib Require Import Ascii.
From S2P Require Import Contracts GoInt Runtime Metrics Baseline Diagnosis Workload AuditRequest Service.
From S2P Require Import AuditEngine GoFmt Replay Snapshots Transactions Tables LineageRows Leases.
From S2P Require Import AuditQueries AuditFacts AuditSnapshot.

(** ** Helpers *)

(** [Time.String] in UTC. *)
Definition fmt_utc (ns : Z) : string :=
  let s := trim_suffix "Z" (fmt_time_nano ns) in
  str_take 10 s +:+ " " +:+ str_drop 11 s +:+ " +0000 UTC".

Definition auditWindowKey (request : AuditProjectRequest) : string :=
  "audit-window:" +:+ str_join ":" [EngineVersion; apq_Scope request; apq_Reference request;
                                    fmt_utc (apq_StartsAt request); fmt_utc (apq_EndsAt request)].

Definition decodeAuditRevisionHash (value : string) : option string :=
  match hex_decode value with
  | Some decoded => if (str_len decoded =? 32)%Z then Some decoded else None
  | None => None
  end.

Fixpoint gate_loop (guardrails : list GuardrailResult) (state : string) : string :=
  match guardrails with
  | [] => state
  | g :: rest => if gr_State g =s "fail" then "fail" else gate_loop rest (if gr_State g =s "pass" then state else "unknown")
  end.

Definition evaluationQualityGate (r : AuditProjectResult) : string := gate_loop (apr_Guardrails r) "pass".

Fixpoint outcome_loop (metrics : list MetricResult) (outcome : string) : string :=
  match metrics with
  | [] => outcome
  | m :: rest =>
      if mr_Status m =s MetricStatusWorsened then "regressed"
      else outcome_loop rest
             (if one_of (mr_Status m) [MetricStatusMixed; MetricStatusInsufficient] then "mixed"
              else if mr_Status m =s MetricStatusImproved then (if outcome =s "unchanged" then "improved" else outcome)
              else outcome)
  end.

Definition evaluationOutcome (r : AuditProjectResult) : string := outcome_loop (apr_Metrics r) "unchanged".

Definition confidenceValue (value : string) : option float64 :=
  if value =s "high" then Some (float_lit 90 100)
  else if value =s "medium" then Some (float_lit 65 100)
  else if value =s "low" then Some (float_lit 35 100) else None.

Definition recommendationFindingCode (code : string) : string :=
  default "" ((list_to_map
    [("restore_scope_attribution", "scope_attribution_gap"); ("complete_checkpoint_contract", "checkpoint_gap");
     ("wait_on_state_change", "passive_polling"); ("reuse_unchanged_evidence", "repeated_unchanged_call");
     ("validate_after_mutation", "missing_validation"); ("restore_redaction_coverage", "privacy_redaction_gap")]
    : gmap string string) !! code).

Definition firstFindingID (values : gmap string string) : string :=
  match sort_strings (map_to_list values).*1 with
  | [] => ""
  | key :: _ => default "" (values !! key)
  end.

(** What [eval.NewRun] is given, values of any type. *)
Inductive Evaluated :=
  | EvaluatedFixture (scope reference : string) (startsAt endsAt asOf : Z) (sources : list string)
  | EvaluatedWindow (w : AuditWindowProvenance)
  | EvaluatedText (s : string)
  | EvaluatedDefinitions (l : list MetricDefinition).

Definition set_revision (number : Z) (late : bool) (r : AuditProjectResult) : AuditProjectResult :=
  let w := apr_Window r in
  mkAuditProjectResult (apr_SchemaVersion r) (apr_Kind r) (apr_AuditReference r) (apr_Scope r) (apr_AsOf r)
    (apr_RevisionHash r) (apr_Coverage r) (apr_Metrics r) (apr_Findings r) (apr_Recommendations r)
    (apr_GovernanceOverhead r)
    (mkAuditWindowProvenance (aw_StartsAt w) (aw_EndsAt w) (aw_AsOf w) (aw_Timezone w) (aw_BaselineVersion w)
       (aw_CountingMode w) (aw_WorkloadVersion w) (aw_SourceVersions w) number late)
    (apr_Contributions r) (apr_WorkloadEffects r) (apr_InvocationCounts r) (apr_Outliers r) (apr_Confounders r)
    (apr_Guardrails r) (apr_DerivationMethod r) (apr_OmittedCount r) (apr_ReportFacts r).

(** ** Statements *)

(** The last policy snapshot of a project: ORDER BY observed_at DESC, execution_event_id DESC. *)
Definition policy_of (project : option string) (asOf : Z) (d : DB) : option (string * string * bool * bool) :=
  project ← project;
  e ← head (go_sort (fun a b => (column_time b.2 "observed_at" <? column_time a.2 "observed_at")%Z
                                || (column_time b.2 "observed_at" =? column_time a.2 "observed_at")%Z && str_lt b.1 a.1)
              (List.filter (fun e => column_is e.2 "event_kind" "policy_snapshot" && column_is e.2 "project_id" project
                                     && (column_time e.2 "observed_at" <=? asOf)%Z) (rows db_events d)));
  let flag name := match e.2 !! "attributes" with
                   | Some (VJson object) =>
                       match find_first (fun kv => kv.1 =s name) object with Some (_, Some (VBool b)) => b | _ => false end
                   | _ => false
                   end in
  Some (column e.2 "event_name", column e.2 "content_hash", flag "raw_retention_enabled", flag "telemetry_enabled").

Definition put_window (id : string) (project : option string) (request : AuditProjectRequest) (d : DB)
    : result string (unit * DB) :=
  insert_once db_windows id
    (mkWindowRow project (apq_Scope request) (apq_StartsAt request) (apq_EndsAt request) (apq_AsOf request)
       (policy_of project (apq_AsOf request) d)) (refers_opt db_projects project) d.

(** The revisions of a window, the one with the greatest number, and the next number. *)
Definition window_revisions (window : string) (d : DB) : list (Keyed RevisionRow) :=
  List.filter (fun r => rv_Window r.2 =s window) (rows db_revisions d).

Definition last_revision (window : string) (d : DB) : option (Keyed RevisionRow) :=
  head (go_sort (fun a b => (rv_Number b.2 <? rv_Number a.2)%Z) (window_revisions window d)).

Definition next_revision (window : string) (d : DB) : Z * option string :=
  match last_revision window d with
  | None => (1%Z, None)
  | Some (id, r) => ((rv_Number r + 1)%Z, Some id)
  end.

(** A number is used once in a window. *)
Definition number_taken (row : RevisionRow) (d : DB) : bool :=
  existsb (fun r => (rv_Window r.2 =s rv_Window row) && (rv_Number r.2 =? rv_Number row)%Z) (rows db_revisions d).

Definition put_revision (id : string) (row : RevisionRow) (d : DB) : result string (unit * DB) :=
  match db_revisions d !! id with
  | Some _ => Ok (tt, d)
  | None =>
      if number_taken row d then Err unique_violation
      else insert_once db_revisions id row
             (fun d => refers db_windows (rv_Window row) d && refers_opt db_revisions (rv_Prior row) d) d
  end.

(** ON CONFLICT (metric_name, metric_version) DO NOTHING; whether a row was written. *)
Definition definition_of (name version : string) (d : DB) : option MetricDefinitionRow :=
  snd <$> find_first (fun kv => (md_Name kv.2 =s name) && (md_Version kv.2 =s version)) (rows db_definitions d).

Definition put_definition (id : string) (row : MetricDefinitionRow) (d : DB) : result string (bool * DB) :=
  match definition_of (md_Name row) (md_Version row) d with
  | Some _ => Ok (false, d)
  | None => let! r := insert_row db_definitions id row (fun _ => true) d in Ok (true, r.2)
  end.

(** ON CONFLICT (audit_revision_id, metric_name, metric_version) DO NOTHING. *)
Definition result_taken (row : MetricResultRow) (d : DB) : bool :=
  existsb (fun r => (ms_Revision r.2 =s ms_Revision row) && (ms_Name r.2 =s ms_Name row)
                    && (ms_Version r.2 =s ms_Version row)) (rows db_results d).

Definition put_result (id : string) (row : MetricResultRow) (d : DB) : result string (unit * DB) :=
  if result_taken row d then Ok (tt, d)
  else insert_row db_results id row
         (fun d => refers db_revisions (ms_Revision row) d && refers db_evaluations (ms_Evaluation row) d
                   && refers db_definitions (ms_Definition row) d) d.

(** INSERT ... SELECT ... WHERE EXISTS the evidence. *)
Definition link_row (evidence kind target : string) (createdAt : Z) : Columns :=
  columns [("evidence_artifact_id", text evidence); ("target_kind", text kind); ("target_id", text target);
           ("link_kind", text "supports"); ("created_at", Some (VTime createdAt))].

Definition put_support (id ref kind target : string) (createdAt : Z) (d : DB) : result string (unit * DB) :=
  if refers db_artifacts ref d then insert_once db_links id (link_row ref kind target createdAt) (fun _ => true) d
  else Ok (tt, d).

Definition linked_evidence (revision : string) (d : DB) : gset string :=
  list_to_set (omap (fun l => if column_is l.2 "target_kind" "audit_revision" && column_is l.2 "target_id" revision
                              then column_text l.2 "evidence_artifact_id" else None) (rows db_links d)).

Definition has_new_evidence (revision prior : string) (d : DB) : bool :=
  negb (bool_decide (linked_evidence revision d ⊆ linked_evidence prior d)).

Section Persist.
Context (numeric_sum : list float64 -> float64) (numeric_shares : list Share -> float64)
        (sha256 md5_uuid : string -> string) (sha256_hex : string -> string) (encode_refs : list string -> string)
        (encode_definition : MetricDefinition -> option string)
        (marshal_evaluated : Evaluated -> option string) (marshal_run : EvalRun -> option string)
        (encode_payload : Snapshot -> list MetricResult -> list AuditFinding -> list AuditRecommendation -> option string)
        (marshal : AuditProjectResult -> option string) (json_copy : AuditProjectResult -> option AuditProjectResult)
        (world : Outside DB).

Abbreviation uuid := (collectionBatchUUID sha256) (only parsing).

Definition window_id (request : AuditProjectRequest) : string := uuid (auditWindowKey request).
Definition revision_id (revisionHash : string) : string := uuid ("audit-revision:" +:+ revisionHash).

Definition lineage_unavailable : StableError :=
  NewError ErrorCodeCoverageIncomplete "single project lineage unavailable" "reference" false.

(** DISTINCT project_id LIMIT 2. *)
Definition lineage_projects (f : AuditFilter) (d : DB) : list (option string) :=
  take 2 (remove_dups ((fun l : Lineage => se_Project l.1.2) <$> selected f d)).

Definition projectIDForAudit (request : AuditProjectRequest) : Tx DB (option string) :=
  if apq_Scope request =s AuditScopePortfolio then tx_ret None
  else if apq_Scope request =s AuditScopeProject then tx_ret (Some (uuid_text (apq_Reference request)))
  else
    do! f := tx_of (auditFilter request) in
    do! values := ask world "resolve audit project lineage" (lineage_projects f) in
    match mapM id values with
    | None => tx_err (ErrDatabase "decode audit project lineage" "")
    | Some [project] => tx_ret (Some project)
    | Some _ => tx_err (ErrContract lineage_unavailable)
    end.

Definition persistMetricDefinition (d : MetricDefinition) : Tx DB unit :=
  match encode_definition d with
  | None => tx_err (ErrMessage "encode metric definition")
  | Some encoded =>
      let row created := mkMetricDefinitionRow (de_Name d) (de_Version d) (sha256 encoded)
        (columns [("native_unit", text (de_NativeUnit d)); ("polarity", text (de_Polarity d));
                  ("minimum_sample", Some (VInt (de_MinimumSample d))); ("practical_change", Some (VFloat (de_PracticalChange d)));
                  ("definition_json", text encoded)]) created in
      do! written := exec world "persist metric definition"
        (fun n => put_definition (uuid ("metric-definition:" +:+ de_Name d +:+ ":" +:+ de_Version d)) (row (ou_clock world n))) in
      if written : bool then tx_ret tt
      else
        do! found := ask world "read metric definition" (definition_of (de_Name d) (de_Version d)) in
        match found with
        | None => tx_err (ErrDatabase "read metric definition" "")
        | Some persisted =>
            fail_if! negb (md_Hash persisted =s sha256 encoded)
              with ErrMessage "metric definition version conflicts with persisted content" in tx_ret tt
        end
  end.

Definition persistMetricDefinitions : Tx DB unit := tx_each persistMetricDefinition Definitions.

(** The evidence of the scope; a link of an earlier time stays. *)
Definition put_revision_links (revision : string) (f : AuditFilter) (d : DB) : result string (unit * DB) :=
  foldl (fun r e =>
           let! r := r in
           insert_once db_links (md5_uuid (revision +:+ ":" +:+ e.1)) (link_row e.1 "audit_revision" revision (fl_AsOf f))
             (refers db_artifacts e.1) r.2)
    (Ok (tt, d)) (evidence_of_scope f d).

Definition persistRevisionEvidence (revision : string) (request : AuditProjectRequest) : Tx DB unit :=
  do! f := tx_of (auditFilter request) in
  exec world "persist audit revision evidence links" (fun _ => put_revision_links revision f).

Definition hasNewRevisionEvidence (revision : string) (prior : option string) : Tx DB bool :=
  match prior with
  | None => tx_ret false
  | Some prior => ask world "compare audit revision evidence" (has_new_evidence revision prior)
  end.

Definition comparison_of_audit (r : AuditProjectResult) : Replay.Comparison :=
  Replay.mkComparison "" (apr_RevisionHash r) (list_to_map (rev ((fun m => (mr_Name m, mr_Status m)) <$> apr_Metrics r)))
    (evaluationOutcome r) (evaluationQualityGate r).

Definition hash_column (hash : string) : option SqlValue := Some (VText (default "" (hex_decode hash))).

Definition persistEvaluationRun (revision : string) (request : AuditProjectRequest) (r : AuditProjectResult) : Tx DB string :=
  let fixture := EvaluatedFixture (apq_Scope request) (apq_Reference request) (apq_StartsAt request) (apq_EndsAt request)
                   (apq_AsOf request) (sort_strings (apq_ConfiguredSources request)) in
  match NewRun marshal_evaluated marshal_run sha256_hex "eval-v1" fixture (EvaluatedWindow (apr_Window r))
          (EvaluatedText "observed-local-model") (EvaluatedText "compiler-v1") (EvaluatedText "recommendation-v1")
          (EvaluatedDefinitions Definitions) (comparison_of_audit r) with
  | Err message => tx_err (ErrMessage message)
  | Ok run =>
      let evaluation := uuid (revision +:+ ":evaluation") in
      do! _ := exec world "persist project audit evaluation" (fun _ =>
        insert_once db_evaluations evaluation
          (mkEvaluationRow revision
             (columns [("evaluator_name", text "deterministic_governance"); ("evaluator_version", text "eval-v1");
                       ("started_at", Some (VTime (apq_AsOf request))); ("completed_at", Some (VTime (apq_AsOf request)));
                       ("outcome", text "complete"); ("knowledge_state", text "observed");
                       ("fixture_hash", hash_column (ev_FixtureHash run)); ("config_hash", hash_column (ev_ConfigHash run));
                       ("model_hash", hash_column (ev_ModelHash run)); ("compiler_hash", hash_column (ev_CompilerHash run));
                       ("policy_hash", hash_column (ev_PolicyHash run)); ("metric_hash", hash_column (ev_MetricHash run));
                       ("run_hash", hash_column (ev_RunHash run)); ("decision", text (ev_Decision run))]))
          (refers db_revisions revision)) in
      tx_ret evaluation
  end.

Definition persistEvidenceLinks (revision kind target : string) (refs : list string) (observedAt : Z) : Tx DB unit :=
  tx_each (fun ref => exec world "persist audit evidence link" (fun _ =>
             put_support (uuid (str_join ":" [revision; kind; target; ref])) ref kind target observedAt)) refs.

Definition float_column (f : option float64) : option SqlValue := VFloat <$> f.

Definition persistMetricResult (revision evaluation : string) (computedAt : Z) (m : MetricResult) : Tx DB unit :=
  let id := uuid (revision +:+ ":metric:" +:+ mr_Name m +:+ ":" +:+ mr_Version m) in
  do! _ := exec world "persist project audit metric" (fun _ =>
    put_result id
      (mkMetricResultRow revision evaluation (uuid ("metric-definition:" +:+ mr_Name m +:+ ":" +:+ mr_Version m)) (mr_Name m)
         (mr_Version m)
         (columns [("native_value", float_column (mr_NativeValue m)); ("native_unit", text (mr_NativeUnit m));
                   ("numerator", float_column (mr_Numerator m)); ("denominator", float_column (mr_Denominator m));
                   ("sample_count", Some (VInt (mr_SampleCount m))); ("coverage_state", text (mr_Coverage m));
                   ("provenance", text "derived"); ("status", text (mr_Status m)); ("uncertainty", text (mr_Uncertainty m));
                   ("exclusions", text (encode_refs (mr_Exclusions m))); ("computed_at", Some (VTime computedAt));
                   ("previous_value", float_column (mr_PreviousValue m)); ("rolling_median", float_column (mr_RollingMedian m));
                   ("rolling_mad", float_column (mr_RollingMAD m));
                   ("baseline_sample_count", Some (VInt (mr_BaselineSampleCount m)));
                   ("workload_adjusted_residual", float_column (mr_WorkloadAdjustedResidual m));
                   ("status_reason", text (mr_StatusReason m)); ("confidence_label", text (mr_Confidence m))]))) in
  persistEvidenceLinks revision "metric_result" id (mr_EvidenceRefs m) computedAt.

Definition persistConfounder (revision : string) (asOf : Z) (s : ConfounderStratum) : Tx DB unit :=
  put_observation world "persist project audit confounder"
    (uuid (str_join ":" [revision; "confounder"; cs_Kind s; cs_State s; cs_Provenance s]))
    (columns [("observation_kind", text "confounder"); ("schema_version", text "1"); ("audit_revision_id", text revision);
              ("metric_kind", text (cs_Kind s)); ("state_value", text (cs_State s)); ("provenance", text (cs_Provenance s));
              ("confidence", float_column (confidenceValue (cs_Confidence s))); ("observed_at", Some (VTime asOf));
              ("knowledge_state", text "observed")]).

Definition finding_id (revision code : string) : string := uuid (revision +:+ ":finding:" +:+ code).

Definition persistFinding (revision : string) (asOf : Z) (f : AuditFinding) : Tx DB unit :=
  let id := finding_id revision (af_Code f) in
  do! _ := exec world "persist project audit finding" (fun _ =>
    insert_once db_findings id
      (mkFindingRow revision
         (columns [("finding_kind", text (af_Code f)); ("detector_name", text (af_Detector f));
                   ("detector_version", text (af_DetectorVersion f));
                   ("confidence", float_column (confidenceValue (af_Confidence f)));
                   ("status", text (af_Classification f)); ("created_at", Some (VTime asOf)); ("cause", text (af_Cause f));
                   ("exception_check", text (af_ExceptionCheck f));
                   ("counterevidence", text (encode_refs (af_Counterevidence f)))]))
      (refers db_revisions revision)) in
  persistEvidenceLinks revision "finding" id (af_EvidenceRefs f) asOf.

(** The finding of a recommendation, or the first one if its own is not there. *)
Definition finding_of_recommendation (findings : gmap string string) (code : string) : string :=
  let own := default "" (findings !! recommendationFindingCode code) in
  if own =s "" then firstFindingID findings else own.

Definition persistRecommendation (revision : string) (project : option string) (asOf : Z) (findings : gmap string string)
    (r : AuditRecommendation) : Tx DB unit :=
  let finding := nullableString (finding_of_recommendation findings (ar_Code r)) in
  exec world "persist project audit recommendation" (fun _ =>
    insert_once db_recommendations (uuid (revision +:+ ":recommendation:" +:+ ar_Code r))
      (mkRecommendationRow revision finding project
         (columns [("recommendation_kind", text (ar_Code r)); ("lifecycle_state", text (ar_LifecycleState r));
                   ("approval_required", Some (VBool (ar_ApprovalRequired r)));
                   ("verification_kind", text (ar_Verification r)); ("action_code", text (ar_Code r));
                   ("policy_version", text (ar_PolicyVersion r)); ("cooldown_until", None);
                   ("evidence_revision", text (evidenceRevision sha256_hex encode_refs (ar_EvidenceRefs r)));
                   ("created_at", Some (VTime asOf)); ("updated_at", Some (VTime asOf));
                   ("target_surface", text (ar_TargetSurface r)); ("action_text", text (ar_Action r));
                   ("expected_movement", text (ar_ExpectedMovement r));
                   ("protected_guardrails", text (encode_refs (ar_ProtectedGuardrails r)));
                   ("risks", text (encode_refs (ar_Risks r)))]))
      (fun d => refers db_revisions revision d && refers_opt db_findings finding d && refers_opt db_projects project d)).

Definition finding_ids (revision : string) (findings : list AuditFinding) : gmap string string :=
  foldl (fun m f => <[af_Code f := finding_id revision (af_Code f)]> m) ∅ findings.

(** The number of the revision and the revision before it: those of the row, or the next ones. *)
Definition read_revision (window revision : string) : Tx DB (Z * option string) :=
  do! known := ask world "read project audit revision" (fun d => (fun r => (rv_Number r, rv_Prior r)) <$> db_revisions d !! revision) in
  match known with
  | Some found => tx_ret found
  | None => ask world "read project audit revision" (next_revision window)
  end.

Definition persistAuditProject (request : AuditProjectRequest) (r : AuditProjectResult) : Tx DB AuditProjectResult :=
  match decodeAuditRevisionHash (apr_RevisionHash r) with
  | None => tx_err (ErrMessage "invalid audit revision hash")
  | Some hash =>
      let window := window_id request in
      let revision := revision_id (apr_RevisionHash r) in
      let asOf := apq_AsOf request in
      do! project := projectIDForAudit request in
      do! _ := exec world "persist project audit window" (fun _ => put_window window project request) in
      do! (number, prior) := read_revision window revision in
      do! _ := exec world "persist project audit revision" (fun _ =>
        put_revision revision (mkRevisionRow window number asOf (apr_Coverage r) hash asOf prior EngineVersion)) in
      do! _ := persistMetricDefinitions in
      do! _ := persistRevisionEvidence revision request in
      do! late := hasNewRevisionEvidence revision prior in
      let persisted := set_revision number late r in
      do! evaluation := persistEvaluationRun revision request persisted in
      do! _ := tx_each (persistMetricResult revision evaluation asOf) (apr_Metrics r) in
      do! _ := tx_each (persistConfounder revision asOf) (apr_Confounders r) in
      do! _ := tx_each (persistFinding revision asOf) (apr_Findings r) in
      do! _ := tx_each (persistRecommendation revision project asOf (finding_ids revision (apr_Findings r))) (apr_Recommendations r) in
      tx_ret persisted
  end.

(** ** The audit *)

(** The outcome of the engine; the text of a plain error is not known here. *)
Definition tx_of_tool {A} (r : option (result ToolError A)) : Tx DB A :=
  match r with
  | Some (Ok a) => tx_ret a
  | Some (Err (Stable e)) => tx_err (ErrContract e)
  | _ => tx_err (ErrMessage "project audit failed")
  end.

(** [engine.Run]: the source is read only for a valid request. *)
Definition engine_run (request : AuditProjectRequest) : Tx DB AuditProjectResult :=
  match ValidateRequest request with
  | Some e => tx_err (ErrContract e)
  | None =>
      do! s := snapshot numeric_sum numeric_shares sha256_hex encode_refs world request in
      tx_of_tool (audit_snapshot encode_payload encode_refs sha256_hex s)
  end.

Definition audit_tx (request : AuditProjectRequest) : Tx DB AuditProjectResult :=
  do! r := engine_run request in
  do! _ := tx_of_tool (BoundResult marshal json_copy (set_revision max_i64 true r)) in
  persistAuditProject request r.

(** The lock of the window makes audits of it wait for each other; it is given back whatever
    happens. *)
Definition AuditProject (request : AuditProjectRequest) : Tx DB AuditProjectResult :=
  do! _ := ask world "acquire audit connection" (fun _ => tt) in
  do! _ := ask world "lock audit revision" (fun _ => tt) in
  fun c =>
    let '(r, c) := withSerializable world (Some (audit_tx request)) c in
    let '(_, c) := tried (ask world "unlock audit revision" (fun _ => tt)) c in
    match r with
    | Err e => (Err e, c)
    | Ok canonical => tx_of_tool (BoundResult marshal json_copy canonical) c
    end.
End Persist.
