(* ===== verification/Audited.v ===== *)
(** * What a project audit leaves (internal/store/postgres/governance.go)

    [AuditProject] writes rows of audits only, numbers the revisions of a window without gaps and
    never commits a result that it then cannot return. *)
From S2P Require Import Contracts GoInt Metrics Baseline Diagnosis AuditRequest Service.
From S2P Require Import GoFmt AuditEngine AuditBudget Replay Transactions Tables LineageRows.
From S2P Require Import Versions Snapshots AuditQueries AuditFacts AuditSnapshot AuditPersist.

(** ** What is written *)

(** Everything that is not of an audit. *)
Definition collected (d : DB) :=
  (db_projects d, db_project_versions d, db_sources d, db_source_versions d, db_cursors d, db_sessions d,
   db_trajectories d, db_tasks d, db_turns d, db_responses d, db_phases d, db_items d, db_epochs d, db_tool_calls d,
   db_artifacts d, db_events d, db_keys d, db_aliases d, db_policies d, db_actions d, db_archives d,
   db_action_entities d, db_recommendation_events d).

(** The rows of audits besides windows and revisions. *)
Definition details_grow (d d' : DB) : Prop :=
  db_links d ⊆ db_links d' /\ db_observations d ⊆ db_observations d' /\ db_evaluations d ⊆ db_evaluations d'
  /\ db_definitions d ⊆ db_definitions d' /\ db_results d ⊆ db_results d' /\ db_findings d ⊆ db_findings d'
  /\ db_recommendations d ⊆ db_recommendations d'.

(** A statement that adds such rows and changes nothing else. *)
Definition adds_details (d d' : DB) : Prop :=
  collected d' = collected d /\ db_windows d' = db_windows d /\ db_revisions d' = db_revisions d /\ details_grow d d'.

#[export] Instance details_grow_preorder : PreOrder details_grow.
Proof.
  split; [by intros d; split_and!|]. unfold details_grow.
  intros d1 d2 d3 (? & ? & ? & ? & ? & ? & ?) (? & ? & ? & ? & ? & ? & ?). split_and!; by etrans.
Qed.

#[export] Instance adds_details_preorder : PreOrder adds_details.
Proof.
  split; [by intros d|]. intros d1 d2 d3 (C1 & W1 & R1 & G1) (C2 & W2 & R2 & G2).
  split_and!; [congruence..|by etrans].
Qed.

Section Adds.
Context {R : Type} (get : DB -> gmap string R) `{!Table get} (related : relation DB) `{!Reflexive related}.

Lemma insert_once_adds id row references d u d' :
  (get d !! id = None -> related d (set_row get id row d)) ->
  insert_once get id row references d = Ok (u, d') -> related d d'.
Proof using Reflexive0. intros H [[-> _]|(Hn & _ & ->)]%insert_once_ok; [done|]. by apply H. Qed.

Lemma insert_row_adds id row references d u d' :
  (get d !! id = None -> related d (set_row get id row d)) ->
  insert_row get id row references d = Ok (u, d') -> related d d'.
Proof using. intros H (Hn & _ & ->)%insert_row_ok. by apply H. Qed.
End Adds.

Ltac adds_row := intros; unfold adds_details, details_grow; split_and!; try done; by apply insert_subseteq.

(** The evidence that is linked to a revision stays what it is. *)
Definition same_links (d d' : DB) : Prop := forall revision, linked_evidence revision d' = linked_evidence revision d.

Definition adds_quietly (d d' : DB) : Prop := adds_details d d' /\ same_links d d'.

#[export] Instance adds_quietly_preorder : PreOrder adds_quietly.
Proof.
  split; [by intros d; split|]. intros d1 d2 d3 [A1 L1] [A2 L2]. split; [by etrans|]. intros r. by rewrite L2, L1.
Qed.

Lemma link_adds id row d : db_links d !! id = None -> adds_details d (set_row db_links id row d).
Proof. adds_row. Qed.
Lemma definition_adds id row d : db_definitions d !! id = None -> adds_details d (set_row db_definitions id row d).
Proof. adds_row. Qed.
Lemma observation_adds id row d : db_observations d !! id = None -> adds_quietly d (set_row db_observations id row d).
Proof. split; [adds_row|done]. Qed.
Lemma evaluation_adds id row d : db_evaluations d !! id = None -> adds_quietly d (set_row db_evaluations id row d).
Proof. split; [adds_row|done]. Qed.
Lemma result_adds id row d : db_results d !! id = None -> adds_quietly d (set_row db_results id row d).
Proof. split; [adds_row|done]. Qed.
Lemma finding_adds id row d : db_findings d !! id = None -> adds_quietly d (set_row db_findings id row d).
Proof. split; [adds_row|done]. Qed.
Lemma recommendation_adds id row d : db_recommendations d !! id = None -> adds_quietly d (set_row db_recommendations id row d).
Proof. split; [adds_row|done]. Qed.

Definition link_of (revision evidence : string) (row : Columns) : Prop :=
  column_is row "target_kind" "audit_revision" = true /\ column_is row "target_id" revision = true
  /\ column_text row "evidence_artifact_id" = Some evidence.

Lemma elem_of_linked revision e d :
  e ∈ linked_evidence revision d <-> exists id row, db_links d !! id = Some row /\ link_of revision e row.
Proof.
  unfold linked_evidence, rows, link_of. rewrite elem_of_list_to_set, list_elem_of_omap. split.
  - intros ([id row] & H%elem_of_map_to_list & E). cbn in E. exists id, row.
    destruct (column_is row "target_kind" _), (column_is row "target_id" _); try done.
  - intros (id & row & H & H1 & H2 & H3). exists (id, row). split; [by apply elem_of_map_to_list|]. cbn. by rewrite H1, H2, H3.
Qed.

Lemma link_row_kind e kind target t revision e' :
  link_of revision e' (link_row e kind target t) -> kind = "audit_revision" /\ target = revision /\ e' = e.
Proof.
  unfold link_of, column_is. change (column_text (link_row e kind target t) "target_kind") with (Some kind).
  change (column_text (link_row e kind target t) "target_id") with (Some target).
  change (column_text (link_row e kind target t) "evidence_artifact_id") with (Some e).
  intros ([= ->]%bool_decide_eq_true & [= ->]%bool_decide_eq_true & [= ->]). done.
Qed.

(** A link to anything but a revision. *)
Lemma support_adds id e kind target t d :
  kind <> "audit_revision" -> db_links d !! id = None -> adds_quietly d (set_row db_links id (link_row e kind target t) d).
Proof.
  intros Hk Hid. split; [by apply link_adds|]. intros revision. apply set_eq. intros x.
  rewrite !elem_of_linked, (get_set_row db_links). split.
  - intros (i & row & [[<- <-]|[_ H]]%lookup_insert_Some & Hl); [|by exists i, row]. by apply link_row_kind in Hl as [? _].
  - intros (i & row & H & Hl). exists i, row. split; [|done]. rewrite lookup_insert_ne; [done|]. intros ->. by rewrite Hid in H.
Qed.

(** ** Revisions of a window *)

(** The numbers of a window start at one, are used once and have no gaps: the revision before has
    the number before. *)
Definition well_numbered (d : DB) : Prop := forall id r, db_revisions d !! id = Some r ->
  (1 <= rv_Number r)%Z
  /\ (forall id' r', db_revisions d !! id' = Some r' -> rv_Window r' = rv_Window r -> rv_Number r' = rv_Number r -> id' = id)
  /\ match rv_Prior r with
     | None => rv_Number r = 1%Z
     | Some p => exists r', db_revisions d !! p = Some r' /\ rv_Window r' = rv_Window r /\ rv_Number r' = (rv_Number r - 1)%Z
     end.

Lemma elem_of_window_revisions window d kv :
  kv ∈ window_revisions window d <-> db_revisions d !! kv.1 = Some kv.2 /\ rv_Window kv.2 = window.
Proof.
  unfold window_revisions, rows. rewrite elem_of_filter_bool, str_eqb_eq, elem_of_map_to_list'. tauto.
Qed.

Lemma last_revision_spec window d :
  match last_revision window d with
  | None => forall id r, db_revisions d !! id = Some r -> rv_Window r <> window
  | Some (id, r) => db_revisions d !! id = Some r /\ rv_Window r = window
                    /\ forall id' r', db_revisions d !! id' = Some r' -> rv_Window r' = window -> (rv_Number r' <= rv_Number r)%Z
  end.
Proof.
  unfold last_revision. set (less := fun a b : string * RevisionRow => (rv_Number b.2 <? rv_Number a.2)%Z).
  assert (StrictWeak less) as HS.
  { unfold less. split; intros a b; [intros H%Z.ltb_lt; apply Z.ltb_ge; lia|].
    intros k H1%Z.ltb_ge H2%Z.ltb_ge. apply Z.ltb_ge. lia. }
  assert (forall kv, kv ∈ go_sort less (window_revisions window d) <-> db_revisions d !! kv.1 = Some kv.2 /\ rv_Window kv.2 = window)
    as Hin by (intros kv; rewrite elem_of_go_sort; apply elem_of_window_revisions).
  pose proof (go_sort_sorted less (window_revisions window d)) as Hsorted.
  destruct (go_sort less (window_revisions window d)) as [|[id r] l]; cbn [head].
  - intros id r Hr Hw. pose proof (proj2 (Hin (id, r)) (conj Hr Hw)) as Hn. by apply not_elem_of_nil in Hn.
  - destruct (proj1 (Hin (id, r)) ltac:(left)) as [H1 H2]. split; [done|]. split; [done|]. intros id' r' Hr' Hw'.
    pose proof (proj2 (Hin (id', r')) (conj Hr' Hw')) as Hl. apply StronglySorted_inv in Hsorted as [_ HF].
    rewrite Forall_forall in HF. apply elem_of_cons in Hl as [[= -> ->]|Hl]; [lia|].
    specialize (HF _ Hl). unfold not_after, less in HF. cbn in HF. apply Z.ltb_ge in HF. lia.
Qed.

(** The next revision keeps the numbers of the windows. *)
Lemma next_well_numbered id row d d' :
  well_numbered d -> db_revisions d !! id = None -> (rv_Number row, rv_Prior row) = next_revision (rv_Window row) d ->
  db_revisions d' = <[id := row]> (db_revisions d) -> well_numbered d'.
Proof.
  intros HW Hid Hnext HD. pose proof (last_revision_spec (rv_Window row) d) as HL. unfold next_revision in Hnext.
  assert (forall p r', db_revisions d !! p = Some r' -> <[id := row]> (db_revisions d) !! p = Some r') as Hold.
  { intros p r' Hp. rewrite lookup_insert_ne; [done|]. by intros ->; rewrite Hid in Hp. }
  assert (forall id' r', db_revisions d !! id' = Some r' -> rv_Window r' = rv_Window row -> (rv_Number r' < rv_Number row)%Z) as Hless.
  { intros id' r' Hr' Hw'. destruct (last_revision _ d) as [[p r]|]; [|by destruct (HL _ _ Hr')].
    injection Hnext as -> _. destruct HL as (_ & _ & HL). specialize (HL _ _ Hr' Hw'). lia. }
  intros i r. rewrite HD, lookup_insert_Some. intros [[<- <-]|[Hne Hr]].
  - split; [|split].
    + destruct (last_revision _ d) as [[p r]|]; injection Hnext as -> _; [|done]. destruct HL as (Hp & _).
      destruct (HW _ _ Hp). lia.
    + intros id' r'. rewrite lookup_insert_Some. intros [[<- _]|[_ Hr']] Hw Hn; [done|]. specialize (Hless _ _ Hr' Hw). lia.
    + destruct (last_revision _ d) as [[p r]|]; injection Hnext as H1 ->; [|done]. destruct HL as (Hp & Hw & _).
      exists r. split; [by apply Hold|]. split; [done|]. lia.
  - destruct (HW _ _ Hr) as (H1 & H2 & H3). split; [done|]. split.
    + intros id' r'. rewrite lookup_insert_Some. intros [[<- <-]|[_ Hr']] Hw Hn; [|by apply (H2 _ r')].
      specialize (Hless _ _ Hr (eq_sym Hw)). lia.
    + destruct (rv_Prior r) as [p|]; [|done]. destruct H3 as (r' & Hp & Hw & Hn). exists r'. split; [by apply Hold|done].
Qed.

(** ** Every call of an audit but that for its window and its revision *)

Section Keeps.
Context (numeric_sum : list float64 -> float64) (numeric_shares : list Share -> float64)
        (sha256 md5_uuid : string -> string) (sha256_hex : string -> string) (encode_refs : list string -> string)
        (encode_definition : MetricDefinition -> option string)
        (marshal_evaluated : Evaluated -> option string) (marshal_run : EvalRun -> option string)
        (encode_payload : Snapshot -> list MetricResult -> list AuditFinding -> list AuditRecommendation -> option string)
        (marshal : AuditProjectResult -> option string) (json_copy : AuditProjectResult -> option AuditProjectResult)
        (world : Outside DB).

Abbreviation adds := (keeps adds_details) (only parsing).
Abbreviation quiet := (keeps adds_quietly) (only parsing).
Abbreviation reads := (keeps (@eq DB)) (only parsing).

Lemma reads_adds {A} (m : Tx DB A) : reads m -> adds m.
Proof. intros H c r c' E. apply H in E. by rewrite E. Qed.

Lemma reads_tx_of {A} (r : result StableError A) : reads (tx_of r).
Proof. destruct r; [apply keeps_ret|apply keeps_err]; exact _. Qed.

Ltac reading :=
  intros; match goal with
  | |- keeps _ (tx_bind _ _) => apply keeps_bind; [exact _|reading..]
  | |- keeps _ (tx_ret _) => apply keeps_ret; exact _
  | |- keeps _ (tx_err _) => apply keeps_err; exact _
  | |- keeps _ (tx_of _) => apply reads_tx_of
  | |- keeps _ (query _ _ _) => apply keeps_query; exact _
  | |- keeps _ (ask _ _ _) => apply keeps_query; exact _
  | |- keeps _ (match ?x with _ => _ end) => destruct x; reading
  | |- _ => auto with store
  end.

Lemma reads_metrics f : reads (read_metrics numeric_sum world f).
Proof. unfold read_metrics. reading. Qed.

Lemma reads_confounder_signature request : reads (read_confounder_signature world request).
Proof. unfold read_confounder_signature. reading. Qed.
Hint Resolve reads_metrics reads_confounder_signature : store.

Lemma reads_dimension_signature request : reads (dimensionSignature world request).
Proof. unfold dimensionSignature. reading. Qed.

Lemma reads_tried {A} (m : Tx DB A) : reads m -> reads (tried m).
Proof. intros H c r c'. unfold tried. destruct (m c) as [[a|e] c1] eqn:E; intros [= <- <-]; by apply H in E. Qed.

Lemma reads_compute input : reads (tx_compute input).
Proof. unfold tx_compute. reading. Qed.
Hint Resolve reads_dimension_signature reads_tried reads_compute : store.

Lemma reads_windows request signature l : reads (read_windows numeric_sum world request signature l).
Proof. induction l as [|offset l IH]; cbn [read_windows]; [reading|]. unfold read_window. reading. Qed.
Hint Resolve reads_windows : store.

Lemma reads_comparisons request input suppressed : reads (comparisons numeric_sum world request input suppressed).
Proof. unfold comparisons. reading. Qed.

Lemma reads_previous request : reads (previousConfoundersMatched world request).
Proof. unfold previousConfoundersMatched. reading. Qed.

Lemma reads_workload request : reads (workloadEffects numeric_shares world request).
Proof. unfold workloadEffects, workloadValues. reading. Qed.
Hint Resolve reads_comparisons reads_previous reads_workload : store.

(** Reading the snapshot changes nothing. *)
Lemma reads_snapshot request : reads (snapshot numeric_sum numeric_shares sha256_hex encode_refs world request).
Proof. unfold snapshot, contributions, confounders, recommendationContext. reading. Qed.

Lemma reads_tool {A} (r : option (result ToolError A)) : reads (tx_of_tool r).
Proof. unfold tx_of_tool. reading. Qed.
Hint Resolve reads_snapshot reads_tool : store.

Lemma reads_engine request :
  reads (engine_run numeric_sum numeric_shares sha256_hex encode_refs encode_payload world request).
Proof. unfold engine_run. reading. Qed.

Lemma reads_project request : reads (projectIDForAudit world request).
Proof. unfold projectIDForAudit. reading. Qed.

Lemma reads_late revision prior : reads (hasNewRevisionEvidence world revision prior).
Proof. unfold hasNewRevisionEvidence. reading. Qed.

Lemma reads_revision window revision : reads (read_revision world window revision).
Proof. unfold read_revision. reading. Qed.

Hint Resolve reads_project reads_late reads_revision reads_engine : store.

Lemma adds_ask {A} operation (f : DB -> A) : adds (ask world operation f).
Proof. apply keeps_query; exact _. Qed.

Lemma quiet_once {R} (get : DB -> gmap string R) `{!Table get} operation id row references :
  (forall id row d, get d !! id = None -> adds_quietly d (set_row get id row d)) ->
  quiet (exec world operation (fun _ => insert_once get id row references)).
Proof. intros H. apply keeps_statement; [exact _|]. intros n d a d'. apply (insert_once_adds get adds_quietly). apply H. Qed.

Lemma quiet_adds {A} (m : Tx DB A) : quiet m -> adds m.
Proof. intros H c r c' E. by apply H in E as [E _]. Qed.

Lemma adds_definition d : adds (persistMetricDefinition sha256 encode_definition world d).
Proof.
  unfold persistMetricDefinition. destruct (encode_definition d) as [encoded|]; [|apply keeps_err; exact _].
  apply keeps_bind; [exact _| |].
  - apply keeps_statement; [exact _|]. intros n d0 a d1. unfold put_definition. destruct (definition_of _ _ _); [by intros [= _ <-]|].
    destruct (insert_row _ _ _ _ _) as [[u d2]|] eqn:E; [|done]. intros [= _ <-].
    apply (insert_row_adds db_definitions adds_details) in E; [done|apply definition_adds].
  - intros [|]; [apply keeps_ret; exact _|]. apply keeps_bind; [exact _|apply adds_ask|]. intros [row|]; [|apply keeps_err; exact _].
    destruct (negb _); [apply keeps_err; exact _|apply keeps_ret; exact _].
Qed.

Lemma adds_revision_links revision f d u d' :
  put_revision_links md5_uuid revision f d = Ok (u, d') -> adds_details d d'.
Proof.
  unfold put_revision_links. generalize (evidence_of_scope f d). intros l.
  assert (forall r, (forall u d1, r = Ok (u, d1) -> adds_details d d1) ->
    foldl (fun r e => let! r := r in
      insert_once db_links (md5_uuid (revision +:+ ":" +:+ e.1)) (link_row e.1 "audit_revision" revision (fl_AsOf f))
        (refers db_artifacts e.1) r.2) r l = Ok (u, d') -> adds_details d d') as H.
  { induction l as [|e l IH]; intros r Hr; cbn [foldl]; [apply Hr|]. apply IH. intros u1 d1.
    destruct r as [[u2 d2]|]; [|done]. cbn. intros E. etrans; [by apply (Hr u2)|].
    apply (insert_once_adds db_links adds_details) in E; [done|apply link_adds]. }
  apply H. by intros u1 d1 [= _ <-].
Qed.

Lemma adds_revision_evidence revision request : adds (persistRevisionEvidence md5_uuid world revision request).
Proof.
  unfold persistRevisionEvidence. apply keeps_bind; [exact _|apply reads_adds, reads_tx_of|]. intros f.
  apply keeps_statement; [exact _|]. intros n d u d'. apply adds_revision_links.
Qed.

Lemma quiet_support revision kind target refs observedAt :
  kind <> "audit_revision" ->
  quiet (persistEvidenceLinks sha256 world revision kind target refs observedAt).
Proof.
  intros Hk. apply keeps_each; [exact _|]. intros ref _. apply keeps_statement; [exact _|]. intros n d u d'. unfold put_support.
  destruct (refers _ _ _); [|by intros [= _ <-]]. apply (insert_once_adds db_links adds_quietly). by apply support_adds.
Qed.

Lemma quiet_evaluation revision request r :
  quiet (persistEvaluationRun sha256 sha256_hex marshal_evaluated marshal_run world revision request r).
Proof.
  unfold persistEvaluationRun. destruct (NewRun _ _ _ _ _ _ _ _ _ _ _); [|apply keeps_err; exact _].
  apply keeps_bind; [exact _|apply quiet_once, evaluation_adds|]. intros _. apply keeps_ret; exact _.
Qed.

Lemma quiet_result revision evaluation computedAt m :
  quiet (persistMetricResult sha256 encode_refs world revision evaluation computedAt m).
Proof.
  unfold persistMetricResult. apply keeps_bind; [exact _| |intros _; by apply quiet_support].
  apply keeps_statement; [exact _|]. intros n d u d'. unfold put_result. destruct (result_taken _ _); [by intros [= _ <-]|].
  apply (insert_row_adds db_results adds_quietly). apply result_adds.
Qed.

Lemma quiet_confounder revision asOf s : quiet (persistConfounder sha256 world revision asOf s).
Proof. apply quiet_once, observation_adds. Qed.

Lemma quiet_finding revision asOf f : quiet (persistFinding sha256 encode_refs world revision asOf f).
Proof.
  unfold persistFinding. apply keeps_bind; [exact _|apply quiet_once, finding_adds|]. intros _. by apply quiet_support.
Qed.

Lemma quiet_recommendation revision project asOf findings r :
  quiet (persistRecommendation sha256 sha256_hex encode_refs world revision project asOf findings r).
Proof. apply quiet_once, recommendation_adds. Qed.

(** ** What a persisted audit is *)

Definition stored_metric (revision : string) (m : MetricResult) (d : DB) : Prop :=
  exists id row, db_results d !! id = Some row
    /\ ms_Revision row = revision /\ ms_Name row = mr_Name m /\ ms_Version row = mr_Version m.

Definition stored_finding (revision : string) (f : AuditFinding) (d : DB) : Prop :=
  is_Some (db_findings d !! finding_id sha256 revision (af_Code f)).

Definition stored_recommendation (revision : string) (r : AuditRecommendation) (d : DB) : Prop :=
  is_Some (db_recommendations d !! collectionBatchUUID sha256 (revision +:+ ":recommendation:" +:+ ar_Code r)).

(** The result [rr] of the engine at [d] is persisted, and [canonical] tells as which revision. *)
Definition audited_as (request : AuditProjectRequest) (rr : AuditProjectResult) (d : DB) (canonical : AuditProjectResult)
    (d' : DB) : Prop :=
  let revision := revision_id sha256 (apr_RevisionHash rr) in
  exists row,
    db_revisions d' = <[revision := row]> (db_revisions d)
    /\ match db_revisions d !! revision with
       | Some old => row = old
       | None => decodeAuditRevisionHash (apr_RevisionHash rr) = Some (rv_Hash row) /\ rv_Window row = window_id sha256 request
                 /\ (rv_Number row, rv_Prior row) = next_revision (window_id sha256 request) d
       end
    /\ canonical = set_revision (rv_Number row)
                     (match rv_Prior row with Some prior => has_new_evidence revision prior d' | None => false end) rr
    /\ collected d' = collected d /\ db_windows d ⊆ db_windows d' /\ details_grow d d'
    /\ (forall m, m ∈ apr_Metrics rr -> stored_metric revision m d')
    /\ (forall f, f ∈ apr_Findings rr -> stored_finding revision f d')
    /\ (forall r, r ∈ apr_Recommendations rr -> stored_recommendation revision r d').

Lemma stored_metric_grows revision m d d' : details_grow d d' -> stored_metric revision m d -> stored_metric revision m d'.
Proof.
  intros (_ & _ & _ & _ & H & _) (id & row & Hid & Hrow). exists id, row. split; [|done]. by apply (lookup_weaken _ _ _ _ Hid).
Qed.

Lemma stored_finding_grows revision f d d' : details_grow d d' -> stored_finding revision f d -> stored_finding revision f d'.
Proof. intros (_ & _ & _ & _ & _ & H & _) [row Hrow]. exists row. by apply (lookup_weaken _ _ _ _ Hrow). Qed.

Lemma stored_recommendation_grows revision r d d' :
  details_grow d d' -> stored_recommendation revision r d -> stored_recommendation revision r d'.
Proof. intros (_ & _ & _ & _ & _ & _ & H) [row Hrow]. exists row. by apply (lookup_weaken _ _ _ _ Hrow). Qed.

(** A loop of calls that only add stores every element. *)
Lemma each_stored {A} (f : A -> Tx DB unit) (P : A -> DB -> Prop) l c c' :
  (forall x d d', details_grow d d' -> P x d -> P x d') -> (forall x, quiet (f x)) ->
  (forall x c c', f x c = (Ok tt, c') -> P x (cn_db c')) ->
  tx_each f l c = (Ok tt, c') -> forall x, x ∈ l -> P x (cn_db c').
Proof.
  intros HG HQ HP. apply each_ok.
  - intros x d d' _ (y & n & n' & r & _ & E) H. apply HQ in E as [(_ & _ & _ & E) _]. by apply (HG x d d').
  - intros x c1 c2 _. apply HP.
Qed.

Lemma result_stored revision evaluation computedAt m c c' :
  persistMetricResult sha256 encode_refs world revision evaluation computedAt m c = (Ok tt, c') ->
  stored_metric revision m (cn_db c').
Proof.
  intros ([] & c1 & E1%statement_ok & E2)%bind_ok.
  assert (details_grow (cn_db c1) (cn_db c')) as HG by (apply quiet_support in E2 as [(_ & _ & _ & H) _]; done).
  apply (stored_metric_grows _ _ _ _ HG). unfold put_result in E1. destruct (result_taken _ _) eqn:Ht.
  - injection E1 as <-. unfold result_taken in Ht. apply existsb_spec, Exists_exists in Ht as ([id row] & Hin & Ht).
    apply elem_of_map_to_list in Hin. cbn in Ht.
    apply andb_true_iff in Ht as [[H1%str_eqb_eq H2%str_eqb_eq]%andb_true_iff H3%str_eqb_eq]. by exists id, row.
  - apply insert_row_ok in E1 as (_ & _ & ->). eexists _, _. rewrite (get_set_row db_results), lookup_insert_eq.
    split; [reflexivity|]. done.
Qed.

Lemma insert_once_there {R} (get : DB -> gmap string R) `{!Table get} operation id row references c c' :
  exec world operation (fun _ => insert_once get id row references) c = (Ok tt, c') -> is_Some (get (cn_db c') !! id).
Proof.
  intros [[-> H]|(_ & _ & ->)]%statement_ok%insert_once_ok; [done|]. rewrite (get_set_row get), lookup_insert_eq. by eexists.
Qed.

Lemma finding_stored revision asOf f c c' :
  persistFinding sha256 encode_refs world revision asOf f c = (Ok tt, c') -> stored_finding revision f (cn_db c').
Proof.
  intros ([] & c1 & E1%(insert_once_there db_findings) & E2)%bind_ok. apply quiet_support in E2 as [(_ & _ & _ & H) _]; [|done].
  by apply (stored_finding_grows _ _ _ _ H).
Qed.

Lemma recommendation_stored revision project asOf findings r c c' :
  persistRecommendation sha256 sha256_hex encode_refs world revision project asOf findings r c = (Ok tt, c') ->
  stored_recommendation revision r (cn_db c').
Proof. apply (insert_once_there db_recommendations). Qed.

(** Everything but the revisions, of which [revision] is there in the end. *)
Definition revised (d d' : DB) : Prop :=
  collected d' = collected d /\ db_windows d' = db_windows d /\ details_grow d d' /\ same_links d d'.

Lemma revision_step window revision asOf coverage hash c number prior c1 u c2 :
  read_revision world window revision c = (Ok (number, prior), c1) ->
  exec world "persist project audit revision" (fun _ =>
    put_revision revision (mkRevisionRow window number asOf coverage hash asOf prior EngineVersion)) c1 = (Ok u, c2) ->
  revised (cn_db c) (cn_db c2)
  /\ exists row, rv_Number row = number /\ rv_Prior row = prior
     /\ db_revisions (cn_db c2) = <[revision := row]> (db_revisions (cn_db c))
     /\ match db_revisions (cn_db c) !! revision with
        | Some old => row = old
        | None => rv_Hash row = hash /\ rv_Window row = window /\ (number, prior) = next_revision window (cn_db c)
        end.
Proof.
  intros E1 E2%statement_ok. pose proof (reads_revision _ _ _ _ _ E1) as D. rewrite <- D in E2. clear D.
  unfold read_revision in E1. apply bind_ok in E1 as (known & c3 & [-> D]%query_ok & E1). unfold put_revision in E2.
  destruct (db_revisions (cn_db c) !! revision) as [old|] eqn:Hold; cbn in E1.
  - injection E1 as <- <- _. injection E2 as _ <-. split; [by split_and!|].
    exists old. split_and!; try done. by rewrite insert_id.
  - apply query_ok in E1 as [E1 _]. rewrite D in E1. destruct (number_taken _ _); [done|].
    apply insert_once_ok in E2 as [[_ [row Hrow]]|(_ & _ & E2)]; [by rewrite Hold in Hrow|].
    split; [rewrite E2; split_and!; [done|done|split_and!; done|done]|].
    eexists. rewrite E2, (get_set_row db_revisions). split; [|split; [|split; [reflexivity|]]]; done.
Qed.

Lemma next_revision_ext window d d' : db_revisions d' = db_revisions d -> next_revision window d' = next_revision window d.
Proof. intros H. unfold next_revision, last_revision, window_revisions, rows. by rewrite H. Qed.

Lemma has_new_evidence_ext revision prior d d' : same_links d d' -> has_new_evidence revision prior d' = has_new_evidence revision prior d.
Proof. intros H. unfold has_new_evidence. by rewrite !H. Qed.

Lemma window_step window project request c u c' :
  exec world "persist project audit window" (fun _ => put_window window project request) c = (Ok u, c') ->
  collected (cn_db c') = collected (cn_db c) /\ db_revisions (cn_db c') = db_revisions (cn_db c)
  /\ details_grow (cn_db c) (cn_db c') /\ db_windows (cn_db c) ⊆ db_windows (cn_db c').
Proof.
  intros [[-> _]|(Hn & _ & ->)]%statement_ok%insert_once_ok; (split_and!; try done). by apply insert_subseteq.
Qed.

Lemma late_step revision prior c late c' :
  hasNewRevisionEvidence world revision prior c = (Ok late, c') ->
  late = match prior with Some prior => has_new_evidence revision prior (cn_db c') | None => false end.
Proof. destruct prior as [prior|]; [by intros [-> <-]%query_ok|by intros [= <- _]]. Qed.

Lemma persist_effect request rr c canonical c' :
  persistAuditProject sha256 md5_uuid sha256_hex encode_refs encode_definition marshal_evaluated marshal_run world request rr c
  = (Ok canonical, c') -> audited_as request rr (cn_db c) canonical (cn_db c').
Proof.
  unfold persistAuditProject. destruct (decodeAuditRevisionHash _) as [hash|] eqn:Hh; [|done].
  set (revision := revision_id sha256 (apr_RevisionHash rr)).
  intros (project & c0 & P0%reads_project & ([] & c1 & E1 & E)%bind_ok)%bind_ok.
  apply window_step in E1 as (C1 & R1 & G1 & W1). rewrite <- P0 in C1, R1, G1, W1.
  apply bind_ok in E as ([number prior] & c2 & E2 & E). apply bind_ok in E as ([] & c3 & E3 & E).
  destruct (revision_step _ _ _ _ _ _ _ _ _ _ _ E2 E3) as ((C3 & W3 & G3 & L3) & row & <- & <- & R3 & Hrow). clear E2 E3.
  apply bind_ok in E as ([] & c4 & E4 & E). apply (keeps_each adds_details) in E4 as (C4 & W4 & R4 & G4); [|intros; apply adds_definition].
  apply bind_ok in E as ([] & c5 & (C5 & W5 & R5 & G5)%adds_revision_evidence & E).
  apply bind_ok in E as (late & c6 & E6 & E). pose proof (reads_late _ _ _ _ _ E6) as D6. apply late_step in E6.
  apply bind_ok in E as (evaluation & c7 & Q7%quiet_evaluation & E).
  apply bind_ok in E as ([] & c8 & E8 & E). pose proof (keeps_each _ _ _ (fun x _ => quiet_result _ _ _ x) _ _ _ E8) as Q8.
  apply bind_ok in E as ([] & c9 & Q9%(keeps_each _ _ _ (fun x _ => quiet_confounder _ _ x)) & E).
  apply bind_ok in E as ([] & c10 & E10 & E). pose proof (keeps_each _ _ _ (fun x _ => quiet_finding _ _ x) _ _ _ E10) as Q10.
  apply bind_ok in E as ([] & c11 & E11 & E). pose proof (keeps_each _ _ _ (fun x _ => quiet_recommendation _ _ _ _ x) _ _ _ E11) as Q11.
  injection E as <- <-.
  assert (adds_quietly (cn_db c5) (cn_db c11)) as [(C11 & W11 & R11 & G11) L11]
    by (rewrite D6; etrans; [exact Q7|]; etrans; [exact Q8|]; etrans; [exact Q9|]; etrans; [exact Q10|exact Q11]).
  pose proof (each_stored _ _ _ _ _ (stored_metric_grows revision) (quiet_result _ _ _) (result_stored _ _ _) E8) as S8.
  pose proof (each_stored _ _ _ _ _ (stored_finding_grows revision) (quiet_finding _ _) (finding_stored _ _) E10) as S10.
  pose proof (each_stored _ _ _ _ _ (stored_recommendation_grows revision) (quiet_recommendation _ _ _ _)
                (recommendation_stored _ _ _ _) E11) as S11.
  unfold audited_as. cbv zeta. fold revision. exists row. split_and!.
  - by rewrite R11, R5, R4, R3, R1.
  - destruct (db_revisions (cn_db c) !! revision) as [old|] eqn:Hold; rewrite R1, Hold in Hrow; [done|].
    destruct Hrow as (-> & Hw & Hn). rewrite (next_revision_ext _ _ _ R1) in Hn. done.
  - f_equal. rewrite E6, <- D6. destruct (rv_Prior row); [|done]. by rewrite (has_new_evidence_ext _ _ _ _ L11).
  - congruence.
  - by rewrite W11, W5, W4, W3.
  - etrans; [exact G1|]. etrans; [exact G3|]. etrans; [exact G4|]. etrans; [exact G5|exact G11].
  - intros m Hm. apply (stored_metric_grows _ _ (cn_db c8)); [|by apply S8].
    destruct Q9 as [(_ & _ & _ & Q9) _], Q10 as [(_ & _ & _ & Q10) _], Q11 as [(_ & _ & _ & Q11) _].
    etrans; [exact Q9|]. etrans; [exact Q10|exact Q11].
  - intros f Hf. apply (stored_finding_grows _ _ (cn_db c10)); [|by apply S10]. by destruct Q11 as [(_ & _ & _ & Q11) _].
  - exact S11.
Qed.

(** ** What is committed can be returned *)

(** The JSON of a result is no longer than with the largest revision (a [true] may be shorter than
    a [false]), and a copy has the revision of the original. *)
Definition sized : Prop :=
  (forall r number late encoded, (0 <= number < 10 ^ 18)%Z -> marshal (set_revision max_i64 true r) = Some encoded ->
     exists encoded', marshal (set_revision number late r) = Some encoded' /\ (str_len encoded' <= str_len encoded)%Z)
  /\ forall r number late, json_copy (set_revision number late r) = set_revision number late <$> json_copy r.

Lemma omit_one_revision number late r : omit_one (set_revision number late r) = set_revision number late <$> omit_one r.
Proof.
  unfold omit_one, omitOneEvidenceReference, AuditEngine.or_else. cbn [set_revision apr_Metrics apr_Findings apr_Guardrails
    apr_Contributions apr_Confounders apr_WorkloadEffects apr_Outliers].
  destruct (omit_from_last mr_EvidenceRefs _ _); [done|]. destruct (omit_from_last af_Counterevidence _ _); [done|].
  destruct (omit_from_last gr_EvidenceRefs _ _); [done|]. cbn [fmap option_fmap option_map].
  destruct (omitLast (apr_Contributions r)); [done|]. cbn [fmap option_fmap option_map].
  destruct (omitLast (apr_Confounders r)); [done|]. cbn [fmap option_fmap option_map].
  destruct (omitLast (apr_WorkloadEffects r)); [done|]. cbn [fmap option_fmap option_map].
  by destruct (omitLast (apr_Outliers r)).
Qed.

Lemma bound_loop_revision fuel limit number late r b :
  sized -> (0 <= number < 10 ^ 18)%Z ->
  bound_loop marshal fuel limit (set_revision max_i64 true r) = Some (Ok b) ->
  exists b', bound_loop marshal fuel limit (set_revision number late r) = Some (Ok b').
Proof.
  intros [HS _] Hn. revert r. induction fuel as [|fuel IH]; intros r; cbn [bound_loop]; [done|].
  destruct (marshal (set_revision max_i64 true r)) as [encoded|] eqn:E; [|done].
  destruct (HS r number late encoded Hn E) as (encoded' & -> & Hl).
  destruct (str_len encoded' <=? limit)%Z eqn:E'; [eauto|]. apply Z.leb_gt in E'.
  rewrite (proj2 (Z.leb_gt _ _)) by lia. rewrite !omit_one_revision.
  destruct (omit_one r) as [r'|]; [|done]. cbn [fmap option_fmap option_map]. apply IH.
Qed.

Lemma probe_enough number late r b :
  sized -> (0 <= number < 10 ^ 18)%Z ->
  BoundResult marshal json_copy (set_revision max_i64 true r) = Some (Ok b) ->
  exists b', BoundResult marshal json_copy (set_revision number late r) = Some (Ok b').
Proof.
  intros HS Hn. unfold BoundResult, boundResult. destruct (marshal (set_revision max_i64 true r)) as [encoded|] eqn:E; [|done].
  destruct (proj1 HS r number late encoded Hn E) as (encoded' & -> & _). rewrite !(proj2 HS).
  destruct (json_copy r) as [copy|]; [|done]. cbn [fmap option_fmap option_map].
  apply (bound_loop_revision _ _ _ _ copy b HS Hn).
Qed.

(** ** The whole call *)

Lemma audited_well_numbered request rr d canonical d' :
  well_numbered d -> audited_as request rr d canonical d' -> well_numbered d'.
Proof.
  intros HW (row & HD & Hrow & _). destruct (db_revisions d !! _) as [old|] eqn:Hold.
  - subst row. rewrite insert_id in HD by done. intros id r. rewrite HD. apply HW.
  - destruct Hrow as (_ & Hw & Hn). rewrite <- Hw in Hn. by apply (next_well_numbered _ row d d' HW Hold).
Qed.

(** What a run of the transaction at [d] does: the engine's result is persisted. *)
Definition audit_effect (request : AuditProjectRequest) (d : DB) (canonical : AuditProjectResult) (d' : DB) : Prop :=
  exists rr, (exists n c1, engine_run numeric_sum numeric_shares sha256_hex encode_refs encode_payload world request (mkConn d n) = (Ok rr, c1))
    /\ audited_as request rr d canonical d'
    /\ exists probe, BoundResult marshal json_copy (set_revision max_i64 true rr) = Some (Ok probe).

Abbreviation transaction := (audit_tx numeric_sum numeric_shares sha256 md5_uuid sha256_hex encode_refs encode_definition
  marshal_evaluated marshal_run encode_payload marshal json_copy world) (only parsing).

Lemma transaction_effect request d r d' : ran (transaction request) r d d' ->
  exists canonical, audit_effect request d canonical d' /\ forall x, r = Some x -> x = canonical.
Proof.
  intros (n & canonical & n' & E & Hr). unfold audit_tx in E. apply bind_ok in E as (rr & c1 & E1 & E).
  apply bind_ok in E as (probe & c2 & E2 & E). pose proof (reads_engine _ _ _ _ E1) as D1. pose proof (reads_tool _ _ _ _ E2) as D2.
  apply persist_effect in E. rewrite <- D2, <- D1 in E. cbn [cn_db] in E. exists canonical. split.
  - exists rr. split; [by exists n, c1|]. split; [done|]. unfold tx_of_tool in E2.
    destruct (BoundResult _ _ _) as [[b|[]]|]; try done. by exists b.
  - intros x ->. by destruct Hr as [[= ->]|].
Qed.

Lemma bind_inv {A B} (m : Tx DB A) (k : A -> Tx DB B) c r c' :
  tx_bind m k c = (r, c') -> (exists a c1, m c = (Ok a, c1) /\ k a c1 = (r, c')) \/ (exists e, m c = (Err e, c') /\ r = Err e).
Proof. unfold tx_bind. destruct (m c) as [[a|e] c1]; [eauto|]. intros [= <- <-]. eauto. Qed.

Lemma effect_returns request d canonical d' :
  sized -> audit_effect request d canonical d' -> (0 <= aw_Revision (apr_Window canonical) < 10 ^ 18)%Z ->
  exists res, BoundResult marshal json_copy canonical = Some (Ok res).
Proof.
  intros HS (rr & _ & (row & _ & _ & -> & _) & probe & HB) Hn. cbn [set_revision apr_Window aw_Revision] in Hn.
  by apply (probe_enough _ _ _ _ HS Hn HB).
Qed.

(** C3: an audit of a project, whatever fails and whatever others write before it.  The revisions
    of every window stay numbered from one, without gaps, each with the one before.  With a result,
    the engine's result was persisted as a whole: as the next revision of its window, or as the one
    that is there if it was persisted before; with its metrics, findings and recommendations; and
    nothing but rows of audits was written.  The result tells the number of the revision, and late
    evidence just when the revision is linked to evidence that the one before is not.  With an
    error the store is as it was, unless the answer to the COMMIT was lost: what is committed can
    be returned, up to a revision of nineteen digits. *)
Theorem AuditProject_exact request c r c' :
  sized -> (forall n d, well_numbered d -> well_numbered (ou_others world n d)) -> well_numbered (cn_db c) ->
  AuditProject numeric_sum numeric_shares sha256 md5_uuid sha256_hex encode_refs encode_definition marshal_evaluated
    marshal_run encode_payload marshal json_copy world request c = (r, c') ->
  well_numbered (cn_db c')
  /\ exists s, reached world (cn_db c) s
     /\ match r with
        | Ok res => exists canonical, audit_effect request s canonical (cn_db c') /\ BoundResult marshal json_copy canonical = Some (Ok res)
        | Err e => cn_db c' = s
                   \/ exists canonical, audit_effect request s canonical (cn_db c')
                        /\ (e = ErrDatabase "commit database transaction" "" \/ (10 ^ 18 <= aw_Revision (apr_Window canonical))%Z)
        end.
Proof.
  intros HS HO HW. unfold AuditProject.
  assert (forall e c1, c1 = c' -> cn_db c1 = cn_db c -> r = Err e -> well_numbered (cn_db c') /\ exists s, reached world (cn_db c) s
     /\ match r with Ok _ => False | Err _ => cn_db c' = s end) as Hearly.
  { intros e c1 -> HD ->. rewrite HD. split; [done|]. exists (cn_db c). split; [constructor|done]. }
  intros [([] & c1 & E1 & E)|(e & E1%(keeps_query world eq) & ->)]%bind_inv.
  2:{ destruct (Hearly e c' eq_refl (eq_sym E1) eq_refl) as (H1 & s & H2 & H3). split; [done|]. exists s. split; [done|by left]. }
  apply (keeps_query world eq) in E1. apply bind_inv in E as [([] & c2 & E2 & E)|(e & E2 & ->)]; apply (keeps_query world eq) in E2.
  2:{ destruct (Hearly e c' eq_refl ltac:(congruence) eq_refl) as (H1 & s & H2 & H3). split; [done|]. exists s. split; [done|by left]. }
  destruct (withSerializable world (Some (transaction request)) c2) as [r3 c3] eqn:E3.
  destruct (tried (ask world "unlock audit revision" (fun _ => tt)) c3) as [u c4] eqn:E4.
  apply (reads_tried _ (keeps_query world eq _ _)) in E4. apply withSerializable_atomic in E3 as (s & Hs & Hr).
  rewrite <- E2, <- E1 in Hs.
  assert (well_numbered s) as HWs by (clear -Hs HO HW; induction Hs as [|n d d' _ IH]; [done|by apply IH, HO]).
  destruct r3 as [canonical|e].
  - apply transaction_effect in Hr as (x & Heff & Hx). specialize (Hx _ eq_refl) as ->.
    pose proof Heff as (rr & _ & HA & _). pose proof (audited_well_numbered _ _ _ _ _ HWs HA) as HW'.
    pose proof (reads_tool _ _ _ _ E) as D5. rewrite E4, D5 in Heff, HW'. split; [done|]. exists s. split; [done|].
    destruct (decide (aw_Revision (apr_Window x) < 10 ^ 18)%Z) as [Hlt|Hge].
    + destruct (effect_returns _ _ _ _ HS Heff) as [res Hres].
      { split; [|done]. destruct Heff as (rr' & _ & (row & HD & _ & -> & _) & _).
        cbn [set_revision apr_Window aw_Revision]. destruct (HW' (revision_id sha256 (apr_RevisionHash rr')) row) as [H1 _]; [|lia].
        by rewrite HD, lookup_insert_eq. }
      rewrite Hres in E. injection E as <- _. by exists x.
    + unfold tx_of_tool in E. destruct (BoundResult marshal json_copy x) as [[res|[]]|] eqn:HB; injection E as <- _.
      all: try (by exists x). all: right; exists x; split; [done|right; lia].
  - injection E as <- <-. rewrite <- E4.
    destruct Hr as [[-> _]|[-> (x & Heff & _)%transaction_effect]].
    + split; [done|]. exists s. split; [done|by left].
    + pose proof Heff as (rr & _ & HA & _). split; [by apply (audited_well_numbered _ _ _ _ _ HWs HA)|]. exists s. split; [done|].
      right. exists x. split; [done|by left].
Qed.
End Keeps.

(** ** A concrete audit *)

(** A digest that depends on all of a text. *)
Fixpoint toy_bytes (n : nat) (z : Z) : string :=
  match n with
  | O => ""
  | S n' => String (byte_char (z mod 256)) (toy_bytes n' (z / 256))
  end.

Definition toy_hash (s : string) : string :=
  let bytes := toy_bytes 8 (foldl (fun h c => ((h + byte c + 1) * 1103515245) mod 2 ^ 64)%Z 7%Z (String.list_ascii_of_string s)) in
  bytes +:+ bytes +:+ bytes +:+ bytes.

Definition audited_project : string := "11111111-1111-1111-1111-111111111111".

(** A project with a session of three turns in the window. *)
Definition small_db : DB :=
  let turn n := mkTurnRow "trajectory" "source" n None 0 (5 * 10 ^ 9) "observed" in
  set_row db_turns "t1" (turn "t1") (set_row db_turns "t2" (turn "t2") (set_row db_turns "t3" (turn "t3")
    (set_row db_trajectories "trajectory" (mkTrajectoryRow "session" "source" "trajectory" None 1 "observed")
      (set_row db_sessions "session" (mkSessionRow (Some audited_project) "source" 1 "complete" "observed")
        (set_row db_source_versions "v1" (mkVersion "source" 1 (mkSourceAttributes None "local" "complete" true) "" 0 None)
          (set_row db_project_versions "v2" (mkVersion audited_project 1 (mkProjectAttributes "internal" "active") "" 0 None)
            (set_row db_sources "source" (mkSourceRow "codex_jsonl" 0) (set_row db_projects audited_project 0%Z empty_db)))))))).

Definition window_request : AuditProjectRequest :=
  mkAuditProjectRequest SchemaVersion "request" AuditScopeProject audited_project ["codex_jsonl"] (10 ^ 9) (9 * 10 ^ 9) (9 * 10 ^ 9)
    AuditConsentGranted.

Abbreviation toy_audit start :=
  (AuditProject (fun _ => fzero) (fun _ => fzero) toy_hash toy_hash (fun s => hex_encode (toy_hash s)) (str_join ",")
    (fun d => Some (de_Name d)) (fun _ => Some "") (fun _ => Some "") (fun s _ _ _ => Some (fmt_d (in_CompletedTurns (sn_Metrics s)))) (fun _ => Some "result") Some
    calm window_request (mkConn start 0)) (only parsing).

Lemma toy_sized : sized (fun _ => Some "result") Some.
Proof. split; [|done]. intros r number late encoded _ [= <-]. by exists "result". Qed.

Lemma small_db_numbered : well_numbered small_db.
Proof. intros id r H. vm_compute in H. discriminate H. Qed.

Example AuditProject_exact_witness :
  exists res c', toy_audit small_db = (Ok res, c') /\ aw_Revision (apr_Window res) = 1%Z /\ well_numbered (cn_db c').
Proof.
  destruct (toy_audit small_db) as [r c'] eqn:E.
  assert (exists res, r = Ok res /\ aw_Revision (apr_Window res) = 1%Z) as (res & -> & Hr).
  { replace r with (toy_audit small_db).1 by (rewrite E; reflexivity). eexists. split; vm_compute; reflexivity. }
  exists res, c'. split; [reflexivity|]. split; [exact Hr|].
  exact (proj1 (AuditProject_exact _ _ _ _ _ _ _ _ _ _ _ _ calm window_request (mkConn small_db 0) (Ok res) c'
                  toy_sized (fun _ _ H => H) small_db_numbered E)).
Defined.

(** The same audit again is the same revision; with one more turn it is the next one. *)
Definition revision_of (r : result StoreError AuditProjectResult * Conn DB) : option Z :=
  match r.1 with Ok res => Some (aw_Revision (apr_Window res)) | Err _ => None end.

Example audited_again :
  let first := cn_db (toy_audit small_db).2 in
  let later := set_row db_turns "t4" (mkTurnRow "trajectory" "source" "t4" None 0 (6 * 10 ^ 9) "observed") first in
  revision_of (toy_audit first) = Some 1%Z /\ revision_of (toy_audit later) = Some 2%Z
  /\ size (db_revisions (cn_db (toy_audit later).2)) = 2%nat.
Proof. split_and!; vm_compute; reflexivity. Qed.
