(* ===== verification/AuditPrivacy.v ===== *)
(** * What an audit of a small cohort tells (internal/store/postgres/governance.go, internal/audit/audit.go)

    An audit of a task or of a trajectory with fewer than three turns is an audit of what one
    person did.  [Snapshot] marks it and leaves out what would tell; here is what is left in the
    result once the engine has worked on it and it is stored and bounded. *)
From S2P Require Import Contracts GoInt Runtime Metrics Baseline Outlier Diagnosis Workload AuditRequest Service.
From S2P Require Import Replay AuditEngine AuditReport AuditBudget Transactions Tables LineageRows.
From S2P Require Import Snapshots AuditQueries AuditFacts AuditSnapshot AuditPersist Audited.

(** ** Metrics of incomplete input *)

(** Nothing is measured, compared or referred to. *)
Definition unmeasured (m : MetricResult) : Prop :=
  mr_NativeValue m = None /\ mr_Numerator m = None /\ mr_Denominator m = None
  /\ mr_Status m = MetricStatusInsufficient /\ mr_EvidenceRefs m = [].

Definition withheld (i : Input) : Prop := in_Coverage i = CoverageStatePartial /\ in_EvidenceRefs i = [].

Lemma ratio_unmeasured name numerator denominator i m :
  withheld i -> ratio name numerator denominator i = Some m -> unmeasured m.
Proof.
  intros [Hc Hr]. unfold ratio. destruct (definition name) as [d|]; [|done]. cbn [mbind option_bind]. rewrite Hc.
  intros [= <-]. by rewrite Hr.
Qed.

Lemma perHundred_unmeasured name numerator denominator i m :
  withheld i -> perHundred name numerator denominator i = Some m -> unmeasured m.
Proof.
  intros H. unfold perHundred. destruct (ratio _ _ _ _) as [x|] eqn:E; [|done]. apply (ratio_unmeasured _ _ _ _ _ H) in E.
  cbn [mbind option_bind]. destruct E as (E & E'). rewrite E. intros [= <-]. by split.
Qed.

Lemma calculated_unmeasured i : withheld i -> Forall (fun o => forall m, o = Some m -> unmeasured m) (calculated i).
Proof.
  intros H. unfold calculated.
  repeat (constructor; [intros m; first [apply ratio_unmeasured|apply perHundred_unmeasured]; exact H|]). constructor.
Qed.

Lemma Compute_unmeasured i results : withheld i -> Compute i = Some (Ok results) -> Forall unmeasured results.
Proof.
  intros H. unfold Compute. destruct (invalidInput i); [done|]. destruct (mapM id (calculated i)) as [l|] eqn:E; [|done].
  cbn [mbind option_bind]. intros [= <-]. rewrite go_sort_perm. apply mapM_Some in E.
  pose proof (calculated_unmeasured i H) as HF. clear H. induction E as [|o m os ms Ho _ IH]; [constructor|].
  inversion HF as [|?? H1 H2]; subst. constructor; [by apply H1|by apply IH].
Qed.

Lemma Some_Ok_inj {E A} (a b : A) : Some (Ok (E := E) a) = Some (Ok b) -> b = a.
Proof. by intros [= ->]. Qed.

Lemma applyComparisons_unmeasured results comparisons values :
  Forall unmeasured results -> applyComparisons results comparisons = Some (Ok values) -> Forall unmeasured values.
Proof.
  intros H. revert values. induction H as [|m results (Hv & Hn & Hd & Hs & Hr) _ IH]; intros values; cbn [applyComparisons].
  { intros [= <-]. constructor. }
  destruct (apply_comparison comparisons m) as [[x|]|] eqn:E; [|done..]. cbn [mbind option_bind].
  destruct (applyComparisons results comparisons) as [[xs|]|]; [|done..]. intros [= <-]. constructor; [|by apply IH].
  unfold apply_comparison in E. destruct (comparisons !! mr_Name m) as [c|].
  - unfold Apply in E. cbn [mr_NativeValue set_verdict set_threshold] in E. rewrite Hv in E.
    apply Some_Ok_inj in E as ->. by split_and!.
  - apply Some_Ok_inj in E as ->. by split_and!.
Qed.

Lemma Rank_unmeasured results : Forall unmeasured results -> Rank results = [].
Proof.
  intros H. unfold Rank. enough (omap outlier_of results = []) as -> by done.
  induction H as [|m results (Hv & _) _ IH]; [done|]. cbn. unfold outlier_of at 1. by rewrite Hv.
Qed.

Definition unknown_guardrail (g : GuardrailResult) : Prop := gr_State g = "unknown" /\ gr_EvidenceRefs g = [].

Lemma currentGuardrails_unknown i : withheld i -> Forall unknown_guardrail (currentGuardrails i).
Proof.
  intros H. unfold currentGuardrails. destruct (Compute i) as [[results|]|] eqn:E; [|constructor..].
  apply Compute_unmeasured in E; [|done]. apply Forall_fmap, Forall_true. intros name. unfold compose.
  enough (mr_NativeValue (metric_of (metricResultsByName results) name) = None
          /\ mr_EvidenceRefs (metric_of (metricResultsByName results) name) = []) as [Hv Hr].
  { split; [|exact Hr]. cbn [gr_State]. unfold guardrailState. by rewrite Hv. }
  unfold metricResultsByName, metric_of.
  assert (map_Forall (fun _ m => mr_NativeValue m = None /\ mr_EvidenceRefs m = []) (∅ : gmap string MetricResult)) as HM by done.
  revert HM. generalize (∅ : gmap string MetricResult). induction E as [|r results (Hv & _ & _ & _ & Hr) _ IH]; intros m HM; cbn [foldl].
  - destruct (m !! name) as [x|] eqn:Hx; [exact (HM _ _ Hx)|done].
  - apply IH. by apply map_Forall_insert_2.
Qed.

Lemma unknown_gate guardrails : Forall unknown_guardrail guardrails -> qualityGateState guardrails = "unknown".
Proof.
  intros H. destruct H as [|g guardrails [Hg _] H]; [done|]. unfold qualityGateState.
  change (quality_gate_loop (g :: guardrails) "pass" = "unknown"). cbn [quality_gate_loop]. rewrite Hg. cbn.
  induction H as [|g' l [Hg' _] _ IH]; [done|]. cbn [quality_gate_loop]. by rewrite Hg'.
Qed.

(** ** Findings without references *)

Definition silent (f : AuditFinding) : Prop :=
  af_EvidenceRefs f = [] /\ af_Counterevidence f = []
  /\ (af_Classification f = "necessary" \/ af_Classification f = "uncertain").

Lemma evaluate_silent o f :
  ob_EvidenceRefs o = [] -> ob_Counterevidence o = [] -> ob_Coverage o = CoverageStatePartial ->
  evaluate o = Some f -> silent f.
Proof.
  intros Hr Hc Hp. unfold evaluate. rewrite Hr, Hc, Hp. destruct (_ <=? _)%Z; [done|].
  destruct (_ && _ && _); [done|]. destruct (ob_RequiredWork o); intros [= <-]; (split; [done|split; [done|auto]]).
Qed.

Definition quiet_snapshot (s : Snapshot) : Prop :=
  withheld (sn_Metrics s) /\ sn_Coverage s = CoverageStatePartial
  /\ sn_PassivePollingRefs s = [] /\ sn_RepeatedCallRefs s = [] /\ sn_NecessaryWorkRefs s = [].

Lemma detect_silent s : quiet_snapshot s -> Forall silent (detect s).
Proof.
  intros ([_ Hr] & Hp & H1 & H2 & H3). unfold detect, Evaluate. rewrite go_sort_perm.
  assert (Forall (fun o => ob_EvidenceRefs o = [] /\ ob_Counterevidence o = [] /\ ob_Coverage o = CoverageStatePartial)
            (observations s)) as H.
  { unfold observations. rewrite Hr, Hp, H1, H2, H3. repeat (constructor; [done|]). constructor. }
  apply Forall_forall. intros f (o & Ho & Hf)%list_elem_of_omap. rewrite Forall_forall in H.
  destruct (H o Ho) as (? & ? & ?). by apply (evaluate_silent o).
Qed.

Lemma silent_no_action findings context : Forall silent findings -> Generate findings context = [noAction].
Proof.
  intros H. unfold Generate. rewrite generate_spec by (cbn; lia). rewrite <- (go_sort_perm by_code findings) in H.
  enough (omap (proposal context) (go_sort by_code findings) = []) as -> by done.
  induction H as [|f fs (_ & _ & Hc) _ IH]; [done|]. cbn. unfold proposal at 1, skipped. by destruct Hc as [-> | ->].
Qed.

(** ** The snapshot of a small cohort *)

Section Private.
Context (numeric_sum : list float64 -> float64) (numeric_shares : list Share -> float64)
        (sha256 md5_uuid : string -> string) (sha256_hex : string -> string) (encode_refs : list string -> string)
        (encode_definition : MetricDefinition -> option string)
        (marshal_evaluated : Evaluated -> option string) (marshal_run : EvalRun -> option string)
        (encode_payload : Snapshot -> list MetricResult -> list AuditFinding -> list AuditRecommendation -> option string)
        (marshal : AuditProjectResult -> option string) (json_copy : AuditProjectResult -> option AuditProjectResult)
        (world : Outside DB).

Abbreviation taken := (snapshot numeric_sum numeric_shares sha256_hex encode_refs world) (only parsing).
Abbreviation measured f d := (metrics_input numeric_sum f d) (only parsing).

(** The snapshot is put together from the metrics of the scope, which are read first. *)
Lemma snapshot_inv request c s c' :
  taken request c = (Ok s, c') ->
  exists f x refs coverage, auditFilter request = Ok f
    /\ s = assemble sha256_hex encode_refs request (small_cohort request (measured f (cn_db c))) x
    /\ rx_Metrics x = with_refs refs coverage (measured f (cn_db c))
    /\ (small_cohort request (measured f (cn_db c)) = true -> refs = [] /\ coverage = CoverageStatePartial).
Proof.
  unfold snapshot. intros (f & c1 & E1 & E)%bind_ok.
  destruct (auditFilter request) as [f'|e] eqn:Hf; [|done]. injection E1 as -> <-.
  apply bind_ok in E as (input & c2 & E2 & E). unfold read_metrics in E2.
  apply bind_ok in E2 as (i & c3 & [-> D3]%query_ok & E2). apply bind_ok in E2 as (refs & c4 & _ & E2). injection E2 as <- _.
  cbv zeta in E. do 13 (apply bind_ok in E as (? & ? & _ & E)). injection E as <- _.
  change (small_cohort request (with_refs _ _ ?i)) with (small_cohort request i).
  destruct (small_cohort request (measured f (cn_db c))) eqn:Hs.
  - exists f. eexists _, [], CoverageStatePartial. split; [done|]. rewrite Hs. by split_and!.
  - exists f. eexists _, refs, _. split; [done|]. rewrite Hs. by split_and!.
Qed.

Lemma assemble_suppressed request b x : sn_PrivacySuppressed (assemble sha256_hex encode_refs request b x) = b.
Proof. unfold assemble. cbv zeta. by repeat (destruct (boundedSlice _ _ _)). Qed.

Lemma assemble_metrics request b x : sn_Metrics (assemble sha256_hex encode_refs request b x) = rx_Metrics x.
Proof. unfold assemble. cbv zeta. by repeat (destruct (boundedSlice _ _ _)). Qed.

(** Whatever was read, this is what the snapshot of a small cohort has. *)
Lemma assemble_private request x : 
  withheld (rx_Metrics x) ->
  let s := assemble sha256_hex encode_refs request true x in
  quiet_snapshot s
  /\ sn_Reference s = opaque_alias sha256_hex (apq_Reference request)
  /\ (sn_Contributions s, sn_ConfounderStrata s, sn_WorkloadEffects s) = ([], [], [])
  /\ Forall unknown_guardrail (sn_Guardrails s)
  /\ sn_InvocationCounts s = mkInvocationCounts 0 0 0 0 0
  /\ sn_ReportScopeCounts s = mkReportScopeCounts 0 None 0 None 0 None 0 None
  /\ Forall (fun y => rs_RedactionState y = "suppressed" /\ rs_KnowledgeState y = "unknown") (sn_ReportSources s).
Proof.
  intros H. unfold assemble. cbv zeta. change (boundedSlice (A := ?A) [] ?n ?o) with (@nil A, o). cbv iota beta.
  destruct (boundedSlice _ 100 _) as [versions omitted]. cbn. split_and!; try done.
  - split; [exact H|]. split_and!; try done. apply H.
  - by apply currentGuardrails_unknown.
  - apply Forall_fmap, Forall_true. done.
Qed.

(** Nothing tells who worked on what. *)
Record discreet (request : AuditProjectRequest) (facts : GovernanceReportFacts) (r : AuditProjectResult) : Prop := {
  di_reference : apr_AuditReference r = opaque_alias sha256_hex (apq_Reference request);
  di_identity : rf_DisplayIdentity facts = opaque_alias sha256_hex (apq_Reference request);
  di_metrics : Forall unmeasured (apr_Metrics r);
  di_findings : Forall silent (apr_Findings r);
  di_advice : apr_Recommendations r = [noAction];
  di_guardrails : Forall unknown_guardrail (apr_Guardrails r);
  di_gate : rf_QualityGateState facts = "unknown";
  di_lists : apr_Contributions r = [] /\ apr_Confounders r = [] /\ apr_WorkloadEffects r = [] /\ apr_Outliers r = [];
  di_calls : apr_InvocationCounts r = mkInvocationCounts 0 0 0 0 0;
  di_sources : Forall (fun y => rs_RedactionState y = "suppressed" /\ rs_KnowledgeState y = "unknown") (rf_Sources facts);
  di_excluded : (rsc_ExcludedTrajectories (rf_ScopeCounts facts), rsc_ExcludedTurns (rf_ScopeCounts facts),
                 rsc_ExcludedToolCalls (rf_ScopeCounts facts), rsc_ExcludedEvidence (rf_ScopeCounts facts))
                = (None, None, None, None)
}.

Lemma audit_discreet request s r :
  quiet_snapshot s -> sn_Reference s = opaque_alias sha256_hex (apq_Reference request) ->
  (sn_Contributions s, sn_ConfounderStrata s, sn_WorkloadEffects s) = ([], [], []) ->
  Forall unknown_guardrail (sn_Guardrails s) -> sn_InvocationCounts s = mkInvocationCounts 0 0 0 0 0 ->
  sn_ReportScopeCounts s = mkReportScopeCounts 0 None 0 None 0 None 0 None ->
  Forall (fun y => rs_RedactionState y = "suppressed" /\ rs_KnowledgeState y = "unknown") (sn_ReportSources s) ->
  audit_snapshot encode_payload encode_refs sha256_hex s = Some (Ok r) ->
  exists facts, apr_ReportFacts r = Some facts /\ discreet request facts r.
Proof.
  intros Hq Hr [= H1 H2 H3] Hg Hi Hn Hs. unfold audit_snapshot. cbv zeta.
  change (sn_Metrics (normalizeSnapshot s)) with (sn_Metrics s).
  destruct (Compute (sn_Metrics s)) as [[results|]|] eqn:E1; [|done..]. cbn [mbind option_bind].
  destruct (applyComparisons results _) as [[calculated|]|] eqn:E2; [|done..]. cbn [mbind option_bind].
  destruct (Compute (sn_GovernanceOverhead _)) as [[overhead|]|]; [|done..]. cbn [mbind option_bind].
  destruct (hash _ _ _ _ _) as [revision|]; [|done]. intros ->%Some_Ok_inj.
  apply Compute_unmeasured in E1; [|apply Hq]. pose proof (applyComparisons_unmeasured _ _ _ E1 E2) as Hu.
  eexists. split; [reflexivity|]. split; try done; try exact Hr.
  - by apply (detect_silent (normalizeSnapshot s)).
  - by apply silent_no_action, (detect_silent (normalizeSnapshot s)).
  - by apply unknown_gate.
  - split_and!; try done. by apply Rank_unmeasured.
  - cbn [buildReportFacts rf_ScopeCounts normalizeSnapshot sn_ReportScopeCounts]. unfold normal_counts. rewrite Hn.
    cbn [rsc_IncludedTurns]. by destruct (0 <? _)%Z.
Qed.

(** Nothing is left that the budget could take. *)
Lemma nothing_listed {A B} (get : A -> list B) (P : A -> Prop) l :
  (forall x, P x -> get x = []) -> Forall P l -> sum_list_with (fun x => length (get x)) l = 0%nat.
Proof. intros H HF. induction HF as [|x l Hx _ IH]; [done|]. cbn. by rewrite (H x Hx), IH. Qed.

Lemma discreet_whole request facts r : discreet request facts r -> omittable r = 0%nat.
Proof.
  intros [_ _ Hm Hf _ Hg _ (H1 & H2 & H3 & H4) _ _ _]. unfold omittable. rewrite H1, H2, H3, H4. cbn [length].
  rewrite (nothing_listed mr_EvidenceRefs unmeasured), (nothing_listed af_Counterevidence silent),
    (nothing_listed gr_EvidenceRefs unknown_guardrail); try done.
  - by intros g [_ Hr].
  - by intros f (_ & Hr & _).
  - by intros m (_ & _ & _ & _ & Hr).
Qed.

Lemma bound_whole fuel limit r b :
  omittable r = 0%nat -> bound_loop marshal fuel limit r = Some (Ok b) -> b = r.
Proof.
  intros H. destruct fuel as [|fuel]; [done|]. cbn [bound_loop]. destruct (marshal r); [|done].
  destruct (_ <=? _)%Z; [apply Some_Ok_inj|]. destruct (omit_one r) eqn:E; [|done]. apply omit_one_spec in E. lia.
Qed.

(** ** The audit of a small cohort *)

(** A result is the bounded result of the engine on a snapshot of a state of the store. *)
Lemma audited_from_snapshot request c res c' :
  (forall r, json_copy r = Some r) ->
  AuditProject numeric_sum numeric_shares sha256 md5_uuid sha256_hex encode_refs encode_definition marshal_evaluated
    marshal_run encode_payload marshal json_copy world request c = (Ok res, c') ->
  exists d n s c1 r number late fuel, reached world (cn_db c) d /\ taken request (mkConn d n) = (Ok s, c1)
    /\ audit_snapshot encode_payload encode_refs sha256_hex s = Some (Ok r)
    /\ (omittable r < fuel)%nat
    /\ bound_loop marshal fuel MaxAuditBytes (set_revision number late r) = Some (Ok res).
Proof.
  intros Hjson. unfold AuditProject. intros ([] & c1 & E1%(keeps_query world eq) & E)%bind_ok.
  apply bind_ok in E as ([] & c2 & E2%(keeps_query world eq) & E).
  destruct (withSerializable world _ c2) as [r3 c3] eqn:E3. destruct (tried _ c3) as [u c4].
  destruct r3 as [canonical|]; [|done]. apply withSerializable_atomic in E3 as (d & Hd & Hr).
  rewrite <- E2, <- E1 in Hd. apply transaction_effect in Hr as (x & (r & (n & c5 & Eng) & HA & _) & Hx).
  specialize (Hx _ eq_refl) as ->. destruct HA as (row & _ & _ & -> & _).
  unfold engine_run in Eng. destruct (ValidateRequest request); [done|]. apply bind_ok in Eng as (s & c6 & Es & Er).
  unfold tx_of_tool in Er, E. destruct (audit_snapshot _ _ _ s) as [[r'|[]]|] eqn:Ea; try done. injection Er as -> _.
  unfold BoundResult, boundResult in E. rewrite Hjson in E. destruct (marshal _); [|done].
  destruct (bound_loop _ _ _ _) as [[b|[]]|] eqn:Eb in E; try done. injection E as <- _.
  exists d, n, s, c6, r. eexists _, _, _. split_and!; [exact Hd|exact Es|exact Ea| |exact Eb]. apply Nat.lt_succ_diag_r.
Qed.

Definition personal (request : AuditProjectRequest) : Prop :=
  apq_Scope request = AuditScopeTask \/ apq_Scope request = AuditScopeTrajectory.

Lemma small_cohort_spec request f d :
  small_cohort request (measured f d) = true <-> personal request /\ (total (scope_turns f d) < 3)%Z.
Proof.
  unfold small_cohort, personal. change (in_CompletedTurns (measured f d)) with (total (scope_turns f d)).
  rewrite andb_true_iff, orb_true_iff, !str_eqb_eq, Z.ltb_lt. done.
Qed.

(** The facts of a result are those of the snapshot. *)
Lemma audited_facts s r number late fuel res :
  audit_snapshot encode_payload encode_refs sha256_hex s = Some (Ok r) -> (omittable r < fuel)%nat ->
  bound_loop marshal fuel MaxAuditBytes (set_revision number late r) = Some (Ok res) ->
  exists facts, apr_ReportFacts res = Some facts /\ apr_ReportFacts r = Some facts
    /\ rf_PrivacySuppressed facts = sn_PrivacySuppressed s /\ rf_ScopeCounts facts = normal_counts s.
Proof.
  intros (measured & _ & _ & _ & _ & _ & _ & _ & _ & Hf)%audit_snapshot_inv Hfuel Hb.
  pose proof (bound_loop_spec marshal MaxAuditBytes fuel (set_revision number late r) Hfuel) as HO. rewrite Hb in HO.
  destruct HO as ([] & _). eexists. split; [|split; [exact Hf|done]]. rewrite om_facts. exact Hf.
Qed.

(** C4: the audit of a small cohort is silent.  For any tables and any request, the report of an
    audit that was returned is marked as suppressed exactly when its scope is a task or a trajectory
    with fewer than three turns in the window, in the state of the store it was taken from; and then
    nothing in the result tells who worked on what: the reference and the identity are opaque, every
    metric is insufficient, without a value, numerator or denominator, no metric, finding,
    recommendation or guardrail refers to evidence, no action is recommended, guardrails and quality
    gate are unknown, there are no contributions, confounders, effects or outliers, and of the
    sources neither redaction nor knowledge is told.  (What is still told: the overhead of the
    collection, the sample counts of the metrics and the counts of [suppressed_counts_return].) *)
Theorem private_audit_silent request c res c' :
  (forall r, json_copy r = Some r) ->
  AuditProject numeric_sum numeric_shares sha256 md5_uuid sha256_hex encode_refs encode_definition marshal_evaluated
    marshal_run encode_payload marshal json_copy world request c = (Ok res, c') ->
  exists d f facts, reached world (cn_db c) d /\ auditFilter request = Ok f /\ apr_ReportFacts res = Some facts
    /\ (rf_PrivacySuppressed facts = true <-> personal request /\ (total (scope_turns f d) < 3)%Z)
    /\ (rf_PrivacySuppressed facts = true -> discreet request facts res).
Proof.
  intros Hjson (d & n & s & c1 & r & number & late & fuel & Hd & Hs & Hr & Hfuel & Hb)%audited_from_snapshot; [|done].
  apply snapshot_inv in Hs as (f & x & refs & coverage & Hf & -> & Hx & Hp). cbn [cn_db] in *.
  destruct (audited_facts _ _ _ _ _ _ Hr Hfuel Hb) as (facts & H1 & H2 & H3 & _).
  exists d, f, facts. split_and!; [done..| |].
  - by rewrite H3, assemble_suppressed, small_cohort_spec.
  - rewrite H3, assemble_suppressed. intros Hsmall.
    rewrite Hsmall in Hr. destruct (Hp Hsmall) as [-> ->].
    destruct (assemble_private request x) as (P1 & P2 & P3 & P4 & P5 & P6 & P7); [by rewrite Hx|].
    destruct (audit_discreet request _ r P1 P2 P3 P4 P5 P6 P7 Hr) as (facts' & H4 & HD).
    assert (facts' = facts) as -> by congruence.
    assert (discreet request facts (set_revision number late r)) as HD' by (destruct HD; by split).
    by rewrite (bound_whole _ _ _ _ (discreet_whole _ _ _ HD') Hb).
Qed.

(** C27: the counts of a small cohort are not suppressed.  [Snapshot] replaces them by zeros, but
    [normalizeSnapshot] takes a count of zero turns for one that was not given and puts the counts of
    the metrics back: the report of every suppressed audit tells how many turns, tool calls and items
    of evidence the task or the trajectory had. *)
Theorem suppressed_counts_return request c res c' facts :
  (forall r, json_copy r = Some r) ->
  AuditProject numeric_sum numeric_shares sha256 md5_uuid sha256_hex encode_refs encode_definition marshal_evaluated
    marshal_run encode_payload marshal json_copy world request c = (Ok res, c') ->
  apr_ReportFacts res = Some facts -> rf_PrivacySuppressed facts = true ->
  exists d f, reached world (cn_db c) d /\ auditFilter request = Ok f
    /\ rsc_IncludedTurns (rf_ScopeCounts facts) = total (scope_turns f d)
    /\ ((0 < total (scope_turns f d))%Z ->
        rsc_IncludedToolCalls (rf_ScopeCounts facts) = in_ToolCalls (measured f d)
        /\ rsc_IncludedEvidence (rf_ScopeCounts facts) = total (evidence_of_scope f d)).
Proof.
  intros Hjson (d & n & s & c1 & r & number & late & fuel & Hd & Hs & Hr & Hfuel & Hb)%audited_from_snapshot Hfacts Hpriv; [|done].
  apply snapshot_inv in Hs as (f & x & refs & coverage & Hf & -> & Hx & Hp). cbn [cn_db] in *.
  destruct (audited_facts _ _ _ _ _ _ Hr Hfuel Hb) as (facts' & H1 & _ & H3 & H4).
  assert (facts' = facts) as -> by congruence. rewrite H3, assemble_suppressed in Hpriv.
  exists d, f. split; [done|]. split; [done|]. destruct (Hp Hpriv) as [-> ->]. rewrite Hpriv in H4.
  destruct (assemble_private request x) as (_ & _ & _ & _ & _ & P6 & _); [by rewrite Hx|].
  assert (0 <= total (scope_turns f d))%Z as Hpos by (unfold total; lia).
  rewrite H4. unfold normal_counts. rewrite P6, assemble_metrics, Hx. cbn [rsc_IncludedTurns Z.eqb andb].
  change (in_CompletedTurns (with_refs _ _ _)) with (total (scope_turns f d)).
  destruct (0 <? total (scope_turns f d))%Z eqn:E; [|apply Z.ltb_ge in E; cbn; split; lia].
  split; [done|]. intros _. done.
Qed.
End Private.

(** ** A small cohort *)

(** A trajectory of one turn with one response and one call of a tool. *)
Definition personal_trajectory : string := "22222222-2222-2222-2222-222222222222".

Definition personal_db : DB :=
  set_row db_tool_calls "call" (mkToolCallRow "response" None "source" "call" None "direct" "shell" (5 * 10 ^ 9)
                                  None "observed" None None None None None None)
  (set_row db_responses "response" (mkResponseRow "turn" "source" "response" None None None None None None None
                                      (5 * 10 ^ 9) None "observed")
    (set_row db_turns "turn" (mkTurnRow personal_trajectory "source" "turn" None 0 (5 * 10 ^ 9) "observed")
      (set_row db_trajectories personal_trajectory (mkTrajectoryRow "session" "source" "alias" None 1 "observed") small_db))).

Definition personal_request : AuditProjectRequest :=
  mkAuditProjectRequest SchemaVersion "request" AuditScopeTrajectory personal_trajectory ["codex_jsonl"] (10 ^ 9) (9 * 10 ^ 9)
    (9 * 10 ^ 9) AuditConsentGranted.

#[local] Abbreviation personal_audit :=
  (AuditProject (fun _ => fzero) (fun _ => fzero) toy_hash toy_hash (fun s => hex_encode (toy_hash s)) (str_join ",")
    (fun d => Some (de_Name d)) (fun _ => Some "") (fun _ => Some "") (fun s _ _ _ => Some (sn_Reference s))
    (fun _ => Some "result") Some calm personal_request (mkConn personal_db 0)) (only parsing).

(** Whether the report of a result is suppressed, and the counts it includes. *)
Definition suppressed_counts (r : result StoreError AuditProjectResult) : option (bool * Z * Z * Z) :=
  match r with
  | Ok res => (fun facts => (rf_PrivacySuppressed facts, rsc_IncludedTurns (rf_ScopeCounts facts),
                             rsc_IncludedToolCalls (rf_ScopeCounts facts), rsc_IncludedEvidence (rf_ScopeCounts facts)))
                <$> apr_ReportFacts res
  | Err _ => None
  end.

Lemma personal_audited : suppressed_counts personal_audit.1 = Some (true, 1, 1, 0)%Z.
Proof. vm_compute. reflexivity. Qed.

Lemma suppressed_counts_inv r v : suppressed_counts r = Some v ->
  exists res facts, r = Ok res /\ apr_ReportFacts res = Some facts
    /\ v = (rf_PrivacySuppressed facts, rsc_IncludedTurns (rf_ScopeCounts facts), rsc_IncludedToolCalls (rf_ScopeCounts facts),
            rsc_IncludedEvidence (rf_ScopeCounts facts)).
Proof.
  destruct r as [res|]; [|done]. cbn [suppressed_counts]. destruct (apr_ReportFacts res) as [facts|] eqn:E; [|done].
  intros [= <-]. by exists res, facts.
Qed.

Example private_audit_silent_witness :
  exists res c' facts, personal_audit = (Ok res, c') /\ apr_ReportFacts res = Some facts
    /\ discreet (fun s => hex_encode (toy_hash s)) personal_request facts res.
Proof.
  destruct (suppressed_counts_inv _ _ personal_audited) as (res & facts & Hr & Hf & [= Hp _ _ _]).
  destruct personal_audit as [r c'] eqn:E. cbn [fst] in Hr. subst r. exists res, c', facts.
  destruct (private_audit_silent _ _ _ _ _ _ _ _ _ _ _ _ calm personal_request (mkConn personal_db 0) res c'
              (fun _ => eq_refl) E) as (d & f & facts' & _ & _ & Hf' & _ & HD).
  rewrite Hf in Hf'. injection Hf' as <-. split; [reflexivity|]. split; [exact Hf|]. exact (HD (eq_sym Hp)).
Defined.

Example suppressed_counts_return_witness :
  exists d f, auditFilter personal_request = Ok f /\ total (scope_turns f d) = 1%Z
    /\ in_ToolCalls (metrics_input (fun _ => fzero) f d) = 1%Z.
Proof.
  destruct (suppressed_counts_inv _ _ personal_audited) as (res & facts & Hr & Hf & [= Hp H1 H2 _]).
  destruct personal_audit as [r c'] eqn:E. cbn [fst] in Hr. subst r.
  destruct (suppressed_counts_return _ _ _ _ _ _ _ _ _ _ _ _ calm personal_request (mkConn personal_db 0) res c' facts
              (fun _ => eq_refl) E Hf (eq_sym Hp)) as (d & f & _ & Hfl & Ht & Hc).
  exists d, f. split; [exact Hfl|]. rewrite <- Ht, <- H1. split; [reflexivity|].
  rewrite <- Ht, <- H1 in Hc. destruct (Hc eq_refl) as [Hc' _]. rewrite <- Hc'. exact (eq_sym H2).
Defined.
